(* ===== verification/_CoqProject ===== *)
-Q . S2P
Prelude.v
RustStr.v
Json.v
Protocol.v
Fence.v
Classify.v
Pool.v
Providers.v
Transports.v
Turn.v
HttpClient.v
Dispatch.v
Streams.v
Jobs.v
Dream.v
WikiText.v
Wiki.v
Extract.v
Cost.v
Redact.v
OpLog.v
Ideas.v
Server.v
Capture.v
Sync.v
Ingest.v
Identity.v
Auth.v
Vault.v
Settings.v
Speech.v
Web.v
Route.v
Recall.v
Chat.v
Query.v
Drive.v
Hub.v
Live.v
Activity.v
DreamJob.v
Lint.v
Codec.v
Boot.v
Flow.v
