(* ===== verification/Prelude.v ===== *)
(** * QCue: a verification development of its server, its harness and its wiki

    QCue captures notes and lets language models organise them: a server takes captures and synchronises
    clients, jobs distil captures into a wiki of markdown pages, and a harness of model providers answers
    questions over it. The code is the Rust workspace [src/qcue-rs]; the file names below are relative to it.

    ** How the parts work together

    A client signs in ([Identity], [Auth]), stores the keys of its model providers ([Vault]), chooses models
    ([Settings]) and sends captures ([Capture]), alone or with the operations of its other devices ([OpLog],
    [Sync]). Each capture queues a job ([Jobs]); the handler ([Ingest]) distils it through the extraction
    ([Extract]) into pages, which are written through one gate ([Wiki], over the text functions of
    [WikiText]). Idle tenants are consolidated by Auto-Dream under a lock that is also its clock ([Dream],
    [DreamJob]). What a tenant sees of all this, and the proposals it decides, is [Activity].

    Whatever asks a model, an ingest, a dream or a recall, does so through one seam ([Drive]): it takes the
    route of its tenant ([Route]), builds a harness with a fallback chain and runs a turn ([Turn]), which
    repairs the message history, checks the ledger ([Cost]) and asks the dispatcher ([Dispatch]) for a reply,
    again and again while the reply asks for tools ([Recall], [Web]). The dispatcher picks a credential from
    the pool of a provider ([Pool]), builds the request of its wire ([Transports], [Providers]), sends it
    through the guarded client ([HttpClient]) and decides by the classified error ([Classify]) whether to
    rotate, fall back, wait or give up; streamed replies come through [Streams]. A recall ([Chat], [Query])
    is shown while it runs: its events go to the streams of [Hub], its turns and sockets are [Live]. Text
    that is not trusted is fenced ([Fence]), and what leaves the server is redacted ([Redact]).

    ** Where each part is modelled

    - [Prelude]: results, options, machine integers, rows, sorting, tactics. [RustStr]: strings as bytes, with
      the standard library's operations. [Json]: [serde_json] values; an object is an association list sorted
      by its keys.
    - [Protocol]: [protocol/src]: messages, usage, responses, errors, stream events.
    - [Fence]: [utils/fence], [router/src/sanitize.rs], [llm-api/src/scrub.rs].
    - [Classify]: [router/src/classify.rs], [retry_loop.rs].
    - [Pool]: [router/src/pool.rs], a record of entries, a round-robin cursor and lease counts.
    - [Providers]: [providers/src]: the hooks as records of functions, the seven vendors, the registry.
    - [Transports]: [router/src/transport*.rs], [llm-api/src/usage_norm.rs].
    - [Turn]: [router/src/turn.rs], [tools.rs], [compress.rs], [dispatch.rs].
    - [HttpClient]: [http/src/ssrf.rs], [client.rs], [retry.rs].
    - [Dispatch]: [router/src/dispatch_http.rs], [prompt_cache.rs], [resolver.rs].
    - [Streams]: [http/src/sse.rs], [llm-api/src/*_sse.rs], [watchdog.rs].
    - [Jobs]: [app-server/src/jobs]; module [Sched] is the system of many workers.
    - [Dream]: [wiki/src/dream/lock.rs], [scheduler.rs]; module [LockSys] is the system of many sessions.
    - [WikiText]: [utils/slugify], [utils/linksan], [wiki/src/page.rs], [index_gen.rs].
    - [Wiki]: [wiki/src/path_guard.rs], [conflict.rs], [related.rs], [write_gate.rs], [page_factory.rs] and the
      tables of [store/src/wiki_repo.rs]; the class [Os] is the file system.
    - [Extract]: [wiki/src/json_hardening.rs], [wiki/src/extract], [router/src/structured.rs].
    - [Cost]: [store/src/cost_repo.rs], [wiki/src/cost.rs], prices and accrual of [app-server/src/dispatch].
    - [Redact]: [app-server/src/redact.rs]. [Ideas]: the rows of captures, [store/src/ideas_repo.rs].
    - [OpLog]: [app-server/src/sync/routes.rs], [emit.rs]: sites, operations, the event feed; [Sync]: their
      materialisation, [sync/materialize.rs].
    - [Server]: errors, query parameters, rate limits, paths, releases and configuration of [app-server/src].
    - [Capture]: [app-server/src/capture], [objstore.rs]. [Ingest]: [wiki/src/ingest.rs] with its concurrent
      tasks as a system of steps, and the job handler of [app-server/src/ingest].
    - [Identity]: tokens, magic links and social sign-in; [Auth]: accounts, sessions and their routes.
    - [Vault]: envelopes of [secrets], the routes of [app-server/src/vault] and the resolver of keys.
    - [Settings]: [app-server/src/settings]. [Speech]: [stt] and [app-server/src/transcribe].
    - [Web]: [app-server/src/web_tool.rs]. [Route]: routes and chains of [app-server/src/dispatch].
    - [Recall]: the recall tools of [ideas/src/recall] and [store/src/search_repo.rs].
    - [Chat]: curated memory, prefetch, prompt, transcripts and the request of a recall turn.
    - [Query]: [wiki/src/query.rs], [file_back.rs], [clean_markdown.rs], [approvals.rs].
    - [Drive]: [app-server/src/ingest/router_llm.rs]: the seam, over the class [Outside] of clocks and network.
    - [Hub]: [wire/hub.rs], [replay.rs], [sse.rs]. [Live]: the recall stream of [recall.rs], [wire/engine.rs],
      [dispatch.rs], [ws.rs].
    - [Activity]: [activity/routes.rs], [wikiapi/routes.rs]. [DreamJob]: the dream agent, its handler and cron.
    - [Lint]: [wiki/src/lint], [utils/frontmatter], [store/src/cooldown.rs].
    - [Flow]: a capture, the queue, the pool of workers and the ingest together, with panics.
    - [Codec]: the derived codecs of [app-server-protocol/src] and [protocol/src], as a class of writers and
      readers of JSON values, over the records of [Sync], [Hub] and [Live].
    - [Boot]: [main.rs], [db.rs], [health.rs], [jobs/spawn.rs] and the layers of [router.rs]; the mobile bridge
      [ffi/src]; the scripted models of tests, [router/src/stub.rs]; the lint [xtask/src/lints.rs].

    ** How code becomes definitions

    A Rust function is the function of the same name, [Result] is [result], [?] is [let?], a panic is
    [None] or a flag. Integers are [Z] and each operation performed at a width carries that width's
    wrap-around or saturation. Effects are explicit: what is outside the program (network, clock, tool
    execution, file system) is a parameter or class over an opaque world that is passed along, and the turn
    and the dispatcher also keep a trace of what they called and wrote, about which the safety theorems
    speak. A statement of SQL is the function it computes on the table, a list of rows in an arbitrary
    physical order, under the tenant its transaction is bound to. Where several tasks share a state the
    component has a step relation beside the code of one task: [Jobs.Sched], [Dream.LockSys], the tasks of
    [Ingest], the operations of [Hub], the inputs of a session in [Live]; in [Drive] other requests change
    the keys and the ledger between any two steps of a turn ([Outside.db_others]). Crates the source only calls (JSON,
    YAML, date and URL parsing, hashing, ciphers, signatures) and the operating system are parameters or
    classes, with what is relied on as hypotheses or laws; the witnesses instantiate them.

    ** What the theorems show

    - Turns and spending: a turn ends within its rounds, each spend directly follows a passed check, calls go
      out with keys of the tenant alone, and what an answer used is accrued once, whatever other requests do
      to keys and ledger meanwhile; the ledger holds exactly
      what was accrued and is overspent by no more than the calls in flight.
    - Dispatch and credentials: a call ends within sixteen sends, each with an eligible credential; a terminal
      auth failure is written back at once; selection is sound and complete; a stored key opens to itself
      and shows in no response.
    - Wire: streams are well bracketed and independent of chunking; fetched pages and redirects stay on
      public addresses.
    - Queue and dreams: however workers interleave, no job is held twice; one run per tenant while runs
      respect their lease; the clock advances exactly on success, and a dream job reports what it did.
    - Wiki and ingest: accepted paths stay under the real root of their tenant; a body is on disk before its
      row; a reviewed page only grows; an ingest spends only behind checks, its marks tell its outcome, and
      with one permit its tasks are the items in turn; a rejected proposal gives the wiki back.
    - End to end: the job of a new capture is claimed, and done with its page shown or left with the capture as
      it was taken, whatever the pool's workers do ([Flow]).
    - Clients: a capture is taken once and withdrawn wholly, the feed loses nothing, a push converges; a
      revoked session stays dead and a taken-over account has no password.
    - Live: a recall stream ends exactly once, a reconnect resumes exactly, streams are not shared between
      tenants, a session answers each request once and holds at most eight slots; every frame that is sent is
      read back as what was sent, and a scripted turn delivers its events.
    - Confinement: what the recall tools, the activity and the wiki routes answer depends on the rows and
      files of their tenant alone.
    - Start-up: a server serves only over a complete set of migrations; the layers around the routes let
      through only requests under their limit from known origins; the crates' layers have no cycle.

    The places where the code does less than its comments say are proved too: they are the negative
    halves of these theorems or examples beside them.

    ** Fuel and bounds

    Loops the source bounds have that bound and one more round to observe it: [run_turn] takes the
    budget's rounds plus one, the dispatcher seventeen for its cap of sixteen, a worker's tick the
    remaining attempts of its tenant's pending jobs plus one, with panics or without. Loops over text take its length, since
    each round consumes a byte. Each is shown sufficient by the termination theorem of its component
    or by a lemma that more fuel changes nothing.

    ** What is not modelled

    The table of paths, the legal pages, the build stamp, the generated bindings of the mobile client, the views
    of [app-server-protocol/src] that hold floating-point numbers, the bytes of socket frames and of server-sent
    events, and the web and mobile clients. Failures of the database driver are left out of the repository
    functions unless a statement itself can fail. Tables that several parts use are passed between them
    within one request; other requests are interleaved only in the systems of steps and in [Drive], as above,
    so a change of captures or files by another request in the middle of a turn is not seen. Floating
    point is dyadic or exact rational where it is compared only with thresholds no rounding can cross. The
    final-sigma rule of lower-casing is left out.
    Next would be the interleaving of the file system and of the rows of captures with a running turn. *)
From stdpp Require Export prelude strings gmap.
From Stdlib Require Export ZArith Lia Ascii Sorted.

(** ** Results: Rust's [Result<A, E>] *)
Inductive result (E A : Type) : Type :=
| Ok (a : A)
| Err (e : E).
Arguments Ok {E A} a.
Arguments Err {E A} e.

(** The [?] operator: [let? x := r in k] continues with the value of [r] or returns its error. *)
Definition and_then {E A B} (r : result E A) (k : A -> result E B) : result E B :=
  match r with Ok a => k a | Err e => Err e end.
Notation "'let?' x ':=' r 'in' k" := (and_then r (fun x => k))
  (at level 10, x pattern, r at level 100, k at level 200).
Definition result_map {E A B} (f : A -> B) (r : result E A) : result E B :=
  match r with Ok a => Ok (f a) | Err e => Err e end.

(** [Result::ok], [Result::map_err], [Option::ok_or]. *)
Definition result_ok {E A} (r : result E A) : option A :=
  match r with Ok a => Some a | Err _ => None end.
Definition map_err {E F A} (f : E -> F) (r : result E A) : result F A :=
  match r with Ok a => Ok a | Err e => Err (f e) end.
Definition ok_or {E A} (o : option A) (e : E) : result E A :=
  match o with Some a => Ok a | None => Err e end.
Definition is_ok {E A} (r : result E A) : bool :=
  match r with Ok _ => true | Err _ => false end.

(** [Uuid]: the number of its bytes; only compared. *)
Abbreviation Uuid := N.

(** ** Options: [unwrap_or], [or_else] *)
Definition unwrap_or {A} (o : option A) (d : A) : A :=
  match o with Some a => a | None => d end.
Definition opt_or {A} (o p : option A) : option A :=
  match o with Some a => Some a | None => p end.
Definition opt_is_some {A} (o : option A) : bool :=
  match o with Some _ => true | None => false end.
Definition opt_filter {A} (f : A -> bool) (o : option A) : option A :=
  match o with Some a => if f a then Some a else None | None => None end.

(** ** Machine integers

    Integers are [Z]; every operation that Rust performs at a width is written with that width's
    wrap-around (release builds do not set [overflow-checks]) or saturation. *)
Module Int.
Local Open Scope Z_scope.
Definition i32_max : Z := 2147483647.
Definition u32_max : Z := 4294967295.
Definition i64_max : Z := 9223372036854775807.
Definition i64_min : Z := -9223372036854775808.
Definition u64_max : Z := 18446744073709551615.

Definition in_i64 (z : Z) : Prop := i64_min <= z <= i64_max.
Definition in_u64 (z : Z) : Prop := 0 <= z <= u64_max.
Definition in_u32 (z : Z) : Prop := 0 <= z <= u32_max.

Definition wrap_u32 (z : Z) : Z := z mod 4294967296.
Definition wrap_u64 (z : Z) : Z := z mod 18446744073709551616.
Definition wrap_i64 (z : Z) : Z :=
  (z + 9223372036854775808) mod 18446744073709551616 - 9223372036854775808.

Definition sat_i64 (z : Z) : Z := Z.max i64_min (Z.min i64_max z).
Definition sat_u64 (z : Z) : Z := Z.max 0 (Z.min u64_max z).
Definition sat_u32 (z : Z) : Z := Z.max 0 (Z.min u32_max z).

Lemma wrap_u32_small (z : Z) : in_u32 z -> wrap_u32 z = z.
Proof. unfold in_u32, wrap_u32, u32_max. intros. apply Z.mod_small. lia. Qed.

Lemma wrap_u64_small (z : Z) : in_u64 z -> wrap_u64 z = z.
Proof. unfold in_u64, wrap_u64, u64_max. intros. apply Z.mod_small. lia. Qed.

Lemma wrap_u64_range (z : Z) : in_u64 (wrap_u64 z).
Proof.
  unfold in_u64, wrap_u64, u64_max.
  pose proof (Z.mod_pos_bound z 18446744073709551616 ltac:(lia)). lia.
Qed.

Lemma wrap_i64_small (z : Z) : in_i64 z -> wrap_i64 z = z.
Proof.
  unfold in_i64, wrap_i64, i64_min, i64_max. intros. rewrite Z.mod_small; lia.
Qed.

Lemma wrap_i64_range (z : Z) : in_i64 (wrap_i64 z).
Proof.
  unfold in_i64, wrap_i64, i64_min, i64_max.
  pose proof (Z.mod_pos_bound (z + 9223372036854775808) 18446744073709551616 ltac:(lia)). lia.
Qed.

Lemma sat_i64_range (z : Z) : in_i64 (sat_i64 z).
Proof. unfold in_i64, sat_i64, i64_min, i64_max. lia. Qed.

Lemma sat_i64_small (z : Z) : in_i64 z -> sat_i64 z = z.
Proof. unfold in_i64, sat_i64, i64_min, i64_max. lia. Qed.
End Int.

(** ** Automation *)

(** [case_bool] splits on the innermost boolean test of the goal, keeping its equation. *)
Ltac case_bool :=
  match goal with
  | |- context [if ?b then _ else _] => destruct b eqn:?
  end.

(** [destruct_match] splits the match or conditional at the head of a hypothesis or the goal. *)
Ltac destruct_match :=
  match goal with
  | |- context [match ?x with _ => _ end] => destruct x eqn:?
  | H : context [match ?x with _ => _ end] |- _ => destruct x eqn:?
  end.

(** [bool_prop] turns boolean equations into propositions. *)
Ltac bool_prop :=
  repeat match goal with
  | H : (_ && _)%bool = true |- _ => apply andb_true_iff in H as [? ?]
  | H : (_ || _)%bool = false |- _ => apply orb_false_iff in H as [? ?]
  | H : negb _ = true |- _ => apply negb_true_iff in H
  | H : negb _ = false |- _ => apply negb_false_iff in H
  | H : Z.eqb _ _ = true |- _ => apply Z.eqb_eq in H
  | H : Z.eqb _ _ = false |- _ => apply Z.eqb_neq in H
  | H : Z.leb _ _ = true |- _ => apply Z.leb_le in H
  | H : Z.leb _ _ = false |- _ => apply Z.leb_gt in H
  | H : Z.ltb _ _ = true |- _ => apply Z.ltb_lt in H
  | H : Z.ltb _ _ = false |- _ => apply Z.ltb_ge in H
  | H : Nat.ltb _ _ = true |- _ => apply Nat.ltb_lt in H
  | H : Nat.ltb _ _ = false |- _ => apply Nat.ltb_ge in H
  | H : Nat.leb _ _ = true |- _ => apply Nat.leb_le in H
  | H : Nat.leb _ _ = false |- _ => apply Nat.leb_gt in H
  | H : Nat.eqb _ _ = true |- _ => apply Nat.eqb_eq in H
  | H : Nat.eqb _ _ = false |- _ => apply Nat.eqb_neq in H
  | H : String.eqb _ _ = true |- _ => apply String.eqb_eq in H
  | H : String.eqb _ _ = false |- _ => apply String.eqb_neq in H
  end.

Create HintDb qcue.
#[export] Hint Resolve Int.wrap_u64_range Int.wrap_i64_range Int.sat_i64_range : qcue.

(** ** Lists *)

(** [find_map] on lists, [Iterator::find]. *)
Fixpoint find_first {A} (f : A -> bool) (l : list A) : option A :=
  match l with
  | [] => None
  | x :: l => if f x then Some x else find_first f l
  end.

Lemma find_first_some {A} (f : A -> bool) (l : list A) (x : A) :
  find_first f l = Some x -> x ∈ l /\ f x = true.
Proof.
  induction l as [|y l IH]; simpl; [done|].
  destruct (f y) eqn:Hy; intros H.
  - inv H. split; [left|done].
  - destruct (IH H). split; [by right|done].
Qed.

Lemma find_first_none {A} (f : A -> bool) (l : list A) :
  find_first f l = None <-> forall x, x ∈ l -> f x = false.
Proof.
  induction l as [|y l IH]; simpl; [split; [intros _ x Hx; inv Hx|done]|].
  destruct (f y) eqn:Hy; split; try done.
  - intros H. specialize (H y ltac:(left)). congruence.
  - intros H x Hx. apply elem_of_cons in Hx as [->|Hx]; [done|]. by apply IH.
  - intros H. apply IH. intros x Hx. apply H. by right.
Qed.

Lemma find_first_app {A} (f : A -> bool) (l k : list A) :
  find_first f (l ++ k) = opt_or (find_first f l) (find_first f k).
Proof. induction l as [|x l IH]; simpl; [done|]. by destruct (f x). Qed.

Lemma find_first_ext {A} (p q : A -> bool) (l : list A) :
  (forall x, p x = q x) -> find_first p l = find_first q l.
Proof. intros H. induction l as [|x l IH]; simpl; [done|]. by rewrite H, IH. Qed.

Lemma bool_iff_eq (a b : bool) : (a = true <-> b = true) -> a = b.
Proof. destruct a, b; intuition congruence. Qed.

(** Rows with a primary key. *)
Lemma nodup_key {A B} (f : A -> B) (l : list A) (x y : A) :
  NoDup (f <$> l) -> x ∈ l -> y ∈ l -> f x = f y -> x = y.
Proof.
  induction l as [|z l IH]; intros Hnd Hx Hy Hf; [by apply elem_of_nil in Hx|]. cbn in Hnd.
  apply NoDup_cons in Hnd as [Hz Hnd]. rewrite elem_of_cons in Hx, Hy.
  destruct Hx as [->|Hx], Hy as [->|Hy]; [done| | |by apply IH]; exfalso; apply Hz.
  - rewrite Hf. by apply list_elem_of_fmap_2.
  - rewrite <- Hf. by apply list_elem_of_fmap_2.
Qed.

Lemma nodup_key_filter {A B} (f : A -> B) (P : A -> Prop) `{!forall x, Decision (P x)} (l : list A) :
  NoDup (f <$> l) -> NoDup (f <$> filter P l).
Proof.
  induction l as [|x l IH]; intros Hnd; [done|]. cbn in Hnd. apply NoDup_cons in Hnd as [Hx Hnd].
  rewrite filter_cons. case_decide; [|by apply IH]. cbn. apply NoDup_cons. split; [|by apply IH].
  intros Hin. apply Hx. apply list_elem_of_fmap in Hin as (y & -> & Hy).
  apply list_elem_of_filter in Hy as [_ Hy]. by apply list_elem_of_fmap_2.
Qed.

Lemma Forall_app_2' {A} (P : A -> Prop) (l k : list A) :
  Forall P l -> Forall P k -> Forall P (l ++ k).
Proof. intros. by apply Forall_app. Qed.
#[export] Hint Resolve Forall_app_2' : qcue.

Lemma head_elem {A} (l : list A) (x : A) : head l = Some x -> x ∈ l.
Proof. destruct l as [|y l]; [done|]. intros [= ->]. by left. Qed.

(** [ORDER BY]: insertion sort by a boolean order; rows that the order does not separate keep the order
    they had. *)
Section SortBy.
Context {A : Type} (leb : A -> A -> bool).

Fixpoint insert_by (x : A) (l : list A) : list A :=
  match l with
  | [] => [x]
  | y :: l => if leb x y then x :: y :: l else y :: insert_by x l
  end.
Definition sort_by (l : list A) : list A := foldr insert_by [] l.

Lemma insert_by_perm (x : A) (l : list A) : Permutation (insert_by x l) (x :: l).
Proof.
  induction l as [|y l IH]; simpl; [done|]. destruct (leb x y); [done|]. rewrite IH. constructor.
Qed.

Lemma sort_by_perm (l : list A) : Permutation (sort_by l) l.
Proof. induction l as [|x l IH]; simpl; [done|]. by rewrite insert_by_perm, IH. Qed.

Context (leb_total : forall x y, leb x y = true \/ leb y x = true).
Context (leb_trans : forall x y z, leb x y = true -> leb y z = true -> leb x z = true).

Lemma insert_by_sorted (x : A) (l : list A) :
  StronglySorted (fun a b => leb a b = true) l -> StronglySorted (fun a b => leb a b = true) (insert_by x l).
Proof.
  induction l as [|y l IH]; simpl; intros Hl; [by repeat constructor|]. inv Hl.
  rename select (Forall _ l) into Hall. destruct (leb x y) eqn:Hxy.
  - constructor; [by constructor|]. constructor; [done|]. eapply Forall_impl; [exact Hall|]. eauto.
  - constructor; [by apply IH|]. assert (leb y x = true) by (destruct (leb_total x y); congruence).
    rewrite insert_by_perm. by constructor.
Qed.

Lemma sort_by_sorted (l : list A) : StronglySorted (fun a b => leb a b = true) (sort_by l).
Proof. induction l as [|x l IH]; simpl; [constructor|]. by apply insert_by_sorted. Qed.

(** Rows the order tells apart have one sorted order. *)
Lemma sort_by_unique (l k : list A) :
  (forall x y, x ∈ l -> y ∈ l -> leb x y = true -> leb y x = true -> x = y) ->
  Permutation l k -> sort_by l = sort_by k.
Proof.
  intros Hanti Hp.
  assert (Permutation (sort_by l) (sort_by k)) as Hs by (by rewrite !sort_by_perm).
  assert (forall x y, x ∈ sort_by l -> y ∈ sort_by l -> leb x y = true -> leb y x = true -> x = y) as Ha
    by (intros x y Hx Hy; apply Hanti; [rewrite sort_by_perm in Hx|rewrite sort_by_perm in Hy]; done).
  pose proof (sort_by_sorted l) as S1. pose proof (sort_by_sorted k) as S2.
  clear Hanti Hp. revert Hs Ha S1 S2. generalize (sort_by l) (sort_by k). clear l k.
  induction l as [|x l IH]; intros k Hp Ha S1 S2.
  - by apply Permutation_nil in Hp as ->.
  - destruct k as [|y k]; [by apply Permutation_sym, Permutation_nil in Hp|]. inv S1. inv S2.
    assert (x = y) as ->.
    { assert (x ∈ y :: k) as Hx by (rewrite <- Hp; left).
      assert (y ∈ x :: l) as Hy by (rewrite Hp; left).
      apply elem_of_cons in Hx as [->|Hx]; [done|]. apply elem_of_cons in Hy as [->|Hy]; [done|].
      apply Ha; [left|by right| |]; match goal with
        | Hx : ?x ∈ ?l, H : Forall _ ?l |- leb _ ?x = true => exact (proj1 (Forall_forall _ _) H _ Hx) end. }
    f_equal. apply IH; [by eapply Permutation_cons_inv| |done|done].
    intros a b Hia Hib. apply Ha; by right.
Qed.
End SortBy.

Lemma sorted_impl {A} (R S : A -> A -> Prop) (l : list A) :
  (forall x y, R x y -> S x y) -> StronglySorted R l -> StronglySorted S l.
Proof.
  intros HRS. induction 1 as [|x l Hl IH Hx]; constructor; [done|]. eapply Forall_impl; [exact Hx|]. apply HRS.
Qed.

Lemma sort_by_fmap {A B} (leb : B -> B -> bool) (g : A -> B) (l : list A) :
  sort_by leb (g <$> l) = g <$> sort_by (fun x y => leb (g x) (g y)) l.
Proof.
  assert (forall x l, insert_by leb (g x) (g <$> l) = g <$> insert_by (fun x y => leb (g x) (g y)) x l) as Hi.
  { intros x k. induction k as [|y k IH]; [done|]. cbn. destruct (leb (g x) (g y)); [done|]. cbn. by rewrite IH. }
  induction l as [|x l IH]; [done|].
  change (sort_by leb (g <$> x :: l)) with (insert_by leb (g x) (sort_by leb (g <$> l))). rewrite IH. apply Hi.
Qed.

Lemma filter_iff_in {A} (P Q : A -> Prop) `{!forall x, Decision (P x)} `{!forall x, Decision (Q x)} (l : list A) :
  (forall x, x ∈ l -> P x <-> Q x) -> filter P l = filter Q l.
Proof.
  induction l as [|x l IH]; intros Hx; [done|]. rewrite !filter_cons, IH by (intros y Hy; apply Hx; by right).
  destruct (Hx x ltac:(left)) as [H1 H2]. repeat case_decide; tauto.
Qed.
