(* ===== verification/RustStr.v ===== *)
(** * Rust strings

    A Rust [String] or [&str] is modelled by its UTF-8 bytes, a [string] of Stdlib: [String.length]
    is Rust's [len()], byte offsets are [nat]. The operations below are the [str] methods the source
    uses. Patterns are never empty in the source, and all of them are ASCII, for which searching the
    bytes and searching the characters agree (UTF-8 is self-synchronising). *)
From S2P Require Import Prelude.

#[global] Arguments String.append !_ _ / : simpl nomatch.

Module Str.
#[local] Open Scope string_scope.
#[local] Open Scope list_scope.

(** ** Slices *)
Fixpoint take (n : nat) (s : string) : string :=
  match n, s with
  | S n, String c s => String c (take n s)
  | _, _ => ""
  end.
Fixpoint drop (n : nat) (s : string) : string :=
  match n, s with
  | S n, String _ s => drop n s
  | _, _ => s
  end.

(** [&s[a..b]] *)
Definition slice (a b : nat) (s : string) : string := take (b - a) (drop a s).

(** ** Prefixes and suffixes *)
Fixpoint starts_with (p s : string) : bool :=
  match p, s with
  | EmptyString, _ => true
  | String c p, String d s => Ascii.eqb c d && starts_with p s
  | String _ _, EmptyString => false
  end.
Fixpoint strip_prefix (p s : string) : option string :=
  match p, s with
  | EmptyString, s => Some s
  | String c p, String d s => if Ascii.eqb c d then strip_prefix p s else None
  | String _ _, EmptyString => None
  end.
Definition strip_suffix (p s : string) : option string :=
  let n := String.length s - String.length p in
  if (String.length p <=? String.length s)%nat && String.eqb (drop n s) p
  then Some (take n s) else None.
Definition ends_with (p s : string) : bool := opt_is_some (strip_suffix p s).

(** ** Searching *)

(** [s.find(p)]: the byte offset of the first occurrence. *)
Fixpoint find (p s : string) : option nat :=
  if starts_with p s then Some 0%nat
  else match s with
       | EmptyString => None
       | String _ s => S <$> find p s
       end.
(** [s.rfind(p)]: the byte offset of the last occurrence. *)
Fixpoint rfind (p s : string) : option nat :=
  match s with
  | EmptyString => if starts_with p s then Some 0%nat else None
  | String _ s' =>
      match rfind p s' with
      | Some n => Some (S n)
      | None => if starts_with p s then Some 0%nat else None
      end
  end.
Definition contains (p s : string) : bool := opt_is_some (find p s).
Definition split_once (p s : string) : option (string * string) :=
  match find p s with
  | Some n => Some (take n s, drop (n + String.length p) s)
  | None => None
  end.

(** [s.replace(p, r)] for a non-empty [p]: the leftmost non-overlapping occurrences are replaced.
    [skip] counts the bytes of the occurrence being consumed. *)
Fixpoint replace_from (skip : nat) (p r s : string) : string :=
  match s with
  | EmptyString => ""
  | String c s' =>
      match skip with
      | S k => replace_from k p r s'
      | O => if starts_with p s then r +:+ replace_from (String.length p - 1) p r s'
             else String c (replace_from 0 p r s')
      end
  end.
Definition replace (p r s : string) : string := replace_from 0 p r s.

(** [while let (Some(a), Some(b)) = (s.find(o), s.find(c)) { if b > a { s.replace_range(a..b + c.len(), "
    ") } else { break } }], with the fuel that bounds its iterations. *)
Fixpoint remove_pairs (fuel : nat) (o c s : string) : string :=
  match fuel with
  | O => s
  | S fuel =>
      match find o s, find c s with
      | Some a, Some b =>
          if (a <? b)%nat
          then remove_pairs fuel o c (take a s +:+ drop (b + String.length c) s)
          else s
      | _, _ => s
      end
  end.

(** ** ASCII classes *)
Definition ascii_in (lo hi : nat) (c : ascii) : bool :=
  (lo <=? nat_of_ascii c)%nat && (nat_of_ascii c <=? hi)%nat.
Definition is_ascii_digit (c : ascii) : bool := ascii_in 48 57 c.
Definition lower (c : ascii) : ascii :=
  if ascii_in 65 90 c then ascii_of_nat (nat_of_ascii c + 32) else c.
Fixpoint map_ascii (f : ascii -> ascii) (s : string) : string :=
  match s with
  | EmptyString => EmptyString
  | String c s => String (f c) (map_ascii f s)
  end.
Definition to_ascii_lowercase : string -> string := map_ascii lower.
Definition eq_ignore_ascii_case (a b : string) : bool :=
  String.eqb (to_ascii_lowercase a) (to_ascii_lowercase b).

(** ** Trimming *)

(** Strip any of [pats] repeatedly from one end; each step removes at least one byte, so the length
    of the string is enough fuel. *)
Fixpoint first_strip (strip : string -> string -> option string) (pats : list string) (s : string)
  : option string :=
  match pats with
  | [] => None
  | p :: pats => match strip p s with Some s' => Some s' | None => first_strip strip pats s end
  end.
Fixpoint trim_loop (fuel : nat) (strip : string -> string -> option string) (pats : list string)
  (s : string) : string :=
  match fuel with
  | O => s
  | S fuel =>
      match first_strip strip pats s with
      | Some s' => trim_loop fuel strip pats s'
      | None => s
      end
  end.
Definition trim_start_matches (pats : list string) (s : string) : string :=
  trim_loop (String.length s) strip_prefix pats s.
Definition trim_end_matches (pats : list string) (s : string) : string :=
  trim_loop (String.length s) strip_suffix pats s.

Definition byte (n : nat) : ascii := ascii_of_nat n.
Fixpoint bytes (l : list nat) : string :=
  match l with
  | [] => ""
  | n :: l => String (byte n) (bytes l)
  end.

(** The UTF-8 encodings of the characters with the Unicode White_Space property, the ones
    [char::is_whitespace] accepts. *)
Definition whitespace : list string :=
  [ bytes [9]; bytes [10]; bytes [11]; bytes [12]; bytes [13]; bytes [32];
    bytes [194; 133]; bytes [194; 160]; bytes [225; 154; 128];
    bytes [226; 128; 128]; bytes [226; 128; 129]; bytes [226; 128; 130]; bytes [226; 128; 131];
    bytes [226; 128; 132]; bytes [226; 128; 133]; bytes [226; 128; 134]; bytes [226; 128; 135];
    bytes [226; 128; 136]; bytes [226; 128; 137]; bytes [226; 128; 138]; bytes [226; 128; 168];
    bytes [226; 128; 169]; bytes [226; 128; 175]; bytes [226; 129; 159]; bytes [227; 128; 128] ].
Definition trim_start : string -> string := trim_start_matches whitespace.
Definition trim_end : string -> string := trim_end_matches whitespace.
Definition trim (s : string) : string := trim_end (trim_start s).

(** The double quote, kept out of string literals. *)
Definition quote : string := bytes [34].

(** ** Lines and joins *)
Definition lf : string := bytes [10].
Definition cr : string := bytes [13].

(** [s.split('\n')] *)
Fixpoint split_on (c : ascii) (s : string) : list string :=
  match s with
  | EmptyString => [""]
  | String d s =>
      if Ascii.eqb c d then "" :: split_on c s
      else match split_on c s with
           | [] => [String d ""]
           | x :: l => String d x :: l
           end
  end.
(** [s.lines()]: no empty last line after a final newline, one trailing ["\r"] dropped per line. *)
Fixpoint drop_last_empty (l : list string) : list string :=
  match l with
  | [] => []
  | [x] => if String.eqb x "" then [] else [x]
  | x :: l => x :: drop_last_empty l
  end.
Definition lines (s : string) : list string :=
  (fun l => unwrap_or (strip_suffix cr l) l) <$> drop_last_empty (split_on (byte 10) s).
Fixpoint join (sep : string) (l : list string) : string :=
  match l with
  | [] => ""
  | [x] => x
  | x :: l => x +:+ sep +:+ join sep l
  end.

(** ** Numbers: [parse::<i64>] on a run of digits *)
Definition digit (c : ascii) : Z := Z.of_nat (nat_of_ascii c - 48).
Fixpoint digits_value (acc : Z) (s : string) : Z :=
  match s with
  | EmptyString => acc
  | String c s => digits_value (10 * acc + digit c)%Z s
  end.
Fixpoint all_digits (s : string) : bool :=
  match s with
  | EmptyString => true
  | String c s => is_ascii_digit c && all_digits s
  end.
(** [s.parse::<i64>()]: an optional sign, at least one digit, nothing else, and in range. *)
Definition parse_i64 (s : string) : option Z :=
  let '(neg, body) :=
    match s with
    | String c s' => if Ascii.eqb c "-" then (true, s') else if Ascii.eqb c "+" then (false, s')
                     else (false, s)
    | EmptyString => (false, s)
    end in
  if String.eqb body "" || negb (all_digits body) then None
  else let v := if neg then (- digits_value 0 body)%Z else digits_value 0 body in
       if (Int.i64_min <=? v)%Z && (v <=? Int.i64_max)%Z then Some v else None.

(** ** Lemmas *)

Lemma app_nil_r (s : string) : s +:+ "" = s.
Proof. induction s; simpl; congruence. Qed.

Lemma app_assoc (a b c : string) : (a +:+ b) +:+ c = a +:+ (b +:+ c).
Proof. induction a; simpl; congruence. Qed.

Lemma length_app (a b : string) :
  String.length (a +:+ b) = (String.length a + String.length b)%nat.
Proof. induction a; simpl; congruence. Qed.

Lemma app_inj_l (a b c : string) : a +:+ b = a +:+ c -> b = c.
Proof. induction a; simpl; [done|]. intros H. inv H. auto. Qed.

Lemma take_app (a b : string) : take (String.length a) (a +:+ b) = a.
Proof. induction a; simpl; [by destruct b|congruence]. Qed.

Lemma drop_app (a b : string) : drop (String.length a) (a +:+ b) = b.
Proof. induction a; simpl; [by destruct b|done]. Qed.

Lemma take_drop (n : nat) (s : string) : take n s +:+ drop n s = s.
Proof. revert s. induction n; destruct s; simpl; try done. by rewrite IHn. Qed.

Lemma drop_drop (n m : nat) (s : string) : drop n (drop m s) = drop (m + n) s.
Proof. revert s. induction m; destruct s; simpl; try done. by destruct n. Qed.

Lemma length_drop (n : nat) (s : string) :
  String.length (drop n s) = (String.length s - n)%nat.
Proof. revert s. induction n; destruct s; simpl; auto. Qed.

Lemma length_take (n : nat) (s : string) :
  String.length (take n s) = (n `min` String.length s)%nat.
Proof. revert s. induction n; destruct s; simpl; auto. Qed.

Lemma starts_with_spec (p s : string) :
  starts_with p s = true <-> exists t, s = p +:+ t.
Proof.
  revert s. induction p as [|c p IH]; intros s; simpl.
  - split; [by exists s|done].
  - destruct s as [|d s]; [split; [done|by intros [t H]]|].
    destruct (Ascii.eqb_spec c d) as [->|Hne]; simpl.
    + rewrite IH. split; intros [t H]; exists t; congruence.
    + split; [done|]. intros [t H]. congruence.
Qed.

Lemma starts_with_app (p s : string) : starts_with p (p +:+ s) = true.
Proof. apply starts_with_spec. by exists s. Qed.

Lemma strip_prefix_spec (p s t : string) : strip_prefix p s = Some t <-> s = p +:+ t.
Proof.
  revert s. induction p as [|c p IH]; intros s; simpl; [split; congruence|].
  destruct s as [|d s]; [done|].
  destruct (Ascii.eqb_spec c d) as [->|Hne].
  - rewrite IH. split; [by intros ->|]. intros H. by inv H.
  - split; [done|]. intros H. by inv H.
Qed.

Lemma strip_suffix_spec (p s t : string) : strip_suffix p s = Some t <-> s = t +:+ p.
Proof.
  unfold strip_suffix. split.
  - intros H. case_match eqn:Hb; [|done]. bool_prop. inv H.
    match goal with H : drop _ _ = p |- _ => rewrite <- H at 2 end. by rewrite take_drop.
  - intros ->. rewrite length_app.
    replace (String.length t + String.length p - String.length p)%nat with (String.length t) by lia.
    rewrite drop_app, take_app, String.eqb_refl.
    rewrite (proj2 (Nat.leb_le _ _)) by lia. done.
Qed.

Lemma find_some (p s : string) (n : nat) :
  find p s = Some n -> s = take n s +:+ p +:+ drop (n + String.length p) s.
Proof.
  revert n. induction s as [|c s IH]; intros n; cbn [find].
  - destruct (starts_with p "") eqn:Hp; [|done]. intros H. inv H.
    apply starts_with_spec in Hp as [t Ht]. destruct p; done.
  - destruct (starts_with p (String c s)) eqn:Hp.
    + intros H. inv H. apply starts_with_spec in Hp as [t Ht].
      rewrite Ht. cbn [Nat.add]. by rewrite drop_app.
    + destruct (find p s) as [m|] eqn:Hf; [|done]. intros H. inv H.
      simpl. f_equal. by apply IH.
Qed.

Lemma find_none_cons (p : string) (c : ascii) (s : string) :
  find p (String c s) = None <-> starts_with p (String c s) = false /\ find p s = None.
Proof.
  cbn [find]. destruct (starts_with p (String c s)); [split; [done|by intros [? _]]|].
  destruct (find p s); split; intros H; try done; by destruct H.
Qed.

Lemma contains_cons (p : string) (c : ascii) (s : string) :
  contains p (String c s) = starts_with p (String c s) || contains p s.
Proof.
  unfold contains. cbn [find]. destruct (starts_with p (String c s)); [done|].
  by destruct (find p s).
Qed.

Lemma contains_spec (p s : string) : contains p s = true <-> exists a b, s = a +:+ p +:+ b.
Proof.
  split.
  - unfold contains. destruct (find p s) as [n|] eqn:Hf; [|done]. intros _.
    apply find_some in Hf. eauto.
  - intros (a & b & ->). induction a as [|c a IH]; simpl.
    + unfold contains. destruct (p +:+ b) eqn:Hpb.
      * destruct p; [done|discriminate].
      * rewrite <- Hpb. replace (find p (p +:+ b)) with (Some 0%nat); [done|].
        rewrite Hpb at 1. cbn [find]. rewrite <- Hpb. by rewrite starts_with_app.
    + change (contains p (String c (a +:+ p +:+ b)) = true).
      rewrite contains_cons, IH. apply orb_true_r.
Qed.

(** [no_char c s]: the byte [c] does not occur in [s]. *)
Fixpoint no_char (c : ascii) (s : string) : bool :=
  match s with
  | EmptyString => true
  | String d s => negb (Ascii.eqb c d) && no_char c s
  end.

Lemma no_char_app (c : ascii) (a b : string) : no_char c (a +:+ b) = no_char c a && no_char c b.
Proof. induction a as [|d a IH]; simpl; [done|]. by rewrite IH, andb_assoc. Qed.

Lemma no_char_not_contains (c : ascii) (p s : string) :
  no_char c s = true -> contains (String c p) s = false.
Proof.
  induction s as [|d s IH]; intros H; [done|].
  simpl in H. apply andb_true_iff in H as [Hd Hs]. rewrite contains_cons, (IH Hs), orb_false_r.
  simpl. destruct (Ascii.eqb c d); done.
Qed.

(** *** Replacing

    [p]: the replaced pattern, [r = String d r']: the replacement. A pattern [q] whose bytes avoid
    [d] cannot extend into an inserted [r]; if in addition [q] starts with a byte absent from [r] it
    cannot start inside one, so replacing creates no occurrence of [q]. *)
Lemma starts_with_replace (p r' q : string) (d : ascii) (s : string) :
  no_char d q = true -> starts_with q (replace_from 0 p (String d r') s) = true ->
  starts_with q s = true.
Proof.
  revert q. induction s as [|a s IH]; intros q Hq; cbn [replace_from]; [done|].
  destruct (starts_with p (String a s)).
  - destruct q as [|c q]; [done|]. simpl in *. apply andb_true_iff in Hq as [Hd _].
    rewrite Ascii.eqb_sym. by destruct (Ascii.eqb d c).
  - destruct q as [|c q]; [done|]. simpl in *. apply andb_true_iff in Hq as [_ Hq].
    destruct (Ascii.eqb c a); [|done]. by apply IH.
Qed.

Lemma contains_app_no_start (c : ascii) (q a b : string) :
  no_char c a = true -> contains (String c q) (a +:+ b) = contains (String c q) b.
Proof.
  induction a as [|d a IH]; simpl; [done|]. intros H. apply andb_true_iff in H as [Hd Ha].
  rewrite contains_cons, (IH Ha). simpl. by destruct (Ascii.eqb c d).
Qed.

Lemma contains_replace_from (p r' q : string) (d c : ascii) (k : nat) (s : string) :
  no_char d (String c q) = true -> no_char c (String d r') = true ->
  contains (String c q) (replace_from k p (String d r') s) = true ->
  contains (String c q) s = true.
Proof.
  intros Hq Hr. revert k. induction s as [|a s IH]; intros k; [by destruct k|].
  rewrite (contains_cons _ a s). cbn [replace_from]. destruct k as [|k].
  - destruct (starts_with p (String a s)) eqn:Hp.
    + rewrite contains_app_no_start by done. intros H. rewrite (IH _ H). apply orb_true_r.
    + rewrite contains_cons. intros H. apply orb_true_iff in H as [H|H].
      * apply orb_true_iff. left.
        simpl in *. destruct (Ascii.eqb c a); [|done].
        apply andb_true_iff in Hq as [_ Hq]. by apply starts_with_replace in H.
      * rewrite (IH _ H). apply orb_true_r.
  - intros H. rewrite (IH _ H). apply orb_true_r.
Qed.

Lemma contains_replace_self_from (q r' : string) (d c : ascii) (k : nat) (s : string) :
  no_char d (String c q) = true -> no_char c (String d r') = true ->
  contains (String c q) (replace_from k (String c q) (String d r') s) = false.
Proof.
  intros Hq Hr. revert k. induction s as [|a s IH]; intros k; [by destruct k|].
  cbn [replace_from]. destruct k as [|k]; [|done].
  destruct (starts_with (String c q) (String a s)) eqn:Hp.
  - by rewrite contains_app_no_start.
  - rewrite contains_cons, IH, orb_false_r. apply not_true_is_false. intros H.
    enough (starts_with (String c q) (String a s) = true) by congruence.
    simpl in *. destruct (Ascii.eqb c a); [|done].
    apply andb_true_iff in Hq as [_ Hq]. by apply starts_with_replace in H.
Qed.

(** A replacement whose inserted text starts outside [q]'s bytes and avoids [q]'s first byte:
    creates no [q], and leaves no occurrence of the replaced pattern itself. *)
Lemma replace_no_new (p r' q : string) (d c : ascii) (s : string) :
  no_char d (String c q) = true -> no_char c (String d r') = true ->
  contains (String c q) s = false -> contains (String c q) (replace p (String d r') s) = false.
Proof.
  intros Hq Hr Hs. apply not_true_is_false. intros H.
  apply contains_replace_from in H; [congruence|done|done].
Qed.

Lemma replace_removes (q r' : string) (d c : ascii) (s : string) :
  no_char d (String c q) = true -> no_char c (String d r') = true ->
  contains (String c q) (replace (String c q) (String d r') s) = false.
Proof. apply contains_replace_self_from. Qed.

(** *** Locating a terminator that cannot overlap itself *)
Lemma starts_with_app_no_char (c : ascii) (q a t : string) :
  no_char c q = true -> starts_with q (a +:+ String c t) = true -> starts_with q a = true.
Proof.
  revert q. induction a as [|d a IH]; intros q Hq H; destruct q as [|e q]; try done; simpl in *.
  - by destruct (Ascii.eqb_spec e c) as [->|]; [rewrite Ascii.eqb_refl in Hq|].
  - apply andb_true_iff in Hq as [_ Hq]. apply andb_true_iff in H as [-> H]. simpl. eauto.
Qed.

Lemma find_terminator (c : ascii) (q a : string) :
  no_char c q = true -> contains (String c q) a = false ->
  find (String c q) (a +:+ String c q) = Some (String.length a).
Proof.
  intros Hq. induction a as [|d a IH]; intros Ha.
  - change ("" +:+ String c q) with (String c q). cbn [find].
    rewrite (proj2 (starts_with_spec (String c q) (String c q))); [done|].
    exists "". by rewrite app_nil_r.
  - rewrite contains_cons in Ha. apply orb_false_iff in Ha as [Hd Ha].
    cbn [String.append find]. rewrite (IH Ha).
    destruct (starts_with (String c q) (String d (a +:+ String c q))) eqn:H; [|done].
    exfalso. simpl in H, Hd. apply andb_true_iff in H as [Hcd H]. rewrite Hcd in Hd.
    apply starts_with_app_no_char in H; [|done]. by rewrite H in Hd.
Qed.

(** *** The pair-removing loop stops *)
Definition pair_removable (o c s : string) : bool :=
  match find o s, find c s with
  | Some a, Some b => (a <? b)%nat
  | _, _ => false
  end.

Lemma find_le (p s : string) (n : nat) :
  find p s = Some n -> (n + String.length p <= String.length s)%nat.
Proof.
  revert n. induction s as [|c s IH]; intros n; cbn [find].
  - destruct (starts_with p "") eqn:Hp; [|done]. intros H. inv H.
    apply starts_with_spec in Hp as [t Ht]. by destruct p.
  - destruct (starts_with p (String c s)) eqn:Hp.
    + intros H. inv H. apply starts_with_spec in Hp as [t Ht]. rewrite Ht, length_app. lia.
    + destruct (find p s) as [m|] eqn:Hf; [|done]. intros H. inv H.
      specialize (IH m eq_refl). cbn [String.length]. lia.
Qed.

Lemma remove_pairs_done (fuel : nat) (o c s : string) :
  (String.length s <= fuel)%nat -> pair_removable o c (remove_pairs fuel o c s) = false.
Proof.
  revert s. induction fuel as [|fuel IH]; intros s Hs; cbn [remove_pairs].
  - destruct s; [|cbn in Hs; lia]. unfold pair_removable.
    destruct (find o "") as [a|] eqn:Ha; [|done]. destruct (find c "") as [b|] eqn:Hb; [|done].
    apply find_le in Ha. apply find_le in Hb. cbn in Ha, Hb. apply Nat.ltb_ge. lia.
  - unfold pair_removable. destruct (find o s) as [a|] eqn:Ha; [|by rewrite Ha].
    destruct (find c s) as [b|] eqn:Hb; [|by rewrite Ha, Hb].
    destruct (a <? b)%nat eqn:Hab; [|by rewrite Ha, Hb].
    apply IH. apply Nat.ltb_lt in Hab. apply find_le in Ha. apply find_le in Hb.
    rewrite length_app, length_take, length_drop. lia.
Qed.

(** Text that holds no occurrence of [p] is not changed by [replace p]. *)
Lemma replace_id (p r s : string) : contains p s = false -> replace p r s = s.
Proof.
  unfold replace. induction s as [|c s IH]; [done|].
  rewrite contains_cons. intros H. apply orb_false_iff in H as [H1 H2].
  cbn [replace_from]. rewrite H1. by rewrite IH.
Qed.
(** *** Trimming with one pattern *)
Lemma trim_loop_stop (fuel : nat) (strip : string -> string -> option string) (pats : list string)
  (s : string) : first_strip strip pats s = None -> trim_loop fuel strip pats s = s.
Proof. destruct fuel; [done|]. simpl. by intros ->. Qed.

Lemma trim_end_stop (p s : string) :
  strip_suffix p s = None -> trim_end_matches [p] s = s.
Proof. intros H. apply trim_loop_stop. simpl. by rewrite H. Qed.

Lemma trim_start_stop (p s : string) :
  strip_prefix p s = None -> trim_start_matches [p] s = s.
Proof. intros H. apply trim_loop_stop. simpl. by rewrite H. Qed.

Lemma trim_end_one (p t : string) :
  p <> "" -> strip_suffix p t = None -> trim_end_matches [p] (t +:+ p) = t.
Proof.
  intros Hp Ht. unfold trim_end_matches. rewrite length_app.
  destruct (String.length t + String.length p)%nat as [|n] eqn:Hn; [by destruct p; [|simpl in Hn; lia]|].
  cbn [trim_loop first_strip]. rewrite (proj2 (strip_suffix_spec p (t +:+ p) t) eq_refl).
  apply trim_loop_stop. simpl. by rewrite Ht.
Qed.

Lemma app_last_inj (a b : string) (c d : ascii) :
  a +:+ String c "" = b +:+ String d "" -> c = d.
Proof.
  revert b. induction a as [|x a IH]; intros [|y b]; simpl; intros H.
  - by injection H.
  - injection H as _ H. by destruct b.
  - injection H as _ H. by destruct a.
  - injection H as _ H. eauto.
Qed.

(** A text whose last byte is not the pattern's last byte does not end with the pattern. *)
Lemma strip_suffix_last (q s : string) (c d : ascii) :
  c <> d -> strip_suffix (q +:+ String d "") (s +:+ String c "") = None.
Proof.
  intros Hne. destruct (strip_suffix _ _) as [t|] eqn:H; [|done].
  apply strip_suffix_spec in H. rewrite <- app_assoc in H. by apply app_last_inj in H.
Qed.

Lemma ends_with_false (p s : string) : ends_with p s = false <-> strip_suffix p s = None.
Proof. unfold ends_with. by destruct (strip_suffix p s). Qed.

Lemma ends_with_app (p s : string) : ends_with p (s +:+ p) = true.
Proof. unfold ends_with. by rewrite (proj2 (strip_suffix_spec p (s +:+ p) s) eq_refl). Qed.

Lemma no_char_strip_suffix (c : ascii) (s : string) :
  no_char c s = true -> strip_suffix (String c "") s = None.
Proof.
  intros Hs. destruct (strip_suffix (String c "") s) as [t|] eqn:H; [|done].
  apply strip_suffix_spec in H. subst. rewrite no_char_app in Hs. simpl in Hs.
  rewrite Ascii.eqb_refl in Hs. by rewrite andb_false_r in Hs.
Qed.

Lemma no_char_strip_prefix (c : ascii) (s : string) :
  no_char c s = true -> strip_prefix (String c "") s = None.
Proof.
  destruct s as [|d s]; [done|]. simpl. intros H. apply andb_true_iff in H as [H _].
  by destruct (Ascii.eqb c d).
Qed.
(** *** Trimming white space *)
Lemma first_strip_some (strip : string -> string -> option string) (pats : list string) (s t : string) :
  first_strip strip pats s = Some t -> exists p, In p pats /\ strip p s = Some t.
Proof.
  induction pats as [|p pats IH]; [done|]. cbn [first_strip]. destruct (strip p s) as [u|] eqn:Hp.
  - intros [= <-]. exists p. split; [by left|done].
  - intros H. destruct (IH H) as (q & Hq & Hs). exists q. split; [by right|done].
Qed.

Lemma first_strip_none (strip : string -> string -> option string) (pats : list string) (s : string) :
  first_strip strip pats s = None <-> (forall p, In p pats -> strip p s = None).
Proof.
  induction pats as [|p pats IH]; [done|]. cbn [first_strip]. split.
  - destruct (strip p s) eqn:Hp; [done|]. intros H q [<-|Hq]; [done|]. by apply IH.
  - intros H. rewrite (H p) by (by left). apply IH. intros q Hq. apply H. by right.
Qed.

Lemma trim_loop_done (strip : string -> string -> option string) (pats : list string) (fuel : nat) (s : string) :
  (forall p s t, In p pats -> strip p s = Some t -> (String.length t < String.length s)%nat) ->
  (String.length s <= fuel)%nat -> first_strip strip pats (trim_loop fuel strip pats s) = None.
Proof.
  intros Hp. revert s. induction fuel as [|fuel IH]; intros s Hl; cbn [trim_loop].
  - destruct (first_strip strip pats s) as [t|] eqn:Hs; [|done].
    apply first_strip_some in Hs as (p & Hin & Hs). apply Hp in Hs; [lia|done].
  - destruct (first_strip strip pats s) as [t|] eqn:Hs; [|done]. apply IH.
    apply first_strip_some in Hs as (p & Hin & Hs). apply Hp in Hs; [lia|done].
Qed.

Lemma trim_loop_end_prefix (pats : list string) (fuel : nat) (s : string) :
  exists b, s = trim_loop fuel strip_suffix pats s +:+ b.
Proof.
  revert s. induction fuel as [|fuel IH]; intros s; cbn [trim_loop]; [exists ""; by rewrite app_nil_r|].
  destruct (first_strip strip_suffix pats s) as [t|] eqn:Hs; [|exists ""; by rewrite app_nil_r].
  apply first_strip_some in Hs as (p & _ & Hs). apply strip_suffix_spec in Hs as ->.
  destruct (IH t) as [b Hb]. exists (b +:+ p). by rewrite <- app_assoc, <- Hb.
Qed.

Lemma whitespace_nonempty (p : string) : In p whitespace -> (0 < String.length p)%nat.
Proof.
  assert (Forall (fun p => (0 < String.length p)%nat) whitespace) as H by (repeat constructor).
  rewrite List.Forall_forall in H. apply H.
Qed.

Lemma trim_start_none (s : string) : first_strip strip_prefix whitespace (trim_start s) = None.
Proof.
  apply trim_loop_done; [|done]. intros p u t Hp Hs. apply strip_prefix_spec in Hs as ->.
  rewrite length_app. apply whitespace_nonempty in Hp. lia.
Qed.

Lemma trim_end_none (s : string) : first_strip strip_suffix whitespace (trim_end s) = None.
Proof.
  apply trim_loop_done; [|done]. intros p u t Hp Hs. apply strip_suffix_spec in Hs as ->.
  rewrite length_app. apply whitespace_nonempty in Hp. lia.
Qed.

Lemma trim_idem (s : string) : trim (trim s) = trim s.
Proof.
  unfold trim at 1. assert (trim_start (trim s) = trim s) as ->; [|apply trim_loop_stop, trim_end_none].
  apply trim_loop_stop, first_strip_none. intros p Hp.
  destruct (strip_prefix p (trim s)) as [t|] eqn:Ht; [|done]. exfalso.
  destruct (trim_loop_end_prefix whitespace (String.length (trim_start s)) (trim_start s)) as [b Hb].
  pose proof (proj1 (first_strip_none _ _ _) (trim_start_none s) p Hp) as Hn.
  rewrite Hb in Hn. fold (trim_end_matches whitespace (trim_start s)) in Hn. fold (trim_end (trim_start s)) in Hn.
  fold (trim s) in Hn. apply strip_prefix_spec in Ht. rewrite Ht, app_assoc in Hn.
  by rewrite (proj2 (strip_prefix_spec p _ (t +:+ b)) eq_refl) in Hn.
Qed.
End Str.

Create Rewrite HintDb qcue_str.
#[export] Hint Rewrite Str.length_app Str.length_drop Str.length_take Str.app_assoc Str.app_nil_r
  : qcue_str.
