(* ===== verification/Json.v ===== *)
(** * JSON values: the data type of [serde_json]

    [serde_json] is built without its [preserve_order] feature, so an object is a [BTreeMap]: an
    association list kept sorted by the byte order of its keys. Parsing and printing belong to the
    crate and are the class [Json] below: the components take them as a parameter. *)
From S2P Require Import Prelude RustStr.
From Stdlib Require Import Sorting.Sorted.

#[local] Open Scope string_scope.
#[local] Open Scope list_scope.
#[local] Set Warnings "-register-all".

(** A finite float is the dyadic rational [m * 2^e]; [json!] of a non-finite one is [null]. *)
Inductive Float : Type :=
| Finite (m e : Z)
| NonFinite.

Inductive Number : Type :=
| PosInt (n : Z)
| NegInt (n : Z)
| FloatNum (m e : Z).

Inductive Value : Type :=
| Null
| Bool (b : bool)
| Number_ (n : Number)
| String_ (s : string)
| Array (l : list Value)
| Object (m : list (string * Value)).

(** Parsing and printing, [serde_json::from_str::<Value>] and [serde_json::to_string]; the error of
    a failed parse is its message. *)
Class Json : Type := {
  from_str : string -> result string Value;
  to_string : Value -> string;
}.

(** A concrete parser for the witnesses: it rejects everything. *)
Definition no_json : Json :=
  {| from_str := fun _ => Err "expected value"; to_string := fun _ => "" |}.

(** ** Objects *)
Module JMap.
Definition t : Type := list (string * Value).

Fixpoint get (k : string) (m : t) : option Value :=
  match m with
  | [] => None
  | (k', v) :: m => if String.eqb k k' then Some v else get k m
  end.

Fixpoint insert (k : string) (v : Value) (m : t) : t :=
  match m with
  | [] => [(k, v)]
  | (k', v') :: m' =>
      match String.compare k k' with
      | Eq => (k, v) :: m'
      | Lt => (k, v) :: m
      | Gt => (k', v') :: insert k v m'
      end
  end.

Fixpoint remove (k : string) (m : t) : t :=
  match m with
  | [] => []
  | (k', v) :: m => if String.eqb k k' then m else (k', v) :: remove k m
  end.

(** An object literal of [json!]. *)
Definition of_list (l : t) : t := foldl (fun m '(k, v) => insert k v m) [] l.

Definition keys (m : t) : list string := fst <$> m.
End JMap.

(** [json!({ ... })] *)
Definition obj (l : list (string * Value)) : Value := Object (JMap.of_list l).
(** [json!(x)] at the types the source serialises. *)
Definition jstr (s : string) : Value := String_ s.
Definition jnum (n : Z) : Value := Number_ (if (n <? 0)%Z then NegInt n else PosInt n).
Definition jf32 (f : Float) : Value :=
  match f with Finite m e => Number_ (FloatNum m e) | NonFinite => Null end.

(** ** Accessors *)
Definition get (k : string) (v : Value) : option Value :=
  match v with Object m => JMap.get k m | _ => None end.
Definition get_at (i : nat) (v : Value) : option Value :=
  match v with Array l => l !! i | _ => None end.
Definition as_str (v : Value) : option string :=
  match v with String_ s => Some s | _ => None end.
Definition as_array (v : Value) : option (list Value) :=
  match v with Array l => Some l | _ => None end.
Definition as_bool (v : Value) : option bool :=
  match v with Bool b => Some b | _ => None end.
Definition as_u64 (v : Value) : option Z :=
  match v with Number_ (PosInt n) => Some n | _ => None end.
Definition is_object (v : Value) : bool :=
  match v with Object _ => true | _ => false end.
Definition is_null (v : Value) : bool :=
  match v with Null => true | _ => false end.

(** [v.get(k).and_then(|x| x.as_str())] *)
Definition get_str (k : string) (v : Value) : option string := get k v ≫= as_str.

(** [v.pointer("/a/b")], the path given as its tokens; the source's tokens are never indices. *)
Fixpoint pointer (path : list string) (v : Value) : option Value :=
  match path with
  | [] => Some v
  | k :: path => get k v ≫= pointer path
  end.

(** [v[k] = x]: a [null] becomes an object, any other non-object panics ([None]). *)
Definition index_mut (k : string) (x : Value) (v : Value) : option Value :=
  match v with
  | Object m => Some (Object (JMap.insert k x m))
  | Null => Some (Object (JMap.insert k x []))
  | _ => None
  end.

(** ** Lemmas *)

Lemma string_compare_refl (a : string) : String.compare a a = Eq.
Proof.
  pose proof (String.compare_antisym a a) as H. by destruct (String.compare a a).
Qed.

Lemma jmap_get_insert_eq (k : string) (v : Value) (m : JMap.t) :
  JMap.get k (JMap.insert k v m) = Some v.
Proof.
  induction m as [|[k' v'] m IH]; simpl; [by rewrite String.eqb_refl|].
  destruct (String.compare k k') eqn:Hc; simpl; [by rewrite String.eqb_refl..|].
  destruct (String.eqb_spec k k') as [->|]; [|done].
  by rewrite string_compare_refl in Hc.
Qed.

Lemma jmap_get_insert_ne (k k' : string) (v : Value) (m : JMap.t) :
  k <> k' -> JMap.get k (JMap.insert k' v m) = JMap.get k m.
Proof.
  intros Hne. induction m as [|[k'' v''] m IH]; simpl.
  - by rewrite (proj2 (String.eqb_neq _ _) Hne).
  - destruct (String.compare k' k'') eqn:Hc; simpl.
    + apply String.compare_eq_iff in Hc as ->. by rewrite (proj2 (String.eqb_neq _ _) Hne).
    + by rewrite (proj2 (String.eqb_neq _ _) Hne).
    + by rewrite IH.
Qed.

Lemma jmap_get_insert (k k' : string) (v : Value) (m : JMap.t) :
  JMap.get k (JMap.insert k' v m) = if String.eqb k k' then Some v else JMap.get k m.
Proof.
  destruct (String.eqb_spec k k') as [->|].
  - apply jmap_get_insert_eq.
  - by apply jmap_get_insert_ne.
Qed.

Lemma jmap_get_remove_ne (k k' : string) (m : JMap.t) :
  k <> k' -> JMap.get k (JMap.remove k' m) = JMap.get k m.
Proof.
  intros Hne. induction m as [|[k'' v''] m IH]; simpl; [done|].
  destruct (String.eqb_spec k' k'') as [->|]; simpl; [|by rewrite IH].
  by rewrite (proj2 (String.eqb_neq _ _) Hne).
Qed.

(** *** Objects are kept sorted, so a key occurs at most once *)
Definition string_lt (a b : string) : Prop := String.compare a b = Lt.

Lemma string_compare_eq (a b : string) : String.compare a b = Eq <-> a = b.
Proof. split; [apply String.compare_eq_iff|]. intros ->. apply string_compare_refl. Qed.

Lemma ascii_compare_trans (a b c : ascii) :
  Ascii.compare a b = Lt -> Ascii.compare b c = Lt -> Ascii.compare a c = Lt.
Proof. unfold Ascii.compare. rewrite !N.compare_lt_iff. apply N.lt_trans. Qed.

Lemma string_lt_trans (a b c : string) : string_lt a b -> string_lt b c -> string_lt a c.
Proof.
  unfold string_lt. revert b c. induction a as [|x a IH]; intros [|y b] [|z c]; simpl; try done.
  destruct (Ascii.compare x y) eqn:Hxy, (Ascii.compare y z) eqn:Hyz; try done; intros H1 H2.
  - apply Ascii.compare_eq_iff in Hxy as ->. rewrite Hyz. eauto.
  - apply Ascii.compare_eq_iff in Hxy as ->. by rewrite Hyz.
  - apply Ascii.compare_eq_iff in Hyz as ->. by rewrite Hxy.
  - by rewrite (ascii_compare_trans x y z).
Qed.

Lemma string_compare_gt (a b : string) : String.compare a b = Gt -> string_lt b a.
Proof. intros H. unfold string_lt. rewrite String.compare_antisym, H. done. Qed.

Definition jmap_wf (m : JMap.t) : Prop := StronglySorted string_lt (JMap.keys m).

Lemma jmap_insert_keys (k x : string) (v : Value) (m : JMap.t) :
  x ∈ JMap.keys (JMap.insert k v m) -> x = k \/ x ∈ JMap.keys m.
Proof.
  unfold JMap.keys. induction m as [|[k' v'] m IH]; simpl.
  - intros Hx. apply elem_of_cons in Hx as [->|Hx]; [by left|inv Hx].
  - destruct (String.compare k k'); simpl; rewrite !elem_of_cons; [tauto|tauto|].
    intros [->|Hx]; [tauto|]. destruct (IH Hx); tauto.
Qed.

Lemma jmap_wf_insert (k : string) (v : Value) (m : JMap.t) :
  jmap_wf m -> jmap_wf (JMap.insert k v m).
Proof.
  unfold jmap_wf, JMap.keys. induction m as [|[k' v'] m IH]; simpl; intros Hm; [by repeat constructor|].
  inv Hm. rename select (Forall _ _) into Hall.
  destruct (String.compare k k') eqn:Hc; simpl.
  - apply string_compare_eq in Hc as ->. by constructor.
  - constructor; [by constructor|]. constructor; [done|].
    eapply Forall_impl; [exact Hall|]. intros x. by apply string_lt_trans.
  - constructor; [by apply IH|]. apply Forall_forall. intros x Hx.
    apply jmap_insert_keys in Hx as [->|Hx]; [by apply string_compare_gt|].
    by eapply Forall_forall in Hall.
Qed.

Lemma jmap_wf_of_list (l : list (string * Value)) : jmap_wf (JMap.of_list l).
Proof.
  unfold JMap.of_list. assert (jmap_wf []) as H0 by constructor. revert H0.
  generalize (@nil (string * Value)). induction l as [|[k v] l IH]; intros m Hm; [done|].
  simpl. apply IH. by apply jmap_wf_insert.
Qed.

Lemma jmap_get_keys (k : string) (m : JMap.t) : k ∉ JMap.keys m -> JMap.get k m = None.
Proof.
  unfold JMap.keys. induction m as [|[k' v'] m IH]; [done|]. simpl. rewrite not_elem_of_cons.
  intros [Hk Hm]. rewrite (proj2 (String.eqb_neq _ _) Hk). auto.
Qed.

Lemma jmap_get_remove_eq (k : string) (m : JMap.t) :
  jmap_wf m -> JMap.get k (JMap.remove k m) = None.
Proof.
  unfold jmap_wf. induction m as [|[k' v'] m IH]; [done|]. intros Hm. inv Hm.
  rename select (Forall _ _) into Hall. cbn [JMap.remove].
  destruct (String.eqb_spec k k') as [->|Hne].
  - apply jmap_get_keys. intros Hk. eapply Forall_forall in Hall; [|exact Hk].
    unfold string_lt in Hall. simpl in Hall. by rewrite string_compare_refl in Hall.
  - cbn [JMap.get]. rewrite (proj2 (String.eqb_neq _ _) Hne). auto.
Qed.

Create Rewrite HintDb qcue_json.
#[export] Hint Rewrite jmap_get_insert_eq jmap_get_insert : qcue_json.

(** [json_get] evaluates lookups in an object built by insertions. *)
Ltac json_get :=
  repeat (first [ rewrite jmap_get_insert_eq
                | rewrite jmap_get_insert_ne by discriminate ]).
