(* ===== verification/Protocol.v ===== *)
(** * The protocol crate: the types every other component exchanges *)
From S2P Require Import Prelude RustStr Json.

#[local] Open Scope string_scope.
#[local] Open Scope list_scope.

(* src/qcue-rs/protocol/src/api_mode.rs 5-14 ApiMode *)
Inductive ApiMode : Type :=
| ChatCompletions
| AnthropicMessages
| Responses.

(* src/qcue-rs/protocol/src/message.rs 7-14 Role *)
Inductive Role : Type :=
| System
| User
| Assistant
| Tool.

(* src/qcue-rs/protocol/src/response.rs 8-15 FinishReason *)
Inductive FinishReason : Type :=
| Stop
| ToolCalls
| Length
| ContentFilter.

(* src/qcue-rs/protocol/src/message.rs 16-25 ToolCall *)
Record ToolCall : Type := {
  tc_id : option string;
  tc_name : string;
  tc_arguments : string;
  tc_provider_data : option Value;
}.

(* src/qcue-rs/protocol/src/message.rs 27-35 ToolDef *)
Record ToolDef : Type := {
  td_name : string;
  td_description : string;
  td_input_schema : Value;
}.

(* src/qcue-rs/protocol/src/message.rs 37-62 Message *)
Record Message : Type := {
  role : Role;
  content : option string;
  tool_call_id : option string;
  tool_name : option string;
  tool_calls : option (list ToolCall);
  finish_reason : option FinishReason;
  reasoning : option string;
  provider_data : option Value;
  active : bool;
  is_untrusted : bool;
}.

(* src/qcue-rs/protocol/src/usage.rs 5-13 CanonicalUsage *)
Record CanonicalUsage : Type := {
  u_input : Z;
  u_output : Z;
  u_cache_read : Z;
  u_cache_write : Z;
  u_reasoning : Z;
}.

(* src/qcue-rs/protocol/src/response.rs 17-27 NormalizedResponse *)
Record NormalizedResponse : Type := {
  nr_content : option string;
  nr_tool_calls : option (list ToolCall);
  nr_finish_reason : FinishReason;
  nr_reasoning : option string;
  nr_usage : option CanonicalUsage;
  nr_provider_data : option Value;
}.

(* src/qcue-rs/protocol/src/cred.rs 5-12 CredStatus *)
Inductive CredStatus : Type :=
| CredOk
| CredExhausted (until_ms : Z)
| CredDead.

(* src/qcue-rs/protocol/src/error.rs 7-23 FailoverReason *)
Inductive FailoverReason : Type :=
| Auth
| AuthPermanent
| Billing
| RateLimit
| Overloaded
| ServerError
| Timeout
| ContextOverflow
| PayloadTooLarge
| ModelNotFound
| ContentPolicyBlocked
| FormatError
| Unknown.

(* src/qcue-rs/protocol/src/error.rs 25-36 ClassifiedError *)
Record ClassifiedError : Type := {
  reason : FailoverReason;
  status_code : option Z;
  retryable : bool;
  should_compress : bool;
  should_rotate_credential : bool;
  should_fallback : bool;
  reset_at_ms : option Z;
}.

(* src/qcue-rs/protocol/src/error.rs 38-51 ApiError *)
Inductive ApiError : Type :=
| StatusErr (status : Z) (body : string)
| StreamIdle (idle_ms : Z)
| StreamTtfb (ttfb_ms : Z)
| TransportErr (e : string)
| DecodeErr (e : string).

(* src/qcue-rs/protocol/src/error.rs 53-60 TransportError *)
Inductive TransportError : Type :=
| MissingField (f : string)
| BadShape (s : string).

(** The JSON body of an HTTP error, if it parses. *)
(* src/qcue-rs/protocol/src/error.rs 62-71 ApiError::body_json *)
Definition body_json `{Json} (e : ApiError) : option Value :=
  match e with
  | StatusErr _ body => result_ok (from_str body)
  | _ => None
  end.

(* src/qcue-rs/protocol/src/stream.rs 10-16 Block *)
Inductive Block : Type :=
| BText
| BThinking
| BToolUse (id name : string).

(* src/qcue-rs/protocol/src/stream.rs 18-24 Delta *)
Inductive Delta : Type :=
| TextDelta (t : string)
| ThinkingDelta (t : string)
| InputJsonDelta (partial_json : string).

(* src/qcue-rs/protocol/src/stream.rs 26-35 StreamEvent *)
Inductive StreamEvent : Type :=
| MessageStart
| ContentBlockStart (b : Block)
| ContentBlockDelta (d : Delta)
| ContentBlockStop
| MessageDelta (stop_reason : option FinishReason) (usage : option CanonicalUsage)
| MessageStop.

(** ** Decidable equality and small helpers *)
#[export] Instance role_eq_dec : EqDecision Role.
Proof. solve_decision. Defined.
#[export] Instance api_mode_eq_dec : EqDecision ApiMode.
Proof. solve_decision. Defined.
#[export] Instance finish_reason_eq_dec : EqDecision FinishReason.
Proof. solve_decision. Defined.
#[export] Instance cred_status_eq_dec : EqDecision CredStatus.
Proof. solve_decision. Defined.
#[export] Instance failover_reason_eq_dec : EqDecision FailoverReason.
Proof. solve_decision. Defined.

Definition role_eqb (a b : Role) : bool := bool_decide (a = b).

(** [CanonicalUsage::default()] and the field-wise [+=] of the ledgers, at width 64. *)
Definition usage_zero : CanonicalUsage := {|
  u_input := 0; u_output := 0; u_cache_read := 0; u_cache_write := 0; u_reasoning := 0 |}%Z.
Definition usage_add (a b : CanonicalUsage) : CanonicalUsage := {|
  u_input := Int.wrap_u64 (u_input a + u_input b);
  u_output := Int.wrap_u64 (u_output a + u_output b);
  u_cache_read := Int.wrap_u64 (u_cache_read a + u_cache_read b);
  u_cache_write := Int.wrap_u64 (u_cache_write a + u_cache_write b);
  u_reasoning := Int.wrap_u64 (u_reasoning a + u_reasoning b) |}%Z.

(** A plain text message, the shape most constructors of the source start from. *)
Definition text_message (r : Role) (c : option string) : Message := {|
  role := r; content := c; tool_call_id := None; tool_name := None; tool_calls := None;
  finish_reason := None; reasoning := None; provider_data := None; active := true;
  is_untrusted := false |}.

(** Adding usages in another order gives the same sum. *)
Lemma wrap_u64_add (a b : Z) : Int.wrap_u64 (Int.wrap_u64 a + b) = Int.wrap_u64 (a + b).
Proof. unfold Int.wrap_u64. apply Z.add_mod_idemp_l. lia. Qed.

Lemma usage_add_right_comm (a b c : CanonicalUsage) :
  usage_add (usage_add a b) c = usage_add (usage_add a c) b.
Proof.
  unfold usage_add. cbn [u_input u_output u_cache_read u_cache_write u_reasoning].
  f_equal; rewrite !wrap_u64_add; f_equal; lia.
Qed.
