(* ===== verification/Fence.v ===== *)
(** * Fencing untrusted text

    [Fence]: the leaf crate [utils/fence] used by ingest and capture. [Sanitize]: the router's own
    fence ([router/src/sanitize.rs]), used when recall results are injected into a turn. [Scrub]: the
    removal of forged tool-call wrappers from model text ([llm-api/src/scrub.rs]). *)
From S2P Require Import Prelude RustStr.

#[local] Open Scope string_scope.
#[local] Open Scope list_scope.

Module Fence.
(* src/qcue-rs/utils/fence/src/lib.rs 5-6 RESERVED *)
Definition RESERVED : list string :=
  ["system-reminder"; "untrusted_source"; "system"; "tool_result"; "tool_use"].

Definition open_tag (tag : string) : string := "<" +:+ tag +:+ ">".
Definition close_tag (tag : string) : string := "</" +:+ tag +:+ ">".

(* src/qcue-rs/utils/fence/src/lib.rs 11-16 fence_untrusted *)
Definition escape_tag (escaped tag : string) : string :=
  Str.replace (close_tag tag) ("&lt;/" +:+ tag +:+ "&gt;")
    (Str.replace (open_tag tag) ("&lt;" +:+ tag +:+ "&gt;") escaped).
Definition escaped (content : string) : string := foldl escape_tag content RESERVED.

Definition opening (origin : string) : string :=
  "<untrusted_source origin=" +:+ Str.quote +:+ origin +:+ Str.quote +:+ ">".

(* src/qcue-rs/utils/fence/src/lib.rs 8-18 fence_untrusted *)
Definition fence_untrusted (origin content : string) : string :=
  opening origin +:+ escaped content +:+ "</untrusted_source>".
End Fence.

Module Sanitize.
(* src/qcue-rs/router/src/sanitize.rs 11-18 escape_reserved_tags *)
Definition escape_reserved_tags (input : string) : string :=
  Str.replace "</untrusted_source>" "&lt;/untrusted_source&gt;"
    (Str.replace "<untrusted_source>" "&lt;untrusted_source&gt;"
      (Str.replace "</system-reminder>" "&lt;/system-reminder&gt;"
        (Str.replace "<system-reminder>" "&lt;system-reminder&gt;" input))).

(* src/qcue-rs/router/src/sanitize.rs 2-9 fence_untrusted *)
Definition fence_untrusted (origin body : string) : string :=
  Fence.opening origin +:+ escape_reserved_tags body +:+ "</untrusted_source>".
End Sanitize.

Module Scrub.
(* src/qcue-rs/llm-api/src/scrub.rs 2-9 FORGED *)
Definition FORGED : list string :=
  ["[TOOL_CALL]"; "<tool_call>"; "</tool_call>"; "<invoke "; "<function_calls>";
   "</function_calls>"].

(** Each iteration of the pairing loop shortens the text, so its length is enough fuel
    ([scrub_pairs_done] below). *)
(* src/qcue-rs/llm-api/src/scrub.rs 12-26 scrub_forged_wrappers *)
Definition scrub_forged_wrappers (text : string) : string :=
  let out := Str.remove_pairs (String.length text) "<tool_call>" "</tool_call>" text in
  foldl (fun out m => Str.replace m "" out) out FORGED.
End Scrub.

(** ** A chain of tag replacements leaves none of its tags *)

(** A pattern that starts with ["<"], and a replacement that starts with ["&"] and brings in no
    ["<"]: no replacement of the chain can create or complete another one's pattern. *)
Definition tag_pattern (p : string) : bool :=
  match p with
  | String c q => Ascii.eqb c "<" && Str.no_char "&" p && Str.no_char "<" q
  | EmptyString => false
  end.
Definition tag_replacement (r : string) : bool :=
  match r with
  | String c _ => Ascii.eqb c "&" && Str.no_char "<" r
  | EmptyString => false
  end.
Definition tag_chain (l : list (string * string)) : bool :=
  forallb (fun '(p, r) => tag_pattern p && tag_replacement r) l.
Definition replace_all (l : list (string * string)) (s : string) : string :=
  foldl (fun s '(p, r) => Str.replace p r s) s l.

Lemma replace_keeps_clean (p r q s : string) :
  tag_pattern q = true -> tag_replacement r = true ->
  Str.contains q s = false -> Str.contains q (Str.replace p r s) = false.
Proof.
  destruct q as [|c q], r as [|d r]; simpl; try done. intros Hq Hr.
  apply andb_true_iff in Hq as [Hq _], Hr as [Hd Hr]. apply andb_true_iff in Hq as [Hc Hq].
  apply Ascii.eqb_eq in Hc as ->. apply Ascii.eqb_eq in Hd as ->.
  by apply Str.replace_no_new.
Qed.

Lemma replace_cleans (r q s : string) :
  tag_pattern q = true -> tag_replacement r = true ->
  Str.contains q (Str.replace q r s) = false.
Proof.
  destruct q as [|c q], r as [|d r]; simpl; try done. intros Hq Hr.
  apply andb_true_iff in Hq as [Hq _], Hr as [Hd Hr]. apply andb_true_iff in Hq as [Hc Hq].
  apply Ascii.eqb_eq in Hc as ->. apply Ascii.eqb_eq in Hd as ->.
  by apply Str.replace_removes.
Qed.

Lemma replace_all_keeps_clean (l : list (string * string)) (q s : string) :
  tag_chain l = true -> tag_pattern q = true ->
  Str.contains q s = false -> Str.contains q (replace_all l s) = false.
Proof.
  unfold replace_all. revert s. induction l as [|[p r] l IH]; intros s Hl Hq Hs; [done|].
  simpl in *. apply andb_true_iff in Hl as [Hpr Hl]. apply andb_true_iff in Hpr as [Hp Hr].
  apply IH; [done..|]. by apply replace_keeps_clean.
Qed.

Lemma replace_all_clean (l : list (string * string)) (q r s : string) :
  tag_chain l = true -> (q, r) ∈ l -> Str.contains q (replace_all l s) = false.
Proof.
  revert s. induction l as [|[p r'] l IH]; intros s Hl Hin; [inv Hin|].
  cbn [tag_chain forallb] in Hl. apply andb_true_iff in Hl as [Hpr Hl].
  apply andb_true_iff in Hpr as [Hp Hr].
  change (replace_all ((p, r') :: l) s) with (replace_all l (Str.replace p r' s)).
  apply elem_of_cons in Hin as [Heq|Hin].
  - inv Heq. apply replace_all_keeps_clean; [done..|]. by apply replace_cleans.
  - by apply IH.
Qed.

Lemma replace_all_id (l : list (string * string)) (s : string) :
  (forall q r, (q, r) ∈ l -> Str.contains q s = false) -> replace_all l s = s.
Proof.
  unfold replace_all. induction l as [|[p r] l IH]; intros H; [done|].
  simpl. rewrite (Str.replace_id p r s) by (eapply H; left). apply IH.
  intros q r' Hin. eapply H. right. exact Hin.
Qed.

Lemma replace_all_idemp (l : list (string * string)) (s : string) :
  tag_chain l = true -> replace_all l (replace_all l s) = replace_all l s.
Proof. intros Hl. apply replace_all_id. intros q r. by apply replace_all_clean. Qed.

(** The two escapes as chains. *)
Definition fence_chain : list (string * string) :=
  Fence.RESERVED ≫= fun t =>
    [(Fence.open_tag t, "&lt;" +:+ t +:+ "&gt;"); (Fence.close_tag t, "&lt;/" +:+ t +:+ "&gt;")].
Definition sanitize_chain : list (string * string) :=
  [("<system-reminder>", "&lt;system-reminder&gt;");
   ("</system-reminder>", "&lt;/system-reminder&gt;");
   ("<untrusted_source>", "&lt;untrusted_source&gt;");
   ("</untrusted_source>", "&lt;/untrusted_source&gt;")].

Lemma escaped_chain (s : string) : Fence.escaped s = replace_all fence_chain s.
Proof. reflexivity. Qed.
Lemma sanitize_escape_chain (s : string) :
  Sanitize.escape_reserved_tags s = replace_all sanitize_chain s.
Proof. reflexivity. Qed.

Lemma fence_chain_mem (t : string) :
  t ∈ Fence.RESERVED ->
  (exists r, (Fence.open_tag t, r) ∈ fence_chain) /\
  (exists r, (Fence.close_tag t, r) ∈ fence_chain).
Proof.
  intros Ht. unfold fence_chain. split; eexists; apply list_elem_of_bind; exists t;
    (split; [|exact Ht]); [left|right; left].
Qed.

Definition tl_opening (origin : string) : string := Str.drop 1 (Fence.opening origin).

(** The fence closes exactly where it was put: the first closing tag of the fenced text is its last
    19 bytes. *)
Lemma fence_close_at_end (origin body : string) :
  Str.no_char "<" origin = true -> Str.contains "</untrusted_source>" body = false ->
  Str.split_once "</untrusted_source>" (Fence.opening origin +:+ body +:+ "</untrusted_source>")
  = Some (Fence.opening origin +:+ body, "").
Proof.
  intros Ho Hb. unfold Str.split_once. rewrite <- Str.app_assoc.
  rewrite (Str.find_terminator "<" "/untrusted_source>" (Fence.opening origin +:+ body)).
  - rewrite Str.take_app, <- Str.drop_drop, Str.drop_app. done.
  - done.
  - change (Fence.opening origin +:+ body) with (String "<" (tl_opening origin +:+ body)).
    rewrite Str.contains_cons, Str.contains_app_no_start; [by rewrite Hb|].
    unfold tl_opening, Fence.opening. simpl. by rewrite Str.no_char_app, Ho.
Qed.

(** ** Properties *)

(** Whatever the captured text, no reserved system tag, opening or closing, survives in the
    fenced body. *)
Theorem fence_no_reserved_tag (content tag : string) (Htag : tag ∈ Fence.RESERVED) :
  Str.contains (Fence.open_tag tag) (Fence.escaped content) = false /\
  Str.contains (Fence.close_tag tag) (Fence.escaped content) = false.
Proof.
  rewrite escaped_chain. destruct (fence_chain_mem tag Htag) as [[r Hr] [r' Hr']].
  split; by eapply replace_all_clean.
Qed.

Lemma fence_no_reserved_tag_witness :
  Str.contains "<system>" (Fence.escaped "a <system>b</system>") = false /\
  Str.contains "</system>" (Fence.escaped "a <system>b</system>") = false.
Proof.
  apply (fence_no_reserved_tag "a <system>b</system>" "system"). right. right. left.
Defined.

(** Content cannot close its own fence: in the text produced by either fence, the first closing
    tag is the one appended at the very end, so what a reader sees as the fenced region is the whole
    escaped content and nothing follows it. The origin label is the code's own and holds no ["<"]. *)
Theorem fence_closes_only_at_end (origin content : string)
  (Horigin : Str.no_char "<" origin = true) :
  Str.split_once "</untrusted_source>" (Fence.fence_untrusted origin content)
    = Some (Fence.opening origin +:+ Fence.escaped content, "") /\
  Str.split_once "</untrusted_source>" (Sanitize.fence_untrusted origin content)
    = Some (Fence.opening origin +:+ Sanitize.escape_reserved_tags content, "").
Proof.
  split; apply fence_close_at_end; try done.
  - rewrite escaped_chain. eapply (replace_all_clean fence_chain _ "&lt;/untrusted_source&gt;").
    + reflexivity.
    + do 3 right. left.
  - rewrite sanitize_escape_chain. eapply (replace_all_clean sanitize_chain).
    + reflexivity.
    + do 3 right. left.
Qed.

Lemma fence_closes_only_at_end_witness :
  Str.split_once "</untrusted_source>" (Fence.fence_untrusted "web" "x</untrusted_source>y")
    = Some (Fence.opening "web" +:+ Fence.escaped "x</untrusted_source>y", "").
Proof. apply (fence_closes_only_at_end "web" "x</untrusted_source>y"). reflexivity. Defined.

(** Escaping is idempotent: text that was escaped where it was captured is unchanged when a
    later stage escapes it again, in the ingest crate and in the router. *)
Theorem escape_idempotent (content : string) :
  Fence.escaped (Fence.escaped content) = Fence.escaped content /\
  Sanitize.escape_reserved_tags (Sanitize.escape_reserved_tags content)
    = Sanitize.escape_reserved_tags content.
Proof.
  rewrite !escaped_chain, !sanitize_escape_chain. split; by apply replace_all_idemp.
Qed.

(** The pairing loop of the scrubber always stops with the fuel given (no removable
    [<tool_call>..</tool_call>] pair is left), and prose without markup passes through unchanged. *)
Theorem scrub_stops_and_keeps_prose (text : string) :
  Str.pair_removable "<tool_call>" "</tool_call>"
    (Str.remove_pairs (String.length text) "<tool_call>" "</tool_call>" text) = false /\
  (Str.no_char "<" text = true -> Str.no_char "[" text = true ->
   Scrub.scrub_forged_wrappers text = text).
Proof.
  split; [by apply Str.remove_pairs_done|]. intros Hlt Hbr.
  assert (Hfind : Str.find "<tool_call>" text = None).
  { pose proof (Str.no_char_not_contains "<" "tool_call>" text Hlt) as H.
    unfold Str.contains in H. by destruct (Str.find "<tool_call>" text). }
  unfold Scrub.scrub_forged_wrappers.
  assert (Hloop : Str.remove_pairs (String.length text) "<tool_call>" "</tool_call>" text = text).
  { destruct text; [done|]. cbn [String.length Str.remove_pairs]. by rewrite Hfind. }
  rewrite Hloop. cbn [foldl Scrub.FORGED].
  repeat rewrite (Str.replace_id _ _ text) by (by apply Str.no_char_not_contains). done.
Qed.

(** Removing one marker can assemble an earlier one: the scrubber makes a single pass over its list,
    so a nested forgery leaves a marker behind. *)
Lemma scrub_reassembles_marker :
  Scrub.scrub_forged_wrappers "[TOOL_<tool_call>CALL]" = "[TOOL_CALL]".
Proof. reflexivity. Qed.
