(* ===== verification/Classify.v ===== *)
(** * Failover: from a vendor error to one action

    [classify] turns an [ApiError] into a reason and four action bits ([router/src/classify.rs]);
    [decide_action] maps the bits to exactly one action, and [FallbackChain] is the ordered list of
    providers a turn may fall back to ([router/src/retry_loop.rs]). *)
From S2P Require Import Prelude RustStr Json Protocol.

#[local] Open Scope string_scope.
#[local] Open Scope list_scope.

(* src/qcue-rs/router/src/classify.rs 4-10 ClassifyCtx *)
Record ClassifyCtx : Type := {
  provider : string;
  retry_after_ms : option Z;
}.

(* src/qcue-rs/router/src/classify.rs 12-17 TERMINAL_AUTH *)
Definition TERMINAL_AUTH : list string :=
  ["token_revoked"; "invalid_grant"; "token_invalidated"; "account_deactivated"].

(* src/qcue-rs/router/src/classify.rs 18-26 TRANSIENT_SIGNALS *)
Definition TRANSIENT_SIGNALS : list string :=
  ["try again"; "retry after"; "resets at"; "resets in"; "requests remaining"; "rate limit";
   "too many requests"].

(* src/qcue-rs/router/src/classify.rs 27-34 BILLING_SIGNALS *)
Definition BILLING_SIGNALS : list string :=
  ["quota"; "insufficient_quota"; "billing"; "exceeded your current quota"; "payment"; "credit"].

(** [SIGNALS.iter().any(|s| msg.contains(s))] *)
Definition any_in (signals : list string) (msg : string) : bool :=
  existsb (fun s => Str.contains s msg) signals.

Section extract.
Context `{Json}.

(* src/qcue-rs/router/src/classify.rs 36-57 extract_message *)
Definition extract_message (err : ApiError) : string :=
  let msg :=
    match err with
    | StatusErr _ body => body
    | StreamIdle _ | StreamTtfb _ => "stream timeout"
    | TransportErr s | DecodeErr s => s
    end in
  let msg :=
    match body_json err with
    | Some v =>
        match pointer ["error"; "metadata"; "raw"] v ≫= as_str with
        | Some raw =>
            match from_str raw with
            | Ok inner => unwrap_or (pointer ["error"; "message"] inner ≫= as_str) raw
            | Err _ => raw
            end
        | None => unwrap_or (pointer ["error"; "message"] v ≫= as_str) msg
        end
    | None => msg
    end in
  Str.to_ascii_lowercase msg.
End extract.

(** The run of ASCII digits at the head of the text, and what follows it. *)
Fixpoint span_digits (s : string) : string * string :=
  match s with
  | String c s' =>
      if Str.is_ascii_digit c then let '(d, r) := span_digits s' in (String c d, r) else ("", s)
  | EmptyString => ("", "")
  end.

(** [saturating_mul] of an [i64]. *)
Definition saturating_mul (a b : Z) : Z := Int.sat_i64 (a * b).

(** The [while] loop of [extract_reset_ms] on the bytes not yet read; each round reads at least one,
    so the length of the text is enough fuel. *)
(* src/qcue-rs/router/src/classify.rs 62-86 extract_reset_ms *)
Fixpoint reset_loop (fuel : nat) (s : string) : option Z :=
  match fuel, s with
  | S fuel, String c s' =>
      if Str.is_ascii_digit c then
        let '(digits, after) := span_digits s in
        let num := unwrap_or (Str.parse_i64 digits) 0%Z in
        let rest := Str.trim_start after in
        if Str.starts_with "s" rest || Str.starts_with "sec" rest
        then Some (saturating_mul num 1000)
        else if Str.starts_with "m" rest && negb (Str.starts_with "ms" rest)
        then Some (saturating_mul num 60000)
        else if Str.starts_with "h" rest then Some (saturating_mul num 3600000)
        else reset_loop fuel after
      else reset_loop fuel s'
  | _, _ => None
  end.

(* src/qcue-rs/router/src/classify.rs 59-87 extract_reset_ms *)
Definition extract_reset_ms (msg : string) : option Z := reset_loop (String.length msg) msg.

(* src/qcue-rs/router/src/classify.rs 109-160 classify_reason *)
Definition classify_reason (err : ApiError) (status : option Z) (msg : string) : FailoverReason :=
  match err with
  | StreamIdle _ | StreamTtfb _ => Timeout
  | _ =>
      if any_in TERMINAL_AUTH msg then AuthPermanent
      else if Str.contains "content policy" msg || Str.contains "content_policy" msg
      then ContentPolicyBlocked
      else if Str.contains "context length" msg || Str.contains "context_length" msg
              || Str.contains "maximum context" msg
      then ContextOverflow
      else
        let billing_like := any_in BILLING_SIGNALS msg in
        let transient := any_in TRANSIENT_SIGNALS msg in
        let other (none : FailoverReason) :=
          if transient then RateLimit else if billing_like then Billing else none in
        match status with
        | None => other Unknown
        | Some s =>
            if (s =? 401)%Z then Auth
            else if (s =? 403)%Z then if any_in TERMINAL_AUTH msg then AuthPermanent else Auth
            else if (s =? 404)%Z then ModelNotFound
            else if (s =? 413)%Z then PayloadTooLarge
            else if (s =? 429)%Z then other RateLimit
            else if (s =? 529)%Z then Overloaded
            else if (500 <=? s)%Z then ServerError
            else other Unknown
        end
  end.

(** (retryable, should_rotate_credential, should_fallback, should_compress) *)
(* src/qcue-rs/router/src/classify.rs 162-179 action_bits *)
Definition action_bits (reason : FailoverReason) : bool * bool * bool * bool :=
  match reason with
  | Auth => (true, true, false, false)
  | AuthPermanent => (false, false, false, false)
  | Billing => (false, false, true, false)
  | RateLimit => (true, true, false, false)
  | Overloaded => (true, false, true, false)
  | ServerError => (true, false, true, false)
  | Timeout => (true, false, false, false)
  | ContextOverflow => (true, false, false, true)
  | PayloadTooLarge => (true, false, false, true)
  | ModelNotFound => (false, false, true, false)
  | ContentPolicyBlocked => (false, false, false, false)
  | FormatError => (true, false, false, false)
  | Unknown => (true, false, true, false)
  end.

(* src/qcue-rs/router/src/classify.rs 89-107 classify *)
Definition classify `{Json} (err : ApiError) (ctx : ClassifyCtx) : ClassifiedError :=
  let status := match err with StatusErr s _ => Some s | _ => None end in
  let msg := extract_message err in
  let reset := opt_or (retry_after_ms ctx) (extract_reset_ms msg) in
  let reason := classify_reason err status msg in
  let '(retryable, rotate, fallback, compress) := action_bits reason in
  {| reason := reason; status_code := status; retryable := retryable;
     should_compress := compress; should_rotate_credential := rotate;
     should_fallback := fallback; reset_at_ms := reset |}.

(** ** Actions *)
(* src/qcue-rs/router/src/retry_loop.rs 4-11 Action *)
Inductive Action : Type :=
| Rotate
| Fallback
| Compress
| Backoff
| AbortCall.

(* src/qcue-rs/router/src/retry_loop.rs 13-27 decide_action *)
Definition decide_action (ce : ClassifiedError) : Action :=
  match should_rotate_credential ce, should_fallback ce, should_compress ce, retryable ce with
  | true, _, _, _ => Rotate
  | _, true, _, _ => Fallback
  | _, _, true, _ => Compress
  | false, false, false, true => Backoff
  | _, _, _, _ => AbortCall
  end.

(** ** The fallback chain *)
(* src/qcue-rs/router/src/retry_loop.rs 29-33 FallbackChain *)
Record FallbackChain : Type := {
  links : list (string * string * ApiMode);
  idx : nat;
}.

(* src/qcue-rs/router/src/retry_loop.rs 35-37 new *)
Definition chain_new (l : list (string * string * ApiMode)) : FallbackChain :=
  {| links := l; idx := 0 |}.

(** [None]: the index panics. *)
(* src/qcue-rs/router/src/retry_loop.rs 38-40 current *)
Definition chain_current (c : FallbackChain) : option (string * string * ApiMode) :=
  links c !! idx c.

(* src/qcue-rs/router/src/retry_loop.rs 41-49 advance *)
Definition chain_advance (c : FallbackChain)
  : FallbackChain * option (string * string * ApiMode) :=
  if (idx c + 1 <? length (links c))%nat
  then let c' := {| links := links c; idx := idx c + 1 |} in (c', links c !! (idx c + 1)%nat)
  else (c, None).

(** [n] advances in a row: the links returned. *)
Fixpoint chain_run (n : nat) (c : FallbackChain) : list (string * string * ApiMode) :=
  match n with
  | O => []
  | S n => match chain_advance c with
           | (c', Some l) => l :: chain_run n c'
           | (_, None) => []
           end
  end.

(** ** Lemmas *)

Lemma digits_value_nonneg (s : string) (acc : Z) :
  (0 <= acc)%Z -> (0 <= Str.digits_value acc s)%Z.
Proof.
  revert acc. induction s as [|c s IH]; intros acc Ha; [done|]. simpl. apply IH.
  unfold Str.digit. lia.
Qed.

Lemma span_digits_all (s d r : string) : span_digits s = (d, r) -> Str.all_digits d = true.
Proof.
  revert d r. induction s as [|c s IH]; intros d r; simpl; [by intros [= <- <-]|].
  destruct (Str.is_ascii_digit c) eqn:Hc; [|by intros [= <- <-]].
  destruct (span_digits s) as [d' r'] eqn:Hs. intros [= <- <-]. simpl. rewrite Hc. by eapply IH.
Qed.

Lemma span_digits_app (d r : string) :
  Str.all_digits d = true -> (forall c t, r = String c t -> Str.is_ascii_digit c = false) ->
  span_digits (d +:+ r) = (d, r).
Proof.
  intros Hd Hr. induction d as [|c d IH]; simpl in *.
  - destruct r as [|c t]; [done|]. simpl. by rewrite (Hr c t).
  - apply andb_true_iff in Hd as [-> Hd]. by rewrite (IH Hd).
Qed.

(** A run of digits parses to its value, or to nothing when that is out of range. *)
Lemma parse_digits (d : string) :
  Str.all_digits d = true -> d <> "" ->
  Str.parse_i64 d = if (Str.digits_value 0 d <=? Int.i64_max)%Z
                    then Some (Str.digits_value 0 d) else None.
Proof.
  intros Hd Hne. destruct d as [|c d]; [done|].
  pose proof (digits_value_nonneg (String c d) 0 ltac:(lia)) as Hnn.
  unfold Str.parse_i64. cbn [Str.all_digits] in Hd. apply andb_true_iff in Hd as [Hc Hd].
  assert (Ascii.eqb c "-" = false) as -> by (apply Ascii.eqb_neq; intros ->; done).
  assert (Ascii.eqb c "+" = false) as -> by (apply Ascii.eqb_neq; intros ->; done).
  cbn [String.eqb Str.all_digits]. rewrite Hc, Hd. cbn [andb negb orb].
  rewrite (proj2 (Z.leb_le Int.i64_min _)) by (unfold Int.i64_min; lia). done.
Qed.

Lemma parse_digits_nonneg (d : string) :
  Str.all_digits d = true -> (0 <= unwrap_or (Str.parse_i64 d) 0)%Z.
Proof.
  intros Hd. destruct (String.eqb_spec d "") as [->|Hne]; [done|].
  rewrite parse_digits by done. destruct_match; simpl; [|done].
  by apply digits_value_nonneg.
Qed.

Lemma saturating_mul_range (a b : Z) :
  (0 <= a)%Z -> (0 <= b)%Z -> (0 <= saturating_mul a b <= Int.i64_max)%Z.
Proof. unfold saturating_mul, Int.sat_i64, Int.i64_min, Int.i64_max. nia. Qed.

Lemma reset_loop_range (fuel : nat) (s : string) (ms : Z) :
  reset_loop fuel s = Some ms -> (0 <= ms <= Int.i64_max)%Z.
Proof.
  revert s. induction fuel as [|fuel IH]; intros s; [by destruct s|].
  destruct s as [|c s]; [done|]. cbn [reset_loop].
  destruct (Str.is_ascii_digit c); [|apply IH].
  destruct (span_digits (String c s)) as [d r] eqn:Hs.
  pose proof (parse_digits_nonneg d (span_digits_all _ _ _ Hs)).
  repeat case_match; try apply IH; intros [= <-]; by apply saturating_mul_range.
Qed.

Lemma reset_loop_skip (pre : string) (fuel : nat) (s : string) :
  (forall c, In c (String.list_ascii_of_string pre) -> Str.is_ascii_digit c = false) ->
  (String.length (pre +:+ s) <= fuel)%nat ->
  exists fuel', (String.length s <= fuel')%nat /\
                reset_loop fuel (pre +:+ s) = reset_loop fuel' s.
Proof.
  revert fuel. induction pre as [|c pre IH]; intros fuel Hp Hf; simpl in *; [by exists fuel|].
  destruct fuel as [|fuel]; [lia|]. cbn [reset_loop].
  rewrite (Hp c) by by left. apply IH; [|lia]. intros c' Hc. apply Hp. by right.
Qed.

Lemma action_bits_decide (r : FailoverReason) (st : option Z) (rs : option Z) :
  decide_action
    (let '(retryable, rotate, fallback, compress) := action_bits r in
     {| reason := r; status_code := st; retryable := retryable; should_compress := compress;
        should_rotate_credential := rotate; should_fallback := fallback; reset_at_ms := rs |})
  = match r with
    | Auth | RateLimit => Rotate
    | Billing | Overloaded | ServerError | ModelNotFound | Unknown => Fallback
    | ContextOverflow | PayloadTooLarge => Compress
    | Timeout | FormatError => Backoff
    | AuthPermanent | ContentPolicyBlocked => AbortCall
    end.
Proof. by destruct r. Qed.

Lemma chain_run_drop (n : nat) (c : FallbackChain) :
  (idx c < length (links c))%nat ->
  chain_run n c = firstn n (skipn (S (idx c)) (links c)).
Proof.
  revert c. induction n as [|n IH]; intros c Hc; [done|]. cbn [chain_run].
  unfold chain_advance. destruct (idx c + 1 <? length (links c))%nat eqn:Hlt.
  - apply Nat.ltb_lt in Hlt.
    destruct (lookup_lt_is_Some_2 (links c) (idx c + 1) Hlt) as [x Hx]. rewrite Hx.
    rewrite IH by (simpl; lia). cbn [links idx].
    rewrite Nat.add_1_r in *. by rewrite (drop_S _ _ _ Hx).
  - apply Nat.ltb_ge in Hlt. rewrite drop_ge by lia. done.
Qed.

(** ** Properties *)

(** The action taken for a classified error is a function of its reason alone, one branch per
    reason: only auth and rate-limit errors rotate the credential, only context and payload overflows
    compress, and a permanent auth failure or a content-policy block is never retried in any way. *)
Theorem classify_decides_by_reason `{Json} (err : ApiError) (ctx : ClassifyCtx) :
  decide_action (classify err ctx) =
  match reason (classify err ctx) with
  | Auth | RateLimit => Rotate
  | Billing | Overloaded | ServerError | ModelNotFound | Unknown => Fallback
  | ContextOverflow | PayloadTooLarge => Compress
  | Timeout | FormatError => Backoff
  | AuthPermanent | ContentPolicyBlocked => AbortCall
  end.
Proof.
  unfold classify.
  destruct (classify_reason err _ (extract_message err)) eqn:Hr; reflexivity.
Qed.

(** A response whose extracted message names a terminal auth condition aborts, whatever its
    status code and headers, 429 and 5xx included; only a stream timeout, which carries no message,
    escapes this. *)
Theorem terminal_auth_aborts `{Json} (status : Z) (body : string) (ctx : ClassifyCtx)
  (Hterm : any_in TERMINAL_AUTH (extract_message (StatusErr status body)) = true) :
  reason (classify (StatusErr status body) ctx) = AuthPermanent /\
  decide_action (classify (StatusErr status body) ctx) = AbortCall.
Proof. unfold classify, classify_reason. rewrite Hterm. done. Qed.

Lemma terminal_auth_aborts_witness :
  reason (@classify no_json (StatusErr 429 "Rate limit: INVALID_GRANT")
            {| provider := "p"; retry_after_ms := None |}) = AuthPermanent.
Proof.
  apply (@terminal_auth_aborts no_json 429 "Rate limit: INVALID_GRANT"
           {| provider := "p"; retry_after_ms := None |}).
  vm_compute. reflexivity.
Defined.

(** The reset delay read from an error message is never negative and fits an [i64], however long
    the digit run in a hostile message; a first number directly followed by seconds gives exactly that
    many milliseconds, saturated. *)
Theorem reset_ms_bounds (msg : string) :
  (forall ms, extract_reset_ms msg = Some ms -> 0 <= ms <= Int.i64_max)%Z /\
  (forall pre digits tail,
     msg = pre +:+ digits +:+ String "s" tail ->
     (forall c, In c (String.list_ascii_of_string pre) -> Str.is_ascii_digit c = false) ->
     Str.all_digits digits = true -> digits <> "" ->
     (Str.digits_value 0 digits <= Int.i64_max)%Z ->
     extract_reset_ms msg
     = Some (Z.min Int.i64_max (Str.digits_value 0 digits * 1000))).
Proof.
  split; [by intros ms; apply reset_loop_range|].
  intros pre digits tail -> Hpre Hd Hne Hv. unfold extract_reset_ms.
  destruct (reset_loop_skip pre _ (digits +:+ String "s" tail) Hpre (le_n _)) as (fuel & Hf & ->).
  rewrite Str.length_app in Hf. destruct digits as [|c d]; [done|].
  destruct fuel as [|fuel]; [simpl in Hf; lia|]. cbn [String.append reset_loop].
  pose proof Hd as Hd'. simpl in Hd'. apply andb_true_iff in Hd' as [-> _].
  change (String c (d +:+ String "s" tail)) with (String c d +:+ String "s" tail).
  rewrite span_digits_app; [|done|by intros ? ? [= <- <-]].
  change (Str.trim_start (String "s" tail)) with (String "s" tail).
  rewrite parse_digits, (proj2 (Z.leb_le _ _) Hv) by done. simpl.
  pose proof (digits_value_nonneg (String c d) 0 ltac:(lia)) as Hnn. simpl in Hnn.
  unfold saturating_mul, Int.sat_i64, Int.i64_min, Int.i64_max. f_equal. lia.
Qed.

Lemma reset_ms_bounds_witness :
  extract_reset_ms "retry after 12s" = Some 12000%Z.
Proof.
  apply (proj2 (reset_ms_bounds "retry after 12s") "retry after " "12" ""); try reflexivity.
  - intros c Hc. repeat (destruct Hc as [<-|Hc]; [reflexivity|]). destruct Hc.
  - discriminate.
  - vm_compute. discriminate.
Defined.

(** A fallback chain visits every link after the first exactly once, in order, and then stops:
    [n] advances return the first [n] of them; the current index is in bounds at the start and after
    every advance, so [current] never panics. *)
Theorem chain_visits_each_once (l : list (string * string * ApiMode)) (n : nat)
  (Hne : l <> []) :
  chain_run n (chain_new l) = firstn n (tail l) /\
  chain_current (chain_new l) = head l /\
  (forall c, (idx c < length (links c))%nat -> is_Some (chain_current (fst (chain_advance c)))).
Proof.
  destruct l as [|x l]; [done|]. split; [|split; [done|]].
  - rewrite chain_run_drop by (simpl; lia). done.
  - intros c Hc. unfold chain_current, chain_advance.
    destruct (Nat.ltb_spec (idx c + 1) (length (links c))); by apply lookup_lt_is_Some.
Qed.

Lemma chain_visits_each_once_witness :
  chain_run 5 (chain_new [("a", "m", Responses); ("b", "n", ChatCompletions)])
  = [("b", "n", ChatCompletions)].
Proof.
  apply (chain_visits_each_once [("a", "m", Responses); ("b", "n", ChatCompletions)] 5).
  discriminate.
Defined.
