(* ===== verification/Pool.v ===== *)
(** * The credential pool

    [router/src/pool.rs]: the three-state credentials of one provider, the four selection strategies,
    cooldowns and leases. [now_ms] is an argument everywhere, as in the source; a [HashMap] is a
    [gmap]; a credential id (a uuid) is its 128-bit value. *)
From S2P Require Import Prelude Protocol.

#[local] Open Scope Z_scope.

(* src/qcue-rs/router/src/pool.rs 6-12 PoolStrategy *)
Inductive PoolStrategy : Type :=
| FillFirst
| RoundRobin
| Random
| LeastUsed.

(* src/qcue-rs/router/src/pool.rs 14-24 PooledCredential *)
Record PooledCredential : Type := {
  id : Uuid;
  label : option string;
  priority : Z;
  status : CredStatus;
  key_hint : string;
  last_error_code : option Z;
  last_error_reason : option string;
  request_count : Z;
}.

(* src/qcue-rs/router/src/pool.rs 26-33 CredentialPool *)
Record CredentialPool : Type := {
  entries : list PooledCredential;
  strategy : PoolStrategy;
  rr_cursor : Z;
  leases : gmap Uuid Z;
  max_concurrent_per_credential : Z;
  dead_at : gmap string Z;
}.

(* src/qcue-rs/router/src/pool.rs 35-42 ttl_for_status *)
Definition ttl_for_status (st : Z) : Z :=
  if st =? 401 then 30 * 1000 else if st =? 429 then 60 * 1000 else 60 * 1000.

(* src/qcue-rs/router/src/pool.rs 44-46 MAX_COOLDOWN_MS *)
Definition MAX_COOLDOWN_MS : Z := 5 * 60 * 1000.

(* src/qcue-rs/router/src/pool.rs 49-58 new *)
Definition pool_new (es : list PooledCredential) (st : PoolStrategy) : CredentialPool :=
  {| entries := es; strategy := st; rr_cursor := 0; leases := ∅;
     max_concurrent_per_credential := 1; dead_at := ∅ |}.

(* src/qcue-rs/router/src/pool.rs 60-69 eligible *)
Definition eligible (p : CredentialPool) (c : PooledCredential) (now_ms : Z) : bool :=
  let status_ok :=
    match status c with
    | CredOk => true
    | CredExhausted until_ms => until_ms <=? now_ms
    | CredDead => false
    end in
  let lease_ok := unwrap_or (leases p !! id c) 0 <? max_concurrent_per_credential p in
  status_ok && lease_ok.

(** [sort_by_key]: the stable sort. *)
Definition sort_by_key {A} (key : A -> Z) (l : list A) : list A := sort_by (fun x y => key x <=? key y) l.

Definition entry_key (p : CredentialPool) (f : PooledCredential -> Z) (i : nat) : Z :=
  default 0 (f <$> entries p !! i).

Definition eligible_idxs (p : CredentialPool) (now_ms : Z) : list nat :=
  List.filter (fun i => match entries p !! i with
                        | Some c => eligible p c now_ms
                        | None => false
                        end) (seq 0 (length (entries p))).

Definition with_cursor (p : CredentialPool) (k : Z) : CredentialPool :=
  {| entries := entries p; strategy := strategy p; rr_cursor := k; leases := leases p;
     max_concurrent_per_credential := max_concurrent_per_credential p; dead_at := dead_at p |}.

(** The state after the call and the selected credential. An index out of bounds, a panic in the
    source, would show as [None] although [eligible_idxs] is not empty: [select_none_iff] below
    excludes it. *)
(* src/qcue-rs/router/src/pool.rs 71-96 select *)
Definition select (p : CredentialPool) (now_ms : Z)
  : CredentialPool * option PooledCredential :=
  let idxs := eligible_idxs p now_ms in
  let n := Z.of_nat (length idxs) in
  match idxs with
  | [] => (p, None)
  | _ =>
      let '(p', chosen) :=
        match strategy p with
        | FillFirst => (p, head (sort_by_key (entry_key p priority) idxs))
        | LeastUsed => (p, head (sort_by_key (entry_key p request_count) idxs))
        | Random =>
            (p, idxs !! Z.to_nat (Int.wrap_u64 (Int.wrap_u64 now_ms + rr_cursor p) mod n))
        | RoundRobin =>
            (with_cursor p (Int.wrap_u64 (rr_cursor p + 1)), idxs !! Z.to_nat (rr_cursor p mod n))
        end in
      (p', chosen ≫= fun i => entries p !! i)
  end.

(* src/qcue-rs/router/src/pool.rs 98-100 find *)
Definition find_hint (p : CredentialPool) (hint : string) : option PooledCredential :=
  find_first (fun c => String.eqb (key_hint c) hint) (entries p).

(** Writing through [find_mut]: the first entry with the hint is updated. *)
Fixpoint update_first (hint : string) (f : PooledCredential -> PooledCredential)
  (l : list PooledCredential) : list PooledCredential :=
  match l with
  | [] => []
  | c :: l => if String.eqb (key_hint c) hint then f c :: l else c :: update_first hint f l
  end.
Definition with_entries (p : CredentialPool) (es : list PooledCredential) : CredentialPool :=
  {| entries := es; strategy := strategy p; rr_cursor := rr_cursor p; leases := leases p;
     max_concurrent_per_credential := max_concurrent_per_credential p; dead_at := dead_at p |}.
(* src/qcue-rs/router/src/pool.rs 101-103 find_mut *)
Definition find_mut (p : CredentialPool) (hint : string)
  (f : PooledCredential -> PooledCredential) : CredentialPool :=
  with_entries p (update_first hint f (entries p)).

Definition set_status (st : CredStatus) (code : option Z) (c : PooledCredential)
  : PooledCredential :=
  {| id := id c; label := label c; priority := priority c; status := st; key_hint := key_hint c;
     last_error_code := code; last_error_reason := last_error_reason c;
     request_count := request_count c |}.

(* src/qcue-rs/router/src/pool.rs 113-114 mark_exhausted_and_rotate *)
Definition cooldown_until (st : Z) (reset_at_ms : option Z) (now_ms : Z) : Z :=
  Z.min (unwrap_or reset_at_ms (Int.wrap_i64 (now_ms + ttl_for_status st)))
        (Int.wrap_i64 (now_ms + MAX_COOLDOWN_MS)).

(* src/qcue-rs/router/src/pool.rs 105-122 mark_exhausted_and_rotate *)
Definition mark_exhausted_and_rotate (p : CredentialPool) (st : Z) (reset_at_ms : option Z)
  (hint : option string) (now_ms : Z) : CredentialPool * option PooledCredential :=
  let until := cooldown_until st reset_at_ms now_ms in
  let p := match hint with
           | Some h => find_mut p h (set_status (CredExhausted until) (Some st))
           | None => p
           end in
  select p now_ms.

(* src/qcue-rs/router/src/pool.rs 124-138 mark_ok *)
Definition mark_ok (p : CredentialPool) (hint : string) : CredentialPool * bool :=
  match find_hint p hint with
  | Some c =>
      match status c with
      | CredExhausted _ => (find_mut p hint (set_status CredOk None), true)
      | _ => (p, false)
      end
  | None => (p, false)
  end.

(* src/qcue-rs/router/src/pool.rs 140-145 mark_dead *)
Definition mark_dead (p : CredentialPool) (hint : string) : CredentialPool :=
  find_mut p hint (fun c => set_status CredDead (last_error_code c) c).

(* src/qcue-rs/router/src/pool.rs 146-148 set_dead_at *)
Definition set_dead_at (p : CredentialPool) (hint : string) (now_ms : Z) : CredentialPool :=
  {| entries := entries p; strategy := strategy p; rr_cursor := rr_cursor p; leases := leases p;
     max_concurrent_per_credential := max_concurrent_per_credential p;
     dead_at := <[hint := now_ms]> (dead_at p) |}.

(* src/qcue-rs/router/src/pool.rs 153-161 prune_dead *)
Definition retain (p : CredentialPool) (now_ms : Z) (c : PooledCredential) : bool :=
  match status c with
  | CredDead =>
      match dead_at p !! key_hint c with
      | Some d => now_ms <? Int.wrap_i64 (d + 24 * 3600000)
      | None => true
      end
  | _ => true
  end.
(* src/qcue-rs/router/src/pool.rs 150-162 prune_dead *)
Definition prune_dead (p : CredentialPool) (now_ms : Z) : CredentialPool :=
  with_entries p (List.filter (retain p now_ms) (entries p)).

Definition with_leases (p : CredentialPool) (m : gmap Uuid Z) : CredentialPool :=
  {| entries := entries p; strategy := strategy p; rr_cursor := rr_cursor p; leases := m;
     max_concurrent_per_credential := max_concurrent_per_credential p; dead_at := dead_at p |}.
(* src/qcue-rs/router/src/pool.rs 164-173 acquire_lease *)
Definition acquire_lease (p : CredentialPool) (oid : option Uuid)
  : CredentialPool * option Uuid :=
  match oid with
  | None => (p, None)
  | Some i =>
      let count := unwrap_or (leases p !! i) 0 in
      if max_concurrent_per_credential p <=? count
      then (with_leases p (<[i := count]> (leases p)), None)
      else (with_leases p (<[i := count + 1]> (leases p)), Some i)
  end.
(* src/qcue-rs/router/src/pool.rs 174-178 release_lease *)
Definition release_lease (p : CredentialPool) (i : Uuid) : CredentialPool :=
  match leases p !! i with
  | Some c => with_leases p (<[i := Z.max 0 (c - 1)]> (leases p))
  | None => p
  end.

(** ** The pool as a transition system *)
Inductive PoolOp : Type :=
| OpSelect (now : Z)
| OpExhaust (st : Z) (reset : option Z) (hint : option string) (now : Z)
| OpOk (hint : string)
| OpDead (hint : string)
| OpSetDeadAt (hint : string) (now : Z)
| OpPrune (now : Z)
| OpAcquire (i : option Uuid)
| OpRelease (i : Uuid).

Definition pool_step (p : CredentialPool) (o : PoolOp) : CredentialPool :=
  match o with
  | OpSelect now => (select p now).1
  | OpExhaust st reset hint now => (mark_exhausted_and_rotate p st reset hint now).1
  | OpOk hint => (mark_ok p hint).1
  | OpDead hint => mark_dead p hint
  | OpSetDeadAt hint now => set_dead_at p hint now
  | OpPrune now => prune_dead p now
  | OpAcquire i => (acquire_lease p i).1
  | OpRelease i => release_lease p i
  end.
Definition pool_run (p : CredentialPool) (ops : list PoolOp) : CredentialPool :=
  foldl pool_step p ops.

(** [k] selections in a row at one instant. *)
Fixpoint select_n (k : nat) (p : CredentialPool) (now : Z) : list (option PooledCredential) :=
  match k with
  | O => []
  | S k => let '(p', c) := select p now in c :: select_n k p' now
  end.
Definition eligible_entries (p : CredentialPool) (now : Z) : list PooledCredential :=
  List.filter (fun c => eligible p c now) (entries p).

(** ** Lemmas *)

Lemma sort_by_key_perm {A} (key : A -> Z) (l : list A) : sort_by_key key l ≡ₚ l.
Proof. apply sort_by_perm. Qed.

(** The head of a stable sort is the first element of minimal key. *)
Definition first_min {A} (key : A -> Z) (l : list A) (x : A) : Prop :=
  exists l1 l2, l = l1 ++ x :: l2 /\
    (forall y, y ∈ l1 -> key x < key y) /\ (forall y, y ∈ l2 -> key x <= key y).

Lemma head_insert_by {A} (key : A -> Z) (x : A) (l : list A) :
  head (insert_by (fun x y => key x <=? key y) x l) =
  Some (match head l with Some y => if key x <=? key y then x else y | None => x end).
Proof. destruct l as [|y l]; simpl; [done|]. by case_match. Qed.

Lemma sort_by_key_first_min {A} (key : A -> Z) (l : list A) (x : A) :
  head (sort_by_key key l) = Some x -> first_min key l x.
Proof.
  revert x. induction l as [|a l IH]; intros x; [done|].
  unfold sort_by_key. cbn [sort_by foldr]. fold (sort_by (fun x y => key x <=? key y) l) (sort_by_key key l). rewrite head_insert_by. intros [= Hx].
  destruct (head (sort_by_key key l)) as [y|] eqn:Hh.
  - destruct (IH y eq_refl) as (l1 & l2 & Hl & H1 & H2).
    destruct (key a <=? key y) eqn:Hle; bool_prop; subst.
    + exists [], (l1 ++ y :: l2). split; [done|]. split; [intros z Hz; inv Hz|].
      intros z Hz. apply elem_of_app in Hz as [Hz|Hz]; [specialize (H1 _ Hz); lia|].
      apply elem_of_cons in Hz as [->|Hz]; [lia|]. specialize (H2 _ Hz); lia.
    + exists (a :: l1), l2. split; [done|]. split; [|done].
      intros z Hz. apply elem_of_cons in Hz as [->|Hz]; [lia|auto].
  - assert (l = []) as ->.
    { apply Permutation_nil. rewrite <- (sort_by_key_perm key l).
      by destruct (sort_by_key key l). }
    subst. exists [], []. repeat split; intros y Hy; inv Hy.
Qed.

Lemma sort_by_key_head {A} (key : A -> Z) (l : list A) :
  l <> [] -> exists x, head (sort_by_key key l) = Some x.
Proof.
  intros Hl. destruct (sort_by_key key l) eqn:Hs; [|by eexists].
  exfalso. apply Hl. apply Permutation_nil. by rewrite <- (sort_by_key_perm key l), Hs.
Qed.

Lemma elem_of_eligible_idxs (p : CredentialPool) (now : Z) (i : nat) :
  i ∈ eligible_idxs p now <-> exists c, entries p !! i = Some c /\ eligible p c now = true.
Proof.
  unfold eligible_idxs. rewrite list_elem_of_In, filter_In, <- list_elem_of_In.
  split.
  - intros [_ H]. destruct (entries p !! i) as [c|]; [by exists c|done].
  - intros (c & Hc & He). rewrite Hc. split; [|done].
    apply elem_of_seq. split; [lia|]. apply lookup_lt_Some in Hc. lia.
Qed.

(** Filtering indices or entries gives the same credentials in the same order. *)
Lemma filter_seq_lookup {A} (f : A -> bool) (l k : list A) :
  (fun i => (k ++ l) !! i) <$>
    List.filter (fun i => match (k ++ l) !! i with Some c => f c | None => false end)
      (seq (length k) (length l))
  = Some <$> List.filter f l.
Proof.
  revert k. induction l as [|x l IH]; intros k; [done|].
  cbn [length seq List.filter]. rewrite list_lookup_middle by done.
  specialize (IH (k ++ [x])). rewrite length_app in IH. cbn [length] in IH.
  rewrite Nat.add_1_r, <- app_assoc in IH. cbn [app] in IH.
  destruct (f x); cbn [fmap list_fmap]; rewrite IH; [|done].
  by rewrite list_lookup_middle by done.
Qed.

Lemma eligible_idxs_entries (p : CredentialPool) (now : Z) :
  (fun i => entries p !! i) <$> eligible_idxs p now = Some <$> eligible_entries p now.
Proof. exact (filter_seq_lookup (fun c => eligible p c now) (entries p) []). Qed.

Lemma length_eligible (p : CredentialPool) (now : Z) :
  length (eligible_idxs p now) = length (eligible_entries p now).
Proof.
  pose proof (f_equal length (eligible_idxs_entries p now)) as H. by rewrite !length_fmap in H.
Qed.

Lemma lookup_eligible_idx (p : CredentialPool) (now : Z) (k : nat) :
  (eligible_idxs p now !! k ≫= fun i => entries p !! i) = eligible_entries p now !! k.
Proof.
  pose proof (f_equal (fun l => l !! k) (eligible_idxs_entries p now)) as H.
  cbn beta in H. rewrite !list_lookup_fmap in H.
  destruct (eligible_idxs p now !! k), (eligible_entries p now !! k); simpl in *; congruence.
Qed.

Lemma mod_index (a : Z) (n : nat) : (0 < n)%nat -> (Z.to_nat (a mod Z.of_nat n) < n)%nat.
Proof. intros. pose proof (Z.mod_pos_bound a (Z.of_nat n) ltac:(lia)). lia. Qed.

(** Every strategy picks one of the eligible indices. *)
Lemma select_some (p : CredentialPool) (now : Z) :
  eligible_idxs p now <> [] ->
  exists i c, i ∈ eligible_idxs p now /\ entries p !! i = Some c /\
              (select p now).2 = Some c /\ entries (select p now).1 = entries p.
Proof.
  intros Hne. unfold select. destruct (eligible_idxs p now) as [|i0 l] eqn:Hl; [done|].
  rewrite <- Hl in *. clear Hl i0 l.
  assert (0 < length (eligible_idxs p now))%nat as Hlen
    by (destruct (eligible_idxs p now); [done|simpl; lia]).
  assert (Hpick : forall o p', entries p' = entries p ->
    (exists i, o = Some i /\ i ∈ eligible_idxs p now) ->
    exists i c, i ∈ eligible_idxs p now /\ entries p !! i = Some c /\
      (o ≫= fun i => entries p !! i) = Some c /\ entries p' = entries p).
  { intros o p' Hp' (i & -> & Hi). pose proof Hi as (c & Hc & _)%elem_of_eligible_idxs.
    by exists i, c. }
  assert (Hidx : forall a, exists i,
    eligible_idxs p now !! Z.to_nat (a mod Z.of_nat (length (eligible_idxs p now))) = Some i /\
    i ∈ eligible_idxs p now).
  { intros a. destruct (lookup_lt_is_Some_2 (eligible_idxs p now) _ (mod_index a _ Hlen)) as [i Hi].
    exists i. split; [done|]. by eapply list_elem_of_lookup_2. }
  assert (Hsort : forall key, exists i,
    head (sort_by_key key (eligible_idxs p now)) = Some i /\ i ∈ eligible_idxs p now).
  { intros key. destruct (sort_by_key_head key _ Hne) as [i Hi]. exists i. split; [done|].
    rewrite <- (sort_by_key_perm key (eligible_idxs p now)).
    destruct (sort_by_key key _); [done|]. inv Hi. left. }
  destruct (strategy p); (apply Hpick; [done|auto]).
Qed.

Lemma select_empty (p : CredentialPool) (now : Z) :
  eligible_idxs p now = [] -> select p now = (p, None).
Proof. intros He. unfold select. by rewrite He. Qed.

Lemma select_fields (p : CredentialPool) (now : Z) :
  entries (select p now).1 = entries p /\ leases (select p now).1 = leases p /\
  max_concurrent_per_credential (select p now).1 = max_concurrent_per_credential p /\
  dead_at (select p now).1 = dead_at p /\ strategy (select p now).1 = strategy p.
Proof.
  unfold select. destruct (eligible_idxs p now); [repeat split|]. destruct (strategy p) eqn:Hs; repeat split; exact Hs.
Qed.

Lemma eligible_idxs_nil (p : CredentialPool) (now : Z) :
  eligible_idxs p now = [] <-> forall c, c ∈ entries p -> eligible p c now = false.
Proof.
  split.
  - intros He c Hc. apply list_elem_of_lookup_1 in Hc as [i Hi].
    destruct (eligible p c now) eqn:Hel; [|done].
    assert (i ∈ eligible_idxs p now) as Hin by (apply elem_of_eligible_idxs; eauto).
    rewrite He in Hin. inv Hin.
  - intros H. destruct (eligible_idxs p now) as [|i l] eqn:He; [done|].
    assert (i ∈ eligible_idxs p now) as Hin by (rewrite He; left).
    apply elem_of_eligible_idxs in Hin as (c & Hc & Hel).
    rewrite H in Hel; [done|]. by eapply list_elem_of_lookup_2.
Qed.

Lemma eligible_selected (p : CredentialPool) (now : Z) (c : PooledCredential) :
  (select p now).2 = Some c -> c ∈ entries p /\ eligible p c now = true.
Proof.
  intros Hsel. destruct (eligible_idxs p now) as [|i0 l] eqn:Hl.
  - by rewrite select_empty in Hsel.
  - destruct (select_some p now) as (i & c' & Hi & Hc & Hsel' & _); [by rewrite Hl|].
    apply elem_of_eligible_idxs in Hi as (c2 & Hc2 & He).
    rewrite Hsel in Hsel'. injection Hsel' as <-. rewrite Hc in Hc2. injection Hc2 as <-.
    split; [by eapply list_elem_of_lookup_2|done].
Qed.

(** Round robin: [k] selections walk the eligible credentials cyclically from the cursor. *)
Lemma eligible_entries_cursor (p : CredentialPool) (k now : Z) :
  eligible_entries (with_cursor p k) now = eligible_entries p now.
Proof. reflexivity. Qed.

Lemma select_round_robin (p : CredentialPool) (now : Z) :
  strategy p = RoundRobin -> eligible_entries p now <> [] ->
  select p now =
  (with_cursor p (Int.wrap_u64 (rr_cursor p + 1)),
   eligible_entries p now !! Z.to_nat (rr_cursor p mod Z.of_nat (length (eligible_entries p now)))).
Proof.
  intros Hs Hne. rewrite <- lookup_eligible_idx, <- length_eligible. unfold select. rewrite Hs.
  pose proof (length_eligible p now) as Hl.
  destruct (eligible_idxs p now); [by destruct (eligible_entries p now)|done].
Qed.

Lemma select_n_round_robin (k : nat) (p : CredentialPool) (now : Z) :
  strategy p = RoundRobin -> eligible_entries p now <> [] ->
  0 <= rr_cursor p -> rr_cursor p + Z.of_nat k <= Int.u64_max ->
  select_n k p now =
  (fun j => eligible_entries p now !!
     Z.to_nat ((rr_cursor p + Z.of_nat j) mod Z.of_nat (length (eligible_entries p now))))
  <$> seq 0 k.
Proof.
  revert p. induction k as [|k IH]; intros p Hs Hne H0 Hmax; [done|].
  cbn [select_n]. rewrite select_round_robin by done. cbn [seq fmap list_fmap].
  rewrite Z.add_0_r. f_equal.
  rewrite Int.wrap_u64_small by (unfold Int.in_u64; lia).
  rewrite IH; cbn [rr_cursor with_cursor strategy]; [|done|done|lia|lia].
  rewrite eligible_entries_cursor. rewrite <- fmap_S_seq, <- list_fmap_compose.
  apply list_fmap_ext. intros i j _. simpl. do 3 f_equal. lia.
Qed.

Lemma length_pos {A} (l : list A) : l <> [] -> (0 < length l)%nat.
Proof. destruct l; [done|]. simpl. lia. Qed.

(** Adding offsets [0 .. n-1] modulo [n] is a rotation. *)
Lemma rotate_lookup {A} (l : list A) (a : Z) :
  l <> [] -> 0 <= a ->
  (fun j => l !! Z.to_nat ((a + Z.of_nat j) mod Z.of_nat (length l))) <$> seq 0 (length l)
  = Some <$> (let k := Z.to_nat (a mod Z.of_nat (length l)) in drop k l ++ take k l).
Proof.
  intros Hne Ha. set (n := length l). assert (0 < n)%nat by (unfold n; by apply length_pos).
  pose proof (mod_index a n ltac:(done)) as Hk. cbn zeta.
  set (k := Z.to_nat (a mod Z.of_nat n)) in *.
  pose proof (Z.mod_pos_bound a (Z.of_nat n) ltac:(lia)) as Hb.
  apply list_eq. intros i. rewrite !list_lookup_fmap.
  destruct (decide (i < n)%nat) as [Hi|Hi].
  - rewrite lookup_seq_lt by done. simpl.
    rewrite Z.add_mod by lia. rewrite (Z.mod_small (Z.of_nat i)) by lia.
    assert (Z.to_nat ((a mod Z.of_nat n + Z.of_nat i) mod Z.of_nat n)
            = if decide (i < n - k)%nat then (k + i)%nat else (i - (n - k))%nat) as ->.
    { case_decide.
      - rewrite Z.mod_small by lia. lia.
      - replace (a mod Z.of_nat n + Z.of_nat i)
          with ((Z.of_nat k + Z.of_nat i - Z.of_nat n) + 1 * Z.of_nat n) by lia.
        rewrite Z.mod_add by lia. rewrite Z.mod_small by lia. lia. }
    case_decide.
    + rewrite lookup_app_l by (rewrite length_drop; fold n; lia). rewrite lookup_drop.
      destruct (lookup_lt_is_Some_2 l (k + i)) as [x Hx]; [fold n; lia|]. by rewrite Hx.
    + rewrite lookup_app_r by (rewrite length_drop; fold n; lia).
      rewrite length_drop. fold n. rewrite lookup_take_lt by lia.
      destruct (lookup_lt_is_Some_2 l (i - (n - k))) as [x Hx]; [fold n; lia|]. by rewrite Hx.
  - rewrite lookup_ge_None_2 by (rewrite length_seq; lia).
    rewrite lookup_ge_None_2; [done|]. rewrite length_app, length_drop, length_take. fold n. lia.
Qed.

(** Updates of the first entry with a hint. *)
Lemma elem_of_update_first (h : string) (f : PooledCredential -> PooledCredential)
  (l : list PooledCredential) (c : PooledCredential) :
  c ∈ update_first h f l -> c ∈ l \/ exists c0, c0 ∈ l /\ key_hint c0 = h /\ c = f c0.
Proof.
  induction l as [|x l IH]; simpl; [by left|].
  destruct (String.eqb_spec (key_hint x) h) as [Hx|Hx].
  - intros [->|Hc]%elem_of_cons; [right; exists x; split; [left|done]|left; by right].
  - intros [->|Hc]%elem_of_cons; [left; left|].
    destruct (IH Hc) as [?|(c0 & ? & ?)]; [left; by right|right; exists c0; split; [by right|done]].
Qed.

Lemma find_first_update (h : string) (f : PooledCredential -> PooledCredential)
  (l : list PooledCredential) :
  (forall c, key_hint (f c) = key_hint c) ->
  find_first (fun c => String.eqb (key_hint c) h) (update_first h f l)
  = f <$> find_first (fun c => String.eqb (key_hint c) h) l.
Proof.
  intros Hf. induction l as [|x l IH]; simpl; [done|].
  destruct (String.eqb (key_hint x) h) eqn:Hx; simpl; [by rewrite Hf, Hx|by rewrite Hx].
Qed.

Lemma find_hint_find_mut (p : CredentialPool) (h : string)
  (f : PooledCredential -> PooledCredential) :
  (forall c, key_hint (f c) = key_hint c) ->
  find_hint (find_mut p h f) h = f <$> find_hint p h.
Proof. apply find_first_update. Qed.

Lemma find_hint_select (p : CredentialPool) (now : Z) (h : string) :
  find_hint (select p now).1 h = find_hint p h.
Proof. unfold find_hint. by destruct (select_fields p now) as [-> _]. Qed.

(** ** Lease counts stay within the cap *)
Definition leases_ok (p : CredentialPool) : Prop :=
  0 <= max_concurrent_per_credential p /\
  forall i n, leases p !! i = Some n -> 0 <= n <= max_concurrent_per_credential p.

Lemma leases_ok_insert (p : CredentialPool) (i : Uuid) (n : Z) :
  leases_ok p -> 0 <= n <= max_concurrent_per_credential p ->
  leases_ok (with_leases p (<[i := n]> (leases p))).
Proof.
  intros [H0 H] Hn. split; [done|]. intros j m. simpl.
  intros [[_ <-]|[_ Hj]]%lookup_insert_Some; [done|by eapply H].
Qed.

Lemma leases_ok_count (p : CredentialPool) (i : Uuid) :
  leases_ok p -> 0 <= unwrap_or (leases p !! i) 0 <= max_concurrent_per_credential p.
Proof. intros [H0 H]. destruct (leases p !! i) eqn:Hi; simpl; [eauto|lia]. Qed.

Lemma leases_ok_select (p : CredentialPool) (now : Z) :
  leases_ok p -> leases_ok (select p now).1.
Proof.
  unfold leases_ok. by destruct (select_fields p now) as (_ & -> & -> & _).
Qed.

Lemma leases_ok_step (p : CredentialPool) (o : PoolOp) : leases_ok p -> leases_ok (pool_step p o).
Proof.
  intros Hok. destruct o as [now|st rs h now|h|h|h now|now|i|i]; try exact Hok; simpl.
  - by apply leases_ok_select.
  - unfold mark_exhausted_and_rotate. apply leases_ok_select. by destruct h.
  - unfold mark_ok. destruct (find_hint p h) as [c|]; [|done]. by destruct (status c).
  - unfold acquire_lease. destruct i as [i|]; [|done].
    pose proof (leases_ok_count p i Hok). destruct_match; bool_prop;
      (apply leases_ok_insert; [done|lia]).
  - unfold release_lease. destruct (leases p !! i) as [n|] eqn:Hi; [|done].
    pose proof (proj2 Hok _ _ Hi). apply leases_ok_insert; [done|]. lia.
Qed.

(** ** Dead credentials *)
Definition not_exhaust (o : PoolOp) : Prop :=
  match o with OpExhaust _ _ (Some _) _ => False | _ => True end.

(** Every live entry of [p'] was live in [p]. *)
Definition no_revival (p p' : CredentialPool) : Prop :=
  forall c', c' ∈ entries p' -> status c' <> CredDead ->
  exists c, c ∈ entries p /\ id c = id c' /\ key_hint c = key_hint c' /\ status c <> CredDead.

Lemma no_revival_refl (p : CredentialPool) : no_revival p p.
Proof. intros c Hc Hs. by exists c. Qed.

Lemma no_revival_trans (p q r : CredentialPool) :
  no_revival p q -> no_revival q r -> no_revival p r.
Proof.
  intros H1 H2 c Hc Hs. destruct (H2 c Hc Hs) as (c1 & Hc1 & Hi & Hk & Hs1).
  destruct (H1 c1 Hc1 Hs1) as (c2 & ? & ? & ? & ?). exists c2. repeat split; congruence.
Qed.

Lemma no_revival_entries (p p' : CredentialPool) : entries p' = entries p -> no_revival p p'.
Proof. intros He c Hc Hs. rewrite He in Hc. by exists c. Qed.

Lemma no_revival_step (p : CredentialPool) (o : PoolOp) :
  not_exhaust o -> no_revival p (pool_step p o).
Proof.
  intros Ho. destruct o as [now|st rs h now|h|h|h now|now|i|i]; simpl;
    try (apply no_revival_entries; reflexivity).
  - apply no_revival_entries. by destruct (select_fields p now).
  - destruct h; [done|]. apply no_revival_entries. unfold mark_exhausted_and_rotate.
    by destruct (select_fields p now).
  - unfold mark_ok. destruct (find_hint p h) as [c0|] eqn:Hf; [|apply no_revival_refl].
    destruct (status c0) eqn:Hst; try apply no_revival_refl.
    intros c Hc Hs. simpl in Hc. unfold find_hint in Hf. revert Hc Hf.
    induction (entries p) as [|x l IH]; simpl; [intros Hc; inv Hc|].
    destruct (String.eqb (key_hint x) h) eqn:Hx.
    + intros [->|Hc]%elem_of_cons [= ->]; [|exists c; split; [by right|done]].
      exists c0. split; [left|]. repeat split. congruence.
    + intros [->|Hc]%elem_of_cons Hf; [exists x; split; [left|done]|].
      destruct (IH Hc Hf) as (c1 & ? & ?). exists c1. split; [by right|done].
  - intros c Hc Hs. apply elem_of_update_first in Hc as [Hc|(c0 & _ & _ & ->)]; [by exists c|done].
  - intros c Hc Hs. simpl in Hc. apply list_elem_of_In, filter_In in Hc as [Hc _].
    apply list_elem_of_In in Hc. by exists c.
  - apply no_revival_entries. destruct i; simpl; [|done]. by case_match.
  - apply no_revival_entries. unfold release_lease. by case_match.
Qed.

Lemma no_revival_run (ops : list PoolOp) (p : CredentialPool) :
  Forall not_exhaust ops -> no_revival p (pool_run p ops).
Proof.
  revert p. induction ops as [|o ops IH]; intros p Ho; [apply no_revival_refl|].
  inv Ho. cbn [pool_run foldl]. eapply no_revival_trans; [by apply no_revival_step|by apply IH].
Qed.

(** ** Properties *)

(** C5: selection is sound and complete: it returns a credential exactly when some credential of the
    pool is eligible (healthy or past its cooldown, not dead, below the lease cap), the one returned
    is eligible and from the pool, and no strategy ever indexes out of bounds. *)
Theorem select_sound_complete (p : CredentialPool) (now : Z) :
  ((select p now).2 = None <-> forall c, c ∈ entries p -> eligible p c now = false) /\
  (forall c, (select p now).2 = Some c -> c ∈ entries p /\ eligible p c now = true).
Proof.
  split; [|by intros c; apply eligible_selected]. split; [|intros Hno].
  - intros Hnone. apply eligible_idxs_nil. destruct (eligible_idxs p now) eqn:Hl; [done|].
    destruct (select_some p now) as (i & c & _ & _ & Hsel & _); [by rewrite Hl|congruence].
  - apply eligible_idxs_nil in Hno. by rewrite select_empty.
Qed.

(** Fill-first spends the most preferred eligible credential: no eligible credential has a
    smaller priority, and among equals the one listed first wins. *)
Theorem fill_first_minimal (p : CredentialPool) (now : Z) (c : PooledCredential)
  (Hs : strategy p = FillFirst) (Hc : (select p now).2 = Some c) :
  exists l1 l2, eligible_idxs p now = l1 ++ l2 /\
    (forall j, j ∈ l1 -> priority c < entry_key p priority j) /\
    (forall j, j ∈ l2 -> priority c <= entry_key p priority j) /\
    (head l2 ≫= fun i => entries p !! i) = Some c.
Proof.
  unfold select in Hc. rewrite Hs in Hc.
  destruct (eligible_idxs p now) as [|i0 l] eqn:Hl; [done|]. rewrite <- Hl in *.
  cbn [snd] in Hc. destruct (head _) as [i|] eqn:Hh; [|done].
  apply sort_by_key_first_min in Hh as (l1 & l2 & Hsplit & H1 & H2).
  cbn in Hc. assert (entry_key p priority i = priority c) as Hk
    by (unfold entry_key; by rewrite Hc).
  rewrite Hk in *. exists l1, (i :: l2). rewrite Hsplit. repeat split; [done| |done].
  intros j [->|Hj]%elem_of_cons; [lia|auto].
Qed.

Definition demo_cred (i : Uuid) (h : string) (pr : Z) (st : CredStatus) : PooledCredential :=
  {| id := i; label := None; priority := pr; status := st; key_hint := h;
     last_error_code := None; last_error_reason := None; request_count := 0 |}.
Definition demo_pool (st : PoolStrategy) : CredentialPool :=
  pool_new [demo_cred 1%N "1" 5 CredOk; demo_cred 2%N "2" 1 (CredExhausted 1000); demo_cred 3%N "3" 1 CredOk;
            demo_cred 4%N "4" 0 CredDead] st.

Lemma fill_first_minimal_witness :
  exists l1 l2, eligible_idxs (demo_pool FillFirst) 1000 = l1 ++ l2 /\
    (forall j, j ∈ l1 -> 1 < entry_key (demo_pool FillFirst) priority j) /\
    (forall j, j ∈ l2 -> 1 <= entry_key (demo_pool FillFirst) priority j) /\
    (head l2 ≫= fun i => entries (demo_pool FillFirst) !! i)
    = Some (demo_cred 2%N "2" 1 (CredExhausted 1000)).
Proof.
  apply (fill_first_minimal (demo_pool FillFirst) 1000 (demo_cred 2%N "2" 1 (CredExhausted 1000)));
    vm_compute; reflexivity.
Defined.

(** Round robin is fair: as many selections in a row as there are eligible credentials return
    each of them exactly once, in pool order starting at the cursor. *)
Theorem round_robin_fair (p : CredentialPool) (now : Z)
  (Hs : strategy p = RoundRobin) (Hne : eligible_entries p now <> [])
  (Hcur : 0 <= rr_cursor p)
  (Hmax : rr_cursor p + Z.of_nat (length (eligible_entries p now)) <= Int.u64_max) :
  let l := eligible_entries p now in
  let k := Z.to_nat (rr_cursor p mod Z.of_nat (length l)) in
  select_n (length l) p now = Some <$> (drop k l ++ take k l).
Proof.
  cbn zeta. rewrite select_n_round_robin by done. by apply rotate_lookup.
Qed.

Lemma round_robin_fair_witness :
  select_n 3 (with_cursor (demo_pool RoundRobin) 4) 1000
  = [Some (demo_cred 2%N "2" 1 (CredExhausted 1000)); Some (demo_cred 3%N "3" 1 CredOk);
     Some (demo_cred 1%N "1" 5 CredOk)].
Proof.
  apply (round_robin_fair (with_cursor (demo_pool RoundRobin) 4) 1000);
    [reflexivity|discriminate|discriminate|discriminate].
Defined.

(** No error parks a credential for more than five minutes: whatever status and retry hint came
    with it, the penalised credential's cooldown ends by [now + 5 min], from when it is eligible again
    as soon as it has a free lease. *)
Theorem cooldown_capped (p : CredentialPool) (st now : Z) (reset : option Z) (h : string)
  (c : PooledCredential)
  (Hnow : Int.i64_min <= now /\ now + MAX_COOLDOWN_MS <= Int.i64_max)
  (Hc : find_hint p h = Some c) :
  exists until c',
    find_hint (mark_exhausted_and_rotate p st reset (Some h) now).1 h = Some c' /\
    id c' = id c /\ status c' = CredExhausted until /\ until <= now + MAX_COOLDOWN_MS /\
    (unwrap_or (leases p !! id c) 0 < max_concurrent_per_credential p ->
     forall later, now + MAX_COOLDOWN_MS <= later ->
     eligible (mark_exhausted_and_rotate p st reset (Some h) now).1 c' later = true).
Proof.
  unfold mark_exhausted_and_rotate. set (u := cooldown_until st reset now).
  assert (u <= now + MAX_COOLDOWN_MS) as Hu.
  { unfold u, cooldown_until. rewrite (Int.wrap_i64_small (now + MAX_COOLDOWN_MS)); [lia|].
    unfold Int.in_i64, MAX_COOLDOWN_MS in *. lia. }
  exists u, (set_status (CredExhausted u) (Some st) c).
  rewrite find_hint_select, find_hint_find_mut, Hc by done.
  repeat split; [done|]. intros Hlease later Hlater. unfold eligible.
  destruct (select_fields (find_mut p h (set_status (CredExhausted u) (Some st))) now)
    as (_ & -> & -> & _). simpl.
  rewrite (proj2 (Z.leb_le _ _)) by lia. by rewrite (proj2 (Z.ltb_lt _ _)).
Qed.

Lemma cooldown_capped_witness :
  exists until c',
    find_hint (mark_exhausted_and_rotate (demo_pool RoundRobin) 429 (Some 99999999999)
                 (Some "3") 1000).1 "3" = Some c' /\
    id c' = 3%N /\ status c' = CredExhausted until /\ until <= 1000 + MAX_COOLDOWN_MS.
Proof.
  destruct (cooldown_capped (demo_pool RoundRobin) 429 1000 (Some 99999999999) "3"
              (demo_cred 3%N "3" 1 CredOk)) as (u & c' & H1 & H2 & H3 & H4 & _);
    [split; vm_compute; discriminate|vm_compute; reflexivity|].
  exists u, c'. repeat split; done.
Defined.

(** After any sequence of pool operations every credential's lease count lies between 0 and the
    cap of one concurrent use. *)
Theorem lease_count_bounded (es : list PooledCredential) (st : PoolStrategy) (ops : list PoolOp)
  (i : Uuid) (n : Z) (Hn : leases (pool_run (pool_new es st) ops) !! i = Some n) :
  0 <= n <= 1.
Proof.
  assert (Hmax : forall ops p, max_concurrent_per_credential (pool_run p ops)
                          = max_concurrent_per_credential p).
  { clear. induction ops as [|o ops IH]; intros p; [done|]. cbn [pool_run foldl].
    unfold pool_run in IH. rewrite IH.
    destruct o as [now|? ? h now|h|?|? ?|?|j|j]; try done; simpl.
    - by destruct (select_fields p now) as (_ & _ & -> & _).
    - unfold mark_exhausted_and_rotate. destruct h; by rewrite (proj1 (proj2 (proj2 (select_fields _ now)))).
    - unfold mark_ok. by repeat case_match.
    - unfold acquire_lease. by repeat case_match.
    - unfold release_lease. by repeat case_match. }
  assert (Hok : forall ops p, leases_ok p -> leases_ok (pool_run p ops)).
  { clear. induction ops as [|o ops IH]; intros p Hp; [done|]. apply IH. by apply leases_ok_step. }
  destruct (Hok ops (pool_new es st)) as [_ H]; [split; [done|by intros ? ?]|].
  specialize (H _ _ Hn). by rewrite Hmax in H.
Qed.

Lemma lease_count_bounded_witness :
  exists n, leases (pool_run (demo_pool FillFirst) [OpAcquire (Some 1%N); OpAcquire (Some 1%N)])
    !! 1%N = Some n /\ 0 <= n <= 1.
Proof.
  exists 1. split; [vm_compute; reflexivity|].
  apply (lease_count_bounded [demo_cred 1%N "1" 5 CredOk; demo_cred 2%N "2" 1 (CredExhausted 1000);
            demo_cred 3%N "3" 1 CredOk; demo_cred 4%N "4" 0 CredDead] FillFirst
            [OpAcquire (Some 1%N); OpAcquire (Some 1%N)] 1%N 1).
  vm_compute. reflexivity.
Defined.

(** Death is terminal for every operation except a penalty by hint: along any sequence of pool
    operations without one, a live credential of the result was live in the pool before, so a dead
    credential is never selected again. A penalty does revive a dead credential: it overwrites its
    status with a cooldown. *)
Theorem dead_stays_dead (p : CredentialPool) :
  (forall ops, Forall not_exhaust ops -> no_revival p (pool_run p ops)) /\
  (forall c now, status c = CredDead -> eligible p c now = false) /\
  (forall st reset h now c, find_hint p h = Some c -> status c = CredDead ->
   status <$> find_hint (mark_exhausted_and_rotate p st reset (Some h) now).1 h
   = Some (CredExhausted (cooldown_until st reset now))).
Proof.
  split; [by intros ops; apply no_revival_run|]. split.
  - intros c now Hd. unfold eligible. by rewrite Hd.
  - intros st reset h now c Hc _. unfold mark_exhausted_and_rotate.
    by rewrite find_hint_select, find_hint_find_mut, Hc by done.
Qed.

Lemma dead_stays_dead_witness :
  no_revival (demo_pool FillFirst) (pool_run (demo_pool FillFirst) [OpOk "4"; OpSelect 5]) /\
  status <$> find_hint (mark_exhausted_and_rotate (demo_pool FillFirst) 429 None (Some "4") 0).1 "4"
  = Some (CredExhausted 60000).
Proof.
  destruct (dead_stays_dead (demo_pool FillFirst)) as (H1 & _ & H3). split.
  - apply H1. by repeat constructor.
  - apply (H3 429 None "4" 0 (demo_cred 4%N "4" 0 CredDead)); vm_compute; reflexivity.
Defined.
