(* ===== verification/Providers.v ===== *)
(** * Providers: profiles, hooks, wire quirks and api-mode resolution

    The crate [providers]: the declarative profile of each vendor, the hooks that adapt a request body
    to it, and the choice of the wire a model speaks. A hook that mutates a JSON body with
    [body["k"] = v] panics on a body that is neither an object nor null; the body passing hooks
    therefore return an [option]. *)
From S2P Require Import Prelude RustStr Json Protocol.

#[local] Open Scope string_scope.
#[local] Open Scope list_scope.

(* src/qcue-rs/providers/src/hooks.rs 7-15 Effort *)
Inductive Effort : Type :=
| Minimal
| Low
| Medium
| High
| XHigh
| Max.

(* src/qcue-rs/providers/src/hooks.rs 17-20 ReasoningConfig *)
Record ReasoningConfig : Type := { effort : option Effort }.

(* src/qcue-rs/providers/src/hooks.rs 22-26 ReqCtx *)
Record ReqCtx : Type := {
  session_id : option string;
  ctx_model : string;
}.

(* src/qcue-rs/providers/src/hooks.rs 28-57 ProviderHooks *)
Record ProviderHooks : Type := {
  prepare_messages : list Message -> list Message;
  build_extra_body : option string -> ReqCtx -> Value;
  build_api_kwargs_extras : option ReasoningConfig -> ReqCtx -> Value * JMap.t;
  get_max_tokens : string -> option Z;
  apply_reasoning_effort : Value -> Effort -> option Value;
  api_mode_override : string -> option ApiMode;
}.

(* src/qcue-rs/providers/src/hooks.rs 59-62 DefaultHooks *)
Definition DefaultHooks : ProviderHooks := {|
  prepare_messages := fun m => m;
  build_extra_body := fun _ _ => obj [];
  build_api_kwargs_extras := fun _ _ => (obj [], []);
  get_max_tokens := fun _ => None;
  apply_reasoning_effort := fun body _ => Some body;
  api_mode_override := fun _ => None;
|}.

(** An [impl ProviderHooks] that overrides [apply_reasoning_effort] only. *)
Definition effort_hooks (f : Value -> Effort -> option Value) : ProviderHooks := {|
  prepare_messages := prepare_messages DefaultHooks;
  build_extra_body := build_extra_body DefaultHooks;
  build_api_kwargs_extras := build_api_kwargs_extras DefaultHooks;
  get_max_tokens := get_max_tokens DefaultHooks;
  apply_reasoning_effort := f;
  api_mode_override := api_mode_override DefaultHooks;
|}.

(* src/qcue-rs/providers/src/profile.rs 6-12 AuthType *)
Inductive AuthType : Type := ApiKey | OAuthExternal | AwsSdk | Custom.

(* src/qcue-rs/providers/src/profile.rs 14-19 TempPolicy *)
Inductive TempPolicy : Type :=
| Inherit
| Fixed (f : Float)
| Omit.

(* src/qcue-rs/providers/src/profile.rs 21-41 ProviderProfile *)
Record ProviderProfile : Type := {
  name : string;
  api_mode : ApiMode;
  base_url : string;
  models_url : option string;
  auth_type : AuthType;
  default_headers : gmap string string;
  env_http_headers : gmap string string;
  fixed_temperature : TempPolicy;
  default_max_tokens : option Z;
  fallback_models : list string;
  supports_vision : bool;
  request_max_retries : Z;
  stream_idle_timeout_ms : Z;
  stream_ttfb_timeout_ms : Z;
  cache_supported : bool;
  hooks : ProviderHooks;
}.

(** ** Quirk tables *)
Module Quirks.
(* src/qcue-rs/providers/src/quirks.rs 5-17 REASONING_REPLAY_PROVIDERS *)
Definition REASONING_REPLAY_PROVIDERS : list string :=
  ["deepseek"; "nvidianim"; "nvidia"; "openrouter"; "xiaomimimo"; "novita"; "fireworks";
   "siliconflow"; "arcee"; "sglang"].

(* src/qcue-rs/providers/src/quirks.rs 19-26 is_deepseek_family_model *)
Definition is_deepseek_family_model (model : string) : bool :=
  let m := Str.to_ascii_lowercase model in
  Str.contains "deepseek" m || Str.contains "reasoner" m || Str.contains "-reasoning" m
  || Str.contains "-thinking" m || Str.starts_with "deepseek-r" m.

Definition mem (l : list string) (s : string) : bool := existsb (String.eqb s) l.

(* src/qcue-rs/providers/src/quirks.rs 28-32 needs_reasoning_replay *)
Definition needs_reasoning_replay (provider model : string) : bool :=
  mem REASONING_REPLAY_PROVIDERS (Str.to_ascii_lowercase provider)
  && is_deepseek_family_model model.

(* src/qcue-rs/providers/src/quirks.rs 34-40 is_reasoning_provider *)
Definition is_reasoning_provider (provider : string) : bool :=
  mem ["deepseek"; "siliconflow"; "novita"; "fireworks"] (Str.to_ascii_lowercase provider).

(* src/qcue-rs/providers/src/quirks.rs 42-48 ThinkingDisable *)
Inductive ThinkingDisable : Type :=
| ThinkingTypeDisabled
| ChatTemplateEnableThinkingFalse
| ChatTemplateThinkingFalse
| Ignored.

(* src/qcue-rs/providers/src/quirks.rs 50-58 thinking_disable_shape *)
Definition thinking_disable_shape (provider : string) : ThinkingDisable :=
  let p := Str.to_ascii_lowercase provider in
  if mem ["deepseek"; "siliconflow"; "volcengine"] p then ThinkingTypeDisabled
  else if mem ["vllm"] p then ChatTemplateEnableThinkingFalse
  else if mem ["nvidia"; "nvidianim"] p then ChatTemplateThinkingFalse
  else Ignored.

(* src/qcue-rs/providers/src/quirks.rs 60-74 scale_effort *)
Definition scale_effort (provider : string) (e : Effort) : Effort :=
  let p := Str.to_ascii_lowercase provider in
  if mem ["deepseek"; "siliconflow"] p then
    match e with Low | Medium => High | XHigh => Max | other => other end
  else if mem ["vllm"] p then match e with Max => High | other => other end
  else e.

(* src/qcue-rs/providers/src/quirks.rs 76-86 effort_str *)
Definition effort_str (e : Effort) : string :=
  match e with
  | Minimal => "minimal"
  | Low => "low"
  | Medium => "medium"
  | High => "high"
  | XHigh => "xhigh"
  | Max => "max"
  end.
End Quirks.

(** ** Vendors *)
Definition header (k v : string) : gmap string string := {[ k := v ]}.

Module Anthropic.
(* src/qcue-rs/providers/src/vendors/anthropic.rs 7-18 anthropic_budget_tokens *)
Definition anthropic_budget_tokens (e : Effort) : option Z :=
  match e with
  | Minimal => None
  | Low => Some 2048
  | Medium => Some 4096
  | High => Some 8192
  | XHigh => Some 16384
  | Max => Some 32768
  end%Z.

(* src/qcue-rs/providers/src/vendors/anthropic.rs 22-40 apply_reasoning_effort *)
Definition anthropic_apply_reasoning_effort (body : Value) (e : Effort) : option Value :=
  match anthropic_budget_tokens e with
  | None =>
      Some (match body with Object m => Object (JMap.remove "thinking" m) | _ => body end)
  | Some budget =>
      body ← index_mut "thinking"
               (obj [("type", jstr "enabled"); ("budget_tokens", jnum budget)]) body;
      let current := unwrap_or (get "max_tokens" body ≫= as_u64) 0%Z in
      body ← (if (current <=? budget)%Z then index_mut "max_tokens" (jnum (budget + 4096)) body
              else Some body);
      index_mut "temperature" (jnum 1) body
  end.

(* src/qcue-rs/providers/src/vendors/anthropic.rs 42-65 profile *)
Definition profile : ProviderProfile := {|
  name := "anthropic"; api_mode := AnthropicMessages;
  base_url := "https://api.anthropic.com/v1"; models_url := None; auth_type := ApiKey;
  default_headers := header "anthropic-version" "2023-06-01";
  env_http_headers := header "x-api-key" "ANTHROPIC_API_KEY";
  fixed_temperature := Inherit; default_max_tokens := Some 8192%Z; fallback_models := [];
  supports_vision := true; request_max_retries := 3; stream_idle_timeout_ms := 30000;
  stream_ttfb_timeout_ms := 90000; cache_supported := true;
  hooks := effort_hooks anthropic_apply_reasoning_effort |}.
End Anthropic.

Module DeepSeek.
(* src/qcue-rs/providers/src/vendors/deepseek.rs 34-43 apply_reasoning_effort *)
Definition deepseek_apply_reasoning_effort (body : Value) (e : Effort) : option Value :=
  match e with
  | Minimal => index_mut "thinking" (obj [("type", jstr "disabled")]) body
  | _ => index_mut "reasoning_effort"
           (String_ (Quirks.effort_str (Quirks.scale_effort "deepseek" e))) body
  end.

(* src/qcue-rs/providers/src/vendors/deepseek.rs 8-30 profile *)
Definition profile : ProviderProfile := {|
  name := "deepseek"; api_mode := ChatCompletions; base_url := "https://api.deepseek.com";
  models_url := None; auth_type := ApiKey; default_headers := ∅;
  env_http_headers := header "Authorization" "DEEPSEEK_API_KEY";
  fixed_temperature := Inherit; default_max_tokens := Some 4096%Z; fallback_models := [];
  supports_vision := false; request_max_retries := 3; stream_idle_timeout_ms := 30000;
  stream_ttfb_timeout_ms := 60000; cache_supported := false;
  hooks := effort_hooks deepseek_apply_reasoning_effort |}.
End DeepSeek.

Module Gemini.
(* src/qcue-rs/providers/src/vendors/gemini.rs 6-27 profile *)
Definition profile : ProviderProfile := {|
  name := "gemini"; api_mode := ChatCompletions;
  base_url := "https://generativelanguage.googleapis.com/v1beta/openai";
  models_url := None; auth_type := ApiKey; default_headers := ∅;
  env_http_headers := header "Authorization" "GEMINI_API_KEY";
  fixed_temperature := Inherit; default_max_tokens := Some 8192%Z; fallback_models := [];
  supports_vision := true; request_max_retries := 3; stream_idle_timeout_ms := 30000;
  stream_ttfb_timeout_ms := 60000; cache_supported := false; hooks := DefaultHooks |}.
End Gemini.

Module Kimi.
(* src/qcue-rs/providers/src/vendors/kimi.rs 35-46 apply_reasoning_effort *)
Definition kimi_apply_reasoning_effort (body : Value) (e : Effort) : option Value :=
  match e with
  | Minimal => index_mut "thinking" (obj [("type", jstr "disabled")]) body
  | _ => index_mut "reasoning_effort"
           (String_ (Quirks.effort_str (Quirks.scale_effort "kimi" e))) body
  end.

(* src/qcue-rs/providers/src/vendors/kimi.rs 9-31 profile *)
Definition profile : ProviderProfile := {|
  name := "kimi"; api_mode := ChatCompletions; base_url := "https://api.moonshot.cn/v1";
  models_url := None; auth_type := ApiKey; default_headers := ∅;
  env_http_headers := header "Authorization" "MOONSHOT_API_KEY";
  fixed_temperature := Omit; default_max_tokens := Some 4096%Z; fallback_models := [];
  supports_vision := false; request_max_retries := 3; stream_idle_timeout_ms := 30000;
  stream_ttfb_timeout_ms := 60000; cache_supported := false;
  hooks := effort_hooks kimi_apply_reasoning_effort |}.
End Kimi.

Module OpenAi.
Definition second_is_digit (m : string) : bool :=
  match m with
  | String _ (String d _) => Str.is_ascii_digit d
  | _ => false
  end.

(* src/qcue-rs/providers/src/vendors/openai.rs 7-16 model_supports_reasoning *)
Definition model_supports_reasoning (model : string) : bool :=
  let m := Str.to_ascii_lowercase model in
  if Str.starts_with "gpt-5" m then true
  else Str.starts_with "o" m && second_is_digit m.

(* src/qcue-rs/providers/src/vendors/openai.rs 30-36 accepts_chat_reasoning_effort *)
Definition accepts_chat_reasoning_effort (model : string) : bool :=
  let m := Str.to_ascii_lowercase model in
  if Str.starts_with "gpt-5." m then false else model_supports_reasoning m.

(* src/qcue-rs/providers/src/vendors/openai.rs 38-54 openai_effort_str *)
Definition openai_effort_str (model : string) (e : Effort) : string :=
  let minimal_ok := Str.starts_with "gpt-5" (Str.to_ascii_lowercase model) in
  match e with
  | Minimal => if minimal_ok then "minimal" else "low"
  | Low => "low"
  | Medium => "medium"
  | High | XHigh | Max => "high"
  end.

(* src/qcue-rs/providers/src/vendors/openai.rs 59-69 apply_reasoning_effort *)
Definition openai_apply_reasoning_effort (body : Value) (e : Effort) : option Value :=
  let model := unwrap_or (get "model" body ≫= as_str) "" in
  if negb (accepts_chat_reasoning_effort model) then Some body
  else index_mut "reasoning_effort" (String_ (openai_effort_str model e)) body.

(* src/qcue-rs/providers/src/vendors/openai.rs 71-76 api_mode_override *)
Definition openai_api_mode_override (model : string) : option ApiMode :=
  if Str.starts_with "gpt-5." (Str.to_ascii_lowercase model) then Some Responses else None.

(* src/qcue-rs/providers/src/vendors/openai.rs 79-100 profile *)
Definition profile : ProviderProfile := {|
  name := "openai"; api_mode := ChatCompletions; base_url := "https://api.openai.com/v1";
  models_url := Some "https://api.openai.com/v1/models"; auth_type := ApiKey;
  default_headers := ∅; env_http_headers := header "Authorization" "OPENAI_API_KEY";
  fixed_temperature := Inherit; default_max_tokens := Some 4096%Z;
  fallback_models := ["gpt-5.4-mini"]; supports_vision := true; request_max_retries := 3;
  stream_idle_timeout_ms := 30000; stream_ttfb_timeout_ms := 60000; cache_supported := true;
  hooks := {| prepare_messages := prepare_messages DefaultHooks;
              build_extra_body := build_extra_body DefaultHooks;
              build_api_kwargs_extras := build_api_kwargs_extras DefaultHooks;
              get_max_tokens := get_max_tokens DefaultHooks;
              apply_reasoning_effort := openai_apply_reasoning_effort;
              api_mode_override := openai_api_mode_override |} |}.
End OpenAi.

Module OpenRouter.
(* src/qcue-rs/providers/src/vendors/openrouter.rs 6-27 profile *)
Definition profile : ProviderProfile := {|
  name := "openrouter"; api_mode := ChatCompletions; base_url := "https://openrouter.ai/api/v1";
  models_url := None; auth_type := ApiKey; default_headers := ∅;
  env_http_headers := header "Authorization" "OPENROUTER_API_KEY";
  fixed_temperature := Inherit; default_max_tokens := Some 4096%Z; fallback_models := [];
  supports_vision := false; request_max_retries := 3; stream_idle_timeout_ms := 30000;
  stream_ttfb_timeout_ms := 60000; cache_supported := false; hooks := DefaultHooks |}.
End OpenRouter.

Module Qwen.
(* src/qcue-rs/providers/src/vendors/qwen.rs 6-27 profile *)
Definition profile : ProviderProfile := {|
  name := "qwen"; api_mode := ChatCompletions;
  base_url := "https://dashscope.aliyuncs.com/compatible-mode/v1";
  models_url := None; auth_type := ApiKey; default_headers := ∅;
  env_http_headers := header "Authorization" "DASHSCOPE_API_KEY";
  fixed_temperature := Inherit; default_max_tokens := Some 4096%Z; fallback_models := [];
  supports_vision := false; request_max_retries := 3; stream_idle_timeout_ms := 30000;
  stream_ttfb_timeout_ms := 60000; cache_supported := false; hooks := DefaultHooks |}.
End Qwen.

(** ** The registry *)
(* src/qcue-rs/providers/src/registry.rs 8-10 Registry *)
Definition Registry : Type := gmap string ProviderProfile.

(* src/qcue-rs/providers/src/registry.rs 12-14 get *)
Definition registry_get (reg : Registry) (n : string) : option ProviderProfile := reg !! n.

(* src/qcue-rs/providers/src/registry.rs 16-20 from_profiles *)
Definition from_profiles (profiles : gmap string ProviderProfile) : Registry := profiles.

(* src/qcue-rs/providers/src/registry.rs 22-25 insert *)
Definition registry_insert (reg : Registry) (n : string) (p : ProviderProfile) : Registry :=
  <[n := p]> reg.

(* src/qcue-rs/providers/src/registry.rs 28-39 register_all *)
Definition register_all : Registry :=
  <["openrouter" := OpenRouter.profile]>
  (<["qwen" := Qwen.profile]>
  (<["kimi" := Kimi.profile]>
  (<["deepseek" := DeepSeek.profile]>
  (<["gemini" := Gemini.profile]>
  (<["anthropic" := Anthropic.profile]>
  (<["openai" := OpenAi.profile]> ∅)))))).

(* src/qcue-rs/providers/src/registry.rs 41-47 OpenAiCompatible *)
Record OpenAiCompatible : Type := {
  row_base_url : string;
  header_template : gmap string string;
  row_api_mode : ApiMode;
}.

(* src/qcue-rs/providers/src/registry.rs 49-55 ProfileSource *)
Inductive ProfileSource : Type :=
| Static (p : ProviderProfile)
| DbRow (p : ProviderProfile).

(** The profile of a long-tail vendor: the fields both [DbRow] branches share. *)
Definition generic_profile (n : string) (m : ApiMode) (url : string) (hs : gmap string string)
  : ProviderProfile := {|
  name := n; api_mode := m; base_url := url; models_url := None; auth_type := ApiKey;
  default_headers := hs; env_http_headers := ∅; fixed_temperature := Inherit;
  default_max_tokens := Some 4096%Z; fallback_models := []; supports_vision := false;
  request_max_retries := 3; stream_idle_timeout_ms := 30000; stream_ttfb_timeout_ms := 60000;
  cache_supported := false; hooks := DefaultHooks |}.

(* src/qcue-rs/providers/src/registry.rs 57-104 resolve_profile *)
Definition resolve_profile (reg : Registry) (provider : string) (row : option OpenAiCompatible)
  : ProfileSource :=
  match row with
  | Some r => DbRow (generic_profile provider (row_api_mode r) (row_base_url r) (header_template r))
  | None =>
      match registry_get reg provider with
      | Some p => Static p
      | None => DbRow (generic_profile provider ChatCompletions "" ∅)
      end
  end.

(** ** Which wire a model speaks *)
(* src/qcue-rs/providers/src/resolve.rs 6-19 resolve_api_mode *)
Definition resolve_api_mode (explicit : option ApiMode) (provider url : string) : ApiMode :=
  match explicit with
  | Some m => m
  | None =>
      let p := Str.to_ascii_lowercase provider in
      if String.eqb p "anthropic" || Str.ends_with "-anthropic" p then AnthropicMessages
      else
        let host := Str.trim_end_matches ["/"] url in
        if Str.contains "api.anthropic.com" host || Str.ends_with "/anthropic" host
        then AnthropicMessages else ChatCompletions
  end.

(** [env]: the value of the variable [QCUE_RESPONSES_API], if set to valid text. *)
(* src/qcue-rs/providers/src/resolve.rs 37-44 responses_api_enabled *)
Definition responses_api_enabled (env : option string) : bool :=
  match env with
  | Some v => negb (Quirks.mem ["0"; "false"; "off"; "no"] (Str.to_ascii_lowercase (Str.trim v)))
  | None => true
  end.

(* src/qcue-rs/providers/src/resolve.rs 21-35 effective_api_mode *)
Definition effective_api_mode (env : option string) (p : ProviderProfile) (model : string)
  : ApiMode :=
  if responses_api_enabled env
  then unwrap_or (api_mode_override (hooks p) model) (api_mode p)
  else api_mode p.

(** ** Lemmas *)
Lemma as_u64_jnum (n : Z) : (0 <= n)%Z -> as_u64 (jnum n) = Some n.
Proof. intros Hn. unfold jnum. by rewrite (proj2 (Z.ltb_ge _ _) Hn). Qed.

Lemma anthropic_budget_pos (e : Effort) (b : Z) :
  Anthropic.anthropic_budget_tokens e = Some b -> (0 < b <= 32768)%Z.
Proof. destruct e; intros [= <-]; lia. Qed.

(** Setting [max_tokens] only when it is too small leaves it above the budget. *)
Lemma bump_max_tokens (m : JMap.t) (b : Z) :
  (0 < b)%Z ->
  exists m' n,
    (if (unwrap_or (get "max_tokens" (Object m) ≫= as_u64) 0 <=? b)%Z
     then index_mut "max_tokens" (jnum (b + 4096)) (Object m) else Some (Object m))
    = Some (Object m') /\
    (JMap.get "max_tokens" m' ≫= as_u64) = Some n /\ (b < n)%Z /\
    (forall k, k <> "max_tokens" -> JMap.get k m' = JMap.get k m) /\
    (forall n0, (JMap.get "max_tokens" m ≫= as_u64) = Some n0 -> (b < n0)%Z -> m' = m).
Proof.
  intros Hb. cbn [get index_mut]. destruct (Z.leb_spec (unwrap_or (JMap.get "max_tokens" m ≫= as_u64) 0%Z) b).
  - exists (JMap.insert "max_tokens" (jnum (b + 4096)) m), (b + 4096)%Z. split; [done|].
    rewrite jmap_get_insert_eq. cbn [mbind option_bind]. rewrite as_u64_jnum by lia.
    split; [done|]. split; [lia|].
    split; [intros k Hk; by apply jmap_get_insert_ne|].
    intros n0 Hn0 Hlt. rewrite Hn0 in *. simpl in *. lia.
  - destruct (JMap.get "max_tokens" m ≫= as_u64) as [n|] eqn:Hn; simpl in *; [|lia].
    exists m, n. repeat split; done.
Qed.

Lemma index_mut_object (k : string) (v : Value) (m : JMap.t) :
  index_mut k v (Object m) = Some (Object (JMap.insert k v m)).
Proof. reflexivity. Qed.

(** ** Properties *)

(** Extended thinking never exceeds the token limit of its own request: on any body object and
    effort above minimal the Anthropic hook succeeds, enables thinking with the effort's budget, leaves
    a [max_tokens] strictly above that budget (the caller's own value when it already was), pins the
    temperature to 1 and touches no other field; minimal effort only removes the thinking block. *)
Theorem anthropic_effort_within_limit (m : JMap.t) (e : Effort) (Hm : jmap_wf m) :
  exists m', Anthropic.anthropic_apply_reasoning_effort (Object m) e = Some (Object m') /\
  match Anthropic.anthropic_budget_tokens e with
  | None => JMap.get "thinking" m' = None /\
      (forall k, k <> "thinking" -> JMap.get k m' = JMap.get k m)
  | Some b =>
      JMap.get "thinking" m' = Some (obj [("type", jstr "enabled"); ("budget_tokens", jnum b)]) /\
      (exists n, (JMap.get "max_tokens" m' ≫= as_u64) = Some n /\ b < n)%Z /\
      (forall n, (JMap.get "max_tokens" m ≫= as_u64) = Some n -> (b < n)%Z ->
       JMap.get "max_tokens" m' = JMap.get "max_tokens" m) /\
      JMap.get "temperature" m' = Some (jnum 1) /\
      (forall k, k <> "thinking" -> k <> "max_tokens" -> k <> "temperature" ->
       JMap.get k m' = JMap.get k m)
  end.
Proof.
  unfold Anthropic.anthropic_apply_reasoning_effort.
  destruct (Anthropic.anthropic_budget_tokens e) as [b|] eqn:Hb.
  - apply anthropic_budget_pos in Hb. rewrite index_mut_object. cbn [mbind option_bind].
    set (m1 := JMap.insert "thinking" _ m).
    destruct (bump_max_tokens m1 b) as (m2 & n & -> & Hn & Hlt & Hother & Hkeep); [lia|].
    cbn [mbind option_bind]. rewrite index_mut_object. eexists. split; [done|].
    json_get. rewrite Hother by discriminate. unfold m1 in *. json_get.
    split; [done|]. split; [by exists n|]. split; [|split; [done|]].
    + intros n0 Hn0 Hlt0. rewrite (Hkeep n0); [by json_get|by json_get|done].
    + intros k ? ? ?. rewrite jmap_get_insert_ne, Hother, jmap_get_insert_ne by done. done.
  - eexists. split; [done|]. split; [by apply jmap_get_remove_eq|].
    intros k Hk. by apply jmap_get_remove_ne.
Qed.

Lemma anthropic_effort_within_limit_witness :
  exists m', Anthropic.anthropic_apply_reasoning_effort (obj [("max_tokens", jnum 4096)]) High
             = Some (Object m') /\
    (exists n, (JMap.get "max_tokens" m' ≫= as_u64) = Some n /\ 8192 < n)%Z.
Proof.
  destruct (anthropic_effort_within_limit (JMap.of_list [("max_tokens", jnum 4096)]) High
              (jmap_wf_of_list _)) as (m' & H & _ & Hn & _).
  exists m'. split; [exact H|exact Hn].
Defined.

(** Thinking and reasoning effort are exclusive on the vendors that reject both: on any body
    object the DeepSeek and Kimi hooks succeed and write exactly one of the two fields, [thinking] for
    minimal effort and [reasoning_effort] otherwise, leaving the other and everything else as it was. *)
Theorem reasoning_fields_exclusive (m : JMap.t) (e : Effort) (p : ProviderProfile)
  (Hp : p = DeepSeek.profile \/ p = Kimi.profile) :
  exists m' k v, apply_reasoning_effort (hooks p) (Object m) e = Some (Object m') /\
    k = (match e with Minimal => "thinking" | _ => "reasoning_effort" end) /\
    JMap.get k m' = Some v /\ (forall k', k' <> k -> JMap.get k' m' = JMap.get k' m).
Proof.
  destruct Hp as [-> | ->]; destruct e; simpl; do 3 eexists; (split; [reflexivity|]);
    (split; [reflexivity|]); (split; [apply jmap_get_insert_eq|]);
    intros k' Hk'; by apply jmap_get_insert_ne.
Qed.

Lemma reasoning_fields_exclusive_witness :
  exists m' k v,
    apply_reasoning_effort (hooks Kimi.profile) (obj [("model", jstr "k2")]) Minimal
      = Some (Object m') /\ k = "thinking" /\ JMap.get k m' = Some v.
Proof.
  destruct (reasoning_fields_exclusive (JMap.of_list [("model", jstr "k2")]) Minimal Kimi.profile
              (or_intror eq_refl)) as (m' & k & v & H & Hk & Hv & _).
  exists m', k, v. repeat split; assumption.
Defined.

(** A model that only speaks reasoning effort on the Responses wire never gets it on the chat
    wire: exactly the models that OpenAI's hook routes to Responses leave the chat body untouched among
    the reasoning models, also when the kill switch pins them to chat; and the kill switch disables the
    override of every profile. *)
Theorem responses_models_have_no_chat_effort (m : JMap.t) (model : string) (e : Effort)
  (Hmodel : JMap.get "model" m = Some (String_ model)) :
  (api_mode_override (hooks OpenAi.profile) model = Some Responses ->
   apply_reasoning_effort (hooks OpenAi.profile) (Object m) e = Some (Object m)) /\
  (api_mode_override (hooks OpenAi.profile) model = None ->
   OpenAi.model_supports_reasoning (Str.to_ascii_lowercase model) = true ->
   exists m', apply_reasoning_effort (hooks OpenAi.profile) (Object m) e = Some (Object m') /\
     JMap.get "reasoning_effort" m' = Some (String_ (OpenAi.openai_effort_str model e))) /\
  (forall p v, responses_api_enabled (Some v) = false ->
   effective_api_mode (Some v) p model = api_mode p).
Proof.
  cbn [hooks OpenAi.profile api_mode_override apply_reasoning_effort].
  unfold OpenAi.openai_api_mode_override, OpenAi.openai_apply_reasoning_effort.
  cbn [get]. rewrite Hmodel. cbn [mbind option_bind as_str unwrap_or].
  unfold OpenAi.accepts_chat_reasoning_effort. split; [|split].
  - intros H. by destruct (Str.starts_with "gpt-5." _).
  - intros H Hs. destruct (Str.starts_with "gpt-5." _); [done|]. rewrite Hs. cbn [negb].
    eexists. split; [reflexivity|]. apply jmap_get_insert_eq.
  - intros p v Hv. unfold effective_api_mode. by rewrite Hv.
Qed.

Lemma responses_models_have_no_chat_effort_witness :
  apply_reasoning_effort (hooks OpenAi.profile) (obj [("model", jstr "GPT-5.5")]) Max
  = Some (obj [("model", jstr "GPT-5.5")]) /\
  effective_api_mode (Some " Off ") OpenAi.profile "GPT-5.5" = ChatCompletions.
Proof.
  destruct (responses_models_have_no_chat_effort (JMap.of_list [("model", jstr "GPT-5.5")])
              "GPT-5.5" Max eq_refl) as (H1 & _ & H3).
  split; [by apply H1|]. by apply (H3 OpenAi.profile " Off ").
Defined.
