(* ===== verification/Transports.v ===== *)
(** * Transports: the three wires

    [Usage]: [llm-api/src/usage_norm.rs]. [Chat], [AnthropicWire], [ResponsesWire]: the transports of
    [router/src/transport_chat.rs], [transport_anthropic.rs] and [transport_responses.rs]: rendering a
    transcript into a request body and reading a response back. [transport_for] is the single switch
    on the api mode. *)
From S2P Require Import Prelude RustStr Json Protocol Providers.

#[local] Open Scope string_scope.
#[local] Open Scope list_scope.

Module Usage.
(* src/qcue-rs/llm-api/src/usage_norm.rs 5-12 u64_at *)
Fixpoint u64_at (v : Value) (keys : list string) : Z :=
  match keys with
  | [] => 0
  | k :: keys => match get k v ≫= as_u64 with Some n => n | None => u64_at v keys end
  end.

(* src/qcue-rs/llm-api/src/usage_norm.rs 14-37 usage_from_chat *)
Definition usage_from_chat (v : Value) : option CanonicalUsage :=
  if is_null v || negb (is_object v) then None
  else
    let input := u64_at v ["prompt_tokens"; "input_tokens"] in
    let output := u64_at v ["completion_tokens"; "output_tokens"] in
    let cache_read :=
      unwrap_or
        (opt_or ((fun d => u64_at d ["cached_tokens"]) <$> get "prompt_tokens_details" v)
                ((fun d => u64_at d ["cached_tokens"]) <$> get "input_tokens_details" v))
        (u64_at v ["cached_tokens"]) in
    let positive (n : Z) := (0 <? n)%Z in
    let reasoning :=
      unwrap_or
        (opt_filter positive
          (opt_or
            (opt_filter positive
              ((fun d => u64_at d ["reasoning_tokens"]) <$> get "completion_tokens_details" v))
            ((fun d => u64_at d ["reasoning_tokens"]) <$> get "output_tokens_details" v)))
        (u64_at v ["reasoning_tokens"]) in
    Some {| u_input := input; u_output := output; u_cache_read := cache_read;
            u_cache_write := 0; u_reasoning := reasoning |}.

(* src/qcue-rs/llm-api/src/usage_norm.rs 39-51 usage_from_anthropic *)
Definition usage_from_anthropic (v : Value) : option CanonicalUsage :=
  if is_null v || negb (is_object v) then None
  else Some {| u_input := u64_at v ["input_tokens"]; u_output := u64_at v ["output_tokens"];
               u_cache_read := u64_at v ["cache_read_input_tokens"];
               u_cache_write := u64_at v ["cache_creation_input_tokens"]; u_reasoning := 0 |}.
End Usage.

(** ** What a transport is given and offers *)
(* src/qcue-rs/router/src/transport.rs 6-13 ServerTool *)
Inductive ServerTool : Type :=
| WebSearch (max_uses : option Z).

(* src/qcue-rs/router/src/transport.rs 15-31 ReqParams *)
Record ReqParams : Type := {
  rp_temperature : option Float;
  rp_max_tokens : option Z;
  rp_response_format : option Value;
  rp_stream : bool;
  rp_server_tools : list ServerTool;
  rp_reasoning : option ReasoningConfig;
  rp_session_id : option string;
}.

(* src/qcue-rs/router/src/transport.rs 33-52 Transport *)
Record Transport : Type := {
  t_api_mode : ApiMode;
  convert_messages : list Message -> string -> Value;
  convert_tools : list ToolDef -> Value;
  build_kwargs : string -> list Message -> option (list ToolDef) -> ProviderProfile -> ReqParams ->
                 Value;
  normalize_response : Value -> result TransportError NormalizedResponse;
  validate_response : Value -> bool;
  map_finish_reason : string -> FinishReason;
}.

(** An optional insertion into a body. *)
Definition insert_opt (k : string) (v : option Value) (m : JMap.t) : JMap.t :=
  match v with Some v => JMap.insert k v m | None => m end.
Definition insert_if (b : bool) (k : string) (v : Value) (m : JMap.t) : JMap.t :=
  if b then JMap.insert k v m else m.

(** [max_tokens]: explicit parameter, then the provider's hook, then the profile's default. *)
Definition max_tokens_of (params : ReqParams) (p : ProviderProfile) (model : string) : option Z :=
  opt_or (opt_or (rp_max_tokens params) (get_max_tokens (hooks p) model)) (default_max_tokens p).

(** The text of the system messages, joined by blank lines. *)
Definition system_text (msgs : list Message) : string :=
  Str.join (Str.lf +:+ Str.lf)
    (omap content (List.filter (fun m => role_eqb (role m) System) msgs)).

Definition sget (k : string) (v : Value) (d : string) : string := unwrap_or (get_str k v) d.

Section wires.
Context `{Json}.

(* src/qcue-rs/router/src/transport_chat.rs 21-27 sort_json_string *)
Definition sort_json_string (s : string) : string :=
  match from_str s with Ok v => to_string v | Err _ => s end.

(** *** ChatCompletions *)
Section chat.
(* src/qcue-rs/router/src/transport_chat.rs 12-19 role_str *)
Definition role_str (r : Role) : string :=
  match r with
  | System => "system"
  | User => "user"
  | Assistant => "assistant"
  | Tool => "tool"
  end.

(* src/qcue-rs/router/src/transport_chat.rs 34-47 token_limit_key *)
Definition token_limit_key (model : string) : string :=
  if Str.starts_with "gpt-5" model || Str.starts_with "o1" model || Str.starts_with "o3" model
     || Str.starts_with "o4" model
  then "max_completion_tokens" else "max_tokens".

Definition chat_tool_call (tc : ToolCall) : Value :=
  obj [("id", jstr (unwrap_or (tc_id tc) "")); ("type", jstr "function");
       ("function", obj [("name", jstr (tc_name tc));
                         ("arguments", jstr (sort_json_string (tc_arguments tc)))])].

(* src/qcue-rs/router/src/transport_chat.rs 58-82 convert_messages *)
Definition chat_message (m : Message) : Value :=
  let o := JMap.insert "role" (jstr (role_str (role m))) [] in
  let o := insert_opt "content" (jstr <$> content m) o in
  let o := insert_opt "tool_calls" ((fun tcs => Array (chat_tool_call <$> tcs)) <$> tool_calls m) o in
  let o := insert_opt "tool_call_id" (jstr <$> tool_call_id m) o in
  Object o.

(* src/qcue-rs/router/src/transport_chat.rs 54-85 convert_messages *)
Definition chat_convert_messages (msgs : list Message) (_model : string) : Value :=
  Array (chat_message <$> msgs).

(* src/qcue-rs/router/src/transport_chat.rs 87-98 convert_tools *)
Definition chat_convert_tools (tools : list ToolDef) : Value :=
  Array ((fun t => obj [("type", jstr "function");
                        ("function", obj [("name", jstr (td_name t));
                                          ("description", jstr (td_description t));
                                          ("parameters", td_input_schema t)])]) <$> tools).

Definition is_web_search (s : ServerTool) : bool := match s with WebSearch _ => true end.

(* src/qcue-rs/router/src/transport_chat.rs 100-156 build_kwargs *)
Definition chat_build_kwargs (model : string) (msgs : list Message)
  (tools : option (list ToolDef)) (profile : ProviderProfile) (params : ReqParams) : Value :=
  let body := JMap.insert "model" (jstr model) [] in
  let body := JMap.insert "messages" (chat_convert_messages msgs model) body in
  let body :=
    match tools with
    | Some t =>
        insert_if (negb (match t with [] => true | _ => false end)) "tool_choice" (jstr "auto")
          (JMap.insert "tools" (chat_convert_tools t) body)
    | None => body
    end in
  let body :=
    match fixed_temperature profile with
    | Omit => body
    | Fixed f => JMap.insert "temperature" (jf32 f) body
    | Inherit => insert_opt "temperature" (jf32 <$> rp_temperature params) body
    end in
  let body := insert_opt (token_limit_key model) (jnum <$> max_tokens_of params profile model) body in
  let body :=
    if rp_stream params
    then JMap.insert "stream_options" (obj [("include_usage", Bool true)])
           (JMap.insert "stream" (Bool true) body)
    else body in
  let body := insert_opt "response_format" (rp_response_format params) body in
  let body := insert_if (existsb is_web_search (rp_server_tools params)) "web_search_options"
                (obj []) body in
  Object body.

(* src/qcue-rs/router/src/transport_chat.rs 172-191 normalize_response *)
Definition chat_read_tool_call (tc : Value) : ToolCall :=
  {| tc_id := get_str "id" tc;
     tc_name := unwrap_or ((get "function" tc ≫= get "name") ≫= as_str) "";
     tc_arguments := unwrap_or ((get "function" tc ≫= get "arguments") ≫= as_str) "{}";
     tc_provider_data := None |}.

(* src/qcue-rs/router/src/transport_chat.rs 192-201 normalize_response *)
Definition chat_finish (choice : Value) : FinishReason :=
  let s := sget "finish_reason" choice "stop" in
  if String.eqb s "tool_calls" then ToolCalls
  else if String.eqb s "length" then Length
  else if String.eqb s "content_filter" then ContentFilter
  else Stop.

(* src/qcue-rs/router/src/transport_chat.rs 158-212 normalize_response *)
Definition chat_normalize_response (raw : Value) : result TransportError NormalizedResponse :=
  let? choice := ok_or (get "choices" raw ≫= get_at 0%nat) (MissingField "choices[0]") in
  let? msg := ok_or (get "message" choice) (MissingField "message") in
  let cont := get_str "content" msg in
  let reas := opt_or (get "reasoning_content" msg) (get "reasoning" msg) ≫= as_str in
  let tcs := map chat_read_tool_call <$> (get "tool_calls" msg ≫= as_array) in
  Ok {| nr_content := cont; nr_tool_calls := tcs; nr_finish_reason := chat_finish choice;
        nr_reasoning := reas; nr_usage := get "usage" raw ≫= Usage.usage_from_chat;
        nr_provider_data := (fun r => obj [("reasoning_content", jstr r)]) <$> reas |}.
End chat.

(** *** AnthropicMessages *)
Section anthropic.
(* src/qcue-rs/router/src/transport_anthropic.rs 10-19 push_tool *)
Definition push_tool (body : JMap.t) (tool : Value) : JMap.t :=
  match JMap.get "tools" body with
  | Some (Array arr) => JMap.insert "tools" (Array (arr ++ [tool])) body
  | _ => JMap.insert "tools" (Array [tool]) body
  end.

Definition is_tool (m : Message) : bool := role_eqb (role m) Tool.

(* src/qcue-rs/router/src/transport_anthropic.rs 43-47 convert_messages *)
Definition tool_result_block (m : Message) : Value :=
  obj [("type", jstr "tool_result"); ("tool_use_id", jstr (unwrap_or (tool_call_id m) ""));
       ("content", jstr (unwrap_or (content m) ""))].

(* src/qcue-rs/router/src/transport_anthropic.rs 57-61 convert_messages *)
Definition thinking_blocks (m : Message) : list Value :=
  match provider_data m ≫= get "thinking" with
  | Some thinking =>
      [obj [("type", jstr "thinking"); ("thinking", jstr (sget "thinking" thinking ""));
            ("signature", jstr (sget "signature" thinking ""))]]
  | None => []
  end.

(* src/qcue-rs/router/src/transport_anthropic.rs 55-76 convert_messages *)
Definition message_blocks (m : Message) : list Value :=
  let blocks := thinking_blocks m in
  let blocks :=
    match content m with
    | Some c => if String.eqb c "" then blocks
                else blocks ++ [obj [("type", jstr "text"); ("text", jstr c)]]
    | None => blocks
    end in
  let blocks :=
    blocks ++ ((fun tc =>
      obj [("type", jstr "tool_use"); ("id", jstr (unwrap_or (tc_id tc) ""));
           ("name", jstr (tc_name tc));
           ("input", unwrap_or (result_ok (from_str (tc_arguments tc))) (obj []))])
      <$> unwrap_or (tool_calls m) []) in
  match blocks with
  | [] => [obj [("type", jstr "text"); ("text", jstr "(empty)")]]
  | _ => blocks
  end.

(** The inner [while]: the run of tool messages at the head, and what follows it. *)
Fixpoint tool_run (msgs : list Message) : list Message * list Message :=
  match msgs with
  | m :: rest => if is_tool m then let '(ts, r) := tool_run rest in (m :: ts, r) else ([], msgs)
  | [] => ([], [])
  end.

Definition wire_message (r : string) (blocks : list Value) : Value :=
  obj [("role", jstr r); ("content", Array blocks)].

(** The outer [while]; each round reads at least one message, so the length is enough fuel. *)
(* src/qcue-rs/router/src/transport_anthropic.rs 38-79 convert_messages *)
Fixpoint anthropic_loop (fuel : nat) (msgs : list Message) : list Value :=
  match fuel, msgs with
  | S fuel, m :: rest =>
      if is_tool m then
        let '(ts, rest) := tool_run msgs in
        wire_message "user" (tool_result_block <$> ts) :: anthropic_loop fuel rest
      else
        wire_message (if role_eqb (role m) Assistant then "assistant" else "user")
          (message_blocks m) :: anthropic_loop fuel rest
  | _, _ => []
  end.

(* src/qcue-rs/router/src/transport_anthropic.rs 26-81 convert_messages *)
Definition anthropic_convert_messages (msgs : list Message) (_model : string) : Value :=
  let non_system := List.filter (fun m => negb (role_eqb (role m) System)) msgs in
  Array (anthropic_loop (length non_system) non_system).

(* src/qcue-rs/router/src/transport_anthropic.rs 83-92 convert_tools *)
Definition anthropic_convert_tools (tools : list ToolDef) : Value :=
  Array ((fun t => obj [("name", jstr (td_name t)); ("description", jstr (td_description t));
                        ("input_schema", td_input_schema t)]) <$> tools).

(* src/qcue-rs/router/src/transport_anthropic.rs 135-147 build_kwargs *)
Definition anthropic_server_tool (body : JMap.t) (st : ServerTool) : JMap.t :=
  match st with
  | WebSearch max_uses =>
      let t := JMap.insert "type" (jstr "web_search_20260209") [] in
      let t := JMap.insert "name" (jstr "web_search") t in
      push_tool body (Object (insert_opt "max_uses" (jnum <$> max_uses) t))
  end.

(* src/qcue-rs/router/src/transport_anthropic.rs 148-165 build_kwargs *)
Definition anthropic_emit (body : JMap.t) (rf : option Value) : JMap.t :=
  match (rf ≫= get "json_schema") ≫= get "schema" with
  | Some schema =>
      let body := push_tool body (obj [("name", jstr "emit"); ("description", jstr "emit the JSON");
                                       ("input_schema", schema)]) in
      let only_emit :=
        match JMap.get "tools" body ≫= as_array with
        | Some a => (length a =? 1)%nat
        | None => true
        end in
      insert_if only_emit "tool_choice" (obj [("type", jstr "tool"); ("name", jstr "emit")]) body
  | None => body
  end.

(* src/qcue-rs/router/src/transport_anthropic.rs 94-167 build_kwargs *)
Definition anthropic_build_kwargs (model : string) (msgs : list Message)
  (tools : option (list ToolDef)) (profile : ProviderProfile) (params : ReqParams) : Value :=
  let body := JMap.insert "model" (jstr model) [] in
  let system := system_text msgs in
  let body := insert_if (negb (String.eqb system "")) "system" (jstr system) body in
  let body := JMap.insert "messages" (anthropic_convert_messages msgs model) body in
  let body := insert_opt "tools" (anthropic_convert_tools <$> tools) body in
  let body := JMap.insert "max_tokens"
                (jnum (unwrap_or (max_tokens_of params profile model) 4096%Z)) body in
  let body := insert_opt "temperature" (jf32 <$> rp_temperature params) body in
  let body := insert_if (rp_stream params) "stream" (Bool true) body in
  let body := foldl anthropic_server_tool body (rp_server_tools params) in
  Object (anthropic_emit body (rp_response_format params)).

Record AnthropicAcc : Type := {
  aa_text : string;
  aa_reasoning : option string;
  aa_tool_calls : list ToolCall;
}.

(* src/qcue-rs/router/src/transport_anthropic.rs 177-194 normalize_response *)
Definition anthropic_block (acc : AnthropicAcc) (b : Value) : AnthropicAcc :=
  let ty := sget "type" b "" in
  if String.eqb ty "text" then
    {| aa_text := aa_text acc +:+ sget "text" b ""; aa_reasoning := aa_reasoning acc;
       aa_tool_calls := aa_tool_calls acc |}
  else if String.eqb ty "thinking" then
    {| aa_text := aa_text acc; aa_reasoning := get_str "thinking" b;
       aa_tool_calls := aa_tool_calls acc |}
  else if String.eqb ty "tool_use" then
    {| aa_text := aa_text acc; aa_reasoning := aa_reasoning acc;
       aa_tool_calls := aa_tool_calls acc ++
         [{| tc_id := get_str "id" b; tc_name := sget "name" b "";
             tc_arguments := unwrap_or (to_string <$> get "input" b) "{}";
             tc_provider_data := None |}] |}
  else acc.

(* src/qcue-rs/router/src/transport_anthropic.rs 195-204 normalize_response *)
Definition anthropic_finish (raw : Value) : FinishReason :=
  let s := sget "stop_reason" raw "end_turn" in
  if String.eqb s "tool_use" then ToolCalls
  else if String.eqb s "max_tokens" then Length
  else if String.eqb s "refusal" then ContentFilter
  else Stop.

(* src/qcue-rs/router/src/transport_anthropic.rs 169-221 normalize_response *)
Definition anthropic_normalize_response (raw : Value) : result TransportError NormalizedResponse :=
  let? content_blocks := ok_or (get "content" raw ≫= as_array) (MissingField "content") in
  let acc := foldl anthropic_block
               {| aa_text := ""; aa_reasoning := None; aa_tool_calls := [] |} content_blocks in
  Ok {| nr_content := if String.eqb (aa_text acc) "" then None else Some (aa_text acc);
        nr_tool_calls := match aa_tool_calls acc with [] => None | l => Some l end;
        nr_finish_reason := anthropic_finish raw;
        nr_reasoning := aa_reasoning acc;
        nr_usage := get "usage" raw ≫= Usage.usage_from_anthropic;
        nr_provider_data := (fun c => obj [("anthropic_content_blocks", c)]) <$> get "content" raw |}.
End anthropic.

(** *** Responses *)
Section responses.
(* src/qcue-rs/router/src/transport_responses.rs 18-29 responses_effort_str *)
Definition responses_effort_str (e : Effort) : string :=
  match e with
  | Minimal | Low => "low"
  | Medium => "medium"
  | High => "high"
  | XHigh | Max => "xhigh"
  end.

(* src/qcue-rs/router/src/transport_responses.rs 75-85 convert_messages *)
Definition function_call_item (tc : ToolCall) : Value :=
  obj [("type", jstr "function_call"); ("call_id", jstr (unwrap_or (tc_id tc) ""));
       ("name", jstr (tc_name tc)); ("arguments", jstr (sort_json_string (tc_arguments tc)))].

(* src/qcue-rs/router/src/transport_responses.rs 55-65 convert_messages *)
Definition echoed_items (m : Message) : list Value :=
  unwrap_or ((provider_data m ≫= get "responses_reasoning_items") ≫= as_array) [].

(* src/qcue-rs/router/src/transport_responses.rs 66-74 convert_messages *)
Definition output_text_items (m : Message) : list Value :=
  match content m with
  | Some c =>
      if String.eqb c "" then []
      else [obj [("role", jstr "assistant");
                 ("content", Array [obj [("type", jstr "output_text"); ("text", jstr c)]])]]
  | None => []
  end.

(* src/qcue-rs/router/src/transport_responses.rs 48-95 convert_messages *)
Definition responses_items (m : Message) : list Value :=
  match role m with
  | System => []
  | User => [obj [("role", jstr "user"); ("content", jstr (unwrap_or (content m) ""))]]
  | Assistant =>
      echoed_items m ++ output_text_items m ++ (function_call_item <$> unwrap_or (tool_calls m) [])
  | Tool => [obj [("type", jstr "function_call_output");
                  ("call_id", jstr (unwrap_or (tool_call_id m) ""));
                  ("output", jstr (unwrap_or (content m) ""))]]
  end.

(* src/qcue-rs/router/src/transport_responses.rs 46-97 convert_messages *)
Definition responses_convert_messages (msgs : list Message) (_model : string) : Value :=
  Array (msgs ≫= responses_items).

(* src/qcue-rs/router/src/transport_responses.rs 99-114 convert_tools *)
Definition responses_convert_tools (tools : list ToolDef) : Value :=
  Array ((fun t => obj [("type", jstr "function"); ("name", jstr (td_name t));
                        ("description", jstr (td_description t));
                        ("parameters", td_input_schema t)]) <$> tools).

(* src/qcue-rs/router/src/transport_responses.rs 170-180 build_kwargs *)
Definition responses_text_format (rf : option Value) : option Value :=
  js ← rf ≫= get "json_schema";
  schema ← get "schema" js;
  Some (obj [("format", obj [("type", jstr "json_schema");
                             ("name", jstr (sget "name" js "output")); ("schema", schema);
                             ("strict", Bool true)])]).

(* src/qcue-rs/router/src/transport_responses.rs 116-192 build_kwargs *)
Definition responses_build_kwargs (model : string) (msgs : list Message)
  (tools : option (list ToolDef)) (profile : ProviderProfile) (params : ReqParams) : Value :=
  let body := JMap.insert "model" (jstr model) [] in
  let system := system_text msgs in
  let body := insert_if (negb (String.eqb system "")) "instructions" (jstr system) body in
  let body := JMap.insert "input" (responses_convert_messages msgs model) body in
  let tool_arr := unwrap_or ((responses_convert_tools <$> tools) ≫= as_array) [] in
  let tool_arr := tool_arr ++
    ((fun st => match st with WebSearch _ => obj [("type", jstr "web_search")] end)
     <$> rp_server_tools params) in
  let body :=
    match tool_arr with
    | [] => body
    | _ =>
        let has_fn := existsb (fun t => bool_decide (get_str "type" t = Some "function")) tool_arr in
        insert_if has_fn "tool_choice" (jstr "auto") (JMap.insert "tools" (Array tool_arr) body)
    end in
  let body := insert_opt "reasoning"
    ((fun e => obj [("effort", jstr (responses_effort_str e))]) <$> (rp_reasoning params ≫= effort))
    body in
  let body := insert_opt "max_output_tokens" (jnum <$> max_tokens_of params profile model) body in
  let body := insert_opt "text" (responses_text_format (rp_response_format params)) body in
  let body := JMap.insert "store" (Bool false) body in
  let body := JMap.insert "include" (Array [jstr "reasoning.encrypted_content"]) body in
  Object (insert_if (rp_stream params) "stream" (Bool true) body).

Record ResponsesAcc : Type := {
  ra_text : string;
  ra_reasoning : option string;
  ra_reasoning_items : list Value;
  ra_tool_calls : list ToolCall;
}.

(* src/qcue-rs/router/src/transport_responses.rs 207-215 normalize_response *)
Definition message_text (item : Value) : string :=
  match get "content" item ≫= as_array with
  | Some parts =>
      String.concat "" ((fun p => if bool_decide (get_str "type" p = Some "output_text")
                                  then sget "text" p "" else "") <$> parts)
  | None => ""
  end.

(* src/qcue-rs/router/src/transport_responses.rs 230-239 normalize_response *)
Definition read_function_call (item : Value) : ToolCall :=
  {| tc_id := get_str "call_id" item; tc_name := sget "name" item "";
     tc_arguments := sget "arguments" item "{}"; tc_provider_data := None |}.

(* src/qcue-rs/router/src/transport_responses.rs 205-242 normalize_response *)
Definition responses_item (acc : ResponsesAcc) (item : Value) : ResponsesAcc :=
  let ty := sget "type" item "" in
  if String.eqb ty "message" then
    {| ra_text := ra_text acc +:+ message_text item; ra_reasoning := ra_reasoning acc;
       ra_reasoning_items := ra_reasoning_items acc; ra_tool_calls := ra_tool_calls acc |}
  else if String.eqb ty "reasoning" then
    let reas :=
      match get "summary" item ≫= as_array with
      | Some sum =>
          let joined := String.concat "" (omap (get_str "text") sum) in
          if String.eqb joined "" then ra_reasoning acc else Some joined
      | None => ra_reasoning acc
      end in
    {| ra_text := ra_text acc; ra_reasoning := reas;
       ra_reasoning_items := ra_reasoning_items acc ++ [item]; ra_tool_calls := ra_tool_calls acc |}
  else if String.eqb ty "function_call" then
    {| ra_text := ra_text acc; ra_reasoning := ra_reasoning acc;
       ra_reasoning_items := ra_reasoning_items acc;
       ra_tool_calls := ra_tool_calls acc ++ [read_function_call item] |}
  else acc.

(* src/qcue-rs/router/src/transport_responses.rs 244-261 normalize_response *)
Definition responses_finish (tcs : list ToolCall) (raw : Value) : FinishReason :=
  match tcs with
  | _ :: _ => ToolCalls
  | [] =>
      if String.eqb (sget "status" raw "completed") "incomplete" then
        let r := unwrap_or ((get "incomplete_details" raw ≫= get "reason") ≫= as_str) "" in
        if String.eqb r "max_output_tokens" then Length
        else if String.eqb r "content_filter" then ContentFilter
        else Stop
      else Stop
  end.

(* src/qcue-rs/router/src/transport_responses.rs 194-276 normalize_response *)
Definition responses_normalize_response (raw : Value) : result TransportError NormalizedResponse :=
  let? output := ok_or (get "output" raw ≫= as_array) (MissingField "output") in
  let acc := foldl responses_item
               {| ra_text := ""; ra_reasoning := None; ra_reasoning_items := [];
                  ra_tool_calls := [] |} output in
  let items := ra_reasoning_items acc in
  Ok {| nr_content := if String.eqb (ra_text acc) "" then None else Some (ra_text acc);
        nr_tool_calls := match ra_tool_calls acc with [] => None | l => Some l end;
        nr_finish_reason := responses_finish (ra_tool_calls acc) raw;
        nr_reasoning := ra_reasoning acc;
        nr_usage := get "usage" raw ≫= Usage.usage_from_chat;
        nr_provider_data :=
          if negb (match items with [] => true | _ => false end) || opt_is_some (get "id" raw)
          then Some (obj [("responses_reasoning_items", Array items);
                          ("response_id", unwrap_or (get "id" raw) Null)])
          else None |}.
End responses.

(** *** The switch *)
(* src/qcue-rs/router/src/transport.rs 54-65 transport_for *)
Definition transport_for (m : ApiMode) : Transport :=
  match m with
  | ChatCompletions =>
      {| t_api_mode := ChatCompletions; convert_messages := chat_convert_messages;
         convert_tools := chat_convert_tools; build_kwargs := chat_build_kwargs;
         normalize_response := chat_normalize_response; validate_response := fun _ => true;
         map_finish_reason := fun _ => Stop |}
  | AnthropicMessages =>
      {| t_api_mode := AnthropicMessages; convert_messages := anthropic_convert_messages;
         convert_tools := anthropic_convert_tools; build_kwargs := anthropic_build_kwargs;
         normalize_response := anthropic_normalize_response; validate_response := fun _ => true;
         map_finish_reason := fun _ => Stop |}
  | Responses =>
      {| t_api_mode := Responses; convert_messages := responses_convert_messages;
         convert_tools := responses_convert_tools; build_kwargs := responses_build_kwargs;
         normalize_response := responses_normalize_response; validate_response := fun _ => true;
         map_finish_reason := fun _ => Stop |}
  end.
End wires.

(** The message the turn loop stores for a response, and replays on the next call. *)
(* src/qcue-rs/router/src/turn.rs 150-163 build_assistant_message *)
Definition build_assistant_message (nr : NormalizedResponse) : Message := {|
  role := Assistant; content := nr_content nr; tool_call_id := None; tool_name := None;
  tool_calls := nr_tool_calls nr; finish_reason := Some (nr_finish_reason nr);
  reasoning := nr_reasoning nr; provider_data := nr_provider_data nr; active := true;
  is_untrusted := false |}.

(** ** Lemmas: the Anthropic transcript *)

(** The [type] of a block, and of the first block of a wire message. *)
Definition type_of (v : Value) : string := sget "type" v "".
Definition wire_blocks (v : Value) : list Value := unwrap_or (get "content" v ≫= as_array) [].
Definition is_tool_result_message (v : Value) : bool :=
  match wire_blocks v with b :: _ => String.eqb (type_of b) "tool_result" | [] => false end.
(** The ids a wire message answers. *)
Definition answered_ids (v : Value) : list string :=
  omap (fun b => if String.eqb (type_of b) "tool_result" then get_str "tool_use_id" b else None)
    (wire_blocks v).

Lemma wire_blocks_message (r : string) (l : list Value) : wire_blocks (wire_message r l) = l.
Proof. reflexivity. Qed.

Lemma answered_ids_tool_run (r : string) (ts : list Message) :
  answered_ids (wire_message r (tool_result_block <$> ts))
  = (fun m => unwrap_or (tool_call_id m) "") <$> ts.
Proof.
  unfold answered_ids. rewrite wire_blocks_message. induction ts as [|m ts IH]; [done|].
  simpl. f_equal. exact IH.
Qed.

Section lemmas.
Context `{Json}.

Lemma message_blocks_nonempty (m : Message) : message_blocks m <> [].
Proof. unfold message_blocks. by destruct (_ ++ _). Qed.

Lemma thinking_blocks_types (m : Message) :
  Forall (fun b => type_of b <> "tool_result") (thinking_blocks m).
Proof. unfold thinking_blocks. destruct (_ ≫= _); repeat constructor; discriminate. Qed.

Lemma message_blocks_types (m : Message) :
  Forall (fun b => type_of b <> "tool_result") (message_blocks m).
Proof.
  unfold message_blocks.
  set (calls := _ <$> unwrap_or (tool_calls m) []).
  assert (Hcalls : Forall (fun b => type_of b <> "tool_result") calls).
  { apply Forall_fmap, Forall_true. intros tc. discriminate. }
  set (pre := match content m with Some _ => _ | None => _ end).
  assert (Hpre : Forall (fun b => type_of b <> "tool_result") pre).
  { unfold pre. pose proof (thinking_blocks_types m). destruct (content m) as [c|]; [|done].
    destruct (String.eqb c ""); [done|]. apply Forall_app_2'; [done|].
    repeat constructor; discriminate. }
  destruct (pre ++ calls) eqn:He; [repeat constructor; discriminate|]. rewrite <- He.
  by apply Forall_app_2'.
Qed.

Lemma answered_ids_message (r : string) (m : Message) :
  answered_ids (wire_message r (message_blocks m)) = [].
Proof.
  unfold answered_ids. rewrite wire_blocks_message.
  induction (message_blocks_types m) as [|b l Hb _ IH]; [done|].
  simpl. by rewrite (proj2 (String.eqb_neq _ _) Hb).
Qed.

Lemma not_tool_result_message (r : string) (m : Message) :
  is_tool_result_message (wire_message r (message_blocks m)) = false.
Proof.
  unfold is_tool_result_message. rewrite wire_blocks_message.
  pose proof (message_blocks_types m) as Hb. destruct (message_blocks m); [done|].
  inv Hb. by apply String.eqb_neq.
Qed.

Lemma tool_run_split (msgs ts rest : list Message) :
  tool_run msgs = (ts, rest) ->
  msgs = ts ++ rest /\ Forall (fun m => is_tool m = true) ts /\
  (forall m l, rest = m :: l -> is_tool m = false).
Proof.
  revert ts rest. induction msgs as [|m msgs IH]; intros ts rest; simpl; [by intros [= <- <-]|].
  destruct (is_tool m) eqn:Hm.
  - destruct (tool_run msgs) as [ts' r'] eqn:Hr. intros [= <- <-].
    destruct (IH _ _ eq_refl) as (-> & ? & ?). split; [done|]. split; [by constructor|done].
  - intros [= <- <-]. split; [done|]. split; [done|]. by intros ? ? [= <- <-].
Qed.

(** The loop without its fuel: one step at a time, by the length of the transcript. *)
Lemma anthropic_loop_ind (P : list Message -> list Value -> Prop) :
  P [] [] ->
  (forall ts rest out, ts <> [] -> Forall (fun m => is_tool m = true) ts ->
     (forall m l, rest = m :: l -> is_tool m = false) -> P rest out ->
     P (ts ++ rest) (wire_message "user" (tool_result_block <$> ts) :: out)) ->
  (forall m rest out r, is_tool m = false -> P rest out ->
     P (m :: rest) (wire_message r (message_blocks m) :: out)) ->
  forall fuel msgs, (length msgs <= fuel)%nat -> P msgs (anthropic_loop fuel msgs).
Proof.
  intros Hnil Htool Hmsg. induction fuel as [|fuel IH]; intros msgs Hlen.
  - destruct msgs; [done|simpl in Hlen; lia].
  - destruct msgs as [|m rest]; [done|]. cbn [anthropic_loop]. destruct (is_tool m) eqn:Hm.
    + destruct (tool_run (m :: rest)) as [ts r] eqn:Hr.
      pose proof (tool_run_split _ _ _ Hr) as (Heq & Hts & Hrest).
      assert (ts <> []) as Hne.
      { simpl in Hr. rewrite Hm in Hr. destruct (tool_run rest). by inv Hr. }
      rewrite Heq. apply Htool; [done..|]. apply IH.
      apply (f_equal length) in Heq. rewrite length_app in Heq. simpl in Heq, Hlen.
      destruct ts; [done|]. simpl in Heq. lia.
    + apply Hmsg; [done|]. apply IH. simpl in Hlen. lia.
Qed.

Lemma anthropic_ids (fuel : nat) (msgs : list Message) :
  (length msgs <= fuel)%nat ->
  (anthropic_loop fuel msgs ≫= answered_ids)
  = (fun m => unwrap_or (tool_call_id m) "") <$> List.filter is_tool msgs.
Proof.
  apply (anthropic_loop_ind (fun msgs out => (out ≫= answered_ids)
           = (fun m => unwrap_or (tool_call_id m) "") <$> List.filter is_tool msgs)).
  - done.
  - intros ts rest out _ Hts _ IH. rewrite bind_cons.
    rewrite answered_ids_tool_run, IH, List.filter_app, fmap_app. f_equal.
    clear - Hts. induction Hts as [|m ts Hm _ IH]; [done|]. simpl. rewrite Hm. simpl.
    by f_equal.
  - intros m rest out r Hm IH. rewrite bind_cons.
    rewrite answered_ids_message, IH. simpl. by rewrite Hm.
Qed.

Lemma anthropic_blocks_nonempty (fuel : nat) (msgs : list Message) :
  (length msgs <= fuel)%nat -> Forall (fun v => wire_blocks v <> []) (anthropic_loop fuel msgs).
Proof.
  apply (anthropic_loop_ind (fun _ out => Forall (fun v => wire_blocks v <> []) out)).
  - done.
  - intros ts rest out Hne _ _ IH. constructor; [|done]. rewrite wire_blocks_message.
    by destruct ts.
  - intros m rest out r _ IH. constructor; [|done]. rewrite wire_blocks_message.
    apply message_blocks_nonempty.
Qed.

(** No two adjacent elements satisfy [P]. *)
Fixpoint no_adjacent {A} (P : A -> bool) (l : list A) : Prop :=
  match l with
  | x :: (y :: _) as l' => ~ (P x = true /\ P y = true) /\ no_adjacent P l'
  | _ => True
  end.

Lemma anthropic_no_adjacent (fuel : nat) (msgs : list Message) :
  (length msgs <= fuel)%nat -> no_adjacent is_tool_result_message (anthropic_loop fuel msgs).
Proof.
  intros Hlen.
  enough (no_adjacent is_tool_result_message (anthropic_loop fuel msgs) /\
          forall v l, anthropic_loop fuel msgs = v :: l ->
          is_tool_result_message v = true -> exists m l', msgs = m :: l' /\ is_tool m = true)
    by tauto.
  apply (anthropic_loop_ind (fun msgs out => no_adjacent is_tool_result_message out /\
           forall v l, out = v :: l -> is_tool_result_message v = true ->
           exists m l', msgs = m :: l' /\ is_tool m = true)); [|..|done]; clear fuel msgs Hlen.
  - split; done.
  - intros ts rest out Hne Hts Hrest [IH Hhead]. split.
    + destruct out as [|v l]; [done|]. split; [|done]. intros [_ Hv].
      destruct (Hhead v l eq_refl Hv) as (m & l' & -> & Hm). specialize (Hrest _ _ eq_refl). congruence.
    + intros _ _ _ _. destruct Hts as [|m ts Hm Hts]; [done|]. by exists m, (ts ++ rest).
  - intros m rest out r Hm [IH Hhead]. split.
    + destruct out as [|v l]; [done|]. split; [|done]. intros [Hv _].
      by rewrite not_tool_result_message in Hv.
    + intros v l [= <- <-] Hv. by rewrite not_tool_result_message in Hv.
Qed.

(** ** Lemmas: reading a Responses output *)
Definition typed (ty : string) (v : Value) : bool := String.eqb (type_of v) ty.

Lemma responses_fold_items (out : list Value) (acc : ResponsesAcc) :
  ra_reasoning_items (foldl responses_item acc out)
    = ra_reasoning_items acc ++ List.filter (typed "reasoning") out /\
  ra_tool_calls (foldl responses_item acc out)
    = ra_tool_calls acc ++ (read_function_call <$> List.filter (typed "function_call") out).
Proof.
  revert acc. induction out as [|v out IH]; intros acc; [by rewrite !app_nil_r|].
  cbn [foldl List.filter]. destruct (IH (responses_item acc v)) as [-> ->].
  unfold responses_item, typed, type_of.
  destruct (String.eqb_spec (sget "type" v "") "message") as [E|]; [by rewrite E|].
  destruct (String.eqb_spec (sget "type" v "") "reasoning") as [E|];
    [rewrite E; simpl; by rewrite <- app_assoc|].
  destruct (String.eqb_spec (sget "type" v "") "function_call") as [E|]; simpl; [|done].
  split; [done|]. by rewrite <- app_assoc.
Qed.

(** Optional insertions seen through [get]. *)
Lemma get_insert_opt (k k' : string) (v : option Value) (m : JMap.t) :
  JMap.get k (insert_opt k' v m)
  = if String.eqb k k' then opt_or v (JMap.get k m) else JMap.get k m.
Proof.
  destruct v; simpl; [apply jmap_get_insert|]. by destruct (String.eqb k k').
Qed.
Lemma get_insert_if (b : bool) (k k' : string) (v : Value) (m : JMap.t) :
  JMap.get k (insert_if b k' v m)
  = if b && String.eqb k k' then Some v else JMap.get k m.
Proof. destruct b; simpl; [apply jmap_get_insert|done]. Qed.
End lemmas.

(** ** Properties *)

(** The Anthropic transcript answers every tool call as that API demands: the tool results of
    the history appear all of them, in order, each under its own id; consecutive results are merged, so
    no two adjacent messages carry tool results; and no message has an empty content array. *)
Theorem anthropic_tool_results_grouped `{Json} (msgs : list Message) (model : string) :
  exists out, anthropic_convert_messages msgs model = Array out /\
    (out ≫= answered_ids)
      = (fun m => unwrap_or (tool_call_id m) "") <$> List.filter is_tool msgs /\
    no_adjacent is_tool_result_message out /\
    Forall (fun v => wire_blocks v <> []) out.
Proof.
  eexists. split; [reflexivity|].
  split; [|split; [by apply anthropic_no_adjacent|by apply anthropic_blocks_nonempty]].
  rewrite anthropic_ids by done. f_equal. clear model. induction msgs as [|m msgs IH]; [done|].
  simpl. unfold is_tool in *. destruct (role m) eqn:Hr; simpl; rewrite ?Hr; simpl; by rewrite ?IH.
Qed.

(** A Responses turn is replayed faithfully: when an accepted response is stored as the
    assistant message and rendered again, the request carries its reasoning items unchanged and in
    order, then its text, then one call item per function call, in order, under the same call id and
    name, with the arguments re-serialised. *)
Theorem responses_replay `{Json} (raw : Value) (out : list Value) (nr : NormalizedResponse)
  (Hout : get "output" raw = Some (Array out))
  (Hnr : responses_normalize_response raw = Ok nr) :
  responses_items (build_assistant_message nr)
  = List.filter (typed "reasoning") out
    ++ output_text_items (build_assistant_message nr)
    ++ ((fun it => function_call_item (read_function_call it))
        <$> List.filter (typed "function_call") out).
Proof.
  unfold responses_normalize_response in Hnr. rewrite Hout in Hnr.
  cbn [mbind option_bind as_array ok_or and_then] in Hnr. injection Hnr as <-.
  unfold responses_items, echoed_items. cbn [build_assistant_message role provider_data tool_calls
    nr_provider_data nr_tool_calls].
  set (acc0 := {| ra_text := ""; ra_reasoning := None; ra_reasoning_items := [];
                  ra_tool_calls := [] |}).
  destruct (responses_fold_items out acc0) as [Hi Hc]. rewrite Hi, Hc. cbn [app acc0 ra_reasoning_items ra_tool_calls].
  f_equal; [|f_equal].
  - destruct (List.filter (typed "reasoning") out); [|done]. simpl.
    by destruct (opt_is_some (get "id" raw)).
  - etrans; [|symmetry; apply (list_fmap_compose read_function_call function_call_item)].
    by destruct (read_function_call <$> _).
Qed.

Lemma responses_replay_witness :
  @responses_items no_json (build_assistant_message
    {| nr_content := None;
       nr_tool_calls := Some [{| tc_id := Some "call_1"; tc_name := "f"; tc_arguments := "{}";
                                 tc_provider_data := None |}];
       nr_finish_reason := ToolCalls; nr_reasoning := None; nr_usage := None;
       nr_provider_data := None |})
  = [obj [("type", jstr "function_call"); ("call_id", jstr "call_1"); ("name", jstr "f");
          ("arguments", jstr "{}")]].
Proof.
  apply (@responses_replay no_json
    (obj [("output", Array [obj [("type", jstr "function_call"); ("id", jstr "fc_9");
                                 ("call_id", jstr "call_1"); ("name", jstr "f")]])])
    [obj [("type", jstr "function_call"); ("id", jstr "fc_9"); ("call_id", jstr "call_1");
          ("name", jstr "f")]]); reflexivity.
Defined.

(** An opaque thinking block stored under [thinking] is replayed first, text and signature
    unchanged; but the transport never stores one there: the block list of a response is kept under
    another key, so a response with a thinking block is replayed without it. *)
Theorem anthropic_thinking_replay `{Json} (raw : Value) (nr : NormalizedResponse)
  (Hnr : anthropic_normalize_response raw = Ok nr) :
  (forall m pd t, provider_data m = Some pd -> get "thinking" pd = Some t ->
   exists rest, message_blocks m
     = obj [("type", jstr "thinking"); ("thinking", jstr (sget "thinking" t ""));
            ("signature", jstr (sget "signature" t ""))] :: rest) /\
  thinking_blocks (build_assistant_message nr) = [] /\
  (forall bs, get "content" raw = Some bs ->
   provider_data (build_assistant_message nr) = Some (obj [("anthropic_content_blocks", bs)])).
Proof.
  split; [|split].
  - intros m pd t Hpd Ht. unfold message_blocks, thinking_blocks. rewrite Hpd.
    cbn [mbind option_bind]. rewrite Ht.
    destruct (content m) as [c|]; [destruct (String.eqb c "")|]; by eexists.
  - unfold anthropic_normalize_response in Hnr.
    destruct (get "content" raw) as [bs|] eqn:Hc; [|done].
    cbn [mbind option_bind] in Hnr. destruct (as_array bs); [|done].
    cbn [ok_or and_then] in Hnr. by injection Hnr as <-.
  - intros bs Hc. unfold anthropic_normalize_response in Hnr. rewrite Hc in Hnr.
    cbn [mbind option_bind] in Hnr. destruct (as_array bs); [|done].
    cbn [ok_or and_then] in Hnr. by injection Hnr as <-.
Qed.

Lemma anthropic_thinking_replay_witness :
  exists nr, @anthropic_normalize_response no_json
    (obj [("content", Array [obj [("type", jstr "thinking"); ("thinking", jstr "hm");
                                  ("signature", jstr "sig")]])]) = Ok nr /\
    thinking_blocks (build_assistant_message nr) = [].
Proof.
  eexists. split; [reflexivity|].
  eapply (@anthropic_thinking_replay no_json
    (obj [("content", Array [obj [("type", jstr "thinking"); ("thinking", jstr "hm");
                                  ("signature", jstr "sig")]])])).
  reflexivity.
Defined.

(** The output limit of a request is the caller's, else the provider hook's, else the profile's
    default, under the one key each wire accepts (4096 on the Anthropic wire when nobody sets one); and
    a call that offers no tools, native tools or schema carries neither [tools] nor [tool_choice]. *)
Theorem request_limits_and_tools `{Json} (model : string) (msgs : list Message)
  (p : ProviderProfile) (params : ReqParams) :
  (forall tools, get (token_limit_key model) (chat_build_kwargs model msgs tools p params)
     = jnum <$> max_tokens_of params p model) /\
  (forall tools, get "max_output_tokens" (responses_build_kwargs model msgs tools p params)
     = jnum <$> max_tokens_of params p model) /\
  (rp_server_tools params = [] -> rp_response_format params = None ->
   (forall tools, get "max_tokens" (anthropic_build_kwargs model msgs tools p params)
     = Some (jnum (unwrap_or (max_tokens_of params p model) 4096%Z))) /\
   forall m k, k = "tools" \/ k = "tool_choice" ->
   get k (build_kwargs (transport_for m) model msgs None p params) = None).
Proof.
  assert (Hkey : token_limit_key model = "max_completion_tokens" \/
                 token_limit_key model = "max_tokens").
  { unfold token_limit_key. case_match; [by left|by right]. }
  split; [|split].
  - intros tools. unfold chat_build_kwargs. cbn [get]. rewrite get_insert_if, get_insert_opt.
    destruct Hkey as [E | E]; rewrite E; rewrite andb_false_r; cbn [String.eqb Ascii.eqb Bool.eqb];
      destruct (rp_stream params); json_get; rewrite get_insert_opt, String.eqb_refl;
      destruct (max_tokens_of params p model); try done; cbn [fmap option_fmap option_map opt_or];
      destruct (fixed_temperature p); rewrite ?get_insert_opt; json_get;
      destruct tools; rewrite ?get_insert_if; json_get; by rewrite ?andb_false_r.
  - intros tools. unfold responses_build_kwargs. cbn [get]. rewrite get_insert_if, andb_false_r.
    json_get. rewrite !get_insert_opt. cbn [String.eqb Ascii.eqb Bool.eqb].
    destruct (max_tokens_of params p model); [done|]. cbn [fmap option_fmap option_map opt_or].
    case_match; rewrite ?get_insert_if, ?andb_false_r; json_get;
      by rewrite get_insert_if, andb_false_r.
  - intros Hst Hrf. split.
    + intros tools. unfold anthropic_build_kwargs. rewrite Hst, Hrf. cbn [foldl anthropic_emit mbind option_bind get].
      rewrite get_insert_if, andb_false_r, get_insert_opt. cbn [String.eqb Ascii.eqb Bool.eqb].
      by json_get.
    + intros m k Hk. destruct m; cbn [transport_for build_kwargs].
      * unfold chat_build_kwargs. rewrite Hst, Hrf. cbn [existsb insert_if insert_opt get].
        destruct Hk as [-> | ->]; destruct (rp_stream params); json_get;
          rewrite get_insert_opt; destruct Hkey as [-> | ->]; cbn [String.eqb Ascii.eqb Bool.eqb];
          destruct (fixed_temperature p); rewrite ?get_insert_opt; by json_get.
      * unfold anthropic_build_kwargs. rewrite Hst, Hrf.
        cbn [foldl anthropic_emit mbind option_bind get insert_opt fmap option_fmap option_map].
        rewrite get_insert_if. destruct Hk as [-> | ->]; rewrite andb_false_r, get_insert_opt;
          cbn [String.eqb Ascii.eqb Bool.eqb]; json_get; by rewrite get_insert_if, andb_false_r.
      * unfold responses_build_kwargs. rewrite Hst, Hrf.
        cbn [fmap option_fmap option_map mbind option_bind unwrap_or app list_fmap get
             responses_text_format insert_opt].
        rewrite get_insert_if. destruct Hk as [-> | ->]; rewrite andb_false_r; json_get;
          rewrite !get_insert_opt; cbn [String.eqb Ascii.eqb Bool.eqb];
          json_get; by rewrite get_insert_if, andb_false_r.
Qed.

Lemma request_limits_and_tools_witness :
  get "tools" (@build_kwargs (@transport_for no_json AnthropicMessages) "claude" [] None
    Anthropic.profile
    {| rp_temperature := None; rp_max_tokens := None; rp_response_format := None;
       rp_stream := true; rp_server_tools := []; rp_reasoning := None; rp_session_id := None |})
  = None.
Proof.
  apply (proj2 (proj2 (@request_limits_and_tools no_json "claude" [] Anthropic.profile
    {| rp_temperature := None; rp_max_tokens := None; rp_response_format := None;
       rp_stream := true; rp_server_tools := []; rp_reasoning := None; rp_session_id := None |}))
    eq_refl eq_refl).
  left. reflexivity.
Defined.
