(* ===== verification/Turn.v ===== *)
(** * The turn loop

    [router/src/turn.rs], with the tool dispatcher ([tools.rs]) and the history repairs ([compress.rs])
    it uses. What the loop reaches outside itself, the cancellation token, the cost guard, the provider
    dispatch and the tool executor, are operations on an opaque world [W]; every call of them, every
    persisted message and every observer notification is recorded in a trace, so that theorems can speak
    about their order. *)
From S2P Require Import Prelude RustStr Json Protocol Fence Providers Transports Pool.
From stdpp Require Import pretty.

#[local] Open Scope string_scope.
#[local] Open Scope list_scope.

(** ** History repairs *)
Section repair.
Definition call_ids (m : Message) : list string := omap tc_id (unwrap_or (tool_calls m) []).

(* src/qcue-rs/router/src/compress.rs 43-65 clean_orphan_tool_results *)
Fixpoint clean_orphans (known_ids : list string) (msgs : list Message) : list Message :=
  match msgs with
  | [] => []
  | m :: rest =>
      let known_ids := known_ids ++ call_ids m in
      let keep :=
        match role m with
        | Tool => match tool_call_id m with
                  | Some i => bool_decide (i ∈ known_ids)
                  | None => false
                  end
        | _ => true
        end in
      if keep then m :: clean_orphans known_ids rest else clean_orphans known_ids rest
  end.
Definition clean_orphan_tool_results (msgs : list Message) : list Message := clean_orphans [] msgs.

(* src/qcue-rs/router/src/compress.rs 10-41 compress_oldest *)
Definition compress_oldest (history : list Message) (count : nat)
  (summarize : list Message -> string) : list Message :=
  let sys := List.filter (fun m => role_eqb (role m) System) history in
  let non_sys := List.filter (fun m => negb (role_eqb (role m) System)) history in
  if (length non_sys <=? count)%nat then history
  else
    let summary := text_message Assistant (Some (summarize (firstn count non_sys))) in
    clean_orphan_tool_results (sys ++ [summary] ++ skipn count non_sys).

Definition set_content (c : option string) (m : Message) : Message := {|
  role := role m; content := c; tool_call_id := tool_call_id m; tool_name := tool_name m;
  tool_calls := tool_calls m; finish_reason := finish_reason m; reasoning := reasoning m;
  provider_data := provider_data m; active := active m; is_untrusted := is_untrusted m |}.

Definition mergeable (r : Role) : bool := role_eqb r User || role_eqb r Assistant.

(** One round of the loop of [repair_role_alternation]; [out] is in reverse. *)
(* src/qcue-rs/router/src/turn.rs 117-131 repair_role_alternation *)
Definition coalesce_step (out : list Message) (m : Message) : list Message :=
  match out with
  | last :: out' =>
      if role_eqb (role last) (role m) && mergeable (role m)
      then set_content (Some (Str.trim (unwrap_or (content last) "" +:+ Str.lf
                                        +:+ unwrap_or (content m) ""))) last :: out'
      else m :: out
  | [] => [m]
  end.
Definition coalesce (msgs : list Message) : list Message := rev (foldl coalesce_step [] msgs).

(* src/qcue-rs/router/src/turn.rs 114-133 repair_role_alternation *)
Definition repair_role_alternation (msgs : list Message) : list Message :=
  clean_orphan_tool_results (coalesce msgs).

(** Update of the last element that satisfies [f], [iter_mut().rev().find(f)]. *)
Fixpoint update_last {A} (f : A -> bool) (g : A -> A) (l : list A) : option (list A) :=
  match l with
  | [] => None
  | x :: l =>
      match update_last f g l with
      | Some l' => Some (x :: l')
      | None => if f x then Some (g x :: l) else None
      end
  end.

(* src/qcue-rs/router/src/turn.rs 135-143 inject_recall_into_tail *)
Definition inject_recall_into_tail (history : list Message) (origin recall : string)
  : list Message :=
  unwrap_or
    (update_last (fun m => role_eqb (role m) User)
      (fun m =>
        let c := unwrap_or (content m) "" +:+ Str.lf +:+ Str.lf
                 +:+ Sanitize.fence_untrusted origin recall in
        {| role := role m; content := Some c; tool_call_id := tool_call_id m;
           tool_name := tool_name m; tool_calls := tool_calls m; finish_reason := finish_reason m;
           reasoning := reasoning m; provider_data := provider_data m; active := active m;
           is_untrusted := true |}) history) history.

(* src/qcue-rs/router/src/turn.rs 145-148 build_api_copy *)
Definition build_api_copy (history : list Message) : list Message :=
  repair_role_alternation history.
End repair.

(** ** The budget *)
Section budget.
Local Open Scope Z_scope.
(* src/qcue-rs/router/src/turn.rs 18-26 Budget *)
Record Budget : Type := {
  tokens_remaining : Z;
  round : Z;
  max_rounds : Z;
}.
(* src/qcue-rs/router/src/turn.rs 28-32 tokens *)
Definition budget_tokens (tokens max : Z) : Budget :=
  {| tokens_remaining := tokens; round := 0; max_rounds := max |}.
(* src/qcue-rs/router/src/turn.rs 33-36 exhausted *)
Definition exhausted (b : Budget) : bool :=
  (tokens_remaining b =? 0) || (max_rounds b <=? round b).
(* src/qcue-rs/router/src/turn.rs 37-40 tick_round *)
Definition tick_round (b : Budget) : Budget :=
  {| tokens_remaining := tokens_remaining b; round := Int.sat_u32 (round b + 1);
     max_rounds := max_rounds b |}.
(* src/qcue-rs/router/src/turn.rs 41-44 consume_tokens *)
Definition consume_tokens (n : Z) (b : Budget) : Budget :=
  {| tokens_remaining := Int.sat_u64 (tokens_remaining b - n); round := round b;
     max_rounds := max_rounds b |}.
(* src/qcue-rs/router/src/turn.rs 165-169 turn_tokens *)
Definition turn_tokens (u : CanonicalUsage) : Z :=
  Int.wrap_u64 (u_input u + u_output u + u_reasoning u + u_cache_write u).
End budget.

(* src/qcue-rs/router/src/turn.rs 171-190 finalize_nudge *)
Definition finalize_nudge : Message :=
  text_message User (Some
    "You have gathered enough context. Answer the user's question now, fully, using only the information already available. Do not call any tools.").

(* src/qcue-rs/router/src/turn.rs 66-77 TurnResult *)
Inductive TurnResult : Type :=
| Final (content : option string) (usage : CanonicalUsage) (finish : FinishReason)
| Interrupted
| Refused (reason : string).

(* src/qcue-rs/router/src/dispatch.rs 9-16 DispatchRequest *)
Record DispatchRequest : Type := {
  dr_messages : list Message;
  dr_tools : list ToolDef;
  dr_params : ReqParams;
  dr_tenant : Uuid;
}.

(** [ApiError]'s [Display]. *)
(* src/qcue-rs/protocol/src/error.rs 38-51 ApiError *)
Definition api_error_to_string (e : ApiError) : string :=
  match e with
  | StatusErr st body => "http status " +:+ pretty st +:+ ": " +:+ body
  | StreamIdle ms => "stream idle timeout after " +:+ pretty ms +:+ "ms"
  | StreamTtfb ms => "stream ttfb timeout after " +:+ pretty ms +:+ "ms"
  | TransportErr s => "transport: " +:+ s
  | DecodeErr s => "decode: " +:+ s
  end.

(** What the loop does to the outside, in order. *)
Inductive Event : Type :=
| EvPersistUser (m : Message)
| EvCheck (r : result string unit)
| EvCall (req : DispatchRequest) (r : result ApiError NormalizedResponse)
| EvTool (name arguments : string)
| EvSinkCall (round : Z) (name arguments : string)
| EvSinkResult (round : Z) (name content : string)
| EvSinkDelta (round : Z) (text : string)
| EvPersistAssistant (m : Message).

Section loop.
Context {W : Type}.

(* src/qcue-rs/router/src/tools.rs 48-55 ToolDispatcher *)
Record ToolDispatcher : Type := {
  td_defs : list ToolDef;
  td_exec : option (string -> string -> W -> result string string * W);
}.

Definition tool_message (tc : ToolCall) (c : string) : Message := {|
  role := Tool; content := Some c; tool_call_id := tc_id tc; tool_name := Some (tc_name tc);
  tool_calls := None; finish_reason := None; reasoning := None; provider_data := None;
  active := true; is_untrusted := true |}.

(* src/qcue-rs/router/src/tools.rs 82-109 dispatch *)
Fixpoint tools_dispatch (d : ToolDispatcher) (calls : list ToolCall) (w : W)
  : list Message * list Event * W :=
  match calls with
  | [] => ([], [], w)
  | tc :: calls =>
      let '(c, ev, w) :=
        match td_exec d with
        | Some exec =>
            let '(r, w) := exec (tc_name tc) (tc_arguments tc) w in
            (match r with
             | Ok s => s
             | Err e => "tool error (" +:+ tc_name tc +:+ "): " +:+ e
             end, [EvTool (tc_name tc) (tc_arguments tc)], w)
        | None => ("result for " +:+ tc_name tc, [], w)
        end in
      let '(ms, evs, w) := tools_dispatch d calls w in
      (tool_message tc c :: ms, ev ++ evs, w)
  end.

(** The collaborators behind [dyn ProviderDispatch], [dyn CostGuard] and the cancellation token. *)
Record Harness : Type := {
  is_cancelled : W -> bool * W;
  check_before_call : W -> result string unit * W;
  complete : DispatchRequest -> W -> result ApiError NormalizedResponse * W;
}.

(* src/qcue-rs/router/src/turn.rs 51-64 TurnContext *)
Record TurnContext : Type := {
  history : list Message;
  budget : Budget;
  params : ReqParams;
  tools : ToolDispatcher;
  tenant : Uuid;
  sink : bool;
}.

(** The variables of the loop. *)
Record TurnState : Type := {
  messages : list Message;
  total_usage : CanonicalUsage;
  nudged : bool;
  ts_budget : Budget;
  world : W;
  trace : list Event;
}.

Definition observed (ctx : TurnContext) (evs : list Event) : list Event :=
  if sink ctx then evs else [].

Definition delta_events (ctx : TurnContext) (b : Budget) (nr : NormalizedResponse) : list Event :=
  observed ctx [EvSinkDelta (round b) (unwrap_or (nr_content nr) "")].
Definition call_events (ctx : TurnContext) (b : Budget) (tcs : list ToolCall) : list Event :=
  observed ctx ((fun tc => EvSinkCall (round b) (tc_name tc) (tc_arguments tc)) <$> tcs).
Definition result_events (ctx : TurnContext) (b : Budget) (rs : list Message) : list Event :=
  observed ctx ((fun r => EvSinkResult (round b) (unwrap_or (tool_name r) "")
                            (unwrap_or (content r) "")) <$> rs).

(** One iteration: the state after it and, when the loop returns, what it returns. *)
(* src/qcue-rs/router/src/turn.rs 207-292 run_turn *)
Definition turn_round (h : Harness) (ctx : TurnContext) (s : TurnState)
  : TurnState * option (result string TurnResult) :=
  let '(c, w) := is_cancelled h (world s) in
  let st msgs u n b w tr := {| messages := msgs; total_usage := u; nudged := n; ts_budget := b;
                               world := w; trace := trace s ++ tr |} in
  if c then (st (messages s) (total_usage s) (nudged s) (ts_budget s) w [], Some (Ok Interrupted))
  else
  let finalizing := exhausted (ts_budget s) in
  let push := finalizing && negb (nudged s) in
  let msgs := if push then messages s ++ [finalize_nudge] else messages s in
  let n := nudged s || push in
  let api_msgs := build_api_copy msgs in
  let '(ok, w) := check_before_call h w in
  match ok with
  | Err e => (st msgs (total_usage s) n (ts_budget s) w [EvCheck (Err e)], Some (Ok (Refused e)))
  | Ok _ =>
      let req := {| dr_messages := api_msgs;
                    dr_tools := if finalizing then [] else td_defs (tools ctx);
                    dr_params := params ctx; dr_tenant := tenant ctx |} in
      let '(reply, w) := complete h req w in
      let called := [EvCheck (Ok tt); EvCall req reply] in
      match reply with
      | Err e => (st msgs (total_usage s) n (ts_budget s) w called,
                  Some (Err (api_error_to_string e)))
      | Ok nr =>
          let u := match nr_usage nr with
                   | Some u => usage_add (total_usage s) u
                   | None => total_usage s
                   end in
          let b := match nr_usage nr with
                   | Some u => consume_tokens (turn_tokens u) (ts_budget s)
                   | None => ts_budget s
                   end in
          let b := tick_round b in
          let assistant := build_assistant_message nr in
          let msgs := msgs ++ [assistant] in
          let answer := (st msgs u n b w
                           (called ++ delta_events ctx b nr ++ [EvPersistAssistant assistant]),
                         Some (Ok (Final (nr_content nr) u (nr_finish_reason nr)))) in
          if finalizing then answer
          else match nr_tool_calls nr with
               | Some ((_ :: _) as tcs) =>
                   let '(results, evs, w) := tools_dispatch (tools ctx) tcs w in
                   (st (msgs ++ results) u n b w
                      (called ++ call_events ctx b tcs ++ evs ++ result_events ctx b results), None)
               | _ => answer
               end
      end
  end.

(** [None]: out of fuel; [turn_terminates] below shows that [max_rounds + 1] rounds suffice. *)
Fixpoint turn_loop (fuel : nat) (h : Harness) (ctx : TurnContext) (s : TurnState)
  : TurnState * option (result string TurnResult) :=
  match fuel with
  | O => (s, None)
  | S fuel =>
      match turn_round h ctx s with
      | (s, None) => turn_loop fuel h ctx s
      | r => r
      end
  end.

Definition last_user (msgs : list Message) : option Message :=
  find_first (fun m => role_eqb (role m) User) (rev msgs).

Definition turn_init (ctx : TurnContext) (w : W) : TurnState := {|
  messages := history ctx; total_usage := usage_zero; nudged := false; ts_budget := budget ctx;
  world := w;
  trace := match last_user (history ctx) with Some u => [EvPersistUser u] | None => [] end |}.

(* src/qcue-rs/router/src/turn.rs 192-293 run_turn *)
Definition run_turn (h : Harness) (ctx : TurnContext) (w : W)
  : TurnState * option (result string TurnResult) :=
  turn_loop (S (Z.to_nat (max_rounds (budget ctx)))) h ctx (turn_init ctx w).
End loop.

(** ** Lemmas: one round *)

(** Events that are neither a check, a call nor a write: what happens between a tool reply and the
    next round. *)
Definition quiet (e : Event) : Prop :=
  match e with
  | EvTool _ _ | EvSinkCall _ _ _ | EvSinkResult _ _ _ | EvSinkDelta _ _ => True
  | _ => False
  end.

(** The shapes a round can have: what it appends to the trace and how it ends. *)
Inductive round_shape {W} (ctx : @TurnContext W) (s s' : @TurnState W)
  : list Event -> option (result string TurnResult) -> Prop :=
| ShapeCancel :
    messages s' = messages s -> total_usage s' = total_usage s -> ts_budget s' = ts_budget s ->
    round_shape ctx s s' [] (Some (Ok Interrupted))
| ShapeRefuse e :
    total_usage s' = total_usage s -> ts_budget s' = ts_budget s ->
    round_shape ctx s s' [EvCheck (Err e)] (Some (Ok (Refused e)))
| ShapeError req e :
    dr_tools req = (if exhausted (ts_budget s) then [] else td_defs (tools ctx)) ->
    total_usage s' = total_usage s -> ts_budget s' = ts_budget s ->
    round_shape ctx s s' [EvCheck (Ok tt); EvCall req (Err e)] (Some (Err (api_error_to_string e)))
| ShapeFinal req nr quiets u :
    dr_tools req = (if exhausted (ts_budget s) then [] else td_defs (tools ctx)) ->
    Forall quiet quiets ->
    u = (match nr_usage nr with Some v => usage_add (total_usage s) v
                              | None => total_usage s end) ->
    total_usage s' = u ->
    round_shape ctx s s'
      ([EvCheck (Ok tt); EvCall req (Ok nr)] ++ quiets
       ++ [EvPersistAssistant (build_assistant_message nr)])
      (Some (Ok (Final (nr_content nr) u (nr_finish_reason nr))))
| ShapeTools req nr quiets :
    dr_tools req = td_defs (tools ctx) -> exhausted (ts_budget s) = false ->
    Forall quiet quiets ->
    total_usage s' = (match nr_usage nr with Some u => usage_add (total_usage s) u
                                           | None => total_usage s end) ->
    max_rounds (ts_budget s') = max_rounds (ts_budget s) ->
    round (ts_budget s') = Int.sat_u32 (round (ts_budget s) + 1) ->
    round_shape ctx s s' ([EvCheck (Ok tt); EvCall req (Ok nr)] ++ quiets) None.

Section lemmas.
Context {W : Type}.
Implicit Types (ctx : @TurnContext W) (s : @TurnState W) (h : @Harness W).

Lemma observed_quiet ctx (evs : list Event) : Forall quiet evs -> Forall quiet (observed ctx evs).
Proof. unfold observed. by destruct (sink ctx). Qed.

Lemma call_events_quiet ctx b tcs : Forall quiet (call_events ctx b tcs).
Proof. apply observed_quiet, Forall_fmap, Forall_true. done. Qed.
Lemma result_events_quiet ctx b rs : Forall quiet (result_events ctx b rs).
Proof. apply observed_quiet, Forall_fmap, Forall_true. done. Qed.
Lemma delta_events_quiet ctx b nr : Forall quiet (delta_events ctx b nr).
Proof. apply observed_quiet. by repeat constructor. Qed.

Lemma tools_dispatch_quiet (d : @ToolDispatcher W) (calls : list ToolCall) (w : W) :
  Forall quiet (tools_dispatch d calls w).1.2.
Proof.
  revert w. induction calls as [|tc calls IH]; intros w; [constructor|]. cbn [tools_dispatch].
  destruct (td_exec d) as [exec|].
  - destruct (exec _ _ w) as [r w']. specialize (IH w').
    destruct (tools_dispatch d calls w') as [[ms evs] w'']. simpl. by constructor.
  - specialize (IH w). by destruct (tools_dispatch d calls w) as [[ms evs] w''].
Qed.

Lemma turn_round_shape h ctx s :
  exists evs, trace (turn_round h ctx s).1 = trace s ++ evs /\
    round_shape ctx s (turn_round h ctx s).1 evs (turn_round h ctx s).2.
Proof.
  unfold turn_round. destruct (is_cancelled h (world s)) as [c w]. destruct c.
  { exists []. split; [done|]. by constructor. }
  destruct (check_before_call h w) as [[[]|e] w1].
  2: { exists [EvCheck (Err e)]. split; [done|]. by constructor. }
  set (req := {| dr_messages := _ |}). destruct (complete h req w1) as [[nr|e] w2].
  2: { eexists. split; [reflexivity|]. by constructor. }
  set (b := tick_round _). set (u := match nr_usage nr with Some _ => _ | None => _ end).
  pose proof (delta_events_quiet ctx b nr) as Hq.
  destruct (exhausted (ts_budget s)) eqn:Hex.
  { eexists. split; [reflexivity|].
    apply (ShapeFinal ctx s _ req nr (delta_events ctx b nr)); [by rewrite Hex|done..]. }
  assert (Hb : max_rounds b = max_rounds (ts_budget s) /\
               round b = Int.sat_u32 (round (ts_budget s) + 1)).
  { unfold b. by destruct (nr_usage nr). }
  destruct (nr_tool_calls nr) as [[|tc tcs]|];
    try (eexists; split; [reflexivity|];
         apply (ShapeFinal ctx s _ req nr (delta_events ctx b nr)); [by rewrite Hex|done..]).
  pose proof (tools_dispatch_quiet (tools ctx) (tc :: tcs) w2) as Hd.
  destruct (tools_dispatch (tools ctx) (tc :: tcs) w2) as [[rs evs] w3].
  eexists. split; [reflexivity|]. eapply (ShapeTools _ _ _ req); try done; try apply Hb.
  apply Forall_app_2'; [apply call_events_quiet|].
  apply Forall_app_2'; [exact Hd|apply result_events_quiet].
Qed.

(** Induction over the rounds of a loop. *)
Lemma turn_loop_ind h ctx (P : TurnState -> TurnState * option (result string TurnResult) -> Prop) :
  (forall s, P s (s, None)) ->
  (forall s s' o, turn_round h ctx s = (s', Some o) -> P s (s', Some o)) ->
  (forall s s' r, turn_round h ctx s = (s', None) -> P s' r -> P s r) ->
  forall fuel s, P s (turn_loop fuel h ctx s).
Proof.
  intros H0 Hret Hstep. induction fuel as [|fuel IH]; intros s; [apply H0|]. cbn [turn_loop].
  destruct (turn_round h ctx s) as [s' [o|]] eqn:Hr; [by apply Hret|]. by eapply Hstep.
Qed.

(** ** Lemmas: whole traces *)
Definition is_call (e : Event) : bool := match e with EvCall _ _ => true | _ => false end.
Definition calls (tr : list Event) : nat := length (List.filter is_call tr).
Definition is_persist (e : Event) : bool :=
  match e with EvPersistUser _ | EvPersistAssistant _ => true | _ => false end.
Definition writes (tr : list Event) : list Event := List.filter is_persist tr.

(** [guarded last tr]: every call in [tr] comes right after a passed check; [last] tells whether
    the event before [tr] was one. *)
Fixpoint guarded (last : bool) (tr : list Event) : Prop :=
  match tr with
  | [] => True
  | EvCall _ _ :: tr => last = true /\ guarded false tr
  | EvCheck (Ok _) :: tr => guarded true tr
  | _ :: tr => guarded false tr
  end.

(** The usage of a trace: the sum of what its replies reported. *)
Definition event_usage (u : CanonicalUsage) (e : Event) : CanonicalUsage :=
  match e with
  | EvCall _ (Ok nr) => match nr_usage nr with Some v => usage_add u v | None => u end
  | _ => u
  end.
Definition usage_of (u : CanonicalUsage) (tr : list Event) : CanonicalUsage :=
  foldl event_usage u tr.

Lemma quiet_calls (q : list Event) : Forall quiet q -> calls q = 0%nat.
Proof. unfold calls. induction 1 as [|e q He _ IH]; [done|]. by destruct e. Qed.
Lemma quiet_writes (q : list Event) : Forall quiet q -> writes q = [].
Proof. unfold writes. induction 1 as [|e q He _ IH]; [done|]. by destruct e. Qed.
Lemma quiet_guarded (q tr : list Event) :
  Forall quiet q -> guarded false tr -> guarded false (q ++ tr).
Proof. induction 1 as [|e q He _ IH]; [done|]. by destruct e. Qed.
Lemma quiet_usage (q : list Event) u : Forall quiet q -> usage_of u q = u.
Proof. unfold usage_of. induction 1 as [|e q He _ IH]; [done|]. by destruct e. Qed.

Lemma calls_app (a b : list Event) : calls (a ++ b) = (calls a + calls b)%nat.
Proof. unfold calls. by rewrite List.filter_app, length_app. Qed.
Lemma writes_app (a b : list Event) : writes (a ++ b) = writes a ++ writes b.
Proof. apply List.filter_app. Qed.
Lemma usage_of_app u (a b : list Event) : usage_of u (a ++ b) = usage_of (usage_of u a) b.
Proof. apply foldl_app. Qed.
End lemmas.

(** Every call offers the registered tools, except a last one that offers none. *)
Fixpoint offers (defs : list ToolDef) (tr : list Event) : Prop :=
  match tr with
  | [] => True
  | EvCall req _ :: tr =>
      (dr_tools req = defs \/ (dr_tools req = [] /\ calls tr = 0%nat)) /\ offers defs tr
  | _ :: tr => offers defs tr
  end.

Section loop_lemmas.
Context {W : Type}.
Implicit Types (ctx : @TurnContext W) (s : @TurnState W) (h : @Harness W).

Lemma quiet_offers (defs : list ToolDef) (q tr : list Event) :
  Forall quiet q -> offers defs tr -> offers defs (q ++ tr).
Proof. induction 1 as [|e q He _ IH]; [done|]. by destruct e. Qed.

Lemma round_calls ctx s s' evs o : round_shape ctx s s' evs o -> (calls evs <= 1)%nat.
Proof.
  assert (Hc : forall q, Forall quiet q -> calls q = 0%nat) by apply quiet_calls.
  destruct 1; try (cbn; lia).
  - rewrite !calls_app, (Hc quiets) by done. cbn. lia.
  - rewrite calls_app, (Hc quiets) by done. cbn. lia.
Qed.

Lemma round_offers ctx s s' evs o : round_shape ctx s s' evs o -> offers (td_defs (tools ctx)) evs.
Proof.
  destruct 1 as [| | req e Ht | req nr q u Ht Hq | req nr q Ht Hex Hq]; try (cbn; tauto).
  - cbn. split; [|done]. destruct (exhausted _); tauto.
  - cbn [app offers]. split; [|by apply quiet_offers].
    destruct (exhausted _); [right|left; done]. split; [done|].
    rewrite calls_app, quiet_calls by done. done.
  - cbn. split; [by left|]. rewrite <- (app_nil_r q). by apply quiet_offers.
Qed.

Lemma offers_app_tools (defs : list ToolDef) req nr q (tr : list Event) :
  dr_tools req = defs -> Forall quiet q -> offers defs tr ->
  offers defs (([EvCheck (Ok tt); EvCall req (Ok nr)] ++ q) ++ tr).
Proof. intros. cbn. split; [by left|]. by apply quiet_offers. Qed.

(** The loop from any state: it returns with the fuel its remaining rounds ask for, and what it
    appends to the trace. *)
Lemma turn_loop_bound h ctx (fuel : nat) s :
  (0 <= round (ts_budget s))%Z -> (max_rounds (ts_budget s) <= Int.u32_max)%Z ->
  (Z.to_nat (max_rounds (ts_budget s) - round (ts_budget s)) < fuel)%nat ->
  is_Some (turn_loop fuel h ctx s).2 /\
  exists evs, trace (turn_loop fuel h ctx s).1 = trace s ++ evs /\
    (calls evs <= Z.to_nat (max_rounds (ts_budget s) - round (ts_budget s)) + 1)%nat /\
    offers (td_defs (tools ctx)) evs.
Proof.
  revert s. induction fuel as [|fuel IH]; intros s Hr Hm Hf; [lia|]. cbn [turn_loop].
  destruct (turn_round_shape h ctx s) as (evs & Htr & Hsh).
  pose proof (round_calls _ _ _ _ _ Hsh) as Hc. pose proof (round_offers _ _ _ _ _ Hsh) as Ho.
  destruct (turn_round h ctx s) as [s' [o|]] eqn:Hround; cbn [fst snd] in *.
  { split; [done|]. exists evs. split; [done|]. split; [lia|done]. }
  inv Hsh. unfold exhausted in *. bool_prop.
  rename select (max_rounds (ts_budget s') = _) into Hmax'.
  rename select (round (ts_budget s') = _) into Hround'.
  assert (Hinc : round (ts_budget s') = (round (ts_budget s) + 1)%Z).
  { rewrite Hround'. unfold Int.sat_u32, Int.u32_max in *. lia. }
  destruct (IH s') as [Hs (evs' & Htr' & Hc' & Ho')]; [lia|lia|lia|].
  split; [done|]. eexists. rewrite Htr', Htr, <- app_assoc. split; [reflexivity|]. split.
  - rewrite calls_app. lia.
  - by apply offers_app_tools.
Qed.

(** Guardedness, writes and usage of a round. *)
Lemma round_guarded ctx s s' evs (tr : list Event) :
  round_shape ctx s s' evs None -> guarded false tr -> guarded false (evs ++ tr).
Proof.
  inversion 1; subst. intros Htr. rewrite <- app_assoc. cbn. split; [done|].
  by apply quiet_guarded.
Qed.

Lemma round_guarded_end ctx s s' evs o : round_shape ctx s s' evs (Some o) -> guarded false evs.
Proof.
  inversion 1; subst; cbn; try done. split; [done|]. by apply quiet_guarded.
Qed.

Lemma round_usage ctx s s' evs o :
  round_shape ctx s s' evs o -> total_usage s' = usage_of (total_usage s) evs.
Proof.
  assert (Hq : forall q u, Forall quiet q -> usage_of u q = u) by apply quiet_usage.
  inversion 1; subst; cbn; try done.
  - unfold usage_of. rewrite foldl_app. cbn. by rewrite (Hq quiets).
  - by rewrite (Hq quiets).
Qed.

Lemma turn_loop_guarded h ctx (fuel : nat) s :
  exists evs, trace (turn_loop fuel h ctx s).1 = trace s ++ evs /\ guarded false evs /\
    forall e, (turn_loop fuel h ctx s).2 = Some (Ok (Refused e)) -> last evs = Some (EvCheck (Err e)).
Proof.
  apply (turn_loop_ind h ctx (fun s r => exists evs, trace r.1 = trace s ++ evs /\ guarded false evs /\
           forall e, r.2 = Some (Ok (Refused e)) -> last evs = Some (EvCheck (Err e)))); clear s.
  - intros s. exists []. by rewrite app_nil_r.
  - intros s s' o Hr. destruct (turn_round_shape h ctx s) as (evs & Htr & Hsh).
    rewrite Hr in *. exists evs. split; [done|]. cbn [fst snd] in *.
    split; [by eapply round_guarded_end|]. intros e [= ->]. by inv Hsh.
  - intros s s' r Hr (evs' & Htr' & Hg & Hlast).
    destruct (turn_round_shape h ctx s) as (evs & Htr & Hsh). rewrite Hr in *.
    cbn [fst snd] in *. exists (evs ++ evs'). rewrite Htr', Htr, app_assoc. split; [done|].
    split; [by eapply round_guarded|]. intros e He. specialize (Hlast e He).
    rewrite last_app, Hlast. done.
Qed.

Lemma turn_loop_usage h ctx (fuel : nat) s :
  exists evs, trace (turn_loop fuel h ctx s).1 = trace s ++ evs /\
    total_usage (turn_loop fuel h ctx s).1 = usage_of (total_usage s) evs /\
    match (turn_loop fuel h ctx s).2 with
    | Some (Ok (Final c u f)) =>
        u = usage_of (total_usage s) evs /\
        exists m, writes evs = [EvPersistAssistant m] /\ last evs = Some (EvPersistAssistant m) /\
                  role m = Assistant /\ content m = c /\ finish_reason m = Some f
    | _ => writes evs = []
    end.
Proof.
  apply (turn_loop_ind h ctx (fun s r => exists evs, trace r.1 = trace s ++ evs /\
    total_usage r.1 = usage_of (total_usage s) evs /\
    match r.2 with
    | Some (Ok (Final c u f)) =>
        u = usage_of (total_usage s) evs /\
        exists m, writes evs = [EvPersistAssistant m] /\ last evs = Some (EvPersistAssistant m) /\
                  role m = Assistant /\ content m = c /\ finish_reason m = Some f
    | _ => writes evs = []
    end)); clear s.
  - intros s. exists []. by rewrite app_nil_r.
  - intros s s' o Hr. destruct (turn_round_shape h ctx s) as (evs & Htr & Hsh).
    rewrite Hr in *. cbn [fst snd] in *. exists evs. split; [done|].
    pose proof (round_usage _ _ _ _ _ Hsh) as Hu. split; [done|].
    inv Hsh; try done. split; [congruence|].
    exists (build_assistant_message nr). rewrite !writes_app, (quiet_writes quiets) by done.
    split; [done|]. split; [by rewrite !last_app|done].
  - intros s s' r Hr (evs' & Htr' & Hu' & Hw').
    destruct (turn_round_shape h ctx s) as (evs & Htr & Hsh). rewrite Hr in *.
    cbn [fst snd] in *. exists (evs ++ evs'). rewrite Htr', Htr, app_assoc. split; [done|].
    pose proof (round_usage _ _ _ _ _ Hsh) as Hu. rewrite usage_of_app, <- Hu. split; [done|].
    assert (Hwe : writes evs = []).
    { inv Hsh. rewrite writes_app, (quiet_writes quiets) by done. done. }
    rewrite writes_app, Hwe. destruct r.2 as [[[c u f| |e]|]|]; try done.
    destruct Hw' as (-> & m & ? & Hl & ?). split; [done|]. exists m. rewrite last_app, Hl. done.
Qed.
End loop_lemmas.

(** ** Lemmas: history repairs *)

(** A transcript where no two adjacent messages are both of the user or both of the assistant. *)
Fixpoint alternating (msgs : list Message) : Prop :=
  match msgs with
  | m :: (m' :: _) as rest =>
      (role_eqb (role m) (role m') && mergeable (role m')) = false /\ alternating rest
  | _ => True
  end.

(** Every tool message answers a call made earlier in the transcript. *)
Fixpoint linked (known : list string) (msgs : list Message) : Prop :=
  match msgs with
  | [] => True
  | m :: rest =>
      (role m = Tool -> exists i, tool_call_id m = Some i /\ i ∈ known ++ call_ids m) /\
      linked (known ++ call_ids m) rest
  end.

(** Tool messages make no calls themselves. *)
Definition plain_tools (msgs : list Message) : Prop :=
  Forall (fun m => role m = Tool -> call_ids m = []) msgs.

Lemma clean_orphans_linked (msgs : list Message) (known : list string) :
  plain_tools msgs -> linked known (clean_orphans known msgs).
Proof.
  intros Hp. revert known. induction Hp as [|m msgs Hm _ IH]; intros known; [done|].
  cbn [clean_orphans]. case_match eqn:Hk.
  - split; [|apply IH]. intros Ht. rewrite Ht in Hk. destruct (tool_call_id m) as [i|]; [|done].
    exists i. split; [done|]. by apply bool_decide_eq_true in Hk.
  - destruct (role m) eqn:Hr; try done. rewrite Hm, app_nil_r by done. apply IH.
Qed.

Lemma clean_orphans_keeps (msgs : list Message) (known : list string) :
  List.filter (fun m => negb (is_tool m)) (clean_orphans known msgs)
  = List.filter (fun m => negb (is_tool m)) msgs.
Proof.
  revert known. induction msgs as [|m msgs IH]; intros known; [done|]. cbn [clean_orphans].
  case_match eqn:Hk; simpl; [by rewrite IH|]. rewrite IH. unfold is_tool.
  by destruct (role m) eqn:Hr.
Qed.

Lemma clean_orphans_id (msgs : list Message) (known : list string) :
  linked known msgs -> clean_orphans known msgs = msgs.
Proof.
  revert known. induction msgs as [|m msgs IH]; intros known; [done|]. intros [Hm Hr].
  cbn [clean_orphans]. rewrite (IH _ Hr). case_match eqn:Hk; [done|].
  destruct (role m) eqn:Hrole; try done. destruct (Hm eq_refl) as (i & Hi & Hin).
  rewrite Hi in Hk. by apply bool_decide_eq_false in Hk.
Qed.

(** Coalescing. The accumulator is reversed, so alternation is read backwards. *)
Lemma role_eqb_spec (a b : Role) : role_eqb a b = true <-> a = b.
Proof. unfold role_eqb. apply bool_decide_eq_true. Qed.

Lemma role_eqb_sym (a b : Role) : role_eqb a b = role_eqb b a.
Proof. by destruct a, b. Qed.

Definition clash (a b : Message) : bool := role_eqb (role a) (role b) && mergeable (role b).

Lemma clash_sym (a b : Message) : clash a b = clash b a.
Proof. unfold clash. by destruct (role a), (role b). Qed.

Lemma alternating_cons (m m' : Message) (l : list Message) :
  alternating (m :: m' :: l) <-> clash m m' = false /\ alternating (m' :: l).
Proof. reflexivity. Qed.

Lemma alternating_roles (l k : list Message) :
  role <$> l = role <$> k -> alternating l -> alternating k.
Proof.
  revert k. induction l as [|m l IH]; intros [|n k]; try done. intros [= Hr Hl].
  destruct l as [|m' l], k as [|n' k]; try done. rewrite !alternating_cons.
  intros [Hc Ha]. split; [|by apply IH]. injection Hl as Hr' _.
  unfold clash in *. by rewrite <- Hr, <- Hr'.
Qed.

Lemma coalesce_step_alternating (out : list Message) (m : Message) :
  alternating out -> alternating (coalesce_step out m).
Proof.
  intros Ha. unfold coalesce_step. destruct out as [|l out]; [done|].
  destruct (role_eqb (role l) (role m) && mergeable (role m)) eqn:Hc.
  - eapply alternating_roles; [|exact Ha]. done.
  - apply alternating_cons. split; [|done]. by rewrite clash_sym.
Qed.

Lemma alternating_app (l k : list Message) (m : Message) :
  alternating (l ++ [m]) -> (forall n k', k = n :: k' -> clash m n = false) -> alternating k ->
  alternating (l ++ m :: k).
Proof.
  intros Hl Hm Hk. induction l as [|a l IH].
  - destruct k as [|n k]; [done|]. apply alternating_cons. split; [by eapply Hm|done].
  - destruct l as [|b l].
    + cbn [app] in *. apply alternating_cons in Hl as [Hc _]. apply alternating_cons.
      split; [done|]. apply IH. done.
    + cbn [app] in *. apply alternating_cons in Hl as [Hc Hl]. apply alternating_cons.
      split; [done|]. by apply IH.
Qed.

Lemma alternating_rev (l : list Message) : alternating l -> alternating (rev l).
Proof.
  induction l as [|m l IH]; [done|]. intros Ha. cbn [rev].
  destruct l as [|n l]; [done|]. apply alternating_cons in Ha as [Hc Ha].
  specialize (IH Ha). cbn [rev] in *. rewrite <- app_assoc. cbn [app].
  apply alternating_app; [done| |done]. intros ? ? [= <- <-]. by rewrite clash_sym.
Qed.

Lemma coalesce_alternating (msgs : list Message) : alternating (coalesce msgs).
Proof.
  unfold coalesce. apply alternating_rev. assert (alternating []) as H0 by done. revert H0.
  generalize (@nil Message). induction msgs as [|m msgs IH]; intros out Ho; [done|].
  apply IH. by apply coalesce_step_alternating.
Qed.

Lemma plain_tools_fold (msgs out : list Message) :
  plain_tools out -> plain_tools msgs -> plain_tools (foldl coalesce_step out msgs).
Proof.
  revert out. induction msgs as [|m msgs IH]; intros out Ho Hm; [done|]. inv Hm.
  apply IH; [|done]. unfold coalesce_step. destruct out as [|l out]; [by repeat constructor|].
  case_match; [|by constructor]. inv Ho. by constructor.
Qed.

Lemma coalesce_plain_tools (msgs : list Message) : plain_tools msgs -> plain_tools (coalesce msgs).
Proof. intros Hm. apply Forall_rev. apply plain_tools_fold; [constructor|done]. Qed.

(** ** Lemmas: the observer *)
Definition is_sink (e : Event) : bool :=
  match e with EvSinkCall _ _ _ | EvSinkResult _ _ _ | EvSinkDelta _ _ => true | _ => false end.
Definition unobserved (tr : list Event) : list Event := List.filter (fun e => negb (is_sink e)) tr.

Definition with_sink {W} (b : bool) (ctx : @TurnContext W) : @TurnContext W := {|
  history := history ctx; budget := budget ctx; params := params ctx; tools := tools ctx;
  tenant := tenant ctx; sink := b |}.

(** Two states that differ by what the observer saw. *)
Definition same_turn {W} (s t : @TurnState W) : Prop :=
  messages s = messages t /\ total_usage s = total_usage t /\ nudged s = nudged t /\
  ts_budget s = ts_budget t /\ world s = world t /\ unobserved (trace s) = unobserved (trace t).

Lemma unobserved_app (a b : list Event) : unobserved (a ++ b) = unobserved a ++ unobserved b.
Proof. apply List.filter_app. Qed.

Section observer.
Context {W : Type}.
Implicit Types (ctx : @TurnContext W) (s t : @TurnState W) (h : @Harness W).

Lemma unobserved_observed ctx (evs : list Event) :
  Forall (fun e => is_sink e = true) evs -> unobserved (observed ctx evs) = [].
Proof.
  unfold observed. destruct (sink ctx); [|done].
  induction 1 as [|e evs He _ IH]; [done|]. simpl. by rewrite He.
Qed.

Lemma unobserved_delta ctx b nr : unobserved (delta_events ctx b nr) = [].
Proof. apply unobserved_observed. by repeat constructor. Qed.
Lemma unobserved_calls ctx b tcs : unobserved (call_events ctx b tcs) = [].
Proof. by apply unobserved_observed, Forall_fmap, Forall_true. Qed.
Lemma unobserved_results ctx b rs : unobserved (result_events ctx b rs) = [].
Proof. by apply unobserved_observed, Forall_fmap, Forall_true. Qed.

Lemma turn_round_same h ctx (b : bool) s t :
  same_turn s t ->
  same_turn (turn_round h ctx s).1 (turn_round h (with_sink b ctx) t).1 /\
  (turn_round h ctx s).2 = (turn_round h (with_sink b ctx) t).2.
Proof.
  intros (Hm & Hu & Hn & Hb & Hw & Ht). unfold turn_round. rewrite Hm, Hu, Hn, Hb, Hw.
  cbn [with_sink tools params tenant].
  destruct (is_cancelled h (world t)) as [[] w];
    [by repeat split; cbn [trace fst]; rewrite ?unobserved_app, ?Ht|].
  destruct (check_before_call h w) as [[[]|e] w1];
    [|by repeat split; cbn [trace fst]; rewrite ?unobserved_app, ?Ht].
  set (req := {| dr_messages := _ |}). destruct (complete h req w1) as [[nr|e] w2];
    [|by repeat split; cbn [trace fst]; rewrite ?unobserved_app, ?Ht].
  destruct (exhausted (ts_budget t));
    [by repeat split; cbn [trace fst]; rewrite !unobserved_app, !unobserved_delta, Ht|].
  destruct (nr_tool_calls nr) as [[|tc tcs]|];
    try (by repeat split; cbn [trace fst]; rewrite !unobserved_app, !unobserved_delta, Ht).
  destruct (tools_dispatch (tools ctx) (tc :: tcs) w2) as [[rs evs] w3].
  by repeat split; cbn [trace fst];
    rewrite !unobserved_app, !unobserved_calls, !unobserved_results, Ht.
Qed.

Lemma turn_loop_same h ctx (b : bool) (fuel : nat) s t :
  same_turn s t ->
  same_turn (turn_loop fuel h ctx s).1 (turn_loop fuel h (with_sink b ctx) t).1 /\
  (turn_loop fuel h ctx s).2 = (turn_loop fuel h (with_sink b ctx) t).2.
Proof.
  revert s t. induction fuel as [|fuel IH]; intros s t Hst; [done|]. cbn [turn_loop].
  destruct (turn_round_same h ctx b s t Hst) as [Hs Ho].
  destruct (turn_round h ctx s) as [s' o], (turn_round h (with_sink b ctx) t) as [t' o'].
  cbn [fst snd] in *. subst o'. destruct o; [done|]. by apply IH.
Qed.
End observer.

(** ** Properties *)

(** C1: a turn always ends, and spends a bounded number of provider calls: it returns a result within
    [max_rounds + 1] rounds whatever the model, the tools and the budget do, makes at most one call
    more than the rounds left in its budget, and every call but possibly the last offers the registered
    tools; a call that offers none is the last one. *)
Theorem turn_terminates {W} (h : @Harness W) (ctx : @TurnContext W) (w : W)
  (Hround : (0 <= round (budget ctx))%Z) (Hmax : (max_rounds (budget ctx) <= Int.u32_max)%Z) :
  exists s r, run_turn h ctx w = (s, Some r) /\
    (calls (trace s) <= Z.to_nat (max_rounds (budget ctx) - round (budget ctx)) + 1)%nat /\
    offers (td_defs (tools ctx)) (trace s).
Proof.
  unfold run_turn. destruct (turn_loop_bound h ctx (S (Z.to_nat (max_rounds (budget ctx))))
    (turn_init ctx w)) as [[r Hr] (evs & Htr & Hc & Ho)]; [done|done|cbn; lia|].
  destruct (turn_loop _ h ctx (turn_init ctx w)) as [s o]. cbn [fst snd] in *. subst o.
  exists s, r. split; [done|]. rewrite Htr. cbn [turn_init trace] in *.
  destruct (last_user (history ctx)); (split; [exact Hc|exact Ho]).
Qed.

(** A harness that plays a script of replies, never cancels and never refuses. *)
Definition scripted : @Harness (list (result ApiError NormalizedResponse)) := {|
  is_cancelled := fun w => (false, w);
  check_before_call := fun w => (Ok tt, w);
  complete := fun _ w => match w with r :: w => (r, w) | [] => (Err (StreamIdle 1), []) end |}.
Definition demo_reply (c : option string) (tcs : option (list ToolCall)) : NormalizedResponse := {|
  nr_content := c; nr_tool_calls := tcs; nr_finish_reason := Stop; nr_reasoning := None;
  nr_usage := Some {| u_input := 3; u_output := 2; u_cache_read := 0; u_cache_write := 0;
                      u_reasoning := 0 |}; nr_provider_data := None |}.
Definition demo_call : ToolCall :=
  {| tc_id := Some "c0"; tc_name := "recall_search"; tc_arguments := "{}"; tc_provider_data := None |}.
Definition demo_turn : @TurnContext (list (result ApiError NormalizedResponse)) := {|
  history := [text_message User (Some "hi")]; budget := budget_tokens 1000 1;
  params := {| rp_temperature := None; rp_max_tokens := None; rp_response_format := None;
               rp_stream := false; rp_server_tools := []; rp_reasoning := None;
               rp_session_id := None |};
  tools := {| td_defs := []; td_exec := None |}; tenant := 0%N; sink := true |}.
Definition demo_script : list (result ApiError NormalizedResponse) :=
  [Ok (demo_reply None (Some [demo_call])); Ok (demo_reply (Some "done") (Some [demo_call]))].

Lemma turn_terminates_witness :
  exists s r, run_turn scripted demo_turn demo_script = (s, Some r) /\ (calls (trace s) <= 2)%nat.
Proof.
  destruct (turn_terminates scripted demo_turn demo_script) as (s & r & H & Hc & _);
    [vm_compute; discriminate|vm_compute; discriminate|].
  exists s, r. split; [exact H|exact Hc].
Defined.

(** C2: no provider call is made without a cost check that passed immediately before it, the
    finalizing call included; and when the check refuses, the refusal is the last thing the turn
    does: no call, no tool, no write follows it. *)
Theorem spend_is_gated {W} (h : @Harness W) (ctx : @TurnContext W) (w : W) :
  guarded false (trace (run_turn h ctx w).1) /\
  forall e, (run_turn h ctx w).2 = Some (Ok (Refused e)) ->
  last (trace (run_turn h ctx w).1) = Some (EvCheck (Err e)).
Proof.
  unfold run_turn. destruct (turn_loop_guarded h ctx (S (Z.to_nat (max_rounds (budget ctx))))
    (turn_init ctx w)) as (evs & -> & Hg & Hlast).
  split; [cbn [turn_init trace]; by destruct (last_user (history ctx))|].
  intros e He. rewrite last_app, (Hlast e He). done.
Qed.

Lemma spend_is_gated_witness :
  last (trace (run_turn {| is_cancelled := fun w => (false, w);
                           check_before_call := fun w => (Err "cap", w);
                           complete := complete scripted |} demo_turn demo_script).1)
  = Some (EvCheck (Err "cap")).
Proof.
  apply (proj2 (spend_is_gated {| is_cancelled := fun w => (false, w);
                                  check_before_call := fun w => (Err "cap", w);
                                  complete := complete scripted |} demo_turn demo_script)).
  vm_compute. reflexivity.
Defined.

(** The turn accounts and persists exactly what happened: the user's message is written before
    anything else; a final turn then writes exactly one message, the assistant's, as its last act, with
    the content and finish reason it returns; any other outcome writes nothing more; and the usage
    returned is the sum, at 64 bits, of the usages of all its provider replies. *)
Theorem turn_accounts_exactly {W} (h : @Harness W) (ctx : @TurnContext W) (w : W) :
  let s := (run_turn h ctx w).1 in
  let user := match last_user (history ctx) with Some u => [EvPersistUser u] | None => [] end in
  firstn (length user) (trace s) = user /\
  match (run_turn h ctx w).2 with
  | Some (Ok (Final c u f)) =>
      u = usage_of usage_zero (trace s) /\
      exists m, writes (trace s) = user ++ [EvPersistAssistant m] /\
        last (trace s) = Some (EvPersistAssistant m) /\
        role m = Assistant /\ content m = c /\ finish_reason m = Some f
  | _ => writes (trace s) = user
  end.
Proof.
  cbn zeta. unfold run_turn. destruct (turn_loop_usage h ctx (S (Z.to_nat (max_rounds (budget ctx))))
    (turn_init ctx w)) as (evs & -> & _ & Hres).
  cbn [turn_init trace total_usage] in *.
  set (user := match last_user (history ctx) with Some u => _ | None => [] end).
  assert (Hw : writes user = user) by (unfold user; by destruct (last_user (history ctx))).
  assert (Hu : usage_of usage_zero user = usage_zero)
    by (unfold user; by destruct (last_user (history ctx))).
  split; [apply take_app_length|].
  rewrite writes_app, Hw, usage_of_app, Hu.
  destruct (turn_loop _ h ctx _).2 as [[[c u f| |e]|]|]; try (by rewrite Hres, app_nil_r).
  destruct Hres as (-> & m & Hwr & Hl & Hrest). split; [done|]. exists m.
  by rewrite Hwr, last_app, Hl.
Qed.

(** The observer is invisible: with and without a sink a turn returns the same result, usage and
    transcript, and apart from the notifications performs the same events in the same order. *)
Theorem observer_invisible {W} (h : @Harness W) (ctx : @TurnContext W) (w : W) (b : bool) :
  same_turn (run_turn h ctx w).1 (run_turn h (with_sink b ctx) w).1 /\
  (run_turn h ctx w).2 = (run_turn h (with_sink b ctx) w).2.
Proof. by apply turn_loop_same. Qed.

(** The request copy of the history: coalescing leaves no two adjacent user or assistant messages;
    every tool result of the copy answers a call made earlier in the copy, while no other message is
    dropped; and when no result was an orphan the copy alternates. Dropping an orphan can bring two
    messages of one role together again. *)
Theorem api_copy_wellformed (msgs : list Message) (Hplain : plain_tools msgs) :
  linked [] (build_api_copy msgs) /\
  List.filter (fun m => negb (is_tool m)) (build_api_copy msgs)
    = List.filter (fun m => negb (is_tool m)) (coalesce msgs) /\
  (linked [] (coalesce msgs) -> build_api_copy msgs = coalesce msgs /\
                                alternating (build_api_copy msgs)) /\
  (let a := text_message User (Some "a") in
   let t := tool_message demo_call "r" in
   build_api_copy [a; t; a] = [a; a] /\ ~ alternating (build_api_copy [a; t; a])).
Proof.
  unfold build_api_copy, repair_role_alternation, clean_orphan_tool_results.
  split; [by apply clean_orphans_linked, coalesce_plain_tools|].
  split; [apply clean_orphans_keeps|]. split.
  - intros Hl. rewrite clean_orphans_id by done. split; [done|]. apply coalesce_alternating.
  - split; [reflexivity|]. vm_compute. intros [H _]. discriminate H.
Qed.

Lemma api_copy_wellformed_witness :
  build_api_copy [text_message User (Some "a"); text_message User (Some "b")]
  = coalesce [text_message User (Some "a"); text_message User (Some "b")].
Proof.
  apply (api_copy_wellformed [text_message User (Some "a"); text_message User (Some "b")]);
    vm_compute; repeat split; try (repeat constructor); discriminate.
Defined.
