(* ===== verification/HttpClient.v ===== *)
(** * The HTTP layer: egress guard, base URLs, retry delays

    [Ip]: the address parser of the standard library that the guard relies on. [Ssrf]: the egress guard
    ([http/src/ssrf.rs]). [Client]: base-URL validation and versioning ([client.rs]). [Retry]: backoff
    ([retry.rs]). The URL parser of the [url] crate is a parameter. *)
From S2P Require Import Prelude RustStr.
From stdpp Require Import pretty.

#[local] Open Scope string_scope.
#[local] Open Scope list_scope.

(** ** IP addresses: [str::parse::<IpAddr>()] *)
Module Ip.
#[local] Open Scope Z_scope.

Record Ipv4 : Type := { o0 : Z; o1 : Z; o2 : Z; o3 : Z }.

(** Eight 16-bit segments. *)
Definition Ipv6 : Type := list Z.

Inductive IpAddr : Type :=
| V4 (a : Ipv4)
| V6 (a : Ipv6).

(** [char::to_digit] at radix 10 and 16. *)
Definition to_digit (radix : Z) (c : ascii) : option Z :=
  let n := Z.of_nat (nat_of_ascii c) in
  let d := if Str.is_ascii_digit c then Some (n - 48)
           else if Str.ascii_in 97 102 c then Some (n - 87)
           else if Str.ascii_in 65 70 c then Some (n - 55)
           else None in
  opt_filter (fun d => d <? radix) d.

(** The digits at the head of [s]: their value and number; [None] when a value exceeds [limit] or
    more than [max] digits are read. *)
Fixpoint read_digits (radix limit : Z) (max : nat) (acc : Z) (n : nat) (s : string)
  : option (Z * nat * string) :=
  match s with
  | String c s' =>
      match to_digit radix c with
      | Some d =>
          let v := acc * radix + d in
          if (limit <? v) || (max <? S n)%nat then None else read_digits radix limit max v (S n) s'
      | None => Some (acc, n, s)
      end
  | EmptyString => Some (acc, n, s)
  end.

Definition read_number (radix limit : Z) (max : nat) (zero_prefix : bool) (s : string)
  : option (Z * string) :=
  match read_digits radix limit max 0 0 s with
  | Some (v, n, rest) =>
      if (n =? 0)%nat then None
      else if negb zero_prefix && Str.starts_with "0" s && (1 <? n)%nat then None
      else Some (v, rest)
  | None => None
  end.

(** [read_separator(c, index, ..)]: the separator is skipped from the second item on. *)
Definition read_sep {A} (c : string) (i : nat) (f : string -> option (A * string)) (s : string)
  : option (A * string) :=
  if (0 <? i)%nat then Str.strip_prefix c s ≫= f else f s.

Definition read_octet (i : nat) : string -> option (Z * string) :=
  read_sep "." i (read_number 10 255 3 false).

Definition read_ipv4 (s : string) : option (Ipv4 * string) :=
  '(a, s) ← read_octet 0 s; '(b, s) ← read_octet 1 s; '(c, s) ← read_octet 2 s;
  '(d, s) ← read_octet 3 s; Some ({| o0 := a; o1 := b; o2 := c; o3 := d |}, s).

(** [read_groups]: up to [limit - i] groups from index [i], an embedded IPv4 address allowed while
    two groups are left. The groups read, whether they end in an IPv4 address, and the rest. *)
Fixpoint read_groups (left : nat) (i : nat) (s : string) : list Z * bool * string :=
  match left with
  | O => ([], false, s)
  | S left' =>
      match (if (0 <? left')%nat then read_sep ":" i read_ipv4 s else None) with
      | Some (a, s) => ([o0 a * 256 + o1 a; o2 a * 256 + o3 a], true, s)
      | None =>
          match read_sep ":" i (read_number 16 65535 4 true) s with
          | Some (g, s) => let '(gs, v4, s) := read_groups left' (S i) s in (g :: gs, v4, s)
          | None => ([], false, s)
          end
      end
  end.

Definition read_ipv6 (s : string) : option (Ipv6 * string) :=
  let '(head, head_v4, s) := read_groups 8 0 s in
  if (length head =? 8)%nat then Some (head, s)
  else if head_v4 then None
  else
    s ← Str.strip_prefix "::" s;
    let '(tail, _, s) := read_groups (8 - (length head + 1)) 0 s in
    Some (head ++ replicate (8 - length head - length tail) 0 ++ tail, s).

Definition parse_ip (s : string) : option IpAddr :=
  match (match read_ipv4 s with
         | Some (a, s) => Some (V4 a, s)
         | None => match read_ipv6 s with Some (a, s) => Some (V6 a, s) | None => None end
         end) with
  | Some (ip, EmptyString) => Some ip
  | _ => None
  end.

(** The methods of [Ipv4Addr] and [Ipv6Addr] that the guard uses. *)
Definition v4_is_loopback (a : Ipv4) : bool := o0 a =? 127.
Definition v4_is_private (a : Ipv4) : bool :=
  (o0 a =? 10) || ((o0 a =? 172) && (16 <=? o1 a) && (o1 a <=? 31))
  || ((o0 a =? 192) && (o1 a =? 168)).
Definition v4_is_link_local (a : Ipv4) : bool := (o0 a =? 169) && (o1 a =? 254).
Definition v4_is_unspecified (a : Ipv4) : bool :=
  (o0 a =? 0) && (o1 a =? 0) && (o2 a =? 0) && (o3 a =? 0).
Definition v4_is_broadcast (a : Ipv4) : bool :=
  (o0 a =? 255) && (o1 a =? 255) && (o2 a =? 255) && (o3 a =? 255).
Definition v4_is_documentation (a : Ipv4) : bool :=
  ((o0 a =? 192) && (o1 a =? 0) && (o2 a =? 2))
  || ((o0 a =? 198) && (o1 a =? 51) && (o2 a =? 100))
  || ((o0 a =? 203) && (o1 a =? 0) && (o2 a =? 113)).
Definition v4_is_multicast (a : Ipv4) : bool := (224 <=? o0 a) && (o0 a <=? 239).

Definition seg (a : Ipv6) (i : nat) : Z := nth i a 0.
Definition to_ipv4_mapped (a : Ipv6) : option Ipv4 :=
  if forallb (fun i => seg a i =? 0) (seq 0 5) && (seg a 5 =? 65535)
  then Some {| o0 := Z.shiftr (seg a 6) 8; o1 := Z.land (seg a 6) 255;
               o2 := Z.shiftr (seg a 7) 8; o3 := Z.land (seg a 7) 255 |}
  else None.
Definition v6_is_loopback (a : Ipv6) : bool :=
  forallb (fun i => seg a i =? 0) (seq 0 7) && (seg a 7 =? 1).
Definition v6_is_unspecified (a : Ipv6) : bool := forallb (fun i => seg a i =? 0) (seq 0 8).
Definition v6_is_multicast (a : Ipv6) : bool := Z.land (seg a 0) 65280 =? 65280.
End Ip.
Import Ip.

(** ** The egress guard *)
Module Ssrf.
#[local] Open Scope Z_scope.

(* src/qcue-rs/http/src/ssrf.rs 24-35 v4_blocked *)
Definition v4_blocked (v4 : Ipv4) : bool :=
  v4_is_loopback v4 || v4_is_private v4 || v4_is_link_local v4 || v4_is_unspecified v4
  || v4_is_broadcast v4 || v4_is_documentation v4 || v4_is_multicast v4
  || (o0 v4 =? 0) || ((o0 v4 =? 100) && (Z.land (o1 v4) 192 =? 64)).

(* src/qcue-rs/http/src/ssrf.rs 7-22 ip_is_blocked *)
Definition ip_is_blocked (ip : IpAddr) : bool :=
  match ip with
  | V4 v4 => v4_blocked v4
  | V6 v6 =>
      match to_ipv4_mapped v6 with
      | Some mapped => v4_blocked mapped
      | None =>
          v6_is_loopback v6 || v6_is_unspecified v6 || v6_is_multicast v6
          || (Z.land (seg v6 0) 65024 =? 64512) || (Z.land (seg v6 0) 65472 =? 65152)
      end
  end.

Definition strip_brackets (host : string) : string :=
  Str.trim_end_matches ["]"] (Str.trim_start_matches ["["] host).

Definition internal_name (h : string) : bool :=
  String.eqb h "localhost" || Str.ends_with ".localhost" h || Str.ends_with ".local" h
  || Str.ends_with ".internal" h || String.eqb h "metadata.google.internal".

(* src/qcue-rs/http/src/ssrf.rs 37-51 host_is_blocked_literal *)
Definition host_is_blocked_literal (host : string) : bool :=
  match parse_ip (strip_brackets host) with
  | Some ip => ip_is_blocked ip
  | None => internal_name (Str.to_ascii_lowercase host)
  end.

(** What the guard reads of a parsed URL. *)
Record Url : Type := { scheme : string; host_str : option string; as_str : string }.

Section classify.
Context (url_parse : string -> option Url).

(* src/qcue-rs/http/src/ssrf.rs 53-78 classify_url *)
Definition classify_url (raw : string) : result string Url :=
  let? url := ok_or (url_parse raw) ("not a valid absolute URL: " +:+ raw) in
  let? _ := (if String.eqb (scheme url) "http" || String.eqb (scheme url) "https" then Ok tt
             else Err ("blocked URL scheme `" +:+ scheme url
                       +:+ "` (only http/https are allowed)")) in
  let? host := ok_or (host_str url) "URL has no host" in
  match parse_ip (strip_brackets host) with
  | Some ip =>
      if ip_is_blocked ip then Err ("blocked non-public address: " +:+ host) else Ok url
  | None =>
      if internal_name (Str.to_ascii_lowercase host)
      then Err ("blocked internal host: " +:+ host) else Ok url
  end.

(** [lookup]: the addresses the system resolver returns. *)
(* src/qcue-rs/http/src/ssrf.rs 80-99 resolve *)
Definition guarded_resolve (lookup : string -> result string (list IpAddr)) (host : string)
  : result string (list IpAddr) :=
  let? addrs := lookup host in
  match List.filter (fun a => negb (ip_is_blocked a)) addrs with
  | [] => Err ("blocked host " +:+ host +:+ ": resolves only to non-public addresses")
  | ok => Ok ok
  end.
End classify.
End Ssrf.

(** ** Base URLs *)
Module Client.
(* src/qcue-rs/http/src/client.rs 12-16 HttpBuildError *)
Inductive HttpBuildError : Type :=
| Insecure (u : string)
| Reqwest (e : string).

(* src/qcue-rs/http/src/client.rs 27-53 validate_base_url_security *)
Definition validate_base_url_security (url_parse : string -> option Ssrf.Url) (base_url : string)
  (allow_insecure : bool) : result HttpBuildError unit :=
  if allow_insecure then Ok tt
  else
    let? url := ok_or (url_parse base_url) (Insecure base_url) in
    let? _ := (if String.eqb (Ssrf.scheme url) "https" then Ok tt
               else Err (Insecure ("plain http not allowed: " +:+ base_url))) in
    let host := unwrap_or (Ssrf.host_str url) "" in
    if String.eqb host "" || Ssrf.host_is_blocked_literal host
    then Err (Insecure ("blocked base_url host: " +:+ base_url)) else Ok tt.

(* src/qcue-rs/http/src/client.rs 55-66 versioned_base_url *)
Definition versioned_base_url (base_url path : string) : string :=
  let trimmed := Str.trim_end_matches ["/"] base_url in
  let normalized :=
    if Str.ends_with "/beta" trimmed then Str.trim_end_matches ["/beta"] trimmed +:+ "/v1"
    else if Str.ends_with "/v1" trimmed then trimmed
    else trimmed +:+ "/v1" in
  normalized +:+ "/" +:+ Str.trim_start_matches ["/"] path.
End Client.

(** ** Retry delays *)
Module Retry.
#[local] Open Scope Z_scope.
(* src/qcue-rs/http/src/retry.rs 5-14 RetryPolicy *)
Record RetryPolicy : Type := { base_ms : Z; max_ms : Z }.
Definition default_policy : RetryPolicy := {| base_ms := 500; max_ms := 60000 |}.

(** [byte]: the first byte of a fresh uuid. *)
(* src/qcue-rs/http/src/retry.rs 16-20 jitter_factor_milli *)
Definition jitter_factor_milli (byte : Z) : Z := 900 + byte * 200 / 255.

Definition saturating_mul_u64 (a b : Z) : Z := Int.sat_u64 (a * b).

(* src/qcue-rs/http/src/retry.rs 22-36 backoff_delay_ms *)
Definition backoff_delay_ms (p : RetryPolicy) (attempt : Z) (reset_at_ms : option Z) (byte : Z)
  : Z :=
  match opt_filter (fun r => 0 <=? r) reset_at_ms with
  | Some r => Z.min r (Z.max (max_ms p) r)
  | None =>
      let exp := saturating_mul_u64 (base_ms p)
                   (Z.shiftl 1 (Z.min (Int.sat_u32 (attempt - 1)) 20)) in
      let jittered := saturating_mul_u64 exp (jitter_factor_milli byte) / 1000 in
      Z.min jittered (max_ms p)
  end.
End Retry.

Example parse_ip_examples :
  parse_ip "169.254.169.254" = Some (V4 {| o0 := 169; o1 := 254; o2 := 169; o3 := 254 |}) /\
  parse_ip "::1" = Some (V6 [0; 0; 0; 0; 0; 0; 0; 1]%Z) /\
  parse_ip "::ffff:10.0.0.1" = Some (V6 [0; 0; 0; 0; 0; 65535; 2560; 1]%Z) /\
  parse_ip "fe80::1:2" = Some (V6 [65152; 0; 0; 0; 0; 0; 1; 2]%Z) /\
  parse_ip "1:2:3:4:5:6:7:8" = Some (V6 [1; 2; 3; 4; 5; 6; 7; 8]%Z) /\
  parse_ip "01.2.3.4" = None /\ parse_ip "1.2.3" = None /\ parse_ip "256.1.1.1" = None /\
  parse_ip "::" = Some (V6 [0; 0; 0; 0; 0; 0; 0; 0]%Z) /\ parse_ip "1::2::3" = None.
Proof. repeat split. Qed.

(** ** Lemmas: reading a dotted quad *)
Section dotted.
#[local] Open Scope Z_scope.

Definition octet (a : Z) : Prop := 0 <= a <= 255.
Definition dotted (a b c d : Z) : string :=
  pretty a +:+ "." +:+ pretty b +:+ "." +:+ pretty c +:+ "." +:+ pretty d.

Lemma read_digits_app (limit : Z) (max : nat) (p r : string) (acc : Z) (n : nat) :
  Str.all_digits p = true ->
  read_digits 10 limit max acc n (p +:+ r)
  = match read_digits 10 limit max acc n p with
    | Some (v, n', _) => read_digits 10 limit max v n' r
    | None => None
    end.
Proof.
  revert acc n. induction p as [|c p IH]; intros acc n Hp; [done|].
  cbn [Str.all_digits] in Hp. apply andb_true_iff in Hp as [Hc Hp].
  cbn [String.append read_digits].
  destruct (to_digit 10 c) as [d|] eqn:Hd.
  - destruct (_ || _); [done|]. by apply IH.
  - exfalso. unfold to_digit in Hd. rewrite Hc in Hd. cbn [opt_filter] in Hd.
    unfold Str.is_ascii_digit, Str.ascii_in in Hc. bool_prop.
    destruct (Z.ltb_spec (Z.of_nat (nat_of_ascii c) - 48) 10); [done|lia].
Qed.

(** What reading the decimal form of an octet needs, checked for all of them. *)
Definition octet_text (a : Z) : bool :=
  let p := pretty a in
  Str.all_digits p && negb (String.eqb p "")
  && match read_digits 10 255 3 0 0 p with
     | Some (v, n, _) =>
         (v =? a) && (0 <? n)%nat && negb (Str.starts_with "0" p && (1 <? n)%nat)
     | None => false
     end && Str.no_char "[" p && Str.no_char "]" p.

Lemma octet_text_all (a : Z) : octet a -> octet_text a = true.
Proof.
  intros Ha. assert (forallb octet_text (seqZ 0 256) = true) as H by (vm_compute; reflexivity).
  rewrite forallb_forall in H. apply H. apply list_elem_of_In, elem_of_seqZ. unfold octet in Ha. lia.
Qed.

(** A terminator after the octet: the end of the text or a character that is no digit. *)
Definition ends_number (r : string) : Prop :=
  match r with String c _ => to_digit 10 c = None | EmptyString => True end.

Lemma read_number_octet (a : Z) (r : string) :
  octet a -> ends_number r -> read_number 10 255 3 false (pretty a +:+ r) = Some (a, r).
Proof.
  intros Ha Hr. apply octet_text_all in Ha. unfold octet_text in Ha. bool_prop.
  destruct (read_digits 10 255 3 0 0 (pretty a)) as [[[v n] r0]|] eqn:Hd; [|done]. bool_prop.
  assert (Hz : Str.starts_with "0" (pretty a +:+ r) = Str.starts_with "0" (pretty a)).
  { destruct (pretty a); [done|]. simpl. by rewrite !andb_true_r. }
  unfold read_number. rewrite read_digits_app, Hd, Hz by done.
  assert (read_digits 10 255 3 v n r = Some (v, n, r)) as ->.
  { destruct r as [|c r]; [done|]. simpl in Hr. cbn [read_digits]. by rewrite Hr. }
  subst v. rewrite (proj2 (Nat.eqb_neq n 0)) by lia. cbn [negb andb].
  rename select (_ && _ = false) into Hlead. by rewrite Hlead.
Qed.

Lemma parse_dotted (a b c d : Z) :
  octet a -> octet b -> octet c -> octet d ->
  parse_ip (dotted a b c d) = Some (V4 {| o0 := a; o1 := b; o2 := c; o3 := d |}).
Proof.
  intros Ha Hb Hc Hd. unfold parse_ip, read_ipv4, dotted, read_octet, read_sep.
  cbn [Nat.ltb Nat.leb mbind option_bind].
  rewrite (read_number_octet a) by done. cbn [mbind option_bind Str.strip_prefix Ascii.eqb Bool.eqb String.append].
  rewrite (read_number_octet b) by done. cbn [mbind option_bind Str.strip_prefix Ascii.eqb Bool.eqb String.append].
  rewrite (read_number_octet c) by done. cbn [mbind option_bind Str.strip_prefix Ascii.eqb Bool.eqb String.append].
  rewrite <- (Str.app_nil_r (pretty d)), (read_number_octet d "") by done. done.
Qed.

Lemma dotted_no_bracket (a b c d : Z) (br : ascii) :
  octet a -> octet b -> octet c -> octet d -> br = "["%char \/ br = "]"%char ->
  Str.no_char br (dotted a b c d) = true.
Proof.
  intros Ha Hb Hc Hd Hbr. unfold dotted. rewrite !Str.no_char_app.
  assert (H : forall x, octet x -> Str.no_char br (pretty x) = true).
  { intros x Hx. apply octet_text_all in Hx. unfold octet_text in Hx. bool_prop.
    destruct Hbr as [-> | ->]; done. }
  rewrite !H by done. by destruct Hbr as [-> | ->].
Qed.

Lemma strip_brackets_dotted (a b c d : Z) :
  octet a -> octet b -> octet c -> octet d ->
  Ssrf.strip_brackets (dotted a b c d) = dotted a b c d.
Proof.
  intros. unfold Ssrf.strip_brackets.
  rewrite (Str.trim_start_stop "[") by (apply Str.no_char_strip_prefix, dotted_no_bracket; auto).
  apply Str.trim_end_stop, Str.no_char_strip_suffix, dotted_no_bracket; auto.
Qed.
End dotted.

(** ** Networks *)
Section cidr.
#[local] Open Scope Z_scope.
Definition addr (a : Ipv4) : Z := ((o0 a * 256 + o1 a) * 256 + o2 a) * 256 + o3 a.
Definition valid_v4 (a : Ipv4) : Prop := octet (o0 a) /\ octet (o1 a) /\ octet (o2 a) /\ octet (o3 a).

(** A network: its first address and its prefix length. *)
Definition net (a b c d len : Z) : Z * Z := (addr {| o0 := a; o1 := b; o2 := c; o3 := d |}, len).
Definition in_net (a : Ipv4) (n : Z * Z) : Prop :=
  addr a / 2 ^ (32 - n.2) = n.1 / 2 ^ (32 - n.2).

Definition blocked_nets : list (Z * Z) :=
  [ net 0 0 0 0 8; net 10 0 0 0 8; net 100 64 0 0 10; net 127 0 0 0 8; net 169 254 0 0 16;
    net 172 16 0 0 12; net 192 0 2 0 24; net 192 168 0 0 16; net 198 51 100 0 24;
    net 203 0 113 0 24; net 224 0 0 0 4; net 255 255 255 255 32 ].

Lemma land_192 (b : Z) : octet b -> (Z.land b 192 =? 64) = (b / 64 =? 1).
Proof.
  intros Hb. assert (forallb (fun b => Bool.eqb (Z.land b 192 =? 64) (b / 64 =? 1)) (seqZ 0 256) = true)
    as H by (vm_compute; reflexivity).
  rewrite forallb_forall in H. apply Bool.eqb_prop, H, list_elem_of_In, elem_of_seqZ.
  unfold octet in Hb. lia.
Qed.

(** What a prefix of each length reads of an address. *)
Lemma addr_prefix (a : Ipv4) :
  valid_v4 a ->
  addr a / 16777216 = o0 a /\ addr a / 65536 = o0 a * 256 + o1 a /\
  addr a / 256 = (o0 a * 256 + o1 a) * 256 + o2 a /\ addr a / 1 = addr a /\
  addr a / 4194304 = o0 a * 4 + o1 a / 64 /\ addr a / 1048576 = o0 a * 16 + o1 a / 16 /\
  addr a / 268435456 = o0 a / 16.
Proof.
  unfold valid_v4, octet, addr. intros (Ha & Hb & Hc & Hd).
  repeat split; Z.to_euclidean_division_equations; lia.
Qed.

Lemma in_nets_cases (a : Ipv4) :
  valid_v4 a ->
  Exists (in_net a) blocked_nets <->
  o0 a = 0 \/ o0 a = 10 \/ (o0 a = 100 /\ o1 a / 64 = 1) \/ o0 a = 127 \/
  (o0 a = 169 /\ o1 a = 254) \/ (o0 a = 172 /\ o1 a / 16 = 1) \/
  (o0 a = 192 /\ o1 a = 0 /\ o2 a = 2) \/ (o0 a = 192 /\ o1 a = 168) \/
  (o0 a = 198 /\ o1 a = 51 /\ o2 a = 100) \/ (o0 a = 203 /\ o1 a = 0 /\ o2 a = 113) \/
  o0 a / 16 = 14 \/ (o0 a = 255 /\ o1 a = 255 /\ o2 a = 255 /\ o3 a = 255).
Proof.
  intros Hv. destruct (addr_prefix a Hv) as (H24 & H16 & H8 & H0 & H22 & H20 & H28).
  unfold valid_v4, octet in Hv. destruct Hv as (Ha & Hb & Hc & Hd).
  assert (Hb64 : 0 <= o1 a / 64 <= 3) by (Z.to_euclidean_division_equations; lia).
  assert (Hb16 : 0 <= o1 a / 16 <= 15) by (Z.to_euclidean_division_equations; lia).
  revert Hb64 Hb16 H22 H20 H28. generalize (o1 a / 64), (o1 a / 16), (o0 a / 16).
  intros q64 q16 q4 Hb64 Hb16 H22 H20 H28.
  assert (N0 : in_net a (net 0 0 0 0 8) <-> o0 a = 0)
    by (change (addr a / 16777216 = 0 <-> o0 a = 0); rewrite H24; clear - Ha Hb Hc Hd Hb64 Hb16; lia).
  assert (N1 : in_net a (net 10 0 0 0 8) <-> o0 a = 10)
    by (change (addr a / 16777216 = 10 <-> o0 a = 10); rewrite H24; clear - Ha Hb Hc Hd Hb64 Hb16; lia).
  assert (N2 : in_net a (net 100 64 0 0 10) <-> o0 a = 100 /\ q64 = 1)
    by (change (addr a / 4194304 = 401 <-> o0 a = 100 /\ q64 = 1); rewrite H22; clear - Ha Hb Hc Hd Hb64 Hb16; lia).
  assert (N3 : in_net a (net 127 0 0 0 8) <-> o0 a = 127)
    by (change (addr a / 16777216 = 127 <-> o0 a = 127); rewrite H24; clear - Ha Hb Hc Hd Hb64 Hb16; lia).
  assert (N4 : in_net a (net 169 254 0 0 16) <-> o0 a = 169 /\ o1 a = 254)
    by (change (addr a / 65536 = 43518 <-> o0 a = 169 /\ o1 a = 254); rewrite H16; clear - Ha Hb Hc Hd Hb64 Hb16; lia).
  assert (N5 : in_net a (net 172 16 0 0 12) <-> o0 a = 172 /\ q16 = 1)
    by (change (addr a / 1048576 = 2753 <-> o0 a = 172 /\ q16 = 1); rewrite H20; clear - Ha Hb Hc Hd Hb64 Hb16; lia).
  assert (N6 : in_net a (net 192 0 2 0 24) <-> o0 a = 192 /\ o1 a = 0 /\ o2 a = 2)
    by (change (addr a / 256 = 12582914 <-> o0 a = 192 /\ o1 a = 0 /\ o2 a = 2); rewrite H8; clear - Ha Hb Hc Hd Hb64 Hb16; lia).
  assert (N7 : in_net a (net 192 168 0 0 16) <-> o0 a = 192 /\ o1 a = 168)
    by (change (addr a / 65536 = 49320 <-> o0 a = 192 /\ o1 a = 168); rewrite H16; clear - Ha Hb Hc Hd Hb64 Hb16; lia).
  assert (N8 : in_net a (net 198 51 100 0 24) <-> o0 a = 198 /\ o1 a = 51 /\ o2 a = 100)
    by (change (addr a / 256 = 12989284 <-> o0 a = 198 /\ o1 a = 51 /\ o2 a = 100); rewrite H8; clear - Ha Hb Hc Hd Hb64 Hb16; lia).
  assert (N9 : in_net a (net 203 0 113 0 24) <-> o0 a = 203 /\ o1 a = 0 /\ o2 a = 113)
    by (change (addr a / 256 = 13303921 <-> o0 a = 203 /\ o1 a = 0 /\ o2 a = 113); rewrite H8; clear - Ha Hb Hc Hd Hb64 Hb16; lia).
  assert (N10 : in_net a (net 224 0 0 0 4) <-> q4 = 14)
    by (change (addr a / 268435456 = 14 <-> q4 = 14); rewrite H28; clear - Ha Hb Hc Hd Hb64 Hb16; lia).
  assert (N11 : in_net a (net 255 255 255 255 32)
                <-> o0 a = 255 /\ o1 a = 255 /\ o2 a = 255 /\ o3 a = 255)
    by (change (addr a / 1 = 4294967295
                <-> o0 a = 255 /\ o1 a = 255 /\ o2 a = 255 /\ o3 a = 255);
        rewrite H0; unfold addr; clear - Ha Hb Hc Hd; lia).
  unfold blocked_nets. rewrite !Exists_cons, Exists_nil.
  rewrite N0, N1, N2, N3, N4, N5, N6, N7, N8, N9, N10, N11.
  assert (E : forall P : Prop, (P \/ False) <-> P) by tauto. rewrite E. reflexivity.
Qed.
End cidr.

Lemma v4_blocked_cases (a : Ipv4) :
  valid_v4 a -> Ssrf.v4_blocked a = true <-> Exists (in_net a) blocked_nets.
Proof.
  intros Hv. rewrite in_nets_cases by done. unfold valid_v4, octet in Hv.
  destruct Hv as (Ha & Hb & Hc & Hd).
  unfold Ssrf.v4_blocked, v4_is_loopback, v4_is_private, v4_is_link_local, v4_is_unspecified,
    v4_is_broadcast, v4_is_documentation, v4_is_multicast.
  rewrite land_192 by done.
  assert (H16 : (o1 a / 16 = 1 <-> 16 <= o1 a <= 31)%Z)
    by (Z.to_euclidean_division_equations; lia).
  assert (H4 : (o0 a / 16 = 14 <-> 224 <= o0 a <= 239)%Z)
    by (Z.to_euclidean_division_equations; lia).
  rewrite H16, H4. generalize (o1 a / 64)%Z. clear H16 H4. intros q.
  rewrite !orb_true_iff, !andb_true_iff, !Z.eqb_eq, !Z.leb_le.
  split; intros H; decompose [or and] H; clear H; first [tauto | lia].
Qed.

(** ** Properties *)

(** The IPv4 part of the egress guard is exactly a list of twelve networks (loopback, the private
    ranges, link-local, CGNAT, documentation, multicast, broadcast and 0/8), for every address, IPv4
    mapped into IPv6 included; other special-purpose ranges are let through: reserved 240/4,
    benchmarking 198.18/15 and protocol assignments 192.0.0/24. *)
Theorem v4_guard_is_a_network_list (a : Ipv4) (Ha : valid_v4 a) :
  (Ssrf.ip_is_blocked (V4 a) = true <-> Exists (in_net a) blocked_nets) /\
  (Ssrf.ip_is_blocked
     (V6 [0; 0; 0; 0; 0; 65535; o0 a * 256 + o1 a; o2 a * 256 + o3 a]%Z) = true
   <-> Exists (in_net a) blocked_nets) /\
  (In a [{| o0 := 240; o1 := 0; o2 := 0; o3 := 1 |}; {| o0 := 198; o1 := 18; o2 := 0; o3 := 1 |};
         {| o0 := 192; o1 := 0; o2 := 0; o3 := 1 |}]%Z -> Ssrf.ip_is_blocked (V4 a) = false).
Proof.
  split; [by apply v4_blocked_cases|]. split.
  - unfold Ssrf.ip_is_blocked. unfold to_ipv4_mapped. cbn [seq forallb seg nth Z.eqb andb Pos.eqb].
    rewrite !(Z.land_ones _ 8) by lia. rewrite !Z.shiftr_div_pow2 by lia.
    change (2 ^ 8)%Z with 256%Z.
    destruct Ha as (H0 & H1 & H2 & H3). unfold octet in *.
    rewrite !Z.div_add_l, !(Z.div_small (o1 a)), !(Z.div_small (o3 a)), !Z.add_0_r by lia.
    rewrite !(Z.add_comm (_ * 256)), !Z.mod_add, !(Z.mod_small (o1 a)), !(Z.mod_small (o3 a)) by lia.
    destruct a as [a b c d]. apply v4_blocked_cases. repeat split; apply H0 || apply H1 || apply H2 || apply H3.
  - intros [<- | [<- | [<- | []]]]; reflexivity.
Qed.

Lemma v4_guard_is_a_network_list_witness :
  Ssrf.ip_is_blocked (V4 {| o0 := 240; o1 := 0; o2 := 0; o3 := 1 |}) = false.
Proof.
  apply (v4_guard_is_a_network_list {| o0 := 240; o1 := 0; o2 := 0; o3 := 1 |}).
  - unfold valid_v4, octet. cbn. lia.
  - left. reflexivity.
Defined.

(** No literal address gets past the guards: every dotted quad is recognised as the address it
    denotes and is blocked exactly when that address is; and whatever the URL parser, resolver and
    input are, a URL the web tools or the provider client accept never has a blocked literal host, and
    the guarded resolver returns a non-empty list of unblocked addresses. *)
Theorem accepted_targets_are_public (a b c d : Z) (url_parse : string -> option Ssrf.Url)
  (Ho : octet a /\ octet b /\ octet c /\ octet d) :
  Ssrf.host_is_blocked_literal (dotted a b c d)
    = Ssrf.v4_blocked {| o0 := a; o1 := b; o2 := c; o3 := d |} /\
  (forall raw url host ip, Ssrf.classify_url url_parse raw = Ok url ->
     Ssrf.host_str url = Some host -> parse_ip (Ssrf.strip_brackets host) = Some ip ->
     Ssrf.ip_is_blocked ip = false) /\
  (forall raw url ip, Client.validate_base_url_security url_parse raw false = Ok tt ->
     url_parse raw = Some url -> Ssrf.scheme url = "https" /\
     (parse_ip (Ssrf.strip_brackets (unwrap_or (Ssrf.host_str url) "")) = Some ip ->
      Ssrf.ip_is_blocked ip = false)) /\
  (forall lookup host addrs, Ssrf.guarded_resolve lookup host = Ok addrs ->
     addrs <> [] /\ Forall (fun ip => Ssrf.ip_is_blocked ip = false) addrs).
Proof.
  destruct Ho as (Ha & Hb & Hc & Hd). split; [|split; [|split]].
  - unfold Ssrf.host_is_blocked_literal. by rewrite strip_brackets_dotted, parse_dotted.
  - intros raw url host ip. unfold Ssrf.classify_url.
    destruct (url_parse raw) as [u|]; [|done]. cbn [ok_or and_then].
    destruct (_ || _); [|done]. cbn [and_then].
    destruct (Ssrf.host_str u) as [h|] eqn:Hh; [|done]. cbn [ok_or and_then].
    destruct (parse_ip (Ssrf.strip_brackets h)) as [ip'|] eqn:Hip.
    + destruct (Ssrf.ip_is_blocked ip') eqn:Hbl; [done|]. intros [= <-]. rewrite Hh.
      intros [= <-]. rewrite Hip. by intros [= <-].
    + destruct (Ssrf.internal_name _); [done|]. intros [= <-]. rewrite Hh. intros [= <-].
      by rewrite Hip.
  - intros raw url ip Hv Hu. unfold Client.validate_base_url_security in Hv. rewrite Hu in Hv.
    cbn [ok_or and_then] in Hv. destruct (String.eqb_spec (Ssrf.scheme url) "https") as [Hs|]; [|done].
    split; [done|]. cbn [and_then] in Hv. intros Hip.
    unfold Ssrf.host_is_blocked_literal in Hv. rewrite Hip in Hv.
    destruct (Ssrf.ip_is_blocked ip); [|done]. by rewrite orb_true_r in Hv.
  - intros lookup host addrs. unfold Ssrf.guarded_resolve.
    destruct (lookup host) as [l|]; [|done]. cbn [and_then].
    destruct (List.filter (fun a => negb (Ssrf.ip_is_blocked a)) l) as [|x k] eqn:Hf; [done|].
    intros [= <-]. split; [done|]. rewrite <- Hf. apply Forall_forall. intros ip Hin.
    apply list_elem_of_In, filter_In in Hin as [_ Hn]. by apply negb_true_iff in Hn.
Qed.

Lemma accepted_targets_are_public_witness :
  Ssrf.host_is_blocked_literal "172.16.9.9" = true.
Proof.
  apply (accepted_targets_are_public 172 16 9 9 (fun _ => None)).
  unfold octet. lia.
Defined.

(** The base-URL mess is normalised: for any base that carries no trailing slash or version, the
    bare form, the same with a trailing slash, with [/v1] and with [/beta] all give the same endpoint,
    [base/v1/path]. *)
Theorem versioned_base_url_normalises (base path : string)
  (Hslash : Str.ends_with "/" base = false) (Hv1 : Str.ends_with "/v1" base = false)
  (Hbeta : Str.ends_with "/beta" base = false) :
  let url := base +:+ "/v1/" +:+ Str.trim_start_matches ["/"] path in
  Client.versioned_base_url base path = url /\
  Client.versioned_base_url (base +:+ "/") path = url /\
  Client.versioned_base_url (base +:+ "/v1") path = url /\
  Client.versioned_base_url (base +:+ "/beta") path = url.
Proof.
  apply Str.ends_with_false in Hslash, Hv1 as Hv1', Hbeta as Hbeta'. cbn zeta.
  assert (H1 : Str.ends_with "/beta" (base +:+ "/v1") = false).
  { apply Str.ends_with_false. change "/v1" with ("/v" +:+ "1"). rewrite <- Str.app_assoc.
    by apply (Str.strip_suffix_last "/bet"). }
  assert (H2 : Str.trim_end_matches ["/"] (base +:+ "/v1") = base +:+ "/v1").
  { apply Str.trim_end_stop. change "/v1" with ("/v" +:+ "1"). rewrite <- Str.app_assoc.
    by apply (Str.strip_suffix_last ""). }
  assert (H3 : Str.trim_end_matches ["/"] (base +:+ "/beta") = base +:+ "/beta").
  { apply Str.trim_end_stop. change "/beta" with ("/bet" +:+ "a"). rewrite <- Str.app_assoc.
    by apply (Str.strip_suffix_last ""). }
  unfold Client.versioned_base_url. rewrite H2, H3, (Str.trim_end_stop "/" base Hslash),
    (Str.trim_end_one "/" base), Hv1, Hbeta, H1, !Str.ends_with_app,
    (Str.trim_end_one "/beta" base) by done.
  by rewrite !Str.app_assoc.
Qed.

Lemma versioned_base_url_normalises_witness :
  Client.versioned_base_url "https://api.deepseek.com/beta" "chat/completions"
  = "https://api.deepseek.com/v1/chat/completions".
Proof.
  apply (versioned_base_url_normalises "https://api.deepseek.com" "chat/completions"); reflexivity.
Defined.

(** Backoff is bounded and a provider hint wins: without a usable hint the delay never exceeds
    the policy's cap nor 1.1 times the exponential step, and reaches 0.9 times the step unless capped;
    a non-negative hint is used exactly as given, above the cap too; for bases up to 10^9 ms no step of the
    computation saturates. *)
Theorem backoff_bounds (p : Retry.RetryPolicy) (attempt byte : Z)
  (Hbase : (0 <= Retry.base_ms p <= 1000000000)%Z) (Hmax : (0 <= Retry.max_ms p)%Z)
  (Hatt : (0 <= attempt <= Int.u32_max)%Z) (Hbyte : (0 <= byte <= 255)%Z) :
  (let e := Retry.base_ms p * 2 ^ Z.max 0 (Z.min (attempt - 1) 20) in
   let d := Retry.backoff_delay_ms p attempt None byte in
   0 <= d <= Retry.max_ms p /\ d <= e * 1100 / 1000 /\
   (d = Retry.max_ms p \/ e * 900 / 1000 <= d))%Z /\
  (forall r, (0 <= r)%Z -> Retry.backoff_delay_ms p attempt (Some r) byte = r) /\
  (forall r, (r < 0)%Z -> Retry.backoff_delay_ms p attempt (Some r) byte
                         = Retry.backoff_delay_ms p attempt None byte).
Proof.
  split; [|split].
  - cbn zeta. unfold Retry.backoff_delay_ms. cbn [opt_filter].
    assert (Hs : Z.min (Int.sat_u32 (attempt - 1)) 20 = Z.max 0 (Z.min (attempt - 1) 20))
      by (unfold Int.sat_u32, Int.u32_max in *; lia).
    rewrite Hs, Z.shiftl_1_l. set (k := Z.max 0 (Z.min (attempt - 1) 20)).
    assert (Hk : (1 <= 2 ^ k <= 2 ^ 20)%Z).
    { split; [apply (Z.pow_le_mono_r 2 0 k); lia|apply Z.pow_le_mono_r; lia]. }
    change (2 ^ 20)%Z with 1048576%Z in Hk.
    set (e := (Retry.base_ms p * 2 ^ k)%Z).
    assert (He : (0 <= e <= 1048576000000000)%Z) by (unfold e; nia).
    assert (Hsat : Retry.saturating_mul_u64 (Retry.base_ms p) (2 ^ k) = e).
    { unfold Retry.saturating_mul_u64, Int.sat_u64, Int.u64_max. fold e. lia. }
    rewrite Hsat. clear Hsat.
    assert (Hj : (900 <= Retry.jitter_factor_milli byte <= 1100)%Z).
    { unfold Retry.jitter_factor_milli. Z.to_euclidean_division_equations. lia. }
    set (j := Retry.jitter_factor_milli byte) in *.
    assert (Hej : (0 <= e * j <= 2000000000000000000)%Z) by nia.
    unfold Retry.saturating_mul_u64, Int.sat_u64, Int.u64_max.
    rewrite (Z.min_r _ (e * j)), (Z.max_r 0 (e * j)) by lia.
    assert (e * j <= e * 1100)%Z by nia. assert (e * 900 <= e * j)%Z by nia.
    pose proof (Z.div_le_mono (e * j) (e * 1100) 1000 ltac:(lia) ltac:(lia)) as Hup.
    pose proof (Z.div_le_mono (e * 900) (e * j) 1000 ltac:(lia) ltac:(lia)) as Hlow.
    pose proof (Z.div_pos (e * j) 1000 ltac:(lia) ltac:(lia)) as Hpos.
    revert Hup Hlow Hpos. generalize (e * j / 1000)%Z (e * 1100 / 1000)%Z (e * 900 / 1000)%Z.
    clear - Hmax. intros. lia.
  - intros r Hr. unfold Retry.backoff_delay_ms. cbn [opt_filter].
    rewrite (proj2 (Z.leb_le 0 r) Hr). lia.
  - intros r Hr. unfold Retry.backoff_delay_ms. cbn [opt_filter].
    by rewrite (proj2 (Z.leb_gt 0 r) Hr).
Qed.

Lemma backoff_bounds_witness :
  Retry.backoff_delay_ms Retry.default_policy 3 (Some 120000%Z) 7 = 120000%Z.
Proof.
  apply (backoff_bounds Retry.default_policy 3 7); vm_compute; try split; discriminate.
Defined.
