(* ===== verification/Dispatch.v ===== *)
(** * The provider bridge

    [PromptCache]: [router/src/prompt_cache.rs]. [HttpDispatch]: [router/src/dispatch_http.rs], the
    recovery loop around one model call: route, credential, request, response, and then rotate, fall
    back, back off or abort. The network, the clock, the credential store and the cancellation token
    are operations on an opaque world [W]; sends, credential write-backs and sleeps are recorded in a
    trace. *)
From S2P Require Import Prelude RustStr Json Protocol Classify Pool Providers Transports Turn HttpClient.
From stdpp Require Import pretty.

#[local] Open Scope string_scope.
#[local] Open Scope list_scope.

Module PromptCache.
(* src/qcue-rs/router/src/prompt_cache.rs 6-9 build_system_prompt *)
Definition build_system_prompt (parts : list string) : string := Str.join (Str.lf +:+ Str.lf) parts.

(* src/qcue-rs/router/src/prompt_cache.rs 11-18 hash_bytes *)
Definition hash_bytes (s : string) : Z :=
  foldl (fun h b => Int.wrap_u64 (Int.wrap_u64 (h * 33) + Z.of_nat (nat_of_ascii b))) 5381%Z
    (String.list_ascii_of_string s).

Definition ephemeral : Value := obj [("type", jstr "ephemeral")].

(* src/qcue-rs/router/src/prompt_cache.rs 61-66 mark_block_cache_control *)
Definition mark_block_cache_control (block : Value) : Value :=
  match block with
  | Object m => Object (JMap.insert "cache_control" ephemeral m)
  | _ => block
  end.

(** [if let Some(last) = blocks.last_mut() { f(last) }] *)
Fixpoint map_last {A} (f : A -> A) (l : list A) : list A :=
  match l with
  | [] => []
  | [x] => [f x]
  | x :: l => x :: map_last f l
  end.

(** Writing through [get_mut(k)] when the field is an array. *)
Definition update_array (k : string) (f : list Value -> list Value) (m : JMap.t) : JMap.t :=
  match JMap.get k m with
  | Some (Array l) => JMap.insert k (Array (f l)) m
  | _ => m
  end.

Definition has_blocks (v : Value) : bool :=
  match get "content" v with Some (Array (_ :: _)) => true | _ => false end.
Definition mark_message (v : Value) : Value :=
  match v with
  | Object m => Object (update_array "content" (map_last mark_block_cache_control) m)
  | _ => v
  end.

(* src/qcue-rs/router/src/prompt_cache.rs 32-46 apply_anthropic_cache_control_to_body *)
Definition mark_system (o : JMap.t) : JMap.t :=
  match JMap.get "system" o with
  | Some (String_ s) =>
      if String.eqb s "" then o
      else JMap.insert "system"
             (Array [obj [("type", jstr "text"); ("text", jstr s); ("cache_control", ephemeral)]]) o
  | _ => update_array "system" (map_last mark_block_cache_control) o
  end.

(* src/qcue-rs/router/src/prompt_cache.rs 20-59 apply_anthropic_cache_control_to_body *)
Definition apply_anthropic_cache_control_to_body (body : Value) : Value :=
  match body with
  | Object o =>
      Object (update_array "messages"
                (fun msgs => unwrap_or (update_last has_blocks mark_message msgs) msgs)
                (mark_system o))
  | _ => body
  end.

(* src/qcue-rs/router/src/prompt_cache.rs 68-73 UsageRecord *)
Record UsageRecord : Type := { request_id : option string; ur_usage : CanonicalUsage }.

(* src/qcue-rs/router/src/prompt_cache.rs 79-92 dedup_usage_by_request_id *)
Definition dedup_step (acc : gmap string CanonicalUsage * CanonicalUsage) (r : UsageRecord)
  : gmap string CanonicalUsage * CanonicalUsage :=
  match request_id r with
  | Some i => (<[i := ur_usage r]> acc.1, acc.2)
  | None => (acc.1, usage_add acc.2 (ur_usage r))
  end.

(** The order in which a map's values are added does not matter: [usage_add_right_comm]. *)
(* src/qcue-rs/router/src/prompt_cache.rs 75-102 dedup_usage_by_request_id *)
Definition dedup_usage_by_request_id (records : list UsageRecord) : CanonicalUsage :=
  let '(by_id, anon) := foldl dedup_step (∅, usage_zero) records in
  foldl usage_add anon ((map_to_list by_id).*2).
End PromptCache.

(** ** One provider call *)
Module HttpDispatch.
(* src/qcue-rs/router/src/resolver.rs 7-22 ResolveError *)
Inductive ResolveError : Type :=
| NotFound
| Decrypt (e : string)
| Db (e : string).

(* src/qcue-rs/router/src/dispatch_http.rs 52-59 endpoint_for *)
Definition endpoint_for (m : ApiMode) : string :=
  match m with
  | ChatCompletions => "chat/completions"
  | AnthropicMessages => "messages"
  | Responses => "responses"
  end.

(* src/qcue-rs/router/src/dispatch_http.rs 61-83 fallback_profile *)
Definition fallback_profile (provider : string) : ProviderProfile := {|
  name := provider; api_mode := ChatCompletions; base_url := ""; models_url := None;
  auth_type := ApiKey; default_headers := ∅; env_http_headers := ∅; fixed_temperature := Inherit;
  default_max_tokens := Some 4096%Z; fallback_models := []; supports_vision := false;
  request_max_retries := 3; stream_idle_timeout_ms := 30000; stream_ttfb_timeout_ms := 60000;
  cache_supported := false; hooks := DefaultHooks |}.

(* src/qcue-rs/router/src/dispatch_http.rs 129-146 deep_merge_object *)
Fixpoint deep_merge_object (base overlay : Value) {struct overlay} : Value :=
  match base, overlay with
  | Object b, Object o =>
      Object ((fix go (o : list (string * Value)) (b : JMap.t) : JMap.t :=
        match o with
        | [] => b
        | (k, v) :: o =>
            go o (match JMap.get k b with
                  | Some existing => JMap.insert k (deep_merge_object existing v) b
                  | None => JMap.insert k v b
                  end)
        end) o b)
  | _, _ => overlay
  end.

Section body.
Context `{Json} (env : option string).

(** [None]: a hook's [body["k"] = v] panicked on a body that is no object. *)
(* src/qcue-rs/router/src/dispatch_http.rs 85-127 build_outbound_body *)
Definition build_outbound_body (profile : ProviderProfile) (model : string) (msgs : list Message)
  (tools : list ToolDef) (params : ReqParams) : option Value :=
  let m := effective_api_mode env profile model in
  let prepared := prepare_messages (hooks profile) msgs in
  let tools_opt := match tools with [] => None | _ => Some tools end in
  let body := build_kwargs (transport_for m) model prepared tools_opt profile params in
  let ctx := {| session_id := rp_session_id params; ctx_model := model |} in
  let body := deep_merge_object body (build_extra_body (hooks profile) (rp_session_id params) ctx) in
  let '(extra_body, top_level) :=
    build_api_kwargs_extras (hooks profile) (rp_reasoning params) ctx in
  let body := deep_merge_object body extra_body in
  let body := match body with
              | Object o => Object (foldl (fun o '(k, v) => JMap.insert k v o) o top_level)
              | _ => body
              end in
  body ← (match rp_reasoning params ≫= effort with
          | Some e => if bool_decide (m = Responses) then Some body
                      else apply_reasoning_effort (hooks profile) body e
          | None => Some body
          end);
  Some (if cache_supported profile && bool_decide (m = AnthropicMessages)
        then PromptCache.apply_anthropic_cache_control_to_body body else body).
End body.

Record HttpRequest : Type := {
  hr_url : string;
  hr_body : Value;
  hr_headers : list (string * string);
}.
Record HttpResponse : Type := {
  hs_status : Z;
  hs_retry_after : option string;
  hs_text : string;
}.
Inductive SendResult : Type :=
| SendCancelled
| SendFailed (e : string)
| Received (r : HttpResponse).

(** [headers]: the profile's static headers, then the credential under each header the profile names,
    as a bearer token on [Authorization]. *)
(* src/qcue-rs/router/src/dispatch_http.rs 241-258 complete *)
Definition request_headers (profile : ProviderProfile) (key : string) : list (string * string) :=
  map_to_list (default_headers profile) ++
  ((fun h => (h, if Str.eq_ignore_ascii_case h "Authorization" then "Bearer " +:+ key else key))
   <$> (map_to_list (env_http_headers profile)).*1) ++
  (if bool_decide (env_http_headers profile = ∅) then [("Authorization", "Bearer " +:+ key)] else []).

(** [Retry-After]: delta-seconds or a date; [parse_http_date]: the parser of the [httpdate] crate, in
    seconds since the epoch; [now_ns]: the system clock. *)
(* src/qcue-rs/router/src/dispatch_http.rs 367-377 parse_retry_after_ms *)
Definition parse_retry_after_ms (parse_http_date : string -> option Z) (now_ns : Z) (v : string)
  : option Z :=
  let v := Str.trim v in
  match Str.parse_i64 v with
  | Some secs => Some (saturating_mul (Z.max secs 0) 1000)
  | None =>
      when_s ← parse_http_date v;
      let d := (when_s * 1000000000 - now_ns)%Z in
      if (d <? 0)%Z then None else Some (Z.min Int.i64_max (d / 1000000))
  end.

(** The trace of a call. A send records the credential it uses with the pool and the time it was
    selected from. *)
Inductive HttpEvent : Type :=
| EvSend (provider : string) (pool : CredentialPool) (now : Z) (cred : PooledCredential)
    (req : HttpRequest)
| EvPersist (provider : string) (pool : CredentialPool)
| EvSleep (ms : Z).

Record Http (W : Type) : Type := {
  is_cancelled : W -> bool * W;
  pool_for : Uuid -> string -> W -> result ResolveError CredentialPool * W;
  decrypt : Uuid -> Uuid -> W -> result ResolveError string * W;
  persist_transitions : Uuid -> string -> CredentialPool -> W -> W;
  timestamp_millis : W -> Z * W;
  system_time_ns : W -> Z * W;
  send : HttpRequest -> W -> SendResult * W;
  sleep_cancelled : Z -> W -> bool * W;
}.
Arguments is_cancelled {W}. Arguments pool_for {W}. Arguments decrypt {W}.
Arguments persist_transitions {W}. Arguments timestamp_millis {W}. Arguments system_time_ns {W}.
Arguments send {W}. Arguments sleep_cancelled {W}.

(* src/qcue-rs/protocol/src/error.rs 53-60 TransportError *)
Definition transport_error_to_string (e : TransportError) : string :=
  match e with
  | MissingField f => "missing field " +:+ f
  | BadShape s => "bad shape: " +:+ s
  end.

Section complete.
Context `{Json} {W : Type} (h : Http W) (env : option string)
  (url_parse : string -> option Ssrf.Url) (parse_http_date : string -> option Z).

(* src/qcue-rs/router/src/dispatch_http.rs 19-27 HttpDispatch *)
Record Config : Type := {
  registry : Registry;
  allow_insecure : bool;
}.

(** The variables of the loop and the chain behind the mutex. *)
Record DispatchState : Type := {
  attempts : Z;
  last_err : ApiError;
  chain : FallbackChain;
  ds_world : W;
  ds_trace : list HttpEvent;
}.

(** How a round ends: the loop goes on, returns, or panics (an empty chain, a hook on a non-object). *)
Inductive Step : Type :=
| Continue
| Return (r : result ApiError NormalizedResponse)
| Panic.

Definition put (s : DispatchState) (c : FallbackChain) (e : ApiError) (w : W)
  (tr : list HttpEvent) : DispatchState := {|
  attempts := attempts s; last_err := e; chain := c; ds_world := w; ds_trace := ds_trace s ++ tr |}.

(** [if self.advance_chain() { continue; } return Err(e)] *)
(* src/qcue-rs/router/src/dispatch_http.rs 45-49 advance_chain *)
Definition fall_back (s : DispatchState) (last : ApiError) (w : W) (tr : list HttpEvent)
  (e : ApiError) : DispatchState * Step :=
  match chain_advance (chain s) with
  | (c, Some _) => (put s c last w tr, Continue)
  | (c, None) => (put s c last w tr, Return (Err e))
  end.

Definition cancelled_err : ApiError := TransportErr "cancelled".

(* src/qcue-rs/router/src/dispatch_http.rs 308-362 complete *)
Definition on_error (cfg : Config) (req : DispatchRequest) (s : DispatchState) (provider : string)
  (pool : CredentialPool) (now_ms : Z) (hint : string) (st : Z) (retry : option Z) (text : string)
  (w : W) (tr : list HttpEvent) : DispatchState * Step :=
  let err := StatusErr st text in
  let ce := classify err {| Classify.provider := provider; retry_after_ms := retry |} in
  match decide_action ce with
  | Rotate =>
      let '(pool, next) := mark_exhausted_and_rotate pool st
        ((fun d => Int.wrap_i64 (now_ms + d)) <$> reset_at_ms ce) (Some hint) now_ms in
      let w := persist_transitions h (dr_tenant req) provider pool w in
      let tr := tr ++ [EvPersist provider pool] in
      if opt_is_some next then (put s (chain s) err w tr, Continue) else fall_back s err w tr err
  | Fallback | Compress => fall_back s err w tr err
  | Backoff =>
      let delay := Z.max 0 (Z.min 30000 (unwrap_or (reset_at_ms ce) 500%Z)) in
      let '(c, w) := sleep_cancelled h delay w in
      let tr := tr ++ [EvSleep delay] in
      (put s (chain s) err w tr, if c then Return (Err cancelled_err) else Continue)
  | AbortCall =>
      if bool_decide (reason ce = AuthPermanent) then
        let pool := set_dead_at (mark_dead pool hint) hint now_ms in
        let w := persist_transitions h (dr_tenant req) provider pool w in
        (put s (chain s) err w (tr ++ [EvPersist provider pool]), Return (Err err))
      else (put s (chain s) err w tr, Return (Err err))
  end.

(* src/qcue-rs/router/src/dispatch_http.rs 287-306 complete *)
Definition on_success (req : DispatchRequest) (s : DispatchState) (provider : string)
  (m : ApiMode) (pool : CredentialPool) (hint text : string) (w : W) (tr : list HttpEvent)
  : DispatchState * Step :=
  let '(pool, healed) := mark_ok pool hint in
  let w := if healed then persist_transitions h (dr_tenant req) provider pool w else w in
  let tr := if healed then tr ++ [EvPersist provider pool] else tr in
  (put s (chain s) (last_err s) w tr,
   Return (match from_str text with
           | Ok v => map_err (fun e => DecodeErr (transport_error_to_string e))
                       (normalize_response (transport_for m) v)
           | Err e => Err (DecodeErr e)
           end)).

(* src/qcue-rs/router/src/dispatch_http.rs 161-363 complete *)
Definition dispatch_round (cfg : Config) (req : DispatchRequest) (s : DispatchState)
  : DispatchState * Step :=
  let '(c, w) := is_cancelled h (ds_world s) in
  if c then (put s (chain s) (last_err s) w [], Return (Err cancelled_err))
  else if (16 <=? attempts s)%Z then (put s (chain s) (last_err s) w [], Return (Err (last_err s)))
  else
  let s := {| attempts := attempts s + 1; last_err := last_err s; chain := chain s;
              ds_world := w; ds_trace := ds_trace s |} in
  match chain_current (chain s) with
  | None => (s, Panic)
  | Some (provider, model, chain_api_mode) =>
  let registered := registry_get (registry cfg) provider in
  let profile := unwrap_or registered (fallback_profile provider) in
  let m := match registered with
           | Some _ => effective_api_mode env profile model
           | None => chain_api_mode
           end in
  let '(p, w) := pool_for h (dr_tenant req) provider w in
  match p with
  | Err _ => fall_back s (last_err s) w [] (TransportErr ("no credentials for " +:+ provider))
  | Ok pool =>
  let '(now_ms, w) := timestamp_millis h w in
  let '(pool', sel) := select pool now_ms in
  match sel with
  | None =>
      fall_back s (last_err s) w [] (TransportErr ("no eligible credential for " +:+ provider))
  | Some cred =>
  let '(k, w) := decrypt h (dr_tenant req) (id cred) w in
  match k with
  | Err _ => fall_back s (last_err s) w [] (TransportErr ("decrypt failed for " +:+ provider))
  | Ok key =>
  match build_outbound_body env profile model (dr_messages req) (dr_tools req) (dr_params req) with
  | None => (put s (chain s) (last_err s) w [], Panic)
  | Some body =>
  if negb (is_ok (Client.validate_base_url_security url_parse (base_url profile)
                    (allow_insecure cfg)))
  then (put s (chain s) (last_err s) w [],
        Return (Err (TransportErr ("insecure base_url rejected for " +:+ provider))))
  else
  let request := {| hr_url := Client.versioned_base_url (base_url profile) (endpoint_for m);
                    hr_body := body; hr_headers := request_headers profile key |} in
  let '(r, w) := send h request w in
  let tr := [EvSend provider pool now_ms cred request] in
  match r with
  | SendCancelled => (put s (chain s) (last_err s) w tr, Return (Err cancelled_err))
  | SendFailed e => fall_back s (TransportErr e) w tr (TransportErr e)
  | Received resp =>
  let '(now_ns, w) := system_time_ns h w in
  let retry := hs_retry_after resp ≫= parse_retry_after_ms parse_http_date now_ns in
  if (200 <=? hs_status resp)%Z && (hs_status resp <? 300)%Z
  then on_success req s provider m pool' (key_hint cred) (hs_text resp) w tr
  else on_error cfg req s provider pool' now_ms (key_hint cred) (hs_status resp) retry
         (hs_text resp) w tr
  end end end end end end.

Fixpoint dispatch_loop (fuel : nat) (cfg : Config) (req : DispatchRequest) (s : DispatchState)
  : DispatchState * Step :=
  match fuel with
  | O => (s, Continue)
  | S fuel =>
      match dispatch_round cfg req s with
      | (s, Continue) => dispatch_loop fuel cfg req s
      | r => r
      end
  end.

Definition dispatch_init (c : FallbackChain) (w : W) : DispatchState := {|
  attempts := 0; last_err := TransportErr "no provider attempted"; chain := c; ds_world := w;
  ds_trace := [] |}.

(** Sixteen attempts and the round that gives up: 17 rounds of fuel ([complete_terminates]). *)
(* src/qcue-rs/router/src/dispatch_http.rs 150-364 complete *)
Definition complete (cfg : Config) (req : DispatchRequest) (c : FallbackChain) (w : W)
  : DispatchState * Step :=
  dispatch_loop 17 cfg req (dispatch_init c w).
End complete.
End HttpDispatch.
Import HttpDispatch.

(** ** Lemmas: request bodies *)
Section bodies.
Context `{Json}.

Lemma build_kwargs_object (m : ApiMode) model msgs tools p params :
  exists o, build_kwargs (transport_for m) model msgs tools p params = Object o.
Proof. destruct m; by eexists. Qed.

Lemma deep_merge_empty (o : JMap.t) : deep_merge_object (Object o) (obj []) = Object o.
Proof. reflexivity. Qed.

(** A profile with the default body hooks whose effort hook succeeds on objects. *)
Definition plain_hooks (hk : ProviderHooks) : Prop :=
  (forall s c, build_extra_body hk s c = obj []) /\
  (forall r c, build_api_kwargs_extras hk r c = (obj [], [])) /\
  (forall o e, exists o', apply_reasoning_effort hk (Object o) e = Some (Object o')).

Lemma build_outbound_body_total env p model msgs tools params :
  plain_hooks (hooks p) ->
  exists o, build_outbound_body env p model msgs tools params = Some (Object o).
Proof.
  intros (Hx & Hk & He). unfold build_outbound_body. rewrite Hx, Hk.
  destruct (build_kwargs_object (effective_api_mode env p model) model
    (prepare_messages (hooks p) msgs)
    (match tools with [] => None | _ => Some tools end) p params) as [o ->].
  rewrite !deep_merge_empty. cbn [foldl].
  assert (Hbody : exists o', (match rp_reasoning params ≫= effort with
     | Some e => if bool_decide (effective_api_mode env p model = Responses) then Some (Object o)
                 else apply_reasoning_effort (hooks p) (Object o) e
     | None => Some (Object o) end) = Some (Object o')).
  { destruct (rp_reasoning params ≫= effort) as [e|]; [|by eexists].
    destruct (bool_decide _); [by eexists|]. apply He. }
  destruct Hbody as [o' ->]. cbn [mbind option_bind]. case_match; by eexists.
Qed.

Lemma registered_plain (n : string) (p : ProviderProfile) :
  registry_get register_all n = Some p -> plain_hooks (hooks p).
Proof.
  assert (Hd : plain_hooks DefaultHooks) by (repeat split; by eexists).
  unfold registry_get, register_all. intros Hn.
  repeat match type of Hn with
  | <[_ := _]> _ !! _ = _ =>
      apply lookup_insert_Some in Hn as [[_ <-] | [_ Hn]]; [try exact Hd|]
  end; [..|discriminate Hn]; (split; [done|]; split; [done|]); intros o e.
  - destruct e; by eexists.
  - destruct e; by eexists.
  - cbn [Anthropic.profile hooks effort_hooks apply_reasoning_effort].
    unfold Anthropic.anthropic_apply_reasoning_effort.
    destruct (Anthropic.anthropic_budget_tokens e) as [b|]; [|by eexists].
    cbn [index_mut mbind option_bind]. case_match; cbn [index_mut mbind option_bind]; by eexists.
  - cbn. unfold OpenAi.openai_apply_reasoning_effort. case_match; by eexists.
Qed.
End bodies.

(** ** Lemmas: one round *)
Definition is_send (e : HttpEvent) : bool := match e with EvSend _ _ _ _ _ => true | _ => false end.
Definition sends (tr : list HttpEvent) : nat := length (List.filter is_send tr).

(** Every send uses a credential that was eligible in the pool it came from. *)
Definition send_ok (e : HttpEvent) : Prop :=
  match e with
  | EvSend _ pool now cred _ => cred ∈ entries pool /\ eligible pool cred now = true
  | _ => True
  end.
Definition chain_ok (c : FallbackChain) : Prop := (idx c < length (links c))%nat.

Lemma chain_advance_ok (c c' : FallbackChain) o :
  chain_advance c = (c', o) -> chain_ok c -> chain_ok c' /\ links c' = links c.
Proof.
  unfold chain_advance, chain_ok. case_match eqn:Hlt; intros [= <- <-]; [|done].
  apply Nat.ltb_lt in Hlt. done.
Qed.

Section rounds.
Context `{Json} {W : Type} (h : Http W) (env : option string)
  (url_parse : string -> option Ssrf.Url) (parse_http_date : string -> option Z).

(** What the tail of a round, after its send, does to the state. *)
Definition tail_ok (s : @DispatchState W) (tr : list HttpEvent) (r : @DispatchState W * Step) : Prop :=
  (exists q, ds_trace r.1 = ds_trace s ++ tr ++ q /\ sends q = 0%nat /\ Forall send_ok q) /\
  attempts r.1 = attempts s /\ (chain_ok (chain s) -> chain_ok (chain r.1)) /\ r.2 <> Panic.

Lemma tail_ok_put s c e w tr q st :
  sends q = 0%nat -> Forall send_ok q -> (chain_ok (chain s) -> chain_ok c) -> st <> Panic ->
  tail_ok s tr (put s c e w (tr ++ q), st).
Proof. intros. split; [by exists q|]. by repeat split. Qed.

Lemma tail_ok_put0 s c e w tr st :
  (chain_ok (chain s) -> chain_ok c) -> st <> Panic -> tail_ok s tr (put s c e w tr, st).
Proof. intros. rewrite <- (app_nil_r tr) at 2. by apply tail_ok_put. Qed.

Lemma fall_back_tail s last w tr q e :
  sends q = 0%nat -> Forall send_ok q -> tail_ok s tr (fall_back s last w (tr ++ q) e).
Proof.
  intros Hq Ho. unfold fall_back. destruct (chain_advance (chain s)) as [c o] eqn:Hc.
  destruct o; (apply tail_ok_put; [done|done| |done]; intros Hok;
    by destruct (chain_advance_ok _ _ _ Hc Hok)).
Qed.

Lemma fall_back_tail0 s last w tr e : tail_ok s tr (fall_back s last w tr e).
Proof. rewrite <- (app_nil_r tr) at 2. by apply fall_back_tail. Qed.

Lemma on_error_tail cfg req s provider pool now hint st retry text w tr :
  tail_ok s tr (on_error h cfg req s provider pool now hint st retry text w tr).
Proof.
  unfold on_error. destruct (decide_action _).
  - destruct (mark_exhausted_and_rotate _ _ _ _ _) as [pool' next].
    destruct (opt_is_some next); [apply tail_ok_put|apply fall_back_tail]; by repeat constructor.
  - apply fall_back_tail0.
  - apply fall_back_tail0.
  - destruct (sleep_cancelled _ _ _) as [c w']. apply tail_ok_put; try done; [by repeat constructor|].
    by destruct c.
  - destruct (bool_decide _); [apply tail_ok_put|apply tail_ok_put0]; by repeat constructor.
Qed.

Lemma on_success_tail req s provider m pool hint text w tr :
  tail_ok s tr (on_success h req s provider m pool hint text w tr).
Proof.
  unfold on_success. destruct (mark_ok pool hint) as [pool' [|]];
    [apply tail_ok_put|apply tail_ok_put0]; by repeat constructor.
Qed.

(** A whole round. *)
Definition round_ok (s : @DispatchState W) (r : @DispatchState W * Step) : Prop :=
  (exists evs, ds_trace r.1 = ds_trace s ++ evs /\ Forall send_ok evs /\
     (Z.of_nat (sends evs) <= attempts r.1 - attempts s)%Z) /\
  (attempts s <= attempts r.1 <= Z.max 16 (attempts s))%Z /\
  (r.2 = Continue -> (attempts r.1 = attempts s + 1)%Z) /\
  chain_ok (chain r.1) /\ r.2 <> Panic.

Lemma sends_app (a b : list HttpEvent) : sends (a ++ b) = (sends a + sends b)%nat.
Proof. unfold sends. by rewrite List.filter_app, length_app. Qed.

(** The state inside a round, after the attempt was counted. *)
Lemma tail_round_ok s s1 tr r :
  (attempts s < 16)%Z -> chain_ok (chain s) ->
  ds_trace s1 = ds_trace s -> attempts s1 = (attempts s + 1)%Z -> chain s1 = chain s ->
  (sends tr <= 1)%nat -> Forall send_ok tr -> tail_ok s1 tr r -> round_ok s r.
Proof.
  intros Ha Hc Ht Hat Hch Hs Hok ((q & Hq & Hq0 & Hqok) & Hra & Hrc & Hp).
  split; [|split; [lia|split; [lia|split; [|done]]]].
  - exists (tr ++ q). rewrite Hq, Ht. split; [done|]. split; [by apply Forall_app_2'|].
    rewrite sends_app. lia.
  - apply Hrc. by rewrite Hch.
Qed.

Definition bodies_total (cfg : Config) : Prop :=
  forall n p, registry_get (registry cfg) n = Some p -> plain_hooks (hooks p).

Lemma dispatch_round_ok cfg req s :
  bodies_total cfg -> chain_ok (chain s) ->
  round_ok s (dispatch_round h env url_parse parse_http_date cfg req s).
Proof.
  intros Hb Hc. unfold dispatch_round. destruct (is_cancelled h (ds_world s)) as [c w0].
  assert (Hret : forall w e, round_ok s (put s (chain s) (last_err s) w [], Return e)).
  { intros w e. split; [exists []; split; [done|split; [constructor|cbn; lia]]|].
    split; [cbn; lia|]. by repeat split. }
  destruct c; [apply Hret|]. destruct (Z.leb_spec 16 (attempts s)); [apply Hret|].
  clear Hret. destruct (lookup_lt_is_Some_2 _ _ Hc) as [[[provider model] cm] Hlink].
  cbn [chain]. unfold chain_current. rewrite Hlink.
  set (profile := unwrap_or _ _).
  assert (Hplain : plain_hooks (hooks profile)).
  { unfold profile. destruct (registry_get (registry cfg) provider) as [p|] eqn:Hp; [by eapply Hb|].
    repeat split; by eexists. }
  set (s1 := {| attempts := _ |}).
  assert (Htail : forall tr r, (sends tr <= 1)%nat -> Forall send_ok tr -> tail_ok s1 tr r ->
                  round_ok s r) by (intros; by eapply (tail_round_ok s s1)).
  destruct (pool_for h _ provider w0) as [[pool|e] w1];
    [|apply (Htail []); [cbn; lia|constructor|apply fall_back_tail0]].
  destruct (timestamp_millis h w1) as [now w2].
  destruct (select pool now) as [pool' [cred|]] eqn:Hsel;
    [|apply (Htail []); [cbn; lia|constructor|apply fall_back_tail0]].
  destruct (decrypt h _ (id cred) w2) as [[key|e] w3];
    [|apply (Htail []); [cbn; lia|constructor|apply fall_back_tail0]].
  destruct (build_outbound_body_total env profile model (dr_messages req) (dr_tools req)
    (dr_params req) Hplain) as [o ->].
  destruct (negb _); [apply (Htail []); [cbn; lia|constructor|by apply tail_ok_put0]|].
  set (request := {| hr_url := _ |}).
  assert (Hsend : Forall send_ok [EvSend provider pool now cred request]).
  { constructor; [|constructor]. destruct (eligible_selected pool now cred) as [? ?]; [|done].
    by rewrite Hsel. }
  destruct (send h request w3) as [[|e|resp] w4];
    [|apply (Htail [EvSend provider pool now cred request]); [done|done|apply fall_back_tail0]|].
  { apply (Htail [EvSend provider pool now cred request]); [done|done|by apply tail_ok_put0]. }
  destruct (system_time_ns h w4) as [ns w5].
  apply (Htail [EvSend provider pool now cred request]); [done|done|].
  destruct (_ && _); [apply on_success_tail|apply on_error_tail].
Qed.

Lemma dispatch_loop_ok cfg req (fuel : nat) s :
  bodies_total cfg -> chain_ok (chain s) -> (0 <= attempts s <= 16)%Z ->
  (17 <= Z.of_nat fuel + attempts s)%Z ->
  exists s' r, dispatch_loop h env url_parse parse_http_date fuel cfg req s = (s', Return r) /\
    chain_ok (chain s') /\
    (exists evs, ds_trace s' = ds_trace s ++ evs /\ Forall send_ok evs /\
       (Z.of_nat (sends evs) <= 16 - attempts s)%Z).
Proof.
  intros Hb. revert s. induction fuel as [|fuel IH]; intros s Hc H0 Hf.
  - lia.
  - cbn [dispatch_loop]. pose proof (dispatch_round_ok cfg req s Hb Hc) as Hr.
    destruct (dispatch_round h env url_parse parse_http_date cfg req s) as [s' st].
    destruct Hr as ((evs & Htr & Hok & Hn) & Ha & Hcont & Hc' & Hp). cbn [fst snd] in *.
    destruct st as [|r|]; [|exists s', r; split; [done|]; split; [done|]; exists evs; split; [done|];
      split; [done|lia]|done].
    specialize (Hcont eq_refl).
    destruct (IH s') as (s2 & r & Hl & Hc2 & evs' & Htr' & Hok' & Hn'); [done|lia|lia|].
    exists s2, r. split; [done|]. split; [done|]. exists (evs ++ evs'). rewrite Htr', Htr, app_assoc.
    split; [done|]. split; [by apply Forall_app_2'|]. rewrite sends_app. lia.
Qed.
End rounds.

(** ** Properties *)

(** C4: a provider call always returns after at most 16 requests, whatever the network, the credential
    store and the clock do: the recovery loop cannot spin or panic, and every request it sends uses a
    credential of the pool read for it that was eligible at that moment. *)
Theorem complete_terminates `{Json} {W} (h : Http W) env url_parse parse_http_date
  (cfg : Config) (req : DispatchRequest) (c : FallbackChain) (w : W)
  (Hbodies : bodies_total cfg) (Hchain : (idx c < length (links c))%nat) :
  exists s r, complete h env url_parse parse_http_date cfg req c w = (s, Return r) /\
    (sends (ds_trace s) <= 16)%nat /\ Forall send_ok (ds_trace s).
Proof.
  destruct (dispatch_loop_ok h env url_parse parse_http_date cfg req 17 (dispatch_init c w))
    as (s & r & Hl & _ & evs & Htr & Hok & Hn); [done|done|done|done|].
  exists s, r. split; [exact Hl|]. rewrite Htr. split; [|done].
  cbn [dispatch_init attempts ds_trace app] in *. lia.
Qed.

(** A network that answers every request with one response, over one healthy credential. *)
Definition demo_http (resp : HttpResponse) (pool : CredentialPool) : Http unit := {|
  is_cancelled := fun w => (false, w);
  pool_for := fun _ _ w => (Ok pool, w);
  decrypt := fun _ _ w => (Ok "sk-1", w);
  persist_transitions := fun _ _ _ w => w;
  timestamp_millis := fun w => (1000%Z, w);
  system_time_ns := fun w => (1000000000%Z, w);
  send := fun _ w => (Received resp, w);
  sleep_cancelled := fun _ w => (false, w) |}.
Definition demo_request : DispatchRequest := {|
  dr_messages := [text_message User (Some "hi")]; dr_tools := [];
  dr_params := params demo_turn; dr_tenant := 0%N |}.
Definition demo_config : Config := {| registry := register_all; allow_insecure := true |}.
Definition one_key : CredentialPool := pool_new [demo_cred 1%N "k" 0 CredOk] FillFirst.
Definition one_link : FallbackChain := chain_new [("deepseek", "deepseek-chat", ChatCompletions)].

Lemma demo_bodies : bodies_total demo_config.
Proof. exact registered_plain. Qed.

Lemma complete_terminates_witness :
  exists s r, @complete no_json unit
    (demo_http {| hs_status := 503; hs_retry_after := None; hs_text := "" |} one_key)
    None (fun _ => None) (fun _ => None) demo_config demo_request one_link tt = (s, Return r) /\
    (sends (ds_trace s) <= 16)%nat.
Proof.
  destruct (@complete_terminates no_json unit
    (demo_http {| hs_status := 503; hs_retry_after := None; hs_text := "" |} one_key)
    None (fun _ => None) (fun _ => None) demo_config demo_request one_link tt
    demo_bodies (le_n 1)) as (s & r & H & Hs & _).
  exists s, r. split; [exact H|exact Hs].
Defined.

(** C21: a terminal authentication failure is final and recorded: when the response to a request names
    one, the call returns that error at once, and the pool written back has the credential dead, with
    its time of death. *)
Theorem terminal_auth_is_recorded `{Json} {W} (h : Http W) (cfg : Config) (req : DispatchRequest)
  (s : @DispatchState W) (provider : string) (pool : CredentialPool) (now st : Z) (hint : string)
  (c : PooledCredential) (retry : option Z) (text : string) (w : W) (tr : list HttpEvent)
  (Hterm : any_in TERMINAL_AUTH (extract_message (StatusErr st text)) = true)
  (Hc : find_hint pool hint = Some c) :
  exists s' pool' c',
    on_error h cfg req s provider pool now hint st retry text w tr
      = (s', Return (Err (StatusErr st text))) /\
    ds_trace s' = ds_trace s ++ tr ++ [EvPersist provider pool'] /\
    ds_world s' = persist_transitions h (dr_tenant req) provider pool' w /\
    find_hint pool' hint = Some c' /\ status c' = CredDead /\ dead_at pool' !! hint = Some now /\
    forall later, eligible pool' c' later = false.
Proof.
  unfold on_error.
  assert (Hce : forall ctx, reason (classify (StatusErr st text) ctx) = AuthPermanent /\
                       decide_action (classify (StatusErr st text) ctx) = AbortCall).
  { intros ctx. unfold classify, classify_reason. rewrite Hterm. done. }
  set (ctx := {| Classify.provider := provider; retry_after_ms := retry |}).
  destruct (Hce ctx) as [-> ->]. cbn [bool_decide].
  set (dead := set_status CredDead (last_error_code c) c).
  do 2 eexists. exists dead. split; [reflexivity|]. split; [reflexivity|]. split; [reflexivity|].
  split; [|split; [done|split; [apply lookup_insert_eq|done]]].
  pose proof (find_hint_find_mut pool hint (fun c => set_status CredDead (last_error_code c) c)
    ltac:(done)) as Hf. rewrite Hc in Hf. exact Hf.
Qed.

Lemma terminal_auth_is_recorded_witness :
  exists s' pool', on_error (H := no_json)
    (demo_http {| hs_status := 400; hs_retry_after := None; hs_text := "" |} one_key)
    demo_config demo_request (dispatch_init one_link tt) "deepseek" one_key 1000 "k" 400 None
    "invalid_grant" tt [] = (s', Return (Err (StatusErr 400 "invalid_grant"))) /\
    dead_at pool' !! "k" = Some 1000%Z.
Proof.
  destruct (@terminal_auth_is_recorded no_json unit
    (demo_http {| hs_status := 400; hs_retry_after := None; hs_text := "" |} one_key)
    demo_config demo_request (dispatch_init one_link tt) "deepseek" one_key 1000 400 "k"
    (demo_cred 1%N "k" 0 CredOk) None "invalid_grant" tt [] eq_refl eq_refl)
    as (s' & pool' & c' & H & _ & _ & _ & _ & Hd & _).
  exists s', pool'. split; [exact H|exact Hd].
Defined.

(** How long a rotated credential cools: a retry hint of [d] ms parks it for exactly
    [min d 5min], as long as [now + d] fits an [i64]; hints read from a [Retry-After] header are never
    negative. But a saturated hint makes the sum wrap: the cooldown ends in the past and the credential
    that was just rate limited is eligible, and selected, again at once. *)
Theorem rotation_cooldown (now st d : Z) (Hnow : (0 <= now <= Int.i64_max - MAX_COOLDOWN_MS)%Z) :
  ((0 <= d <= Int.i64_max - now)%Z ->
   cooldown_until st (Some (Int.wrap_i64 (now + d))) now = (now + Z.min d MAX_COOLDOWN_MS)%Z) /\
  (forall date ns v r, parse_retry_after_ms date ns v = Some r -> (0 <= r <= Int.i64_max)%Z) /\
  ((0 < now)%Z ->
   parse_retry_after_ms (fun _ => None) 0 "9223372036854775807" = Some Int.i64_max /\
   (cooldown_until st (Some (Int.wrap_i64 (now + Int.i64_max))) now < now)%Z /\
   is_Some (mark_exhausted_and_rotate one_key st (Some (Int.wrap_i64 (now + Int.i64_max)))
              (Some "k") now).2).
Proof.
  unfold MAX_COOLDOWN_MS, Int.i64_max in *.
  assert (Hm : Int.wrap_i64 (now + 5 * 60 * 1000) = (now + 5 * 60 * 1000)%Z).
  { apply Int.wrap_i64_small. unfold Int.in_i64, Int.i64_min, Int.i64_max. lia. }
  split; [|split].
  - intros Hd. unfold cooldown_until, MAX_COOLDOWN_MS. cbn [unwrap_or]. rewrite Hm.
    rewrite Int.wrap_i64_small by (unfold Int.in_i64, Int.i64_min, Int.i64_max; lia). lia.
  - intros date ns v r. unfold parse_retry_after_ms.
    destruct (Str.parse_i64 (Str.trim v)) as [n|].
    + intros [= <-]. apply saturating_mul_range; lia.
    + destruct (date (Str.trim v)) as [t|]; [|done]. cbn [mbind option_bind].
      destruct (Z.ltb_spec (t * 1000000000 - ns) 0); [done|]. intros [= <-].
      pose proof (Z.div_pos (t * 1000000000 - ns) 1000000 ltac:(lia) ltac:(lia)).
      unfold Int.i64_max. lia.
  - intros Hpos.
    assert (Hw : Int.wrap_i64 (now + 9223372036854775807) = (now - 9223372036854775809)%Z).
    { unfold Int.wrap_i64.
      replace (now + 9223372036854775807 + 9223372036854775808)%Z
        with (now - 1 + 1 * 18446744073709551616)%Z by lia.
      rewrite Z.mod_add, Z.mod_small by lia. lia. }
    assert (Hlt : (cooldown_until st (Some (Int.wrap_i64 (now + 9223372036854775807))) now < now)%Z).
    { unfold cooldown_until, MAX_COOLDOWN_MS. cbn [unwrap_or]. rewrite Hm, Hw. lia. }
    split; [reflexivity|]. split; [exact Hlt|].
    unfold mark_exhausted_and_rotate.
    set (u := cooldown_until _ _ _) in *. set (p := find_mut one_key "k" _).
    destruct (select p now).2 eqn:Hsel; [done|]. exfalso.
    assert (He : eligible_idxs p now <> []).
    { rewrite eligible_idxs_nil. intros Hno.
      specialize (Hno (set_status (CredExhausted u) (Some st) (demo_cred 1%N "k" 0 CredOk))
        ltac:(left)).
      unfold eligible in Hno. cbn in Hno. rewrite (proj2 (Z.leb_le _ _)) in Hno by lia. done. }
    destruct (select_some p now He) as (i & c & _ & _ & Hs & _). congruence.
Qed.

Lemma rotation_cooldown_witness :
  cooldown_until 429 (Some (Int.wrap_i64 (1000 + 60000))) 1000 = 61000%Z.
Proof.
  apply (proj1 (rotation_cooldown 1000 429 60000 ltac:(vm_compute; split; discriminate))).
  vm_compute. split; discriminate.
Defined.
