(* ===== verification/Streams.v ===== *)
(** * Streams: bytes to frames, frames to events

    [Sse]: the frame splitter of [http/src/sse.rs]. [ChatSse], [AnthropicSse], [ResponsesSse]: the three
    parsers of [llm-api] that turn frames into the one internal event type. [Watchdog]: the time-outs
    around a stream. A stream is the list of what it yields; a parser's output is the list of its events
    and the error that ended it, if one did. *)
From S2P Require Import Prelude RustStr Json Protocol Fence Transports.
From stdpp Require Import pretty.
From Stdlib Require Import Sorting.Sorted.

#[local] Open Scope string_scope.
#[local] Open Scope list_scope.

(** ** [String::from_utf8_lossy] *)
Module Utf8.
Definition code (c : ascii) : nat := nat_of_ascii c.
Definition cont (c : ascii) : bool := Str.ascii_in 128 191 c.
(** The range of the second byte after a lead byte of a 3- or 4-byte sequence. *)
Definition second (lead : nat) (c : ascii) : bool :=
  if (lead =? 224)%nat then Str.ascii_in 160 191 c
  else if (lead =? 237)%nat then Str.ascii_in 128 159 c
  else if (lead =? 240)%nat then Str.ascii_in 144 191 c
  else if (lead =? 244)%nat then Str.ascii_in 128 143 c
  else cont c.
Definition replacement : string := Str.bytes [239; 191; 189].

(** The longest valid prefix of [s] that is a character or the start of one: its length and whether
    it is a whole character. *)
Definition char_len (s : string) : nat * bool :=
  match s with
  | EmptyString => (0%nat, false)
  | String a s1 =>
      let n := code a in
      if (n <? 128)%nat then (1%nat, true)
      else if Str.ascii_in 194 223 a then
        match s1 with String b _ => if cont b then (2%nat, true) else (1%nat, false) | _ => (1%nat, false) end
      else if Str.ascii_in 224 239 a then
        match s1 with
        | String b s2 =>
            if second n b then
              match s2 with
              | String c _ => if cont c then (3%nat, true) else (2%nat, false)
              | _ => (2%nat, false)
              end
            else (1%nat, false)
        | _ => (1%nat, false)
        end
      else if Str.ascii_in 240 244 a then
        match s1 with
        | String b s2 =>
            if second n b then
              match s2 with
              | String c s3 =>
                  if cont c then
                    match s3 with
                    | String d _ => if cont d then (4%nat, true) else (3%nat, false)
                    | _ => (3%nat, false)
                    end
                  else (2%nat, false)
              | _ => (2%nat, false)
              end
            else (1%nat, false)
        | _ => (1%nat, false)
        end
      else (1%nat, false)
  end.

Fixpoint lossy_loop (fuel : nat) (s : string) : string :=
  match fuel, s with
  | S fuel, String _ _ =>
      let '(n, whole) := char_len s in
      (if whole then Str.take n s else replacement) +:+ lossy_loop fuel (Str.drop n s)
  | _, _ => ""
  end.
Definition from_utf8_lossy (s : string) : string := lossy_loop (String.length s) s.
End Utf8.

(** ** Frames *)
Module Sse.
(* src/qcue-rs/http/src/sse.rs 6-6 MAX_SSE_BUFFER *)
Definition MAX_SSE_BUFFER : Z := 10 * 1024 * 1024.

(* src/qcue-rs/http/src/sse.rs 8-12 SseFrame *)
Record SseFrame : Type := { event : option string; data : string }.

(* src/qcue-rs/http/src/sse.rs 14-18 SseError *)
Inductive SseError : Type :=
| Overflow
| Io (e : string).

(* src/qcue-rs/http/src/sse.rs 19-26 SseError *)
Definition sse_error_to_string (e : SseError) : string :=
  match e with
  | Overflow => "sse buffer overflow"
  | Io e => "sse io: " +:+ e
  end.

(* src/qcue-rs/http/src/sse.rs 59-66 parse_frame *)
Definition frame_line (acc : option string * list string) (line : string)
  : option string * list string :=
  match Str.strip_prefix "data:" line with
  | Some v => (acc.1, acc.2 ++ [Str.trim_start v])
  | None => match Str.strip_prefix "event:" line with
            | Some v => (Some (Str.trim v), acc.2)
            | None => acc
            end
  end.

(* src/qcue-rs/http/src/sse.rs 56-71 parse_frame *)
Definition parse_frame (raw : string) : option SseFrame :=
  let '(ev, data_lines) := foldl frame_line (None, []) (Str.lines raw) in
  match data_lines, ev with
  | [], None => None
  | _, _ => Some {| event := ev; data := Str.join Str.lf data_lines |}
  end.

Definition sep : string := Str.bytes [10; 10].

(** The inner [while]: the frames complete in the buffer, and the buffer left. Each round removes at
    least the separator, so the length of the buffer is enough fuel. *)
(* src/qcue-rs/http/src/sse.rs 40-44 sse_frames *)
Fixpoint drain (fuel : nat) (buf : string) : list SseFrame * string :=
  match fuel with
  | O => ([], buf)
  | S fuel =>
      match Str.find sep buf with
      | Some i =>
          let '(fs, rest) := drain fuel (Str.drop (i + 2) buf) in
          (match parse_frame (Str.take i buf) with Some f => f :: fs | None => fs end, rest)
      | None => ([], buf)
      end
  end.

(* src/qcue-rs/http/src/sse.rs 46-52 sse_frames *)
Definition last_frame (buf : string) : list SseFrame :=
  if String.eqb (Str.trim buf) "" then []
  else match parse_frame (Str.trim buf) with Some f => [f] | None => [] end.

(** The outer [while] and the tail; the error that ended the stream comes second. *)
(* src/qcue-rs/http/src/sse.rs 31-54 sse_frames *)
Fixpoint frames_loop (buf : string) (chunks : list (result string string))
  : list SseFrame * option SseError :=
  match chunks with
  | [] => (last_frame buf, None)
  | Err e :: _ => ([], Some (Io e))
  | Ok c :: chunks =>
      let buf := buf +:+ Utf8.from_utf8_lossy c in
      if (MAX_SSE_BUFFER <? Z.of_nat (String.length buf))%Z then ([], Some Overflow)
      else
        let '(fs, rest) := drain (String.length buf) buf in
        let '(gs, e) := frames_loop rest chunks in
        (fs ++ gs, e)
  end.
Definition sse_frames (chunks : list (result string string)) : list SseFrame * option SseError :=
  frames_loop "" chunks.
End Sse.
Import Sse.

(** What a parser is given, and what it yields. *)
Definition Frames : Type := list (result SseError SseFrame).
Definition Events : Type := list StreamEvent * option ApiError.

Definition emit (evs : list StreamEvent) (rest : Events) : Events := (evs ++ rest.1, rest.2).

(** ** Chat completions *)
Module ChatSse.
(* src/qcue-rs/llm-api/src/chat_sse.rs 13-20 map_finish *)
Definition map_finish (raw : string) : FinishReason :=
  if String.eqb raw "tool_calls" then ToolCalls
  else if String.eqb raw "length" then Length
  else if String.eqb raw "content_filter" then ContentFilter
  else Stop.

(* src/qcue-rs/llm-api/src/chat_sse.rs 22-28 Open *)
Inductive ChatOpen : Type := OpenNone | OpenText | OpenThinking.
#[export] Instance chat_open_eq_dec : EqDecision ChatOpen.
Proof. solve_decision. Defined.

Record ToolAcc : Type := { ta_id : option string; ta_name : option string; ta_args : string }.

(** A [BTreeMap] keyed by [u64], in key order. *)
Definition ToolMap : Type := list (Z * ToolAcc).
Fixpoint tools_get (k : Z) (m : ToolMap) : option ToolAcc :=
  match m with
  | [] => None
  | (k', a) :: m => if (k =? k')%Z then Some a else tools_get k m
  end.
Fixpoint tools_insert (k : Z) (a : ToolAcc) (m : ToolMap) : ToolMap :=
  match m with
  | [] => [(k, a)]
  | (k', a') :: m' =>
      if (k =? k')%Z then (k, a) :: m'
      else if (k <? k')%Z then (k, a) :: m
      else (k', a') :: tools_insert k a m'
  end.

(** The variables of the stream. *)
Record ChatState : Type := {
  open : ChatOpen;
  tools : ToolMap;
  tool_started : gset Z;
  finish : option FinishReason;
  usage : option CanonicalUsage;
}.
Definition set_open (o : ChatOpen) (s : ChatState) : ChatState := {|
  open := o; tools := tools s; tool_started := tool_started s; finish := finish s;
  usage := usage s |}.

(* src/qcue-rs/llm-api/src/chat_sse.rs 50-57 parse_chat_sse *)
Definition chat_thinking (delta : Value) (s : ChatState) : ChatState * list StreamEvent :=
  match opt_or (get "reasoning_content" delta) (get "reasoning" delta) ≫= as_str with
  | Some r =>
      if String.eqb r "" then (s, [])
      else
        let evs := (if bool_decide (open s = OpenText) then [ContentBlockStop] else [])
                ++ (if bool_decide (open s = OpenThinking) then []
                    else [ContentBlockStart BThinking])
                ++ [ContentBlockDelta (ThinkingDelta r)] in
        (set_open OpenThinking s, evs)
  | None => (s, [])
  end.

(* src/qcue-rs/llm-api/src/chat_sse.rs 58-68 parse_chat_sse *)
Definition chat_content (delta : Value) (s : ChatState) : ChatState * list StreamEvent :=
  match get_str "content" delta with
  | Some c =>
      if String.eqb c "" then (s, [])
      else
        let scrubbed := Scrub.scrub_forged_wrappers c in
        if String.eqb scrubbed "" then (s, [])
        else
          let evs := (if bool_decide (open s = OpenThinking) then [ContentBlockStop] else [])
                  ++ (if bool_decide (open s = OpenText) then [] else [ContentBlockStart BText])
                  ++ [ContentBlockDelta (TextDelta scrubbed)] in
          (set_open OpenText s, evs)
  | None => (s, [])
  end.

Definition fallback_id (idx : Z) : string := "call_" +:+ pretty idx.

(* src/qcue-rs/llm-api/src/chat_sse.rs 71-91 parse_chat_sse *)
Definition chat_tool (s : ChatState) (tc : Value) : ChatState * list StreamEvent :=
  let idx := unwrap_or (get "index" tc ≫= as_u64) 0%Z in
  let entry := unwrap_or (tools_get idx (tools s)) {| ta_id := None; ta_name := None; ta_args := "" |} in
  let i := opt_or (get_str "id" tc) (ta_id entry) in
  let n := opt_or ((get "function" tc ≫= get "name") ≫= as_str) (ta_name entry) in
  let args := ta_args entry
              +:+ unwrap_or ((get "function" tc ≫= get "arguments") ≫= as_str) "" in
  let started := bool_decide (idx ∈ tool_started s) in
  match started, n with
  | false, Some nm =>
      let id := unwrap_or i (fallback_id idx) in
      ({| open := OpenNone;
          tools := tools_insert idx {| ta_id := Some id; ta_name := n; ta_args := args |} (tools s);
          tool_started := {[ idx ]} ∪ tool_started s; finish := finish s; usage := usage s |},
       (if bool_decide (open s = OpenNone) then [] else [ContentBlockStop])
       ++ [ContentBlockStart (BToolUse id nm)])
  | _, _ =>
      ({| open := open s;
          tools := tools_insert idx {| ta_id := i; ta_name := n; ta_args := args |} (tools s);
          tool_started := tool_started s; finish := finish s; usage := usage s |}, [])
  end.

Fixpoint chat_tools (s : ChatState) (tcs : list Value) : ChatState * list StreamEvent :=
  match tcs with
  | [] => (s, [])
  | tc :: tcs =>
      let '(s, evs) := chat_tool s tc in
      let '(s, evs') := chat_tools s tcs in
      (s, evs ++ evs')
  end.

(* src/qcue-rs/llm-api/src/chat_sse.rs 45-95 parse_chat_sse *)
Definition chat_value (v : Value) (s : ChatState) : ChatState * list StreamEvent :=
  let s := match get "usage" v with
           | Some u => {| open := open s; tools := tools s; tool_started := tool_started s;
                          finish := finish s; usage := Usage.usage_from_chat u |}
           | None => s
           end in
  match get "choices" v ≫= get_at 0 with
  | None => (s, [])
  | Some choice =>
      let delta := unwrap_or (get "delta" choice) Null in
      let '(s, e1) := chat_thinking delta s in
      let '(s, e2) := chat_content delta s in
      let '(s, e3) := chat_tools s (unwrap_or (get "tool_calls" delta ≫= as_array) []) in
      let s := match get_str "finish_reason" choice with
               | Some fr => {| open := open s; tools := tools s; tool_started := tool_started s;
                               finish := Some (map_finish fr); usage := usage s |}
               | None => s
               end in
      (s, e1 ++ e2 ++ e3)
  end.

(* src/qcue-rs/llm-api/src/chat_sse.rs 97-103 parse_chat_sse *)
Definition chat_flush (s : ChatState) : list StreamEvent :=
  (tools s ≫= fun '(_, a) =>
     if String.eqb (ta_args a) "" then [] else [ContentBlockDelta (InputJsonDelta (ta_args a))])
  ++ (if negb (bool_decide (open s = OpenNone)) || opt_is_some (finish s)
      then [ContentBlockStop] else [])
  ++ [MessageDelta (finish s) (usage s); MessageStop].

Section parse.
Context `{Json}.
(* src/qcue-rs/llm-api/src/chat_sse.rs 42-96 parse_chat_sse *)
Fixpoint chat_loop (s : ChatState) (frames : Frames) : Events :=
  match frames with
  | [] => (chat_flush s, None)
  | Err e :: _ => ([], Some (TransportErr (sse_error_to_string e)))
  | Ok f :: frames =>
      if String.eqb (Str.trim (data f)) "[DONE]" then (chat_flush s, None)
      else match from_str (data f) with
           | Err _ => chat_loop s frames
           | Ok v => let '(s, evs) := chat_value v s in emit evs (chat_loop s frames)
           end
  end.

Definition chat_init : ChatState := {|
  open := OpenNone; tools := []; tool_started := ∅; finish := None; usage := None |}.

(* src/qcue-rs/llm-api/src/chat_sse.rs 30-105 parse_chat_sse *)
Definition parse_chat_sse (frames : Frames) : Events := emit [MessageStart] (chat_loop chat_init frames).
End parse.
End ChatSse.

(** ** Anthropic *)
Module AnthropicSse.
(* src/qcue-rs/llm-api/src/anthropic_sse.rs 11-18 map_stop *)
Definition map_stop (raw : string) : FinishReason :=
  if String.eqb raw "tool_use" then ToolCalls
  else if String.eqb raw "max_tokens" then Length
  else if String.eqb raw "refusal" then ContentFilter
  else Stop.

(* src/qcue-rs/llm-api/src/anthropic_sse.rs 31-44 parse_anthropic_sse *)
Definition anthropic_start_block (v : Value) : Block :=
  let cb := get "content_block" v in
  let ty := unwrap_or ((cb ≫= get "type") ≫= as_str) "text" in
  if String.eqb ty "thinking" then BThinking
  else if String.eqb ty "tool_use" then
    BToolUse (unwrap_or ((cb ≫= get "id") ≫= as_str) "toolu_0")
             (unwrap_or ((cb ≫= get "name") ≫= as_str) "")
  else BText.

(* src/qcue-rs/llm-api/src/anthropic_sse.rs 45-58 parse_anthropic_sse *)
Definition anthropic_delta (v : Value) : list StreamEvent :=
  let d := get "delta" v in
  let dty := unwrap_or ((d ≫= get "type") ≫= as_str) "" in
  let field (k : string) (f : string -> Delta) :=
    match (d ≫= get k) ≫= as_str with Some t => [ContentBlockDelta (f t)] | None => [] end in
  if String.eqb dty "text_delta" then field "text" TextDelta
  else if String.eqb dty "thinking_delta" then field "thinking" ThinkingDelta
  else if String.eqb dty "input_json_delta" then field "partial_json" InputJsonDelta
  else [].

(* src/qcue-rs/llm-api/src/anthropic_sse.rs 27-67 parse_anthropic_sse *)
Definition anthropic_frame (started : bool) (kind : string) (v : Value)
  : bool * list StreamEvent :=
  let start := if started then [] else [MessageStart] in
  if String.eqb kind "message_start" then (true, start)
  else if String.eqb kind "content_block_start" then
    (true, start ++ [ContentBlockStart (anthropic_start_block v)])
  else if String.eqb kind "content_block_delta" then (started, anthropic_delta v)
  else if String.eqb kind "content_block_stop" then (started, [ContentBlockStop])
  else if String.eqb kind "message_delta" then
    (started, [MessageDelta (map_stop <$> ((get "delta" v ≫= get "stop_reason") ≫= as_str))
                            (get "usage" v ≫= Usage.usage_from_anthropic)])
  else if String.eqb kind "message_stop" then (started, [MessageStop])
  else (started, []).

Section parse.
Context `{Json}.
Fixpoint anthropic_sse_loop (started : bool) (frames : Frames) : Events :=
  match frames with
  | [] => ([], None)
  | Err e :: _ => ([], Some (TransportErr (sse_error_to_string e)))
  | Ok f :: frames =>
      let v := unwrap_or (result_ok (from_str (data f))) Null in
      let '(started, evs) := anthropic_frame started (unwrap_or (event f) "") v in
      emit evs (anthropic_sse_loop started frames)
  end.
(* src/qcue-rs/llm-api/src/anthropic_sse.rs 20-70 parse_anthropic_sse *)
Definition parse_anthropic_sse (frames : Frames) : Events := anthropic_sse_loop false frames.
End parse.
End AnthropicSse.

(** ** Responses *)
Module ResponsesSse.
(* src/qcue-rs/llm-api/src/responses_sse.rs 16-22 Open *)
Inductive RespOpen : Type := RNone | RText | RThinking | RTool.
#[export] Instance resp_open_eq_dec : EqDecision RespOpen.
Proof. solve_decision. Defined.

(* src/qcue-rs/llm-api/src/responses_sse.rs 24-32 map_incomplete *)
Definition map_incomplete (reason : string) : FinishReason :=
  if String.eqb reason "max_output_tokens" then Length
  else if String.eqb reason "content_filter" then ContentFilter
  else Stop.

(* src/qcue-rs/llm-api/src/responses_sse.rs 34-41 output_has_function_call *)
Definition output_has_function_call (resp : Value) : bool :=
  match get "output" resp ≫= as_array with
  | Some a => existsb (fun i => bool_decide (get_str "type" i = Some "function_call")) a
  | None => false
  end.

Record RespState : Type := { r_started : bool; r_open : RespOpen; saw_function_call : bool }.

(** Close what is open, then open the block [b]. *)
Definition close (o : RespOpen) : list StreamEvent :=
  if bool_decide (o = RNone) then [] else [ContentBlockStop].
Definition with_open (o : RespOpen) (s : RespState) : RespState :=
  {| r_started := r_started s; r_open := o; saw_function_call := saw_function_call s |}.
(** Open a block of kind [o] unless one is open already. *)
Definition ensure (o : RespOpen) (b : Block) (s : RespState) : RespState * list StreamEvent :=
  if bool_decide (r_open s = o) then (s, [])
  else (with_open o s, close (r_open s) ++ [ContentBlockStart b]).
Definition close_if (p : RespOpen -> bool) (s : RespState) : RespState * list StreamEvent :=
  if p (r_open s) then (with_open RNone s, [ContentBlockStop]) else (s, []).

Definition delta_of (f : string -> Delta) (v : Value) : list StreamEvent :=
  match get_str "delta" v with Some d => [ContentBlockDelta (f d)] | None => [] end.

(* src/qcue-rs/llm-api/src/responses_sse.rs 64-84 parse_responses_sse *)
Definition item_added (v : Value) (s : RespState) : RespState * list StreamEvent :=
  let item := get "item" v in
  let ty := unwrap_or ((item ≫= get "type") ≫= as_str) "" in
  if String.eqb ty "function_call" then
    ({| r_started := r_started s; r_open := RTool; saw_function_call := true |},
     close (r_open s) ++
     [ContentBlockStart (BToolUse (unwrap_or ((item ≫= get "call_id") ≫= as_str) "")
                                  (unwrap_or ((item ≫= get "name") ≫= as_str) ""))])
  else if String.eqb ty "reasoning" then
    (with_open RThinking s, close (r_open s) ++ [ContentBlockStart BThinking])
  else (s, []).

(* src/qcue-rs/llm-api/src/responses_sse.rs 131-144 parse_responses_sse *)
Definition completed (kind : string) (v : Value) (s : RespState) : RespState * list StreamEvent :=
  let resp := unwrap_or (get "response" v) Null in
  let stop :=
    if String.eqb kind "response.incomplete" then
      map_incomplete (unwrap_or ((get "incomplete_details" resp ≫= get "reason") ≫= as_str) "")
    else if saw_function_call s || output_has_function_call resp then ToolCalls else Stop in
  (with_open RNone s,
   close (r_open s) ++
   [MessageDelta (Some stop) (get "usage" resp ≫= Usage.usage_from_chat); MessageStop]).

(** One frame: the new state, its events, and the error that ends the stream. *)
(* src/qcue-rs/llm-api/src/responses_sse.rs 60-157 parse_responses_sse *)
Definition responses_frame (kind : string) (v : Value) (s : RespState)
  : RespState * list StreamEvent * option ApiError :=
  let go (r : RespState * list StreamEvent) := (r, None) in
  let on k := String.eqb kind k in
  if on "response.created" then
    go ({| r_started := true; r_open := r_open s; saw_function_call := saw_function_call s |},
        if r_started s then [] else [MessageStart])
  else if on "response.output_item.added" then go (item_added v s)
  else if on "response.content_part.added" then
    let pt := unwrap_or ((get "part" v ≫= get "type") ≫= as_str) "" in
    if String.eqb pt "output_text" then go (ensure RText BText s) else go (s, [])
  else if on "response.output_text.delta" then
    let '(s, evs) := ensure RText BText s in go (s, evs ++ delta_of TextDelta v)
  else if on "response.output_text.done" then go (close_if (fun o => bool_decide (o = RText)) s)
  else if on "response.function_call_arguments.delta" then go (s, delta_of InputJsonDelta v)
  else if on "response.output_item.done" then
    go (close_if (fun o => bool_decide (o = RTool) || bool_decide (o = RThinking)) s)
  else if on "response.reasoning_summary_text.delta" || on "response.reasoning_text.delta" then
    let '(s, evs) := ensure RThinking BThinking s in go (s, evs ++ delta_of ThinkingDelta v)
  else if on "response.reasoning_summary_text.done" then
    go (close_if (fun o => bool_decide (o = RThinking)) s)
  else if on "response.completed" || on "response.incomplete" then go (completed kind v s)
  else if on "response.failed" then
    ((s, []), Some (TransportErr
      (unwrap_or (((get "response" v ≫= get "error") ≫= get "message") ≫= as_str)
                 "response failed")))
  else if on "error" then
    ((s, []), Some (TransportErr (unwrap_or (get_str "message" v) "stream error")))
  else go (s, []).

Section parse.
Context `{Json}.
(* src/qcue-rs/llm-api/src/responses_sse.rs 53-58 parse_responses_sse *)
Definition frame_kind (f : SseFrame) (v : Value) : string :=
  unwrap_or (opt_or (opt_filter (fun s => negb (String.eqb s "")) (event f)) (get_str "type" v)) "".

Fixpoint responses_loop (s : RespState) (frames : Frames) : Events :=
  match frames with
  | [] => ([], None)
  | Err e :: _ => ([], Some (TransportErr (sse_error_to_string e)))
  | Ok f :: frames =>
      let v := unwrap_or (result_ok (from_str (data f))) Null in
      match responses_frame (frame_kind f v) v s with
      | (_, evs, Some e) => (evs, Some e)
      | (s, evs, None) => emit evs (responses_loop s frames)
      end
  end.
(* src/qcue-rs/llm-api/src/responses_sse.rs 43-160 parse_responses_sse *)
Definition parse_responses_sse (frames : Frames) : Events :=
  responses_loop {| r_started := false; r_open := RNone; saw_function_call := false |} frames.
End parse.
End ResponsesSse.

(** ** The watchdog *)
Module Watchdog.
(* src/qcue-rs/llm-api/src/watchdog.rs 7-11 WatchdogCfg *)
Record WatchdogCfg : Type := { idle_ms : Z; ttfb_ms : Z }.

(** An item with the time, in ms, the inner stream takes to yield it; [fin] is the time it takes to
    end. *)
(* src/qcue-rs/llm-api/src/watchdog.rs 17-34 with_watchdog *)
Fixpoint watchdog_loop {A} (cfg : WatchdogCfg) (got_first : bool) (inner : list (Z * result ApiError A)) (fin : Z)
  : list (result ApiError A) :=
  let window := if got_first then idle_ms cfg else ttfb_ms cfg in
  let late := if got_first then StreamIdle (idle_ms cfg) else StreamTtfb (ttfb_ms cfg) in
  match inner with
  | [] => if (fin <=? window)%Z then [] else [Err late]
  | (t, item) :: inner =>
      if (t <=? window)%Z then item :: watchdog_loop cfg true inner fin else [Err late]
  end.
Definition with_watchdog {A} (cfg : WatchdogCfg) (inner : list (Z * result ApiError A)) (fin : Z)
  : list (result ApiError A) := watchdog_loop cfg false inner fin.
End Watchdog.

(** ** Lemmas: splitting frames *)
Lemma starts_with_short (p s t : string) :
  (String.length p <= String.length s)%nat -> Str.starts_with p (s +:+ t) = Str.starts_with p s.
Proof.
  revert s. induction p as [|c p IH]; intros [|d s] Hl; simpl in *; try done; [lia|].
  by rewrite IH by lia.
Qed.

Lemma find_app (p s t : string) (n : nat) :
  Str.find p s = Some n -> Str.find p (s +:+ t) = Some n.
Proof.
  revert n. induction s as [|c s IH]; intros n Hf; pose proof (Str.find_le _ _ _ Hf) as Hle.
  - cbn [Str.find] in Hf. destruct (Str.starts_with p "") eqn:Hp; [|done]. injection Hf as <-.
    destruct p; [|done]. by destruct t.
  - pose proof (starts_with_short p (String c s) t ltac:(lia)) as Hs.
    cbn [Str.find] in Hf. cbn [String.append] in *. cbn [Str.find]. rewrite Hs.
    destruct (Str.starts_with p (String c s)); [done|].
    destruct (Str.find p s) as [m|]; [|done]. injection Hf as <-. by rewrite (IH m).
Qed.

Lemma take_app_le (n : nat) (s t : string) :
  (n <= String.length s)%nat -> Str.take n (s +:+ t) = Str.take n s.
Proof.
  revert s. induction n as [|n IH]; intros [|c s] Hn; simpl in *; try done; [lia|].
  by rewrite IH by lia.
Qed.

Lemma drop_app_le (n : nat) (s t : string) :
  (n <= String.length s)%nat -> Str.drop n (s +:+ t) = Str.drop n s +:+ t.
Proof.
  revert s. induction n as [|n IH]; intros [|c s] Hn; simpl in *; try done; [lia|].
  by rewrite IH by lia.
Qed.

Lemma drain_fuel (f g : nat) (s : string) :
  (String.length s <= f)%nat -> (String.length s <= g)%nat -> drain f s = drain g s.
Proof.
  revert g s. induction f as [|f IH]; intros g s Hf Hg.
  - destruct s; [|simpl in Hf; lia]. by destruct g.
  - destruct g as [|g]; [destruct s; [done|simpl in Hg; lia]|]. cbn [drain].
    destruct (Str.find sep s) as [i|] eqn:Hi; [|done].
    apply Str.find_le in Hi. change (String.length sep) with 2%nat in Hi.
    rewrite (IH g); [done|rewrite Str.length_drop; lia..].
Qed.

Definition drain_all (s : string) : list SseFrame * string := drain (String.length s) s.

Lemma drain_all_some (s : string) (i : nat) :
  Str.find sep s = Some i ->
  drain_all s = let '(fs, rest) := drain_all (Str.drop (i + 2) s) in
    (match parse_frame (Str.take i s) with Some f => f :: fs | None => fs end, rest).
Proof.
  intros Hi. pose proof (Str.find_le _ _ _ Hi) as Hle. change (String.length sep) with 2%nat in Hle.
  unfold drain_all at 1. destruct (String.length s) as [|n] eqn:Hn; [lia|]. cbn [drain].
  rewrite Hi. unfold drain_all. rewrite (drain_fuel n (String.length (Str.drop (i + 2) s)));
    [done|rewrite Str.length_drop; lia..].
Qed.

Lemma drain_all_none (s : string) : Str.find sep s = None -> drain_all s = ([], s).
Proof. intros Hi. unfold drain_all. destruct (String.length s); [done|]. cbn [drain]. by rewrite Hi. Qed.

Lemma drain_all_app (a b : string) :
  drain_all (a +:+ b)
  = let '(fs, r) := drain_all a in let '(gs, r') := drain_all (r +:+ b) in (fs ++ gs, r').
Proof.
  remember (String.length a) as n eqn:Hn. revert a Hn.
  induction (lt_wf n) as [n _ IH]. intros a ->.
  destruct (Str.find sep a) as [i|] eqn:Hi.
  - pose proof (Str.find_le _ _ _ Hi) as Hle. change (String.length sep) with 2%nat in Hle.
    rewrite (drain_all_some a i Hi), (drain_all_some _ i (find_app _ _ b _ Hi)).
    rewrite drop_app_le, take_app_le by lia.
    rewrite (IH (String.length (Str.drop (i + 2) a))) by (try rewrite Str.length_drop; try done; lia).
    destruct (drain_all (Str.drop (i + 2) a)) as [fs r].
    destruct (drain_all (r +:+ b)) as [gs r']. by destruct (parse_frame _).
  - rewrite (drain_all_none a Hi). by destruct (drain_all (a +:+ b)).
Qed.

Lemma drain_all_rest (s : string) : Str.find sep (drain_all s).2 = None.
Proof.
  remember (String.length s) as n eqn:Hn. revert s Hn.
  induction (lt_wf n) as [n _ IH]. intros s ->.
  destruct (Str.find sep s) as [i|] eqn:Hi; [|by rewrite drain_all_none].
  pose proof (Str.find_le _ _ _ Hi) as Hle. change (String.length sep) with 2%nat in Hle.
  rewrite (drain_all_some s i Hi).
  specialize (IH (String.length (Str.drop (i + 2) s)) ltac:(rewrite Str.length_drop; lia) _ eq_refl).
  by destruct (drain_all (Str.drop (i + 2) s)).
Qed.

(** The text of a list of chunks, and the frames of a text. *)
Definition text_of (chunks : list string) : string := foldr String.append "" chunks.
Lemma text_of_app (a b : list string) : text_of (a ++ b) = text_of a +:+ text_of b.
Proof.
  induction a as [|x a IH]; [done|]. cbn [app text_of foldr] in *. fold (text_of (a ++ b)).
  fold (text_of a). by rewrite IH, Str.app_assoc.
Qed.
Definition frames_of (s : string) : list SseFrame :=
  let '(fs, rest) := drain_all s in fs ++ last_frame rest.

Lemma frames_loop_text (chunks : list string) (buf : string) :
  Str.find sep buf = None ->
  Forall (fun c => Utf8.from_utf8_lossy c = c) chunks ->
  (Z.of_nat (String.length (buf +:+ text_of chunks)) <= MAX_SSE_BUFFER)%Z ->
  frames_loop buf (Ok <$> chunks) = (frames_of (buf +:+ text_of chunks), None).
Proof.
  revert buf. induction chunks as [|c chunks IH]; intros buf Hbuf Hc Hlen.
  - cbn [fmap list_fmap frames_loop text_of foldr]. rewrite Str.app_nil_r. unfold frames_of.
    by rewrite drain_all_none.
  - inv Hc. rename select (Utf8.from_utf8_lossy c = c) into Hc.
    cbn [fmap list_fmap frames_loop text_of foldr] in *. rewrite Hc.
    fold (text_of chunks) in *. rewrite <- Str.app_assoc in Hlen.
    rewrite (proj2 (Z.ltb_ge _ _)) by (rewrite Str.length_app in Hlen; lia).
    fold (drain_all (buf +:+ c)). rewrite <- Str.app_assoc.
    unfold frames_of. rewrite (drain_all_app (buf +:+ c)).
    pose proof (drain_all_rest (buf +:+ c)) as Hrest.
    destruct (drain_all (buf +:+ c)) as [fs r] eqn:Hd. cbn [snd] in Hrest.
    assert (Hr : (String.length r <= String.length (buf +:+ c))%nat).
    { clear - Hd. revert Hd. unfold drain_all. generalize (String.length (buf +:+ c)) at 1 as f.
      generalize (buf +:+ c) as s. intros s f. revert s fs r.
      induction f as [|f IH]; intros s fs r; simpl; [by intros [= <- <-]|].
      destruct (Str.find sep s) as [i|]; [|by intros [= <- <-]].
      destruct (drain f (Str.drop (i + 2) s)) as [gs r'] eqn:Hd. intros [= <- <-].
      apply IH in Hd. rewrite Str.length_drop in Hd. lia. }
    rewrite IH; [|done|done|rewrite !Str.length_app in *; lia].
    unfold frames_of. destruct (drain_all (r +:+ text_of chunks)) as [gs r']. by rewrite app_assoc.
Qed.

(** ** Lemmas: bracketing *)
Import ResponsesSse.
Definition block_kind (b : Block) : RespOpen :=
  match b with BText => RText | BThinking => RThinking | BToolUse _ _ => RTool end.

(** What a consumer of the stream checks: blocks do not nest, text and thinking come inside a block
    of their kind, and the message ends outside all blocks. *)
Definition bracket (o : option RespOpen) (e : StreamEvent) : option RespOpen :=
  o ← o;
  match e with
  | MessageStart => Some o
  | ContentBlockStart b => if bool_decide (o = RNone) then Some (block_kind b) else None
  | ContentBlockStop => if bool_decide (o = RNone) then None else Some RNone
  | ContentBlockDelta (TextDelta _) => if bool_decide (o = RText) then Some o else None
  | ContentBlockDelta (ThinkingDelta _) => if bool_decide (o = RThinking) then Some o else None
  | ContentBlockDelta (InputJsonDelta _) => Some o
  | MessageDelta _ _ | MessageStop => if bool_decide (o = RNone) then Some o else None
  end.
Definition brackets (o : RespOpen) (evs : list StreamEvent) : option RespOpen :=
  foldl bracket (Some o) evs.

Lemma brackets_app o o' (a b : list StreamEvent) :
  brackets o a = Some o' -> brackets o (a ++ b) = brackets o' b.
Proof. unfold brackets. intros Ha. by rewrite foldl_app, Ha. Qed.

Lemma brackets_close o b : brackets o (close o ++ [ContentBlockStart b]) = Some (block_kind b).
Proof. unfold close. by destruct o, b. Qed.

Lemma brackets_ensure o b s :
  block_kind b = o -> brackets (r_open s) (ensure o b s).2 = Some (r_open (ensure o b s).1) /\
  r_open (ensure o b s).1 = o.
Proof.
  intros Hb. unfold ensure. case_bool_decide as Ho; [by split|]. cbn [fst snd with_open r_open].
  by rewrite brackets_close, Hb.
Qed.

Lemma brackets_close_if p s :
  p RNone = false -> brackets (r_open s) (close_if p s).2 = Some (r_open (close_if p s).1).
Proof.
  intros Hp. unfold close_if. destruct (p (r_open s)) eqn:Ho; [|done].
  destruct (r_open s); [congruence|done..].
Qed.

Lemma brackets_delta o f v :
  (forall d, bracket (Some o) (ContentBlockDelta (f d)) = Some o) ->
  brackets o (delta_of f v) = Some o.
Proof. intros Hf. unfold delta_of. destruct (get_str "delta" v); [apply Hf|done]. Qed.

Lemma brackets_frame kind v s :
  brackets (r_open s) (responses_frame kind v s).1.2
  = Some (r_open (responses_frame kind v s).1.1).
Proof.
  unfold responses_frame.
  repeat (case_match; [shelve|]); done.
  Unshelve.
  all: cbn [fst snd].
  - by destruct (r_started s).
  - unfold item_added. case_match; [|case_match; [|done]]; cbn [fst snd with_open r_open];
      by rewrite brackets_close.
  - case_match; cbn [fst snd]; [by apply (brackets_ensure RText BText s)|done].
  - destruct (brackets_ensure RText BText s eq_refl) as [Hb Ho].
    destruct (ensure RText BText s) as [s' evs]. cbn [fst snd] in *.
    rewrite (brackets_app _ _ _ _ Hb), Ho. by apply brackets_delta.
  - by apply brackets_close_if.
  - by apply brackets_delta.
  - by apply brackets_close_if.
  - destruct (brackets_ensure RThinking BThinking s eq_refl) as [Hb Ho].
    destruct (ensure RThinking BThinking s) as [s' evs]. cbn [fst snd] in *.
    rewrite (brackets_app _ _ _ _ Hb), Ho. by apply brackets_delta.
  - by apply brackets_close_if.
  - unfold completed, close. cbn [fst snd with_open r_open]. by destruct (r_open s).
  - done.
  - done.
Qed.

Lemma brackets_loop `{Json} (frames : Frames) s :
  is_Some (brackets (r_open s) (responses_loop s frames).1).
Proof.
  revert s. induction frames as [|[f|e] frames IH]; intros s; [by eexists| |by eexists].
  cbn [responses_loop]. set (v := unwrap_or _ _). pose proof (brackets_frame (frame_kind f v) v s) as Hb.
  destruct (responses_frame (frame_kind f v) v s) as [[s' evs] [e|]]; cbn [fst snd] in *; [by eexists|].
  unfold emit. cbn [fst]. rewrite (brackets_app _ _ _ _ Hb). apply IH.
Qed.

(** ** Lemmas: what a chat stream carries *)
Section chat_lemmas.
Import ChatSse.
Context `{Json}.

(** The text and the argument fragments of one chunk, read off the wire. *)
Definition delta_value (v : Value) : option Value :=
  (fun choice => unwrap_or (get "delta" choice) Null) <$> (get "choices" v ≫= get_at 0).
Definition piece (v : Value) : list string :=
  match delta_value v ≫= get_str "content" with
  | Some c => List.filter (fun s => negb (String.eqb s ""))
                (if String.eqb c "" then [] else [Scrub.scrub_forged_wrappers c])
  | None => []
  end.
Definition call_index (tc : Value) : Z := unwrap_or (get "index" tc ≫= as_u64) 0%Z.
Definition call_args (tc : Value) : string :=
  unwrap_or ((get "function" tc ≫= get "arguments") ≫= as_str) "".
Definition call_values (v : Value) : list Value :=
  unwrap_or ((delta_value v ≫= get "tool_calls") ≫= as_array) [].
Definition args_at (idx : Z) (tcs : list Value) : string :=
  text_of ((fun tc => if (call_index tc =? idx)%Z then call_args tc else "") <$> tcs).

(** The chunks of a stream: the values of its frames up to the end marker. *)
Fixpoint chunks (frames : Frames) : list Value :=
  match frames with
  | Ok f :: frames =>
      if String.eqb (Str.trim (data f)) "[DONE]" then []
      else match from_str (data f) with
           | Ok v => v :: chunks frames
           | Err _ => chunks frames
           end
  | _ => []
  end.

Definition texts (evs : list StreamEvent) : list string :=
  omap (fun e => match e with ContentBlockDelta (TextDelta t) => Some t | _ => None end) evs.
Definition jsons (evs : list StreamEvent) : list string :=
  omap (fun e => match e with ContentBlockDelta (InputJsonDelta t) => Some t | _ => None end) evs.

(** The assembled arguments at an index. *)
Definition args_in (idx : Z) (s : ChatState) : string :=
  match tools_get idx (tools s) with Some a => ta_args a | None => "" end.
Definition keys_sorted (m : ToolMap) : Prop := StronglySorted Z.lt (m.*1).

Lemma tools_get_insert k k' a m :
  tools_get k (tools_insert k' a m) = if (k =? k')%Z then Some a else tools_get k m.
Proof.
  induction m as [|[k2 a2] m IH]; simpl; [done|].
  destruct (Z.eqb_spec k' k2) as [->|Hne]; simpl; [by destruct (k =? k2)%Z|].
  destruct (k' <? k2)%Z; simpl; [done|]. rewrite IH.
  destruct (Z.eqb_spec k k2) as [->|]; [|done]. by rewrite (proj2 (Z.eqb_neq k2 k')) by congruence.
Qed.

Lemma tools_insert_keys k a m x : x ∈ (tools_insert k a m).*1 -> x = k \/ x ∈ m.*1.
Proof.
  induction m as [|[k' a'] m IH]; simpl; [rewrite elem_of_cons; tauto|].
  destruct (Z.eqb_spec k k') as [->|]; [rewrite !fmap_cons, !elem_of_cons; simpl; tauto|].
  destruct (k <? k')%Z; rewrite !fmap_cons, !elem_of_cons; simpl; tauto.
Qed.

Lemma tools_insert_sorted k a m : keys_sorted m -> keys_sorted (tools_insert k a m).
Proof.
  unfold keys_sorted. induction m as [|[k' a'] m IH]; simpl; intros Hm; [by repeat constructor|].
  inv Hm. rename select (Forall _ _) into Hall.
  destruct (Z.eqb_spec k k') as [->|]; [by constructor|].
  destruct (Z.ltb_spec k k'); simpl.
  - constructor; [by constructor|]. constructor; [done|]. eapply Forall_impl; [exact Hall|]. lia.
  - constructor; [by apply IH|]. apply Forall_forall. intros x Hx.
    apply tools_insert_keys in Hx as [->|Hx]; [lia|]. by eapply Forall_forall in Hall.
Qed.

Lemma tools_get_elem k a m : keys_sorted m -> (k, a) ∈ m <-> tools_get k m = Some a.
Proof.
  unfold keys_sorted. induction m as [|[k' a'] m IH]; simpl; intros Hm;
    [split; [intros Hx; inv Hx|done]|].
  inv Hm. rewrite elem_of_cons. rename select (Forall _ _) into Hall.
  destruct (Z.eqb_spec k k') as [->|Hne].
  - split; [|intros [= ->]; by left]. intros [[= ->]|Hin]; [done|].
    exfalso. apply (list_elem_of_fmap_2 fst) in Hin. eapply Forall_forall in Hall; [|exact Hin].
    simpl in Hall. lia.
  - rewrite <- IH by done. split; [intros [[= -> ->]|?]; done|by right].
Qed.

Lemma chat_tool_args s tc idx :
  args_in idx (chat_tool s tc).1
  = args_in idx s +:+ (if (call_index tc =? idx)%Z then call_args tc else "").
Proof.
  unfold chat_tool. fold (call_index tc) (call_args tc). unfold args_in.
  set (entry := unwrap_or _ _).
  assert (Hargs : ta_args entry = match tools_get (call_index tc) (tools s) with
                                  | Some a => ta_args a | None => "" end)
    by (unfold entry; by destruct (tools_get _ _)).
  destruct (bool_decide _); [|destruct (opt_or _ (ta_name entry))]; cbn [fst tools];
    rewrite tools_get_insert, Z.eqb_sym; destruct (Z.eqb_spec (call_index tc) idx) as [<-|];
    cbn [ta_args]; rewrite ?Hargs, ?Str.app_nil_r; done.
Qed.

Lemma chat_tool_sorted s tc : keys_sorted (tools s) -> keys_sorted (tools (chat_tool s tc).1).
Proof.
  intros Hs. unfold chat_tool. destruct (bool_decide _); [|destruct (opt_or _ _)];
    by apply tools_insert_sorted.
Qed.

Lemma chat_tool_quiet s tc : texts (chat_tool s tc).2 = [] /\ jsons (chat_tool s tc).2 = [].
Proof.
  unfold chat_tool. destruct (bool_decide _); [done|]. destruct (opt_or _ _); [|done].
  cbn [snd]. by case_bool_decide.
Qed.

Lemma texts_app (a b : list StreamEvent) : texts (a ++ b) = texts a ++ texts b.
Proof. apply omap_app. Qed.
Lemma jsons_app (a b : list StreamEvent) : jsons (a ++ b) = jsons a ++ jsons b.
Proof. apply omap_app. Qed.

Lemma chat_tools_spec tcs s :
  (forall idx, args_in idx (chat_tools s tcs).1 = args_in idx s +:+ args_at idx tcs) /\
  (keys_sorted (tools s) -> keys_sorted (tools (chat_tools s tcs).1)) /\
  texts (chat_tools s tcs).2 = [] /\ jsons (chat_tools s tcs).2 = [].
Proof.
  revert s. induction tcs as [|tc tcs IH]; intros s.
  { split; [intros idx; unfold args_at; cbn; by rewrite Str.app_nil_r|done]. }
  cbn [chat_tools]. pose proof (chat_tool_args s tc) as Ha. pose proof (chat_tool_sorted s tc) as Hk.
  destruct (chat_tool_quiet s tc) as [Ht Hj].
  destruct (chat_tool s tc) as [s1 e1]. cbn [fst snd] in *.
  destruct (IH s1) as (Ha' & Hk' & Ht' & Hj'). destruct (chat_tools s1 tcs) as [s2 e2].
  cbn [fst snd] in *. split; [|split; [auto|by rewrite texts_app, jsons_app, Ht, Hj, Ht', Hj']].
  intros idx. rewrite Ha', Ha. unfold args_at. cbn [fmap list_fmap text_of foldr].
  by rewrite Str.app_assoc.
Qed.

Lemma chat_thinking_spec d s :
  tools (chat_thinking d s).1 = tools s /\ texts (chat_thinking d s).2 = [] /\
  jsons (chat_thinking d s).2 = [].
Proof.
  unfold chat_thinking. destruct (_ ≫= as_str) as [r|]; [|done]. destruct (String.eqb r ""); [done|].
  cbn [fst snd]. repeat case_bool_decide; done.
Qed.

Lemma chat_content_spec d s :
  tools (chat_content d s).1 = tools s /\ jsons (chat_content d s).2 = [] /\
  texts (chat_content d s).2
  = match get_str "content" d with
    | Some c => List.filter (fun s => negb (String.eqb s ""))
                  (if String.eqb c "" then [] else [Scrub.scrub_forged_wrappers c])
    | None => []
    end.
Proof.
  unfold chat_content. destruct (get_str "content" d) as [c|]; [|done].
  destruct (String.eqb c ""); [done|]. cbn [List.filter].
  destruct (String.eqb (Scrub.scrub_forged_wrappers c) ""); [done|]. cbn [fst snd negb].
  repeat case_bool_decide; done.
Qed.

Lemma chat_value_spec v s :
  (forall idx, args_in idx (chat_value v s).1 = args_in idx s +:+ args_at idx (call_values v)) /\
  (keys_sorted (tools s) -> keys_sorted (tools (chat_value v s).1)) /\
  texts (chat_value v s).2 = piece v /\ jsons (chat_value v s).2 = [].
Proof.
  unfold chat_value. set (s0 := match get "usage" v with Some _ => _ | None => _ end).
  assert (H0 : tools s0 = tools s) by (unfold s0; by destruct (get "usage" v)).
  unfold piece, call_values, delta_value. unfold args_in at 2. rewrite <- H0. fold (args_in).
  destruct (get "choices" v ≫= get_at 0) as [choice|].
  2: { cbn [fmap option_fmap option_map mbind option_bind unwrap_or fst snd].
       split; [intros idx; unfold args_at; cbn; by rewrite Str.app_nil_r|done]. }
  cbn [fmap option_fmap option_map mbind option_bind].
  set (d := unwrap_or (get "delta" choice) Null).
  destruct (chat_thinking_spec d s0) as (Ht1 & Hx1 & Hj1).
  destruct (chat_thinking d s0) as [s1 e1]. cbn [fst snd] in *.
  destruct (chat_content_spec d s1) as (Ht2 & Hj2 & Hx2).
  destruct (chat_content d s1) as [s2 e2]. cbn [fst snd] in *.
  set (tcs := unwrap_or (get "tool_calls" d ≫= as_array) []).
  destruct (chat_tools_spec tcs s2) as (Ha & Hk & Hx3 & Hj3).
  destruct (chat_tools s2 tcs) as [s3 e3]. cbn [fst snd] in *.
  rewrite !texts_app, !jsons_app, Hx1, Hx2, Hx3, Hj1, Hj2, Hj3, app_nil_r.
  assert (Hfin : forall fr : option string, tools (match fr with
     | Some fr => {| open := open s3; tools := tools s3; tool_started := tool_started s3;
                     finish := Some (map_finish fr); usage := usage s3 |}
     | None => s3 end) = tools s3) by (by intros [|]).
  unfold args_in in *. rewrite Hfin. split; [|split; [|done]].
  - intros idx. rewrite Ha. by rewrite Ht2, Ht1.
  - intros Hs. apply Hk. by rewrite Ht2, Ht1.
Qed.

Lemma jsons_flush s a :
  keys_sorted (tools s) -> a ∈ jsons (chat_flush s) <-> a <> "" /\ exists idx, args_in idx s = a.
Proof.
  intros Hs. unfold chat_flush. rewrite !jsons_app.
  assert (Hnil : jsons (if negb (bool_decide (open s = OpenNone)) || opt_is_some (finish s)
                        then [ContentBlockStop] else []) = []) by (by case_match).
  rewrite Hnil. cbn [jsons omap list_omap app]. rewrite app_nil_r.
  assert (Hj : jsons (tools s ≫= fun '(_, t) =>
                 if String.eqb (ta_args t) "" then [] else [ContentBlockDelta (InputJsonDelta (ta_args t))])
               = List.filter (fun x => negb (String.eqb x "")) ((fun p => ta_args p.2) <$> tools s)).
  { clear. induction (tools s) as [|[k t] m IH]; [done|]. rewrite bind_cons, jsons_app, IH. simpl.
    by destruct (String.eqb (ta_args t) ""). }
  rewrite Hj. rewrite list_elem_of_In, filter_In, <- list_elem_of_In, list_elem_of_fmap.
  unfold args_in. split.
  - intros [([k t] & -> & Hin) Hne]. apply tools_get_elem in Hin; [|done].
    apply negb_true_iff, String.eqb_neq in Hne. split; [done|]. exists k. simpl in *. by rewrite Hin.
  - intros [Hne [k Hk]]. split; [|by apply negb_true_iff, String.eqb_neq].
    destruct (tools_get k (tools s)) as [t|] eqn:Ht; [|congruence].
    exists (k, t). split; [done|]. by apply tools_get_elem.
Qed.

Lemma texts_flush s : texts (chat_flush s) = [].
Proof.
  unfold chat_flush. rewrite !texts_app.
  assert (texts (if negb (bool_decide (open s = OpenNone)) || opt_is_some (finish s)
                 then [ContentBlockStop] else []) = []) as -> by (by case_match).
  cbn [texts omap list_omap app]. rewrite app_nil_r. induction (tools s) as [|[k t] m IH]; [done|].
  rewrite bind_cons, texts_app, IH. by destruct (String.eqb (ta_args t) "").
Qed.

Lemma chat_loop_spec (frames : Frames) s :
  keys_sorted (tools s) ->
  texts (chat_loop s frames).1 = chunks frames ≫= piece /\
  ((chat_loop s frames).2 = None ->
   (exists pre st u, (chat_loop s frames).1 = pre ++ [MessageDelta st u; MessageStop]) /\
   forall a, a ∈ jsons (chat_loop s frames).1 <->
     a <> "" /\ exists idx, args_in idx s +:+ args_at idx (chunks frames ≫= call_values) = a).
Proof.
  assert (Hflush : forall s, keys_sorted (tools s) -> texts (chat_flush s) = [] /\
    (exists pre st u, chat_flush s = pre ++ [MessageDelta st u; MessageStop]) /\
    forall a, a ∈ jsons (chat_flush s) <-> a <> "" /\ exists idx, args_in idx s +:+ args_at idx [] = a).
  { intros s' Hs. split; [apply texts_flush|]. split.
    - unfold chat_flush. rewrite app_assoc. by do 3 eexists.
    - intros a. rewrite jsons_flush by done. unfold args_at. cbn [fmap list_fmap text_of foldr].
      by setoid_rewrite Str.app_nil_r. }
  revert s. induction frames as [|[f|e] frames IH]; intros s Hs; [by destruct (Hflush s Hs)| |done].
  cbn [chat_loop chunks]. destruct (String.eqb (Str.trim (data f)) "[DONE]");
    [by destruct (Hflush s Hs)|].
  destruct (from_str (data f)) as [v|]; [|by apply IH].
  destruct (chat_value_spec v s) as (Ha & Hk & Hx & Hj).
  destruct (chat_value v s) as [s1 evs]. cbn [fst snd] in *. destruct (IH s1 (Hk Hs)) as [IHt IHr].
  unfold emit. cbn [fst snd]. rewrite texts_app, Hx, IHt, !bind_cons. split; [done|].
  intros Hnone. destruct (IHr Hnone) as [(pre & st & u & ->) Hjson]. split.
  - exists (evs ++ pre), st, u. by rewrite app_assoc.
  - intros a. rewrite jsons_app, Hj. cbn [app]. rewrite Hjson.
    assert (Happ : forall idx, args_at idx (call_values v ++ (chunks frames ≫= call_values))
              = args_at idx (call_values v) +:+ args_at idx (chunks frames ≫= call_values)).
    { intros idx. unfold args_at. by rewrite fmap_app, text_of_app. }
    setoid_rewrite Ha. setoid_rewrite Happ. by setoid_rewrite Str.app_assoc.
Qed.
End chat_lemmas.

(** ** Properties *)

(** C20: frames do not depend on how the network cut the bytes: for a text within the buffer limit,
    any two ways of cutting it into chunks that are each valid UTF-8 yield the same frames and no error.
    A chunk boundary inside a character is not such a cut: it corrupts the character. *)
Theorem frames_ignore_chunking (cs ds : list string)
  (Hcs : Forall (fun c => Utf8.from_utf8_lossy c = c) cs)
  (Hds : Forall (fun c => Utf8.from_utf8_lossy c = c) ds)
  (Htext : text_of cs = text_of ds)
  (Hlen : (Z.of_nat (String.length (text_of cs)) <= MAX_SSE_BUFFER)%Z) :
  sse_frames (Ok <$> cs) = sse_frames (Ok <$> ds) /\
  sse_frames (Ok <$> cs) = (frames_of (text_of cs), None) /\
  (let e := Str.bytes [195; 169] in
   sse_frames [Ok ("data:" +:+ e)] = ([{| event := None; data := e |}], None) /\
   sse_frames [Ok ("data:" +:+ Str.take 1 e); Ok (Str.drop 1 e)]
   = ([{| event := None; data := Utf8.replacement +:+ Utf8.replacement |}], None)).
Proof.
  unfold sse_frames. rewrite !frames_loop_text by (try done; simpl; rewrite <- ?Htext; done).
  simpl (_ +:+ _). rewrite Htext. split; [done|]. split; [done|]. split; vm_compute; reflexivity.
Qed.

Lemma frames_ignore_chunking_witness :
  sse_frames (Ok <$> ["data: a" +:+ Str.lf; Str.lf +:+ "data: b"])
  = sse_frames (Ok <$> ["data: a" +:+ Str.lf +:+ Str.lf +:+ "data: b"]).
Proof.
  apply (frames_ignore_chunking ["data: a" +:+ Str.lf; Str.lf +:+ "data: b"]
           ["data: a" +:+ Str.lf +:+ Str.lf +:+ "data: b"]);
    [repeat constructor|repeat constructor|reflexivity|vm_compute; discriminate].
Defined.


(** A chat stream loses nothing: its events start with the message start; the text deltas are
    the scrubbed non-empty contents of the chunks, in order; and when the stream does not fail, it ends
    with the message delta and stop, and the tool arguments it reports are exactly the non-empty
    arguments of the calls, each assembled over all chunks by its index. Its blocks are not always
    bracketed: with two tool calls the first block is never closed. *)
Theorem chat_stream_faithful `{Json} (frames : Frames) :
  let evs := (ChatSse.parse_chat_sse frames).1 in
  head evs = Some MessageStart /\
  texts evs = chunks frames ≫= piece /\
  ((ChatSse.parse_chat_sse frames).2 = None ->
   (exists pre st u, evs = pre ++ [MessageDelta st u; MessageStop]) /\
   forall a, a ∈ jsons evs <->
     a <> "" /\ exists idx, args_at idx (chunks frames ≫= call_values) = a) /\
  (let call (i : Z) n := obj [("index", jnum i); ("function", obj [("name", jstr n)])] in
   let chunk := obj [("choices", Array [obj [("delta", obj [("tool_calls",
                  Array [call 0%Z "f"; call 1%Z "g"])])]])] in
   brackets RNone (ChatSse.chat_value chunk ChatSse.chat_init).2 = None).
Proof.
  cbn zeta. unfold ChatSse.parse_chat_sse.
  destruct (chat_loop_spec frames ChatSse.chat_init) as [Ht Hrest]; [constructor|].
  split; [done|]. split; [exact Ht|]. split; [|vm_compute; reflexivity].
  intros Hnone. destruct (Hrest Hnone) as [(pre & st & u & Hpre) Hj]. split.
  - exists (MessageStart :: pre), st, u. unfold emit. cbn [fst]. by rewrite Hpre.
  - exact Hj.
Qed.
