(* ===== verification/Jobs.v ===== *)
(** * The durable job queue

    [app-server/src/jobs/queue.rs], [worker.rs] and [spawn.rs]. The [jobs] table is a list of rows in
    the database's physical order; every SQL statement is the function it computes on that list,
    evaluated at its transaction's [now()] (microseconds) and under the row-level-security setting
    [app.tenant_id]. Section [Worker] holds one worker's loop over an opaque handler and clock, module
    [Sched] the interleavings of any number of workers as a step relation. *)
From S2P Require Import Prelude RustStr Json.
From stdpp Require Import relations.

#[local] Open Scope string_scope.
#[local] Open Scope list_scope.

(** ** Data *)

(* src/qcue-rs/app-server/src/jobs/queue.rs 15-22 JobKind *)
Inductive JobKind : Type := Ingest | Lint | Dream | Transcribe | SyncMaterialize | Export.
#[export] Instance JobKind_eq_dec : EqDecision JobKind.
Proof. solve_decision. Defined.

(* src/qcue-rs/app-server/src/jobs/queue.rs 24-33 as_db *)
Definition as_db (k : JobKind) : string :=
  match k with
  | Ingest => "ingest"
  | Lint => "lint"
  | Dream => "dream"
  | Transcribe => "transcribe"
  | SyncMaterialize => "sync_materialize"
  | Export => "export"
  end.

(** The Postgres enum [job_state]. *)
(* src/qcue-rs/migrations/00000_M0_0000_prelude.sql 66-66 job_state *)
Inductive JobState : Type := Pending | Leased | Done | Failed | Skipped | Canceled.
#[export] Instance JobState_eq_dec : EqDecision JobState.
Proof. solve_decision. Defined.

(* src/qcue-rs/migrations/20002_M2_0002_jobs.sql 7-25 jobs *)
Record Job : Type := {
  id : Uuid;
  tenant_id : Uuid;
  user_id : option Uuid;
  kind : JobKind;
  state : JobState;
  payload : Value;
  job_result : option Value;
  lease_holder : option string;
  lease_expires : option Z;
  attempt_count : Z;
  max_attempts : Z;
  last_error : option string;
  priority : Z;
  available_at : Z;
  created_at : Z;
  updated_at : Z;
}.

Abbreviation Table := (list Job).
Definition ids (t : Table) : list Uuid := id <$> t.
Definition row (t : Table) (i : Uuid) : option Job := find_first (fun j => N.eqb (id j) i) t.

(** [UPDATE jobs SET f WHERE p] *)
Definition update_where (p : Job -> bool) (f : Job -> Job) (t : Table) : Table :=
  (fun j => if p j then f j else j) <$> t.

(** The policy [jobs_tenant_isolation]: a transaction sees and writes only its tenant's rows. *)
(* src/qcue-rs/migrations/20002_M2_0002_jobs.sql 36-38 jobs_tenant_isolation *)
Definition rls (tx : Uuid) (j : Job) : bool := N.eqb (tenant_id j) tx.

Definition is_state (s : JobState) (j : Job) : bool := bool_decide (state j = s).
Definition in_flight (j : Job) : bool := is_state Pending j || is_state Leased j.
Definition count (p : Job -> bool) (t : Table) : Z :=
  Z.of_nat (length (filter (fun j => p j = true) t)).

(** ** Enqueueing *)

(* src/qcue-rs/app-server/src/jobs/queue.rs 37-43 EnqueueError *)
Inductive EnqueueError : Type := Overloaded | Db.

(* src/qcue-rs/app-server/src/jobs/queue.rs 46-46 MAX_PENDING_PER_TENANT *)
Definition MAX_PENDING_PER_TENANT : Z := 500.

Section Enqueue.
(** The text of a JSON value that is neither a string nor null, as [->>] prints it. *)
Context (pg_text : Value -> string).

(** [payload->>'debounce_ref'] *)
Definition debounce_ref_of (v : Value) : option string :=
  match get "debounce_ref" v with
  | Some (String_ s) => Some s
  | Some Null | None => None
  | Some x => Some (pg_text x)
  end.

Definition debounces (tx tenant : Uuid) (k : JobKind) (reff : string) (j : Job) : bool :=
  rls tx j && N.eqb (tenant_id j) tenant && bool_decide (kind j = k) && is_state Pending j &&
  match debounce_ref_of (payload j) with Some r => String.eqb r reff | None => false end.

(** [obj.insert("debounce_ref", ..)] when the payload is an object. *)
Definition with_ref (debounce_ref : option string) (v : Value) : Value :=
  match debounce_ref, v with
  | Some reff, Object m => Object (JMap.insert "debounce_ref" (String_ reff) m)
  | _, _ => v
  end.

(** A row as [INSERT] leaves it, the other columns at their declared defaults. *)
Definition fresh_job (now : Z) (new_id tenant : Uuid) (user : option Uuid) (k : JobKind) (pl : Value) :
  Job :=
  {| id := new_id; tenant_id := tenant; user_id := user; kind := k; state := Pending;
     payload := pl; job_result := None; lease_holder := None; lease_expires := None;
     attempt_count := 0; max_attempts := 5; last_error := None; priority := 0;
     available_at := now; created_at := now; updated_at := now |}.

(** [new_id] is [Uuid::now_v7()]; the insert fails on the primary key and on the policy's check. *)
(* src/qcue-rs/app-server/src/jobs/queue.rs 50-94 enqueue *)
Definition enqueue (now : Z) (tx : Uuid) (new_id tenant : Uuid) (user : option Uuid) (k : JobKind)
  (pl : Value) (debounce_ref : option string) (t : Table) : result EnqueueError Uuid * Table :=
  let inflight := count (fun j => rls tx j && N.eqb (tenant_id j) tenant && in_flight j) t in
  if (MAX_PENDING_PER_TENANT <=? inflight)%Z then (Err Overloaded, t)
  else
    match debounce_ref ≫= fun reff => find_first (debounces tx tenant k reff) t with
    | Some j => (Ok (id j), t)
    | None =>
        if bool_decide (new_id ∈ ids t) || negb (N.eqb tenant tx) then (Err Db, t)
        else (Ok new_id, t ++ [fresh_job now new_id tenant user k (with_ref debounce_ref pl)])
    end.
End Enqueue.

(** ** Claiming *)
Definition five_minutes : Z := 300000000.

(* src/qcue-rs/app-server/src/jobs/queue.rs 102-103 claim_one *)
Definition claimable (locked : list Uuid) (now : Z) (tx tenant : Uuid) (j : Job) : bool :=
  rls tx j && N.eqb (tenant_id j) tenant && is_state Pending j && (available_at j <=? now)%Z &&
  negb (bool_decide (id j ∈ locked)).

(** [ORDER BY priority DESC, available_at] *)
(* src/qcue-rs/app-server/src/jobs/queue.rs 103-103 claim_one *)
Definition before (j k : Job) : bool :=
  (priority k <? priority j)%Z
  || (priority j =? priority k)%Z && (available_at j <? available_at k)%Z.

(** [LIMIT 1]: ties go to the row the scan meets first, in an order the table is free to have. *)
Fixpoint first_by (l : list Job) : option Job :=
  match l with
  | [] => None
  | j :: l =>
      match first_by l with
      | Some k => Some (if before k j then k else j)
      | None => Some j
      end
  end.

Definition lease (now : Z) (worker : string) (j : Job) : Job :=
  {| id := id j; tenant_id := tenant_id j; user_id := user_id j; kind := kind j; state := Leased;
     payload := payload j; job_result := job_result j; lease_holder := Some worker;
     lease_expires := Some (now + five_minutes)%Z; attempt_count := (attempt_count j + 1)%Z;
     max_attempts := max_attempts j; last_error := last_error j; priority := priority j;
     available_at := available_at j; created_at := created_at j; updated_at := now |}.

(** [locked] are the rows other open transactions hold ([SKIP LOCKED]). *)
(* src/qcue-rs/app-server/src/jobs/queue.rs 98-110 claim_one *)
Definition claim_one (locked : list Uuid) (now : Z) (tx tenant : Uuid) (worker : string) (t : Table) :
  option Uuid * Table :=
  match first_by (filter (fun j => claimable locked now tx tenant j = true) t) with
  | None => (None, t)
  | Some j => (Some (id j), update_where (fun k => rls tx k && N.eqb (id k) (id j)) (lease now worker) t)
  end.

(** ** Settling *)

(** Every lifecycle update touches these columns; [jobs_touch] stamps [updated_at] on each. *)
Definition settle_row (now : Z) (s : JobState) (res : option Value) (err : option string)
  (avail : Z) (j : Job) : Job :=
  {| id := id j; tenant_id := tenant_id j; user_id := user_id j; kind := kind j; state := s;
     payload := payload j; job_result := res; lease_holder := None; lease_expires := None;
     attempt_count := attempt_count j; max_attempts := max_attempts j; last_error := err;
     priority := priority j; available_at := avail; created_at := created_at j; updated_at := now |}.

(* src/qcue-rs/app-server/src/jobs/worker.rs 97-97 fail_or_retry *)
Definition retry_state (j : Job) : JobState :=
  if (max_attempts j <=? attempt_count j)%Z then Failed else Pending.

(** [complete] leaves the lease columns as they are. *)
Definition done_row (now : Z) (res : Value) (j : Job) : Job :=
  {| id := id j; tenant_id := tenant_id j; user_id := user_id j; kind := kind j; state := Done;
     payload := payload j; job_result := Some res; lease_holder := lease_holder j;
     lease_expires := lease_expires j; attempt_count := attempt_count j;
     max_attempts := max_attempts j; last_error := last_error j; priority := priority j;
     available_at := available_at j; created_at := created_at j; updated_at := now |}.
Definition retry_row (now : Z) (err : string) (backoff_secs : Z) (j : Job) : Job :=
  settle_row now (retry_state j) (job_result j) (Some err) (now + backoff_secs * 1000000)%Z j.
Definition cancel_row (now : Z) (j : Job) : Job :=
  settle_row now Canceled (job_result j) (last_error j) (available_at j) j.
Definition reclaim_row (now : Z) (j : Job) : Job :=
  settle_row now (retry_state j) (job_result j)
    (opt_or (last_error j) (Some "stale lease reclaimed")) (available_at j) j.

Definition visible (tx job_id : Uuid) (j : Job) : bool := rls tx j && N.eqb (id j) job_id.
Definition stale (now : Z) (tx tenant : Uuid) (j : Job) : bool :=
  rls tx j && N.eqb (tenant_id j) tenant && is_state Leased j &&
  match lease_expires j with Some e => (e <? now)%Z | None => false end.

(* src/qcue-rs/app-server/src/jobs/worker.rs 65-81 reclaim_stale *)
Definition reclaim_stale (now : Z) (tenant : Uuid) (t : Table) : Z * Table :=
  (count (stale now tenant tenant) t, update_where (stale now tenant tenant) (reclaim_row now) t).

(* src/qcue-rs/app-server/src/jobs/worker.rs 84-91 complete *)
Definition complete (now : Z) (tx job_id : Uuid) (res : Value) (t : Table) : Table :=
  update_where (visible tx job_id) (done_row now res) t.

(* src/qcue-rs/app-server/src/jobs/worker.rs 95-107 fail_or_retry *)
Definition fail_or_retry (now : Z) (tx job_id : Uuid) (err : string) (backoff_secs : Z) (t : Table) :
  Table :=
  update_where (visible tx job_id) (retry_row now err backoff_secs) t.

(* src/qcue-rs/app-server/src/jobs/worker.rs 110-119 cancel *)
Definition cancel (now : Z) (tx job_id : Uuid) (t : Table) : Table :=
  update_where (fun j => visible tx job_id j && in_flight j) (cancel_row now) t.

(** ** The worker *)

(* src/qcue-rs/app-server/src/jobs/worker.rs 18-23 WorkerGates *)
Record WorkerGates : Type := {
  gate_ingest : bool;
  gate_lint : bool;
  gate_dream : bool;
  gate_sync : bool;
}.

(* src/qcue-rs/app-server/src/jobs/worker.rs 25-33 enabled *)
Definition enabled (g : WorkerGates) (k : JobKind) : bool :=
  match k with
  | Ingest | Transcribe => gate_ingest g
  | Lint => gate_lint g
  | Dream => gate_dream g
  | SyncMaterialize => gate_sync g
  | Export => gate_sync g
  end.

(* src/qcue-rs/app-server/src/jobs/worker.rs 38-44 JobContext *)
Record JobContext : Type := {
  ctx_id : Uuid;
  ctx_tenant : Uuid;
  ctx_kind : JobKind;
  ctx_payload : Value;
  ctx_attempt : Z;
}.

Section Worker.
(** Everything outside the table: the clock [begin] reads and the effects of handlers. *)
Context {W : Type} (clock : W -> Z * W).

(** [JobHandler] *)
(* src/qcue-rs/app-server/src/jobs/worker.rs 49-51 JobHandler *)
Definition JobHandler : Type := JobContext -> W -> result string Value * W.

(* src/qcue-rs/app-server/src/jobs/worker.rs 57-61 EchoHandler *)
Definition EchoHandler : JobHandler := fun job w =>
  (Ok (obj [("echo", ctx_payload job); ("kind", jstr (as_db (ctx_kind job)))]), w).

(* src/qcue-rs/app-server/src/jobs/worker.rs 124-128 HandlerRegistry *)
Record HandlerRegistry : Type := {
  reg_ingest : option JobHandler;
  reg_dream : option JobHandler;
}.

(* src/qcue-rs/app-server/src/jobs/worker.rs 129-137 default *)
Definition registry_new : HandlerRegistry := {| reg_ingest := None; reg_dream := None |}.
(* src/qcue-rs/app-server/src/jobs/worker.rs 139-142 with_ingest *)
Definition with_ingest (h : JobHandler) (r : HandlerRegistry) : HandlerRegistry :=
  {| reg_ingest := Some h; reg_dream := reg_dream r |}.
(* src/qcue-rs/app-server/src/jobs/worker.rs 145-148 with_dream *)
Definition with_dream (h : JobHandler) (r : HandlerRegistry) : HandlerRegistry :=
  {| reg_ingest := reg_ingest r; reg_dream := Some h |}.
(* src/qcue-rs/app-server/src/jobs/worker.rs 150-156 handler_for *)
Definition handler_for (r : HandlerRegistry) (k : JobKind) : JobHandler :=
  match k with
  | Ingest => unwrap_or (reg_ingest r) EchoHandler
  | Dream => unwrap_or (reg_dream r) EchoHandler
  | _ => EchoHandler
  end.

(** The transition the handler's answer asks for, in the transaction of the claim. *)
Definition settle (now : Z) (tx job_id : Uuid) (r : result string Value) (t : Table) : Table :=
  match r with
  | Ok res => complete now tx job_id res t
  | Err e => fail_or_retry now tx job_id e 30 t
  end.

Definition context_of (tenant : Uuid) (k : JobKind) (claimed : Uuid) (j : Job) : JobContext :=
  {| ctx_id := claimed; ctx_tenant := tenant; ctx_kind := k; ctx_payload := payload j;
     ctx_attempt := attempt_count j |}.

(** One pass of the loop: the worker's own transaction, [None] when nothing could be claimed. *)
Definition run_pass (tenant : Uuid) (k : JobKind) (worker : string) (h : JobHandler) (t : Table)
  (w : W) : option (Table * Uuid) * W :=
  let '(now, w) := clock w in
  match claim_one [] now tenant tenant worker t with
  | (None, _) => (None, w)
  | (Some claimed, t1) =>
      match row t1 claimed with
      | None => (None, w)
      | Some j =>
          let '(r, w) := h (context_of tenant k claimed j) w in
          (Some (settle now tenant claimed r t1, claimed), w)
      end
  end.

(** [None]: out of fuel. Otherwise the jobs processed, in order, and the table. *)
Fixpoint run_loop (fuel : nat) (tenant : Uuid) (k : JobKind) (worker : string) (h : JobHandler)
  (processed : list Uuid) (t : Table) (w : W) : option (list Uuid * Table * W) :=
  match fuel with
  | 0 => None
  | S fuel =>
      match run_pass tenant k worker h t w with
      | (None, w) => Some (processed, t, w)
      | (Some (t, claimed), w) => run_loop fuel tenant k worker h (processed ++ [claimed]) t w
      end
  end.

(* src/qcue-rs/app-server/src/jobs/worker.rs 175-219 run_once *)
Definition run_once (fuel : nat) (g : WorkerGates) (tenant : Uuid) (k : JobKind) (worker : string)
  (h : JobHandler) (t : Table) (w : W) : option (list Uuid * Table * W) :=
  if negb (enabled g k) then Some ([], t, w) else run_loop fuel tenant k worker h [] t w.

(* src/qcue-rs/app-server/src/jobs/worker.rs 161-170 run_once_registry *)
Definition run_once_registry (fuel : nat) (g : WorkerGates) (tenant : Uuid) (k : JobKind)
  (worker : string) (r : HandlerRegistry) (t : Table) (w : W) : option (list Uuid * Table * W) :=
  run_once fuel g tenant k worker (handler_for r k) t w.

(** [ingest_tick] over the tenants of the scan; the reclaim runs at its own transaction's time. *)
(* src/qcue-rs/app-server/src/jobs/spawn.rs 49-65 ingest_tick *)
Fixpoint ingest_tick (fuel : nat) (g : WorkerGates) (worker : string) (r : HandlerRegistry)
  (tenants : list Uuid) (processed : list Uuid) (t : Table) (w : W) :
  option (list Uuid * Table * W) :=
  match tenants with
  | [] => Some (processed, t, w)
  | tenant :: tenants =>
      let '(now, w) := clock w in
      let t := snd (reclaim_stale now tenant t) in
      '(p, t, w) ← run_once_registry fuel g tenant Ingest worker r t w;
      ingest_tick fuel g worker r tenants (processed ++ p) t w
  end.
End Worker.

(** ** Any number of workers

    An open transaction holds the row it claimed, in the version only it sees, from the claim to its
    commit: the handler runs in between. A crash of the process, a panic of the handler and a failed
    commit all roll the transaction back. *)
Module Sched.
Record OpenTx : Type := { tx_worker : string; tx_tenant : Uuid; tx_row : Job }.
Record Sys : Type := { committed : Table; open : list OpenTx }.

Definition locked (s : Sys) : list Uuid := (fun o => id (tx_row o)) <$> open s.
Definition replace_row (j : Job) (t : Table) : Table :=
  update_where (visible (tenant_id j) (id j)) (fun _ => j) t.
(** The row a pass leaves behind, by the handler's answer. *)
Definition after (now : Z) (r : result string Value) (j : Job) : Job :=
  match r with Ok res => done_row now res j | Err e => retry_row now e 30 j end.

(* src/qcue-rs/app-server/src/jobs/worker.rs 187-217 run_once *)
Inductive step : Sys -> Sys -> Prop :=
| step_claim (now : Z) (tenant : Uuid) (worker : string) (s : Sys) (i : Uuid) (t1 : Table) (j : Job) :
    claim_one (locked s) now tenant tenant worker (committed s) = (Some i, t1) ->
    row t1 i = Some j ->
    step s {| committed := committed s;
              open := open s ++ [{| tx_worker := worker; tx_tenant := tenant; tx_row := j |}] |}
| step_commit (now : Z) (s : Sys) (o1 : list OpenTx) (o : OpenTx) (o2 : list OpenTx)
    (r : result string Value) :
    open s = o1 ++ o :: o2 ->
    step s {| committed := replace_row (after now r (tx_row o)) (committed s); open := o1 ++ o2 |}
| step_crash (s : Sys) (o1 : list OpenTx) (o : OpenTx) (o2 : list OpenTx) :
    open s = o1 ++ o :: o2 -> step s {| committed := committed s; open := o1 ++ o2 |}
| step_enqueue (pg_text : Value -> string) (now : Z) (tx new_id tenant : Uuid) (user : option Uuid)
    (k : JobKind) (pl : Value) (reff : option string) (s : Sys) :
    step s {| committed := snd (enqueue pg_text now tx new_id tenant user k pl reff (committed s));
              open := open s |}
| step_reclaim (now : Z) (tenant : Uuid) (s : Sys) :
    (forall j, j ∈ committed s -> stale now tenant tenant j = true -> id j ∉ locked s) ->
    step s {| committed := snd (reclaim_stale now tenant (committed s)); open := open s |}
| step_cancel (now : Z) (tx i : Uuid) (s : Sys) :
    i ∉ locked s -> step s {| committed := cancel now tx i (committed s); open := open s |}.
End Sched.

(** ** Lemmas: updates *)

Lemma update_where_ids (p : Job -> bool) (f : Job -> Job) (t : Table) :
  (forall j, id (f j) = id j) -> ids (update_where p f t) = ids t.
Proof.
  intros Hf. unfold ids, update_where. rewrite <- list_fmap_compose. apply list_fmap_ext.
  intros i j _. simpl. by destruct (p j); rewrite ?Hf.
Qed.

Lemma elem_of_update_where (p : Job -> bool) (f : Job -> Job) (t : Table) (j : Job) :
  j ∈ update_where p f t <-> exists k, k ∈ t /\ j = if p k then f k else k.
Proof. unfold update_where. rewrite list_elem_of_fmap. split; intros [k [? ?]]; by exists k. Qed.

Lemma update_where_cons (p : Job -> bool) (f : Job -> Job) (j : Job) (t : Table) :
  update_where p f (j :: t) = (if p j then f j else j) :: update_where p f t.
Proof. done. Qed.

Lemma update_where_comp (p : Job -> bool) (f g : Job -> Job) (t : Table) :
  (forall j, p (g j) = p j) ->
  update_where p f (update_where p g t) = update_where p (fun j => f (g j)) t.
Proof.
  intros Hp. unfold update_where. rewrite <- list_fmap_compose. apply list_fmap_ext.
  intros i j _. simpl. destruct (p j) eqn:Hj; [by rewrite Hp, Hj|by rewrite Hj].
Qed.

Lemma update_where_ext (p q : Job -> bool) (f g : Job -> Job) (t : Table) :
  (forall j, j ∈ t -> (if p j then f j else j) = if q j then g j else j) ->
  update_where p f t = update_where q g t.
Proof.
  intros H. unfold update_where. apply list_fmap_ext. intros i j Hj. apply H.
  by apply list_elem_of_lookup_2 with i.
Qed.

Lemma update_where_none (p : Job -> bool) (f : Job -> Job) (t : Table) :
  (forall j, j ∈ t -> p j = false) -> update_where p f t = t.
Proof.
  intros H. rewrite (update_where_ext p (fun _ => false) f (fun j => j)).
  - unfold update_where. by rewrite list_fmap_id.
  - intros j Hj. by rewrite (H j Hj).
Qed.

Lemma ids_inj (t : Table) (j k : Job) :
  NoDup (ids t) -> j ∈ t -> k ∈ t -> id j = id k -> j = k.
Proof.
  intros Hnd Hj Hk Heq. by apply (nodup_key id t).
Qed.

Lemma row_some (t : Table) (i : Uuid) (j : Job) : row t i = Some j -> j ∈ t /\ id j = i.
Proof. intros H. apply find_first_some in H as [? H]. split; [done|by apply N.eqb_eq]. Qed.

Lemma row_in (t : Table) (j : Job) : NoDup (ids t) -> j ∈ t -> row t (id j) = Some j.
Proof.
  intros Hnd Hj. destruct (row t (id j)) as [k|] eqn:Hk.
  - apply row_some in Hk as [Hk Heq]. f_equal. by apply (ids_inj t).
  - pose proof (proj1 (find_first_none _ _) Hk j Hj) as H. simpl in H.
    by rewrite N.eqb_refl in H.
Qed.

Lemma is_state_true (s : JobState) (j : Job) : is_state s j = true <-> state j = s.
Proof. apply bool_decide_eq_true. Qed.

(** ** Lemmas: claiming *)

Lemma before_asym (j k : Job) : before j k = true -> before k j = false.
Proof. unfold before. lia. Qed.

Lemma before_trans (x j k : Job) : before x k = false -> before k j = false -> before x j = false.
Proof. unfold before. lia. Qed.

Lemma first_by_none (l : list Job) : first_by l = None <-> l = [].
Proof. destruct l; [done|]. simpl. by destruct (first_by l). Qed.

Lemma first_by_some (l : list Job) (j : Job) :
  first_by l = Some j -> j ∈ l /\ forall k, k ∈ l -> before k j = false.
Proof.
  revert j. induction l as [|x l IH]; intros j; [done|]. simpl.
  destruct (first_by l) as [y|] eqn:Hl.
  - destruct (IH y eq_refl) as [Hy Hmin]. intros H. inv H. destruct (before y x) eqn:Hyx.
    + split; [by right|]. intros k Hk. apply elem_of_cons in Hk as [->|Hk]; [by apply before_asym|auto].
    + split; [by left|]. intros k Hk. apply elem_of_cons in Hk as [->|Hk]; [unfold before; lia|].
      eapply before_trans; eauto.
  - apply first_by_none in Hl as ->. intros H. inv H. split; [by left|].
    intros k Hk. apply list_elem_of_singleton in Hk as ->. unfold before. lia.
Qed.

(** A claim leases a claimable row that no other claimable row precedes. *)
Lemma claim_one_some (locked : list Uuid) (now : Z) (tx tenant : Uuid) (worker : string)
  (t t1 : Table) (i : Uuid) :
  claim_one locked now tx tenant worker t = (Some i, t1) ->
  exists j, j ∈ t /\ id j = i /\ claimable locked now tx tenant j = true /\
    (forall k, k ∈ t -> claimable locked now tx tenant k = true -> before k j = false) /\
    t1 = update_where (visible tx i) (lease now worker) t.
Proof.
  unfold claim_one. destruct (first_by _) as [j|] eqn:Hf; [|done]. intros H. inv H.
  apply first_by_some in Hf as [Hj Hmin]. apply list_elem_of_filter in Hj as [Hc Hj].
  exists j. repeat split; auto. intros k Hk Hck. apply Hmin. by apply list_elem_of_filter.
Qed.

Lemma claim_one_none (locked : list Uuid) (now : Z) (tx tenant : Uuid) (worker : string)
  (t t1 : Table) :
  claim_one locked now tx tenant worker t = (None, t1) ->
  t1 = t /\ forall j, j ∈ t -> claimable locked now tx tenant j = false.
Proof.
  unfold claim_one. destruct (first_by _) as [j|] eqn:Hf; [done|]. intros H. inv H.
  split; [done|]. apply first_by_none in Hf. intros j Hj.
  destruct (claimable locked now tx tenant j) eqn:Hc; [|done].
  assert (j ∈ @nil Job) as Hn; [|inv Hn]. rewrite <- Hf. by apply list_elem_of_filter.
Qed.

Lemma claimable_true (locked : list Uuid) (now : Z) (tx tenant : Uuid) (j : Job) :
  claimable locked now tx tenant j = true ->
  tenant_id j = tx /\ tenant_id j = tenant /\ state j = Pending /\ (available_at j <= now)%Z /\
  id j ∉ locked.
Proof.
  unfold claimable, rls. intros H. bool_prop. repeat split; try (by apply N.eqb_eq).
  - by apply is_state_true.
  - lia.
  - by eapply bool_decide_eq_false.
Qed.

Lemma visible_true (tx i : Uuid) (j : Job) :
  visible tx i j = true <-> tenant_id j = tx /\ id j = i.
Proof. unfold visible, rls. rewrite andb_true_iff, !N.eqb_eq. done. Qed.

(** ** Lemmas: one worker *)

(** What is left to do for a tenant: a pending row costs its remaining attempts, at least one. *)
Definition cost (tenant : Uuid) (j : Job) : nat :=
  if rls tenant j && is_state Pending j then Nat.max 1 (Z.to_nat (max_attempts j - attempt_count j))
  else 0.
Definition potential (tenant : Uuid) (t : Table) : nat := sum_list_with (cost tenant) t.

Definition processed_row (now : Z) (worker : string) (r : result string Value) (j : Job) : Job :=
  Sched.after now r (lease now worker j).

Lemma processed_row_id (now : Z) (worker : string) (r : result string Value) (j : Job) :
  id (processed_row now worker r j) = id j /\ tenant_id (processed_row now worker r j) = tenant_id j.
Proof. by destruct r. Qed.

Lemma settle_claim (now : Z) (tenant : Uuid) (i : Uuid) (worker : string)
  (r : result string Value) (t : Table) :
  settle now tenant i r (update_where (visible tenant i) (lease now worker) t)
  = update_where (visible tenant i) (processed_row now worker r) t.
Proof. by destruct r; unfold settle, complete, fail_or_retry; rewrite update_where_comp. Qed.

Lemma cost_processed (now : Z) (tenant : Uuid) (worker : string) (r : result string Value) (j : Job) :
  tenant_id j = tenant -> state j = Pending ->
  (cost tenant (processed_row now worker r j) < cost tenant j)%nat.
Proof.
  intros Ht Hs. unfold cost, rls, is_state, processed_row, Sched.after, retry_row, retry_state.
  destruct r; cbn -[Z.sub Z.add Z.to_nat Nat.max]; rewrite Ht, Hs, N.eqb_refl.
  - repeat case_bool_decide; simpl; try done; lia.
  - destruct (Z.leb_spec (max_attempts j) (attempt_count j + 1));
      repeat case_bool_decide; try done; cbn -[Z.sub Z.add Z.to_nat Nat.max]; lia.
Qed.

(** Changing the one row with an id changes a sum over the table by that row's share. *)
Lemma sum_update (c : Job -> nat) (tenant : Uuid) (f : Job -> Job) (t : Table) (j : Job) :
  NoDup (ids t) -> j ∈ t -> tenant_id j = tenant ->
  (sum_list_with c (update_where (visible tenant (id j)) f t) + c j
   = sum_list_with c t + c (f j))%nat.
Proof.
  unfold ids. induction t as [|x t IH]; intros Hnd Hj Ht; [inv Hj|].
  apply NoDup_cons in Hnd as [Hx Hnd]. apply elem_of_cons in Hj as [->|Hj].
  - assert (update_where (visible tenant (id x)) f t = t) as Heq.
    { apply update_where_none. intros k Hk. destruct (visible tenant (id x) k) eqn:Hv; [|done].
      apply visible_true in Hv as [_ Hid]. contradict Hx. rewrite <- Hid.
      by apply list_elem_of_fmap_2. }
    rewrite update_where_cons. simpl. rewrite Heq, (proj2 (visible_true _ _ _) (conj Ht eq_refl)). lia.
  - specialize (IH Hnd Hj Ht). rewrite update_where_cons. simpl.
    destruct (visible tenant (id j) x) eqn:Hv; [|lia].
    apply visible_true in Hv as [_ Hid]. contradict Hx. rewrite Hid. by apply list_elem_of_fmap_2.
Qed.

Section WorkerLemmas.
Context {W : Type} (clock : W -> Z * W).

(** One pass: nothing is claimable, or one claimable row, first in the claim order, is processed, between the
    reading of the clock and what the handler leaves. *)
Lemma run_pass_exact (tenant : Uuid) (k : JobKind) (worker : string) (h : JobHandler) (t : Table)
  (w : W) :
  NoDup (ids t) ->
  match run_pass clock tenant k worker h t w with
  | (None, w') => exists now, clock w = (now, w') /\ forall j, j ∈ t -> claimable [] now tenant tenant j = false
  | (Some (t', i), w') => exists now j r w1,
      clock w = (now, w1) /\ j ∈ t /\ id j = i /\ claimable [] now tenant tenant j = true /\
      (forall x, x ∈ t -> claimable [] now tenant tenant x = true -> before x j = false) /\
      h (context_of tenant k i (lease now worker j)) w1 = (r, w') /\
      t' = update_where (visible tenant i) (processed_row now worker r) t
  end.
Proof.
  intros Hnd. unfold run_pass. destruct (clock w) as [now w1].
  destruct (claim_one [] now tenant tenant worker t) as [[i|] t1] eqn:Hc.
  - apply claim_one_some in Hc as (j & Hj & <- & Hcl & Hmin & ->).
    assert (lease now worker j ∈ update_where (visible tenant (id j)) (lease now worker) t) as Hin.
    { apply elem_of_update_where. exists j. split; [done|].
      apply claimable_true in Hcl as (Ht & _).
      by rewrite (proj2 (visible_true _ _ _) (conj Ht eq_refl)). }
    apply row_in in Hin; [|by rewrite update_where_ids]. simpl in Hin. rewrite Hin.
    destruct (h _ w1) as [r w2] eqn:Hh. exists now, j, r, w1.
    repeat split; auto. apply settle_claim.
  - apply claim_one_none in Hc as [_ Hc]. by exists now.
Qed.
Lemma run_pass_spec (tenant : Uuid) (k : JobKind) (worker : string) (h : JobHandler) (t : Table)
  (w : W) :
  NoDup (ids t) ->
  match run_pass clock tenant k worker h t w with
  | (None, w') => exists now, forall j, j ∈ t -> claimable [] now tenant tenant j = false
  | (Some (t', i), w') => exists now j r w1 w2,
      j ∈ t /\ id j = i /\ claimable [] now tenant tenant j = true /\
      (forall x, x ∈ t -> claimable [] now tenant tenant x = true -> before x j = false) /\
      h (context_of tenant k i (lease now worker j)) w1 = (r, w2) /\
      t' = update_where (visible tenant i) (processed_row now worker r) t
  end.
Proof.
  intros Hnd. pose proof (run_pass_exact tenant k worker h t w Hnd) as Hp.
  destruct (run_pass clock tenant k worker h t w) as [[[t' i]|] w'].
  - destruct Hp as (now & j & r & w1 & _ & Hp). by exists now, j, r, w1, w'.
  - destruct Hp as (now & _ & Hp). by exists now.
Qed.

Lemma run_loop_spec (fuel : nat) (tenant : Uuid) (k : JobKind) (worker : string) (h : JobHandler)
  (t : Table) (w : W) (processed : list Uuid) :
  NoDup (ids t) -> (potential tenant t < fuel)%nat ->
  exists more t' w',
    run_loop clock fuel tenant k worker h processed t w = Some (processed ++ more, t', w') /\
    (length more <= potential tenant t)%nat /\ ids t' = ids t /\
    (forall j, j ∈ t -> tenant_id j <> tenant \/ state j <> Pending -> j ∈ t') /\
    (exists now, forall j, j ∈ t' -> claimable [] now tenant tenant j = false).
Proof.
  revert t w processed. induction fuel as [|fuel IH]; intros t w processed Hnd Hf; [lia|].
  simpl. pose proof (run_pass_spec tenant k worker h t w Hnd) as Hp.
  destruct (run_pass clock tenant k worker h t w) as [[[t' i]|] w'].
  - destruct Hp as (now & j & r & w1 & w2 & Hj & <- & Hcl & _ & _ & ->).
    apply claimable_true in Hcl as (Ht & _ & Hs & _ & _).
    set (t' := update_where (visible tenant (id j)) (processed_row now worker r) t).
    assert (ids t' = ids t) as Hids.
    { apply update_where_ids. intros x. apply processed_row_id. }
    pose proof (sum_update (cost tenant) tenant (processed_row now worker r) t j Hnd Hj Ht) as Hsum.
    pose proof (cost_processed now tenant worker r j Ht Hs) as Hlt.
    fold t' in Hsum. fold (potential tenant t') in Hsum. fold (potential tenant t) in Hsum.
    destruct (IH t' w' (processed ++ [id j])) as (more & t2 & w2' & Hrun & Hlen & Hi2 & Hoth & Hno);
      [by rewrite Hids|lia|].
    exists (id j :: more), t2, w2'. rewrite Hrun. repeat split.
    + by rewrite <- app_assoc.
    + simpl. lia.
    + congruence.
    + intros x Hx Hor. apply Hoth; [|done]. apply elem_of_update_where. exists x. split; [done|].
      destruct (visible tenant (id j) x) eqn:Hv; [|done].
      apply visible_true in Hv as [Hxt Hid]. apply (ids_inj t) in Hid as ->; [|done..].
      destruct Hor; congruence.
    + done.
  - exists [], t, w'. rewrite app_nil_r. repeat split; auto. simpl. lia.
Qed.
End WorkerLemmas.

(** ** One worker's tick *)

(** A tick of [run_once] terminates: with one unit of fuel per remaining attempt of the tenant's
    pending jobs, and one more, it returns whatever the clock and the handler do. It processes at most
    that many jobs, leaves no job claimable at its last look at the clock, and touches no row of
    another tenant, no row that was not pending, and nothing at all when the family is gated off. *)
Theorem run_once_drains {W : Type} (clock : W -> Z * W) (g : WorkerGates) (tenant : Uuid)
  (k : JobKind) (worker : string) (h : JobHandler) (t : Table) (w : W) :
  NoDup (ids t) ->
  exists processed t' w',
    run_once clock (S (potential tenant t)) g tenant k worker h t w = Some (processed, t', w') /\
    (length processed <= potential tenant t)%nat /\ ids t' = ids t /\
    (forall j, j ∈ t -> tenant_id j <> tenant \/ state j <> Pending -> j ∈ t') /\
    (if enabled g k
     then exists now, forall j, j ∈ t' -> claimable [] now tenant tenant j = false
     else processed = [] /\ t' = t /\ w' = w).
Proof.
  intros Hnd. unfold run_once. destruct (enabled g k); simpl.
  - destruct (run_loop_spec clock (S (potential tenant t)) tenant k worker h t w [] Hnd)
      as (more & t' & w' & H & Hrest); [lia|]. by exists more, t', w'.
  - exists [], t, w. repeat split; auto. simpl. lia.
Qed.

(** ** Lemmas: many workers *)

(** The rows of a table no worker is dead in: attempts within the limit, and below it while pending. *)
Definition row_wf (j : Job) : Prop :=
  state j <> Leased /\ (attempt_count j <= max_attempts j)%Z /\
  (state j = Pending -> (attempt_count j < max_attempts j)%Z).

Record inv (s : Sched.Sys) : Prop := {
  inv_ids : NoDup (ids (Sched.committed s));
  inv_rows : forall j, j ∈ Sched.committed s -> row_wf j;
  inv_locks : NoDup (Sched.locked s);
  inv_open : forall o, o ∈ Sched.open s -> exists j now,
    j ∈ Sched.committed s /\ state j = Pending /\ Sched.tx_row o = lease now (Sched.tx_worker o) j;
}.

Lemma after_wf (now nowc : Z) (worker : string) (r : result string Value) (j : Job) :
  row_wf j -> state j = Pending -> row_wf (Sched.after now r (lease nowc worker j)).
Proof.
  intros (_ & _ & Hp) Hs. specialize (Hp Hs). unfold row_wf, Sched.after, retry_row, retry_state.
  destruct r; simpl.
  - split; [done|]. split; [lia|done].
  - destruct (Z.leb_spec (max_attempts j) (attempt_count j + 1)); repeat split; try done; lia.
Qed.

(** Without committed leases there is nothing to reclaim. *)
Lemma reclaim_nothing (now : Z) (tenant : Uuid) (t : Table) :
  (forall j, j ∈ t -> state j <> Leased) -> reclaim_stale now tenant t = (0%Z, t).
Proof.
  intros H. assert (forall j, j ∈ t -> stale now tenant tenant j = false) as Hs.
  { intros j Hj. unfold stale, is_state. rewrite (bool_decide_eq_false_2 _ (H j Hj)).
    by destruct (rls tenant j), (N.eqb _ _). }
  unfold reclaim_stale. rewrite update_where_none by done. f_equal. unfold count.
  replace (filter _ t) with (@nil Job); [done|]. symmetry.
  induction t as [|j t IH]; [done|]. rewrite filter_cons_False.
  - apply IH; [intros k Hk; apply H; by right|intros k Hk; apply Hs; by right].
  - rewrite Hs by left. done.
Qed.

Lemma cancel_row_wf (now : Z) (j : Job) : row_wf j -> row_wf (cancel_row now j).
Proof. by intros (_ & ? & _). Qed.

Lemma locked_split (s : Sched.Sys) (o1 o2 : list Sched.OpenTx) (o : Sched.OpenTx) :
  Sched.open s = o1 ++ o :: o2 -> NoDup (Sched.locked s) ->
  NoDup ((fun o => id (Sched.tx_row o)) <$> (o1 ++ o2)) /\
  (forall p, p ∈ o1 ++ o2 -> id (Sched.tx_row p) <> id (Sched.tx_row o)).
Proof.
  unfold Sched.locked. intros ->. rewrite !fmap_app, fmap_cons. intros Hnd.
  rewrite <- Permutation_middle in Hnd. apply NoDup_cons in Hnd as [Ho Hnd]. split; [done|].
  intros p Hp Heq. apply Ho. rewrite <- fmap_app, <- Heq.
  apply list_elem_of_fmap. by exists p.
Qed.

Lemma enqueue_table (pg_text : Value -> string) (now : Z) (tx new_id tenant : Uuid)
  (user : option Uuid) (k : JobKind) (pl : Value) (reff : option string) (t : Table) :
  snd (enqueue pg_text now tx new_id tenant user k pl reff t) = t \/
  (new_id ∉ ids t) /\
  snd (enqueue pg_text now tx new_id tenant user k pl reff t)
  = t ++ [fresh_job now new_id tenant user k (with_ref reff pl)].
Proof.
  unfold enqueue. destruct (_ <=? _)%Z; [by left|].
  destruct (reff ≫= _) as [j|]; [by left|].
  destruct (bool_decide_reflect (new_id ∈ ids t)) as [|Hn]; [by left|].
  destruct (N.eqb tenant tx); [by right|by left].
Qed.

Lemma inv_commit (now : Z) (s : Sched.Sys) (o1 : list Sched.OpenTx) (o : Sched.OpenTx)
  (o2 : list Sched.OpenTx) (r : result string Value) :
  inv s -> Sched.open s = o1 ++ o :: o2 ->
  exists j nowc, j ∈ Sched.committed s /\ state j = Pending /\
    Sched.tx_row o = lease nowc (Sched.tx_worker o) j /\
    Sched.replace_row (Sched.after now r (Sched.tx_row o)) (Sched.committed s)
    = update_where (visible (tenant_id j) (id j))
        (fun _ => Sched.after now r (lease nowc (Sched.tx_worker o) j)) (Sched.committed s).
Proof.
  intros Hinv Ho. destruct (inv_open s Hinv o) as (j & nowc & Hj & Hs & Hrow).
  { rewrite Ho. apply elem_of_app. right. left. }
  exists j, nowc. repeat split; auto. unfold Sched.replace_row. rewrite Hrow. by destruct r.
Qed.

(** A row that differs from the updated one by its id is still there. *)
Lemma update_other (tenant i : Uuid) (f : Job -> Job) (t : Table) (k : Job) :
  k ∈ t -> id k <> i -> k ∈ update_where (visible tenant i) f t.
Proof.
  intros Hk Hne. apply elem_of_update_where. exists k. split; [done|].
  destruct (visible tenant i k) eqn:Hv; [|done]. by apply visible_true in Hv as [_ ?].
Qed.

Lemma inv_claim (now : Z) (tenant : Uuid) (worker : string) (s : Sched.Sys) (i : Uuid) (t1 : Table)
  (j : Job) :
  inv s ->
  claim_one (Sched.locked s) now tenant tenant worker (Sched.committed s) = (Some i, t1) ->
  row t1 i = Some j ->
  exists k, k ∈ Sched.committed s /\ state k = Pending /\ j = lease now worker k /\
    id j ∉ Sched.locked s.
Proof.
  intros Hinv Hc Hrow. apply claim_one_some in Hc as (k & Hk & <- & Hcl & _ & ->).
  apply claimable_true in Hcl as (Ht & _ & Hs & _ & Hl). exists k.
  assert (lease now worker k ∈ update_where (visible tenant (id k)) (lease now worker) (Sched.committed s))
    as Hin.
  { apply elem_of_update_where. exists k. split; [done|].
    by rewrite (proj2 (visible_true _ _ _) (conj Ht eq_refl)). }
  apply row_in in Hin; [|rewrite update_where_ids by done; apply Hinv].
  simpl in Hin. rewrite Hin in Hrow. inv Hrow. done.
Qed.

Lemma inv_step_commit (now : Z) (s : Sched.Sys) (o1 : list Sched.OpenTx) (o : Sched.OpenTx)
  (o2 : list Sched.OpenTx) (r : result string Value) :
  inv s -> Sched.open s = o1 ++ o :: o2 ->
  inv {| Sched.committed := Sched.replace_row (Sched.after now r (Sched.tx_row o)) (Sched.committed s);
         Sched.open := o1 ++ o2 |}.
Proof.
  intros Hinv Ho.
  destruct (inv_commit now s o1 o o2 r Hinv Ho) as (j & nowc & Hj & Hs & Hrow & Heq).
  destruct (locked_split s o1 o2 o Ho (inv_locks s Hinv)) as [Hnd Hne].
  rewrite Heq. split; simpl.
  - assert (ids (update_where (visible (tenant_id j) (id j))
      (fun _ => Sched.after now r (lease nowc (Sched.tx_worker o) j)) (Sched.committed s))
      = ids (Sched.committed s)) as ->; [|apply Hinv].
    unfold ids, update_where. rewrite <- list_fmap_compose. apply list_fmap_ext.
    intros n x _. simpl. destruct (visible (tenant_id j) (id j) x) eqn:Hv; [|done].
    apply visible_true in Hv as [_ ->]. by destruct r.
  - intros x Hx. apply elem_of_update_where in Hx as (y & Hy & ->).
    destruct (visible _ _ y); [|by apply Hinv]. apply after_wf; [by apply Hinv|done].
  - done.
  - intros p Hp. destruct (inv_open s Hinv p) as (k & nowk & Hk & Hks & Hkr).
    { rewrite Ho. apply elem_of_app in Hp as [|]; apply elem_of_app; [by left|right; by right]. }
    exists k, nowk. repeat split; auto. apply update_other; [done|].
    specialize (Hne p Hp). rewrite Hrow, Hkr in Hne. exact Hne.
Qed.

Lemma inv_step (s s' : Sched.Sys) : inv s -> Sched.step s s' -> inv s'.
Proof.
  intros Hinv Hstep. destruct Hstep as [now tenant worker s i t1 j Hc Hrow|now s o1 o o2 r Ho
    |s o1 o o2 Ho|pg_text now tx new_id tenant user k pl reff s|now tenant s Hl|now tx i s Hi].
  - destruct (inv_claim _ _ _ _ _ _ _ Hinv Hc Hrow) as (k & Hk & Hs & -> & Hl).
    split; simpl; [apply Hinv..| |].
    + unfold Sched.locked. simpl. rewrite fmap_app. apply NoDup_app. split; [apply Hinv|].
      split; [|apply NoDup_singleton]. intros x Hx Hx'. apply list_elem_of_singleton in Hx'. by subst x.
    + intros o Hin. apply elem_of_app in Hin as [Hin|Hin]; [by apply Hinv|].
      apply list_elem_of_singleton in Hin as ->. by exists k, now.
  - by apply inv_step_commit.
  - destruct (locked_split s o1 o2 o Ho (inv_locks s Hinv)) as [Hnd _].
    split; simpl; [apply Hinv..|done|]. intros p Hp. apply Hinv. rewrite Ho.
    apply elem_of_app in Hp as [|]; apply elem_of_app; [by left|right; by right].
  - destruct (enqueue_table pg_text now tx new_id tenant user k pl reff (Sched.committed s))
      as [Heq|[Hn Heq]]; rewrite Heq; split; simpl; try apply Hinv.
    + unfold ids. rewrite fmap_app. apply NoDup_app. split; [apply Hinv|].
      split; [|apply NoDup_singleton]. intros x Hx Hx'. apply list_elem_of_singleton in Hx'. by subst x.
    + intros j Hj. apply elem_of_app in Hj as [Hj|Hj]; [by apply Hinv|].
      apply list_elem_of_singleton in Hj as ->. unfold row_wf. simpl. split; [done|]. split; [lia|done].
    + intros o Ho. destruct (inv_open s Hinv o Ho) as (j & nowc & Hj & Hrest).
      exists j, nowc. split; [|done]. apply elem_of_app. by left.
  - rewrite reclaim_nothing by (intros j Hj; apply (inv_rows s Hinv j Hj)). simpl. by destruct s.
  - split; simpl.
    + unfold cancel. rewrite update_where_ids; [apply Hinv|done].
    + intros j Hj. apply elem_of_update_where in Hj as (k & Hk & ->).
      case_match; [apply cancel_row_wf|]; by apply Hinv.
    + apply Hinv.
    + intros o Ho. destruct (inv_open s Hinv o Ho) as (j & nowc & Hj & Hs & Hr).
      exists j, nowc. repeat split; auto. apply elem_of_update_where. exists j. split; [done|].
      destruct (visible tx i j && in_flight j) eqn:Hv; [|done]. bool_prop.
      match goal with H : visible _ _ _ = true |- _ => apply visible_true in H as [_ Hid] end.
      contradict Hi. unfold Sched.locked. apply list_elem_of_fmap. exists o.
      by rewrite Hr, <- Hid.
Qed.

Lemma inv_reachable (s s' : Sched.Sys) : inv s -> rtc Sched.step s s' -> inv s'.
Proof. intros Hinv H. induction H; eauto using inv_step. Qed.

Lemma inv_init (t : list Job) (s : Sched.Sys) :
  NoDup (ids t) -> Forall row_wf t ->
  rtc Sched.step {| Sched.committed := t; Sched.open := [] |} s -> inv s.
Proof.
  intros Hnd Hwf Hr. eapply inv_reachable; [|exact Hr].
  split; simpl; [done| |constructor|intros o Ho; inv Ho]. by apply Forall_forall.
Qed.

(** A later version of a row. *)
Definition moved_on (j j' : Job) : Prop :=
  id j' = id j /\ tenant_id j' = tenant_id j /\ kind j' = kind j /\
  max_attempts j' = max_attempts j /\ (state j <> Pending -> j' = j) /\
  (attempt_count j <= attempt_count j' <= attempt_count j + 1)%Z.

Lemma moved_on_refl (j : Job) : moved_on j j.
Proof. unfold moved_on. repeat split; auto; lia. Qed.

Lemma step_moves_on (s s' : Sched.Sys) (j : Job) :
  inv s -> Sched.step s s' -> j ∈ Sched.committed s ->
  exists j', j' ∈ Sched.committed s' /\ moved_on j j'.
Proof.
  intros Hinv Hstep Hj.
  destruct Hstep as [now tenant worker s i t1 k Hc Hrow|now s o1 o o2 r Ho
    |s o1 o o2 Ho|pg_text now tx new_id tenant user k pl reff s|now tenant s Hl|now tx i s Hi];
    cbn [Sched.committed].
  - exists j. auto using moved_on_refl.
  - destruct (inv_commit now s o1 o o2 r Hinv Ho) as (k & nowc & Hk & Hs & _ & ->).
    destruct (decide (id j = id k)) as [Heq|Hne];
      [|exists j; split; [by apply update_other|apply moved_on_refl]].
    apply (ids_inj (Sched.committed s)) in Heq as ->; [|apply Hinv|done..].
    exists (Sched.after now r (lease nowc (Sched.tx_worker o) k)). split.
    + apply elem_of_update_where. exists k. split; [done|].
      by rewrite (proj2 (visible_true _ _ _) (conj eq_refl eq_refl)).
    + unfold moved_on. destruct r; simpl; repeat split; try done; lia.
  - exists j. auto using moved_on_refl.
  - exists j. split; [|apply moved_on_refl].
    destruct (enqueue_table pg_text now tx new_id tenant user k pl reff (Sched.committed s))
      as [->|[_ ->]]; [done|]. apply elem_of_app. by left.
  - rewrite reclaim_nothing by (intros k Hk; apply (inv_rows s Hinv k Hk)).
    exists j. auto using moved_on_refl.
  - exists (if visible tx i j && in_flight j then cancel_row now j else j).
    split; [apply elem_of_update_where; by exists j|].
    destruct (visible tx i j && in_flight j) eqn:Hv; [|apply moved_on_refl].
    unfold moved_on. repeat split; try (simpl; lia). intros Hs.
    apply andb_true_iff in Hv as [_ Hf]. destruct (inv_rows s Hinv j Hj) as (Hl & _).
    by apply orb_true_iff in Hf as [Hf|Hf]; apply is_state_true in Hf.
Qed.

(** A worker's pass is a claim and a commit with nothing in between. *)
Lemma pass_steps {W : Type} (clock : W -> Z * W) (tenant : Uuid) (k : JobKind) (worker : string)
  (h : JobHandler) (t t' : Table) (i : Uuid) (w w' : W) :
  NoDup (ids t) -> run_pass clock tenant k worker h t w = (Some (t', i), w') ->
  rtc Sched.step {| Sched.committed := t; Sched.open := [] |}
    {| Sched.committed := t'; Sched.open := [] |}.
Proof.
  intros Hnd. unfold run_pass. destruct (clock w) as [now w1].
  destruct (claim_one [] now tenant tenant worker t) as [[c|] t1] eqn:Hc; [|done].
  destruct (row t1 c) as [j|] eqn:Hrow; [|done]. destruct (h _ w1) as [r w2]. intros H. inv H.
  eapply rtc_l; [by eapply (Sched.step_claim now tenant worker); [exact Hc|exact Hrow]|].
  eapply rtc_l; [|apply rtc_refl]. simpl.
  pose proof (Sched.step_commit now {| Sched.committed := t; Sched.open :=
    [{| Sched.tx_worker := worker; Sched.tx_tenant := tenant; Sched.tx_row := j |}] |}
    [] _ [] r eq_refl) as Hs. simpl in Hs.
  replace (settle now tenant i r t1) with (Sched.replace_row (Sched.after now r j) t); [exact Hs|].
  apply claim_one_some in Hc as (x & Hx & <- & Hcl & _ & ->).
  apply claimable_true in Hcl as (Ht & _). rewrite settle_claim.
  assert (j = lease now worker x) as ->.
  { pose proof (row_in (update_where (visible tenant (id x)) (lease now worker) t)
      (lease now worker x)) as Hin. simpl in Hin. rewrite Hin in Hrow; [by inv Hrow| |].
    - by rewrite update_where_ids.
    - apply elem_of_update_where. exists x. split; [done|].
      by rewrite (proj2 (visible_true _ _ _) (conj Ht eq_refl)). }
  unfold Sched.replace_row. apply update_where_ext. intros y Hy.
  replace (visible (tenant_id (Sched.after now r (lease now worker x)))
    (id (Sched.after now r (lease now worker x))) y) with (visible tenant (id x) y)
    by (rewrite <- Ht; by destruct r).
  destruct (visible tenant (id x) y) eqn:Hv; [|done]. apply visible_true in Hv as [_ Hv].
  by apply (ids_inj t) in Hv as ->.
Qed.

Lemma loop_steps {W : Type} (clock : W -> Z * W) (fuel : nat) (tenant : Uuid) (k : JobKind)
  (worker : string) (h : JobHandler) (t t' : Table) (p p' : list Uuid) (w w' : W) :
  NoDup (ids t) -> run_loop clock fuel tenant k worker h p t w = Some (p', t', w') ->
  rtc Sched.step {| Sched.committed := t; Sched.open := [] |}
    {| Sched.committed := t'; Sched.open := [] |}.
Proof.
  revert t p w. induction fuel as [|fuel IH]; intros t p w Hnd; simpl; [done|].
  pose proof (run_pass_spec clock tenant k worker h t w Hnd) as Hsp.
  destruct (run_pass clock tenant k worker h t w) as [[[t1 i]|] w1] eqn:Hp; [|intros H; inv H; done].
  intros H. etrans; [by eapply pass_steps|]. eapply IH; [|exact H].
  destruct Hsp as (now & j & r & w2 & w3 & _ & _ & _ & _ & _ & ->).
  rewrite update_where_ids; [done|]. intros x. apply processed_row_id.
Qed.

(** ** Lemmas: enqueueing *)
Definition inflight_of (tx tenant : Uuid) (t : Table) : Z :=
  count (fun j => rls tx j && N.eqb (tenant_id j) tenant && in_flight j) t.

Lemma count_app (p : Job -> bool) (t u : Table) : count p (t ++ u) = (count p t + count p u)%Z.
Proof. unfold count. rewrite filter_app, length_app. lia. Qed.

Lemma count_one (p : Job -> bool) (j : Job) : (count p [j] <= 1)%Z.
Proof. unfold count. rewrite filter_cons. case_decide; simpl; lia. Qed.

Lemma debounces_fresh (pg_text : Value -> string) (now : Z) (tx i : Uuid) (user : option Uuid)
  (k : JobKind) (m : JMap.t) (reff : string) :
  debounces pg_text tx tx k reff (fresh_job now i tx user k (with_ref (Some reff) (Object m))) = true.
Proof.
  unfold debounces, rls, is_state, debounce_ref_of. simpl. rewrite N.eqb_refl.
  rewrite jmap_get_insert_eq, bool_decide_eq_true_2 by reflexivity. simpl. apply String.eqb_refl.
Qed.

(** What a caller of [enqueue] gets: a pending job of that kind and reference, and at most one new row. *)
Lemma enqueue_ok (pg_text : Value -> string) (now : Z) (new_id tenant i : Uuid) (user : option Uuid)
  (k : JobKind) (m : JMap.t) (reff : string) (t t' : Table) :
  enqueue pg_text now tenant new_id tenant user k (Object m) (Some reff) t = (Ok i, t') ->
  (inflight_of tenant tenant t < MAX_PENDING_PER_TENANT)%Z /\
  (exists j, j ∈ t' /\ id j = i /\ debounces pg_text tenant tenant k reff j = true) /\
  (t' = t /\ opt_is_some (find_first (debounces pg_text tenant tenant k reff) t) = true \/
   find_first (debounces pg_text tenant tenant k reff) t = None /\ i = new_id /\ (new_id ∉ ids t) /\
   t' = t ++ [fresh_job now new_id tenant user k (with_ref (Some reff) (Object m))]).
Proof.
  unfold enqueue. fold (inflight_of tenant tenant t).
  destruct (Z.leb_spec MAX_PENDING_PER_TENANT (inflight_of tenant tenant t)) as [|Hlt]; [done|].
  cbn [mbind option_bind]. destruct (find_first _ t) as [j|] eqn:Hf.
  - intros [= <- <-]. apply find_first_some in Hf as Hj. split; [done|]. split; [exists j; tauto|].
    left. done.
  - destruct (bool_decide_reflect (new_id ∈ ids t)) as [|Hn]; [done|]. cbn [orb].
    destruct (negb _); [done|]. intros [= <- <-]. split; [done|]. split; [|by right].
    eexists. split; [apply elem_of_app; right; left|]. split; [done|]. apply debounces_fresh.
Qed.

(** ** Many workers *)

(** C6: however any number of workers interleave their claims, commits and crashes with enqueues,
    cancels and reclaims, no job is held by two open transactions; a held job is still pending in the
    committed table and its holder sees exactly its leased version; every attempt count stays within
    its limit; and no lease is ever committed, so a reclaim finds nothing. *)
Theorem jobs_exclusive (t : list Job) (s : Sched.Sys) :
  NoDup (ids t) -> Forall row_wf t ->
  rtc Sched.step {| Sched.committed := t; Sched.open := [] |} s ->
  NoDup (Sched.locked s) /\
  (forall o, o ∈ Sched.open s -> exists j now, j ∈ Sched.committed s /\ state j = Pending /\
     Sched.tx_row o = lease now (Sched.tx_worker o) j) /\
  (forall j, j ∈ Sched.committed s -> (attempt_count j <= max_attempts j)%Z) /\
  (forall now tenant, reclaim_stale now tenant (Sched.committed s) = (0%Z, Sched.committed s)).
Proof.
  intros Hnd Hwf Hr. assert (inv s) as Hinv by eauto using inv_init.
  split; [apply Hinv|]. split; [apply Hinv|]. split.
  - intros j Hj. apply (inv_rows s Hinv j Hj).
  - intros now tenant. apply reclaim_nothing. intros j Hj. apply (inv_rows s Hinv j Hj).
Qed.

(** In the same system a job only moves forward: a step keeps every job with its id, tenant, kind
    and limit, changes it only while it is pending, adds at most one attempt, and a job at its limit is
    never pending again. *)
Theorem job_lifecycle (t : list Job) (s s' : Sched.Sys) (j : Job) :
  NoDup (ids t) -> Forall row_wf t ->
  rtc Sched.step {| Sched.committed := t; Sched.open := [] |} s -> Sched.step s s' ->
  j ∈ Sched.committed s ->
  exists j', j' ∈ Sched.committed s' /\ id j' = id j /\ tenant_id j' = tenant_id j /\
    kind j' = kind j /\ max_attempts j' = max_attempts j /\
    (state j <> Pending -> j' = j) /\
    (attempt_count j <= attempt_count j' <= attempt_count j + 1)%Z /\
    (state j' = Pending -> (attempt_count j' < max_attempts j')%Z).
Proof.
  intros Hnd Hwf Hr Hstep Hj. assert (inv s) as Hinv by eauto using inv_init.
  destruct (step_moves_on s s' j Hinv Hstep Hj) as (j' & Hj' & Hm).
  destruct (inv_rows s' (inv_step s s' Hinv Hstep) j' Hj') as (_ & _ & Hp).
  exists j'. unfold moved_on in Hm. tauto.
Qed.

(** The worker loop refines the system: whatever a tick of [run_once] does to the table is a run of
    claim and commit steps that ends with no transaction open, so every invariant of the system holds
    of the table it leaves. *)
Theorem run_once_refines {W : Type} (clock : W -> Z * W) (fuel : nat) (g : WorkerGates)
  (tenant : Uuid) (k : JobKind) (worker : string) (h : JobHandler) (t t' : list Job)
  (p : list Uuid) (w w' : W) :
  NoDup (ids t) -> run_once clock fuel g tenant k worker h t w = Some (p, t', w') ->
  rtc Sched.step {| Sched.committed := t; Sched.open := [] |}
    {| Sched.committed := t'; Sched.open := [] |}.
Proof.
  intros Hnd. unfold run_once. destruct (enabled g k); simpl; [by apply loop_steps|].
  intros H. by inv H.
Qed.

(** A pass claims, among the tenant's pending and due jobs, one no other precedes by priority and
    then by due time, of whatever kind; the handler of the tick's family gets its payload under the
    tick's kind and its raised attempt count; success stores the result, failure retries after thirty
    seconds or, at the limit, fails. *)
Theorem pass_claims_first {W : Type} (clock : W -> Z * W) (tenant : Uuid) (k : JobKind)
  (worker : string) (h : JobHandler) (t : list Job) (w : W) :
  NoDup (ids t) ->
  match run_pass clock tenant k worker h t w with
  | (None, w') => exists now, forall j, j ∈ t -> claimable [] now tenant tenant j = false
  | (Some (t', i), w') => exists now j r w1 w2,
      j ∈ t /\ claimable [] now tenant tenant j = true /\
      (forall x, x ∈ t -> claimable [] now tenant tenant x = true -> before x j = false) /\
      h {| ctx_id := id j; ctx_tenant := tenant; ctx_kind := k; ctx_payload := payload j;
           ctx_attempt := attempt_count j + 1 |} w1 = (r, w2) /\
      (exists j', row t' (id j) = Some j' /\
        match r with
        | Ok v => state j' = Done /\ job_result j' = Some v
        | Err e => last_error j' = Some e /\ available_at j' = (now + 30000000)%Z /\
            state j' = (if (max_attempts j <=? attempt_count j + 1)%Z then Failed else Pending)
        end)
  end.
Proof.
  intros Hnd. pose proof (run_pass_spec clock tenant k worker h t w Hnd) as Hsp.
  destruct (run_pass clock tenant k worker h t w) as [[[t' i]|] w']; [|done].
  destruct Hsp as (now & j & r & w1 & w2 & Hj & <- & Hcl & Hmin & Hh & ->).
  exists now, j, r, w1, w2. repeat split; auto.
  exists (processed_row now worker r j). split; [|by destruct r].
  rewrite <- (proj1 (processed_row_id now worker r j)) at 2. apply row_in.
  - rewrite update_where_ids; [done|]. intros x. apply processed_row_id.
  - apply elem_of_update_where. exists j. split; [done|].
    apply claimable_true in Hcl as (Ht & _).
    by rewrite (proj2 (visible_true _ _ _) (conj Ht eq_refl)).
Qed.

(** Enqueueing never takes a tenant past 500 jobs in flight, an error leaves the table unchanged,
    and a repeat of an object payload under the same kind and debounce reference returns the same job
    without a second row while the tenant is below its bound. *)
Theorem enqueue_bounded_debounced (pg_text : Value -> string) (now : Z) (new_id tenant : Uuid)
  (user : option Uuid) (k : JobKind) (pl : Value) (reff : option string) (t : list Job) :
  let '(r, t') := enqueue pg_text now tenant new_id tenant user k pl reff t in
  (inflight_of tenant tenant t' <= Z.max (inflight_of tenant tenant t) MAX_PENDING_PER_TENANT)%Z /\
  match r with
  | Err _ => t' = t
  | Ok i =>
      i ∈ ids t' /\ (t' = t \/ i = new_id /\ length t' = S (length t)) /\
      forall m reff' now' id' user' m', pl = Object m -> reff = Some reff' ->
        (inflight_of tenant tenant t' < MAX_PENDING_PER_TENANT)%Z ->
        enqueue pg_text now' tenant id' tenant user' k (Object m') reff t' = (Ok i, t')
  end.
Proof.
  unfold enqueue. fold (inflight_of tenant tenant t).
  destruct (Z.leb_spec MAX_PENDING_PER_TENANT (inflight_of tenant tenant t)) as [|Hlt];
    [split; [lia|done]|].
  destruct (reff ≫= fun reff => find_first (debounces pg_text tenant tenant k reff) t) as [j|] eqn:Hd.
  - split; [lia|]. destruct reff as [reff|]; [|done]. simpl in Hd.
    split; [apply list_elem_of_fmap_2; exact (proj1 (find_first_some _ _ _ Hd))|]. split; [by left|].
    intros m reff' now' id' user' m' _ _ Hb. fold (inflight_of tenant tenant t).
    rewrite (proj2 (Z.leb_gt _ _) Hb). simpl. by rewrite Hd.
  - destruct (bool_decide (new_id ∈ ids t) || _); [split; [lia|done]|]. split.
    { unfold inflight_of in *. rewrite count_app.
      pose proof (count_one (fun j => rls tenant j && N.eqb (tenant_id j) tenant && in_flight j)
        (fresh_job now new_id tenant user k (with_ref reff pl))). lia. }
    split; [unfold ids; rewrite fmap_app; apply elem_of_app; right; by left|].
    split; [right; split; [done|rewrite length_app; simpl; lia]|].
    intros m reff' now' id' user' m' -> -> Hb. fold (inflight_of tenant tenant
      (t ++ [fresh_job now new_id tenant user k (with_ref (Some reff') (Object m))])).
    rewrite (proj2 (Z.leb_gt _ _) Hb). cbn [mbind option_bind] in Hd |- *.
    rewrite find_first_app, Hd. cbn [find_first opt_or]. by rewrite debounces_fresh.
Qed.

(** ** Witnesses *)
Definition demo_job (i : N) (k : JobKind) : Job :=
  fresh_job 0%Z i 7%N None k (obj [("idea_id", jstr "x")]).
Definition demo_table : list Job := [demo_job 1%N Ingest; demo_job 2%N Dream].
Definition demo_gates : WorkerGates :=
  {| gate_ingest := true; gate_lint := false; gate_dream := false; gate_sync := false |}.

(** A worker that refuses dream jobs, with a clock that moves a minute at a time. *)
Definition demo_clock (w : Z) : Z * Z := (w, (w + 60000000)%Z).
Definition demo_handler : @JobHandler Z := fun c w =>
  (if N.eqb (ctx_id c) 2%N then Err "ingest payload missing idea_id" else Ok Null, w).

(** The dream job is claimed and failed five times by the ingest family while its own is gated off. *)
Example dream_job_burns_out :
  match run_once demo_clock 10 demo_gates 7%N Ingest "ingest-0" demo_handler demo_table 0%Z with
  | Some (p, t, _) => p = [1; 2; 2; 2; 2; 2]%N /\ map state t = [Done; Failed]
  | None => False
  end.
Proof. vm_compute. split; reflexivity. Qed.

Lemma demo_nodup : NoDup (ids demo_table).
Proof. apply (bool_decide_unpack _). by vm_compute. Qed.

Lemma demo_wf : Forall row_wf demo_table.
Proof. repeat constructor; simpl; try done; lia. Qed.

Lemma run_once_drains_witness :
  NoDup (ids demo_table) /\
  exists processed t' w',
    run_once demo_clock (S (potential 7%N demo_table)) demo_gates 7%N Ingest "ingest-0" demo_handler
      demo_table 0%Z = Some (processed, t', w') /\ (length processed <= 10)%nat.
Proof.
  split; [exact demo_nodup|].
  destruct (run_once_drains demo_clock demo_gates 7%N Ingest "ingest-0" demo_handler demo_table 0%Z
    demo_nodup) as (p & t' & w' & H & Hl & _).
  exists p, t', w'. split; [exact H|]. etrans; [exact Hl|]. by vm_compute.
Defined.

Lemma run_once_refines_witness :
  exists p t' w',
    run_once demo_clock 10 demo_gates 7%N Ingest "ingest-0" demo_handler demo_table 0%Z
    = Some (p, t', w') /\
    rtc Sched.step {| Sched.committed := demo_table; Sched.open := [] |}
      {| Sched.committed := t'; Sched.open := [] |}.
Proof.
  destruct (run_once demo_clock 10 demo_gates 7%N Ingest "ingest-0" demo_handler demo_table 0%Z)
    as [[[p t'] w']|] eqn:E; [|vm_compute in E; discriminate].
  exists p, t', w'. split; [reflexivity|]. exact (run_once_refines _ _ _ _ _ _ _ _ _ _ _ _ demo_nodup E).
Defined.

Lemma pass_claims_first_witness :
  NoDup (ids demo_table) /\ exists now j, j ∈ demo_table /\ claimable [] now 7%N 7%N j = true.
Proof.
  split; [exact demo_nodup|].
  pose proof (pass_claims_first demo_clock 7%N Ingest "ingest-0" demo_handler demo_table 0%Z demo_nodup)
    as H.
  destruct (run_pass _ _ _ _ _ _ _) as [[[t' i]|] w'] eqn:E; [|vm_compute in E; discriminate].
  destruct H as (now & j & _ & _ & _ & Hj & Hc & _). by exists now, j.
Defined.

Definition demo_sys : Sched.Sys :=
  {| Sched.committed := demo_table;
     Sched.open := [{| Sched.tx_worker := "a"; Sched.tx_tenant := 7%N;
                       Sched.tx_row := lease 0%Z "a" (demo_job 1%N Ingest) |}] |}.

Lemma demo_step : Sched.step {| Sched.committed := demo_table; Sched.open := [] |} demo_sys.
Proof. by eapply (Sched.step_claim 0%Z 7%N "a" {| Sched.committed := demo_table; Sched.open := [] |} 1%N). Qed.

Lemma jobs_exclusive_witness :
  NoDup (ids demo_table) /\ NoDup (Sched.locked demo_sys) /\
  (forall now tenant, reclaim_stale now tenant (Sched.committed demo_sys)
     = (0%Z, Sched.committed demo_sys)).
Proof.
  split; [exact demo_nodup|].
  destruct (jobs_exclusive demo_table demo_sys demo_nodup demo_wf (rtc_once _ _ demo_step))
    as (H1 & _ & _ & H4).
  split; [exact H1|exact H4].
Defined.

Lemma job_lifecycle_witness :
  exists j', j' ∈ Sched.committed demo_sys /\ id j' = 1%N.
Proof.
  destruct (job_lifecycle demo_table {| Sched.committed := demo_table; Sched.open := [] |} demo_sys
    (demo_job 1%N Ingest) demo_nodup demo_wf (rtc_refl _ _) demo_step ltac:(left))
    as (j' & Hj & Hi & _).
  exists j'. split; [exact Hj|exact Hi].
Defined.
