(* ===== verification/Dream.v ===== *)
(** * Auto-Dream: the lock that is also the clock, and the scheduler

    [wiki/src/dream/lock.rs] and [wiki/src/dream/scheduler.rs]. The seams of the scheduler, the traits
    [ConsolidationLock], [CapturesSince] and [DreamRunner], are a class and two functions; the Postgres
    lock is an instance over the table [wiki_consolidation]. Module [LockSys] runs any number of
    sessions of the lock against one row, statement by statement. Times are microseconds. *)
From S2P Require Import Prelude RustStr.
From Stdlib Require Import QArith.
From stdpp Require Import relations gmap.

#[local] Open Scope string_scope.
#[local] Open Scope Z_scope.

(** ** The lock *)

(** One row of [wiki_consolidation]. *)
(* src/qcue-rs/migrations/30004_M3_0004_wiki_consolidation.sql 16-28 wiki_consolidation *)
Record Consolidation : Type := {
  last_consolidated_at : option Z;
  holder : option string;
  lease_expires : option Z;
  last_scan_at : option Z;
  sessions_since_last : Z;
  rollback_count : Z;
}.

(** The trait: every operation may fail with [E] and changes the state [S]. *)
(* src/qcue-rs/wiki/src/dream/lock.rs 20-30 ConsolidationLock *)
Class ConsolidationLock (S E : Type) : Type := {
  read_clock : Uuid -> S -> result E Z * S;
  try_acquire : Uuid -> string -> S -> result E (option Z) * S;
  release : Uuid -> S -> result E unit * S;
  rollback : Uuid -> Z -> S -> result E unit * S;
}.

Definition one_hour : Z := 3600000000.

(** [holder IS NULL OR lease_expires IS NULL OR lease_expires < now()] *)
(* src/qcue-rs/wiki/src/dream/lock.rs 90-90 try_acquire *)
Definition lease_free (now : Z) (r : Consolidation) : bool :=
  match holder r, lease_expires r with
  | Some _, Some e => e <? now
  | _, _ => true
  end.
(** A missing row and a null clock read as the epoch. *)
Definition clock_of (r : option Consolidation) : Z :=
  unwrap_or (r ≫= last_consolidated_at) 0.
(* src/qcue-rs/wiki/src/dream/lock.rs 87-91 try_acquire *)
Definition acquired (now : Z) (who : string) (r : Consolidation) : Consolidation :=
  {| last_consolidated_at := Some now; holder := Some who; lease_expires := Some (now + one_hour);
     last_scan_at := Some now; sessions_since_last := sessions_since_last r;
     rollback_count := rollback_count r |}.
Definition released (r : Consolidation) : Consolidation :=
  {| last_consolidated_at := last_consolidated_at r; holder := None; lease_expires := None;
     last_scan_at := last_scan_at r; sessions_since_last := 0; rollback_count := rollback_count r |}.
Definition rolled_back (prior : Z) (r : Consolidation) : Consolidation :=
  {| last_consolidated_at := Some prior; holder := None; lease_expires := None;
     last_scan_at := last_scan_at r; sessions_since_last := sessions_since_last r;
     rollback_count := rollback_count r + 1 |}.

(** The Postgres lock: the table beside everything else, [db_now] being [now()]. *)
Record Pg (W : Type) : Type := { rows : gmap N Consolidation; others : W }.
Arguments rows {W} p.
Arguments others {W} p.

Section PgLock.
Context {W E : Type} (db_now : W -> Z).

Definition set_rows (f : gmap N Consolidation -> gmap N Consolidation) (s : Pg W) : Pg W :=
  {| rows := f (rows s); others := others s |}.

(* src/qcue-rs/wiki/src/dream/lock.rs 57-68 read_clock *)
Definition pg_read_clock (t : Uuid) (s : Pg W) : result E Z * Pg W := (Ok (clock_of (rows s !! t)), s).

(* src/qcue-rs/wiki/src/dream/lock.rs 73-99 try_acquire *)
Definition pg_try_acquire (t : Uuid) (who : string) (s : Pg W) : result E (option Z) * Pg W :=
  let prior := clock_of (rows s !! t) in
  match rows s !! t with
  | Some r =>
      if lease_free (db_now (others s)) r
      then (Ok (Some prior), set_rows <[t := acquired (db_now (others s)) who r]> s)
      else (Ok None, s)
  | None => (Ok None, s)
  end.

(* src/qcue-rs/wiki/src/dream/lock.rs 101-112 release *)
Definition pg_release (t : Uuid) (s : Pg W) : result E unit * Pg W :=
  (Ok tt, set_rows (alter released t) s).

(* src/qcue-rs/wiki/src/dream/lock.rs 114-128 rollback *)
Definition pg_rollback (t : Uuid) (prior : Z) (s : Pg W) : result E unit * Pg W :=
  (Ok tt, set_rows (alter (rolled_back prior) t) s).

(* src/qcue-rs/wiki/src/dream/lock.rs 55-129 PgConsolidationLock *)
Definition PgConsolidationLock : ConsolidationLock (Pg W) E :=
  {| read_clock := pg_read_clock; try_acquire := pg_try_acquire;
     release := pg_release; rollback := pg_rollback |}.
End PgLock.

(** ** The gates *)

(** Hours are the exact quotient the source computes in [f64]: at the thresholds in use the rounding
    of a whole number of seconds over 3600 cannot cross them. *)
(* src/qcue-rs/wiki/src/dream/scheduler.rs 22-26 DreamConfig *)
Record DreamConfig : Type := { min_hours : Q; min_sessions : Z; scan_throttle : Z }.

(* src/qcue-rs/wiki/src/dream/scheduler.rs 27-31 default *)
Definition dream_config_default : DreamConfig :=
  {| min_hours := inject_Z 24; min_sessions := 5; scan_throttle := 600000000 |}.

(* src/qcue-rs/wiki/src/dream/scheduler.rs 34-40 GateReason *)
Inductive GateReason : Type := Disabled | TooSoon | Throttled | TooFewSessions | Locked.

(* src/qcue-rs/wiki/src/dream/scheduler.rs 42-45 Gate *)
Inductive Gate : Type := Pass | Stop (r : GateReason).

(* src/qcue-rs/wiki/src/dream/scheduler.rs 48-53 GateInputs *)
Record GateInputs : Type := {
  enabled : bool; hours_since : Q; throttle_ok : bool; captures_since : Z }.

(* src/qcue-rs/wiki/src/dream/scheduler.rs 57-71 eval_gate *)
Definition eval_gate (g : GateInputs) (cfg : DreamConfig) : Gate :=
  if negb (enabled g) then Stop Disabled
  else if negb (Qle_bool (min_hours cfg) (hours_since g)) then Stop TooSoon
  else if negb (throttle_ok g) then Stop Throttled
  else if captures_since g <? min_sessions cfg then Stop TooFewSessions
  else Pass.

(* src/qcue-rs/wiki/src/dream/scheduler.rs 223-225 dream_enabled *)
Definition dream_enabled (var : option string) : bool :=
  match var with Some v => negb (String.eqb v "false") | None => true end.

(** [(Utc::now() - last).num_seconds() as f64 / 3600.0] *)
Definition hours_between (last now : Z) : Q := Z.quot (now - last) 1000000 # 3600.

(* src/qcue-rs/wiki/src/dream/scheduler.rs 75-78 DreamOutcome *)
Record DreamOutcome : Type := { files_touched : list string; turns : Z }.

(** ** The scheduler *)
Section Scheduler.
Context {S E : Type} `{ConsolidationLock S E}.
(** [Utc::now()], [Instant::now()], the environment variable, and the cancellation token, read. *)
Context (utc_now instant_now : S -> Z) (env_var : S -> option string) (is_cancelled : S -> bool).
(** [CapturesSince::captures_since] and [DreamRunner::run]. *)
Context (captures : Uuid -> Z -> Uuid -> S -> result E Z * S).
Context (runner : Uuid -> Uuid -> Z -> S -> result E DreamOutcome * S).

(* src/qcue-rs/wiki/src/dream/scheduler.rs 205-214 scan_throttle_ok *)
Definition scan_throttle_ok (cfg : DreamConfig) (last_scan : gmap N Z) (tenant : Uuid) (s : S) : bool :=
  match last_scan !! tenant with
  | Some t => scan_throttle cfg <=? Z.max 0 (instant_now s - t)
  | None => true
  end.

(* src/qcue-rs/wiki/src/dream/scheduler.rs 215-219 stamp_scan *)
Definition stamp_scan (last_scan : gmap N Z) (tenant : Uuid) (s : S) : gmap N Z :=
  <[tenant := instant_now s]> last_scan.

(* src/qcue-rs/wiki/src/dream/scheduler.rs 148-154 dream_due *)
Definition dream_due (cfg : DreamConfig) (last_scan : gmap N Z) (tenant : Uuid) (s : S) :
  result E bool * S :=
  if negb (dream_enabled (env_var s)) then (Ok false, s)
  else
    match read_clock tenant s with
    | (Err e, s) => (Err e, s)
    | (Ok last, s) =>
        (Ok (Qle_bool (min_hours cfg) (hours_between last (utc_now s))
             && scan_throttle_ok cfg last_scan tenant s), s)
    end.

(** After the lock is taken: run, then release, roll back, or leave it to the killer. *)
(* src/qcue-rs/wiki/src/dream/scheduler.rs 192-202 try_dream *)
Definition drive (tenant user : Uuid) (last prior : Z) (s : S) : result E (option DreamOutcome) * S :=
  match runner tenant user last s with
  | (Ok o, s) =>
      match release tenant s with
      | (Ok _, s) => (Ok (Some o), s)
      | (Err e, s) => (Err e, s)
      end
  | (Err e, s) =>
      if is_cancelled s then (Ok None, s)
      else match rollback tenant prior s with
           | (Ok _, s) => (Err e, s)
           | (Err e', s) => (Err e', s)
           end
  end.

Definition i64_max_sentinel : Z := Int.i64_max.

(* src/qcue-rs/wiki/src/dream/scheduler.rs 158-203 try_dream *)
Definition try_dream (cfg : DreamConfig) (last_scan : gmap N Z) (tenant user session : Uuid) (s : S) :
  result E (option DreamOutcome) * gmap N Z * S :=
  let on := dream_enabled (env_var s) in
  match read_clock tenant s with
  | (Err e, s) => (Err e, last_scan, s)
  | (Ok last, s) =>
      let hours := hours_between last (utc_now s) in
      let ok := scan_throttle_ok cfg last_scan tenant s in
      match eval_gate {| enabled := on; hours_since := hours; throttle_ok := ok;
                         captures_since := i64_max_sentinel |} cfg with
      | Stop _ => (Ok None, last_scan, s)
      | Pass =>
          let last_scan := stamp_scan last_scan tenant s in
          match captures tenant last session s with
          | (Err e, s) => (Err e, last_scan, s)
          | (Ok n, s) =>
              match eval_gate {| enabled := on; hours_since := hours; throttle_ok := true;
                                 captures_since := n |} cfg with
              | Stop _ => (Ok None, last_scan, s)
              | Pass =>
                  match try_acquire tenant "dream-worker" s with
                  | (Err e, s) => (Err e, last_scan, s)
                  | (Ok None, s) => (Ok None, last_scan, s)
                  | (Ok (Some prior), s) =>
                      let '(r, s) := drive tenant user last prior s in (r, last_scan, s)
                  end
              end
          end
      end
  end.
End Scheduler.

(** ** Any number of sessions on one row

    [try_acquire] is two statements at the default isolation level, so other sessions may commit
    between its [SELECT] and its [UPDATE]; both use the start of their transaction as [now()]. *)
Module LockSys.
Inductive Phase : Type :=
| Reading (prior start : Z)
| Running (prior since : Z).

Record Sys : Type := { lrow : Consolidation; time : Z; phases : gmap nat Phase }.

(* src/qcue-rs/wiki/src/dream/lock.rs 73-128 PgConsolidationLock *)
Inductive step : Sys -> Sys -> Prop :=
| step_tick (d : Z) (s : Sys) : 0 <= d ->
    step s {| lrow := lrow s; time := time s + d; phases := phases s |}
| step_select (w : nat) (s : Sys) : phases s !! w = None ->
    step s {| lrow := lrow s; time := time s;
              phases := <[w := Reading (clock_of (Some (lrow s))) (time s)]> (phases s) |}
| step_update (w : nat) (who : string) (prior start : Z) (s : Sys) :
    phases s !! w = Some (Reading prior start) -> lease_free start (lrow s) = true ->
    step s {| lrow := acquired start who (lrow s); time := time s;
              phases := <[w := Running prior start]> (phases s) |}
| step_blocked (w : nat) (prior start : Z) (s : Sys) :
    phases s !! w = Some (Reading prior start) -> lease_free start (lrow s) = false ->
    step s {| lrow := lrow s; time := time s; phases := delete w (phases s) |}
| step_release (w : nat) (prior since : Z) (s : Sys) :
    phases s !! w = Some (Running prior since) ->
    step s {| lrow := released (lrow s); time := time s; phases := delete w (phases s) |}
| step_rollback (w : nat) (prior since : Z) (s : Sys) :
    phases s !! w = Some (Running prior since) ->
    step s {| lrow := rolled_back prior (lrow s); time := time s; phases := delete w (phases s) |}
| step_abandon (w : nat) (ph : Phase) (s : Sys) :
    phases s !! w = Some ph ->
    step s {| lrow := lrow s; time := time s; phases := delete w (phases s) |}.

(** Every run is within its lease. *)
Definition timely (s : Sys) : Prop :=
  forall w prior since, phases s !! w = Some (Running prior since) -> time s <= since + one_hour.
Definition timely_step (s s' : Sys) : Prop := step s s' /\ timely s'.
Definition initial (r : Consolidation) (now : Z) : Sys := {| lrow := r; time := now; phases := ∅ |}.
End LockSys.

(** ** Lemmas: the gates *)

Lemma eval_gate_pass (g : GateInputs) (cfg : DreamConfig) :
  eval_gate g cfg = Pass <->
  enabled g = true /\ Qle_bool (min_hours cfg) (hours_since g) = true /\ throttle_ok g = true /\
  min_sessions cfg <= captures_since g.
Proof.
  unfold eval_gate.
  destruct (enabled g), (Qle_bool _ _), (throttle_ok g); simpl; try (by split; [|intros (?&?&?&?)]).
  destruct (Z.ltb_spec (captures_since g) (min_sessions cfg)); split; try done.
  intros (_ & _ & _ & ?). lia.
Qed.

(** ** One session over the Postgres lock *)
Section OneSession.
Context {W E : Type} (db_now utc_now instant_now : W -> Z) (env_var : W -> option string).
Context (is_cancelled : W -> bool).
Context (captures : Uuid -> Z -> Uuid -> W -> result E Z * W).
Context (runner : Uuid -> Uuid -> Z -> W -> result E DreamOutcome * W).

(** Neither the count of captures nor the agent touches the consolidation table. *)
Definition on_others {A : Type} (f : W -> A * W) (s : Pg W) : A * Pg W :=
  let '(a, w) := f (others s) in (a, {| rows := rows s; others := w |}).

Definition pg_drive := drive (H := PgConsolidationLock db_now) (fun s => is_cancelled (others s))
  (fun t u since => on_others (runner t u since)).

Definition pg_try_dream := try_dream (H := PgConsolidationLock db_now)
  (fun s => utc_now (others s)) (fun s => instant_now (others s)) (fun s => env_var (others s))
  (fun s => is_cancelled (others s)) (fun t since me => on_others (captures t since me))
  (fun t u since => on_others (runner t u since)).

(** What a run does to the row it holds. *)
Lemma pg_drive_spec (tenant user : Uuid) (last prior : Z) (s : Pg W) (r : result E (option DreamOutcome))
  (s' : Pg W) :
  pg_drive tenant user last prior s = (r, s') ->
  match r with
  | Ok (Some _) => rows s' = alter released tenant (rows s)
  | Ok None => rows s' = rows s /\ is_cancelled (others s') = true
  | Err _ => rows s' = alter (rolled_back prior) tenant (rows s)
  end.
Proof.
  unfold pg_drive, drive, on_others. destruct (runner tenant user last (others s)) as [[o|e] w]; simpl.
  - intros H. by inv H.
  - destruct (is_cancelled w) eqn:Hc; intros H; by inv H.
Qed.

Lemma pg_acquire_spec (tenant : Uuid) (who : string) (s : Pg W) (o : option Z) (s' : Pg W) :
  pg_try_acquire (E := E) db_now tenant who s = (Ok o, s') ->
  match o with
  | Some prior => exists row, rows s !! tenant = Some row /\ prior = clock_of (Some row) /\
      lease_free (db_now (others s)) row = true /\
      rows s' = <[tenant := acquired (db_now (others s)) who row]> (rows s) /\ others s' = others s
  | None => s' = s
  end.
Proof.
  unfold pg_try_acquire. destruct (rows s !! tenant) as [row|] eqn:Hr; [|intros H; by inv H].
  destruct (lease_free _ row) eqn:Hf; intros H; inv H; [|done]. by exists row.
Qed.

(** Where an outcome comes from, and what happens beside the table. *)
Lemma pg_try_dream_ran (cfg : DreamConfig) (last_scan : gmap N Z) (tenant user session : Uuid) (s : Pg W) :
  let '(r, _, s') := pg_try_dream cfg last_scan tenant user session s in
  (forall o, r = Ok (Some o) -> exists since w, runner tenant user since w = (Ok o, others s') /\
     forall P : W -> Prop, P (others s) -> (forall since w, P w -> P (snd (captures tenant since session w))) -> P w) /\
  (forall P : W -> Prop, P (others s) -> (forall since w, P w -> P (snd (captures tenant since session w))) ->
     (forall since w, P w -> P (snd (runner tenant user since w))) -> P (others s')).
Proof.
  unfold pg_try_dream, try_dream. simpl. destruct (eval_gate _ cfg); [|by split]. unfold on_others at 1.
  destruct (captures tenant _ session (others s)) as [[n|e] w] eqn:Hcap;
    [|split; [done|intros P H0 H1 _; specialize (H1 (clock_of (rows s !! tenant)) _ H0); by rewrite Hcap in H1]].
  assert (forall P : W -> Prop, P (others s) -> (forall since w, P w -> P (snd (captures tenant since session w))) -> P w) as Hw
    by (intros P H0 H1; specialize (H1 (clock_of (rows s !! tenant)) _ H0); by rewrite Hcap in H1).
  destruct (eval_gate _ cfg); [|split; [done|intros P H0 H1 _; by apply Hw]].
  destruct (pg_try_acquire db_now tenant "dream-worker" _) as [[[prior|]|e] s1] eqn:Hacq;
    [|apply pg_acquire_spec in Hacq; subst s1; split; [done|intros P H0 H1 _; by apply Hw]
     |unfold pg_try_acquire in Hacq; repeat case_match; discriminate].
  apply pg_acquire_spec in Hacq as (row & _ & _ & _ & _ & Ho). simpl in Ho. unfold drive, on_others. rewrite Ho.
  destruct (runner tenant user _ w) as [[o|e] w'] eqn:Hr; simpl.
  - split; [intros o' [= <-]; by eexists _, w|]. intros P H0 H1 H2. specialize (H2 (clock_of (rows s !! tenant)) _ (Hw P H0 H1)). by rewrite Hr in H2.
  - assert (forall P : W -> Prop, P (others s) -> (forall since w, P w -> P (snd (captures tenant since session w))) ->
      (forall since w, P w -> P (snd (runner tenant user since w))) -> P w') as Hw'
      by (intros P H0 H1 H2; specialize (H2 (clock_of (rows s !! tenant)) _ (Hw P H0 H1)); by rewrite Hr in H2).
    destruct (is_cancelled w'); split; done.
Qed.

(** The rows of a session, whatever it runs. *)
Lemma try_dream_clock (cfg : DreamConfig) (last_scan : gmap N Z) (tenant user session : Uuid)
  (s : Pg W) :
  let '(r, _, s') := pg_try_dream cfg last_scan tenant user session s in
  (forall u, u <> tenant -> rows s' !! u = rows s !! u) /\
  match r with
  | Ok (Some _) => exists row acq,
      rows s !! tenant = Some row /\ lease_free acq row = true /\
      rows s' !! tenant = Some (released (acquired acq "dream-worker" row)) /\
      dream_enabled (env_var (others s)) = true /\
      Qle (min_hours cfg) (hours_between (clock_of (Some row)) (utc_now (others s))) /\
      scan_throttle_ok (fun s => instant_now (others s)) cfg last_scan tenant s = true /\
      (exists n w, captures tenant (clock_of (Some row)) session (others s) = (Ok n, w) /\
         min_sessions cfg <= n)
  | Ok None => rows s' = rows s \/
      is_cancelled (others s') = true /\
      exists row acq, rows s' !! tenant = Some (acquired acq "dream-worker" row)
  | Err _ => clock_of (rows s' !! tenant) = clock_of (rows s !! tenant) /\
      forall row', rows s' !! tenant = Some row' -> rows s !! tenant = Some row' \/ holder row' = None
  end.
Proof.
  unfold pg_try_dream, try_dream. simpl.
  destruct (eval_gate _ cfg) eqn:Hg1; [|by split; [|left]].
  apply eval_gate_pass in Hg1 as (Hon & Hhours & Hthr & _). simpl in Hon, Hhours, Hthr.
  unfold on_others at 1. destruct (captures tenant _ session (others s)) as [[n|e] w] eqn:Hcap;
    [|split; [done|split; [done|by left]]].
  destruct (eval_gate _ cfg) eqn:Hg2; [|by split; [|left]].
  apply eval_gate_pass in Hg2 as (_ & _ & _ & Hn). simpl in Hn.
  destruct (pg_try_acquire db_now tenant "dream-worker" _) as [[[prior|]|e] s1] eqn:Hacq;
    [|apply pg_acquire_spec in Hacq; subst s1; by split; [|left]
     |unfold pg_try_acquire in Hacq; repeat case_match; discriminate].
  apply pg_acquire_spec in Hacq as (row & Hrow & -> & Hfree & Hrows & _). simpl in Hrow, Hrows.
  fold pg_drive. destruct (pg_drive tenant user _ _ s1) as [r s2] eqn:Hd.
  apply pg_drive_spec in Hd. rewrite Hrow in *.
  destruct r as [[o|]|e].
  - rewrite Hd, Hrows. split; [intros u Hu; by rewrite lookup_alter_ne, lookup_insert_ne|].
    exists row, (db_now w). rewrite lookup_alter_eq, lookup_insert_eq. apply Qle_bool_iff in Hhours.
    repeat split; auto. by exists n, w.
  - destruct Hd as [-> Hc]. rewrite Hrows. split; [intros u Hu; by rewrite lookup_insert_ne|].
    right. split; [done|]. exists row, (db_now w). by rewrite lookup_insert_eq.
  - rewrite Hd, Hrows. split; [intros u Hu; by rewrite lookup_alter_ne, lookup_insert_ne|].
    rewrite lookup_alter_eq, lookup_insert_eq. split; [done|].
    intros row' Hr. right. by inv Hr.
Qed.

(** C11: over the Postgres lock, a dream that ran and succeeded leaves its tenant's lease free and the
    clock at the time the lease was taken, and it ran only with the feature on, the last consolidation
    old enough, the scan not throttled, enough captures counted and the lease free or stale; an error
    leaves the clock as it was and never a lease of its own; a gate that stops it leaves the table as
    it was. Only a cancelled run leaves the lease held and the clock advanced. No other tenant's row
    changes, and without a row no dream ever runs. *)
Theorem dream_clock (cfg : DreamConfig) (last_scan : gmap N Z) (tenant user session : Uuid)
  (s : Pg W) :
  let '(r, _, s') := pg_try_dream cfg last_scan tenant user session s in
  (forall u, u <> tenant -> rows s' !! u = rows s !! u) /\
  match r with
  | Ok (Some _) => exists row acq,
      rows s !! tenant = Some row /\ lease_free acq row = true /\
      rows s' !! tenant = Some (released (acquired acq "dream-worker" row)) /\
      dream_enabled (env_var (others s)) = true /\
      Qle (min_hours cfg) (hours_between (clock_of (Some row)) (utc_now (others s))) /\
      scan_throttle_ok (fun s => instant_now (others s)) cfg last_scan tenant s = true /\
      (exists n w, captures tenant (clock_of (Some row)) session (others s) = (Ok n, w) /\
         min_sessions cfg <= n)
  | Ok None => rows s' = rows s \/
      is_cancelled (others s') = true /\
      exists row acq, rows s' !! tenant = Some (acquired acq "dream-worker" row)
  | Err _ => clock_of (rows s' !! tenant) = clock_of (rows s !! tenant) /\
      forall row', rows s' !! tenant = Some row' -> rows s !! tenant = Some row' \/ holder row' = None
  end.
Proof. apply try_dream_clock. Qed.
End OneSession.

(** ** Many sessions *)

Record lock_inv (s : LockSys.Sys) : Prop := {
  li_running : forall w prior since, LockSys.phases s !! w = Some (LockSys.Running prior since) ->
    holder (LockSys.lrow s) <> None /\ lease_expires (LockSys.lrow s) = Some (since + one_hour);
  li_reading : forall w prior start, LockSys.phases s !! w = Some (LockSys.Reading prior start) ->
    start <= LockSys.time s;
  li_unique : forall w w' p p' a a', LockSys.phases s !! w = Some (LockSys.Running p a) ->
    LockSys.phases s !! w' = Some (LockSys.Running p' a') -> w = w';
}.

(** A session that finds the lease free sees no run in progress within its lease. *)
Lemma free_excludes_running (s : LockSys.Sys) (start : Z) :
  lock_inv s -> LockSys.timely s -> start <= LockSys.time s ->
  lease_free start (LockSys.lrow s) = true ->
  forall w p a, LockSys.phases s !! w <> Some (LockSys.Running p a).
Proof.
  intros Hinv Ht Hs Hf w p a Hw. destruct (li_running s Hinv w p a Hw) as [Hh Hl].
  specialize (Ht w p a Hw). unfold lease_free in Hf. rewrite Hl in Hf.
  destruct (holder (LockSys.lrow s)); [|done]. bool_prop. lia.
Qed.

Lemma lock_inv_delete (s : LockSys.Sys) (r : Consolidation) (w : nat) :
  lock_inv s ->
  (r = LockSys.lrow s \/
   exists p a, LockSys.phases s !! w = Some (LockSys.Running p a)) ->
  lock_inv {| LockSys.lrow := r; LockSys.time := LockSys.time s;
              LockSys.phases := delete w (LockSys.phases s) |}.
Proof.
  intros Hinv Hr. split; simpl.
  - intros w' p a Hw. apply lookup_delete_Some in Hw as [Hne Hw].
    destruct Hr as [->|(p' & a' & Hrun)]; [by apply (li_running s Hinv w' p)|].
    contradict Hne. exact (li_unique s Hinv _ _ _ _ _ _ Hrun Hw).
  - intros w' p a Hw. apply lookup_delete_Some in Hw as [_ Hw]. by apply (li_reading s Hinv w' p).
  - intros w1 w2 p p' a a' H1 H2. apply lookup_delete_Some in H1 as [_ H1], H2 as [_ H2].
    exact (li_unique s Hinv _ _ _ _ _ _ H1 H2).
Qed.

Lemma lock_inv_step (s s' : LockSys.Sys) :
  lock_inv s -> LockSys.timely s -> LockSys.step s s' -> lock_inv s'.
Proof.
  intros Hinv Ht Hstep.
  destruct Hstep as [d s Hd|w s Hw|w who prior start s Hw Hf|w prior start s Hw Hf
    |w prior since s Hw|w prior since s Hw|w ph s Hw].
  - split; simpl; [apply Hinv| |apply Hinv]. intros w p a Hw. pose proof (li_reading s Hinv w p a Hw). lia.
  - split; simpl.
    + intros w' p a Hw'. apply lookup_insert_Some in Hw' as [[_ Hw']|[_ Hw']]; [done|].
      by apply (li_running s Hinv w' p).
    + intros w' p a Hw'. apply lookup_insert_Some in Hw' as [[_ Hw']|[_ Hw']]; [inv Hw'; lia|].
      by apply (li_reading s Hinv w' p).
    + intros w1 w2 p p' a a' H1 H2.
      apply lookup_insert_Some in H1 as [[_ H1]|[_ H1]], H2 as [[_ H2]|[_ H2]]; try done.
      exact (li_unique s Hinv _ _ _ _ _ _ H1 H2).
  - pose proof (free_excludes_running s start Hinv Ht (li_reading s Hinv w prior start Hw) Hf) as Hno.
    split; simpl.
    + intros w' p a Hw'. apply lookup_insert_Some in Hw' as [[_ Hw']|[_ Hw']]; [by inv Hw'|].
      by apply Hno in Hw'.
    + intros w' p a Hw'. apply lookup_insert_Some in Hw' as [[_ Hw']|[_ Hw']]; [done|].
      by apply (li_reading s Hinv w' p).
    + intros w1 w2 p p' a a' H1 H2.
      apply lookup_insert_Some in H1 as [[<- _]|[_ H1]]; [|by apply Hno in H1].
      by apply lookup_insert_Some in H2 as [[<- _]|[_ H2]]; [|apply Hno in H2].
  - apply lock_inv_delete; [done|by left].
  - apply lock_inv_delete; [done|right; by eauto].
  - apply lock_inv_delete; [done|right; by eauto].
  - apply lock_inv_delete; [done|by left].
Qed.

(** C9: whatever the sessions do, as long as every run ends within the hour of its lease, at most one
    run per tenant is in progress, and its lease is the one in the row. *)
Theorem lease_mutex (r : Consolidation) (now : Z) (s : LockSys.Sys) :
  rtc LockSys.timely_step (LockSys.initial r now) s ->
  (forall w w' p p' a a', LockSys.phases s !! w = Some (LockSys.Running p a) ->
     LockSys.phases s !! w' = Some (LockSys.Running p' a') -> w = w') /\
  (forall w p a, LockSys.phases s !! w = Some (LockSys.Running p a) ->
     holder (LockSys.lrow s) <> None /\ lease_expires (LockSys.lrow s) = Some (a + one_hour)).
Proof.
  intros H. cut (lock_inv s); [intros Hi; split; apply Hi|].
  assert (lock_inv (LockSys.initial r now) /\ LockSys.timely (LockSys.initial r now)) as [Hi Ht].
  { split; [split|].
    - intros w p a Hw. exfalso. exact (lookup_empty_Some w _ Hw).
    - intros w p a Hw. exfalso. exact (lookup_empty_Some w _ Hw).
    - intros w w' p p' a a' Hw. exfalso. exact (lookup_empty_Some w _ Hw).
    - intros w p a Hw. exfalso. exact (lookup_empty_Some w _ Hw). }
  revert Hi Ht. induction H as [|s s1 s2 [Hs Ht1] _ IH]; [done|].
  intros Hi Ht. apply IH; [by apply (lock_inv_step s)|done].
Qed.

(** The bound is needed: a run that outlives its lease frees the next holder's, and two runs overlap. *)
Definition idle_row : Consolidation :=
  {| last_consolidated_at := None; holder := None; lease_expires := None; last_scan_at := None;
     sessions_since_last := 0; rollback_count := 0 |}.

Definition two_runs : gmap nat LockSys.Phase :=
  <[2%nat := LockSys.Running 4000000000 4000000000]>
    (<[1%nat := LockSys.Running 0 4000000000]> ∅).

Example overrun_breaks_mutex :
  exists r, rtc LockSys.step (LockSys.initial idle_row 0)
    {| LockSys.lrow := r; LockSys.time := 4000000000; LockSys.phases := two_runs |}.
Proof.
  eexists. unfold LockSys.initial.
  eapply rtc_l; [apply (LockSys.step_select 0%nat); done|].
  eapply rtc_l; [by eapply (LockSys.step_update 0%nat "dream-worker")|].
  eapply rtc_l; [apply (LockSys.step_tick 4000000000); lia|].
  eapply rtc_l; [apply (LockSys.step_select 1%nat); done|].
  eapply rtc_l; [by eapply (LockSys.step_update 1%nat "dream-worker")|].
  eapply rtc_l; [by eapply (LockSys.step_release 0%nat)|].
  eapply rtc_l; [apply (LockSys.step_select 2%nat); done|].
  eapply rtc_l; [by eapply (LockSys.step_update 2%nat "dream-worker")|].
  apply rtc_refl.
Qed.

Lemma timely_insert (r : Consolidation) (now start prior : Z) (w : nat) :
  now <= start + one_hour ->
  LockSys.timely {| LockSys.lrow := r; LockSys.time := now;
    LockSys.phases := <[w := LockSys.Running prior start]>
      (<[w := LockSys.Reading prior start]> ∅) |}.
Proof.
  intros Hn v p a Hv. simpl in *. apply lookup_insert_Some in Hv as [[_ Hv]|[_ Hv]]; [inv Hv; lia|].
  apply lookup_insert_Some in Hv as [[_ Hv]|[_ Hv]]; [done|]. exfalso. exact (lookup_empty_Some v _ Hv).
Qed.

Definition one_run : LockSys.Sys :=
  {| LockSys.lrow := acquired 0 "dream-worker" idle_row; LockSys.time := 0;
     LockSys.phases := <[0%nat := LockSys.Running 0 0]> (<[0%nat := LockSys.Reading 0 0]> ∅) |}.

Lemma one_run_reachable : rtc LockSys.timely_step (LockSys.initial idle_row 0) one_run.
Proof.
  eapply rtc_l.
  - split; [apply (LockSys.step_select 0%nat); done|].
    intros v p a Hv. simpl in Hv. apply lookup_insert_Some in Hv as [[_ Hv]|[_ Hv]]; [done|].
    exfalso. exact (lookup_empty_Some v _ Hv).
  - eapply rtc_l; [|apply rtc_refl]. split; [by eapply (LockSys.step_update 0%nat "dream-worker")|].
    apply timely_insert. unfold one_hour. lia.
Qed.

Lemma lease_mutex_witness :
  LockSys.phases one_run !! 0%nat = Some (LockSys.Running 0 0) /\
  lease_expires (LockSys.lrow one_run) = Some (0 + one_hour).
Proof.
  split; [apply lookup_insert_eq|].
  destruct (lease_mutex idle_row 0 one_run one_run_reachable) as [_ H].
  exact (proj2 (H 0%nat 0 0 (lookup_insert_eq _ _ _))).
Defined.
