(* ===== verification/WikiText.v ===== *)
(** * The text functions of the wiki

    [utils/slugify], [utils/linksan], [utils/frontmatter] (the merge) and [wiki/src/page.rs],
    [index_gen.rs]. A Rust [char] is the string of its UTF-8 bytes. The Unicode tables behind
    [char::is_alphanumeric] and [char::to_lowercase] are the class [Unicode] for the characters beyond
    ASCII; the ASCII part is written out. *)
From S2P Require Import Prelude RustStr.
From stdpp Require Import pretty.

#[local] Open Scope string_scope.
#[local] Open Scope list_scope.

(** ** Characters *)
Module Chars.
(** A byte that continues a UTF-8 sequence, [10xxxxxx]. *)
Definition continues (c : ascii) : bool := Str.ascii_in 128 191 c.

(** [s.chars()] of a UTF-8 string. *)
Fixpoint chars (s : string) : list string :=
  match s with
  | EmptyString => []
  | String c s' =>
      match chars s' with
      | String d r :: l => if continues d then String c (String d r) :: l else String c "" :: String d r :: l
      | l => String c "" :: l
      end
  end.

Fixpoint concat (l : list string) : string :=
  match l with [] => "" | c :: l => c +:+ concat l end.

(** [s.chars().count()], [s.chars().take(n).collect()] *)
Definition count (s : string) : nat := length (chars s).
Definition take (n : nat) (s : string) : string := concat (firstn n (chars s)).

Definition is_ascii_alnum (c : ascii) : bool :=
  Str.ascii_in 48 57 c || Str.ascii_in 65 90 c || Str.ascii_in 97 122 c.
Definition is_ascii (c : ascii) : bool := Nat.ltb (nat_of_ascii c) 128.

(** Every byte of the text satisfies the test. *)
Fixpoint all (p : ascii -> bool) (s : string) : bool :=
  match s with EmptyString => true | String c s => p c && all p s end.

Lemma concat_chars (s : string) : concat (chars s) = s.
Proof.
  induction s as [|c s IH]; [done|]. cbn [chars].
  destruct (chars s) as [|[|d r] l]; simpl in *; [by rewrite <- IH|by rewrite <- IH|].
  destruct (continues d); simpl; by rewrite <- IH.
Qed.
End Chars.

(** The tables, for the characters outside ASCII. *)
Class Unicode : Type := {
  uni_alphanumeric : string -> bool;
  uni_lowercase : string -> list string;
}.
(** A byte that a lower-cased word may hold: beyond ASCII, or a digit, or a lower-case letter. *)
Definition word_byte (c : ascii) : bool :=
  negb (Chars.is_ascii c) || Str.ascii_in 48 57 c || Str.ascii_in 97 122 c.
(** What the tables promise: lower-casing yields characters, and the ASCII bytes among them are
    letters or digits. *)
Class UnicodeLaws (U : Unicode) : Prop := {
  lowercase_some : forall c, uni_lowercase c <> [];
  lowercase_safe : forall c x, x ∈ uni_lowercase c -> x <> "" /\ Chars.all word_byte x = true;
}.

(** ** Slugs *)
Section Slug.
Context `{U : Unicode}.

Definition is_alphanumeric (ch : string) : bool :=
  match ch with
  | String c "" => Chars.is_ascii_alnum c
  | _ => uni_alphanumeric ch
  end.
Definition to_lowercase_char (ch : string) : list string :=
  match ch with
  | String c "" => [String (Str.lower c) ""]
  | _ => uni_lowercase ch
  end.
(** [s.to_lowercase()], less the one special rule of the standard library for the final sigma. *)
Definition to_lowercase (s : string) : string :=
  Chars.concat (Chars.chars s ≫= to_lowercase_char).

Fixpoint slug_loop (cs : list string) (out : string) (prev_hyphen : bool) : string :=
  match cs with
  | [] => out
  | ch :: cs =>
      if is_alphanumeric ch then slug_loop cs (out +:+ Chars.concat (to_lowercase_char ch)) false
      else if negb prev_hyphen && negb (String.eqb out "") then slug_loop cs (out +:+ "-") true
      else slug_loop cs out prev_hyphen
  end.

(* src/qcue-rs/utils/slugify/src/lib.rs 6-28 slugify *)
Definition slugify (title : string) : string :=
  let out := Str.trim_end_matches ["-"] (slug_loop (Chars.chars (Str.trim title)) "" false) in
  if String.eqb out "" then "untitled" else out.
End Slug.

(** ** Page types *)

(* src/qcue-rs/wiki/src/page.rs 13-23 PageType *)
Inductive PageType : Type :=
| Entity | Concept | Source | Index | Log | Contradiction | Schema | Comparison | Overview.

(* src/qcue-rs/wiki/src/page.rs 27-39 as_str *)
Definition as_str (t : PageType) : string :=
  match t with
  | Entity => "entity"
  | Concept => "concept"
  | Source => "source"
  | Index => "index"
  | Log => "log"
  | Contradiction => "contradiction"
  | Schema => "schema"
  | Comparison => "comparison"
  | Overview => "overview"
  end.

(* src/qcue-rs/wiki/src/page.rs 43-50 folder *)
Definition folder (t : PageType) : option string :=
  match t with
  | Entity => Some "entities"
  | Concept => Some "concepts"
  | Source => Some "sources"
  | _ => None
  end.

(* src/qcue-rs/wiki/src/page.rs 52-65 parse *)
Definition parse (s : string) : option PageType :=
  if String.eqb s "entity" then Some Entity
  else if String.eqb s "concept" then Some Concept
  else if String.eqb s "source" then Some Source
  else if String.eqb s "index" then Some Index
  else if String.eqb s "log" then Some Log
  else if String.eqb s "contradiction" then Some Contradiction
  else if String.eqb s "schema" then Some Schema
  else if String.eqb s "comparison" then Some Comparison
  else if String.eqb s "overview" then Some Overview
  else None.

Lemma parse_as_str (t : PageType) : parse (as_str t) = Some t.
Proof. by destruct t. Qed.

(** ** Links *)
Module Links.
Definition FOLDERS : list string := ["entities"; "concepts"; "sources"].

(* src/qcue-rs/utils/linksan/src/lib.rs 8-12 ParsedLink *)
Record ParsedLink : Type := {
  target_slug : string;
  target_type : option string;
  display : option string;
}.

(** Each pattern is a matcher: the captured group and the text after the match. The classes of the
    patterns are disjoint from what follows them, so a greedy run never has to give anything back. *)
Fixpoint run_of (stop : ascii -> bool) (s : string) : string * string :=
  match s with
  | EmptyString => ("", "")
  | String c s' => if stop c then ("", s) else let '(a, b) := run_of stop s' in (String c a, b)
  end.
(** One or more characters of the class. *)
Definition run1 (stop : ascii -> bool) (s : string) : option (string * string) :=
  match run_of stop s with
  | (EmptyString, _) => None
  | r => Some r
  end.
Definition bar_or_close (c : ascii) : bool := Ascii.eqb c "|" || Ascii.eqb c "]".
Definition close (c : ascii) : bool := Ascii.eqb c "]".

(** [(?:entities|concepts|sources)/] *)
Definition folder_prefix (s : string) : option string :=
  opt_or (Str.strip_prefix "entities/" s)
    (opt_or (Str.strip_prefix "concepts/" s) (Str.strip_prefix "sources/" s)).

(* src/qcue-rs/utils/linksan/src/lib.rs 16-20 SELF_DUP *)
Definition SELF_DUP (s : string) : option (string * string) :=
  s ← Str.strip_prefix "[[" s;
  s ← folder_prefix s;
  '(cap, s) ← run1 bar_or_close s;
  s ← Str.strip_prefix "|" s;
  s ← folder_prefix s;
  '(_, s) ← run1 close s;
  s ← Str.strip_prefix "]]" s;
  Some (cap, s).

(* src/qcue-rs/utils/linksan/src/lib.rs 23-26 DOUBLE_NEST *)
Definition DOUBLE_NEST (s : string) : option (string * string) :=
  s ← Str.strip_prefix "[[" s;
  s ← folder_prefix s;
  s ← folder_prefix s;
  '(cap, s) ← run1 bar_or_close s;
  s ← Str.strip_prefix "]]" s;
  Some (cap, s).

(* src/qcue-rs/utils/linksan/src/lib.rs 30-34 FOLDER_DISP *)
Definition FOLDER_DISP (s : string) : option (string * string) :=
  s ← Str.strip_prefix "[[" s;
  s ← folder_prefix s;
  '(_, s) ← run1 bar_or_close s;
  s ← Str.strip_prefix "|" s;
  '(cap, s) ← run1 close s;
  s ← Str.strip_prefix "]]" s;
  Some (cap, s).

(* src/qcue-rs/utils/linksan/src/lib.rs 37-38 ANY_LINK *)
Definition ANY_LINK (s : string) : option (string * string) :=
  s ← Str.strip_prefix "[[" s;
  '(cap, s) ← run1 close s;
  s ← Str.strip_prefix "]]" s;
  Some (cap, s).

(** [re.replace_all(s, "[[$1]]")]: leftmost matches, each continuing after the last; every step
    consumes a byte at least. *)
Fixpoint replace_all (fuel : nat) (re : string -> option (string * string)) (s : string) : string :=
  match fuel with
  | 0 => s
  | S fuel =>
      match re s with
      | Some (cap, rest) => "[[" +:+ cap +:+ "]]" +:+ replace_all fuel re rest
      | None =>
          match s with
          | EmptyString => ""
          | String c s => String c (replace_all fuel re s)
          end
      end
  end.

(** [re.captures_iter(s)], the first group of each. *)
Fixpoint captures (fuel : nat) (re : string -> option (string * string)) (s : string) : list string :=
  match fuel with
  | 0 => []
  | S fuel =>
      match re s with
      | Some (cap, rest) => cap :: captures fuel re rest
      | None => match s with EmptyString => [] | String _ s => captures fuel re s end
      end
  end.

Definition replace_links (re : string -> option (string * string)) (s : string) : string :=
  replace_all (S (String.length s)) re s.

(* src/qcue-rs/utils/linksan/src/lib.rs 49-54 sanitize_links *)
Definition sanitize_links (body : string) : string :=
  replace_links FOLDER_DISP (replace_links DOUBLE_NEST (replace_links SELF_DUP body)).

(* src/qcue-rs/utils/linksan/src/lib.rs 40-47 folder_to_type *)
Definition folder_to_type (f : string) : option string :=
  if String.eqb f "entities" then Some "entity"
  else if String.eqb f "concepts" then Some "concept"
  else if String.eqb f "sources" then Some "source"
  else None.

Definition parsed_link (inner : string) : ParsedLink :=
  let '(target, display) :=
    match Str.split_once "|" inner with
    | Some (t, d) => (Str.trim t, Some (Str.trim d))
    | None => (Str.trim inner, None)
    end in
  let '(ty, slug) :=
    match Str.split_once "/" target with
    | Some (f, rest) => (folder_to_type f, rest)
    | None => (None, target)
    end in
  {| target_slug := slug; target_type := ty; display := display |}.

(* src/qcue-rs/utils/linksan/src/lib.rs 57-74 parse_wikilinks *)
Definition parse_wikilinks (body : string) : list ParsedLink :=
  parsed_link <$> captures (S (String.length body)) ANY_LINK body.
End Links.

(** ** The index *)
Module IndexGen.
(* src/qcue-rs/wiki/src/index_gen.rs 8-8 MAX_INDEX_LINES *)
Definition MAX_INDEX_LINES : nat := 200.
(* src/qcue-rs/wiki/src/index_gen.rs 9-9 MAX_INDEX_BYTES *)
Definition MAX_INDEX_BYTES : nat := 25 * 1000.
(* src/qcue-rs/wiki/src/index_gen.rs 10-10 MAX_LINE_CHARS *)
Definition MAX_LINE_CHARS : nat := 150.

(** [" — "], the dash in UTF-8. *)
Definition dash : string := " " +:+ Str.bytes [226; 128; 148]%nat +:+ " ".

(** One catalog row: slug, title, summary, aliases. *)
Definition index_line (row : string * string * string * list string) : string :=
  let '(slug, title, summary, aliases) := row in
  let hook := Chars.take (MAX_LINE_CHARS - (String.length slug + 12)) summary in
  let alias_note :=
    match aliases with
    | [] => ""
    | _ => " (aliases: " +:+ Str.join ", " aliases +:+ ")"
    end in
  let line := "- [[" +:+ slug +:+ "|" +:+ title +:+ "]]" +:+ dash +:+ hook +:+ alias_note in
  if Nat.ltb MAX_LINE_CHARS (Chars.count line) then Chars.take MAX_LINE_CHARS line else line.

(** Slicing off a character boundary panics: [None]. *)
Definition is_char_boundary (n : nat) (s : string) : bool :=
  match Str.drop n s with
  | EmptyString => true
  | String c _ => negb (Chars.continues c)
  end.

Definition warning (what : string) : string := Str.lf +:+ "> WARNING: index truncated at " +:+ what +:+ ".".

(* src/qcue-rs/wiki/src/index_gen.rs 39-53 truncate_index *)
Definition truncate_index (idx : string) : option string :=
  let lines := Str.lines idx in
  let '(lines, warned) :=
    if Nat.ltb MAX_INDEX_LINES (length lines)
    then (firstn MAX_INDEX_LINES lines, warning "200 lines") else (lines, "") in
  let joined := Str.join Str.lf lines in
  if Nat.ltb MAX_INDEX_BYTES (String.length joined) then
    if is_char_boundary MAX_INDEX_BYTES joined then
      let cut := unwrap_or (Str.rfind Str.lf (Str.take MAX_INDEX_BYTES joined)) MAX_INDEX_BYTES in
      Some (Str.take cut joined +:+ warning "25000 bytes")
    else None
  else Some (joined +:+ warned).

(** The catalog of a tenant's entity, concept and source pages, as the query returns it. *)
(* src/qcue-rs/wiki/src/index_gen.rs 14-36 regenerate_index *)
Definition regenerate_index (rows : list (string * string * string * list string)) : option string :=
  match rows with
  | [] => Some ("# Index" +:+ Str.lf +:+ Str.lf +:+ "(wiki is empty)" +:+ Str.lf)
  | _ =>
      truncate_index (foldl (fun out r => out +:+ index_line r +:+ Str.lf)
        ("# Index" +:+ Str.lf +:+ Str.lf) rows)
  end.
End IndexGen.

(** ** Lemmas: bytes *)

Lemma all_app (p : ascii -> bool) (a b : string) :
  Chars.all p (a +:+ b) = Chars.all p a && Chars.all p b.
Proof. induction a as [|c a IH]; [done|]. simpl. by rewrite IH, andb_assoc. Qed.

Lemma all_weaken (p q : ascii -> bool) (s : string) :
  (forall c, p c = true -> q c = true) -> Chars.all p s = true -> Chars.all q s = true.
Proof.
  intros H. induction s as [|c s IH]; [done|]. simpl. rewrite !andb_true_iff. intros [? ?]. auto.
Qed.

Lemma all_no_char (p : ascii -> bool) (c : ascii) (s : string) :
  p c = false -> Chars.all p s = true -> Str.no_char c s = true.
Proof.
  intros Hc. induction s as [|d s IH]; [done|]. simpl. intros [Hd Hs]%andb_true_iff.
  destruct (Ascii.eqb_spec c d) as [<-|]; [congruence|]. simpl. by apply IH.
Qed.

(** Trimming one pattern off the end leaves a prefix that does not end with it. *)
Lemma trim_end_prefix (p s : string) :
  p <> "" -> exists t, s = Str.trim_end_matches [p] s +:+ t /\
    Str.strip_suffix p (Str.trim_end_matches [p] s) = None.
Proof.
  intros Hp. unfold Str.trim_end_matches.
  assert (forall fuel s, (String.length s <= fuel)%nat ->
    exists t, s = Str.trim_loop fuel Str.strip_suffix [p] s +:+ t /\
      Str.strip_suffix p (Str.trim_loop fuel Str.strip_suffix [p] s) = None) as H; [|by apply H].
  induction fuel as [|fuel IH]; intros u Hu; simpl.
  - destruct u; [|simpl in Hu; lia]. exists "". split; [done|].
    destruct (Str.strip_suffix p "") as [x|] eqn:Hx; [|done].
    apply Str.strip_suffix_spec in Hx. by destruct x, p.
  - destruct (Str.strip_suffix p u) as [x|] eqn:Hx.
    + apply Str.strip_suffix_spec in Hx as ->. rewrite Str.length_app in Hu.
      destruct (IH x) as (t & Ht & Hn); [destruct p; [done|simpl in Hu; lia]|].
      exists (t +:+ p). split; [|done]. rewrite <- Str.app_assoc. by rewrite <- Ht.
    + exists "". split; [by rewrite Str.app_nil_r|done].
Qed.

(** A byte of a slug. *)
Definition slug_byte (c : ascii) : bool := word_byte c || Ascii.eqb c "-".

(** ** Lemmas: slugs *)
Section SlugLemmas.
Context `{UL : UnicodeLaws}.

Lemma lower_word (c : ascii) : Chars.is_ascii_alnum c = true -> word_byte (Str.lower c) = true.
Proof. destruct c as [[] [] [] [] [] [] [] []]; by vm_compute. Qed.

(** The lower-cased form of an alphanumeric character: not empty, and word bytes only. *)
Lemma to_lowercase_char_word (ch : string) :
  ch <> "" -> is_alphanumeric ch = true ->
  Chars.concat (to_lowercase_char ch) <> "" /\
  Chars.all word_byte (Chars.concat (to_lowercase_char ch)) = true.
Proof.
  intros Hne Ha.
  assert (Chars.concat (uni_lowercase ch) <> "" /\
    Chars.all word_byte (Chars.concat (uni_lowercase ch)) = true) as Hu.
  { pose proof (lowercase_some ch) as Hs.
    assert (forall x, x ∈ uni_lowercase ch -> x <> "" /\ Chars.all word_byte x = true) as Hl
      by (intros x; apply lowercase_safe).
    split.
    - destruct (uni_lowercase ch) as [|x l]; [done|]. simpl.
      destruct (Hl x ltac:(left)) as [Hx _]. by destruct x.
    - clear Hs. induction (uni_lowercase ch) as [|x l IH]; [done|]. simpl. rewrite all_app.
      rewrite (proj2 (Hl x ltac:(left))), IH; [done|]. intros y Hy. apply Hl. by right. }
  destruct ch as [|c [|d r]]; [done| |exact Hu]. simpl in *. split; [done|].
  by rewrite lower_word.
Qed.

Lemma word_no_hyphen (s : string) :
  Chars.all word_byte s = true -> Str.starts_with "-" s = false.
Proof.
  destruct s as [|c s]; [done|]. cbn [Chars.all Str.starts_with]. intros [Hw _]%andb_true_iff.
  rewrite (proj2 (Ascii.eqb_neq "-" c)); [done|]. by intros <-.
Qed.

(** What the loop keeps of its output. *)
Definition slug_inv (out : string) : Prop :=
  Chars.all slug_byte out = true /\ Str.starts_with "-" out = false.

Lemma slug_loop_inv (cs : list string) (out : string) (prev : bool) :
  Forall (fun ch => ch <> "") cs -> slug_inv out -> slug_inv (slug_loop cs out prev).
Proof.
  revert out prev. induction cs as [|ch cs IH]; intros out prev Hcs Hout; [done|].
  inv Hcs. simpl. destruct (is_alphanumeric ch) eqn:Ha.
  - apply IH; [done|]. destruct (to_lowercase_char_word ch) as [Hne Hw]; [done..|].
    destruct Hout as [Hall Hst]. split.
    + rewrite all_app, Hall. eapply all_weaken; [|exact Hw]. intros c Hc. unfold slug_byte.
      by rewrite Hc.
    + destruct out as [|c out]; [|exact Hst]. exact (word_no_hyphen _ Hw).
  - destruct (negb prev && negb (String.eqb out "")) eqn:Hb; [|by apply IH].
    apply IH; [done|]. apply andb_true_iff in Hb as [_ Hb]. destruct Hout as [Hall Hst]. split.
    + rewrite all_app, Hall. done.
    + destruct out as [|c out]; [done|exact Hst].
Qed.
End SlugLemmas.

Lemma chars_nonempty (s : string) : Forall (fun ch => ch <> "") (Chars.chars s).
Proof.
  induction s as [|c s IH]; [constructor|]. cbn [Chars.chars].
  destruct (Chars.chars s) as [|[|d r] l]; [by repeat constructor|by constructor|].
  inv IH. destruct (Chars.continues d); repeat constructor; done.
Qed.

Lemma all_prefix (p : ascii -> bool) (a b : string) :
  Chars.all p (a +:+ b) = true -> Chars.all p a = true.
Proof. rewrite all_app. by intros [? _]%andb_true_iff. Qed.

(** ** Lemmas: links *)
Import Links.

(** The openings of a polluted link. *)
Definition polluted_open : list string := ["[[entities/"; "[[concepts/"; "[[sources/"].
Definition clean (s : string) : bool := forallb (fun o => negb (Str.contains o s)) polluted_open.
(** A matcher that only starts at such an opening. *)
Definition at_folder (re : string -> option (string * string)) : Prop :=
  forall s r, re s = Some r -> exists o, o ∈ polluted_open /\ Str.starts_with o s = true.

Lemma strip_prefix_app (p q s t u : string) :
  Str.strip_prefix p s = Some t -> Str.strip_prefix q t = Some u ->
  Str.starts_with (p +:+ q) s = true.
Proof.
  intros H1 H2. apply Str.strip_prefix_spec in H1 as ->, H2 as ->.
  rewrite <- Str.app_assoc. apply Str.starts_with_app.
Qed.

Lemma folder_open (s t u : string) :
  Str.strip_prefix "[[" s = Some t -> folder_prefix t = Some u ->
  exists o, o ∈ polluted_open /\ Str.starts_with o s = true.
Proof.
  intros Hs. unfold folder_prefix.
  destruct (Str.strip_prefix "entities/" t) as [x|] eqn:H1.
  { intros _. exists "[[entities/". split; [left|]. exact (strip_prefix_app _ _ _ _ _ Hs H1). }
  destruct (Str.strip_prefix "concepts/" t) as [x|] eqn:H2.
  { intros _. exists "[[concepts/". split; [right; left|]. exact (strip_prefix_app _ _ _ _ _ Hs H2). }
  cbn [opt_or]. intros H3. exists "[[sources/". split; [right; right; left|].
  exact (strip_prefix_app _ _ _ _ _ Hs H3).
Qed.

Ltac solve_at_folder :=
  intros s r H; unfold SELF_DUP, DOUBLE_NEST, FOLDER_DISP in H;
  destruct (Str.strip_prefix "[[" s) as [t|] eqn:H1; [|discriminate]; cbn [mbind option_bind] in H;
  destruct (folder_prefix t) as [u|] eqn:H2; [|discriminate];
  exact (folder_open _ _ _ H1 H2).

Lemma self_dup_at_folder : at_folder SELF_DUP.
Proof. solve_at_folder. Qed.
Lemma double_nest_at_folder : at_folder DOUBLE_NEST.
Proof. solve_at_folder. Qed.
Lemma folder_disp_at_folder : at_folder FOLDER_DISP.
Proof. solve_at_folder. Qed.

(** What a matcher leaves of the text it does not capture is shorter. *)
Definition consumes (re : string -> option (string * string)) : Prop :=
  forall s cap rest, re s = Some (cap, rest) -> (String.length rest < String.length s)%nat.

Lemma strip_prefix_length (p s t : string) :
  Str.strip_prefix p s = Some t -> String.length s = (String.length p + String.length t)%nat.
Proof. intros H. apply Str.strip_prefix_spec in H as ->. apply Str.length_app. Qed.

Lemma folder_prefix_length (s t : string) :
  folder_prefix s = Some t -> (String.length t <= String.length s)%nat.
Proof.
  unfold folder_prefix. intros H.
  destruct (Str.strip_prefix "entities/" s) eqn:H1;
    [injection H as <-; apply strip_prefix_length in H1; lia|].
  destruct (Str.strip_prefix "concepts/" s) eqn:H2;
    [injection H as <-; apply strip_prefix_length in H2; lia|].
  apply strip_prefix_length in H. lia.
Qed.

Lemma run_of_length (stop : ascii -> bool) (s a b : string) :
  run_of stop s = (a, b) -> s = a +:+ b.
Proof.
  revert a b. induction s as [|c s IH]; simpl; intros a b H; [by inv H|].
  destruct (stop c); [by inv H|]. destruct (run_of stop s) as [x y] eqn:Hr. inv H. simpl.
  by rewrite (IH x b eq_refl).
Qed.

Lemma run1_length (stop : ascii -> bool) (s a b : string) :
  run1 stop s = Some (a, b) -> (String.length b <= String.length s)%nat.
Proof.
  unfold run1. destruct (run_of stop s) as [x y] eqn:Hr. apply run_of_length in Hr as ->.
  rewrite Str.length_app. destruct x; intros H; inv H; simpl; lia.
Qed.

(** Collect what each stage of a matcher leaves over, until the lengths decide. *)
Ltac matcher_lengths H :=
  lazymatch type of H with
  | Some _ = Some _ => injection H as <- <-
  | _ =>
      let x := fresh "x" in let E := fresh "E" in
      apply bind_Some in H; destruct H as (x & E & H);
      try (destruct x as [? ?]; apply run1_length in E);
      try (first [ apply strip_prefix_length in E | apply folder_prefix_length in E ]);
      matcher_lengths H
  end.
Ltac solve_consumes :=
  let H := fresh "H" in
  intros ??? H; unfold SELF_DUP, DOUBLE_NEST, FOLDER_DISP, ANY_LINK in H;
  matcher_lengths H; simpl in *; lia.

Lemma self_dup_consumes : consumes SELF_DUP.
Proof. solve_consumes. Qed.
Lemma double_nest_consumes : consumes DOUBLE_NEST.
Proof. solve_consumes. Qed.
Lemma folder_disp_consumes : consumes FOLDER_DISP.
Proof. solve_consumes. Qed.
Lemma any_link_consumes : consumes ANY_LINK.
Proof. solve_consumes. Qed.

(** Fuel beyond the length changes nothing: the scan ends because every step consumes a byte. *)
Lemma replace_all_fuel (re : string -> option (string * string)) (f1 f2 : nat) (s : string) :
  consumes re -> (String.length s < f1)%nat -> (String.length s < f2)%nat ->
  replace_all f1 re s = replace_all f2 re s.
Proof.
  intros Hre. revert f2 s. induction f1 as [|f1 IH]; intros [|f2] s H1 H2; try lia. simpl.
  destruct (re s) as [[cap rest]|] eqn:Hr.
  - apply Hre in Hr. rewrite (IH f2); [done|lia..].
  - destruct s as [|c s]; [done|]. simpl in *. f_equal. apply IH; lia.
Qed.

Lemma replace_all_none (re : string -> option (string * string)) (c : ascii) (s : string) :
  re (String c s) = None -> replace_links re (String c s) = String c (replace_links re s).
Proof. unfold replace_links. intros H. cbn [replace_all]. by rewrite H. Qed.

(** A clean text in front of a byte that no opening contains is copied as it is. *)
Lemma starts_with_split (o a b : string) (c : ascii) :
  Str.no_char c o = true -> Str.starts_with o (a +:+ String c b) = true -> Str.starts_with o a = true.
Proof.
  revert a. induction o as [|d o IH]; intros a Ho; [by destruct a|]. simpl in Ho.
  apply andb_true_iff in Ho as [Hd Ho]. destruct a as [|x a]; cbn.
  - intros [Hc _]%andb_true_iff. apply Ascii.eqb_eq in Hc as ->.
    by rewrite Ascii.eqb_refl in Hd.
  - intros [Hx Hs]%andb_true_iff. apply andb_true_iff. split; [done|]. by apply IH.
Qed.

Lemma clean_no_start (a o : string) :
  clean a = true -> o ∈ polluted_open -> Str.starts_with o a = false.
Proof.
  unfold clean. rewrite forallb_forall. intros Ha Ho.
  specialize (Ha o ltac:(by apply list_elem_of_In)). apply negb_true_iff in Ha.
  destruct (Str.starts_with o a) eqn:Hs; [|done]. apply Str.starts_with_spec in Hs as [t ->].
  pose proof (proj2 (Str.contains_spec o (o +:+ t)) (ex_intro _ "" (ex_intro _ t eq_refl))). congruence.
Qed.

Lemma clean_tail (c : ascii) (a : string) : clean (String c a) = true -> clean a = true.
Proof.
  unfold clean. rewrite !forallb_forall. intros H o Ho. specialize (H o Ho).
  apply negb_true_iff in H. apply negb_true_iff.
  destruct (Str.contains o a) eqn:Hc; [|done].
  rewrite Str.contains_cons, Hc, orb_true_r in H. done.
Qed.

Lemma polluted_no_lf (o : string) : o ∈ polluted_open -> Str.no_char (Str.byte 10) o = true.
Proof. intros H. repeat (apply elem_of_cons in H as [->|H]; [done|]). inv H. Qed.

Lemma replace_links_clean (re : string -> option (string * string)) (a b : string) :
  consumes re -> at_folder re -> clean a = true ->
  replace_links re (a +:+ String (Str.byte 10) b) = a +:+ String (Str.byte 10) (replace_links re b).
Proof.
  intros Hre Hat.
  assert (forall x y, clean x = true -> re (x +:+ String (Str.byte 10) y) = None) as Hno.
  { intros x y Hx. destruct (re _) as [r|] eqn:Hr; [|done]. apply Hat in Hr as (o & Ho & Hs).
    apply starts_with_split in Hs; [|by apply polluted_no_lf]. by rewrite clean_no_start in Hs. }
  induction a as [|c a IH]; intros Ha.
  - exact (replace_all_none re _ b (Hno "" b eq_refl)).
  - etrans; [exact (replace_all_none re c _ (Hno (String c a) b Ha))|].
    change (String c (replace_links re (a +:+ String (Str.byte 10) b))
      = String c (a +:+ String (Str.byte 10) (replace_links re b))).
    by rewrite IH by exact (clean_tail c a Ha).
Qed.

Lemma replace_links_id (re : string -> option (string * string)) (a : string) :
  at_folder re -> clean a = true -> replace_links re a = a.
Proof.
  intros Hat. assert (forall x, clean x = true -> re x = None) as Hno.
  { intros x Hx. destruct (re x) as [r|] eqn:Hr; [|done]. apply Hat in Hr as (o & Ho & Hs).
    by rewrite clean_no_start in Hs. }
  induction a as [|c a IH]; intros Ha.
  - unfold replace_links. cbn [String.length replace_all]. by rewrite (Hno "").
  - rewrite replace_all_none by exact (Hno _ Ha). by rewrite IH by exact (clean_tail c a Ha).
Qed.

(** A body without polluted openings is left alone, and so is such a body in front of more lines. *)
Lemma sanitize_links_id (a : string) : clean a = true -> sanitize_links a = a.
Proof.
  intros Ha. unfold sanitize_links.
  rewrite (replace_links_id SELF_DUP) by (done || apply self_dup_at_folder).
  rewrite (replace_links_id DOUBLE_NEST) by (done || apply double_nest_at_folder).
  by rewrite (replace_links_id FOLDER_DISP) by (done || apply folder_disp_at_folder).
Qed.

Lemma sanitize_links_after (a b : string) :
  clean a = true ->
  sanitize_links (a +:+ Str.lf +:+ b) = a +:+ Str.lf +:+ sanitize_links b.
Proof.
  intros Ha. change (Str.lf +:+ ?x) with (String (Str.byte 10) x).
  change (sanitize_links (a +:+ String (Str.byte 10) b)
    = a +:+ String (Str.byte 10) (sanitize_links b)).
  unfold sanitize_links.
  rewrite (replace_links_clean SELF_DUP)
    by (done || apply self_dup_at_folder || apply self_dup_consumes).
  rewrite (replace_links_clean DOUBLE_NEST)
    by (done || apply double_nest_at_folder || apply double_nest_consumes).
  by rewrite (replace_links_clean FOLDER_DISP)
    by (done || apply folder_disp_at_folder || apply folder_disp_consumes).
Qed.

(** ** Properties *)

Lemma slug_byte_not (c : ascii) (s : string) :
  slug_byte c = false -> Chars.all slug_byte s = true -> Str.no_char c s = true.
Proof. apply all_no_char. Qed.

(** A slug is a safe single path component, whatever the title: it is not empty, holds no slash,
    dot, backslash or NUL, neither begins nor ends with a hyphen, and of ASCII only lower-case letters,
    digits and hyphens. *)
Theorem slug_safe `{UL : UnicodeLaws} (title : string) :
  slugify title <> "" /\
  Str.no_char "/" (slugify title) = true /\ Str.no_char "." (slugify title) = true /\
  Str.no_char "\" (slugify title) = true /\ Str.no_char (Str.byte 0) (slugify title) = true /\
  Str.starts_with "-" (slugify title) = false /\ Str.ends_with "-" (slugify title) = false /\
  Chars.all slug_byte (slugify title) = true.
Proof.
  cut (slugify title <> "" /\ Chars.all slug_byte (slugify title) = true /\
    Str.starts_with "-" (slugify title) = false /\ Str.ends_with "-" (slugify title) = false).
  { intros (Hne & Hall & Hs & He). repeat split; try done; by apply slug_byte_not. }
  unfold slugify.
  destruct (slug_loop_inv (Chars.chars (Str.trim title)) "" false) as [Hall Hst];
    [apply chars_nonempty|by split|].
  destruct (trim_end_prefix "-" (slug_loop (Chars.chars (Str.trim title)) "" false)) as (t & Ht & Hend);
    [done|].
  set (out := Str.trim_end_matches ["-"] _) in *.
  destruct (String.eqb_spec out "") as [|Hne]; [by vm_compute|].
  split; [done|]. rewrite Ht in Hall. apply all_prefix in Hall. split; [done|].
  split; [|by apply Str.ends_with_false].
  destruct (Str.starts_with "-" out) eqn:Ho; [|done].
  apply Str.starts_with_spec in Ho as [x Hx]. rewrite Ht, Hx, Str.app_assoc in Hst.
  by rewrite Str.starts_with_app in Hst.
Qed.

(** A table of no characters beyond ASCII, for concrete slugs. *)
Definition ascii_only : Unicode :=
  {| uni_alphanumeric := fun _ => false; uni_lowercase := fun c => ["a"] |}.
Lemma ascii_only_laws : UnicodeLaws ascii_only.
Proof.
  split; [done|]. intros c x Hx. apply list_elem_of_singleton in Hx as ->. by vm_compute.
Qed.

Lemma slug_safe_witness :
  @slugify ascii_only "../../etc/passwd" = "etc-passwd" /\
  Str.no_char "/" (@slugify ascii_only "../../etc/passwd") = true.
Proof.
  split; [vm_compute; reflexivity|].
  exact (proj1 (proj2 (@slug_safe ascii_only ascii_only_laws "../../etc/passwd"))).
Defined.

Example slug_cases :
  map (@slugify ascii_only)
    ["Tsinghua University"; "  Data  Structures & Algorithms! "; "C++ / Rust"; "--Already--Hyphen--"; ""]
  = ["tsinghua-university"; "data-structures-algorithms"; "c-rust"; "already-hyphen"; "untitled"].
Proof. vm_compute. reflexivity. Qed.

Example sanitize_cases :
  map sanitize_links
    ["see [[entities/X|entities/X]] and [[concepts/conceptsFoo|Foo]]"; "[[entities/entities/Y]]";
     "[[Plain]] [[slug|Disp]]"]
  = ["see [[X]] and [[Foo]]"; "[[Y]]"; "[[Plain]] [[slug|Disp]]"].
Proof. vm_compute. reflexivity. Qed.

Example parse_cases :
  parse_wikilinks "a [[entities/foo|Foo Display]] b [[bar]] c"
  = [{| target_slug := "foo"; target_type := Some "entity"; display := Some "Foo Display" |};
     {| target_slug := "bar"; target_type := None; display := None |}].
Proof. vm_compute. reflexivity. Qed.

Lemma rfind_le (p s : string) (n : nat) : Str.rfind p s = Some n -> (n <= String.length s)%nat.
Proof.
  revert n. induction s as [|c s IH]; intros n; simpl.
  - destruct (Str.starts_with p ""); intros H; by inv H.
  - destruct (Str.rfind p s) as [m|]; [intros H; inv H; specialize (IH m eq_refl); lia|].
    destruct (Str.starts_with p (String c s)); intros H; inv H. lia.
Qed.

Lemma cut_bounded (B : nat) (joined w full : string) (fits : Prop) :
  (String.length w <= 45)%nat -> (fits -> joined = full /\ w = "") ->
  match (if Nat.ltb B (String.length joined) then
           if IndexGen.is_char_boundary B joined then
             Some (Str.take (unwrap_or (Str.rfind Str.lf (Str.take B joined)) B) joined
               +:+ IndexGen.warning "25000 bytes")
           else None
         else Some (joined +:+ w)) with
  | Some out => (String.length out <= B + 45)%nat /\
      (fits -> (String.length full <= B)%nat -> out = full)
  | None => (B < String.length joined)%nat /\ IndexGen.is_char_boundary B joined = false
  end.
Proof.
  intros Hw Hfits. destruct (Nat.ltb_spec B (String.length joined)) as [Hb|Hb].
  - destruct (IndexGen.is_char_boundary B joined) eqn:Hc; [|done]. split.
    + rewrite Str.length_app, Str.length_take.
      assert (String.length (IndexGen.warning "25000 bytes") <= 45)%nat by (vm_compute; lia).
      destruct (Str.rfind _ _) as [n|] eqn:Hr; cbn [unwrap_or]; [|lia].
      apply rfind_le in Hr. rewrite Str.length_take in Hr. lia.
    + intros Hf Hl. destruct (Hfits Hf) as [-> _]. lia.
  - split; [rewrite Str.length_app; lia|]. intros Hf _. destruct (Hfits Hf) as [-> ->].
    apply Str.app_nil_r.
Qed.

(** The index that is produced never exceeds 25,000 bytes and its warning, and is the catalog
    itself when it fits; none is produced (the slice panics) exactly when the joined lines are longer
    and byte 25,000 lies inside a character. *)
Theorem index_bounded (idx : string) :
  match IndexGen.truncate_index idx with
  | Some out =>
      (String.length out <= IndexGen.MAX_INDEX_BYTES + 45)%nat /\
      ((length (Str.lines idx) <= IndexGen.MAX_INDEX_LINES)%nat ->
       (String.length (Str.join Str.lf (Str.lines idx)) <= IndexGen.MAX_INDEX_BYTES)%nat ->
       out = Str.join Str.lf (Str.lines idx))
  | None =>
      let joined := Str.join Str.lf (firstn IndexGen.MAX_INDEX_LINES (Str.lines idx)) in
      (IndexGen.MAX_INDEX_BYTES < String.length joined)%nat /\
      IndexGen.is_char_boundary IndexGen.MAX_INDEX_BYTES joined = false
  end.
Proof.
  unfold IndexGen.truncate_index. generalize IndexGen.MAX_INDEX_BYTES as B. intros B.
  generalize IndexGen.MAX_INDEX_LINES as L. intros L.
  assert (forall ls, ls = firstn L (Str.lines idx) -> forall w, (String.length w <= 45)%nat ->
    ((length (Str.lines idx) <= L)%nat -> w = "") ->
    match (if Nat.ltb B (String.length (Str.join Str.lf ls)) then
             if IndexGen.is_char_boundary B (Str.join Str.lf ls) then
               Some (Str.take (unwrap_or (Str.rfind Str.lf (Str.take B (Str.join Str.lf ls))) B)
                 (Str.join Str.lf ls) +:+ IndexGen.warning "25000 bytes")
             else None
           else Some (Str.join Str.lf ls +:+ w)) with
    | Some out => (String.length out <= B + 45)%nat /\
        ((length (Str.lines idx) <= L)%nat ->
         (String.length (Str.join Str.lf (Str.lines idx)) <= B)%nat ->
         out = Str.join Str.lf (Str.lines idx))
    | None => let joined := Str.join Str.lf (firstn L (Str.lines idx)) in
        (B < String.length joined)%nat /\ IndexGen.is_char_boundary B joined = false
    end) as H.
  { intros ls -> w Hw Hw'. apply cut_bounded; [done|]. intros Hl. split; [by rewrite firstn_all2|auto]. }
  destruct (Nat.ltb_spec L (length (Str.lines idx))) as [Hn|Hn]; apply H.
  - done.
  - vm_compute. lia.
  - lia.
  - by rewrite firstn_all2.
  - simpl. lia.
  - done.
Qed.
