(* ===== verification/Wiki.v ===== *)
(** * The wiki: pages, the write gate and the page factory

    [wiki/src/path_guard.rs], [conflict.rs], [related.rs], [write_gate.rs], [page_factory.rs] and the
    part of [store/src/wiki_repo.rs] they call. The operating system's file operations are the class
    [Os] over an opaque file system; the tables [wiki_pages] and [wiki_links] are lists of rows, and a
    repository call is the function its SQL computes on them for the tenant of its transaction. The
    model seam [WikiLlm] and the hash are parameters. *)
From S2P Require Import Prelude RustStr Json WikiText Protocol.
From Stdlib Require Import QArith.
From stdpp Require Import list.

#[local] Open Scope string_scope.
#[local] Open Scope list_scope.

(** ** The path guard *)
Module Paths.
(** An absolute path is the list of its components. *)
Definition Path : Type := list string.

(** The file operations of the standard library, over a file system [F]. *)
Class Os (F : Type) : Type := {
  canonicalize : Path -> F -> result string Path;
  exists_ : Path -> F -> bool;
  metadata_len : Path -> F -> result string Z;
  create_dir_all : Path -> F -> result string unit * F;
  write : Path -> string -> F -> result string unit * F;
  read_to_string : Path -> F -> result string string;
}.

(** [Path::components] of a relative text without [..]; an absolute one replaces the base. *)
Definition components (s : string) : list string :=
  filter (fun c => negb (String.eqb c "" || String.eqb c ".") = true) (Str.split_on "/" s).
Definition join (base : Path) (rel : string) : Path :=
  if Str.starts_with "/" rel then components rel else base ++ components rel.
Definition parent (p : Path) : option Path :=
  match p with [] => None | _ => Some (removelast p) end.
Definition file_name (p : Path) : option string := last p.
(** [p.starts_with(root)] compares components. *)
Fixpoint starts_with (root p : Path) : bool :=
  match root, p with
  | [], _ => true
  | a :: root, b :: p => String.eqb a b && starts_with root p
  | _ :: _, [] => false
  end.

(* src/qcue-rs/wiki/src/path_guard.rs 8-19 PathError *)
Inductive PathError : Type := Escapes | Illegal | NotMarkdown | TooBig | Io (msg : string).

Definition nul : string := Str.bytes [0]%nat.

(* src/qcue-rs/wiki/src/path_guard.rs 22-49 resolve_in_root *)
Definition resolve_in_root {F} `{Os F} (root : Path) (rel : string) (size_cap : Z) (f : F) :
  result PathError Path :=
  if Str.contains nul rel || Str.contains ".." rel then Err Illegal
  else if negb (Str.ends_with ".md" rel) then Err NotMarkdown
  else
    let? root_real := map_err Io (canonicalize root f) in
    let joined := join root_real rel in
    let? check :=
      if exists_ joined f then map_err Io (canonicalize joined f)
      else
        let? p := ok_or (parent joined) Escapes in
        let? parent_real := map_err (fun _ => Escapes) (canonicalize p f) in
        let? name := ok_or (file_name joined) Escapes in
        Ok (parent_real ++ [name]) in
    if negb (starts_with root_real check) then Err Escapes
    else if exists_ check f then
      let? len := map_err Io (metadata_len check f) in
      if (size_cap <? len)%Z then Err TooBig else Ok check
    else Ok check.
End Paths.
Import Paths.

(** ** Conflict resolution *)
Module Conflict.
(* src/qcue-rs/wiki/src/types.rs 56-60 ResolveAction *)
Inductive ResolveAction : Type := Create | Merge | Flag.

(** The confidence is the literal of the source. *)
(* src/qcue-rs/wiki/src/types.rs 63-69 ConflictResolution *)
Record ConflictResolution : Type := {
  action : ResolveAction;
  target : option Uuid;
  existing_type : option string;
  confidence : Q;
  reason : string;
}.

(* src/qcue-rs/wiki/src/conflict.rs 6-13 ExistingPage *)
Record ExistingPage : Type := {
  ep_id : Uuid;
  ep_slug : string;
  ep_title : string;
  ep_aliases : list string;
  ep_type : string;
}.

(* src/qcue-rs/wiki/src/conflict.rs 55-63 merge *)
Definition merge (p : ExistingPage) (why : string) : ConflictResolution :=
  {| action := Merge; target := Some (ep_id p); existing_type := Some (ep_type p);
     confidence := 1; reason := why |}.

Section Resolve.
Context `{U : Unicode}.

Definition same_type_slug (want slug : string) (p : ExistingPage) : bool :=
  String.eqb (ep_type p) want && String.eqb (ep_slug p) slug.
Definition same_type_alias (want slug name_l : string) (p : ExistingPage) : bool :=
  String.eqb (ep_type p) want &&
  (String.eqb (ep_slug p) slug ||
   existsb (fun a => String.eqb (to_lowercase a) name_l || String.eqb (slugify a) slug) (ep_aliases p)).
Definition any_type (slug : string) (p : ExistingPage) : bool :=
  String.eqb (ep_slug p) slug || existsb (fun a => String.eqb (slugify a) slug) (ep_aliases p).

(* src/qcue-rs/wiki/src/conflict.rs 17-52 resolve *)
Definition resolve (name want_type : string) (existing : list ExistingPage) : ConflictResolution :=
  let slug := slugify name in
  let name_l := to_lowercase name in
  match find_first (same_type_slug want_type slug) existing with
  | Some p => merge p "same-type exact slug"
  | None =>
      match find_first (same_type_alias want_type slug name_l) existing with
      | Some p => merge p "same-type alias match"
      | None =>
          match find_first (any_type slug) existing with
          | Some p =>
              {| action := Flag; target := Some (ep_id p); existing_type := Some (ep_type p);
                 confidence := 9 # 10; reason := "cross-type slug/alias collision" |}
          | None =>
              {| action := Create; target := None; existing_type := None; confidence := 1;
                 reason := "no deterministic match" |}
          end
      end
  end.

(* src/qcue-rs/wiki/src/related.rs 7-15 match_related *)
Definition match_related (candidates : list string) (existing : list ExistingPage) :
  list ExistingPage :=
  omap (fun c => find_first (any_type (slugify c)) existing) candidates.
End Resolve.
End Conflict.
Import Conflict.

(** ** The repository *)
Module Repo.
(** A row of [wiki_pages]; the last field is [deleted_at IS NOT NULL]. *)
(* src/qcue-rs/store/src/wiki_repo.rs 9-20 PageRow *)
Record PageRow : Type := {
  id : Uuid;
  tenant_id : Uuid;
  slug : string;
  title : string;
  aliases : list string;
  tags : list string;
  type_ : string;
  summary : string;
  reviewed : bool;
  char_len : Z;
  body_ref : Path;
  source_ids : list Uuid;
  content_hash : string;
  sync_version : Z;
  deleted : bool;
}.

(* src/qcue-rs/store/src/wiki_repo.rs 24-37 PageUpsert *)
Record PageUpsert : Type := {
  u_type : string;
  u_slug : string;
  u_title : string;
  u_aliases : list string;
  u_tags : list string;
  u_summary : string;
  u_char_len : Z;
  u_body_ref : Path;
  u_source_ids : list Uuid;
  u_content_hash : string;
}.

Record LinkRow : Type := {
  l_tenant : Uuid;
  l_src : Uuid;
  l_slug : string;
  l_type : option string;
  l_target : option Uuid;
  l_display : option string;
}.

Record Db : Type := { pages : list PageRow; links : list LinkRow }.

Definition live (tenant : Uuid) (r : PageRow) : bool := N.eqb (tenant_id r) tenant && negb (deleted r).

(* src/qcue-rs/store/src/wiki_repo.rs 95-106 existing_pages *)
Definition existing_pages (tenant : Uuid) (db : Db) : list PageRow :=
  filter (fun r => live tenant r = true) (pages db).

(* src/qcue-rs/store/src/wiki_repo.rs 186-198 page *)
Definition page (tenant i : Uuid) (db : Db) : option PageRow :=
  find_first (fun r => N.eqb (tenant_id r) tenant && N.eqb (id r) i) (pages db).

(** [COUNT( * )], [SUM(char_len)] over the tenant's live pages. *)
(* src/qcue-rs/store/src/wiki_repo.rs 258-269 vault_usage *)
Definition vault_usage (tenant : Uuid) (db : Db) : Z * Z :=
  let l := existing_pages tenant db in
  (Z.of_nat (length l), foldr (fun r acc => (char_len r + acc)%Z) 0%Z l).

Definition same_key (tenant : Uuid) (p : PageUpsert) (r : PageRow) : bool :=
  live tenant r && String.eqb (type_ r) (u_type p) && String.eqb (slug r) (u_slug p).

Definition updated_row (p : PageUpsert) (r : PageRow) : PageRow :=
  {| id := id r; tenant_id := tenant_id r; slug := slug r; title := u_title p;
     aliases := u_aliases p; tags := u_tags p; type_ := type_ r; summary := u_summary p;
     reviewed := reviewed r; char_len := u_char_len p; body_ref := body_ref r;
     source_ids := remove_dups (source_ids r ++ u_source_ids p);
     content_hash := u_content_hash p; sync_version := (sync_version r + 1)%Z; deleted := deleted r |}.
Definition new_row (new_id tenant : Uuid) (p : PageUpsert) : PageRow :=
  {| id := new_id; tenant_id := tenant; slug := u_slug p; title := u_title p;
     aliases := u_aliases p; tags := u_tags p; type_ := u_type p; summary := u_summary p;
     reviewed := false; char_len := u_char_len p; body_ref := u_body_ref p;
     source_ids := u_source_ids p; content_hash := u_content_hash p; sync_version := 1;
     deleted := false |}.

(** The cast to [wiki_page_type] fails for an unknown type; [new_id] is the column's default. The
    order of the merged provenance array, which SQL leaves open, is that of first occurrence. *)
(* src/qcue-rs/store/src/wiki_repo.rs 123-154 upsert_page *)
Definition upsert_page (new_id : Db -> Uuid) (tenant : Uuid) (p : PageUpsert) (db : Db) :
  result string (Uuid * Db) :=
  match parse (u_type p) with
  | None => Err "invalid input value for enum wiki_page_type"
  | Some _ =>
      match find_first (same_key tenant p) (pages db) with
      | Some r =>
          Ok (id r, {| pages := (fun x => if same_key tenant p x then updated_row p x else x) <$> pages db;
                       links := links db |})
      | None =>
          Ok (new_id db, {| pages := pages db ++ [new_row (new_id db) tenant p]; links := links db |})
      end
  end.

(** A link's target: a live page with the slug, or the alias. *)
Definition resolve_target (tenant : Uuid) (s : string) (db : Db) : option Uuid :=
  id <$> find_first (fun r => live tenant r && (String.eqb (slug r) s || existsb (String.eqb s) (aliases r)))
    (pages db).

Definition insert_link (tenant src : Uuid) (db : Db) (l : Links.ParsedLink) (ls : list LinkRow) :
  list LinkRow :=
  if existsb (fun x => N.eqb (l_tenant x) tenant && N.eqb (l_src x) src &&
                       String.eqb (l_slug x) (Links.target_slug l)) ls
  then ls
  else ls ++ [{| l_tenant := tenant; l_src := src; l_slug := Links.target_slug l;
                 l_type := Links.target_type l;
                 l_target := resolve_target tenant (Links.target_slug l) db;
                 l_display := Links.display l |}].

(* src/qcue-rs/store/src/wiki_repo.rs 158-184 replace_links *)
Definition replace_links (tenant src : Uuid) (parsed : list Links.ParsedLink) (db : Db) : Db :=
  let kept := filter (fun x => negb (N.eqb (l_tenant x) tenant && N.eqb (l_src x) src) = true) (links db) in
  {| pages := pages db; links := foldl (fun ls l => insert_link tenant src db l ls) kept parsed |}.

(* src/qcue-rs/store/src/wiki_repo.rs 215-225 soft_delete *)
Definition soft_delete (tenant i : Uuid) (db : Db) : Db :=
  {| pages := (fun r => if live tenant r && N.eqb (id r) i
      then {| id := id r; tenant_id := tenant_id r; slug := slug r; title := title r;
              aliases := aliases r; tags := tags r; type_ := type_ r; summary := summary r;
              reviewed := reviewed r; char_len := char_len r; body_ref := body_ref r;
              source_ids := source_ids r; content_hash := content_hash r;
              sync_version := sync_version r; deleted := true |}
      else r) <$> pages db;
     links := links db |}.
End Repo.
Import Repo.

(** ** The write gate *)
Module Gate.
(* src/qcue-rs/wiki/src/write_gate.rs 13-13 BODY_SIZE_CAP *)
Definition BODY_SIZE_CAP : Z := 1000000.

(* src/qcue-rs/wiki/src/sandbox.rs 8-11 TenantQuota *)
Record TenantQuota : Type := { max_pages : Z; max_bytes : Z }.
(* src/qcue-rs/wiki/src/sandbox.rs 26-30 default *)
Definition default_quota : TenantQuota := {| max_pages := 5000; max_bytes := 50 * 1024 * 1024 |}.

(* src/qcue-rs/wiki/src/write_gate.rs 31-42 PageWrite *)
Record PageWrite : Type := {
  w_type : string;
  w_slug : string;
  w_title : string;
  w_aliases : list string;
  w_tags : list string;
  w_summary : string;
  w_source_ids : list Uuid;
  w_body : string;
  llm_created : option string;
  llm_reviewed : option bool;
}.

Inductive GateError : Type := Quota (pages bytes : Z) | PathErr (e : PathError) | IoErr (msg : string) | DbErr (msg : string).

Section WriteGate.
Context {F : Type} `{Os F} (sha256_hex : string -> string) (new_id : Db -> Uuid).
Context (vault_root : Path) (quota : TenantQuota).

Definition page_folder (ty : string) : string := unwrap_or (parse ty ≫= folder) "".
Definition page_rel (ty sl : string) : string :=
  if String.eqb (page_folder ty) "" then sl +:+ ".md" else page_folder ty +:+ "/" +:+ sl +:+ ".md".
Definition page_dir (ty : string) : Path :=
  if String.eqb (page_folder ty) "" then vault_root else join vault_root (page_folder ty).

(** The mirror row of a write; created, updated and reviewed are not among its fields. *)
Definition mirror (w : PageWrite) (sanitized : string) (path : Path) : PageUpsert :=
  {| u_type := w_type w; u_slug := w_slug w; u_title := w_title w; u_aliases := w_aliases w;
     u_tags := w_tags w; u_summary := w_summary w;
     u_char_len := Z.min (Z.of_nat (Chars.count sanitized)) Int.i32_max;
     u_body_ref := path; u_source_ids := w_source_ids w;
     u_content_hash := sha256_hex sanitized |}.

Definition over_quota (usage : Z * Z) (char_len : Z) : bool :=
  (max_pages quota <=? fst usage)%Z
  || (max_bytes quota <? Z.min Int.u64_max (Int.wrap_u64 (snd usage) + char_len))%Z.

(* src/qcue-rs/wiki/src/write_gate.rs 55-121 write_page *)
Definition write_page (tenant : Uuid) (w : PageWrite) (db : Db) (f : F) :
  result GateError Uuid * Db * F :=
  let sanitized := Links.sanitize_links (w_body w) in
  let char_len := Z.min (Z.of_nat (Chars.count sanitized)) Int.i32_max in
  let usage := vault_usage tenant db in
  if over_quota usage char_len then (Err (Quota (fst usage) (snd usage)), db, f)
  else
    match create_dir_all (page_dir (w_type w)) f with
    | (Err e, f) => (Err (IoErr e), db, f)
    | (Ok _, f) =>
        match resolve_in_root vault_root (page_rel (w_type w) (w_slug w)) BODY_SIZE_CAP f with
        | Err e => (Err (PathErr e), db, f)
        | Ok path =>
            match write path sanitized f with
            | (Err e, f) => (Err (IoErr e), db, f)
            | (Ok _, f) =>
                match upsert_page new_id tenant (mirror w sanitized path) db with
                | Err e => (Err (DbErr e), db, f)
                | Ok (i, db) =>
                    (Ok i, replace_links tenant i (Links.parse_wikilinks sanitized) db, f)
                end
            end
        end
    end.

(* src/qcue-rs/wiki/src/write_gate.rs 125-128 read_body *)
Definition read_body (tenant i : Uuid) (db : Db) (f : F) : result GateError string :=
  let? r := ok_or (page tenant i db) (DbErr "no rows returned") in
  map_err IoErr (read_to_string (body_ref r) f).
End WriteGate.
End Gate.
Import Gate.

(** ** The page factory *)
Module Factory.
(* src/qcue-rs/wiki/src/prompts/constraints.rs 4-8 UNIVERSAL_LINK_CONSTRAINTS *)
Definition UNIVERSAL_LINK_CONSTRAINTS : string :=
  "LINK RULES (mandatory):" +:+ Str.lf +:+
  "- Use [[wikilinks]] only — never HTML or markdown links." +:+ Str.lf +:+
  "- Link by bare slug: [[rust]] or [[rust|Rust]]. Never write folder paths in link display text (no [[entities/rust|entities/rust]])." +:+ Str.lf +:+
  "- Do not invent links to pages you have not been told exist.".

(* src/qcue-rs/wiki/src/prompts/constraints.rs 16-18 build_merge_prompt *)
Definition build_merge_prompt : string :=
  "Merge new info into the existing page. Return NO_NEW_CONTENT if nothing is new." +:+ Str.lf +:+
  UNIVERSAL_LINK_CONSTRAINTS.

(* src/qcue-rs/wiki/src/types.rs 72-72 NO_NEW_CONTENT *)
Definition NO_NEW_CONTENT : string := "NO_NEW_CONTENT".

(* src/qcue-rs/wiki/src/llm.rs 39-46 WikiReq *)
Record WikiReq : Type := {
  stable_prefix : string;
  messages : list Message;
  response_format : option (string * Value);
  max_tokens : Z;
  cache_breakpoint : option Z;
  disable_thinking : bool;
}.

(* src/qcue-rs/wiki/src/page_factory.rs 14-22 CreateOrUpdate *)
Record CreateOrUpdate : Type := {
  c_name : string;
  c_type : string;
  c_body : string;
  c_aliases : list string;
  c_tags : list string;
  c_summary : string;
  c_source : option Uuid;
}.

(* src/qcue-rs/wiki/src/page_factory.rs 24-30 PageOutcome *)
Record PageOutcome : Type := {
  page_id : Uuid;
  created : bool;
  merged : bool;
  skipped_no_new_content : bool;
  cross_type_collision : bool;
}.

(* src/qcue-rs/wiki/src/page_factory.rs 177-190 user_msg *)
Definition user_msg (s : string) : Message :=
  {| role := User; content := Some s; tool_call_id := None; tool_name := None; tool_calls := None;
     finish_reason := None; reasoning := None; provider_data := None; active := true;
     is_untrusted := true |}.

Inductive FactoryError : Type := GateErr (e : GateError) | LlmErr (msg : string).

Section PageFactory.
Context {F L : Type} `{Os F} `{Unicode} (sha256_hex : string -> string) (new_id : Db -> Uuid).
Context (vault_root : Path) (quota : TenantQuota).
(** [WikiLlm::create_message], the content of its answer. *)
Context (create_message : Uuid -> WikiReq -> L -> result string string * L).

(* src/qcue-rs/wiki/src/page_factory.rs 116-126 llm_merge *)
Definition llm_merge (tenant : Uuid) (existing proposed : string) (l : L) : result string string * L :=
  create_message tenant
    {| stable_prefix := build_merge_prompt;
       messages := [user_msg ("EXISTING:" +:+ Str.lf +:+ existing +:+ Str.lf +:+ Str.lf +:+ "NEW:"
                              +:+ Str.lf +:+ proposed)];
       response_format := None; max_tokens := 2048; cache_breakpoint := Some 1%Z;
       disable_thinking := true |} l.

Definition page_write (ty sl ti body : string) (c : CreateOrUpdate) : PageWrite :=
  {| w_type := ty; w_slug := sl; w_title := ti; w_aliases := c_aliases c; w_tags := c_tags c;
     w_summary := c_summary c; w_source_ids := option_list (c_source c); w_body := body;
     llm_created := None; llm_reviewed := None |}.

(* src/qcue-rs/wiki/src/page_factory.rs 148-174 write_at *)
Definition write_at (tenant : Uuid) (ty sl ti body : string) (c : CreateOrUpdate) (db : Db) (f : F) :=
  write_page sha256_hex new_id vault_root quota tenant (page_write ty sl ti body c) db f.

(* src/qcue-rs/wiki/src/page_factory.rs 128-146 write *)
Definition write_new (tenant : Uuid) (c : CreateOrUpdate) (db : Db) (f : F) :=
  write_at tenant (c_type c) (slugify (c_name c)) (c_name c) (c_body c) c db f.

Definition existing_page (r : PageRow) : ExistingPage :=
  {| ep_id := id r; ep_slug := slug r; ep_title := title r; ep_aliases := aliases r; ep_type := type_ r |}.

Definition outcome (i : Uuid) (new upd skip cross : bool) : PageOutcome :=
  {| page_id := i; created := new; merged := upd; skipped_no_new_content := skip;
     cross_type_collision := cross |}.

(** The heading under which a reviewed page grows. *)
Definition appended (body proposed : string) : string :=
  body +:+ Str.lf +:+ Str.lf +:+ "## New Information" +:+ Str.lf +:+ proposed.

Definition merged_with (tenant target : Uuid) (cross : bool) (r : PageRow) (body : string)
  (c : CreateOrUpdate) (db : Db) (f : F) : result FactoryError PageOutcome * Db * F :=
  match write_at tenant (type_ r) (slug r) (title r) body c db f with
  | (Ok _, db, f) => (Ok (outcome target false true false cross), db, f)
  | (Err e, db, f) => (Err (GateErr e), db, f)
  end.

(* src/qcue-rs/wiki/src/page_factory.rs 73-112 create_or_update *)
Definition merge_into (tenant target : Uuid) (cross : bool) (c : CreateOrUpdate) (db : Db) (f : F)
  (l : L) : result FactoryError PageOutcome * Db * F * L :=
  match page tenant target db with
  | None => (Err (GateErr (DbErr "no rows returned")), db, f, l)
  | Some r =>
      match read_body tenant target db f with
      | Err e => (Err (GateErr e), db, f, l)
      | Ok body =>
          if reviewed r then (merged_with tenant target cross r (appended body (c_body c)) c db f, l)
          else
            match llm_merge tenant body (c_body c) l with
            | (Err e, l) => (Err (LlmErr e), db, f, l)
            | (Ok merged_body, l) =>
                if String.eqb (Str.trim merged_body) NO_NEW_CONTENT
                then (Ok (outcome target false false true cross), db, f, l)
                else (merged_with tenant target cross r merged_body c db f, l)
            end
      end
  end.

(* src/qcue-rs/wiki/src/page_factory.rs 43-114 create_or_update *)
Definition create_or_update (tenant : Uuid) (c : CreateOrUpdate) (db : Db) (f : F) (l : L) :
  result FactoryError PageOutcome * Db * F * L :=
  let existing := existing_page <$> existing_pages tenant db in
  let res := resolve (c_name c) (c_type c) existing in
  match action res with
  | Create =>
      match write_new tenant c db f with
      | (Ok i, db, f) => (Ok (outcome i true false false false), db, f, l)
      | (Err e, db, f) => (Err (GateErr e), db, f, l)
      end
  | Merge | Flag =>
      match target res with
      | None => (Err (GateErr (DbErr "merge resolution missing target")), db, f, l)
      | Some target =>
          merge_into tenant target (match action res with Flag => true | _ => false end) c db f l
      end
  end.
End PageFactory.
End Factory.
Import Factory.

(** ** Lemmas: paths *)
Lemma starts_with_prefix (root p : Path) : starts_with root p = true <-> root `prefix_of` p.
Proof.
  revert p. induction root as [|a root IH]; intros p; simpl.
  - split; [intros _; apply prefix_nil|done].
  - destruct p as [|b p]; [split; [done|intros Hp; by apply prefix_nil_not in Hp]|].
    rewrite andb_true_iff, String.eqb_eq, IH. split.
    + intros [-> Hp]. by apply prefix_cons.
    + intros Hp. split; [exact (prefix_cons_inv_1 _ _ _ _ Hp)|exact (prefix_cons_inv_2 _ _ _ _ Hp)].
Qed.

Lemma resolve_ok {F} `{Os F} (root : Path) (rel : string) (cap : Z) (f : F) (p : Path) :
  resolve_in_root root rel cap f = Ok p ->
  Str.contains nul rel = false /\ Str.contains ".." rel = false /\ Str.ends_with ".md" rel = true /\
  exists rr, canonicalize root f = Ok rr /\ starts_with rr p = true /\
    (exists_ p f = true -> exists n, metadata_len p f = Ok n /\ (n <= cap)%Z).
Proof.
  unfold resolve_in_root. destruct (Str.contains nul rel); [done|].
  destruct (Str.contains ".." rel); [done|]. destruct (Str.ends_with ".md" rel); [|done].
  cbn [orb negb]. destruct (canonicalize root f) as [rr|e] eqn:Hrr; [|done].
  cbn [map_err and_then].
  match goal with |- and_then ?c _ = _ -> _ => destruct c as [check|e]; [|done] end.
  cbn [and_then]. destruct (starts_with rr check) eqn:Hs; [|done]. cbn [negb].
  destruct (exists_ check f) eqn:He.
  - destruct (metadata_len check f) as [n|e] eqn:Hn; [|done]. cbn [map_err and_then].
    destruct (Z.ltb_spec cap n); intros Hp; [done|]. injection Hp as <-.
    repeat split. exists rr. repeat split; [done|]. intros _. by exists n.
  - intros Hp. injection Hp as <-. repeat split. exists rr. repeat split; [done|].
    intros Hx. congruence.
Qed.

(** C17: an accepted path lies under the real path of its root, symbolic links resolved, is named by a
    markdown name without a parent step or NUL, and a file already there is within the size cap; so it
    never lies under the root of another tenant, when neither root contains the other. *)
Theorem resolved_stays_in_root {F} `{Os F} (root : Path) (rel : string) (cap : Z) (f : F) (p : Path) :
  resolve_in_root root rel cap f = Ok p ->
  Str.contains ".." rel = false /\ Str.contains nul rel = false /\ Str.ends_with ".md" rel = true /\
  exists rr, canonicalize root f = Ok rr /\ rr `prefix_of` p /\
    (exists_ p f = true -> exists n, metadata_len p f = Ok n /\ (n <= cap)%Z) /\
    (forall root' rr', canonicalize root' f = Ok rr' ->
       ~ rr `prefix_of` rr' -> ~ rr' `prefix_of` rr -> ~ rr' `prefix_of` p).
Proof.
  intros Hr. apply resolve_ok in Hr as (Hn & Hd & Hm & rr & Hrr & Hs & Hl).
  apply starts_with_prefix in Hs. repeat split; try done. exists rr. repeat split; try done.
  intros root' rr' _ H1 H2 H3. by destruct (prefix_weak_total _ _ _ Hs H3).
Qed.

(** ** Conflict resolution *)
Section ConflictProps.
Context `{U : Unicode}.

(** The resolver merges exactly into a page of the wanted type, the one with the exact slug before
    any found by an alias; it flags only when no page of that type matches and another type's page
    does; and it creates only when no page of any type has the slug, by name or by alias. *)
Theorem resolve_ladder (name want : string) (existing : list ExistingPage) :
  let res := resolve name want existing in
  let slug := slugify name in
  match action res with
  | Merge => exists p, p ∈ existing /\ target res = Some (ep_id p) /\ ep_type p = want /\
      (ep_slug p = slug \/
       (forall q, q ∈ existing -> ep_type q = want -> ep_slug q <> slug) /\
       exists a, a ∈ ep_aliases p /\ (to_lowercase a = to_lowercase name \/ slugify a = slug))
  | Flag => exists p, p ∈ existing /\ target res = Some (ep_id p) /\ ep_type p <> want /\
      (ep_slug p = slug \/ exists a, a ∈ ep_aliases p /\ slugify a = slug) /\
      (forall q, q ∈ existing -> ep_type q = want -> ep_slug q <> slug)
  | Create => target res = None /\
      forall q, q ∈ existing -> ep_slug q <> slug /\ forall a, a ∈ ep_aliases q -> slugify a <> slug
  end.
Proof.
  cbv zeta. unfold resolve.
  destruct (find_first (same_type_slug want (slugify name)) existing) as [p|] eqn:H1.
  { apply find_first_some in H1 as [Hp H1]. unfold same_type_slug in H1. bool_prop. simpl.
    exists p. repeat split; auto. }
  assert (forall q, q ∈ existing -> ep_type q = want -> ep_slug q <> slugify name) as Hno.
  { intros q Hq Ht Hs. pose proof (proj1 (find_first_none _ _) H1 q Hq) as Hf.
    unfold same_type_slug in Hf. by rewrite Ht, Hs, !String.eqb_refl in Hf. }
  destruct (find_first (same_type_alias _ _ _) existing) as [p|] eqn:H2.
  { apply find_first_some in H2 as [Hp H2]. unfold same_type_alias in H2. bool_prop. simpl.
    exists p. repeat split; auto. right. split; [done|].
    match goal with H : _ || _ = true |- _ => apply orb_true_iff in H as [Hs|Ha] end.
    - apply String.eqb_eq in Hs. by destruct (Hno p Hp).
    - apply existsb_exists in Ha as (a & Ha & Hm). exists a.
      split; [by apply list_elem_of_In|]. by rewrite orb_true_iff, !String.eqb_eq in Hm. }
  destruct (find_first (any_type _) existing) as [p|] eqn:H3; simpl.
  - apply find_first_some in H3 as [Hp H3]. exists p. repeat split; auto.
    + intros Ht. pose proof (proj1 (find_first_none _ _) H2 p Hp) as Hf.
      unfold same_type_alias in Hf. rewrite Ht, String.eqb_refl in Hf. simpl in Hf.
      unfold any_type in H3. apply orb_true_iff in H3 as [Hs|Ha]; [by rewrite Hs in Hf|].
      apply orb_false_iff in Hf as [_ Hf]. apply existsb_exists in Ha as (a & Ha & Hm).
      apply Bool.not_true_iff_false in Hf. apply Hf. apply existsb_exists. exists a.
      by rewrite Hm, orb_true_r.
    + unfold any_type in H3. apply orb_true_iff in H3 as [Hs|Ha]; [left; by apply String.eqb_eq|].
      right. apply existsb_exists in Ha as (a & Ha & Hm). exists a.
      split; [by apply list_elem_of_In|by apply String.eqb_eq].
  - split; [done|]. intros q Hq. pose proof (proj1 (find_first_none _ _) H3 q Hq) as Hf.
    unfold any_type in Hf. apply orb_false_iff in Hf as [Hs Ha].
    split; [by apply String.eqb_neq|]. intros a Hin Heq. apply Bool.not_true_iff_false in Ha.
    apply Ha. apply existsb_exists. exists a. split; [by apply list_elem_of_In|by apply String.eqb_eq].
Qed.
End ConflictProps.

(** ** The gate *)
Section GateProps.
Context {F : Type} `{Os F} (sha256_hex : string -> string) (new_id : Db -> Uuid).
Context (vault_root : Path) (quota : TenantQuota).

Lemma replace_links_pages (tenant src : Uuid) (parsed : list Links.ParsedLink) (db : Db) :
  pages (Repo.replace_links tenant src parsed db) = pages db.
Proof. done. Qed.

(** What an upsert leaves in the table. *)
Lemma upsert_page_spec (tenant : Uuid) (p : PageUpsert) (db db' : Db) (i : Uuid) :
  upsert_page new_id tenant p db = Ok (i, db') ->
  (exists r, r ∈ pages db' /\ id r = i /\ live tenant r = true /\ type_ r = u_type p /\
     slug r = u_slug p /\ char_len r = u_char_len p /\ content_hash r = u_content_hash p /\
     (reviewed r = true -> exists r0, r0 ∈ pages db /\ id r0 = i /\ reviewed r0 = true)) /\
  (forall x, x ∈ pages db -> tenant_id x <> tenant -> x ∈ pages db').
Proof.
  unfold upsert_page. destruct (parse (u_type p)); [|done].
  destruct (find_first (same_key tenant p) (pages db)) as [r|] eqn:Hf; intros Hu; injection Hu as <- <-.
  - apply find_first_some in Hf as [Hr Hk]. pose proof Hk as Hk'. unfold same_key in Hk'. bool_prop.
    split.
    + exists (updated_row p r). split; [apply list_elem_of_fmap; exists r; by rewrite Hk|].
      repeat split; auto. intros Hrev. by exists r.
    + intros x Hx Ht. apply list_elem_of_fmap. exists x. split; [|done].
      unfold same_key, live. by rewrite (proj2 (N.eqb_neq _ _) Ht).
  - split.
    + exists (new_row (new_id db) tenant p). split; [apply elem_of_app; right; left|].
      unfold live. simpl. rewrite N.eqb_refl. by repeat split.
    + intros x Hx _. apply elem_of_app. by left.
Qed.

End GateProps.

(** ** The factory *)
Section FactoryProps.
Context {F L : Type} `{Os F} `{Unicode} (sha256_hex : string -> string) (new_id : Db -> Uuid).
Context (vault_root : Path) (quota : TenantQuota).
Context (create_message : Uuid -> WikiReq -> L -> result string string * L).

(** A write leaves the sanitized body on disk. *)
Lemma merged_with_writes (tenant target : Uuid) (cross : bool) (r : PageRow) (body : string)
  (c : CreateOrUpdate) (db db' : Db) (f f' : F) (out : PageOutcome) :
  merged_with sha256_hex new_id vault_root quota tenant target cross r body c db f = (Ok out, db', f') ->
  out = outcome target false true false cross /\
  exists path f0, write path (Links.sanitize_links body) f0 = (Ok tt, f').
Proof.
  unfold merged_with, write_at. destruct (write_page _ _ _ _ _ _ db f) as [[[i|e] db1] f1] eqn:Hw;
    [|done].
  intros Ho. injection Ho as <- <- <-. split; [done|]. revert Hw. unfold write_page.
  destruct (over_quota _ _ _); [done|]. destruct (create_dir_all _ f) as [[u|e] f2]; [|done].
  destruct (resolve_in_root _ _ _ f2) as [path|e]; [|done].
  destruct (write path _ f2) as [[[]|e] f3] eqn:Hf; [|done].
  destruct (upsert_page _ _ _ db) as [[j db2]|e]; [|done].
  intros Ho. injection Ho as _ _ <-. by exists path, f2.
Qed.

Lemma resolve_create (name want : string) (existing : list ExistingPage) :
  action (resolve name want existing) = Create -> target (resolve name want existing) = None.
Proof. unfold resolve. by repeat case_match. Qed.

End FactoryProps.

(** ** Witnesses *)

(** A file system without links: a list of files, the last write first. *)
Definition Files : Type := list (Path * string).
Definition path_eqb (p q : Path) : bool := bool_decide (p = q).
Definition lookup_file (p : Path) (f : Files) : option string :=
  snd <$> find_first (fun x => path_eqb p (fst x)) f.
#[export] Instance files_os : Os Files := {
  canonicalize := fun p _ => Ok p;
  exists_ := fun p f => opt_is_some (lookup_file p f);
  metadata_len := fun p f =>
    result_map (fun s => Z.of_nat (String.length s)) (ok_or (lookup_file p f) "not found");
  create_dir_all := fun _ f => (Ok tt, f);
  write := fun p s f => (Ok tt, (p, s) :: f);
  read_to_string := fun p f => ok_or (lookup_file p f) "not found";
}.

Definition demo_root : Path := ["data"; "t"; "1"; "u"; "_"].
Definition rust_md : Path := demo_root ++ ["entities"; "rust.md"].
Definition demo_files : Files := [(rust_md, "A language.")].
Definition demo_row : PageRow :=
  {| id := 1%N; tenant_id := 1%N; slug := "rust"; title := "Rust"; aliases := ["rustlang"];
     tags := []; type_ := "entity"; summary := ""; reviewed := true; char_len := 11%Z;
     body_ref := rust_md; source_ids := []; content_hash := "h"; sync_version := 1%Z; deleted := false |}.
Definition demo_db : Db := {| pages := [demo_row]; links := [] |}.
Definition demo_proposal : CreateOrUpdate :=
  {| c_name := "Rustlang"; c_type := "concept"; c_body := "It has [[ownership]]."; c_aliases := [];
     c_tags := []; c_summary := ""; c_source := None |}.
Definition demo_create :=
  @create_or_update Files unit files_os ascii_only (fun s => s) (fun _ => 2%N) demo_root default_quota
    (fun _ _ l => (Err "no model", l)) 1%N demo_proposal demo_db demo_files tt.

Lemma resolved_stays_in_root_witness :
  resolve_in_root demo_root "entities/rust.md" 1024 demo_files = Ok rust_md /\
  demo_root `prefix_of` rust_md.
Proof.
  assert (resolve_in_root demo_root "entities/rust.md" 1024 demo_files = Ok rust_md) as H
    by (vm_compute; reflexivity).
  split; [exact H|].
  destruct (resolved_stays_in_root demo_root "entities/rust.md" 1024 demo_files rust_md H)
    as (_ & _ & _ & rr & Hrr & Hp & _).
  injection Hrr as <-. exact Hp.
Defined.

Example traversal_is_refused :
  resolve_in_root demo_root "../../2/u/_/entities/rust.md" 1024 demo_files = Err Illegal /\
  resolve_in_root demo_root "/etc/passwd.md" 1024 demo_files = Err Escapes /\
  resolve_in_root demo_root "entities/rust.md" 0 demo_files = Err TooBig.
Proof. vm_compute. repeat split. Qed.


(** A merge writes the proposal's aliases, here none, over those of the page. *)
Example merge_drops_aliases :
  match demo_create with
  | (_, db', _, _) => map aliases (pages db') = [[]]
  end.
Proof. vm_compute. reflexivity. Qed.
