(* ===== verification/Extract.v ===== *)
(** * Extraction: from a model's reply to a source analysis

    [wiki/src/json_hardening.rs], [wiki/src/extract/*.rs] and the structured-output ladder of
    [router/src/structured.rs]. Parsing and printing JSON is the class [Json]; the conversions derived
    by serde for the analysis types are parameters. *)
From S2P Require Import Prelude RustStr Json Protocol WikiText Wiki.

#[local] Open Scope string_scope.
#[local] Open Scope list_scope.

(** The elements of an array field, none when it is missing or something else; its strings. *)
Definition array_at (k : string) (v : Value) : list Value :=
  match get k v with Some (Array l) => l | _ => [] end.
Definition strings_at (k : string) (v : Value) : list string := omap Json.as_str (array_at k v).

(** ** Isolating a JSON object *)
Module Hardening.
Definition open_brace : ascii := "{".
Definition close_brace : ascii := "}".
Definition dquote : ascii := Str.byte 34.
Definition backslash : ascii := "\".

(* src/qcue-rs/wiki/src/json_hardening.rs 8-8 PREFILL_OPEN_BRACE *)
Definition PREFILL_OPEN_BRACE : string := "{".

(** The loop over the bytes from the first brace: the length of the balanced object, if it closes. *)
(* src/qcue-rs/wiki/src/json_hardening.rs 23-43 parse_json_response *)
Fixpoint balance (s : string) (depth : Z) (in_str esc : bool) (n : nat) : option nat :=
  match s with
  | EmptyString => None
  | String b s =>
      if Ascii.eqb b dquote && negb esc then balance s depth (negb in_str) false (S n)
      else if Ascii.eqb b backslash && in_str then balance s depth in_str (negb esc) (S n)
      else if Ascii.eqb b open_brace && negb in_str then balance s (depth + 1) in_str false (S n)
      else if Ascii.eqb b close_brace && negb in_str then
        if (depth - 1 =? 0)%Z then Some (S n) else balance s (depth - 1) in_str false (S n)
      else balance s depth in_str false (S n)
  end.

Definition after_think (s : string) : string :=
  match Str.rfind "</think>" s with
  | Some i => Str.trim (Str.drop (i + 8) s)
  | None => s
  end.
Definition unfence (s : string) : string :=
  let s := Str.trim (Str.trim_start_matches ["```"] (Str.trim_start_matches ["```json"] s)) in
  Str.trim (unwrap_or (Str.strip_suffix "```" s) s).

(** The text handed to the parser. *)
Definition isolate (raw : string) : string :=
  let s := unfence (after_think (Str.trim raw)) in
  match Str.find "{" s with
  | Some start =>
      match balance (Str.drop start s) 0 false false 0 with
      | Some n => Str.take n (Str.drop start s)
      | None => s
      end
  | None => s
  end.

(* src/qcue-rs/wiki/src/json_hardening.rs 11-46 parse_json_response *)
Definition parse_json_response `{Json} (raw : string) : result string Value := from_str (isolate raw).

(* src/qcue-rs/wiki/src/json_hardening.rs 49-51 next_max_tokens_on_truncation *)
Definition next_max_tokens_on_truncation (current : Z) : option Z := Some (Int.sat_u32 (current * 2)).
End Hardening.

(** ** The router's ladder *)
Module Structured.
(** Brace counting without regard to strings; a stray closing brace takes the depth below zero. *)
(* src/qcue-rs/router/src/structured.rs 25-46 parse_json_response *)
Fixpoint first_object (s : string) (i : nat) (depth : Z) (start : option nat) : option (nat * nat) :=
  match s with
  | EmptyString => None
  | String b s =>
      if Ascii.eqb b Hardening.open_brace then
        first_object s (S i) (depth + 1) (if (depth =? 0)%Z then Some i else start)
      else if Ascii.eqb b Hardening.close_brace then
        match start with
        | Some st =>
            if (depth - 1 =? 0)%Z then Some (st, S i) else first_object s (S i) (depth - 1) start
        | None => first_object s (S i) (depth - 1) start
        end
      else first_object s (S i) depth start
  end.

Definition unfence (s : string) : string :=
  match Str.find "```" s with
  | Some start =>
      let after := Str.drop (start + 3) s in
      let after := unwrap_or (Str.strip_prefix "json" after) after in
      match Str.find "```" after with Some e => Str.take e after | None => s end
  | None => s
  end.

Definition isolate (raw : string) : string :=
  let s := unfence (Str.remove_pairs (String.length raw) "<think>" "</think>" raw) in
  match first_object s 0 0 None with
  | Some (st, e) => Str.slice st e s
  | None => Str.trim s
  end.

(* src/qcue-rs/router/src/structured.rs 6-48 parse_json_response *)
Definition parse_json_response `{Json} (raw : string) : result string Value := from_str (isolate raw).

(** The ladder's state is its count of repairs; [repair] acts on a world. *)
(* src/qcue-rs/router/src/structured.rs 62-73 parse_with_repair *)
Definition parse_with_repair `{Json} {W : Type} (repair : string -> W -> result string string * W)
  (attempts : Z) (raw : string) (w : W) : result string Value * Z * W :=
  match parse_json_response raw with
  | Ok v => (Ok v, attempts, w)
  | Err _ =>
      let '(r, w) := repair raw w in
      ((let? repaired := r in parse_json_response repaired), (attempts + 1)%Z, w)
  end.

(* src/qcue-rs/router/src/structured.rs 82-97 rank_or_empty *)
Definition rank_or_empty `{Json} (reply : result string string) : list string :=
  match reply with
  | Ok body =>
      match parse_json_response body with
      | Ok v => strings_at "selected" v
      | Err _ => []
      end
  | Err _ => []
  end.
End Structured.

(** ** Batches *)
Module Batch.
(* src/qcue-rs/wiki/src/extract/batch_limits.rs 2-2 TOKENS_PER_ITEM_BUDGET *)
Definition TOKENS_PER_ITEM_BUDGET : nat := 400.
Definition CHARS_PER_ITEM : nat := 600.

(* src/qcue-rs/wiki/src/extract/batch_limits.rs 6-11 Granularity *)
Inductive Granularity : Type := Fine | Standard | Coarse | Minimal.

(* src/qcue-rs/wiki/src/extract/batch_limits.rs 14-18 BatchLimits *)
Record BatchLimits : Type := { items_per_batch : nat; max_total_items : nat; max_tokens : Z }.

(* src/qcue-rs/wiki/src/extract/batch_limits.rs 20-27 base_items_per_batch *)
Definition base_items_per_batch (g : Granularity) : nat :=
  match g with Fine => 15 | Standard => 8 | Coarse => 5 | Minimal => 3 end.
(* src/qcue-rs/wiki/src/extract/batch_limits.rs 28-35 base_cap *)
Definition base_cap (g : Granularity) : nat :=
  match g with Fine => 100 | Standard => 50 | Coarse => 25 | Minimal => 10 end.

(* src/qcue-rs/wiki/src/extract/batch_limits.rs 37-48 calculate_batch_limits *)
Definition calculate_batch_limits (content_len : nat) (g : Granularity) : BatchLimits :=
  let content_cap := Nat.max (content_len / CHARS_PER_ITEM) 1 in
  let total := Nat.min (base_cap g) content_cap in
  let items := Nat.min (base_items_per_batch g) (Nat.max total 1) in
  {| items_per_batch := items; max_total_items := total;
     max_tokens := Z.of_nat (items * TOKENS_PER_ITEM_BUDGET) |}.

(* src/qcue-rs/wiki/src/extract/batch_merger.rs 3-6 ExtractedItem *)
Record ExtractedItem : Type := { i_name : string; i_aliases : list string }.

Section Merge.
Context `{Unicode}.
(* src/qcue-rs/wiki/src/extract/batch_merger.rs 8-12 keys *)
Definition keys (item : ExtractedItem) : list string :=
  to_lowercase (i_name item) :: (to_lowercase <$> i_aliases item).
Definition shares_key (cand existing : ExtractedItem) : bool :=
  existsb (fun k => existsb (String.eqb k) (keys existing)) (keys cand).

(** The aliases the existing item does not have yet, one by one. *)
Definition add_alias (existing : ExtractedItem) (a : string) : ExtractedItem :=
  let al := to_lowercase a in
  if negb (String.eqb (to_lowercase (i_name existing)) al)
     && negb (existsb (fun x => String.eqb (to_lowercase x) al) (i_aliases existing))
  then {| i_name := i_name existing; i_aliases := i_aliases existing ++ [a] |}
  else existing.

Fixpoint fold_into (cand : ExtractedItem) (acc : list ExtractedItem) : list ExtractedItem :=
  match acc with
  | [] => [cand]
  | x :: acc =>
      if shares_key cand x then foldl add_alias x (i_aliases cand) :: acc
      else x :: fold_into cand acc
  end.

(* src/qcue-rs/wiki/src/extract/batch_merger.rs 15-37 merge_batch_results *)
Definition merge_batch_results (acc next : list ExtractedItem) : list ExtractedItem :=
  foldl (fun acc cand => fold_into cand acc) acc next.
End Merge.

(* src/qcue-rs/wiki/src/extract/convergence.rs 3-7 Convergence *)
Inductive Convergence : Type := Continue | Halve | Stop.

(* src/qcue-rs/wiki/src/extract/convergence.rs 10-17 RoundState *)
Record RoundState : Type := {
  batch_size : nat;
  new_this_round : nat;
  already_halved : bool;
  cumulative_items : nat;
  cap : nat;
  empty_or_all_dup : bool;
}.

(* src/qcue-rs/wiki/src/extract/convergence.rs 19-32 detect_convergence *)
Definition detect_convergence (s : RoundState) : Convergence :=
  if empty_or_all_dup s then Stop
  else if Nat.leb (cap s) (cumulative_items s) then Stop
  else
    match Nat.ltb (new_this_round s * 2) (batch_size s), already_halved s with
    | true, true => Stop
    | true, false => Halve
    | false, _ => Continue
    end.

(* src/qcue-rs/wiki/src/extract/normalize.rs 6-10 Validity *)
Inductive Validity : Type := Valid | Empty | Unusable.

(* src/qcue-rs/wiki/src/extract/normalize.rs 13-17 NormalizedBatch *)
Record NormalizedBatch : Type := {
  n_entities : list ExtractedItem;
  n_concepts : list ExtractedItem;
  validity : Validity;
}.

(* src/qcue-rs/wiki/src/extract/normalize.rs 20-41 coerce_items *)
Definition coerce_item (v : Value) : option ExtractedItem :=
  let name := Str.trim (unwrap_or (get_str "name" v) "") in
  if String.eqb name "" then None
  else Some {| i_name := name;
               i_aliases := strings_at "aliases" v |}.
Definition coerce_items (v : option Value) : option (list ExtractedItem) :=
  match v with
  | None | Some Null => Some []
  | Some (Array arr) => Some (omap coerce_item arr)
  | Some _ => None
  end.

(* src/qcue-rs/wiki/src/extract/normalize.rs 43-55 normalize_batch_response *)
Definition normalize_batch_response (v : Value) : NormalizedBatch :=
  match coerce_items (get "entities" v), coerce_items (get "concepts" v) with
  | Some e, Some c =>
      {| n_entities := e; n_concepts := c;
         validity := match e, c with [], [] => Empty | _, _ => Valid end |}
  | _, _ => {| n_entities := []; n_concepts := []; validity := Unusable |}
  end.
End Batch.
Import Batch.

(** ** The analyzer *)
Module Analyzer.
(* src/qcue-rs/wiki/src/types.rs 9-13 ItemInfo *)
Record ItemInfo : Type := { name : string; item_aliases : list string; subtype : option string }.

(* src/qcue-rs/wiki/src/types.rs 17-22 ContradictionInfo *)
Record ContradictionInfo : Type := {
  claim : string;
  source_page : option string;
  contradicted_by : option string;
  resolution : option string;
}.

(* src/qcue-rs/wiki/src/types.rs 26-34 SourceAnalysis *)
Record SourceAnalysis : Type := {
  source_title : string;
  sa_summary : string;
  entities : list ItemInfo;
  concepts : list ItemInfo;
  contradictions : list ContradictionInfo;
  related_pages : list string;
  key_points : list string;
}.
Definition empty_analysis : SourceAnalysis :=
  {| source_title := ""; sa_summary := ""; entities := []; concepts := []; contradictions := [];
     related_pages := []; key_points := [] |}.

(* src/qcue-rs/wiki/src/llm.rs 15-23 WikiLlmError *)
Inductive WikiLlmError : Type := Provider (msg : string) | CostCeiling | Cancelled.

(** [WikiResp], the fields the analyzer reads. *)
(* src/qcue-rs/wiki/src/llm.rs 47-51 WikiResp *)
Record WikiResp : Type := { resp_content : string; truncated : bool }.

(* src/qcue-rs/wiki/src/extract/analyzer.rs 21-24 AnalyzeMode *)
Inductive AnalyzeMode : Type := Conversation | LongSource.

Section Analyze.
Context `{Json} `{Unicode} {L : Type}.
(** [WikiLlm::create_message], and the conversions serde derives for the analysis types. *)
Context (create_message : Uuid -> Factory.WikiReq -> L -> result WikiLlmError WikiResp * L).
Context (sa_from_value : Value -> option SourceAnalysis) (item_from_value : Value -> option ItemInfo).
Context (contradictions_from_value : Value -> option (list ContradictionInfo)).
Context (sa_to_value : SourceAnalysis -> Value).

(* src/qcue-rs/wiki/src/extract/analyzer.rs 36-44 system *)
Definition system (language : string) : string :=
  "You extract a source's title, a one-paragraph summary, and its entities and concepts. Output language: "
  +:+ language +:+ ". Names are NOT translated." +:+ Str.lf +:+ Factory.UNIVERSAL_LINK_CONSTRAINTS.

(* src/qcue-rs/wiki/src/extract/analyzer.rs 46-57 user *)
Definition user (content : string) (exclude : list string) : list Message :=
  let excl :=
    match exclude with
    | [] => ""
    | _ => Str.lf +:+ "Already extracted (do not repeat): " +:+ Str.join ", " exclude
    end in
  [Factory.user_msg (content +:+ excl +:+ Str.lf +:+
    "Return ONLY JSON with keys: source_title (a short, specific title for this source — never empty), summary (one paragraph), entities, concepts, contradictions, related_pages, key_points.")].

Definition request (language content : string) (exclude : list string) (max_tokens : Z) :
  Factory.WikiReq :=
  {| Factory.stable_prefix := system language; Factory.messages := user content exclude;
     Factory.response_format := None; Factory.max_tokens := max_tokens;
     Factory.cache_breakpoint := Some 1%Z; Factory.disable_thinking := true |}.

(* src/qcue-rs/wiki/src/extract/analyzer.rs 189-219 coerce_source_analysis *)
Definition coerce_source_analysis (v : Value) : SourceAnalysis :=
  match sa_from_value v with
  | Some sa => sa
  | None =>
      let s k := unwrap_or (get_str k v) "" in
      let items k := omap item_from_value (array_at k v) in
      {| source_title := s "source_title"; sa_summary := s "summary";
         entities := items "entities"; concepts := items "concepts";
         contradictions := unwrap_or (get "contradictions" v ≫= contradictions_from_value) [];
         related_pages := strings_at "related_pages" v; key_points := strings_at "key_points" v |}
  end.

Definition parse_reply (content : string) : result WikiLlmError SourceAnalysis :=
  let prefilled := Hardening.PREFILL_OPEN_BRACE +:+ Str.trim_start_matches ["{"] content in
  let parsed :=
    match Hardening.parse_json_response prefilled with
    | Ok v => Ok v
    | Err _ => Hardening.parse_json_response content
    end in
  result_map coerce_source_analysis (map_err Provider parsed).

(** One call, and once more with twice the tokens after a truncated reply. *)
(* src/qcue-rs/wiki/src/extract/analyzer.rs 75-112 one_call *)
Definition one_call (language : string) (tenant : Uuid) (content : string) (exclude : list string)
  (max_tokens : Z) (l : L) : result WikiLlmError SourceAnalysis * L :=
  match create_message tenant (request language content exclude max_tokens) l with
  | (Err e, l) => (Err e, l)
  | (Ok resp, l) =>
      if truncated resp then
        match Hardening.next_max_tokens_on_truncation max_tokens with
        | Some doubled =>
            match create_message tenant (request language content exclude doubled) l with
            | (Err e, l) => (Err e, l)
            | (Ok resp, l) => (parse_reply (resp_content resp), l)
            end
        | None => (parse_reply (resp_content resp), l)
        end
      else (parse_reply (resp_content resp), l)
  end.

Definition item_info (i : ExtractedItem) : ItemInfo :=
  {| name := i_name i; item_aliases := i_aliases i; subtype := None |}.

Definition with_items (sa : SourceAnalysis) (e c : list ExtractedItem) : SourceAnalysis :=
  {| source_title := source_title sa; sa_summary := sa_summary sa;
     entities := item_info <$> e; concepts := item_info <$> c;
     contradictions := contradictions sa; related_pages := related_pages sa;
     key_points := key_points sa |}.

(** [None]: out of fuel. *)
(* src/qcue-rs/wiki/src/extract/analyzer.rs 125-166 batch_loop *)
Fixpoint batch_rounds (fuel : nat) (language : string) (tenant : Uuid) (content : string)
  (limits : BatchLimits) (acc_e acc_c : list ExtractedItem) (calls : nat) (halved : bool)
  (first : option SourceAnalysis) (l : L) :
  option (result WikiLlmError (SourceAnalysis * nat) * L) :=
  match fuel with
  | 0 => None
  | S fuel =>
      match one_call language tenant content (i_name <$> (acc_e ++ acc_c)) (max_tokens limits) l with
      | (Err e, l) => Some (Err e, l)
      | (Ok sa, l) =>
          let calls := S calls in
          let first := Some (unwrap_or first sa) in
          let norm := normalize_batch_response (sa_to_value sa) in
          let before := (length acc_e + length acc_c)%nat in
          let acc_e := merge_batch_results acc_e (n_entities norm) in
          let acc_c := merge_batch_results acc_c (n_concepts norm) in
          let total := (length acc_e + length acc_c)%nat in
          let state :=
            {| batch_size := items_per_batch limits; new_this_round := total - before;
               already_halved := halved; cumulative_items := total; cap := max_total_items limits;
               empty_or_all_dup := match validity norm with Valid => false | _ => true end |} in
          match detect_convergence state with
          | Continue =>
              batch_rounds fuel language tenant content limits acc_e acc_c calls halved first l
          | Halve =>
              let limits :=
                {| items_per_batch := Nat.max (items_per_batch limits / 2) 1;
                   max_total_items := max_total_items limits; max_tokens := max_tokens limits |} in
              batch_rounds fuel language tenant content limits acc_e acc_c calls true first l
          | Stop => Some (Ok (with_items (unwrap_or first empty_analysis) acc_e acc_c, calls), l)
          end
      end
  end.

(* src/qcue-rs/wiki/src/extract/analyzer.rs 114-124 batch_loop *)
Definition batch_loop (fuel : nat) (language : string) (tenant : Uuid) (content : string) (l : L) :
  option (result WikiLlmError (SourceAnalysis * nat) * L) :=
  batch_rounds fuel language tenant content
    (calculate_batch_limits (String.length content) Standard) [] [] 0 false None l.

(* src/qcue-rs/wiki/src/extract/analyzer.rs 60-73 analyze *)
Definition analyze (fuel : nat) (language : string) (tenant : Uuid) (content : string)
  (mode : AnalyzeMode) (l : L) : option (result WikiLlmError (SourceAnalysis * nat) * L) :=
  match mode with
  | Conversation =>
      let '(r, l) := one_call language tenant content [] 1024 l in
      Some (result_map (fun sa => (sa, 1%nat)) r, l)
  | LongSource => batch_loop fuel language tenant content l
  end.
End Analyze.
End Analyzer.
Import Analyzer.

(** ** Lemmas: merging *)
Section MergeLemmas.
Context `{Unicode}.

Lemma fold_into_length (cand : ExtractedItem) (acc : list ExtractedItem) :
  (length acc <= length (fold_into cand acc) <= S (length acc))%nat.
Proof. induction acc as [|x acc IH]; simpl; [lia|]. destruct (shares_key cand x); simpl; lia. Qed.

Lemma merge_length (acc next : list ExtractedItem) :
  (length acc <= length (merge_batch_results acc next) <= length acc + length next)%nat.
Proof.
  unfold merge_batch_results. revert acc. induction next as [|c next IH]; intros acc; simpl; [lia|].
  pose proof (fold_into_length c acc). specialize (IH (fold_into c acc)). lia.
Qed.

Lemma keys_elem (k : string) (x : ExtractedItem) :
  k ∈ keys x <-> k = to_lowercase (i_name x) \/ exists a, a ∈ i_aliases x /\ k = to_lowercase a.
Proof.
  unfold keys. rewrite elem_of_cons, list_elem_of_fmap.
  split; (intros [Hk|(a & H1 & H2)]; [by left|right; by exists a]).
Qed.

(** Adding an alias keeps the keys and adds the alias's. *)
Lemma add_alias_keys (x : ExtractedItem) (a k : string) :
  k ∈ keys x \/ k = to_lowercase a -> k ∈ keys (add_alias x a).
Proof.
  unfold add_alias. destruct (_ && _) eqn:Hb.
  - rewrite !keys_elem. simpl. intros [[->|(b & Hb' & ->)]| ->]; [by left|right; exists b|right; exists a];
      (split; [apply elem_of_app|done]); [by left|right; by left].
  - intros [Hk| ->]; [done|]. apply andb_false_iff in Hb as [Hn|Hn];
      apply negb_false_iff in Hn; apply keys_elem.
    + left. symmetry. by apply String.eqb_eq.
    + right. apply existsb_exists in Hn as (y & Hy & He). exists y.
      split; [by apply list_elem_of_In|]. symmetry. by apply String.eqb_eq.
Qed.

Lemma add_aliases_keys (l : list string) (x : ExtractedItem) (k : string) :
  k ∈ keys x \/ (exists a, a ∈ l /\ k = to_lowercase a) -> k ∈ keys (foldl add_alias x l).
Proof.
  revert x. induction l as [|a l IH]; intros x; simpl.
  - intros [Hk|(a & Ha & _)]; [done|inv Ha].
  - intros Hor. apply IH. destruct Hor as [Hk|(b & Hb & ->)].
    + left. apply add_alias_keys. by left.
    + apply elem_of_cons in Hb as [->|Hb]; [left; apply add_alias_keys; by right|right; by exists b].
Qed.

Lemma add_aliases_name (l : list string) (x : ExtractedItem) :
  i_name (foldl add_alias x l) = i_name x.
Proof.
  revert x. induction l as [|a l IH]; intros x; simpl; [done|]. rewrite IH. unfold add_alias.
  by destruct (_ && _).
Qed.

(** A known key: one that some item of the list answers to. *)
Definition known (k : string) (l : list ExtractedItem) : Prop := exists x, x ∈ l /\ k ∈ keys x.

Lemma known_cons (k : string) (x : ExtractedItem) (l : list ExtractedItem) :
  known k (x :: l) <-> k ∈ keys x \/ known k l.
Proof.
  unfold known. split.
  - intros (y & Hy & Hk). apply elem_of_cons in Hy as [->|Hy]; [by left|right; by exists y].
  - intros [Hk|(y & Hy & Hk)]; [exists x|exists y]; (split; [|done]); [left|by right].
Qed.

Lemma fold_into_known (cand : ExtractedItem) (acc : list ExtractedItem) (k : string) :
  known k acc -> known k (fold_into cand acc).
Proof.
  induction acc as [|x acc IH]; simpl; [intros (y & Hy & _); inv Hy|].
  rewrite known_cons. destruct (shares_key cand x); rewrite known_cons; intros [Hk|Hk]; eauto.
  left. apply add_aliases_keys. by left.
Qed.

(** An alias of the candidate is always known afterwards; its name too, unless the item it was folded
    into answers to one of its aliases only. *)
Lemma fold_into_alias (cand : ExtractedItem) (acc : list ExtractedItem) (a : string) :
  a ∈ i_aliases cand -> known (to_lowercase a) (fold_into cand acc).
Proof.
  intros Ha. induction acc as [|x acc IH]; simpl.
  - apply known_cons. left. apply keys_elem. right. by exists a.
  - destruct (shares_key cand x); apply known_cons; [|by right].
    left. apply add_aliases_keys. right. by exists a.
Qed.

Lemma merge_known (acc next : list ExtractedItem) (k : string) :
  known k acc -> known k (merge_batch_results acc next).
Proof.
  unfold merge_batch_results. revert acc. induction next as [|c next IH]; intros acc Hk; simpl; [done|].
  apply IH. by apply fold_into_known.
Qed.

Lemma merge_names (acc next : list ExtractedItem) :
  exists more, i_name <$> merge_batch_results acc next = (i_name <$> acc) ++ more.
Proof.
  assert (forall c l, exists more, i_name <$> fold_into c l = (i_name <$> l) ++ more) as Hf.
  { intros c. induction l as [|x l [more IH]]; [by eexists|]. cbn [fold_into].
    destruct (shares_key c x); rewrite !fmap_cons.
    - exists []. by rewrite add_aliases_name, app_nil_r.
    - exists more. by rewrite IH. }
  unfold merge_batch_results. revert acc. induction next as [|c next IH]; intros acc; cbn [foldl].
  - exists []. by rewrite app_nil_r.
  - destruct (IH (fold_into c acc)) as [m1 ->]. destruct (Hf c acc) as [m2 ->].
    exists (m2 ++ m1). by rewrite app_assoc.
Qed.

(** Merging a batch loses nothing that was known: the items found before keep their names, in
    order, and every name and alias they answered to; every alias of the batch is answered to as well,
    and the list grows by at most the batch. *)
Theorem merge_loses_nothing (acc next : list ExtractedItem) :
  (exists more, i_name <$> merge_batch_results acc next = (i_name <$> acc) ++ more) /\
  (forall k, known k acc -> known k (merge_batch_results acc next)) /\
  (forall c a, c ∈ next -> a ∈ i_aliases c -> known (to_lowercase a) (merge_batch_results acc next)) /\
  (length acc <= length (merge_batch_results acc next) <= length acc + length next)%nat.
Proof.
  split; [apply merge_names|]. split; [intros k; apply merge_known|]. split; [|apply merge_length].
  intros c a Hc Ha. apply list_elem_of_split in Hc as (l1 & l2 & ->). unfold merge_batch_results.
  rewrite foldl_app. simpl. apply merge_known. by apply fold_into_alias.
Qed.
End MergeLemmas.

(** ** The batch loop *)
Section Loop.
Context `{Json} `{Unicode} {L : Type}.
Context (create_message : Uuid -> Factory.WikiReq -> L -> result WikiLlmError WikiResp * L).
Context (sa_from_value : Value -> option SourceAnalysis) (item_from_value : Value -> option ItemInfo).
Context (contradictions_from_value : Value -> option (list ContradictionInfo)).
Context (sa_to_value : SourceAnalysis -> Value).
Let rounds := batch_rounds create_message sa_from_value item_from_value contradictions_from_value
  sa_to_value.

(** Rounds left: one per item below the cap, one to halve, one to stop. *)
Definition rounds_left (cap total : nat) (halved : bool) : nat :=
  (cap - total + (if halved then 0 else 1) + 1)%nat.

(** A round that goes on has found something new below the cap, or halves the batch once. *)
Lemma convergence_progress (s : RoundState) :
  (1 <= batch_size s)%nat ->
  match detect_convergence s with
  | Continue => (1 <= new_this_round s)%nat /\ (cumulative_items s < cap s)%nat
  | Halve => already_halved s = false
  | Stop => True
  end.
Proof.
  intros Hb. unfold detect_convergence. destruct (empty_or_all_dup s); [done|].
  destruct (Nat.leb_spec (cap s) (cumulative_items s)); [done|].
  destruct (Nat.ltb_spec (new_this_round s * 2) (batch_size s)), (already_halved s); try done; lia.
Qed.

Lemma batch_rounds_bound (fuel : nat) (language : string) (tenant : Uuid) (content : string)
  (limits : BatchLimits) (acc_e acc_c : list ExtractedItem) (calls : nat) (halved : bool)
  (first : option SourceAnalysis) (l : L) :
  (1 <= items_per_batch limits)%nat ->
  (rounds_left (max_total_items limits) (length acc_e + length acc_c) halved <= fuel)%nat ->
  exists r l', rounds fuel language tenant content limits acc_e acc_c calls halved first l = Some (r, l') /\
    match r with
    | Ok (_, n) => (n <= calls + rounds_left (max_total_items limits) (length acc_e + length acc_c) halved)%nat
    | Err _ => True
    end.
Proof.
  revert limits acc_e acc_c calls halved first l.
  induction fuel as [|fuel IH]; intros limits acc_e acc_c calls halved first l Hb Hf;
    [unfold rounds_left in Hf; lia|].
  unfold rounds. cbn [batch_rounds]. fold rounds.
  destruct (one_call _ _ _ _ _ _ _ _ _ l) as [[sa|e] l1]; [|by exists (Err e), l1].
  set (norm := normalize_batch_response (sa_to_value sa)).
  pose proof (merge_length acc_e (n_entities norm)) as He.
  pose proof (merge_length acc_c (n_concepts norm)) as Hc.
  set (e' := merge_batch_results acc_e (n_entities norm)) in *.
  set (c' := merge_batch_results acc_c (n_concepts norm)) in *.
  cbv zeta.
  match goal with |- context [detect_convergence ?s] =>
    pose proof (convergence_progress s Hb) as Hp; destruct (detect_convergence s) end;
    cbn [new_this_round cumulative_items cap already_halved] in Hp.
  - destruct (IH limits e' c' (S calls) halved (Some (unwrap_or first sa)) l1)
      as (r & l' & Hr & Hn); [done|unfold rounds_left in *; lia|].
    exists r, l'. split; [exact Hr|]. destruct r as [[sa' n]|]; [|done]. unfold rounds_left in *. lia.
  - subst halved. destruct (IH {| items_per_batch := Nat.max (items_per_batch limits / 2) 1;
        max_total_items := max_total_items limits; max_tokens := max_tokens limits |}
        e' c' (S calls) true (Some (unwrap_or first sa)) l1) as (r & l' & Hr & Hn);
      [cbn; lia|unfold rounds_left in *; cbn [max_total_items]; lia|].
    exists r, l'. split; [exact Hr|]. destruct r as [[sa' n]|]; [|done].
    unfold rounds_left in *. cbn [max_total_items] in Hn. lia.
  - eexists _, _. split; [reflexivity|]. cbn. unfold rounds_left. lia.
Qed.

Lemma standard_limits (n : nat) :
  (1 <= items_per_batch (calculate_batch_limits n Standard))%nat /\
  (1 <= max_total_items (calculate_batch_limits n Standard) <= 50)%nat.
Proof. unfold calculate_batch_limits. cbn -[Nat.div Nat.min Nat.max]. lia. Qed.

(** The extraction loop ends whatever the model answers: fifty-two rounds are enough for any
    source, and a source of n bytes takes at most n/600 rounds and three. *)
Theorem batch_loop_terminates (language : string) (tenant : Uuid) (content : string) (l : L) :
  exists r l',
    batch_loop create_message sa_from_value item_from_value contradictions_from_value sa_to_value 52
      language tenant content l = Some (r, l') /\
    match r with
    | Ok (_, calls) => (calls <= 52)%nat /\ (calls <= String.length content / 600 + 3)%nat
    | Err _ => True
    end.
Proof.
  destruct (standard_limits (String.length content)) as [Hi Ht].
  destruct (batch_rounds_bound 52 language tenant content
    (calculate_batch_limits (String.length content) Standard) [] [] 0 false None l Hi)
    as (r & l' & Hr & Hn); [unfold rounds_left; cbn [length]; lia|].
  exists r, l'. split; [exact Hr|]. destruct r as [[sa n]|]; [|done].
  unfold rounds_left in Hn. cbn [length] in Hn. split; [lia|].
  etrans; [exact Hn|]. unfold calculate_batch_limits, CHARS_PER_ITEM.
  cbn -[Nat.div Nat.min Nat.max]. lia.
Qed.
End Loop.

(** ** Examples: braces in strings *)
Definition q (s : string) : string := Str.quote +:+ s +:+ Str.quote.
Definition brace_in_string : string := "Sure: {" +:+ q "a" +:+ ":" +:+ q "}" +:+ "} done".

Example wiki_isolates_object : Hardening.isolate brace_in_string = "{" +:+ q "a" +:+ ":" +:+ q "}" +:+ "}".
Proof. vm_compute. reflexivity. Qed.

Example router_cuts_at_brace_in_string :
  Structured.isolate brace_in_string = "{" +:+ q "a" +:+ ":" +:+ Str.quote +:+ "}".
Proof. vm_compute. reflexivity. Qed.

(** A candidate that answers to two known items leaves both, with a key in common. *)
Example merge_bridges :
  let item n a := {| i_name := n; i_aliases := a |} in
  @merge_batch_results ascii_only [item "Rust" []; item "Rustlang" []] [item "Rust" ["Rustlang"]]
  = [item "Rust" ["Rustlang"]; item "Rustlang" []].
Proof. vm_compute. reflexivity. Qed.
