(* ===== verification/Cost.v ===== *)
(** * Prices, the cost ledger and the ceilings

    [app-server/src/dispatch/price.rs] turns the tokens of a call into micro-dollars, in binary64
    arithmetic; [store/src/cost_repo.rs] accrues them into the day rows of [cost_ledger] and compares
    the rows with the caps of [tenants] and [users]; [wiki/src/cost.rs] adds a once-per-request guard.
    A statement runs in a transaction bound to one tenant and sees, under row-level security, that
    tenant's ledger rows and users. A [bigint] that leaves its range is an error of the statement and
    rolls its transaction back: the operations answer the error and no new state. [Meter] is the system
    of calls in flight between their check and their accrual, and [Race] the two statements of an
    accrual interleaved. *)
From S2P Require Import Prelude RustStr Protocol.
From Stdlib Require Import SpecFloat.
From stdpp Require Import list relations pretty.

#[local] Open Scope string_scope.
#[local] Open Scope list_scope.
#[local] Open Scope Z_scope.

(** ** Prices *)
Module Price.
(** Binary64, round to nearest even. *)
Abbreviation f64 := spec_float.
Definition mul : f64 -> f64 -> f64 := SFmul 53 1024.
Definition add : f64 -> f64 -> f64 := SFadd 53 1024.
(** [u64 as f64]. *)
Definition of_int (z : Z) : f64 := binary_normalize 53 1024 z 0 false.
(** A decimal literal: the division of two exact integers is correctly rounded. *)
Definition dec (n d : Z) : f64 := SFdiv 53 1024 (of_int n) (of_int d).
(** [f64::round]: half away from zero; then [as i64], which saturates and sends NaN to 0. *)
Definition round_as_i64 (f : f64) : Z :=
  match f with
  | S754_zero _ | S754_nan => 0
  | S754_infinity s => if s then Int.i64_min else Int.i64_max
  | S754_finite s m e =>
      let magnitude := if 0 <=? e then Zpos m * 2 ^ e else (Zpos m * 2 + 2 ^ (- e)) / (2 * 2 ^ (- e)) in
      Int.sat_i64 (if s then - magnitude else magnitude)
  end.

(* src/qcue-rs/app-server/src/dispatch/price.rs 9-27 rates *)
Definition rates (model : string) : f64 * f64 :=
  let m p := Str.starts_with p model in
  if m "deepseek-reasoner" then (dec 55 100, dec 219 100)
  else if m "deepseek" then (dec 28 100, dec 110 100)
  else if m "gpt-5" then (dec 125 100, dec 10 1)
  else if m "gpt-4o-mini" then (dec 15 100, dec 60 100)
  else if m "gpt-4o" then (dec 250 100, dec 10 1)
  else if m "o4" || m "o3" || m "o1" then (dec 110 100, dec 440 100)
  else if m "claude-opus" then (dec 5 1, dec 25 1)
  else if m "claude-fable" || m "claude-mythos" then (dec 10 1, dec 50 1)
  else if m "claude-sonnet" then (dec 3 1, dec 15 1)
  else if m "claude-haiku" then (dec 1 1, dec 5 1)
  else if m "gemini-3-flash" then (dec 30 100, dec 250 100)
  else if m "gemini" then (dec 125 100, dec 10 1)
  else (dec 1 1, dec 3 1).

(** Rust evaluates the sum and each product from the left. *)
(* src/qcue-rs/app-server/src/dispatch/price.rs 31-39 cost_micros *)
Definition cost_micros (model : string) (u : CanonicalUsage) : Z :=
  let '(in_rate, out_rate) := rates model in
  let micros :=
    add (add (add (add
      (mul (of_int (u_input u)) in_rate)
      (mul (of_int (u_output u)) out_rate))
      (mul (mul (of_int (u_cache_read u)) in_rate) (dec 1 10)))
      (mul (mul (of_int (u_cache_write u)) in_rate) (dec 125 100)))
      (mul (of_int (u_reasoning u)) out_rate) in
  round_as_i64 micros.
End Price.

(** ** The ledger *)
Module Ledger.
(* src/qcue-rs/store/src/cost_repo.rs 14-20 CostUsage *)
Record CostUsage : Type := {
  cu_input : Z;
  cu_output : Z;
  cu_cache_read : Z;
  cu_cache_write : Z;
  cu_reasoning : Z;
}.

(** The columns the repository reads or writes. *)
Record Tenant : Type := { tn_id : Uuid; daily_cost_cap_micros : Z }.
Record User : Type := { us_id : Uuid; us_tenant : Uuid; per_user_daily_cost_cap_micros : Z }.
(* src/qcue-rs/migrations/20001_M2_0001_cost_ledger.sql 9-25 cost_ledger *)
Record LedgerRow : Type := {
  tenant_id : Uuid;
  scope : string;
  user_id : option Uuid;
  day : Z;
  tokens : CostUsage;
  spent : Z;
  provider_breakdown : list (string * Z);
}.
Record CostDb : Type := { tenants : list Tenant; users : list User; ledger : list LedgerRow }.

(** The defaults of the two cap columns. *)
Definition DEFAULT_CAP : Z := 5000000.

(** [bigint] addition raises out of its range. *)
Definition bigint_add (a b : Z) : result string Z :=
  if (Int.i64_min <=? a + b) && (a + b <=? Int.i64_max) then Ok (a + b) else Err "bigint out of range".
Definition add_tokens (a b : CostUsage) : result string CostUsage :=
  let? i := bigint_add (cu_input a) (cu_input b) in
  let? o := bigint_add (cu_output a) (cu_output b) in
  let? r := bigint_add (cu_cache_read a) (cu_cache_read b) in
  let? w := bigint_add (cu_cache_write a) (cu_cache_write b) in
  let? t := bigint_add (cu_reasoning a) (cu_reasoning b) in
  Ok {| cu_input := i; cu_output := o; cu_cache_read := r; cu_cache_write := w; cu_reasoning := t |}.

(** [SET input_tokens = input_tokens + $2, ...]; the breakdown is not among the columns set. *)
Definition add_spend (u : CostUsage) (cost : Z) (r : LedgerRow) : result string LedgerRow :=
  let? t := add_tokens (tokens r) u in
  let? c := bigint_add (spent r) cost in
  Ok {| tenant_id := tenant_id r; scope := scope r; user_id := user_id r; day := day r; tokens := t;
        spent := c; provider_breakdown := provider_breakdown r |}.

(** [UPDATE ... WHERE p]: the new table, and [rows_affected]. *)
Fixpoint update (p : LedgerRow -> bool) (f : LedgerRow -> result string LedgerRow) (l : list LedgerRow) :
  result string (list LedgerRow * nat) :=
  match l with
  | [] => Ok ([], 0%nat)
  | r :: l =>
      let? (l, n) := update p f l in
      if p r then let? r := f r in Ok (r :: l, S n) else Ok (r :: l, n)
  end.

Definition is_tenant_row (tenant : Uuid) (today : Z) (r : LedgerRow) : bool :=
  N.eqb (tenant_id r) tenant && String.eqb (scope r) "tenant" && bool_decide (user_id r = None)
  && (day r =? today).
Definition is_user_row (tenant user : Uuid) (today : Z) (r : LedgerRow) : bool :=
  N.eqb (tenant_id r) tenant && String.eqb (scope r) "user" && bool_decide (user_id r = Some user)
  && (day r =? today).
Definition ledger_row (tenant : Uuid) (sc : string) (user : option Uuid) (today : Z) (u : CostUsage)
  (cost : Z) (provider : string) : LedgerRow :=
  {| tenant_id := tenant; scope := sc; user_id := user; day := today; tokens := u; spent := cost;
     provider_breakdown := [(provider, cost)] |}.
Definition with_ledger (l : list LedgerRow) (db : CostDb) : CostDb :=
  {| tenants := tenants db; users := users db; ledger := l |}.

(* src/qcue-rs/store/src/cost_repo.rs 67-81 ensure_tenant *)
Definition ensure_tenant (tenant : Uuid) (db : CostDb) : CostDb :=
  if existsb (fun t => N.eqb (tn_id t) tenant) (tenants db) then db
  else {| tenants := tenants db ++ [{| tn_id := tenant; daily_cost_cap_micros := DEFAULT_CAP |}];
          users := users db; ledger := ledger db |}.

(** [ON CONFLICT (id)] looks at the users of every tenant. *)
(* src/qcue-rs/store/src/cost_repo.rs 39-63 ensure_parents *)
Definition ensure_parents (tenant user : Uuid) (db : CostDb) : CostDb :=
  let db := ensure_tenant tenant db in
  if existsb (fun u => N.eqb (us_id u) user) (users db) then db
  else {| tenants := tenants db;
          users := users db ++ [{| us_id := user; us_tenant := tenant;
                                   per_user_daily_cost_cap_micros := DEFAULT_CAP |}];
          ledger := ledger db |}.

(** The tenant row: [UPDATE] first, [INSERT] when no row was updated. *)
Definition update_tenant_row (tenant : Uuid) (today : Z) (u : CostUsage) (cost : Z) (l : list LedgerRow) :
  result string (list LedgerRow * nat) :=
  update (is_tenant_row tenant today) (add_spend u cost) l.
Definition insert_tenant_row (tenant : Uuid) (today : Z) (u : CostUsage) (cost : Z) (provider : string)
  (updated : nat) (l : list LedgerRow) : list LedgerRow :=
  if Nat.eqb updated 0 then l ++ [ledger_row tenant "tenant" None today u cost provider] else l.

(* src/qcue-rs/store/src/cost_repo.rs 86-136 accrue_tenant *)
Definition accrue_tenant (today : Z) (tenant : Uuid) (u : CostUsage) (cost : Z) (provider : string)
  (db : CostDb) : result string CostDb :=
  let db := ensure_tenant tenant db in
  let? (l, updated) := update_tenant_row tenant today u cost (ledger db) in
  Ok (with_ledger (insert_tenant_row tenant today u cost provider updated l) db).

(** The user row: [INSERT ... ON CONFLICT (tenant_id, scope, user_id, day) DO UPDATE]. *)
Definition upsert_user_row (tenant user : Uuid) (today : Z) (u : CostUsage) (cost : Z) (provider : string)
  (l : list LedgerRow) : result string (list LedgerRow) :=
  let? (l, updated) := update (is_user_row tenant user today) (add_spend u cost) l in
  Ok (if Nat.eqb updated 0 then l ++ [ledger_row tenant "user" (Some user) today u cost provider] else l).

(* src/qcue-rs/store/src/cost_repo.rs 204-285 accrue *)
Definition accrue (today : Z) (tenant user : Uuid) (u : CostUsage) (cost : Z) (provider : string)
  (db : CostDb) : result string CostDb :=
  let db := ensure_parents tenant user db in
  let? (l, updated) := update_tenant_row tenant today u cost (ledger db) in
  let? l := upsert_user_row tenant user today u cost provider
              (insert_tenant_row tenant today u cost provider updated l) in
  Ok (with_ledger l db).

(** A user row of another tenant conflicts but may not be updated under its policy. *)
(* src/qcue-rs/store/src/cost_repo.rs 139-172 seed_caps *)
Definition seed_caps (tenant user : Uuid) (tenant_cap user_cap : Z) (db : CostDb) : result string CostDb :=
  let ts :=
    if existsb (fun t => N.eqb (tn_id t) tenant) (tenants db)
    then (fun t => if N.eqb (tn_id t) tenant then {| tn_id := tn_id t; daily_cost_cap_micros := tenant_cap |}
                   else t) <$> tenants db
    else tenants db ++ [{| tn_id := tenant; daily_cost_cap_micros := tenant_cap |}] in
  match find_first (fun u => N.eqb (us_id u) user) (users db) with
  | Some u =>
      if N.eqb (us_tenant u) tenant
      then Ok {| tenants := ts;
                 users := (fun u => if N.eqb (us_id u) user
                                    then {| us_id := us_id u; us_tenant := us_tenant u;
                                            per_user_daily_cost_cap_micros := user_cap |}
                                    else u) <$> users db;
                 ledger := ledger db |}
      else Err "new row violates row-level security policy"
  | None =>
      Ok {| tenants := ts;
            users := users db ++ [{| us_id := user; us_tenant := tenant;
                                     per_user_daily_cost_cap_micros := user_cap |}];
            ledger := ledger db |}
  end.

(** [fetch_optional]: a row, if any. *)
(* src/qcue-rs/store/src/cost_repo.rs 176-196 read_today *)
Definition read_today (today : Z) (tenant user : Uuid) (db : CostDb) : Z * Z :=
  (unwrap_or (spent <$> find_first (is_tenant_row tenant today) (ledger db)) 0,
   unwrap_or (spent <$> find_first (is_user_row tenant user today) (ledger db)) 0).

(** [coalesce(sum(cost_micros),0)::bigint]: the sum is a [numeric], the cast may fail. *)
Definition sum_spent (p : LedgerRow -> bool) (l : list LedgerRow) : Z :=
  foldr (fun r n => if p r then spent r + n else n) 0 l.
Definition as_bigint (z : Z) : result string Z := bigint_add z 0.

Definition tenant_cap (tenant : Uuid) (db : CostDb) : option Z :=
  daily_cost_cap_micros <$> find_first (fun t => N.eqb (tn_id t) tenant) (tenants db).
Definition user_cap (tenant user : Uuid) (db : CostDb) : option Z :=
  per_user_daily_cost_cap_micros <$>
    find_first (fun u => N.eqb (us_tenant u) tenant && N.eqb (us_id u) user) (users db).
Definition over (who : string) (cap : option Z) (spent : Z) : option string :=
  match cap with
  | Some cap =>
      if cap <=? spent
      then Some (who +:+ " daily cost ceiling reached: " +:+ pretty spent +:+ " >= " +:+ pretty cap
                 +:+ " micros")
      else None
  | None => None
  end.

(* src/qcue-rs/store/src/cost_repo.rs 291-340 check_ceiling *)
Definition check_ceiling (today : Z) (tenant user : Uuid) (db : CostDb) : result string (result string unit) :=
  let? t_spent := as_bigint (sum_spent (is_tenant_row tenant today) (ledger db)) in
  let? u_spent := as_bigint (sum_spent (is_user_row tenant user today) (ledger db)) in
  Ok (match over "tenant" (tenant_cap tenant db) t_spent with
      | Some reason => Err reason
      | None =>
          match over "user" (user_cap tenant user db) u_spent with
          | Some reason => Err reason
          | None => Ok tt
          end
      end).
End Ledger.
Import Ledger.

(** ** The guard *)
Module Guard.
(** An [anyhow::Error] is its kind: the ceiling or the database. *)
(* src/qcue-rs/wiki/src/cost.rs 12-14 CeilingReached *)
Inductive CostError : Type := CeilingReached (reason : string) | DbError (msg : string).

(** The guard's own state: the request ids seen. *)
(* src/qcue-rs/wiki/src/cost.rs 16-19 CostGuard *)
Record CostGuard : Type := { seen_requests : gset string }.

(* src/qcue-rs/wiki/src/cost.rs 22-24 new *)
Definition guard_new : CostGuard := {| seen_requests := ∅ |}.

(* src/qcue-rs/wiki/src/cost.rs 34-39 check_before_call *)
Definition check_before_call (today : Z) (tenant user : Uuid) (db : CostDb) : result CostError unit :=
  match check_ceiling today tenant user db with
  | Ok (Ok _) => Ok tt
  | Ok (Err reason) => Err (CeilingReached reason)
  | Err e => Err (DbError e)
  end.

Definition wrap_i64_usage (u : CanonicalUsage) : CostUsage :=
  {| cu_input := Int.wrap_i64 (u_input u); cu_output := Int.wrap_i64 (u_output u);
     cu_cache_read := Int.wrap_i64 (u_cache_read u); cu_cache_write := Int.wrap_i64 (u_cache_write u);
     cu_reasoning := Int.wrap_i64 (u_reasoning u) |}.

(** The id is recorded before the ledger is written. *)
(* src/qcue-rs/wiki/src/cost.rs 43-69 accrue *)
Definition guard_accrue (today : Z) (tenant user : Uuid) (request_id : string) (u : CanonicalUsage)
  (cost_micros : Z) (g : CostGuard) (db : CostDb) : result CostError unit * CostGuard * CostDb :=
  if bool_decide (request_id ∈ seen_requests g) then (Ok tt, g, db)
  else
    let g := {| seen_requests := {[ request_id ]} ∪ seen_requests g |} in
    match Ledger.accrue today tenant user (wrap_i64_usage u) cost_micros "wiki" db with
    | Ok db => (Ok tt, g, db)
    | Err e => (Err (DbError e), g, db)
    end.

#[export] Instance CanonicalUsage_eq_dec : EqDecision CanonicalUsage.
Proof. solve_decision. Defined.

(** The accrual of a turn; a failed write is logged and dropped. *)
(* src/qcue-rs/app-server/src/dispatch/mod.rs 34-55 accrue_turn_cost *)
Definition accrue_turn_cost (today : Z) (tenant : Uuid) (provider model : string) (u : CanonicalUsage)
  (db : CostDb) : CostDb :=
  if bool_decide (u = usage_zero) then db
  else
    match accrue_tenant today tenant (wrap_i64_usage u) (Price.cost_micros model u) provider db with
    | Ok db => db
    | Err _ => db
    end.
End Guard.
Import Guard.

(** ** Calls in flight

    A turn checks the ceiling, calls the provider, and accrues when the answer has come. Between the
    check and the accrual others check and accrue: the state is the database and the number of calls of
    one tenant that have passed their check and not accrued yet. *)
Module Meter.
Section Meter.
Context (today : Z) (tenant : Uuid) (slots : nat) (price_cap : Z).

Inductive step : CostDb * nat -> CostDb * nat -> Prop :=
| Check (user : Uuid) (db : CostDb) (k : nat) :
    check_ceiling today tenant user db = Ok (Ok tt) -> (k < slots)%nat -> step (db, k) (db, S k)
| Accrue (provider model : string) (u : CanonicalUsage) (db : CostDb) (k : nat) :
    Price.cost_micros model u <= price_cap ->
    step (db, S k) (accrue_turn_cost today tenant provider model u db, k)
| Fail (db : CostDb) (k : nat) : step (db, S k) (db, k)
| Other (tenant' : Uuid) (provider model : string) (u : CanonicalUsage) (db : CostDb) (k : nat) :
    tenant' <> tenant -> step (db, k) (accrue_turn_cost today tenant' provider model u db, k).
End Meter.
End Meter.

(** ** Lemmas: prices are never negative *)
Section PriceLemmas.
Import Price.

(** A binary64 that is neither negative nor NaN; [pos_f64]: finite and positive. *)
Definition nonneg_f64 (f : f64) : bool :=
  match f with S754_zero s | S754_infinity s | S754_finite s _ _ => negb s | S754_nan => false end.
Definition pos_f64 (f : f64) : bool :=
  match f with S754_finite s _ _ => negb s | _ => false end.

Definition shr_m_nonneg (r : shr_record) : Prop := 0 <= shr_m r.

Lemma shr_1_nonneg (r : shr_record) : shr_m_nonneg r -> shr_m_nonneg (shr_1 r).
Proof. destruct r as [[|[]|] ? ?]; unfold shr_m_nonneg; simpl; lia. Qed.

Lemma iter_shr_nonneg (p : positive) (r : shr_record) :
  shr_m_nonneg r -> shr_m_nonneg (SpecFloat.iter_pos shr_1 p r).
Proof. revert r. induction p as [p IH|p IH|]; intros r Hr; simpl; auto using shr_1_nonneg. Qed.

Lemma shr_fexp_nonneg (m e : Z) (l : location) :
  0 <= m -> shr_m_nonneg (fst (shr_fexp 53 1024 m e l)).
Proof.
  intros Hm. assert (shr_m_nonneg (shr_record_of_loc m l)) as H0 by (by destruct l as [|[]]).
  unfold shr_fexp, shr. destruct (Z.sub _ e); [done| |done]. by apply iter_shr_nonneg.
Qed.

Lemma round_even_nonneg (m : Z) (l : location) : 0 <= m -> 0 <= round_nearest_even m l.
Proof. intros. unfold round_nearest_even. repeat case_match; lia. Qed.

Lemma round_aux_nonneg (m e : Z) (l : location) :
  0 <= m -> nonneg_f64 (binary_round_aux 53 1024 false m e l) = true.
Proof.
  intros Hm. unfold binary_round_aux. pose proof (shr_fexp_nonneg m e l Hm) as H1.
  destruct (shr_fexp 53 1024 m e l) as [r1 e1]. cbn [fst] in H1. unfold shr_m_nonneg in H1.
  pose proof (shr_fexp_nonneg _ e1 loc_Exact (round_even_nonneg _ (loc_of_shr_record r1) H1)) as H2.
  destruct (shr_fexp 53 1024 (round_nearest_even _ _) e1 loc_Exact) as [r2 e2].
  cbn [fst] in H2. unfold shr_m_nonneg in H2.
  destruct (shr_m r2); [done| |lia]. by destruct (_ <=? _).
Qed.

Lemma normalize_nonneg (m e : Z) : 0 <= m -> nonneg_f64 (binary_normalize 53 1024 m e false) = true.
Proof.
  intros Hm. destruct m; [done| |lia]. unfold binary_normalize, binary_round.
  destruct (shl_align _ _ _). by apply round_aux_nonneg.
Qed.

Lemma add_nonneg (x y : f64) :
  nonneg_f64 x = true -> nonneg_f64 y = true -> nonneg_f64 (add x y) = true.
Proof.
  destruct x as [[]|[]| |[] mx ex], y as [[]|[]| |[] my ey]; simpl; intros Hx Hy; try done.
  by apply (normalize_nonneg (Zpos _)).
Qed.

Lemma mul_nonneg (x y : f64) : nonneg_f64 x = true -> pos_f64 y = true -> nonneg_f64 (mul x y) = true.
Proof.
  destruct x as [[]|[]| |[] mx ex], y as [[]|[]| |[] my ey]; simpl; intros Hx Hy; try done.
  by apply round_aux_nonneg.
Qed.

Lemma rates_positive (model : string) : pos_f64 (fst (rates model)) = true /\ pos_f64 (snd (rates model)) = true.
Proof. unfold rates. cbv zeta. repeat case_bool; vm_compute; by split. Qed.

Lemma round_bounds (f : f64) : nonneg_f64 f = true -> 0 <= round_as_i64 f <= Int.i64_max.
Proof.
  unfold Int.i64_max. destruct f as [s|[]| |[] m e]; simpl; intros Hf; try done.
  assert (0 <= if 0 <=? e then Zpos m * 2 ^ e else (Zpos m * 2 + 2 ^ (- e)) / (2 * 2 ^ (- e))).
  { destruct (Z.leb_spec 0 e); [lia|]. apply Z.div_pos; lia. }
  unfold Int.sat_i64, Int.i64_min, Int.i64_max. lia.
Qed.

Lemma cost_micros_bounds (model : string) (u : CanonicalUsage) :
  0 <= u_input u -> 0 <= u_output u -> 0 <= u_cache_read u -> 0 <= u_cache_write u -> 0 <= u_reasoning u ->
  0 <= cost_micros model u <= Int.i64_max.
Proof.
  intros. unfold cost_micros. destruct (rates_positive model) as [Hi Ho].
  destruct (rates model) as [ri ro]. cbn [fst snd] in *. apply round_bounds.
  repeat first [apply add_nonneg|apply mul_nonneg]; try done; by apply normalize_nonneg.
Qed.
End PriceLemmas.

(** ** Lemmas: the rows of the ledger *)

(** The key of the table's UNIQUE constraint. The constraint itself does not bind tenant rows, whose
    user is NULL. *)
Abbreviation Key := (Uuid * string * option Uuid * Z)%type.
Definition row_key (r : LedgerRow) : Key := (tenant_id r, scope r, user_id r, day r).
Definition tenant_key (tenant : Uuid) (today : Z) : Key := (tenant, "tenant", None, today).
Definition user_key (tenant user : Uuid) (today : Z) : Key := (tenant, "user", Some user, today).
Definition ledger_wf (l : list LedgerRow) : Prop := NoDup (row_key <$> l).
Definition has_key (k : Key) (r : LedgerRow) : bool := bool_decide (row_key r = k).

Lemma is_tenant_row_key (tenant : Uuid) (today : Z) (r : LedgerRow) :
  is_tenant_row tenant today r = has_key (tenant_key tenant today) r.
Proof.
  unfold is_tenant_row, has_key, row_key, tenant_key. apply bool_iff_eq.
  rewrite !andb_true_iff, N.eqb_eq, String.eqb_eq, Z.eqb_eq, !bool_decide_eq_true.
  split; [intros [[[-> ->] ->] ->]; done|intros Hk; by inv Hk].
Qed.

Lemma is_user_row_key (tenant user : Uuid) (today : Z) (r : LedgerRow) :
  is_user_row tenant user today r = has_key (user_key tenant user today) r.
Proof.
  unfold is_user_row, has_key, row_key, user_key. apply bool_iff_eq.
  rewrite !andb_true_iff, N.eqb_eq, String.eqb_eq, Z.eqb_eq, !bool_decide_eq_true.
  split; [intros [[[-> ->] ->] ->]; done|intros Hk; by inv Hk].
Qed.

Lemma sum_spent_ext (p q : LedgerRow -> bool) (l : list LedgerRow) :
  (forall r, p r = q r) -> sum_spent p l = sum_spent q l.
Proof. intros H. induction l as [|r l IH]; simpl; [done|]. by rewrite H, IH. Qed.

Lemma sum_spent_app (p : LedgerRow -> bool) (l k : list LedgerRow) :
  sum_spent p (l ++ k) = sum_spent p l + sum_spent p k.
Proof. induction l as [|r l IH]; simpl; [lia|]. destruct (p r); lia. Qed.

(** The spend under a key: the sum of its rows. *)
Definition spend (k : Key) (l : list LedgerRow) : Z := sum_spent (has_key k) l.

Lemma spend_absent (k : Key) (l : list LedgerRow) : k ∉ row_key <$> l -> spend k l = 0.
Proof.
  unfold spend. induction l as [|r l IH]; simpl; [done|]. rewrite not_elem_of_cons. intros [Hr Hl].
  destruct (has_key k r) eqn:Hk; [by apply bool_decide_eq_true in Hk as <-|by apply IH].
Qed.

(** One row per key: the sum is the row that [fetch_optional] finds. *)
Lemma spend_row (k : Key) (l : list LedgerRow) :
  ledger_wf l -> spend k l = unwrap_or (spent <$> find_first (has_key k) l) 0.
Proof.
  unfold ledger_wf, spend. induction l as [|r l IH]; simpl; [done|]. rewrite NoDup_cons. intros [Hr Hl].
  destruct (has_key k r) eqn:Hk; simpl; [|by apply IH]. apply bool_decide_eq_true in Hk as <-. pose proof (spend_absent _ _ Hr) as H0. unfold spend in H0. lia.
Qed.

Lemma bigint_add_ok (a b c : Z) : bigint_add a b = Ok c -> c = a + b.
Proof. unfold bigint_add. by case_bool; intros H; inv H. Qed.

Lemma add_spend_ok (u : CostUsage) (cost : Z) (r r' : LedgerRow) :
  add_spend u cost r = Ok r' -> row_key r' = row_key r /\ spent r' = spent r + cost.
Proof.
  unfold add_spend. destruct (add_tokens _ u); [|done]. cbn [and_then].
  destruct (bigint_add _ cost) eqn:Hb; [|done]. intros H. inv H. by rewrite <- (bigint_add_ok _ _ _ Hb).
Qed.

(** What an update keeps and adds. *)
Lemma update_ok (k : Key) (u : CostUsage) (cost : Z) (l l' : list LedgerRow) (n : nat) :
  update (has_key k) (add_spend u cost) l = Ok (l', n) ->
  row_key <$> l' = row_key <$> l /\
  (forall k', spend k' l' = spend k' l + if decide (k' = k) then Z.of_nat n * cost else 0) /\
  (forall r, r ∈ l -> row_key r <> k -> r ∈ l') /\
  (n = 0%nat <-> k ∉ row_key <$> l) /\ (ledger_wf l -> (n <= 1)%nat).
Proof.
  revert l' n. induction l as [|r l IH]; intros l' n; simpl.
  - intros H. inv H. repeat split; try done; [intros k'; destruct (decide _); simpl; lia|set_solver|intros; lia].
  - destruct (update _ _ l) as [[l1 m]|e]; [|done]. cbn [and_then].
    destruct (IH l1 m eq_refl) as (Hk & Hs & Hin & Hz & Hu). clear IH.
    unfold has_key at 1. case_bool_decide as Hr.
    + destruct (add_spend u cost r) as [r'|] eqn:Ha; [|done]. cbn [and_then]. intros H. inv H.
      apply add_spend_ok in Ha as [Hk' Hc]. split; [by rewrite !fmap_cons, Hk', Hk|]. split; [|split; [|split]].
      * intros k'. specialize (Hs k'). unfold spend in *. simpl. rewrite Hs.
        assert (has_key k' r' = has_key k' r) as -> by (unfold has_key; by rewrite Hk').
        destruct (has_key k' r) eqn:Hx, (decide (k' = row_key r)) as [->|Hne]; try lia.
        { by apply bool_decide_eq_true in Hx. }
        { by apply bool_decide_eq_false in Hx. }
      * intros x Hx Hne. apply elem_of_cons in Hx as [->|Hx]; [done|]. right. by apply Hin.
      * split; [done|]. rewrite not_elem_of_cons. by intros [].
      * unfold ledger_wf in *. simpl. rewrite NoDup_cons. intros [Hx _].
        apply Hz in Hx. lia.
    + intros H. inv H. split; [by rewrite !fmap_cons, Hk|]. split; [|split; [|split]].
      * intros k'. unfold spend in *. simpl. rewrite Hs. destruct (has_key k' r); lia.
      * intros x Hx Hne. apply elem_of_cons in Hx as [->|Hx]; [left|right; by apply Hin].
      * rewrite Hz, not_elem_of_cons. split; [intros Hl; split; [congruence|done]|by intros []].
      * unfold ledger_wf in *. simpl. rewrite NoDup_cons. intros [_ Hl]. by apply Hu.
Qed.

(** [UPDATE], then [INSERT] when nothing was updated: exactly one row takes the spend. *)
Lemma upsert_ok (k : Key) (u : CostUsage) (cost : Z) (l l1 : list LedgerRow) (n : nat) (fresh : LedgerRow) :
  ledger_wf l -> row_key fresh = k -> spent fresh = cost ->
  update (has_key k) (add_spend u cost) l = Ok (l1, n) ->
  let l' := if Nat.eqb n 0 then l1 ++ [fresh] else l1 in
  ledger_wf l' /\ (forall k', spend k' l' = spend k' l + if decide (k' = k) then cost else 0) /\
  (forall r, r ∈ l -> row_key r <> k -> r ∈ l').
Proof.
  intros Hwf Hk Hc Hu. cbv zeta. apply update_ok in Hu as (Hkeys & Hs & Hin & Hz & Hn).
  specialize (Hn Hwf). unfold ledger_wf in *. destruct n as [|[|n]]; [| |lia]; cbn [Nat.eqb].
  - split; [|split].
    + rewrite fmap_app, Hkeys. apply NoDup_app. split; [done|]. split; [|apply NoDup_singleton].
      intros x Hx Hf. simpl in Hf. apply list_elem_of_singleton in Hf as ->. rewrite Hk in Hx.
      by apply (proj1 Hz).
    + intros k'. specialize (Hs k'). unfold spend in *. rewrite sum_spent_app, Hs. simpl.
      rewrite Hc. destruct (has_key k' fresh) eqn:Hx, (decide (k' = k)) as [->|Hne]; try lia.
      * apply bool_decide_eq_true in Hx. congruence.
      * apply bool_decide_eq_false in Hx. congruence.
    + intros r Hr Hne. apply elem_of_app. left. by apply Hin.
  - split; [by rewrite Hkeys|]. split; [|exact Hin]. intros k'. rewrite Hs. destruct (decide _); lia.
Qed.

(** ** Lemmas: accruals *)

Lemma key_day (r : LedgerRow) (t : Uuid) (sc : string) (u : option Uuid) (d : Z) :
  day r <> d -> row_key r <> (t, sc, u, d).
Proof. intros Hd Hk. by inv Hk. Qed.

(** What one accrual adds under a key. *)
Definition charge (k k' : Key) (cost : Z) : Z := if decide (k' = k) then cost else 0.

Lemma update_ext (p q : LedgerRow -> bool) (f : LedgerRow -> result string LedgerRow) (l : list LedgerRow) :
  (forall r, p r = q r) -> update p f l = update q f l.
Proof. intros H. induction l as [|r l IH]; simpl; [done|]. by rewrite IH, H. Qed.

Lemma ensure_tenant_ledger (tenant : Uuid) (db : CostDb) : ledger (ensure_tenant tenant db) = ledger db.
Proof. unfold ensure_tenant. by destruct (existsb _ _). Qed.
Lemma ensure_tenant_users (tenant : Uuid) (db : CostDb) : users (ensure_tenant tenant db) = users db.
Proof. unfold ensure_tenant. by destruct (existsb _ _). Qed.
Lemma ensure_tenant_cap (t tenant : Uuid) (db : CostDb) (cap : Z) :
  tenant_cap t db = Some cap -> tenant_cap t (ensure_tenant tenant db) = Some cap.
Proof.
  unfold tenant_cap, ensure_tenant. destruct (existsb _ _); [done|]. simpl.
  destruct (find_first _ (tenants db)) eqn:Hf; [|done]. by rewrite find_first_app, Hf.
Qed.
Lemma ensure_parents_ledger (tenant user : Uuid) (db : CostDb) :
  ledger (ensure_parents tenant user db) = ledger db.
Proof. unfold ensure_parents. destruct (existsb _ _); simpl; apply ensure_tenant_ledger. Qed.

Lemma accrue_tenant_ok (today : Z) (tenant : Uuid) (u : CostUsage) (cost : Z) (provider : string)
  (db db' : CostDb) :
  ledger_wf (ledger db) -> accrue_tenant today tenant u cost provider db = Ok db' ->
  ledger_wf (ledger db') /\
  (forall k, spend k (ledger db') = spend k (ledger db) + charge (tenant_key tenant today) k cost) /\
  (forall r, r ∈ ledger db -> day r <> today -> r ∈ ledger db') /\
  users db' = users db /\ (forall t cap, tenant_cap t db = Some cap -> tenant_cap t db' = Some cap).
Proof.
  intros Hwf. unfold accrue_tenant, update_tenant_row. rewrite ensure_tenant_ledger.
  rewrite (update_ext _ _ _ _ (is_tenant_row_key tenant today)).
  destruct (update _ _ _) as [[l n]|e] eqn:Hu; [|done]. cbn [and_then]. intros H. inv H.
  destruct (upsert_ok (tenant_key tenant today) u cost _ _ _ (ledger_row tenant "tenant" None today u cost provider) Hwf eq_refl
    eq_refl Hu) as (H1 & H2 & H3).
  split; [exact H1|]. split; [exact H2|]. split; [|split].
  - intros r Hr Hd. apply H3; [done|]. by apply key_day.
  - apply ensure_tenant_users.
  - intros t cap Ht. by apply ensure_tenant_cap.
Qed.

Lemma accrue_ok (today : Z) (tenant user : Uuid) (u : CostUsage) (cost : Z) (provider : string)
  (db db' : CostDb) :
  ledger_wf (ledger db) -> accrue today tenant user u cost provider db = Ok db' ->
  ledger_wf (ledger db') /\
  (forall k, spend k (ledger db') = spend k (ledger db) + charge (tenant_key tenant today) k cost
     + charge (user_key tenant user today) k cost) /\
  (forall r, r ∈ ledger db -> day r <> today -> r ∈ ledger db').
Proof.
  intros Hwf. unfold accrue, update_tenant_row, upsert_user_row. rewrite ensure_parents_ledger.
  rewrite (update_ext _ _ _ _ (is_tenant_row_key tenant today)).
  destruct (update _ _ (ledger db)) as [[l n]|e] eqn:Hu; [|done]. cbn [and_then].
  destruct (upsert_ok (tenant_key tenant today) u cost _ _ _ (ledger_row tenant "tenant" None today u cost provider) Hwf eq_refl
    eq_refl Hu) as (H1 & H2 & H3).
  rewrite (update_ext _ _ _ _ (is_user_row_key tenant user today)).
  destruct (update _ _ (insert_tenant_row _ _ _ _ _ _ _)) as [[l2 n2]|e] eqn:Hu2; [|done].
  cbn [and_then]. intros H. inv H.
  destruct (upsert_ok (user_key tenant user today) u cost _ _ _ (ledger_row tenant "user" (Some user) today u cost provider) H1
    eq_refl eq_refl Hu2) as (G1 & G2 & G3).
  split; [exact G1|]. split.
  - intros k. unfold charge. cbn [with_ledger ledger]. rewrite G2. unfold insert_tenant_row.
    rewrite H2. lia.
  - intros r Hr Hd. apply G3; [apply H3; [done|]|]; by apply key_day.
Qed.

(** A run of accruals on one day: for a tenant alone, or for a tenant and a user. *)
Record Accrual : Type := {
  a_tenant : Uuid;
  a_user : option Uuid;
  a_usage : CostUsage;
  a_cost : Z;
  a_provider : string;
}.
Definition run_accrual (today : Z) (a : Accrual) (db : CostDb) : result string CostDb :=
  match a_user a with
  | Some user => accrue today (a_tenant a) user (a_usage a) (a_cost a) (a_provider a) db
  | None => accrue_tenant today (a_tenant a) (a_usage a) (a_cost a) (a_provider a) db
  end.
Fixpoint run_accruals (today : Z) (l : list Accrual) (db : CostDb) : result string CostDb :=
  match l with
  | [] => Ok db
  | a :: l => let? db := run_accrual today a db in run_accruals today l db
  end.
Definition total (p : Accrual -> bool) (l : list Accrual) : Z :=
  foldr (fun a n => if p a then a_cost a + n else n) 0 l.

Lemma read_today_spend (today : Z) (tenant user : Uuid) (db : CostDb) :
  ledger_wf (ledger db) ->
  read_today today tenant user db
  = (spend (tenant_key tenant today) (ledger db), spend (user_key tenant user today) (ledger db)).
Proof.
  intros Hwf. unfold read_today. rewrite !(spend_row _ _ Hwf).
  by rewrite (find_first_ext _ _ _ (is_tenant_row_key tenant today)),
    (find_first_ext _ _ _ (is_user_row_key tenant user today)).
Qed.

Lemma run_accrual_ok (today : Z) (a : Accrual) (db db' : CostDb) :
  ledger_wf (ledger db) -> run_accrual today a db = Ok db' ->
  ledger_wf (ledger db') /\
  (forall tenant, spend (tenant_key tenant today) (ledger db')
     = spend (tenant_key tenant today) (ledger db) + if N.eqb (a_tenant a) tenant then a_cost a else 0) /\
  (forall tenant user, spend (user_key tenant user today) (ledger db')
     = spend (user_key tenant user today) (ledger db)
       + if N.eqb (a_tenant a) tenant && bool_decide (a_user a = Some user) then a_cost a else 0) /\
  (forall r, r ∈ ledger db -> day r <> today -> r ∈ ledger db').
Proof.
  intros Hwf. unfold run_accrual. destruct (a_user a) as [u|].
  - intros H. apply accrue_ok in H as (H1 & H2 & H3); [|done]. split; [done|]. split; [|split; [|done]].
    + intros t. rewrite H2. unfold charge, tenant_key, user_key.
      destruct (N.eqb_spec (a_tenant a) t) as [->|Hne].
      * rewrite decide_True, decide_False by congruence. lia.
      * rewrite !decide_False by congruence. lia.
    + intros t x. rewrite H2. unfold charge, tenant_key, user_key.
      rewrite decide_False by congruence. destruct (N.eqb_spec (a_tenant a) t) as [->|Hne]; simpl.
      * case_bool_decide as Hx; [rewrite decide_True by congruence|rewrite decide_False by congruence]; lia.
      * rewrite decide_False by congruence. lia.
  - intros H. apply accrue_tenant_ok in H as (H1 & H2 & H3 & _); [|done]. split; [done|].
    split; [|split; [|done]].
    + intros t. rewrite H2. unfold charge, tenant_key.
      destruct (N.eqb_spec (a_tenant a) t) as [->|Hne].
      * by rewrite decide_True by done.
      * by rewrite decide_False by congruence.
    + intros t x. rewrite H2. unfold charge, tenant_key, user_key. rewrite decide_False by congruence.
      rewrite bool_decide_eq_false_2 by done. by rewrite andb_false_r.
Qed.

Lemma update_err (p : LedgerRow -> bool) (u : CostUsage) (cost : Z) (l : list LedgerRow) (e : string) :
  update p (add_spend u cost) l = Err e -> e = "bigint out of range".
Proof.
  induction l as [|r l IH]; simpl; [done|]. destruct (update _ _ l) as [[l1 n]|e1]; cbn [and_then]; [|auto].
  destruct (p r); [|done]. unfold add_spend, add_tokens, bigint_add.
  by repeat (case_bool; cbn [and_then]; [|congruence]).
Qed.

Lemma run_accrual_err (today : Z) (a : Accrual) (db : CostDb) (e : string) :
  run_accrual today a db = Err e -> e = "bigint out of range".
Proof.
  unfold run_accrual, accrue, accrue_tenant, upsert_user_row, update_tenant_row.
  destruct (a_user a) as [usr|]; (destruct (update _ _ _) as [[l n]|x] eqn:Hu; cbn [and_then];
    [|intros H; inv H; by apply update_err in Hu]); [|done].
  destruct (update (is_user_row _ _ _) _ _) as [[l2 n2]|x] eqn:Hv; cbn [and_then]; [done|].
  intros H. inv H. by apply update_err in Hv.
Qed.

Lemma run_accruals_ok (today : Z) (l : list Accrual) (db db' : CostDb) :
  ledger_wf (ledger db) -> run_accruals today l db = Ok db' ->
  ledger_wf (ledger db') /\
  (forall tenant, spend (tenant_key tenant today) (ledger db')
     = spend (tenant_key tenant today) (ledger db) + total (fun a => N.eqb (a_tenant a) tenant) l) /\
  (forall tenant user, spend (user_key tenant user today) (ledger db')
     = spend (user_key tenant user today) (ledger db)
       + total (fun a => N.eqb (a_tenant a) tenant && bool_decide (a_user a = Some user)) l) /\
  (forall r, r ∈ ledger db -> day r <> today -> r ∈ ledger db').
Proof.
  revert db. induction l as [|a l IH]; intros db Hwf; cbn [run_accruals].
  - intros H. inv H. repeat split; try done; intros; simpl; lia.
  - destruct (run_accrual today a db) as [db1|e] eqn:Ha; [|done]. cbn [and_then]. intros Hr.
    apply run_accrual_ok in Ha as (H1 & H2 & H3 & H4); [|done].
    destruct (IH db1 H1 Hr) as (G1 & G2 & G3 & G4). split; [done|]. split; [|split].
    + intros t. rewrite G2, H2. simpl. destruct (N.eqb _ _); lia.
    + intros t u. rewrite G3, H3. simpl. destruct (_ && _); lia.
    + auto.
Qed.


(** ** The ceiling *)

Lemma as_bigint_ok (z n : Z) : as_bigint z = Ok n -> n = z.
Proof. unfold as_bigint. intros H. apply bigint_add_ok in H. lia. Qed.

Lemma over_none (who : string) (cap : option Z) (s : Z) :
  over who cap s = None <-> forall c, cap = Some c -> s < c.
Proof.
  unfold over. destruct cap as [c|]; [|done]. destruct (Z.leb_spec c s); split; try done.
  - intros Hc. specialize (Hc c eq_refl). lia.
  - intros _ c' Hc. inv Hc. lia.
Qed.

Lemma over_some (who : string) (cap : option Z) (s : Z) (reason : string) :
  over who cap s = Some reason <->
  exists c, cap = Some c /\ c <= s /\
    reason = who +:+ " daily cost ceiling reached: " +:+ pretty s +:+ " >= " +:+ pretty c +:+ " micros".
Proof.
  unfold over. destruct cap as [c|]; [|split; [done|by intros (c & Hc & _)]].
  destruct (Z.leb_spec c s); split; try done.
  - intros H1. inv H1. by exists c.
  - intros (c' & Hc & _ & ->). by inv Hc.
  - intros (c' & Hc & Hle & _). inv Hc. lia.
Qed.

(** The spends a check compares. *)
Definition tenant_spend (today : Z) (tenant : Uuid) (db : CostDb) : Z :=
  sum_spent (is_tenant_row tenant today) (ledger db).
Definition user_spend (today : Z) (tenant user : Uuid) (db : CostDb) : Z :=
  sum_spent (is_user_row tenant user today) (ledger db).

Lemma check_ceiling_ok (today : Z) (tenant user : Uuid) (db : CostDb) :
  check_ceiling today tenant user db = Ok (Ok tt) ->
  (forall c, tenant_cap tenant db = Some c -> tenant_spend today tenant db < c) /\
  (forall c, user_cap tenant user db = Some c -> user_spend today tenant user db < c).
Proof.
  unfold check_ceiling, tenant_spend, user_spend.
  destruct (as_bigint (sum_spent (is_tenant_row _ _) _)) as [t|e] eqn:Ht; [|done]. cbn [and_then].
  destruct (as_bigint (sum_spent (is_user_row _ _ _) _)) as [u|e] eqn:Hu; [|done]. cbn [and_then].
  apply as_bigint_ok in Ht as ->. apply as_bigint_ok in Hu as ->.
  destruct (over "tenant" _ _) eqn:H1; [done|]. destruct (over "user" _ _) eqn:H2; [done|].
  intros _. by split; eapply over_none.
Qed.

(** What the accrual of a turn does to the spends. *)
Lemma turn_spend (today : Z) (t : Uuid) (provider model : string) (u : CanonicalUsage) (db : CostDb) :
  ledger_wf (ledger db) ->
  let db' := accrue_turn_cost today t provider model u db in
  ledger_wf (ledger db') /\ users db' = users db /\
  (forall tenant cap, tenant_cap tenant db = Some cap -> tenant_cap tenant db' = Some cap) /\
  (forall tenant user, user_spend today tenant user db' = user_spend today tenant user db) /\
  (forall tenant, tenant_spend today tenant db' = tenant_spend today tenant db \/
     t = tenant /\ tenant_spend today tenant db'
       = tenant_spend today tenant db + Price.cost_micros model u).
Proof.
  intros Hwf. cbv zeta. unfold accrue_turn_cost. case_bool_decide; [by repeat split; auto|].
  destruct (accrue_tenant _ _ _ _ _ db) as [db'|e] eqn:Ha; [|by repeat split; auto].
  apply accrue_tenant_ok in Ha as (H1 & H2 & _ & H4 & H5); [|done].
  split; [done|]. split; [done|]. split; [done|]. unfold tenant_spend, user_spend. split.
  - intros tn us. rewrite !(sum_spent_ext _ _ _ (is_user_row_key tn us today)).
    fold (spend (user_key tn us today) (ledger db')). rewrite H2. unfold charge, tenant_key, user_key.
    rewrite decide_False by congruence. unfold spend. lia.
  - intros tn. rewrite !(sum_spent_ext _ _ _ (is_tenant_row_key tn today)).
    fold (spend (tenant_key tn today) (ledger db')) (spend (tenant_key tn today) (ledger db)).
    rewrite H2. unfold charge, tenant_key. destruct (decide (t = tn)) as [->|Hne].
    + right. by rewrite decide_True.
    + left. rewrite decide_False by congruence. lia.
Qed.

(** A check refuses exactly when a cap is reached, the tenant's before the user's, and says
    which: a tenant at its cap is refused whoever asks, one without a row is not limited, the only other
    error is the cast of an overflowing sum. What turns accrue moves the tenant's spend only: the user's
    stays what it was after any number of turns, so the user's cap never refuses anything that was not
    refused at first. *)
Theorem ceiling_refuses (today : Z) (tenant user : Uuid) (db : CostDb) :
  (forall reason, check_ceiling today tenant user db = Ok (Err reason) ->
     exists who s c, reason = who +:+ " daily cost ceiling reached: " +:+ pretty s +:+ " >= " +:+ pretty c
       +:+ " micros" /\ c <= s /\
       (who = "tenant" /\ tenant_cap tenant db = Some c /\ s = tenant_spend today tenant db \/
        who = "user" /\ user_cap tenant user db = Some c /\ s = user_spend today tenant user db)) /\
  (check_ceiling today tenant user db = Ok (Ok tt) ->
     (forall c, tenant_cap tenant db = Some c -> tenant_spend today tenant db < c) /\
     (forall c, user_cap tenant user db = Some c -> user_spend today tenant user db < c)) /\
  (forall e, check_ceiling today tenant user db = Err e ->
     ~ Int.in_i64 (tenant_spend today tenant db) \/ ~ Int.in_i64 (user_spend today tenant user db)) /\
  (ledger_wf (ledger db) ->
   forall turns : list (Uuid * string * string * CanonicalUsage),
   let db' := foldl (fun db '(t, provider, model, u) => accrue_turn_cost today t provider model u db) db turns in
   user_cap tenant user db' = user_cap tenant user db /\
   user_spend today tenant user db' = user_spend today tenant user db).
Proof.
  split; [|split; [apply check_ceiling_ok|split]].
  - unfold check_ceiling, tenant_spend, user_spend. intros reason.
    destruct (as_bigint (sum_spent (is_tenant_row _ _) _)) as [t|e] eqn:Ht; [|done]. cbn [and_then].
    destruct (as_bigint (sum_spent (is_user_row _ _ _) _)) as [u|e] eqn:Hu; [|done]. cbn [and_then].
    apply as_bigint_ok in Ht as ->. apply as_bigint_ok in Hu as ->.
    destruct (over "tenant" _ _) as [r1|] eqn:H1.
    { intros H. inv H. apply over_some in H1 as (c & H2 & H3 & ->). exists "tenant". eexists _, c. eauto 6. }
    destruct (over "user" _ _) as [r1|] eqn:H2; [|done].
    intros H. inv H. apply over_some in H2 as (c & H2 & H3 & ->). exists "user". eexists _, c. eauto 6.
  - unfold check_ceiling, tenant_spend, user_spend, as_bigint, bigint_add, Int.in_i64. intros e.
    rewrite !Z.add_0_r. case_bool; cbn [and_then]; [case_bool; cbn [and_then]; [done|]|]; intros _;
      [right|left];
      match goal with H : _ && _ = false |- _ => apply andb_false_iff in H; lia end.
  - intros Hwf turns. cbv zeta. revert db Hwf.
    induction turns as [|[[[t p] m] u] turns IH]; intros db Hwf; [done|]. cbn [foldl].
    destruct (turn_spend today t p m u db Hwf) as (H1 & H2 & _ & H4 & _).
    destruct (IH _ H1) as [-> ->]. rewrite H4. split; [|done]. unfold user_cap. by rewrite H2.
Qed.

(** ** Overspending *)

(** Spend, plus one price for every call in flight. *)
Definition committed (today : Z) (tenant : Uuid) (price_cap : Z) (s : CostDb * nat) : Z :=
  tenant_spend today tenant (fst s) + Z.of_nat (snd s) * price_cap.

Record meter_inv (today : Z) (tenant : Uuid) (slots : nat) (price_cap cap bound : Z) (s : CostDb * nat) :
  Prop := {
  mi_wf : ledger_wf (ledger (fst s));
  mi_cap : tenant_cap tenant (fst s) = Some cap;
  mi_bound : committed today tenant price_cap s <= bound;
}.

Lemma meter_inv_step (today : Z) (tenant : Uuid) (slots : nat) (price_cap cap bound : Z)
  (s s' : CostDb * nat) :
  0 <= price_cap -> cap - 1 + Z.of_nat slots * price_cap <= bound ->
  Meter.step today tenant slots price_cap s s' ->
  meter_inv today tenant slots price_cap cap bound s -> meter_inv today tenant slots price_cap cap bound s'.
Proof.
  intros Hp Hb Hs [Hwf Hcap Hc]. unfold committed in Hc.
  inv Hs; cbn [fst snd] in *.
  - apply check_ceiling_ok in H as [Ht _]. specialize (Ht _ Hcap). constructor; [done..|].
    unfold committed. cbn [fst snd]. nia.
  - destruct (turn_spend today tenant provider model u db Hwf) as (H1 & _ & H3 & _ & H5).
    constructor; [done|by apply H3|]. unfold committed. cbn [fst snd].
    destruct (H5 tenant) as [-> | [_ ->]]; nia.
  - constructor; [done..|]. unfold committed. cbn [fst snd]. nia.
  - destruct (turn_spend today tenant' provider model u db Hwf) as (H1 & _ & H3 & _ & H5).
    constructor; [done|by apply H3|]. unfold committed. cbn [fst snd].
    destruct (H5 tenant) as [-> | [Ht _]]; [done|congruence].
Qed.


(** ** Examples *)

Definition demo_usage : CanonicalUsage :=
  {| u_input := 1000000; u_output := 1000000; u_cache_read := 0; u_cache_write := 0; u_reasoning := 0 |}.
Definition demo_tokens : CostUsage := wrap_i64_usage demo_usage.
Definition empty_db : CostDb := {| tenants := []; users := []; ledger := [] |}.
Definition capped_db : CostDb :=
  {| tenants := [{| tn_id := 1%N; daily_cost_cap_micros := 1000000 |}]; users := []; ledger := [] |}.

Example prices_of_the_tests :
  Price.cost_micros "gpt-4o-mini" demo_usage = 750000 /\
  Price.cost_micros "claude-opus-4-8" demo_usage = 30000000 /\
  Price.cost_micros "deepseek-v4-pro" demo_usage = 1380000 /\
  Price.cost_micros "some-future-model" demo_usage = 4000000 /\
  Price.cost_micros "gpt-5.1" usage_zero = 0.
Proof. vm_compute. repeat split. Qed.

Example accrued_once :
  match guard_accrue 0 1%N 2%N "r1" demo_usage 750000 guard_new empty_db with
  | (Ok _, g, db) =>
      guard_accrue 0 1%N 2%N "r1" demo_usage 750000 g db = (Ok tt, g, db) /\
      read_today 0 1%N 2%N db = (750000, 750000)
  | _ => False
  end.
Proof. vm_compute. repeat split. Qed.

(** A ledger write that fails is not retried under the same id: the id counts as billed. *)
Example failed_accrual_is_dropped :
  let full := {| tenants := []; users := [];
                 ledger := [ledger_row 1%N "tenant" None 0 demo_tokens Int.i64_max "x"] |} in
  match guard_accrue 0 1%N 2%N "r1" demo_usage 750000 guard_new full with
  | (Err (DbError _), g, db) => guard_accrue 0 1%N 2%N "r1" demo_usage 750000 g empty_db = (Ok tt, g, empty_db)
  | _ => False
  end.
Proof. vm_compute. reflexivity. Qed.

(** The breakdown of a day names its first provider only. *)
Example breakdown_is_of_the_first :
  match accrue_tenant 0 1%N demo_tokens 5 "openai" empty_db with
  | Ok db =>
      match accrue_tenant 0 1%N demo_tokens 7 "anthropic" db with
      | Ok db => map spent (ledger db) = [12] /\ map provider_breakdown (ledger db) = [[("openai", 5)]]
      | Err _ => False
      end
  | Err _ => False
  end.
Proof. vm_compute. repeat split. Qed.

(** Two first accruals of a day, both [UPDATE]s before either [INSERT]: the UNIQUE constraint holds no
    two NULL users equal, so both insert, and from then on every accrual is counted twice. *)
Example two_first_accruals_race :
  match update_tenant_row 1%N 0 demo_tokens 5 [], update_tenant_row 1%N 0 demo_tokens 5 [] with
  | Ok (l, n1), Ok (_, n2) =>
      let l := insert_tenant_row 1%N 0 demo_tokens 5 "openai" n1 l in
      let l := insert_tenant_row 1%N 0 demo_tokens 5 "openai" n2 l in
      match accrue_tenant 0 1%N demo_tokens 100 "openai" (with_ledger l empty_db) with
      | Ok db => map spent (ledger db) = [105; 105] /\ tenant_spend 0 1%N db = 210
      | Err _ => False
      end
  | _, _ => False
  end.
Proof. vm_compute. repeat split. Qed.


