(* ===== verification/OpLog.v ===== *)
(** * The operation log of the clients

    [app-server/src/sync/routes.rs] registers devices and takes their operations,
    [app-server/src/sync/emit.rs] adds the server's own, and the last part of
    [app-server/src/sync/materialize.rs] serves the pull: a cursor, and the operations after it. The
    tables [devices] and [sync_ops] are lists in an arbitrary physical order; [seq] is an identity
    column, drawn at every insert that is tried, whether it is kept or not. [Feed] is the system of
    writers that commit in any order and a client that pulls. *)
From S2P Require Import Prelude RustStr Json WikiText Redact.
From stdpp Require Import list relations.

#[local] Open Scope string_scope.
#[local] Open Scope list_scope.
#[local] Open Scope Z_scope.

(** ** Data *)
Module Wire.
(* src/qcue-rs/protocol/src/sync.rs 8-17 SyncOp *)
Record SyncOp : Type := {
  hlc_wall_ms : Z;
  hlc_lamport : Z;
  site_id : Z;
  entity_kind : string;
  entity_ref : string;
  op : Value;
}.
End Wire.

(* src/qcue-rs/migrations/00002_M0_0002_users.sql 42-54 devices *)
Record Device : Type := {
  d_id : Uuid;
  d_tenant : Uuid;
  d_user : Uuid;
  d_platform : string;
  d_name : option string;
  d_site : Z;
}.

(* src/qcue-rs/migrations/50001_M5_0001_sync_ops.sql 16-31 sync_ops *)
Record OpRow : Type := {
  o_id : Uuid;
  o_tenant : Uuid;
  o_user : Uuid;
  o_device : Uuid;
  o_wall : Z;
  o_lamport : Z;
  o_site : Z;
  o_kind : string;
  o_ref : string;
  o_op : Value;
  o_applied : bool;
  o_seq : Z;
}.

(** Both tables, and the next value of the identity column. *)
Record Log : Type := { devices : list Device; ops : list OpRow; next_seq : Z }.

Definition of_tenant (tenant : Uuid) (o : OpRow) : bool := N.eqb (o_tenant o) tenant.

(** The columns of [sync_ops_idem_uniq]. *)
Abbreviation OpKey := (Uuid * Uuid * Z * Z)%type.
Definition op_key (o : OpRow) : OpKey := (o_tenant o, o_device o, o_site o, o_lamport o).

Definition max_of (f : OpRow -> Z) (d : Z) (l : list OpRow) : Z := foldr (fun o m => Z.max (f o) m) d l.

(** ** Devices *)
Section Devices.
Context (new_device : Log -> Uuid).

(* src/qcue-rs/app-server/src/sync/routes.rs 36-39 DeviceReg *)
Record DeviceReg : Type := { device_id : Uuid; reg_site : Z }.

Definition with_device (d : Device) (log : Log) : Log :=
  {| devices := devices log ++ [d]; ops := ops log; next_seq := next_seq log |}.

(** [COALESCE(MAX(site_id),0)+1]. *)
Definition next_site (tenant : Uuid) (log : Log) : Z :=
  match (filter (fun d => d_tenant d = tenant) (devices log)) with
  | [] => 1
  | d :: l => foldr (fun d m => Z.max (d_site d) m) (d_site d) l + 1
  end.

(** The insert fails on [UNIQUE (tenant_id, site_id)]. *)
(* src/qcue-rs/app-server/src/sync/routes.rs 43-77 register_device *)
Definition register_device (tenant user : Uuid) (platform name : string) (log : Log) :
  result string (DeviceReg * Log) :=
  match find_first (fun d => N.eqb (d_tenant d) tenant && N.eqb (d_user d) user
      && String.eqb (d_platform d) platform && bool_decide (d_name d = Some name)) (devices log) with
  | Some d => Ok ({| device_id := d_id d; reg_site := d_site d |}, log)
  | None =>
      let next := next_site tenant log in
      if existsb (fun d => N.eqb (d_tenant d) tenant && (d_site d =? next)) (devices log)
      then Err "duplicate key value violates unique constraint"
      else
        let d := {| d_id := new_device log; d_tenant := tenant; d_user := user; d_platform := platform;
                    d_name := Some name; d_site := next |} in
        Ok ({| device_id := d_id d; reg_site := next |}, with_device d log)
  end.

Definition server_site (tenant : Uuid) (d : Device) : bool := N.eqb (d_tenant d) tenant && (d_site d =? 0).

(* src/qcue-rs/app-server/src/sync/emit.rs 16-29 server_device *)
Definition server_device (tenant user : Uuid) (log : Log) : Uuid * Log :=
  match find_first (server_site tenant) (devices log) with
  | Some d => (d_id d, log)
  | None =>
      let d := {| d_id := new_device log; d_tenant := tenant; d_user := user; d_platform := "server";
                  d_name := Some "server"; d_site := 0 |} in
      (d_id d, with_device d log)
  end.
End Devices.

(** ** Writing the log *)
Section Write.
Context (new_device : Log -> Uuid) (new_op : Z -> Uuid).

(** [INSERT ... ON CONFLICT (tenant_id,device_id,site_id,hlc_lamport) DO NOTHING]; the device is a
    foreign key. The answer is [rows_affected]. *)
Definition insert_op (tenant user device : Uuid) (o : Wire.SyncOp) (applied : bool) (log : Log) :
  result string (Z * Log) :=
  if negb (existsb (fun d => N.eqb (d_id d) device) (devices log))
  then Err "insert violates foreign key constraint"
  else
    let row :=
      {| o_id := new_op (next_seq log); o_tenant := tenant; o_user := user; o_device := device;
         o_wall := Wire.hlc_wall_ms o; o_lamport := Wire.hlc_lamport o; o_site := Wire.site_id o;
         o_kind := Wire.entity_kind o; o_ref := Wire.entity_ref o;
         o_op := Boundary.redact_json (Wire.op o); o_applied := applied; o_seq := next_seq log |} in
    let taken := existsb (fun x => bool_decide (op_key x = op_key row)) (ops log) in
    Ok (if taken then 0 else 1,
        {| devices := devices log; ops := if taken then ops log else ops log ++ [row];
           next_seq := next_seq log + 1 |}).

(* src/qcue-rs/app-server/src/sync/routes.rs 89-118 push_ops *)
Fixpoint push_ops (tenant user device : Uuid) (l : list Wire.SyncOp) (log : Log) : result string (Z * Log) :=
  match l with
  | [] => Ok (0, log)
  | o :: l =>
      let? (n, log) := insert_op tenant user device o false log in
      let? (m, log) := push_ops tenant user device l log in
      Ok (n + m, log)
  end.

(* src/qcue-rs/app-server/src/sync/routes.rs 85-85 MAX_OPS_PER_PUSH *)
Definition MAX_OPS_PER_PUSH : nat := 10 * 100.

(** [COALESCE(MAX(hlc_lamport),0)+1], a [bigint]. *)
Definition next_lamport (tenant : Uuid) (log : Log) : result string Z :=
  let n := match filter (fun o => of_tenant tenant o = true) (ops log) with
           | [] => 0
           | o :: l => max_of o_lamport (o_lamport o) l
           end + 1 in
  if n <=? Int.i64_max then Ok n else Err "bigint out of range".

(** [wall_ms] is the clock's reading; the advisory lock is held until the transaction ends. *)
(* src/qcue-rs/app-server/src/sync/emit.rs 35-71 emit_op *)
Definition emit_op (wall_ms : Z) (tenant user : Uuid) (entity_kind entity_ref : string) (op : Value)
  (log : Log) : result string Log :=
  let '(device, log) := server_device new_device tenant user log in
  let? lamport := next_lamport tenant log in
  let o := {| Wire.hlc_wall_ms := wall_ms; Wire.hlc_lamport := lamport; Wire.site_id := 0;
              Wire.entity_kind := entity_kind; Wire.entity_ref := entity_ref; Wire.op := op |} in
  let? (_, log) := insert_op tenant user device o true log in
  Ok log.
End Write.

(** ** Reading the log *)
Section Read.
Definition by_hlc (a b : OpRow) : bool :=
  (o_wall a <? o_wall b)
  || (o_wall a =? o_wall b) && ((o_lamport a <? o_lamport b)
                                || (o_lamport a =? o_lamport b) && (o_site a <=? o_site b)).
Definition by_seq (a b : OpRow) : bool := o_seq a <=? o_seq b.

Definition wire_op (o : OpRow) : Wire.SyncOp :=
  {| Wire.hlc_wall_ms := o_wall o; Wire.hlc_lamport := o_lamport o; Wire.site_id := o_site o;
     Wire.entity_kind := o_kind o; Wire.entity_ref := o_ref o; Wire.op := o_op o |}.

(* src/qcue-rs/app-server/src/sync/materialize.rs 321-334 ops_since *)
Definition ops_since (tenant : Uuid) (since_wall_ms : Z) (log : Log) : list Value :=
  o_op <$> sort_by by_hlc (filter (fun o => of_tenant tenant o && (since_wall_ms <? o_wall o) = true) (ops log)).

(* src/qcue-rs/app-server/src/sync/materialize.rs 339-344 tenant_cursor *)
Definition tenant_cursor (tenant : Uuid) (log : Log) : Z :=
  match filter (fun o => of_tenant tenant o = true) (ops log) with
  | [] => 0
  | o :: l => max_of o_seq (o_seq o) l
  end.

(* src/qcue-rs/app-server/src/sync/materialize.rs 349-356 ops_since_seq *)
Definition rows_since_seq (tenant : Uuid) (since : Z) (log : Log) : list OpRow :=
  sort_by by_seq (filter (fun o => of_tenant tenant o && (since <? o_seq o) = true) (ops log)).
(* src/qcue-rs/app-server/src/sync/materialize.rs 348-368 ops_since_seq *)
Definition ops_since_seq (tenant : Uuid) (since : Z) (log : Log) : list Wire.SyncOp :=
  wire_op <$> rows_since_seq tenant since log.
End Read.

(** ** Writers and a client

    A transaction's rows get their [seq] when they are inserted and become visible when it commits.
    [exclusive] is the discipline of the advisory lock that [emit_op] takes and [push_ops] does not: no
    insert while another transaction has uncommitted rows. The client reads its next cursor and then the rows after its last one; commits may
    fall between the two statements. *)
Module Feed.
Section Feed.
Context (tenant : Uuid) (exclusive : bool).

Record State : Type := {
  committed : Log;
  uncommitted : list (list OpRow);
  reading : option Z;
  cursor : Z;
  seen : list OpRow;
}.

Definition set_next (n : Z) (log : Log) : Log :=
  {| devices := devices log; ops := ops log; next_seq := n |}.
Definition append (l : list OpRow) (log : Log) : Log :=
  {| devices := devices log; ops := ops log ++ l; next_seq := next_seq log |}.

Inductive step : State -> State -> Prop :=
| Insert (before after : list (list OpRow)) (tx : list OpRow) (row : OpRow) (s : State) :
    uncommitted s = before ++ tx :: after ->
    (exclusive = true -> Forall (fun t => t = []) (before ++ after)) ->
    o_tenant row = tenant -> o_seq row = next_seq (committed s) ->
    step s {| committed := set_next (next_seq (committed s) + 1) (committed s);
              uncommitted := before ++ (tx ++ [row]) :: after;
              reading := reading s; cursor := cursor s; seen := seen s |}
| Begin (s : State) :
    step s {| committed := committed s; uncommitted := [] :: uncommitted s;
              reading := reading s; cursor := cursor s; seen := seen s |}
| Commit (before after : list (list OpRow)) (tx : list OpRow) (s : State) :
    uncommitted s = before ++ tx :: after ->
    step s {| committed := append tx (committed s); uncommitted := before ++ after;
              reading := reading s; cursor := cursor s; seen := seen s |}
| Rollback (before after : list (list OpRow)) (tx : list OpRow) (s : State) :
    uncommitted s = before ++ tx :: after ->
    step s {| committed := committed s; uncommitted := before ++ after;
              reading := reading s; cursor := cursor s; seen := seen s |}
| ReadCursor (s : State) :
    reading s = None ->
    step s {| committed := committed s; uncommitted := uncommitted s;
              reading := Some (tenant_cursor tenant (committed s)); cursor := cursor s; seen := seen s |}
| ReadOps (c : Z) (s : State) :
    reading s = Some c ->
    step s {| committed := committed s; uncommitted := uncommitted s; reading := None; cursor := c;
              seen := seen s ++ rows_since_seq tenant (cursor s) (committed s) |}.

Definition init (log : Log) : State :=
  {| committed := log; uncommitted := []; reading := None; cursor := 0; seen := [] |}.
End Feed.
End Feed.

(** ** Lemmas: one insert *)
Section WriteLemmas.
Context (new_device : Log -> Uuid) (new_op : Z -> Uuid).

Lemma existsb_key (k : OpKey) (l : list OpRow) :
  existsb (fun x => bool_decide (op_key x = k)) l = true <-> k ∈ (op_key <$> l).
Proof.
  rewrite existsb_exists, list_elem_of_fmap. split.
  - intros (x & Hx & Hk). apply bool_decide_eq_true in Hk. exists x. by rewrite list_elem_of_In.
  - intros (x & -> & Hx). exists x. rewrite bool_decide_eq_true. by rewrite <- list_elem_of_In.
Qed.

(** The row an operation becomes. *)
Definition op_row (tenant user device : Uuid) (o : Wire.SyncOp) (applied : bool) (seq : Z) : OpRow :=
  {| o_id := new_op seq; o_tenant := tenant; o_user := user; o_device := device;
     o_wall := Wire.hlc_wall_ms o; o_lamport := Wire.hlc_lamport o; o_site := Wire.site_id o;
     o_kind := Wire.entity_kind o; o_ref := Wire.entity_ref o;
     o_op := Boundary.redact_json (Wire.op o); o_applied := applied; o_seq := seq |}.
Definition wire_key (tenant device : Uuid) (o : Wire.SyncOp) : OpKey :=
  (tenant, device, Wire.site_id o, Wire.hlc_lamport o).

Lemma insert_op_ok (tenant user device : Uuid) (o : Wire.SyncOp) (applied : bool) (log log' : Log) (n : Z) :
  insert_op new_op tenant user device o applied log = Ok (n, log') ->
  devices log' = devices log /\ next_seq log' = next_seq log + 1 /\
  existsb (fun d => N.eqb (d_id d) device) (devices log) = true /\
  (wire_key tenant device o ∈ (op_key <$> ops log) /\ n = 0 /\ ops log' = ops log \/
   ~ (wire_key tenant device o ∈ (op_key <$> ops log)) /\ n = 1 /\
   ops log' = ops log ++ [op_row tenant user device o applied (next_seq log)]).
Proof.
  unfold insert_op. destruct (existsb _ (devices log)) eqn:Hd; [|done]. cbn [negb].
  destruct (existsb _ (ops log)) eqn:Hk; intros H; inv H; (split; [done|]; split; [done|]; split; [done|]).
  - left. apply (existsb_key (wire_key tenant device o)) in Hk. done.
  - right. split; [|done]. intros Hin. apply (existsb_key (wire_key tenant device o)) in Hin.
    unfold wire_key in Hin. unfold op_key in Hk. simpl in Hk. unfold op_key in Hin. congruence.
Qed.

Lemma insert_op_again (tenant user device : Uuid) (o : Wire.SyncOp) (applied : bool) (log : Log) :
  existsb (fun d => N.eqb (d_id d) device) (devices log) = true ->
  wire_key tenant device o ∈ (op_key <$> ops log) ->
  insert_op new_op tenant user device o applied log
  = Ok (0, {| devices := devices log; ops := ops log; next_seq := next_seq log + 1 |}).
Proof.
  intros Hd Hk. unfold insert_op. rewrite Hd. cbn [negb].
  assert (existsb (fun x => bool_decide (op_key x = op_key (op_row tenant user device o applied (next_seq log))))
    (ops log) = true) as E by (by apply existsb_key).
  unfold op_row in E. by rewrite E.
Qed.

(** A push keeps every row, and leaves a row under the key of every operation. *)
Lemma push_ops_ok (tenant user device : Uuid) (l : list Wire.SyncOp) (log log' : Log) (n : Z) :
  push_ops new_op tenant user device l log = Ok (n, log') ->
  devices log' = devices log /\ next_seq log <= next_seq log' /\
  (exists more, ops log' = ops log ++ more /\ n = Z.of_nat (length more)) /\
  (forall o, o ∈ l -> wire_key tenant device o ∈ op_key <$> ops log') /\
  (l <> [] -> existsb (fun d => N.eqb (d_id d) device) (devices log) = true).
Proof.
  revert log log' n. induction l as [|o l IH]; intros log log' n; cbn [push_ops].
  - intros H. inv H. split; [done|]. split; [lia|]. split; [exists []; by rewrite app_nil_r|].
    split; [intros o Ho; inv Ho|done].
  - destruct (insert_op _ _ _ _ o _ log) as [[n1 log1]|e] eqn:Hi; [|done]. cbn [and_then].
    destruct (push_ops _ _ _ _ l log1) as [[n2 log2]|e] eqn:Hp; [|done]. cbn [and_then].
    intros H. inv H. apply insert_op_ok in Hi as (Hd & Hs & Hx & Hcase).
    destruct (IH _ _ _ Hp) as (Hd2 & Hs2 & (more & Hm & ->) & Hk2 & _).
    split; [congruence|]. split; [lia|]. split; [|split; [|done]].
    + destruct Hcase as [(_ & -> & He)|(_ & -> & He)]; rewrite He in Hm.
      * exists more. split; [done|lia].
      * eexists. rewrite <- app_assoc in Hm. split; [exact Hm|]. cbn [app length]. lia.
    + intros x Hin. apply elem_of_cons in Hin as [->|Hin]; [|auto]. rewrite Hm, fmap_app.
      apply elem_of_app. left. destruct Hcase as [(Hk & _ & He)|(_ & _ & He)]; rewrite He; [done|].
      rewrite fmap_app. apply elem_of_app. right. by left.
Qed.

Lemma push_again (tenant user device : Uuid) (l : list Wire.SyncOp) (log : Log) :
  (l <> [] -> existsb (fun d => N.eqb (d_id d) device) (devices log) = true) ->
  (forall o, o ∈ l -> wire_key tenant device o ∈ op_key <$> ops log) ->
  exists log', push_ops new_op tenant user device l log = Ok (0, log') /\
    ops log' = ops log /\ devices log' = devices log.
Proof.
  revert log. induction l as [|o l IH]; intros log Hd Hk; cbn [push_ops]; [by exists log|].
  rewrite insert_op_again; [|by apply Hd|apply Hk; left]. cbn [and_then].
  destruct (IH {| devices := devices log; ops := ops log; next_seq := next_seq log + 1 |})
    as (log' & -> & Ho & Hd'); [intros _; by apply Hd|intros x Hx; apply Hk; by right|].
  exists log'. by cbn.
Qed.
End WriteLemmas.

(** ** Properties: the log *)
Section LogProps.
Context (new_device : Log -> Uuid) (new_op : Z -> Uuid).

(** Pushing is idempotent: a push inserts each new operation once, redacted, and keeps every row;
    sent again, the same operations insert nothing and leave the table as it is. *)
Theorem push_idempotent (tenant user device : Uuid) (l : list Wire.SyncOp) (log log1 : Log) (n : Z) :
  push_ops new_op tenant user device l log = Ok (n, log1) ->
  (exists more, ops log1 = ops log ++ more /\ n = Z.of_nat (length more)) /\
  (forall o, o ∈ l -> wire_key tenant device o ∈ (op_key <$> ops log1)) /\
  exists log2, push_ops new_op tenant user device l log1 = Ok (0, log2) /\ ops log2 = ops log1 /\
    devices log2 = devices log.
Proof.
  intros Hp. apply push_ops_ok in Hp as (Hd & _ & Hm & Hk & Hx). split; [done|]. split; [done|].
  rewrite <- Hd in Hx |- *. by apply push_again.
Qed.

Lemma max_of_ge (f : OpRow -> Z) (d : Z) (l : list OpRow) :
  d <= max_of f d l /\ forall o, o ∈ l -> f o <= max_of f d l.
Proof.
  induction l as [|x l [IH1 IH2]]; simpl; (split; [lia|]); intros o Ho; [inv Ho|].
  apply elem_of_cons in Ho as [->|Ho]; [lia|]. specialize (IH2 o Ho). lia.
Qed.

Lemma max_of_in (f : OpRow -> Z) (o : OpRow) (l : list OpRow) :
  exists x, x ∈ o :: l /\ max_of f (f o) l = f x.
Proof.
  induction l as [|y l (x & Hx & IH)]; simpl; [exists o; by split; [left|]|].
  destruct (Z.max_spec (f y) (max_of f (f o) l)) as [[_ ->]|[_ ->]].
  - exists x. split; [|done]. apply elem_of_cons in Hx as [->|Hx]; [left|right; by right].
  - exists y. split; [right; left|done].
Qed.

Lemma next_lamport_spec (tenant : Uuid) (log : Log) :
  match next_lamport tenant log with
  | Ok n => n <= Int.i64_max /\ forall o, o ∈ ops log -> o_tenant o = tenant -> o_lamport o < n
  | Err _ => exists o, o ∈ ops log /\ o_tenant o = tenant /\ Int.i64_max <= o_lamport o
  end.
Proof.
  unfold next_lamport.
  destruct (filter _ (ops log)) as [|o l] eqn:Hf.
  - cbn. split; [unfold Int.i64_max; lia|]. intros o Ho Ht.
    assert (o ∈ filter (fun o => of_tenant tenant o = true) (ops log)) as Hin
      by (apply list_elem_of_filter; split; [unfold of_tenant; by apply N.eqb_eq|done]).
    rewrite Hf in Hin. inv Hin.
  - destruct (max_of_in o_lamport o l) as (x & Hx & Hmax). rewrite <- Hf in Hx.
    apply list_elem_of_filter in Hx as [Ht Hx]. apply N.eqb_eq in Ht. case_bool; bool_prop.
    + split; [done|]. intros y Hy Hty.
      assert (y ∈ o :: l) as Hin.
      { rewrite <- Hf. apply list_elem_of_filter. split; [unfold of_tenant; by apply N.eqb_eq|done]. }
      destruct (max_of_ge o_lamport (o_lamport o) l) as [G1 G2].
      apply elem_of_cons in Hin as [->|Hin]; [lia|]. specialize (G2 y Hin). lia.
    + exists x. split; [done|]. split; [done|]. lia.
Qed.

Lemma server_device_ok (tenant user : Uuid) (log : Log) :
  let '(i, log') := server_device new_device tenant user log in
  ops log' = ops log /\ next_seq log' = next_seq log /\
  existsb (fun d => N.eqb (d_id d) i) (devices log') = true.
Proof.
  unfold server_device. destruct (find_first _ (devices log)) as [d|] eqn:Hf.
  - split; [done|]. split; [done|]. apply existsb_exists. exists d.
    split; [apply list_elem_of_In, (find_first_some _ _ _ Hf)|apply N.eqb_refl].
  - split; [done|]. split; [done|]. cbn. rewrite existsb_app. cbn. by rewrite N.eqb_refl, orb_true_r.
Qed.

Lemma emit_op_adds (wall_ms : Z) (tenant user : Uuid) (kind reff : string) (op : Value) (log log' : Log) :
  emit_op new_device new_op wall_ms tenant user kind reff op log = Ok log' ->
  exists row, ops log' = ops log ++ [row] /\ o_tenant row = tenant /\ o_site row = 0 /\
    o_applied row = true /\ o_kind row = kind /\ o_ref row = reff /\
    o_op row = Boundary.redact_json op /\ o_seq row = next_seq log /\ o_lamport row <= Int.i64_max /\
    forall o, o ∈ ops log -> o_tenant o = tenant -> o_lamport o < o_lamport row.
Proof.
  unfold emit_op. pose proof (server_device_ok tenant user log) as Hs.
  destruct (server_device new_device tenant user log) as [dev log1]. destruct Hs as (Ho & Hn & _).
  pose proof (next_lamport_spec tenant log1) as Hl.
  destruct (next_lamport tenant log1) as [lam|e]; cbn [and_then]; [|done]. rewrite Ho in Hl.
  destruct (insert_op _ _ _ _ _ _ log1) as [[n log2]|e] eqn:Hi; cbn [and_then]; [|done]. intros [= <-].
  apply insert_op_ok in Hi as (_ & _ & _ & [(Hk & _)|(_ & _ & He)]).
  - exfalso. apply list_elem_of_fmap in Hk as (x & Hkx & Hx). rewrite Ho in Hx.
    unfold wire_key, op_key in Hkx. injection Hkx as H1 _ _ H4.
    destruct Hl as [_ Hl]. specialize (Hl x Hx (eq_sym H1)). simpl in H4. lia.
  - rewrite Ho in He. destruct Hl as [Hl1 Hl2]. eexists. split; [exact He|]. repeat split; auto.
Qed.

(** An operation of the server is never dropped: emitting adds exactly one row, already applied,
    with a logical time above every time of the tenant, so its conflict clause cannot fire; and the one
    way to fail is that some operation of the tenant carries the largest logical time there is, which
    any client may push. *)
Theorem emit_never_dropped (wall_ms : Z) (tenant user : Uuid) (kind reff : string) (op : Value) (log : Log) :
  match emit_op new_device new_op wall_ms tenant user kind reff op log with
  | Ok log' =>
      exists row, ops log' = ops log ++ [row] /\ o_tenant row = tenant /\ o_site row = 0 /\
        o_applied row = true /\ o_kind row = kind /\ o_ref row = reff /\
        o_op row = Boundary.redact_json op /\ o_seq row = next_seq log /\ o_lamport row <= Int.i64_max /\
        forall o, o ∈ ops log -> o_tenant o = tenant -> o_lamport o < o_lamport row
  | Err _ => exists o, o ∈ ops log /\ o_tenant o = tenant /\ Int.i64_max <= o_lamport o
  end.
Proof.
  destruct (emit_op _ _ _ _ _ _ _ _ _) as [log'|e] eqn:He; [by apply emit_op_adds in He|].
  unfold emit_op in He. pose proof (server_device_ok tenant user log) as Hs.
  destruct (server_device new_device tenant user log) as [dev log1]. destruct Hs as (Ho & _ & Hd).
  pose proof (next_lamport_spec tenant log1) as Hl. rewrite Ho in Hl.
  destruct (next_lamport tenant log1) as [lam|e']; cbn [and_then] in He; [|exact Hl].
  unfold insert_op in He. by rewrite Hd in He.
Qed.
End LogProps.

(** ** Properties: well-formedness *)
Section Wellformed.
Context (new_device : Log -> Uuid) (new_op : Z -> Uuid).

Definition site_key (d : Device) : Uuid * Z := (d_tenant d, d_site d).

(** The constraints of both tables: keys and numbers are unique, numbers lie below the next one, a
    tenant's sites are unique, and only the server has site 0. *)
Record log_wf (log : Log) : Prop := {
  wf_keys : NoDup (op_key <$> ops log);
  wf_seqs : NoDup (o_seq <$> ops log);
  wf_next : Forall (fun o => 1 <= o_seq o < next_seq log) (ops log);
  wf_sites : NoDup (site_key <$> devices log);
  wf_site_range : Forall (fun d => 0 <= d_site d) (devices log);
  wf_start : 1 <= next_seq log;
}.

Inductive Request : Type :=
| Register (tenant user : Uuid) (platform name : string)
| Push (tenant user device : Uuid) (l : list Wire.SyncOp)
| Emit (wall_ms : Z) (tenant user : Uuid) (kind reff : string) (op : Value).

(** A request commits or leaves the log as it was. *)
Definition run_request (r : Request) (log : Log) : Log :=
  match r with
  | Register tenant user platform name =>
      match register_device new_device tenant user platform name log with
      | Ok (_, log) => log
      | Err _ => log
      end
  | Push tenant user device l =>
      match push_ops new_op tenant user device l log with Ok (_, log) => log | Err _ => log end
  | Emit wall_ms tenant user kind reff op =>
      match emit_op new_device new_op wall_ms tenant user kind reff op log with
      | Ok log => log
      | Err _ => log
      end
  end.

Lemma wf_insert (tenant user device : Uuid) (o : Wire.SyncOp) (applied : bool) (log log' : Log) (n : Z) :
  log_wf log -> insert_op new_op tenant user device o applied log = Ok (n, log') -> log_wf log'.
Proof.
  intros [H1 H2 H3 H4 H5 H6] Hi. apply insert_op_ok in Hi as (Hd & Hs & _ & Hcase).
  assert (Forall (fun o => 1 <= o_seq o < next_seq log') (ops log)) as H3'
    by (eapply Forall_impl; [exact H3|]; cbn; lia).
  destruct Hcase as [(_ & _ & He)|(Hk & _ & He)].
  - constructor; rewrite ?He, ?Hd, ?Hs; try done; [by rewrite Hs in H3'|lia].
  - constructor; rewrite ?He, ?Hd; try done; [| | |lia].
    + rewrite fmap_app. apply NoDup_app. split; [done|]. split; [|apply NoDup_singleton].
      intros x Hx Hin. apply list_elem_of_singleton in Hin as ->. by apply Hk.
    + rewrite fmap_app. apply NoDup_app. split; [done|]. split; [|apply NoDup_singleton].
      intros x Hx Hin. apply list_elem_of_singleton in Hin as ->. cbn in Hx.
      apply list_elem_of_fmap in Hx as (y & Hy & Hyin). eapply Forall_forall in H3; [|exact Hyin]. lia.
    + apply Forall_app. split; [done|]. repeat constructor; cbn; lia.
Qed.

Lemma wf_push (tenant user device : Uuid) (l : list Wire.SyncOp) (log log' : Log) (n : Z) :
  log_wf log -> push_ops new_op tenant user device l log = Ok (n, log') -> log_wf log'.
Proof.
  revert log n. induction l as [|o l IH]; intros log n Hwf; cbn [push_ops]; [by intros H; inv H|].
  destruct (insert_op _ _ _ _ o _ log) as [[n1 log1]|e] eqn:Hi; [|done]. cbn [and_then].
  destruct (push_ops _ _ _ _ l log1) as [[n2 log2]|e] eqn:Hp; [|done]. cbn [and_then].
  intros H. inv H. eapply IH; [|exact Hp]. by eapply wf_insert.
Qed.

Lemma wf_device (d : Device) (log : Log) :
  log_wf log -> 0 <= d_site d -> site_key d ∉ (site_key <$> devices log) -> log_wf (with_device d log).
Proof.
  intros [H1 H2 H3 H4 H5 H6] Hr Hd. constructor; try done; cbn.
  - rewrite fmap_app. apply NoDup_app. split; [done|]. split; [|apply NoDup_singleton].
    intros x Hx Hin. by apply list_elem_of_singleton in Hin as ->.
  - apply Forall_app. split; [done|]. by constructor.
Qed.

Lemma next_site_above (tenant : Uuid) (log : Log) :
  (forall d, d ∈ devices log -> d_tenant d = tenant -> d_site d < next_site tenant log) /\
  (Forall (fun d => 0 <= d_site d) (devices log) -> 1 <= next_site tenant log).
Proof.
  unfold next_site. destruct (filter _ (devices log)) as [|x l] eqn:Hf.
  - split; [|lia]. intros d Hd Ht.
    assert (d ∈ filter (fun d => d_tenant d = tenant) (devices log)) as Hin by (by apply list_elem_of_filter; split).
    rewrite Hf in Hin. inv Hin.
  - assert (forall l s, s <= foldr (fun d m => Z.max (d_site d) m) s l /\
      forall d, d ∈ l -> d_site d <= foldr (fun d m => Z.max (d_site d) m) s l) as Hmax.
    { induction l0 as [|y k IH]; intros s; cbn; [by split; [lia|intros d Hd; inv Hd]|].
      destruct (IH s) as [IH1 IH2]. split; [lia|]. intros d Hd.
      apply elem_of_cons in Hd as [->|Hd]; [lia|]. specialize (IH2 d Hd). lia. }
    destruct (Hmax l (d_site x)) as [M1 M2]. split.
    + intros d Hd Ht. assert (d ∈ x :: l) as Hin by (rewrite <- Hf; apply list_elem_of_filter; by split).
      apply elem_of_cons in Hin as [->|Hin]; [lia|]. specialize (M2 d Hin). lia.
    + intros Hall. assert (x ∈ devices log) as Hx.
      { assert (x ∈ filter (fun d => d_tenant d = tenant) (devices log)) as Hin by (rewrite Hf; left).
        by apply list_elem_of_filter in Hin as [_ Hin]. }
      eapply Forall_forall in Hall; [|exact Hx]. lia.
Qed.

Lemma wf_server (tenant user : Uuid) (log : Log) :
  log_wf log -> log_wf (snd (server_device new_device tenant user log)).
Proof.
  intros Hwf. unfold server_device. destruct (find_first _ _) eqn:Hf; [done|]. cbn [snd].
  apply wf_device; [done|cbn; lia|]. intros Hin. apply list_elem_of_fmap in Hin as (d & Hk & Hd).
  pose proof (proj1 (find_first_none _ _) Hf d Hd) as Hno. unfold server_site in Hno.
  injection Hk as H1 H2. cbn in H1, H2. by rewrite <- H1, <- H2, N.eqb_refl in Hno.
Qed.

Lemma wf_request (r : Request) (log : Log) : log_wf log -> log_wf (run_request r log).
Proof.
  intros Hwf. destruct r as [t u p nm|t u dv l|w t u k rf o]; cbn [run_request].
  - unfold register_device. destruct (find_first _ (devices log)) eqn:Hf; [done|].
    destruct (existsb _ (devices log)) eqn:Hx; [done|].
    destruct (next_site_above t log) as [Ha Hr].
    apply wf_device; [done|cbn; specialize (Hr (wf_site_range _ Hwf)); lia|].
    intros Hin. apply list_elem_of_fmap in Hin as (d & Hk & Hd). injection Hk as H1 H2. cbn in H1, H2.
    specialize (Ha d Hd (eq_sym H1)). lia.
  - destruct (push_ops _ _ _ _ l log) as [[n log']|e] eqn:Hp; [|done]. by eapply wf_push.
  - destruct (emit_op _ _ _ _ _ _ _ _ log) as [log'|e] eqn:He; [|done]. revert He. unfold emit_op.
    pose proof (wf_server t u log Hwf) as Hs.
    destruct (server_device new_device t u log) as [dev log1]. cbn [snd] in Hs.
    destruct (next_lamport t log1); cbn [and_then]; [|done].
    destruct (insert_op _ _ _ _ _ _ log1) as [[n log2]|e] eqn:Hi; cbn [and_then]; [|done].
    intros H. inv H. by eapply wf_insert.
Qed.

(** C38: whatever requests arrive, the log stays well formed: no two operations share their key or
    their number, numbers stay below the next one, sites are unique in their tenant and never negative;
    a device registered again gets the site it had, and its site is never the server's. *)
Theorem log_wellformed (rs : list Request) (log : Log) :
  log_wf log ->
  log_wf (foldl (fun log r => run_request r log) log rs) /\
  forall tenant user platform name reg log',
    register_device new_device tenant user platform name log = Ok (reg, log') ->
    (forall d, d ∈ devices log -> d_name d = Some name -> d_platform d = platform -> d_site d <> 0) ->
    1 <= reg_site reg /\
    register_device new_device tenant user platform name log' = Ok (reg, log') /\
    exists d, d ∈ devices log' /\ d_id d = device_id reg /\ d_site d = reg_site reg /\ d_tenant d = tenant.
Proof.
  intros Hwf. split.
  - revert log Hwf. induction rs as [|r rs IH]; intros log Hwf; [done|]. apply IH. by apply wf_request.
  - intros t u p nm reg log'. unfold register_device.
    destruct (find_first _ (devices log)) as [d|] eqn:Hf.
    + intros H Hz. inv H. rewrite Hf. apply find_first_some in Hf as [Hd Hm].
      rewrite !andb_true_iff, !N.eqb_eq, String.eqb_eq, bool_decide_eq_true in Hm.
      destruct Hm as [[[Ht Hu] Hpl] Hn]. pose proof (wf_site_range _ Hwf) as Hr.
      eapply Forall_forall in Hr; [|exact Hd]. specialize (Hz d Hd Hn Hpl). cbn in *.
      split; [lia|]. split; [done|]. by exists d.
    + destruct (existsb _ (devices log)); [done|]. intros H _. inv H.
      destruct (next_site_above t log) as [_ Hr]. specialize (Hr (wf_site_range _ Hwf)).
      split; [exact Hr|]. split.
      * cbn [devices with_device]. rewrite find_first_app, Hf. cbn [opt_or find_first].
        cbn. rewrite !N.eqb_refl, String.eqb_refl, bool_decide_eq_true_2 by done. done.
      * eexists. split; [apply elem_of_app; right; left|]. done.
Qed.
End Wellformed.

(** ** Properties: pulling *)
Section FeedProps.
Context (tenant : Uuid).
Import Feed.

Definition mine (log : Log) (o : OpRow) : Prop := o ∈ ops log /\ o_tenant o = tenant.

Lemma mine_filter (log : Log) (o : OpRow) :
  o ∈ filter (fun o => of_tenant tenant o = true) (ops log) <-> mine log o.
Proof. rewrite list_elem_of_filter. unfold of_tenant, mine. rewrite N.eqb_eq. tauto. Qed.

Lemma since_elem (since : Z) (log : Log) (o : OpRow) :
  o ∈ rows_since_seq tenant since log <-> mine log o /\ since < o_seq o.
Proof.
  unfold rows_since_seq. rewrite sort_by_perm, list_elem_of_filter. unfold of_tenant, mine.
  rewrite andb_true_iff, N.eqb_eq, Z.ltb_lt. tauto.
Qed.

Lemma cursor_spec (log : Log) :
  (forall o, mine log o -> o_seq o <= tenant_cursor tenant log) /\
  (tenant_cursor tenant log = 0 \/ exists o, mine log o /\ o_seq o = tenant_cursor tenant log).
Proof.
  unfold tenant_cursor. pose proof (mine_filter log) as Hm.
  destruct (filter _ (ops log)) as [|o l].
  - split; [|by left]. intros x Hx. apply Hm in Hx. inv Hx.
  - destruct (max_of_ge o_seq (o_seq o) l) as [M1 M2]. split.
    + intros x Hx. apply Hm, elem_of_cons in Hx as [->|Hx]; auto.
    + right. destruct (max_of_in o_seq o l) as (x & Hx & He). exists x. by split; [apply Hm|].
Qed.

(** The transactions with uncommitted rows. *)
Definition writers (u : list (list OpRow)) : nat := length (filter (fun t => t <> []) u).

(** What the lock keeps: uncommitted numbers lie above every committed one and every cursor read. *)
Record feed_inv (s : State) : Prop := {
  fi_next : Forall (fun o => 1 <= o_seq o < next_seq (committed s)) (ops (committed s));
  fi_pos : 0 <= cursor s < next_seq (committed s);
  fi_one : (writers (uncommitted s) <= 1)%nat;
  fi_above : forall tx row, tx ∈ uncommitted s -> row ∈ tx ->
    o_tenant row = tenant /\ 1 <= o_seq row < next_seq (committed s) /\ cursor s < o_seq row /\
    (forall c, reading s = Some c -> c < o_seq row) /\ forall o, mine (committed s) o -> o_seq o < o_seq row;
  fi_reading : forall c, reading s = Some c -> 0 <= c < next_seq (committed s);
  fi_seen : forall o, mine (committed s) o -> o_seq o <= cursor s -> o ∈ seen s;
  fi_real : forall o, o ∈ seen s -> mine (committed s) o;
}.

Lemma feed_init (log : Log) :
  1 <= next_seq log -> Forall (fun o => 1 <= o_seq o < next_seq log) (ops log) -> feed_inv (init log).
Proof.
  intros Hn Hf. constructor; cbn; try done; try lia.
  - intros tx row Htx. inv Htx.
  - intros o [Ho _] Hs. eapply Forall_forall in Hf; [|exact Ho]. cbn in Hf. lia.
  - intros o Ho. inv Ho.
Qed.

Lemma writers_middle (before after : list (list OpRow)) (tx : list OpRow) :
  writers (before ++ tx :: after) = (writers (before ++ after) + if decide (tx = []) then 0 else 1)%nat.
Proof.
  unfold writers. rewrite !filter_app, filter_cons, !length_app.
  destruct (decide (tx = [])) as [->|Hne].
  - rewrite decide_False by (intros H; by apply H). lia.
  - rewrite decide_True by done. cbn. lia.
Qed.

Lemma writers_none (u : list (list OpRow)) :
  writers u = 0%nat <-> forall tx row, tx ∈ u -> row ∈ tx -> False.
Proof.
  unfold writers. split.
  - intros H tx row Htx Hr. apply length_zero_iff_nil in H.
    assert (tx ∈ filter (fun t => t <> []) u) as Hin
      by (apply list_elem_of_filter; split; [by intros ->; inv Hr|done]).
    rewrite H in Hin. inv Hin.
  - intros H. destruct (filter _ u) as [|tx l] eqn:Hf; [done|]. exfalso.
    assert (tx ∈ filter (fun t => t <> []) u) as Hin by (rewrite Hf; left).
    apply list_elem_of_filter in Hin as [Hne Hin]. destruct tx as [|r tx]; [done|].
    apply (H _ r Hin). left.
Qed.

Lemma feed_inv_insert (before after : list (list OpRow)) (tx : list OpRow) (row : OpRow) (s : State) :
  uncommitted s = before ++ tx :: after -> Forall (fun t => t = []) (before ++ after) ->
  o_tenant row = tenant -> o_seq row = next_seq (committed s) -> feed_inv s ->
  feed_inv {| committed := set_next (next_seq (committed s) + 1) (committed s);
              uncommitted := before ++ (tx ++ [row]) :: after;
              reading := reading s; cursor := cursor s; seen := seen s |}.
Proof.
  intros Hu Hnil Ht Hs [H1 H2 H3 H4 H5 H6 H7]. rewrite Hu in H3, H4.
  assert (writers (before ++ after) = 0%nat) as Hw.
  { apply writers_none. intros t r Hin Hr. eapply Forall_forall in Hnil; [|exact Hin]. subst t. inv Hr. }
  constructor; cbn [committed uncommitted reading cursor seen set_next ops next_seq devices]; try done.
  - eapply Forall_impl; [exact H1|]. cbn. lia.
  - lia.
  - rewrite writers_middle, Hw. destruct (decide _); lia.
  - intros t r Hin Hr. apply elem_of_app in Hin. rewrite elem_of_cons in Hin.
    assert (t = tx ++ [row] \/ t ∈ before ++ after) as [->|Hin'] by (rewrite elem_of_app; tauto);
      [|by destruct (proj1 (writers_none _) Hw t r Hin' Hr)].
    apply elem_of_app in Hr as [Hr|Hr].
    + assert (tx ∈ before ++ tx :: after) as Htx by (apply elem_of_app; right; left).
      destruct (H4 tx r Htx Hr) as (G1 & G2 & G3 & G4 & G5). repeat split; auto; lia.
    + apply list_elem_of_singleton in Hr as ->. rewrite Hs. repeat split; try lia; try done.
      * intros c Hc. apply H5 in Hc. lia.
      * intros o [Ho _]. eapply Forall_forall in H1; [|exact Ho]. cbn in H1. lia.
  - intros c Hc. apply H5 in Hc. lia.
Qed.

Lemma feed_inv_commit (before after : list (list OpRow)) (tx : list OpRow) (s : State) :
  uncommitted s = before ++ tx :: after -> feed_inv s ->
  feed_inv {| committed := append tx (committed s); uncommitted := before ++ after;
              reading := reading s; cursor := cursor s; seen := seen s |}.
Proof.
  intros Hu [H1 H2 H3 H4 H5 H6 H7]. rewrite Hu in H3, H4. rewrite writers_middle in H3.
  assert (forall r, r ∈ tx -> tx ∈ before ++ tx :: after) as Htx
    by (intros r _; apply elem_of_app; right; left).
  constructor; cbn [committed uncommitted reading cursor seen append ops next_seq devices]; try done.
  - apply Forall_app. split; [done|]. apply Forall_forall. intros r Hr.
    by destruct (H4 tx r (Htx r Hr) Hr) as (_ & G2 & _).
  - lia.
  - intros t r Hin Hr.
    assert (t ∈ before ++ tx :: after) as Hin' by (rewrite elem_of_app in Hin |- *; rewrite elem_of_cons; tauto).
    destruct (H4 t r Hin' Hr) as (G1 & G2 & G3 & G4 & G5). repeat split; auto; try lia.
    intros o [Ho Ht]. apply elem_of_app in Ho as [Ho|Ho]; [by apply G5|]. exfalso.
    destruct (decide (tx = [])) as [->|Hne]; [inv Ho|].
    assert (writers (before ++ after) = 0%nat) as Hw by lia.
    by apply (proj1 (writers_none _) Hw t r).
  - intros o [Ho Ht] Hc. apply elem_of_app in Ho as [Ho|Ho]; [by apply H6|].
    destruct (H4 tx o (Htx o Ho) Ho) as (_ & _ & G3 & _). lia.
  - intros o Ho. destruct (H7 o Ho) as [G1 G2]. split; [|done]. apply elem_of_app. by left.
Qed.

Lemma feed_inv_step (s s' : State) : step tenant true s s' -> feed_inv s -> feed_inv s'.
Proof.
  intros Hs Hi. destruct Hs as [before after tx row s Hu Hx Ht Hq|s|before after tx s Hu|before after tx s Hu|s Hr|c s Hr].
  - by eapply feed_inv_insert; eauto.
  - destruct Hi as [H1 H2 H3 H4 H5 H6 H7]. constructor; cbn; try done.
    intros t r Hin Hr. apply elem_of_cons in Hin as [->|Hin]; [inv Hr|by eapply H4].
  - by eapply feed_inv_commit.
  - destruct Hi as [H1 H2 H3 H4 H5 H6 H7]. rewrite Hu in H3, H4. rewrite writers_middle in H3.
    constructor; cbn [committed uncommitted reading cursor seen]; try done; [destruct (decide (tx = [])); lia|]. intros t r Hin Hr. apply (H4 t r); [|done].
    rewrite elem_of_app in Hin |- *. rewrite elem_of_cons. tauto.
  - destruct Hi as [H1 H2 H3 H4 H5 H6 H7]. destruct (cursor_spec (committed s)) as [C1 C2].
    assert (0 <= tenant_cursor tenant (committed s) < next_seq (committed s)) as Hc.
    { destruct C2 as [->|(o & [Ho _] & <-)]; [lia|]. eapply Forall_forall in H1; [|exact Ho]. cbn in H1. lia. }
    constructor; cbn; try done.
    + intros t r Hin Hr'. destruct (H4 t r Hin Hr') as (G1 & G2 & G3 & _ & G5). repeat split; auto; try lia.
      intros c Hc'. inv Hc'. destruct C2 as [->|(o & Ho & <-)]; [lia|by apply G5].
    + intros c Hc'. by inv Hc'.
  - destruct Hi as [H1 H2 H3 H4 H5 H6 H7]. constructor; cbn; try done.
    + exact (H5 c Hr).
    + intros t r Hin Hr'. destruct (H4 t r Hin Hr') as (G1 & G2 & _ & G4 & G5). repeat split; auto; try lia.
      done.
    + intros o Ho _. apply elem_of_app. destruct (Z.le_gt_cases (o_seq o) (cursor s)); [left; by apply H6|].
      right. apply since_elem. split; [done|lia].
    + intros o Ho. apply elem_of_app in Ho as [Ho|Ho]; [by apply H7|]. by apply since_elem in Ho as [Ho _].
Qed.

End FeedProps.

(** ** Examples and witnesses *)
Definition demo_device (log : Log) : Uuid := (100 + N.of_nat (length (devices log)))%N.
Definition demo_op_id (n : Z) : Uuid := Z.to_N n.
Definition empty_log : Log := {| devices := []; ops := []; next_seq := 1 |}.
Definition phone : Device :=
  {| d_id := 7%N; d_tenant := 1%N; d_user := 2%N; d_platform := "ios"; d_name := Some "phone"; d_site := 1 |}.
Definition phone_log : Log := {| devices := [phone]; ops := []; next_seq := 1 |}.
Definition demo_op (lamport : Z) (reff : string) : Wire.SyncOp :=
  {| Wire.hlc_wall_ms := 10; Wire.hlc_lamport := lamport; Wire.site_id := 1; Wire.entity_kind := "wiki_page";
     Wire.entity_ref := reff; Wire.op := Object [("set_title", String_ "T")] |}.

(** Registering under the server's name hands the reserved site to the user whose capture came first. *)
Example register_as_server :
  let '(dev, log) := server_device demo_device 1%N 2%N phone_log in
  match register_device demo_device 1%N 2%N "server" "server" log with
  | Ok (reg, _) => device_id reg = dev /\ reg_site reg = 0
  | Err _ => False
  end.
Proof. vm_compute. by split. Qed.

(** One operation at the largest logical time, and the tenant's next emit, so its next capture, fails. *)
Example largest_lamport_blocks_emits :
  match push_ops demo_op_id 1%N 2%N 7%N [demo_op Int.i64_max "p"] phone_log with
  | Ok (_, log) =>
      emit_op demo_device demo_op_id 20 1%N 2%N "idea" "i" Null log = Err "bigint out of range"
  | Err _ => False
  end.
Proof. vm_compute. reflexivity. Qed.

Lemma push_idempotent_witness :
  exists log, push_ops demo_op_id 1%N 2%N 7%N [demo_op 1 "p"; demo_op 2 "q"; demo_op 1 "p"] phone_log = Ok (2, log) /\
    exists log2, push_ops demo_op_id 1%N 2%N 7%N [demo_op 1 "p"; demo_op 2 "q"; demo_op 1 "p"] log = Ok (0, log2) /\
      ops log2 = ops log.
Proof.
  destruct (push_ops demo_op_id 1%N 2%N 7%N [demo_op 1 "p"; demo_op 2 "q"; demo_op 1 "p"] phone_log)
    as [[n log]|e] eqn:E; [|vm_compute in E; discriminate].
  destruct (push_idempotent demo_op_id 1%N 2%N 7%N _ phone_log log n E) as (_ & _ & log2 & H1 & H2 & _).
  exists log. split; [vm_compute in E |- *; by injection E as <- _|]. by exists log2.
Defined.

Lemma phone_log_wf : log_wf phone_log.
Proof.
  constructor; cbn; [apply NoDup_nil_2|apply NoDup_nil_2|constructor|apply NoDup_singleton| |lia].
  by repeat constructor.
Qed.

Lemma log_wellformed_witness :
  log_wf (foldl (fun log r => run_request demo_device demo_op_id r log) phone_log
    [Push 1%N 2%N 7%N [demo_op 1 "p"]; Register 1%N 2%N "android" "tablet"; Emit 20 1%N 2%N "idea" "i" Null]).
Proof. apply (log_wellformed demo_device demo_op_id). exact phone_log_wf. Defined.

(** Two transactions: the second number commits first. *)
Definition row_of (seq : Z) : OpRow := op_row demo_op_id 1%N 2%N 7%N (demo_op seq "p") false seq.
Definition after_overtake : Feed.State :=
  {| Feed.committed := {| devices := [phone]; ops := [row_of 2; row_of 1]; next_seq := 3 |};
     Feed.uncommitted := []; Feed.reading := None; Feed.cursor := 2; Feed.seen := [row_of 2] |}.

(** Without the lock, as between two pushes or a push and a capture, a number drawn first and committed
    last is below the client's cursor when it appears: the client never receives the operation. *)
Example overtaken_op_is_lost :
  rtc (Feed.step 1%N false) (Feed.init phone_log) after_overtake /\
  row_of 1 ∈ ops (Feed.committed after_overtake) /\
  rows_since_seq 1%N (Feed.cursor after_overtake) (Feed.committed after_overtake) = [].
Proof.
  split; [|split; [right; left|vm_compute; reflexivity]].
  eapply rtc_l; [apply Feed.Begin|]. eapply rtc_l; [apply Feed.Begin|]. cbn.
  eapply rtc_l; [apply (Feed.Insert _ _ [] [[]] [] (row_of 1)); done|]. cbn.
  eapply rtc_l; [apply (Feed.Insert _ _ [[row_of 1]] [] [] (row_of 2)); done|]. cbn.
  eapply rtc_l; [apply (Feed.Commit _ _ [[row_of 1]] [] [row_of 2]); done|].
  eapply rtc_l; [apply Feed.ReadCursor; done|].
  eapply rtc_l; [apply (Feed.ReadOps _ _ 2); vm_compute; reflexivity|].
  eapply rtc_l; [apply (Feed.Commit _ _ [] [] [row_of 1]); done|].
  vm_compute. apply rtc_refl.
Qed.

