(* ===== verification/Ideas.v ===== *)
(** * Captured ideas

    The table [ideas] and the statements of [store/src/ideas_repo.rs] on it: the count of captures since
    a time, the ingest states, the stamp of the last ingest and the scan for captures to ingest again. A
    trigger sets [updated_at] on every update. Times are microseconds, [now()] the start of the
    transaction, the same for all its statements. *)
From S2P Require Import Prelude RustStr Json Wiki.
From stdpp Require Import list.
From Stdlib Require Import SpecFloat.

#[local] Open Scope string_scope.
#[local] Open Scope list_scope.
#[local] Open Scope Z_scope.

(* src/qcue-rs/migrations/00000_M0_0000_prelude.sql 61-61 ingest_state *)
Inductive IngestState : Type := Pending | Ingesting | Ingested | SkippedRedundant | Failed.
#[export] Instance IngestState_eq_dec : EqDecision IngestState.
Proof. solve_decision. Defined.
(** The cast [text::ingest_state]. *)
Definition ingest_state_of (s : string) : option IngestState :=
  if String.eqb s "pending" then Some Pending
  else if String.eqb s "ingesting" then Some Ingesting
  else if String.eqb s "ingested" then Some Ingested
  else if String.eqb s "skipped_redundant" then Some SkippedRedundant
  else if String.eqb s "failed" then Some Failed
  else None.
(** [kind::idea_kind]. *)
Definition idea_kind (s : string) : bool :=
  String.eqb s "text" || String.eqb s "voice" || String.eqb s "clip".

(* src/qcue-rs/migrations/20003_M2_0003_ideas.sql 13-31 ideas *)
Record IdeaRow : Type := {
  i_id : Uuid;
  i_tenant : Uuid;
  i_user : Uuid;
  i_kind : string;
  i_body : string;
  i_source_url : option string;
  i_log_ref : string;
  i_provider : option string;
  i_state : IngestState;
  i_job : option Uuid;
  i_origin : string;
  i_captured_at : Z;
  i_active : bool;
  i_updated_at : Z;
  i_last_ingested : option Z;
  i_idem : option string;
  i_lat : option Float;
  i_lng : option Float;
  i_accuracy : option Float;
}.

(** [UPDATE]s, with the trigger. *)
Definition touch (now : Z) (st : IngestState) (job : option Uuid) (active : bool) (last : option Z)
  (body : string) (lat lng acc : option Float) (r : IdeaRow) : IdeaRow :=
  {| i_id := i_id r; i_tenant := i_tenant r; i_user := i_user r; i_kind := i_kind r; i_body := body;
     i_source_url := i_source_url r; i_log_ref := i_log_ref r; i_provider := i_provider r; i_state := st;
     i_job := job; i_origin := i_origin r; i_captured_at := i_captured_at r; i_active := active;
     i_updated_at := now; i_last_ingested := last; i_idem := i_idem r; i_lat := lat; i_lng := lng;
     i_accuracy := acc |}.
Definition set_state (now : Z) (st : IngestState) (r : IdeaRow) : IdeaRow :=
  touch now st (i_job r) (i_active r) (i_last_ingested r) (i_body r) (i_lat r) (i_lng r) (i_accuracy r) r.
Definition set_stamp (now : Z) (r : IdeaRow) : IdeaRow :=
  touch now (i_state r) (i_job r) (i_active r) (Some now) (i_body r) (i_lat r) (i_lng r) (i_accuracy r) r.
Definition set_job (now : Z) (job : Uuid) (r : IdeaRow) : IdeaRow :=
  touch now (i_state r) (Some job) (i_active r) (i_last_ingested r) (i_body r) (i_lat r) (i_lng r)
    (i_accuracy r) r.
Definition set_inactive (now : Z) (r : IdeaRow) : IdeaRow :=
  touch now (i_state r) (i_job r) false (i_last_ingested r) (i_body r) (i_lat r) (i_lng r) (i_accuracy r) r.
(** [SET body=$2, lat=COALESCE($3,lat), ...] *)
Definition set_body (now : Z) (body : string) (lat lng acc : option Float) (r : IdeaRow) : IdeaRow :=
  touch now (i_state r) (i_job r) (i_active r) (i_last_ingested r) body (opt_or lat (i_lat r))
    (opt_or lng (i_lng r)) (opt_or acc (i_accuracy r)) r.
(** [SET lat=..., last_ingested_at = GREATEST(last_ingested_at, now())]; [GREATEST] passes over NULL. *)
Definition set_location (now : Z) (lat lng acc : option Float) (r : IdeaRow) : IdeaRow :=
  touch now (i_state r) (i_job r) (i_active r)
    (Some (match i_last_ingested r with Some t => Z.max t now | None => now end)) (i_body r)
    (opt_or lat (i_lat r)) (opt_or lng (i_lng r)) (opt_or acc (i_accuracy r)) r.

Definition update_ideas (p : IdeaRow -> bool) (f : IdeaRow -> IdeaRow) (l : list IdeaRow) : list IdeaRow :=
  (fun r => if p r then f r else r) <$> l.
Definition own (tenant i : Uuid) (r : IdeaRow) : bool := N.eqb (i_tenant r) tenant && N.eqb (i_id r) i.

(** ** The repository *)
Module IdeasRepo.
(* src/qcue-rs/store/src/ideas_repo.rs 18-38 captures_since *)
Definition captures_since (tenant : Uuid) (since : Z) (current_session : Uuid) (l : list IdeaRow) : Z :=
  Z.of_nat (length (filter (fun r => N.eqb (i_tenant r) tenant && (since <? i_captured_at r)
    && (bool_decide (i_job r = None) || negb (bool_decide (i_job r = Some current_session)))
    && i_active r = true) l)).

(* src/qcue-rs/store/src/ideas_repo.rs 41-52 set_ingest_state *)
Definition set_ingest_state (now : Z) (tenant i : Uuid) (state : string) (l : list IdeaRow) :
  result string (list IdeaRow) :=
  match ingest_state_of state with
  | Some st => Ok (update_ideas (own tenant i) (set_state now st) l)
  | None => Err "invalid input value for enum ingest_state"
  end.

(* src/qcue-rs/store/src/ideas_repo.rs 56-66 set_last_ingested *)
Definition set_last_ingested (now : Z) (tenant i : Uuid) (l : list IdeaRow) : list IdeaRow :=
  update_ideas (own tenant i) (set_stamp now) l.

Definition dirty (r : IdeaRow) : bool :=
  i_active r
  && (bool_decide (i_state r = Pending)
      || match i_last_ingested r with Some t => t <? i_updated_at r | None => false end).
Definition by_capture (a b : IdeaRow) : bool := i_captured_at a <=? i_captured_at b.
(* src/qcue-rs/store/src/ideas_repo.rs 71-86 select_dirty_for_ingest *)
Definition select_dirty_for_ingest (tenant : Uuid) (l : list IdeaRow) : list Uuid :=
  i_id <$> sort_by by_capture (filter (fun r => N.eqb (i_tenant r) tenant && dirty r = true) l).

(** [ORDER BY updated DESC LIMIT 1]; [updated] is the column of that name, which [PageRow] leaves out. *)
(* src/qcue-rs/store/src/ideas_repo.rs 92-106 source_page_slug *)
Definition source_page_slug (updated : Repo.PageRow -> Z) (tenant i : Uuid) (db : Repo.Db) : option string :=
  Repo.slug <$> head (sort_by (fun a b => updated b <=? updated a)
    (filter (fun r => Repo.live tenant r && String.eqb (Repo.type_ r) "source"
       && existsb (N.eqb i) (Repo.source_ids r) = true) (Repo.pages db))).
End IdeasRepo.
Import IdeasRepo.

(** ** Lemmas *)
Lemma update_ideas_elem (p : IdeaRow -> bool) (f : IdeaRow -> IdeaRow) (l : list IdeaRow) (r : IdeaRow) :
  r ∈ l -> (if p r then f r else r) ∈ update_ideas p f l.
Proof. intros Hr. unfold update_ideas. apply list_elem_of_fmap. by exists r. Qed.

Lemma update_ideas_ids (p : IdeaRow -> bool) (f : IdeaRow -> IdeaRow) (l : list IdeaRow) :
  (forall r, i_id (f r) = i_id r) -> i_id <$> update_ideas p f l = i_id <$> l.
Proof.
  intros Hf. unfold update_ideas. rewrite <- list_fmap_compose. apply list_fmap_ext. intros n r _. cbn.
  destruct (p r); [apply Hf|done].
Qed.

Lemma by_capture_total (a b : IdeaRow) : by_capture a b = true \/ by_capture b a = true.
Proof. unfold by_capture. rewrite !Z.leb_le. lia. Qed.
Lemma by_capture_trans (a b c : IdeaRow) : by_capture a b = true -> by_capture b c = true -> by_capture a c = true.
Proof. unfold by_capture. rewrite !Z.leb_le. lia. Qed.

(** What the scan for captures to ingest finds. It answers exactly the active captures of the
    tenant that are pending or touched after their last ingest, the oldest capture first. A changed body
    is found; a finished ingest, the state and then the stamp, is not found any more. But the two marks
    are times and not contents: a change of the location alone hides a body changed before it that was
    not ingested yet, an ingest that finishes hides a body changed while it ran, and an ingested capture
    that is found redundant the next time is found for ever. *)
Theorem dirty_scan (tenant : Uuid) (l : list IdeaRow) :
  (forall i, i ∈ select_dirty_for_ingest tenant l <->
     exists r, r ∈ l /\ i_id r = i /\ i_tenant r = tenant /\ i_active r = true /\
       (i_state r = Pending \/ exists t, i_last_ingested r = Some t /\ t < i_updated_at r)) /\
  (exists rs, select_dirty_for_ingest tenant l = i_id <$> rs /\
     StronglySorted (fun a b => i_captured_at a <= i_captured_at b) rs) /\
  (forall r now t body lat lng acc, i_active r = true -> i_last_ingested r = Some t -> t < now ->
     dirty (set_body now body lat lng acc r) = true) /\
  (forall r t1 t2, dirty (set_stamp t2 (set_state t1 Ingested r)) = false) /\
  (forall r t1 t2 body lat lng acc, i_state r <> Pending -> t1 <= t2 ->
     dirty (set_location t2 lat lng acc (set_body t1 body lat lng acc r)) = false) /\
  (forall r t1 t2 t3 body lat lng acc,
     dirty (set_stamp t3 (set_state t2 Ingested (set_body t1 body lat lng acc r))) = false) /\
  (forall r t now, i_active r = true -> i_last_ingested r = Some t -> t < now ->
     dirty (set_state now SkippedRedundant r) = true).
Proof.
  split; [|split; [|split; [|split; [|split; [|split]]]]].
  - intros i. unfold select_dirty_for_ingest. rewrite list_elem_of_fmap. split.
    + intros (r & -> & Hr). rewrite sort_by_perm, list_elem_of_filter in Hr. destruct Hr as [Hd Hr].
      apply andb_true_iff in Hd as [Ht Hd]. apply N.eqb_eq in Ht. unfold dirty in Hd.
      apply andb_true_iff in Hd as [Ha Hd]. exists r. repeat split; auto.
      apply orb_true_iff in Hd as [Hd|Hd]; [left; by apply bool_decide_eq_true in Hd|right].
      destruct (i_last_ingested r) as [t|]; [|done]. exists t. split; [done|lia].
    + intros (r & Hr & <- & Ht & Ha & Hd). exists r. split; [done|].
      rewrite sort_by_perm, list_elem_of_filter. split; [|done]. unfold dirty. rewrite Ht, N.eqb_refl, Ha. cbn.
      destruct Hd as [Hd|(t & Hl & Hlt)]; [by rewrite bool_decide_eq_true_2|].
      rewrite Hl, (proj2 (Z.ltb_lt _ _) Hlt). apply orb_true_r.
  - eexists. split; [reflexivity|].
    eapply sorted_impl; [|apply (sort_by_sorted by_capture by_capture_total by_capture_trans)].
    intros x y. unfold by_capture. by rewrite Z.leb_le.
  - intros r now t body lat lng acc Ha Hl Ht. unfold dirty, set_body, touch. cbn. rewrite Ha, Hl. cbn.
    rewrite (proj2 (Z.ltb_lt _ _) Ht). apply orb_true_r.
  - intros r t1 t2. unfold dirty, set_stamp, set_state, touch. cbn. rewrite Z.ltb_irrefl. apply andb_false_r.
  - intros r t1 t2 body lat lng acc Hp Ht. unfold dirty, set_location, set_body, touch. cbn.
    rewrite (bool_decide_eq_false_2 _ Hp). cbn.
    assert ((match i_last_ingested r with Some t => Z.max t t2 | None => t2 end <? t2) = false) as ->
      by (apply Z.ltb_ge; destruct (i_last_ingested r); lia).
    apply andb_false_r.
  - intros r t1 t2 t3 body lat lng acc. unfold dirty, set_stamp, set_state, set_body, touch. cbn.
    rewrite Z.ltb_irrefl. apply andb_false_r.
  - intros r t now Ha Hl Ht. unfold dirty, set_state, touch. cbn. rewrite Ha, Hl. cbn.
    by rewrite (proj2 (Z.ltb_lt _ _) Ht).
Qed.
