(* ===== verification/Server.v ===== *)
(** * The shell of the server

    [Errors]: [app-server/src/error.rs]. [Query]: the query strings of [tenancy/mod.rs]. [Limiter]: the
    rate limiter, the client address and the origin check of [middleware.rs]. [ServerPaths]:
    [wire/path_guard.rs]. [Release]: the release manifest of [release.rs]. [Config]: [config.rs], the
    environment as a function. *)
From S2P Require Import Prelude RustStr Streams WikiText Wiki.
From stdpp Require Import list gmap pretty sorting.

#[local] Open Scope string_scope.
#[local] Open Scope list_scope.
#[local] Open Scope Z_scope.

(** ** Errors *)
Module Errors.
(* src/qcue-rs/app-server/src/error.rs 7-29 ApiError *)
Inductive ApiError : Type :=
| Unauthorized
| Forbidden
| NotFound
| BadRequest (msg : string)
| Unprocessable (msg : string)
| TooLarge
| Overloaded
| CostCap
| Db (msg : string)
| Other (msg : string).

(* src/qcue-rs/app-server/src/error.rs 32-39 rpc_code *)
Definition rpc_code (e : ApiError) : Z :=
  match e with
  | Overloaded | CostCap => -32001
  | Unauthorized => -32002
  | BadRequest _ | Unprocessable _ => -32602
  | _ => -32603
  end.

(** [Display] *)
Definition display (e : ApiError) : string :=
  match e with
  | Unauthorized => "unauthorized"
  | Forbidden => "forbidden"
  | NotFound => "not found"
  | BadRequest m => "bad request: " +:+ m
  | Unprocessable m => "unprocessable: " +:+ m
  | TooLarge => "payload too large"
  | Overloaded => "server overloaded; retry later"
  | CostCap => "daily cost cap reached"
  | Db m | Other m => m
  end.

(** The status, the code and the message of the response; what is logged is left out. *)
(* src/qcue-rs/app-server/src/error.rs 43-71 into_response *)
Definition into_response (e : ApiError) : Z * Z * string :=
  let status :=
    match e with
    | Unauthorized => 401
    | Forbidden => 403
    | NotFound => 404
    | BadRequest _ => 400
    | Unprocessable _ => 422
    | TooLarge => 413
    | Overloaded | CostCap => 503
    | _ => 500
    end in
  let message :=
    match e with
    | Db _ | Other _ => "internal server error"
    | other => display other
    end in
  (status, rpc_code e, message).
End Errors.

(** ** Query strings *)
Module Query.
(* src/qcue-rs/app-server/src/tenancy/mod.rs 46-54 SSE_ROUTES *)
Definition SSE_ROUTES : list string :=
  ["/v1/ingest/"; "/v1/recall/"; "/v1/wiki/query/"; "/v1/dream/"; "/v1/sync/pull"; "/v1/thread/"].
(* src/qcue-rs/app-server/src/tenancy/mod.rs 55-57 is_sse_route *)
Definition is_sse_route (path method : string) : bool :=
  String.eqb method "GET" && existsb (fun p => Str.starts_with p path) SSE_ROUTES.

(** [(b as char).to_digit(16)] *)
Definition hex_digit (c : ascii) : option Z :=
  if Str.ascii_in 48 57 c then Some (Z.of_nat (nat_of_ascii c) - 48)
  else if Str.ascii_in 97 102 c then Some (Z.of_nat (nat_of_ascii c) - 87)
  else if Str.ascii_in 65 70 c then Some (Z.of_nat (nat_of_ascii c) - 55)
  else None.
Definition byte_of (z : Z) : ascii := ascii_of_nat (Z.to_nat z).

(** The loop over [i]: [s] is what is left from [i] on. *)
(* src/qcue-rs/app-server/src/tenancy/mod.rs 78-90 percent_decode *)
Fixpoint decode_loop (s : string) : string :=
  match s with
  | EmptyString => ""
  | String c s' =>
      match s' with
      | String d (String e s'') =>
          if Ascii.eqb c "%"
          then match hex_digit d, hex_digit e with
               | Some h, Some l => String (byte_of (h * 16 + l)) (decode_loop s'')
               | _, _ => String c (decode_loop s')
               end
          else String c (decode_loop s')
      | _ => String c (decode_loop s')
      end
  end.
(* src/qcue-rs/app-server/src/tenancy/mod.rs 74-92 percent_decode *)
Definition percent_decode (s : string) : string := Utf8.from_utf8_lossy (decode_loop s).

(** [kv.splitn(2, '=')]: a part without the sign has no second piece. *)
(* src/qcue-rs/app-server/src/tenancy/mod.rs 59-67 url_query_value *)
Definition url_query_value (q key : string) : option string :=
  match find_first (fun kv => match Str.split_once "=" kv with
                              | Some (k, _) => String.eqb k key
                              | None => false
                              end) (Str.split_on "&" q) with
  | Some kv => (fun p => percent_decode (snd p)) <$> Str.split_once "=" kv
  | None => None
  end.
(* src/qcue-rs/app-server/src/tenancy/mod.rs 40-42 query_param *)
Definition query_param (query : option string) (key : string) : option string :=
  query ≫= fun q => url_query_value q key.
End Query.

(** ** The rate limiter *)
Module Limiter.
(** Times are nanoseconds of the monotonic clock. *)
(* src/qcue-rs/app-server/src/middleware.rs 17-17 WINDOW *)
Definition WINDOW : Z := 60 * 1000000000.
(* src/qcue-rs/app-server/src/middleware.rs 18-18 GLOBAL_LIMIT *)
Definition GLOBAL_LIMIT : Z := 120.
(* src/qcue-rs/app-server/src/middleware.rs 19-19 AUTH_LIMIT *)
Definition AUTH_LIMIT : Z := 20.
(* src/qcue-rs/app-server/src/middleware.rs 23-23 MAX_TRACKED_KEYS *)
Definition MAX_TRACKED_KEYS : Z := 100000.

(* src/qcue-rs/app-server/src/middleware.rs 73-76 Bucket *)
Record Bucket : Type := { count : Z; window_start : Z }.
Abbreviation Buckets := (gmap string Bucket).

(** The reaping when the map holds [cap] keys. *)
(* src/qcue-rs/app-server/src/middleware.rs 146-149 bump_and_check *)
Definition reap (cap now : Z) (m : Buckets) : Buckets :=
  if cap <=? Z.of_nat (size m) then filter (fun kb => now - window_start (snd kb) < WINDOW) m else m.
(* src/qcue-rs/app-server/src/middleware.rs 151-155 bump_and_check *)
Definition bump (now : Z) (b : Bucket) : Bucket :=
  if WINDOW <=? now - window_start b then {| count := 1; window_start := now |}
  else {| count := Int.wrap_u32 (count b + 1); window_start := window_start b |}.

(** [now] is read under the lock; the clock never goes back. A poisoned lock, after a panic, lets
    everything pass. *)
(* src/qcue-rs/app-server/src/middleware.rs 140-157 bump_and_check *)
Definition bump_and_check (cap : Z) (now : Z) (key : string) (limit : Z) (m : Buckets) : bool * Buckets :=
  let m := reap cap now m in
  let b := bump now (unwrap_or (m !! key) {| count := 0; window_start := now |}) in
  (limit <? count b, <[key := b]> m).

(** [peer] is the socket's address as text, [xff] the forwarding header. *)
(* src/qcue-rs/app-server/src/middleware.rs 84-98 client_ip *)
Definition client_ip (peer : option string) (xff : option string) (trusted_proxy : string) : string :=
  let peer := unwrap_or peer "0.0.0.0" in
  if negb (String.eqb trusted_proxy "") && String.eqb peer trusted_proxy
  then match xff ≫= fun x => head (Str.split_on "," x) with
       | Some first => Str.trim first
       | None => peer
       end
  else peer.

(** Whether the request may pass, and the answer if not: status, body, [Retry-After]. *)
(* src/qcue-rs/app-server/src/middleware.rs 113-136 rate_limit *)
Definition rate_limit (cap now : Z) (path : string) (ip : string) (m : Buckets) : bool * Buckets :=
  if String.eqb path "/healthz" || String.eqb path "/readyz" then (true, m)
  else
    let is_auth := Str.starts_with "/v1/auth/" path in
    let limit := if is_auth then AUTH_LIMIT else GLOBAL_LIMIT in
    let key := if is_auth then "auth:" +:+ ip else "glob:" +:+ ip in
    let '(over, m) := bump_and_check cap now key limit m in
    (negb over, m).

(* src/qcue-rs/app-server/src/middleware.rs 26-34 origin_reject *)
Definition origin_reject (app_origins : list string) (origin : option string) : bool :=
  match origin with
  | Some origin => existsb (fun o => String.eqb o origin) app_origins
  | None => true
  end.

(** [{h:032x}] *)
Definition hex_of (d : Z) : ascii :=
  ascii_of_nat (Z.to_nat (if d <? 10 then 48 + d else 87 + d)).
Fixpoint hex_pad (n : nat) (h : Z) (acc : string) : string :=
  match n with
  | O => acc
  | S n => hex_pad n (h / 16) (String (hex_of (h mod 16)) acc)
  end.
Definition FNV_OFFSET : Z := 0xcbf29ce484222325.
Definition FNV_PRIME : Z := 0x100000001b3.
Fixpoint fnv (h : Z) (s : string) : Z :=
  match s with
  | EmptyString => h
  | String c s => fnv (Z.lxor h (Z.of_nat (nat_of_ascii c)) * FNV_PRIME mod 2 ^ 128) s
  end.
(* src/qcue-rs/app-server/src/middleware.rs 101-109 ip_hash *)
Definition ip_hash (ip : string) : string := hex_pad 32 (fnv FNV_OFFSET ip) "".

(* src/qcue-rs/app-server/src/middleware.rs 40-51 json_charset *)
Definition json_charset (content_type : option string) : option string :=
  if bool_decide (content_type = Some "application/json") then Some "application/json; charset=utf-8"
  else content_type.
End Limiter.

(** ** The path guard of the object store *)
Module ServerPaths.
Import Paths.
(* src/qcue-rs/app-server/src/wire/path_guard.rs 5-17 PathError *)
Inductive GuardError : Type := NullByte | Traversal | NotMarkdownPath | EscapesRoot | Absolute.

(** The extension is what follows the last dot. *)
Definition has_ext (rel ext : string) : bool :=
  Str.eq_ignore_ascii_case (default "" (last (Str.split_on "." rel))) ext && Str.contains "." rel.

(** The deepest ancestor that exists; [n] is the length of the path. *)
(* src/qcue-rs/app-server/src/wire/path_guard.rs 47-60 resolve_under_root_ext *)
Fixpoint probe_ancestors {F} `{Os F} (n : nat) (canon_root probe : Path) (f : F) : bool :=
  match canonicalize probe f with
  | Ok c => starts_with canon_root c
  | Err _ =>
      match n, parent probe with
      | S n, Some par => probe_ancestors n canon_root par f
      | _, _ => true
      end
  end.

(* src/qcue-rs/app-server/src/wire/path_guard.rs 27-65 resolve_under_root_ext *)
Definition resolve_under_root_ext {F} `{Os F} (root : Path) (rel : string) (allowed_exts : list string)
  (f : F) : result GuardError Path :=
  if Str.contains nul rel then Err NullByte
  else if Str.starts_with "/" rel then Err Absolute
  else if existsb (fun c => String.eqb c "..") (Str.split_on "/" rel) then Err Traversal
  else if negb (existsb (has_ext rel) allowed_exts) then Err NotMarkdownPath
  else
    let joined := join root rel in
    let canon_root := match canonicalize root f with Ok c => c | Err _ => root end in
    if negb (probe_ancestors (length joined) canon_root joined f) then Err EscapesRoot
    else if negb (starts_with root joined) then Err EscapesRoot
    else Ok joined.
(* src/qcue-rs/app-server/src/wire/path_guard.rs 21-23 resolve_under_root *)
Definition resolve_under_root {F} `{Os F} (root : Path) (rel : string) (f : F) : result GuardError Path :=
  resolve_under_root_ext root rel ["md"] f.
End ServerPaths.

(** ** The release manifest *)
Module Release.
(* src/qcue-rs/app-server/src/release.rs 25-39 PlatformEntry *)
Record PlatformEntry : Type := {
  latest_build : Z;
  latest_version : string;
  min_supported_build : Z;
  changelog : string;
  apk_asset_url : option string;
  apk_sha256 : option string;
  app_store_url : option string;
  published_at : string;
}.
(* src/qcue-rs/app-server/src/release.rs 19-23 ManifestFile *)
Record ManifestFile : Type := { android : option PlatformEntry; ios : option PlatformEntry }.

(** The wire shape, [app-server-protocol/src/v1.rs]. *)
Record AppReleaseManifest : Type := {
  m_platform : string;
  m_latest_build : Z;
  m_latest_version : string;
  m_min_supported_build : Z;
  m_changelog : string;
  m_android_apk_path : option string;
  m_android_apk_sha256 : option string;
  m_ios_app_store_url : option string;
  m_published_at : string;
}.

(* src/qcue-rs/app-server/src/release.rs 43-55 empty_manifest *)
Definition empty_manifest (platform : string) : AppReleaseManifest :=
  {| m_platform := platform; m_latest_build := 0; m_latest_version := ""; m_min_supported_build := 0;
     m_changelog := ""; m_android_apk_path := None; m_android_apk_sha256 := None;
     m_ios_app_store_url := None; m_published_at := "" |}.

(** [read] reads a file, [parse] is the derived [serde] parser of the manifest. *)
Section Load.
Context (read : string -> option string) (parse : string -> option ManifestFile).

(* src/qcue-rs/app-server/src/release.rs 59-83 load_manifest *)
Definition load_manifest (path platform : string) : AppReleaseManifest :=
  if String.eqb path "" then empty_manifest platform
  else
    match read path with
    | None => empty_manifest platform
    | Some raw =>
        match parse raw with
        | None => empty_manifest platform
        | Some file =>
            match (if String.eqb platform "ios" then ios file else android file) with
            | None => empty_manifest platform
            | Some e =>
                let is_ios := String.eqb platform "ios" in
                {| m_platform := platform; m_latest_build := latest_build e;
                   m_latest_version := latest_version e; m_min_supported_build := min_supported_build e;
                   m_changelog := changelog e;
                   m_android_apk_path :=
                     if is_ios then None else Some ("/v1/app/apk/" +:+ pretty (latest_build e));
                   m_android_apk_sha256 := if is_ios then None else apk_sha256 e;
                   m_ios_app_store_url := if is_ios then app_store_url e else None;
                   m_published_at := published_at e |}
            end
        end
    end.

(* src/qcue-rs/app-server/src/release.rs 91-93 get_release *)
Definition get_release (path : string) (platform : option string) : AppReleaseManifest :=
  load_manifest path (unwrap_or platform "android").

(* src/qcue-rs/app-server/src/release.rs 103-108 resolve_apk_asset_url *)
Definition resolve_apk_asset_url (path : string) (build : Z) : option string :=
  match (raw ← read path; file ← parse raw; android file) with
  | Some e => if latest_build e =? build then apk_asset_url e else None
  | None => None
  end.

(* src/qcue-rs/app-server/src/release.rs 17-17 MAX_APK_BYTES *)
Definition MAX_APK_BYTES : Z := 300 * 1024 * 1024.

(** The answer: a status and a reason, or the bytes. [send] gives the status, the announced length and
    the body of the upstream answer. *)
(* src/qcue-rs/app-server/src/release.rs 113-146 get_apk *)
Definition get_apk (send : string -> string -> option (Z * option Z * string)) (path : string)
  (github_token : option string) (build : Z) : result (Z * string) string :=
  match resolve_apk_asset_url path build with
  | None => Err (404, "unknown build")
  | Some asset_url =>
      match github_token with
      | None => Err (503, "apk source not configured")
      | Some token =>
          match send asset_url ("token " +:+ token) with
          | Some (status, length, body) =>
              if (200 <=? status) && (status <? 300) then
                if match length with Some n => MAX_APK_BYTES <? n | None => false end
                then Err (502, "apk too large")
                else Ok body
              else Err (502, "apk fetch failed")
          | None => Err (502, "apk fetch failed")
          end
      end
  end.
End Load.
End Release.

(** ** Configuration *)
Module Config.
(* src/qcue-rs/app-server/src/config.rs 3-12 ConfigError *)
Inductive ConfigError : Type := WeakSecret | WeakKmsKey | MissingDatabaseUrl | MissingDataRoot.

(** [RawConfig] and [Config] have the same fields; strings and byte strings are both bytes here. *)
(* src/qcue-rs/app-server/src/config.rs 57-83 Config *)
Record Config : Type := {
  release_manifest_path : string;
  github_token : option string;
  assetlinks_path : string;
  jwt_secret : string;
  database_url : string;
  auth_database_url : string;
  redis_url : string;
  redis_prefix : string;
  data_root : string;
  bind_addr : string;
  bind_port : Z;
  app_origins : list string;
  trusted_proxy : string;
  ingest_enabled : bool;
  lint_enabled : bool;
  dream_enabled : bool;
  sync_enabled : bool;
  key_proxy_enabled : bool;
  access_ttl_secs : Z;
  google_oauth_audiences : list string;
  apple_oauth_audiences : list string;
  kms_key : option string;
}.

(* src/qcue-rs/app-server/src/config.rs 85-85 KNOWN_DEV_DEFAULTS *)
Definition KNOWN_DEV_DEFAULTS : list string := ["changeme"; "secret"; "dev"; "test"; "password"].

(* src/qcue-rs/app-server/src/config.rs 88-129 validate *)
Definition validate (r : Config) : result ConfigError Config :=
  if Nat.ltb (String.length (jwt_secret r)) 32
     || existsb (fun d => Str.eq_ignore_ascii_case (jwt_secret r) d) KNOWN_DEV_DEFAULTS
  then Err WeakSecret
  else if String.eqb (database_url r) "" then Err MissingDatabaseUrl
  else if String.eqb (data_root r) "" then Err MissingDataRoot
  else if match kms_key r with Some k => Nat.ltb (String.length k) 32 | None => false end
  then Err WeakKmsKey
  else Ok r.

(** [parse::<u16>]: an optional plus sign and digits, in range. *)
Definition parse_u16 (s : string) : option Z :=
  if Str.starts_with "-" s then None
  else match Str.parse_i64 s with
       | Some v => if v <=? 65535 then Some v else None
       | None => None
       end.

(** [var] is the environment. *)
(* src/qcue-rs/app-server/src/config.rs 131-188 from_env *)
Definition from_env (var : string -> option string) : result ConfigError Config :=
  let env k := unwrap_or (var k) "" in
  let flag k := match var k with Some v => String.eqb v "true" | None => false end in
  let non_empty s := if String.eqb s "" then None else Some s in
  let parts s := filter (fun x => negb (String.eqb x "") = true) (Str.split_on "," s) in
  let trimmed s := filter (fun x => negb (String.eqb x "") = true) (Str.trim <$> Str.split_on "," s) in
  validate
    {| release_manifest_path := env "QCUE_RELEASE_MANIFEST";
       github_token := non_empty (env "QCUE_GITHUB_TOKEN");
       assetlinks_path := env "QCUE_ASSETLINKS_PATH";
       jwt_secret := env "QCUE_JWT_SECRET";
       database_url := env "DATABASE_URL";
       auth_database_url := unwrap_or (non_empty (env "DATABASE_AUTH_URL")) (env "DATABASE_URL");
       redis_url := env "REDIS_URL";
       redis_prefix := env "QCUE_REDIS_PREFIX";
       data_root := env "QCUE_DATA_ROOT";
       bind_addr := unwrap_or (non_empty (env "QCUE_BIND_ADDR")) "127.0.0.1";
       bind_port := unwrap_or (parse_u16 (env "QCUE_BIND_PORT")) 9200;
       app_origins := parts (env "QCUE_APP_ORIGINS");
       trusted_proxy := env "QCUE_TRUSTED_PROXY";
       ingest_enabled := flag "INGEST_WORKERS_ENABLED";
       lint_enabled := flag "LINT_WORKERS_ENABLED";
       dream_enabled := flag "DREAM_WORKERS_ENABLED";
       sync_enabled := flag "SYNC_WORKERS_ENABLED";
       key_proxy_enabled := flag "QCUE_KEY_PROXY_ENABLED";
       access_ttl_secs :=
         unwrap_or (opt_filter (fun v => 0 <? v) (var "QCUE_ACCESS_TTL_SECS" ≫= Str.parse_i64)) 3600;
       google_oauth_audiences := trimmed (env "GOOGLE_OAUTH_AUDIENCES");
       apple_oauth_audiences := trimmed (env "APPLE_OAUTH_AUDIENCES");
       kms_key := non_empty (env "QCUE_KMS_KEY") |}.
End Config.

(** * Properties *)

(** ** Query strings: what a client encodes is read back *)
Module Encoding.
Definition unreserved (c : ascii) : bool :=
  Chars.is_ascii_alnum c || Ascii.eqb c "-" || Ascii.eqb c "_" || Ascii.eqb c "." || Ascii.eqb c "~".
Definition hex_upper (d : Z) : ascii := ascii_of_nat (Z.to_nat (if d <? 10 then 48 + d else 55 + d)).
(** [encodeURIComponent] of the clients, over bytes. *)
Fixpoint percent_encode (s : string) : string :=
  match s with
  | EmptyString => ""
  | String c s =>
      if unreserved c then String c (percent_encode s)
      else let n := Z.of_nat (nat_of_ascii c) in
           String "%" (String (hex_upper (n / 16)) (String (hex_upper (n mod 16)) (percent_encode s)))
  end.
End Encoding.

Section QueryProps.
Import Encoding Query.

Lemma decode_cons (c : ascii) (s : string) : c <> "%"%char -> decode_loop (String c s) = String c (decode_loop s).
Proof.
  intros Hc. apply Ascii.eqb_neq in Hc. destruct s as [|d [|e s]]; [done..|]. cbn [decode_loop]. by rewrite Hc.
Qed.

Lemma decode_hex (c : ascii) (s : string) :
  let n := Z.of_nat (nat_of_ascii c) in
  decode_loop (String "%" (String (hex_upper (n / 16)) (String (hex_upper (n mod 16)) s)))
  = String c (decode_loop s).
Proof. cbn [decode_loop]. destruct c as [[][][][][][][][]]; reflexivity. Qed.

Lemma unreserved_not (c d : ascii) : unreserved c = true -> unreserved d = false -> c <> d.
Proof. congruence. Qed.

Lemma decode_encode (s : string) : decode_loop (percent_encode s) = s.
Proof.
  induction s as [|c s IH]; [done|]. cbn [percent_encode]. destruct (unreserved c) eqn:Hc.
  - rewrite decode_cons by (by apply unreserved_not). by rewrite IH.
  - by rewrite decode_hex, IH.
Qed.

Lemma encode_no (d : ascii) (s : string) :
  unreserved d = false -> d <> "%"%char -> Str.no_char d (percent_encode s) = true.
Proof.
  intros Hd Hp. induction s as [|c s IH]; [done|]. cbn [percent_encode].
  assert (forall x, unreserved x = true -> negb (Ascii.eqb d x) = true) as Hx.
  { intros x Hx. apply negb_true_iff, Ascii.eqb_neq. congruence. }
  destruct (unreserved c) eqn:Hc; cbn [Str.no_char].
  - by rewrite Hx, IH.
  - rewrite IH.
    assert (negb (Ascii.eqb d "%") = true) as -> by (by apply negb_true_iff, Ascii.eqb_neq; congruence).
    assert (forall z, 0 <= z < 16 -> unreserved (hex_upper z) = true) as Hh.
    { intros z Hz. assert (z ∈ (Z.of_nat <$> seq 0 16)) as Hin.
      { apply list_elem_of_fmap. exists (Z.to_nat z). split; [lia|]. apply elem_of_seq. lia. }
      clear Hz. revert z Hin. apply Forall_forall. repeat constructor. }
    pose proof (nat_ascii_bounded c) as Hb.
    rewrite !Hx; [done|apply Hh, Z.mod_pos_bound; lia|].
    apply Hh. split; [apply Z.div_pos; lia|]. apply Z.div_lt_upper_bound; lia.
Qed.

Lemma split_once_char (c : ascii) (a b : string) :
  Str.no_char c a = true -> Str.split_once (String c "") (a +:+ String c b) = Some (a, b).
Proof.
  intros Ha. assert (Str.find (String c "") (a +:+ String c b) = Some (String.length a)) as Hf.
  { revert Ha. induction a as [|d a IH]; cbn [Str.no_char String.append String.length Str.find Str.starts_with].
    - by rewrite Ascii.eqb_refl.
    - intros Ha. apply andb_true_iff in Ha as [Hd Ha]. apply negb_true_iff in Hd. rewrite Hd. cbn [andb].
      by rewrite IH. }
  unfold Str.split_once. rewrite Hf. cbn [String.length]. f_equal. f_equal; [apply Str.take_app|].
  rewrite <- (Str.drop_drop 1), Str.drop_app. done.
Qed.

Lemma split_on_no (c : ascii) (a : string) : Str.no_char c a = true -> Str.split_on c a = [a].
Proof.
  induction a as [|d a IH]; [done|]. cbn [Str.no_char Str.split_on]. intros Ha.
  apply andb_true_iff in Ha as [Hd Ha]. apply negb_true_iff in Hd. by rewrite Hd, IH.
Qed.

Lemma split_on_app (c : ascii) (a b : string) :
  Str.no_char c a = true -> Str.split_on c (a +:+ String c b) = a :: Str.split_on c b.
Proof.
  induction a as [|d a IH]; cbn [Str.no_char Str.split_on String.append]; [by rewrite Ascii.eqb_refl|]. intros Ha.
  apply andb_true_iff in Ha as [Hd Ha]. apply negb_true_iff in Hd. by rewrite Hd, IH.
Qed.

Lemma split_on_join (c : ascii) (l : list string) :
  Forall (fun x => Str.no_char c x = true) l -> l <> [] -> Str.split_on c (Str.join (String c "") l) = l.
Proof.
  induction l as [|x [|y l] IH]; intros Hl Hn; [done| |]; inv Hl; [by apply split_on_no|].
  change (Str.join (String c "") (x :: y :: l)) with (x +:+ String c (Str.join (String c "") (y :: l))).
  rewrite split_on_app by done. by rewrite IH.
Qed.

(** A query as the clients build it. *)
Definition pair_of (kv : string * string) : string := fst kv +:+ String "=" (percent_encode (snd kv)).
Definition query_of (l : list (string * string)) : string := Str.join "&" (pair_of <$> l).
Definition plain_key (k : string) : bool := Str.no_char "=" k && Str.no_char "&" k.

Lemma pair_no_amp (kv : string * string) : plain_key (fst kv) = true -> Str.no_char "&" (pair_of kv) = true.
Proof.
  intros Hk. apply andb_true_iff in Hk as [_ Hk]. unfold pair_of. rewrite Str.no_char_app, Hk.
  cbn [Str.no_char andb]. by rewrite encode_no.
Qed.

Lemma split_query (l : list (string * string)) :
  Forall (fun kv => plain_key (fst kv) = true) l -> l <> [] -> Str.split_on "&" (query_of l) = pair_of <$> l.
Proof.
  intros Hk Hl. apply split_on_join; [|by destruct l]. apply Forall_fmap. eapply Forall_impl; [exact Hk|].
  intros kv. apply pair_no_amp.
Qed.

(** Query parameters survive their encoding: from a query built of any pairs of keys without [=]
    and [&] and values in valid UTF-8, percent-encoded, every key reads back the first value it was
    given, byte for byte, and a key that was not given reads as absent. *)
Theorem query_roundtrip (l : list (string * string)) (key : string)
  (Hkeys : Forall (fun kv => plain_key (fst kv) = true) l)
  (Hutf8 : Forall (fun kv => Utf8.from_utf8_lossy (snd kv) = snd kv) l) :
  url_query_value (query_of l) key = snd <$> find_first (fun kv => String.eqb (fst kv) key) l.
Proof.
  destruct (decide (l = [])) as [->|Hl]; [done|].
  unfold url_query_value. rewrite split_query by done. clear Hl.
  induction l as [|kv l IH]; [done|]. inv Hkeys. inv Hutf8. cbn [fmap list_fmap find_first].
  assert (Str.split_once "=" (pair_of kv) = Some (fst kv, percent_encode (snd kv))) as Hs.
  { apply split_once_char. rename select (plain_key _ = true) into Hk. by apply andb_true_iff in Hk as [Hk _]. }
  rewrite Hs. destruct (String.eqb (fst kv) key).
  - rewrite Hs. cbn. unfold percent_decode. rewrite decode_encode. by f_equal.
  - by apply IH.
Qed.
Lemma query_roundtrip_witness :
  url_query_value (query_of [("q", "What backend? 50%"); ("token", "eyJ.a-_")]) "q" = Some "What backend? 50%".
Proof.
  apply (query_roundtrip [("q", "What backend? 50%"); ("token", "eyJ.a-_")] "q");
    repeat constructor; vm_compute; reflexivity.
Defined.

Example decoding_of_the_tests :
  (url_query_value "q=What%20backend%3F&token=abc" "q", url_query_value "token=eyJhbGc.aB-_123.Xy" "token",
   url_query_value "q=50%off" "q") = (Some "What backend?", Some "eyJhbGc.aB-_123.Xy", Some "50%off").
Proof. vm_compute. reflexivity. Qed.
End QueryProps.

(** ** The rate limiter *)
Section LimiterProps.
Import Limiter.
Context (cap : Z).

Record Request : Type := { at_ : Z; path : string; ip : string }.
(** The requests in order, each with whether it passed. *)
Definition serve_one (s : list (Request * bool) * Buckets) (r : Request) : list (Request * bool) * Buckets :=
  let '(ok, m) := rate_limit cap (at_ r) (path r) (ip r) (snd s) in (fst s ++ [(r, ok)], m).
Definition serve (rs : list Request) : list (Request * bool) * Buckets := foldl serve_one ([], ∅) rs.

(** The bucket of a request, and the limit of a bucket. *)
Definition exempt (r : Request) : bool := String.eqb (path r) "/healthz" || String.eqb (path r) "/readyz".
Definition is_auth (r : Request) : bool := Str.starts_with "/v1/auth/" (path r).
Definition key_of (r : Request) : option string :=
  if exempt r then None else Some (if is_auth r then "auth:" +:+ ip r else "glob:" +:+ ip r).
Definition limit_of (key : string) : Z := if Str.starts_with "auth:" key then AUTH_LIMIT else GLOBAL_LIMIT.

(** The requests of a bucket that passed, from [lo] up to and without [hi]. *)
Definition passed_in (key : string) (lo hi : Z) (l : list (Request * bool)) : Z :=
  Z.of_nat (length (filter (fun rb => snd rb && bool_decide (key_of (fst rb) = Some key)
    && (lo <=? at_ (fst rb)) && (at_ (fst rb) <? hi) = true) l)).

Lemma passed_in_snoc (key : string) (lo hi : Z) (l : list (Request * bool)) (r : Request) (ok : bool) :
  passed_in key lo hi (l ++ [(r, ok)])
  = passed_in key lo hi l
    + (if ok && bool_decide (key_of r = Some key) && (lo <=? at_ r) && (at_ r <? hi) then 1 else 0).
Proof.
  unfold passed_in. rewrite filter_app, length_app, Nat2Z.inj_add. f_equal. rewrite filter_cons, filter_nil. cbn [fst snd].
  destruct (ok && _ && _ && _); [by rewrite decide_True|by rewrite decide_False].
Qed.

(** What the limiter does to the bucket [key] when it never reaps. *)
Definition step_bucket (now : Z) (b : option Bucket) : Bucket :=
  bump now (unwrap_or b {| count := 0; window_start := now |}).
(** Reaping forgets expired buckets only, and an expired bucket counts like an absent one. *)
Definition same_bucket (now : Z) (real ghost : option Bucket) : Prop :=
  real = ghost \/ real = None /\ exists b, ghost = Some b /\ WINDOW <= now - window_start b.

Lemma same_bucket_later (now now' : Z) (real ghost : option Bucket) :
  now <= now' -> same_bucket now real ghost -> same_bucket now' real ghost.
Proof.
  intros Hn [->|[-> (b & -> & Hb)]]; [by left|]. right. split; [done|]. exists b. split; [done|lia].
Qed.

Lemma same_bucket_reap (now : Z) (key : string) (m : Buckets) (ghost : option Bucket) :
  same_bucket now (m !! key) ghost -> same_bucket now (reap cap now m !! key) ghost.
Proof.
  intros Hs. unfold reap. destruct (_ <=? _); [|done]. destruct Hs as [Hs|[Hs Hg]].
  - rewrite map_lookup_filter, Hs. destruct ghost as [b|]; cbn; [|by left].
    case_guard as Hw; cbn; [by left|]. right. split; [done|]. exists b. split; [done|]. cbn in Hw. lia.
  - right. by rewrite map_lookup_filter, Hs.
Qed.

Lemma step_same (now : Z) (real ghost : option Bucket) :
  same_bucket now real ghost -> step_bucket now real = step_bucket now ghost.
Proof.
  intros [->|[-> (b & -> & Hb)]]; [done|]. unfold step_bucket, bump. cbn [unwrap_or window_start count].
  rewrite (proj2 (Z.leb_le _ _) Hb). rewrite (proj2 (Z.leb_gt _ _)); [done|]. rewrite Z.sub_diag. unfold WINDOW. lia.
Qed.

Lemma bump_check_key (now : Z) (key : string) (limit : Z) (m : Buckets) (ghost : option Bucket) :
  same_bucket now (m !! key) ghost ->
  fst (bump_and_check cap now key limit m) = (limit <? count (step_bucket now ghost)) /\
  snd (bump_and_check cap now key limit m) !! key = Some (step_bucket now ghost).
Proof.
  intros Hs. apply same_bucket_reap in Hs. unfold bump_and_check. cbn [fst snd].
  rewrite <- (step_same _ _ _ Hs). split; [done|]. by rewrite lookup_insert_eq.
Qed.

Lemma bump_check_other (now : Z) (key key' : string) (limit : Z) (m : Buckets) (ghost : option Bucket) :
  key' <> key -> same_bucket now (m !! key) ghost ->
  same_bucket now (snd (bump_and_check cap now key' limit m) !! key) ghost.
Proof.
  intros Hk Hs. apply same_bucket_reap in Hs. unfold bump_and_check. cbn [snd]. by rewrite lookup_insert_ne.
Qed.

Lemma limit_of_key (r : Request) (key : string) :
  key_of r = Some key -> limit_of key = if is_auth r then AUTH_LIMIT else GLOBAL_LIMIT.
Proof.
  unfold key_of. destruct (exempt r); [done|]. intros [= <-]. unfold limit_of.
  by destruct (is_auth r).
Qed.

Lemma rate_limit_key (r : Request) (m : Buckets) :
  rate_limit cap (at_ r) (path r) (ip r) m =
  match key_of r with
  | Some key => let '(over, m) := bump_and_check cap (at_ r) key (limit_of key) m in (negb over, m)
  | None => (true, m)
  end.
Proof.
  unfold rate_limit. fold (exempt r) (is_auth r). destruct (key_of r) as [key|] eqn:Hk.
  - rewrite (limit_of_key r key Hk). unfold key_of in Hk. destruct (exempt r); [done|]. by inv Hk.
  - unfold key_of in Hk. by destruct (exempt r).
Qed.

(** The bucket of [key] after the requests, never reaped. *)
Definition ghost (key : string) (rs : list Request) : option Bucket :=
  foldl (fun g r => if bool_decide (key_of r = Some key) then Some (step_bucket (at_ r) g) else g) None rs.

Lemma ghost_snoc (key : string) (rs : list Request) (r : Request) :
  ghost key (rs ++ [r]) =
  if bool_decide (key_of r = Some key) then Some (step_bucket (at_ r) (ghost key rs)) else ghost key rs.
Proof. unfold ghost. by rewrite foldl_app. Qed.

Lemma serve_snoc (rs : list Request) (r : Request) : serve (rs ++ [r]) = serve_one (serve rs) r.
Proof. unfold serve. by rewrite foldl_app. Qed.

Abbreviation in_order := (StronglySorted (fun a b => at_ a <= at_ b)).

Lemma in_order_snoc (rs : list Request) (r : Request) :
  in_order (rs ++ [r]) -> in_order rs /\ forall x, x ∈ rs -> at_ x <= at_ r.
Proof.
  intros H. split; [by eapply StronglySorted_app_1_l|]. intros x Hx.
  eapply (StronglySorted_app_1_elem_of (fun a b => at_ a <= at_ b)); [exact H|done|left].
Qed.

Lemma serve_ghost (key : string) (rs : list Request) :
  in_order rs -> forall now, (forall x, x ∈ rs -> at_ x <= now) ->
  same_bucket now (snd (serve rs) !! key) (ghost key rs).
Proof.
  induction rs as [|r rs IH] using rev_ind; intros Ho now Hn; [by left|].
  apply in_order_snoc in Ho as [Ho Hr]. rewrite serve_snoc, ghost_snoc.
  assert (at_ r <= now) as Hrn by (apply Hn, elem_of_app; right; left).
  apply (same_bucket_later (at_ r) now); [done|]. pose proof (IH Ho (at_ r) Hr) as Hs.
  unfold serve_one. rewrite rate_limit_key. destruct (key_of r) as [k|]; cbn [fst snd].
  - destruct (bump_and_check cap (at_ r) k (limit_of k) (snd (serve rs))) as [ov m'] eqn:E. cbn [snd].
    destruct (decide (k = key)) as [->|Hne].
    + rewrite bool_decide_eq_true_2 by done. left.
      by rewrite <- (proj2 (bump_check_key (at_ r) key (limit_of key) _ _ Hs)), E.
    + rewrite bool_decide_eq_false_2 by congruence.
      pose proof (bump_check_other (at_ r) key k (limit_of k) _ _ Hne Hs) as H. by rewrite E in H.
  - by rewrite bool_decide_eq_false_2.
Qed.

(** Whether the next request passes. *)
Definition passes (rs : list Request) (r : Request) : bool :=
  match key_of r with
  | Some key => count (step_bucket (at_ r) (ghost key rs)) <=? limit_of key
  | None => true
  end.
Lemma serve_passes (rs : list Request) (r : Request) :
  in_order (rs ++ [r]) -> fst (serve (rs ++ [r])) = fst (serve rs) ++ [(r, passes rs r)].
Proof.
  intros Ho. apply in_order_snoc in Ho as [Ho Hr]. rewrite serve_snoc. unfold serve_one, passes.
  rewrite rate_limit_key. destruct (key_of r) as [k|]; [|done].
  destruct (bump_and_check _ _ _ _ _) as [ov m'] eqn:E. cbn [fst]. repeat f_equal.
  pose proof (bump_check_key (at_ r) k (limit_of k) _ _ (serve_ghost k rs Ho (at_ r) Hr)) as [H _].
  rewrite E in H. cbn in H. subst ov. by rewrite Z.leb_antisym.
Qed.

Lemma limit_pos (key : string) : 1 <= limit_of key.
Proof. unfold limit_of. by destruct (Str.starts_with _ _). Qed.

Lemma passed_in_nonneg (key : string) (lo hi : Z) (l : list (Request * bool)) : 0 <= passed_in key lo hi l.
Proof. unfold passed_in. lia. Qed.

(** The count of an interval of one window's length, for a bucket in state [b]: an expired bucket's
    requests lie before the interval when its window ends there, and only two windows meet it. *)
Definition spread (t L n : Z) (b : option Bucket) : Prop :=
  match b with
  | None => n = 0
  | Some b =>
      1 <= count b /\ n <= 2 * L /\
      (window_start b + WINDOW <= t -> n = 0) /\
      (window_start b <= t -> n <= Z.min (count b) L) /\
      (window_start b < t + WINDOW -> n <= L + Z.min (count b) L)
  end.

Lemma spread_step (t L n now : Z) (b : option Bucket) :
  1 <= L -> match b with Some b => window_start b <= now /\ count b < Int.u32_max | None => True end ->
  spread t L n b ->
  spread t L (n + (if (count (step_bucket now b) <=? L) && (t <=? now) && (now <? t + WINDOW) then 1 else 0))
    (Some (step_bucket now b)).
Proof.
  intros HL Hb Hs. assert (0 < WINDOW) as HW by done. unfold step_bucket, bump.
  destruct b as [b|]; cbn [unwrap_or window_start].
  - destruct Hb as [Hw Hc]. destruct Hs as (H1 & H2 & H3 & H4 & H5). unfold spread.
    destruct (Z.leb_spec WINDOW (now - window_start b)) as [He|He]; cbn [count window_start].
    + assert (window_start b <= t -> n <= L) by lia.
      split; [lia|]. repeat split; intros; repeat case_match; bool_prop; try lia.
    + rewrite Int.wrap_u32_small by (unfold Int.in_u32; lia).
      split; [lia|]. repeat split; intros; repeat case_match; bool_prop; try lia.
  - unfold spread in *. subst n. rewrite Z.sub_diag. cbn [Z.leb]. rewrite (proj2 (Z.leb_gt _ _)) by lia.
    cbn [count window_start]. rewrite Int.wrap_u32_small by (unfold Int.in_u32, Int.u32_max; lia).
    split; [lia|]. repeat split; intros; repeat case_match; bool_prop; lia.
Qed.

Lemma elem_of_snoc {A} (x y : A) (l : list A) : x ∈ l ++ [y] <-> x ∈ l \/ x = y.
Proof. rewrite elem_of_app. by rewrite list_elem_of_singleton. Qed.

Lemma ghost_bounds (key : string) (rs : list Request) (b : Bucket) :
  in_order rs -> Z.of_nat (length rs) <= Int.u32_max -> ghost key rs = Some b ->
  1 <= count b <= Z.of_nat (length rs) /\ exists x, x ∈ rs /\ at_ x = window_start b.
Proof.
  revert b. induction rs as [|r rs IH] using rev_ind; intros b Ho Hl; [done|].
  apply in_order_snoc in Ho as [Ho Hr]. rewrite length_app in *. cbn [length] in *. rewrite ghost_snoc.
  destruct (bool_decide _); intros Hg.
  - inv Hg. unfold step_bucket, bump.
    destruct (ghost key rs) as [g|] eqn:E; cbn [unwrap_or window_start].
    + destruct (IH g Ho ltac:(lia) eq_refl) as [Hc (x & Hx & Hw)].
      destruct (_ <=? _); cbn [count window_start].
      * split; [lia|]. exists r. by rewrite elem_of_snoc; auto.
      * rewrite Int.wrap_u32_small by (unfold Int.in_u32; lia). split; [lia|].
        exists x. rewrite elem_of_snoc. auto.
    + rewrite Z.sub_diag, (proj2 (Z.leb_gt _ _)) by done. cbn [count window_start].
      rewrite Int.wrap_u32_small by (unfold Int.in_u32, Int.u32_max; lia). split; [lia|].
      exists r. rewrite elem_of_snoc. auto.
  - destruct (IH b Ho ltac:(lia) Hg) as [Hc (x & Hx & Hw)]. split; [lia|]. exists x. rewrite elem_of_snoc. auto.
Qed.

Lemma served_spread (key : string) (t : Z) (rs : list Request) :
  in_order rs -> Z.of_nat (length rs) <= Int.u32_max ->
  spread t (limit_of key) (passed_in key t (t + WINDOW) (fst (serve rs))) (ghost key rs).
Proof.
  induction rs as [|r rs IH] using rev_ind; intros Ho Hl; [done|].
  pose proof (in_order_snoc _ _ Ho) as [Ho' Hr]. rewrite length_app in Hl. cbn [length] in Hl.
  rewrite serve_passes, passed_in_snoc, ghost_snoc by done. unfold passes.
  case_bool_decide as Hk; cycle 1.
  - rewrite andb_false_r. cbn. rewrite Z.add_0_r. apply IH; [done|lia].
  - rewrite Hk, andb_true_r. apply spread_step; [apply limit_pos| |apply IH; [done|lia]].
    destruct (ghost key rs) as [b|] eqn:E; [|done].
    destruct (ghost_bounds key rs b Ho' ltac:(lia) E) as [Hc (x & Hx & <-)]. split; [by apply Hr|lia].
Qed.

Lemma served_recent (key : string) (rs : list Request) (b : Bucket) (hi : Z) :
  in_order rs -> Z.of_nat (length rs) <= Int.u32_max -> ghost key rs = Some b ->
  (forall x, x ∈ rs -> at_ x < hi) ->
  Z.min (count b) (limit_of key) <= passed_in key (window_start b) hi (fst (serve rs)).
Proof.
  revert b. induction rs as [|r rs IH] using rev_ind; intros b Ho Hl; [done|].
  pose proof (in_order_snoc _ _ Ho) as [Ho' Hr]. rewrite length_app in Hl. cbn [length] in Hl.
  rewrite serve_passes, passed_in_snoc, ghost_snoc by done. unfold passes. intros Hg Hhi.
  assert (at_ r < hi) as Hrh by (apply Hhi, elem_of_snoc; auto).
  assert (forall x, x ∈ rs -> at_ x < hi) as Hh by (intros x Hx; apply Hhi, elem_of_snoc; auto).
  rewrite (proj2 (Z.ltb_lt _ _) Hrh), andb_true_r.
  pose proof (limit_pos key). case_bool_decide as Hk; cycle 1.
  - rewrite andb_false_r. cbn. rewrite Z.add_0_r. apply IH; [done|lia|done|done].
  - rewrite Hk, andb_true_r. inv Hg. unfold step_bucket, bump.
    destruct (ghost key rs) as [g|] eqn:E; cbn [unwrap_or window_start].
    + destruct (ghost_bounds key rs g Ho' ltac:(lia) E) as [Hc (x & Hx & Hw)]. apply Hr in Hx.
      specialize (IH g Ho' ltac:(lia) eq_refl Hh).
      destruct (_ <=? at_ r - _); cbn [count window_start].
      * pose proof (passed_in_nonneg key (at_ r) hi (fst (serve rs))). rewrite Z.leb_refl, andb_true_r.
        rewrite (proj2 (Z.leb_le 1 _)) by done. lia.
      * rewrite Int.wrap_u32_small by (unfold Int.in_u32; lia).
        rewrite (proj2 (Z.leb_le (window_start g) (at_ r))), andb_true_r by lia.
        destruct (Z.leb_spec (count g + 1) (limit_of key)); lia.
    + pose proof (passed_in_nonneg key (at_ r) hi (fst (serve rs))).
      rewrite Z.sub_diag, (proj2 (Z.leb_gt WINDOW 0)) by done. cbn [count window_start].
      rewrite Int.wrap_u32_small by (unfold Int.in_u32, Int.u32_max; lia).
      rewrite Z.leb_refl, andb_true_r, (proj2 (Z.leb_le 1 _)) by done. lia.
Qed.

Lemma passed_in_mono (key : string) (lo lo' hi : Z) (l : list (Request * bool)) :
  lo' <= lo -> passed_in key lo hi l <= passed_in key lo' hi l.
Proof.
  intros Hlo. induction l as [|[r ok] l IH] using rev_ind; [done|]. rewrite !passed_in_snoc.
  destruct (ok && _); [|cbn; lia].
  destruct (Z.leb_spec lo (at_ r)), (Z.leb_spec lo' (at_ r)), (Z.ltb_spec (at_ r) hi); cbn; lia.
Qed.

(** Whatever requests arrive, with buckets reaped or not, at most twice its limit of a bucket's
    requests pass in any minute; and none is refused without cause: when one is, its limit of the
    bucket's requests passed in the minute before it. *)
Theorem rate_limit_bounded (rs : list Request) (key : string)
  (Ho : in_order rs) (Hlen : Z.of_nat (length rs) < Int.u32_max) :
  (forall t, passed_in key t (t + WINDOW) (fst (serve rs)) <= 2 * limit_of key) /\
  (forall r, in_order (rs ++ [r]) -> key_of r = Some key ->
     fst (serve (rs ++ [r])) = fst (serve rs) ++ [(r, false)] ->
     limit_of key <= passed_in key (at_ r - WINDOW + 1) (at_ r + 1) (fst (serve rs))).
Proof.
  pose proof (limit_pos key) as HL. split.
  - intros t. pose proof (served_spread key t rs Ho ltac:(lia)) as Hs. unfold spread in Hs.
    destruct (ghost key rs); lia.
  - intros r Hro Hk Hin. pose proof (in_order_snoc _ _ Hro) as [_ Hr].
    rewrite serve_passes in Hin by done. apply app_inv_head in Hin. inv Hin.
    rename select (passes rs r = false) into Hp. unfold passes in Hp. rewrite Hk in Hp. apply Z.leb_gt in Hp.
    unfold step_bucket, bump in Hp. destruct (ghost key rs) as [g|] eqn:E; cbn [unwrap_or window_start] in Hp.
    + destruct (ghost_bounds key rs g Ho ltac:(lia) E) as [Hc _].
      destruct (Z.leb_spec WINDOW (at_ r - window_start g)) as [He|He]; cbn [count] in Hp; [lia|].
      rewrite Int.wrap_u32_small in Hp by (unfold Int.in_u32; lia).
      pose proof (served_recent key rs g (at_ r + 1) Ho ltac:(lia) E) as Hs.
      etrans; [|apply (passed_in_mono key (window_start g)); lia].
      etrans; [|apply Hs; intros x Hx; apply Hr in Hx; lia]. lia.
    + rewrite Z.sub_diag, (proj2 (Z.leb_gt WINDOW 0)) in Hp by done. cbn [count] in Hp.
      rewrite Int.wrap_u32_small in Hp by (unfold Int.in_u32, Int.u32_max; lia). lia.
Qed.
End LimiterProps.

Definition demo_request : Request := {| at_ := 0; path := "/v1/auth/login"; ip := "10.0.0.1" |}.
Lemma burst_in_order (n : nat) (r : Request) : StronglySorted (fun a b => at_ a <= at_ b) (replicate n r).
Proof.
  induction n as [|n IH]; cbn; constructor; [done|]. apply Forall_forall. intros x Hx.
  apply elem_of_replicate_inv in Hx as ->. lia.
Qed.
Lemma rate_limit_bounded_witness :
  let l := fst (serve 3 (replicate 25 demo_request)) in
  passed_in "auth:10.0.0.1" 0 (0 + Limiter.WINDOW) l = 20 /\
  passed_in "auth:10.0.0.1" 0 (0 + Limiter.WINDOW) l <= 2 * limit_of "auth:10.0.0.1".
Proof.
  cbv zeta. split; [vm_compute; reflexivity|].
  refine (proj1 (rate_limit_bounded 3 (replicate 25 demo_request) "auth:10.0.0.1" _ _) 0).
  - apply burst_in_order.
  - vm_compute. reflexivity.
Defined.

(** Two full windows may lie within one minute. *)
Example twice_the_limit :
  let late t := {| at_ := t; path := "/v1/auth/login"; ip := "10.0.0.1" |} in
  let l := fst (serve 3 (late 0 :: replicate 19 (late 59000000000) ++ replicate 20 (late 60000000000))) in
  passed_in "auth:10.0.0.1" 59000000000 (59000000000 + Limiter.WINDOW) l = 39.
Proof. vm_compute. reflexivity. Qed.

(** ** Configuration, release and paths *)
Section ShellProps.
Import Config.

Lemma validate_ok (r c : Config) :
  validate r = Ok c ->
  c = r /\ (32 <= String.length (jwt_secret c))%nat /\ database_url c <> "" /\ data_root c <> "" /\
  (forall k, kms_key c = Some k -> (32 <= String.length k)%nat).
Proof.
  unfold validate. intros H.
  destruct (Nat.ltb_spec (String.length (jwt_secret r)) 32); [done|]. cbn [orb] in H.
  destruct (existsb _ _); [done|].
  destruct (String.eqb_spec (database_url r) ""); [done|]. destruct (String.eqb_spec (data_root r) ""); [done|].
  destruct (kms_key r) as [k|] eqn:E; [destruct (Nat.ltb_spec (String.length k) 32); [done|]|];
    injection H as <-; rewrite E; repeat split; auto; intros; simplify_eq; done.
Qed.

(** A server that starts has a long secret, a database, a data root, and a long master key if any; the
    list of known development secrets has no part in this: every entry is shorter than what the length
    test asks for. *)
Theorem boots_with_strong_secrets (var : string -> option string) (c : Config) :
  (from_env var = Ok c ->
     (32 <= String.length (jwt_secret c))%nat /\ database_url c <> "" /\ data_root c <> "" /\
     (forall k, kms_key c = Some k -> (32 <= String.length k)%nat) /\ 0 < access_ttl_secs c) /\
  ((32 <= String.length (jwt_secret c))%nat ->
     existsb (fun d => Str.eq_ignore_ascii_case (jwt_secret c) d) KNOWN_DEV_DEFAULTS = false).
Proof.
  split.
  - intros H. apply validate_ok in H as (-> & H1 & H2 & H3 & H4). repeat split; try done.
    cbn [access_ttl_secs]. destruct (var "QCUE_ACCESS_TTL_SECS" ≫= Str.parse_i64) as [v|]; cbn; [|done].
    destruct (Z.ltb_spec 0 v); cbn; lia.
  - intros Hl. destruct (existsb _ _) eqn:E; [|done]. exfalso. apply existsb_exists in E as (d & Hd & He).
    assert (String.length (jwt_secret c) = String.length d) as Hlen.
    { revert He. generalize (jwt_secret c). intros s. unfold Str.eq_ignore_ascii_case, Str.to_ascii_lowercase.
      intros He%String.eqb_eq. assert (forall s, String.length (Str.map_ascii Str.lower s) = String.length s) as Hm
        by (induction s0 as [|? ? IHs]; cbn; [done|by rewrite IHs]).
      by rewrite <- (Hm s), He, Hm. }
    rewrite Hlen in Hl. unfold KNOWN_DEV_DEFAULTS in Hd. cbn [In] in Hd.
    destruct Hd as [<-|[<-|[<-|[<-|[<-|[]]]]]]; cbn in Hl; lia.
Qed.

(** The public manifest never carries the upstream address, and only the latest build is served. *)
Lemma release_hides_upstream (read : string -> option string) (parse : string -> option Release.ManifestFile)
  (path platform : string) (m := Release.load_manifest read parse path platform) :
  (Release.m_android_apk_path m = None
   \/ Release.m_android_apk_path m = Some ("/v1/app/apk/" +:+ pretty (Release.m_latest_build m))) /\
  (forall build url, Release.resolve_apk_asset_url read parse path build = Some url ->
     path <> "" -> platform <> "ios" -> Release.m_latest_build m = build).
Proof.
  unfold m, Release.load_manifest, Release.resolve_apk_asset_url. split.
  - repeat case_match; auto.
  - intros build url Hr Hp Hi. rewrite (proj2 (String.eqb_neq _ _) Hp), (proj2 (String.eqb_neq _ _) Hi).
    destruct (read path); [|done]. cbn in Hr. destruct (parse s); [|done]. cbn in Hr.
    destruct (Release.android m0); [|done]. destruct (Z.eqb_spec (Release.latest_build p) build); [done|done].
Qed.

Lemma starts_with_app_path (p q : Paths.Path) : Paths.starts_with p (p ++ q) = true.
Proof. induction p as [|c p IH]; [done|]. cbn. by rewrite String.eqb_refl. Qed.

(** What the guard of the object store accepts is the root and the relative path, none of whose
    components goes up, with an allowed extension. *)
Lemma guard_accepts {F} `{Paths.Os F} (root : Paths.Path) (rel : string) (exts : list string) (f : F) (p : Paths.Path) :
  ServerPaths.resolve_under_root_ext root rel exts f = Ok p ->
  p = root ++ Paths.components rel /\ ~ (".." ∈ p) \/ ".." ∈ root.
Proof.
  unfold ServerPaths.resolve_under_root_ext, Paths.join.
  destruct (Str.contains _ _); [done|]. destruct (Str.starts_with "/" rel); [done|].
  destruct (existsb _ (Str.split_on _ _)) eqn:He; [done|]. destruct (negb _); [done|].
  destruct (negb _); [done|]. destruct (negb _); [done|]. intros [= <-].
  destruct (decide (".." ∈ root)) as [Hr|Hr]; [by right|left]. split; [done|].
  rewrite elem_of_app. intros [?|Hc]; [done|]. unfold Paths.components in Hc.
  apply list_elem_of_filter in Hc as [_ Hc].
  apply not_true_iff_false in He. apply He, existsb_exists. exists "..". split; [by apply list_elem_of_In|done].
Qed.
End ShellProps.

Example fnv_of_the_loopback : Limiter.ip_hash "" = "0000000000000000cbf29ce484222325".
Proof. vm_compute. reflexivity. Qed.
