(* ===== verification/Capture.v ===== *)
(** * Capturing ideas

    The handlers of [app-server/src/capture/routes.rs]: capture, edit, delete, detail and feed;
    [app-server/src/ingest/routes.rs], the digest; the object store of [app-server/src/objstore.rs];
    [ideas/src/capture.rs] and the job poll of [app-server/src/jobs/routes.rs]. A handler is a function
    on the tables its transaction reads and writes: what it answers, the tables as committed, and the
    files, which no roll-back touches. Identifiers drawn at random and readings of the clock are
    arguments. *)
From S2P Require Import Prelude RustStr Json Fence WikiText Wiki Redact Jobs OpLog Ideas Server.
From stdpp Require Import list pretty.

#[local] Open Scope string_scope.
#[local] Open Scope list_scope.
#[local] Open Scope Z_scope.

Import Paths Errors.

(** ** Untrusted text *)
Module Untrusted.
(* src/qcue-rs/app-server/src/capture/routes.rs 26-31 escape_reserved_tags *)
Definition escape_reserved_tags (s : string) : string :=
  Str.replace "</untrusted_source>" "&lt;/untrusted_source&gt;"
    (Str.replace "<untrusted_source" "&lt;untrusted_source"
      (Str.replace "</system-reminder>" "&lt;/system-reminder&gt;"
        (Str.replace "<system-reminder>" "&lt;system-reminder&gt;" s))).
(* src/qcue-rs/app-server/src/capture/routes.rs 34-36 fence_untrusted *)
Definition fence_untrusted (origin body : string) : string :=
  "<untrusted_source origin=" +:+ Str.quote +:+ origin +:+ Str.quote +:+ ">" +:+ body +:+ "</untrusted_source>".
End Untrusted.
Import Untrusted.

(** ** The tables *)
Record Approval : Type := {
  ap_tenant : Uuid;
  ap_user : option Uuid;
  ap_action : string;
  ap_subject : Value;
  ap_by : string;
}.
Record Tables : Type := {
  t_ideas : list IdeaRow;
  t_jobs : Jobs.Table;
  t_log : Log;
  t_wiki : Repo.Db;
  t_approvals : list Approval;
}.
Definition with_ideas (l : list IdeaRow) (t : Tables) : Tables :=
  {| t_ideas := l; t_jobs := t_jobs t; t_log := t_log t; t_wiki := t_wiki t; t_approvals := t_approvals t |}.
Definition with_jobs (l : Jobs.Table) (t : Tables) : Tables :=
  {| t_ideas := t_ideas t; t_jobs := l; t_log := t_log t; t_wiki := t_wiki t; t_approvals := t_approvals t |}.
Definition with_log (l : Log) (t : Tables) : Tables :=
  {| t_ideas := t_ideas t; t_jobs := t_jobs t; t_log := l; t_wiki := t_wiki t; t_approvals := t_approvals t |}.
Definition with_wiki (db : Repo.Db) (t : Tables) : Tables :=
  {| t_ideas := t_ideas t; t_jobs := t_jobs t; t_log := t_log t; t_wiki := db; t_approvals := t_approvals t |}.
Definition with_approval (a : Approval) (t : Tables) : Tables :=
  {| t_ideas := t_ideas t; t_jobs := t_jobs t; t_log := t_log t; t_wiki := t_wiki t;
     t_approvals := t_approvals t ++ [a] |}.
(** A request that errs is rolled back. *)
Definition commit {A} (t : Tables) (r : result ApiError (A * Tables)) : result ApiError A * Tables :=
  match r with Ok (a, t') => (Ok a, t') | Err e => (Err e, t) end.

(** ** Requests and answers *)
(* src/qcue-rs/app-server-protocol/src/v1.rs 35-52 CaptureParams *)
Record CaptureParams : Type := {
  c_kind : string;
  c_body : option string;
  c_source_url : option string;
  c_origin : string;
  c_captured_at : option string;
  c_lat : option Float;
  c_lng : option Float;
  c_accuracy : option Float;
}.
(* src/qcue-rs/app-server-protocol/src/v1.rs 56-59 CaptureResult *)
Record CaptureResult : Type := { idea_id : Uuid; ingest_job_id : Uuid }.
(* src/qcue-rs/app-server-protocol/src/v1.rs 83-92 CapturePatch *)
Record CapturePatch : Type := {
  p_body : option string;
  p_lat : option Float;
  p_lng : option Float;
  p_accuracy : option Float;
}.
(* src/qcue-rs/app-server-protocol/src/v1.rs 64-77 CaptureDetail *)
Record CaptureDetail : Type := {
  d_idea : Uuid;
  d_kind : string;
  d_body : string;
  d_captured_at : string;
  d_lat : option Float;
  d_lng : option Float;
  d_accuracy : option Float;
  d_ingest_state : string;
  d_source_url : option string;
  d_origin : string;
  d_source_page_slug : option string;
}.
(* src/qcue-rs/app-server-protocol/src/v1.rs 100-103 IngestRunResult *)
Record IngestRunResult : Type := { enqueued : Z; job_ids : list Uuid }.

Definition state_text (s : IngestState) : string :=
  match s with
  | Ideas.Pending => "pending" | Ingesting => "ingesting" | Ingested => "ingested"
  | SkippedRedundant => "skipped_redundant" | Ideas.Failed => "failed"
  end.
(** [json!] of optional texts and numbers. *)
Definition jopt_str (o : option string) : Value := match o with Some s => String_ s | None => Null end.
Definition jopt_f64 (o : option Float) : Value := match o with Some f => jf32 f | None => Null end.

(** ** The object store *)
Section Handlers.
Context {F : Type} `{Os F} (append_line : Path -> string -> F -> result string unit * F).
(** Printing JSON, identifiers and times; parsing a time; a JSON value as [->>] prints it. *)
Context `{Json} (uuid_text : Uuid -> string) (rfc3339 json_time : Z -> string)
  (parse_rfc3339 : string -> option Z) (pg_text : Value -> string).
Context (new_device : Log -> Uuid) (new_op : Z -> Uuid).

(** [root] is the data root's [objects]. *)
(* src/qcue-rs/app-server/src/objstore.rs 20-43 append_capture *)
Definition append_capture (root : Path) (now : Z) (tenant user idea : Uuid) (payload : Value) (f : F) :
  result string string * F :=
  let under := "t/" +:+ uuid_text tenant +:+ "/u/" +:+ uuid_text user in
  let key := "captures/" +:+ uuid_text idea +:+ ".jsonl" in
  let rel := under +:+ "/" +:+ key in
  let base := join root under in
  let full := join root rel in
  let '(created, f) := match parent full with Some p => create_dir_all p f | None => (Ok tt, f) end in
  match created with
  | Err e => (Err e, f)
  | Ok _ =>
      match ServerPaths.resolve_under_root_ext base key ["jsonl"] f with
      | Err _ => (Err "path guard rejected capture key", f)
      | Ok _ =>
          let line := obj [("ts", String_ (json_time now)); ("schema_version", jnum 1);
                           ("kind", String_ "capture"); ("payload", payload)] in
          let '(written, f) := append_line full (to_string (Boundary.redact_json line) +:+ Str.lf) f in
          match written with Err e => (Err e, f) | Ok _ => (Ok rel, f) end
      end
  end.

(** ** The request: its tenant, its user, its transaction's time and the clock in milliseconds *)
Context (root : Path) (tenant user : Uuid) (now wall_ms : Z).

Definition emit (reff : Uuid) (op : Value) (t : Tables) : result ApiError Tables :=
  let? log := map_err Errors.Db (emit_op new_device new_op wall_ms tenant user "idea" (uuid_text reff) op (t_log t)) in
  Ok (with_log log t).
(* src/qcue-rs/app-server/src/capture/routes.rs 146-155 capture *)
Definition enqueue_ingest (new_job idea : Uuid) (t : Tables) : result ApiError (Uuid * Tables) :=
  match enqueue pg_text now tenant new_job tenant (Some user) Ingest
          (obj [("idea_id", String_ (uuid_text idea))]) (Some ("ingest:" +:+ uuid_text idea)) (t_jobs t) with
  | (Ok job, jobs) => Ok (job, with_jobs jobs t)
  | (Err _, _) => Err Errors.Overloaded
  end.

(** ** Capture *)
Definition by_key (key : string) (r : IdeaRow) : bool :=
  N.eqb (i_tenant r) tenant && bool_decide (i_idem r = Some key).
(* src/qcue-rs/app-server/src/capture/routes.rs 54-69 capture *)
Definition existing (key : string) (l : list IdeaRow) : option CaptureResult :=
  (fun r => {| idea_id := i_id r; ingest_job_id := unwrap_or (i_job r) (i_id r) |}) <$>
  find_first (by_key key) l.
(** The header, where it is text, unless it is empty. *)
(* src/qcue-rs/app-server/src/capture/routes.rs 46-50 capture *)
Definition idem_key (header : option string) : option string :=
  opt_filter (fun s => negb (String.eqb s "")) header.

Definition new_idea (idea : Uuid) (idem : option string) (req : CaptureParams) (body log_ref : string)
  (captured_at : option Z) : IdeaRow :=
  {| i_id := idea; i_tenant := tenant; i_user := user; i_kind := c_kind req; i_body := body;
     i_source_url := c_source_url req; i_log_ref := log_ref; i_provider := None; i_state := Ideas.Pending;
     i_job := None; i_origin := c_origin req; i_captured_at := unwrap_or captured_at now; i_active := true;
     i_updated_at := now; i_last_ingested := None; i_idem := idem; i_lat := c_lat req; i_lng := c_lng req;
     i_accuracy := c_accuracy req |}.
(* src/qcue-rs/app-server/src/capture/routes.rs 164-180 capture *)
Definition create_op (req : CaptureParams) (row : IdeaRow) : Value :=
  obj [("create", obj [("body", String_ (i_body row)); ("origin", String_ (c_origin req));
         ("captured_at", String_ (rfc3339 (i_captured_at row))); ("lat", jopt_f64 (c_lat req));
         ("lng", jopt_f64 (c_lng req)); ("loc_accuracy_m", jopt_f64 (c_accuracy req))])].

(** The statements from the insert on; the answer of the insert is a row unless the key is taken. *)
(* src/qcue-rs/app-server/src/capture/routes.rs 97-184 capture *)
Definition insert_capture (idea new_job : Uuid) (idem : option string) (req : CaptureParams)
  (body log_ref : string) (t : Tables) : result ApiError (CaptureResult * Tables) :=
  if negb (idea_kind (c_kind req)) then Err (Errors.Db "invalid input value for enum idea_kind")
  else
    let row := new_idea idea idem req body log_ref (c_captured_at req ≫= parse_rfc3339) in
    let taken := match idem with Some key => existsb (by_key key) (t_ideas t) | None => false end in
    if negb taken && existsb (fun r => N.eqb (i_id r) idea) (t_ideas t)
    then Err (Errors.Db "duplicate key value violates unique constraint")
    else
      let t := if taken then t else with_ideas (t_ideas t ++ [row]) t in
      match (if taken then idem ≫= fun key => existing key (t_ideas t) else None) with
      | Some r => Ok (r, t)
      | None =>
          let? (job, t) := enqueue_ingest new_job idea t in
          let t := with_ideas (update_ideas (own tenant idea) (set_job now job) (t_ideas t)) t in
          let? t := if taken then Ok t else emit idea (create_op req row) t in
          Ok ({| idea_id := idea; ingest_job_id := job |}, t)
      end.

(* src/qcue-rs/app-server/src/capture/routes.rs 72-92 capture *)
Definition capture_new (idea new_job : Uuid) (idem : option string) (req : CaptureParams) (t : Tables) (f : F) :
  result ApiError (CaptureResult * Tables) * F :=
  let body := escape_reserved_tags (unwrap_or (c_body req) "") in
  let payload := obj [("kind", String_ (c_kind req)); ("body", String_ body); ("origin", String_ (c_origin req))] in
  let '(r, f) := append_capture root now tenant user idea payload f in
  match r with
  | Err e => (Err (Other e), f)
  | Ok log_ref => (insert_capture idea new_job idem req body log_ref t, f)
  end.

(** [t0] is what the first statement sees, [t] what the later ones see: other requests may commit in
    between. *)
(* src/qcue-rs/app-server/src/capture/routes.rs 38-185 capture *)
Definition capture (idea new_job : Uuid) (header : option string) (req : CaptureParams) (t0 t : Tables) (f : F) :
  result ApiError CaptureResult * Tables * F :=
  let idem := idem_key header in
  match idem ≫= fun key => existing key (t_ideas t0) with
  | Some r => (Ok r, t, f)
  | None => let '(r, f) := capture_new idea new_job idem req t f in (commit t r, f)
  end.

(** ** Edit and delete *)
(* src/qcue-rs/app-server/src/capture/routes.rs 261-268 edit *)
Definition active_idea (i : Uuid) (l : list IdeaRow) : option IdeaRow :=
  find_first (fun r => own tenant i r && i_active r) l.

(* src/qcue-rs/app-server/src/capture/routes.rs 256-326 edit *)
Definition edit (i : Uuid) (req : CapturePatch) (t : Tables) : result ApiError Value * Tables :=
  match active_idea i (t_ideas t) with
  | None => (Err NotFound, t)
  | Some row =>
      let new_body := escape_reserved_tags <$> p_body req in
      let body_changed := match new_body with Some b => negb (String.eqb b (i_body row)) | None => false end in
      let ideas :=
        match opt_filter (fun _ => body_changed) new_body with
        | Some b => update_ideas (own tenant i) (set_body now b (p_lat req) (p_lng req) (p_accuracy req)) (t_ideas t)
        | None => update_ideas (own tenant i) (set_location now (p_lat req) (p_lng req) (p_accuracy req)) (t_ideas t)
        end in
      let op_body := if body_changed then new_body else None in
      commit t
        (let? t := emit i (obj [("update", obj [("body", jopt_str op_body); ("lat", jopt_f64 (p_lat req));
                      ("lng", jopt_f64 (p_lng req)); ("loc_accuracy_m", jopt_f64 (p_accuracy req))])])
                   (with_ideas ideas t) in
         Ok (obj [("id", String_ (uuid_text i)); ("reingest", Bool body_changed)], t))
  end.

(** [UPDATE ... SET source_ids = array_remove(source_ids, i), sync_version = sync_version + 1] *)
(* src/qcue-rs/app-server/src/capture/routes.rs 378-385 delete_capture *)
Definition drop_source (i page_id : Uuid) (db : Repo.Db) : Repo.Db :=
  {| Repo.pages := (fun r => if N.eqb (Repo.tenant_id r) tenant && N.eqb (Repo.id r) page_id
       then {| Repo.id := Repo.id r; Repo.tenant_id := Repo.tenant_id r; Repo.slug := Repo.slug r;
               Repo.title := Repo.title r; Repo.aliases := Repo.aliases r; Repo.tags := Repo.tags r;
               Repo.type_ := Repo.type_ r; Repo.summary := Repo.summary r; Repo.reviewed := Repo.reviewed r;
               Repo.char_len := Repo.char_len r; Repo.body_ref := Repo.body_ref r;
               Repo.source_ids := filter (fun s => s <> i) (Repo.source_ids r);
               Repo.content_hash := Repo.content_hash r; Repo.sync_version := Repo.sync_version r + 1;
               Repo.deleted := Repo.deleted r |}
       else r) <$> Repo.pages db;
     Repo.links := Repo.links db |}.

(* src/qcue-rs/app-server/src/capture/routes.rs 347-353 delete_capture *)
Definition cites (i : Uuid) (r : Repo.PageRow) : bool :=
  Repo.live tenant r && existsb (N.eqb i) (Repo.source_ids r).

(* src/qcue-rs/app-server/src/capture/routes.rs 355-387 delete_capture *)
Definition withdraw_from (i : Uuid) (t : Tables) (p : Repo.PageRow) : Tables :=
  let remaining := filter (fun s => s <> i) (Repo.source_ids p) in
  if String.eqb (Repo.type_ p) "source" || bool_decide (remaining = [])
  then with_approval
         {| ap_tenant := tenant; ap_user := Some user; ap_action := "wiki_delete";
            ap_subject := obj [("page", String_ (uuid_text (Repo.id p)))]; ap_by := "user" |}
         (with_wiki (Repo.soft_delete tenant (Repo.id p) (t_wiki t)) t)
  else with_wiki (drop_source i (Repo.id p) (t_wiki t)) t.

(* src/qcue-rs/app-server/src/capture/routes.rs 332-401 delete_capture *)
Definition delete_capture (i : Uuid) (t : Tables) : result ApiError Value * Tables :=
  match active_idea i (t_ideas t) with
  | None => (Err NotFound, t)
  | Some _ =>
      let t1 := with_ideas (update_ideas (fun r => own tenant i r && i_active r) (set_inactive now) (t_ideas t)) t in
      let pages := filter (fun r => cites i r = true) (Repo.pages (t_wiki t1)) in
      let t2 := foldl (withdraw_from i) t1 pages in
      commit t
        (let? t := emit i (obj [("delete", obj [])]) t2 in
         Ok (obj [("id", String_ (uuid_text i)); ("deleted", Bool true)], t))
  end.

(** ** Reading *)
(* src/qcue-rs/app-server/src/capture/routes.rs 214-250 detail *)
Definition detail (updated : Repo.PageRow -> Z) (i : Uuid) (t : Tables) : result ApiError CaptureDetail :=
  match active_idea i (t_ideas t) with
  | None => Err NotFound
  | Some r =>
      Ok {| d_idea := i_id r; d_kind := i_kind r; d_body := i_body r;
            d_captured_at := rfc3339 (i_captured_at r); d_lat := i_lat r; d_lng := i_lng r;
            d_accuracy := i_accuracy r; d_ingest_state := state_text (i_state r);
            d_source_url := i_source_url r; d_origin := i_origin r;
            d_source_page_slug := IdeasRepo.source_page_slug updated tenant i (t_wiki t) |}
  end.

(* src/qcue-rs/app-server/src/capture/routes.rs 404-417 parse_range *)
Definition parse_range (start stop : option string) : result ApiError (option (Z * Z)) :=
  let parse s := ok_or (parse_rfc3339 s) (BadRequest ("invalid RFC3339 instant: " +:+ s)) in
  match start, stop with
  | Some s, Some e => let? a := parse s in let? b := parse e in Ok (Some (a, b))
  | None, None => Ok None
  | _, _ => Err (BadRequest "start and end must be provided together")
  end.

Definition newest_first (a b : IdeaRow) : bool := i_captured_at b <=? i_captured_at a.
Definition feed_rows (range : option (Z * Z)) (l : list IdeaRow) : list IdeaRow :=
  let mine := filter (fun r => N.eqb (i_tenant r) tenant && i_active r = true) l in
  match range with
  | Some (start, stop) =>
      firstn 500 (sort_by newest_first (filter (fun r => (start <=? i_captured_at r) && (i_captured_at r <? stop) = true) mine))
  | None => firstn 50 (sort_by newest_first mine)
  end.
(* src/qcue-rs/app-server/src/capture/routes.rs 423-460 query_feed *)
Definition query_feed (range : option (Z * Z)) (l : list IdeaRow) : list Value :=
  (fun r => obj [("id", String_ (uuid_text (i_id r))); ("kind", String_ (i_kind r)); ("body", String_ (i_body r));
                 ("ingest_state", String_ (state_text (i_state r)));
                 ("captured_at", String_ (json_time (i_captured_at r)))]) <$> feed_rows range l.
(* src/qcue-rs/app-server/src/capture/routes.rs 202-210 feed *)
Definition feed (start stop : option string) (t : Tables) : result ApiError Value :=
  let? range := parse_range start stop in
  Ok (obj [("captures", Array (query_feed range (t_ideas t)))]).

(** ** The digest *)
(* src/qcue-rs/app-server/src/ingest/routes.rs 34-46 run *)
Fixpoint run_loop (new_jobs : nat -> Uuid) (k : nat) (dirty : list Uuid) (t : Tables) :
  result ApiError (list Uuid * Tables) :=
  match dirty with
  | [] => Ok ([], t)
  | i :: dirty =>
      let? (job, t) := enqueue_ingest (new_jobs k) i t in
      let? (jobs, t) := run_loop new_jobs (S k) dirty t in
      Ok (job :: jobs, t)
  end.
(* src/qcue-rs/app-server/src/ingest/routes.rs 24-50 run *)
Definition run (new_jobs : nat -> Uuid) (t : Tables) : result ApiError IngestRunResult * Tables :=
  commit t
    (let? (jobs, t) := run_loop new_jobs 0 (IdeasRepo.select_dirty_for_ingest tenant (t_ideas t)) t in
     Ok ({| enqueued := Z.min Int.u32_max (Z.of_nat (length jobs)); job_ids := jobs |}, t)).

(** ** The library's own entry *)
(* src/qcue-rs/ideas/src/capture.rs 12-17 CaptureKind *)
Inductive CaptureKind : Type :=
| Text (body : string)
| Voice (transcript provider : string)
| Clip (caption url : string).

(* src/qcue-rs/ideas/src/capture.rs 31-82 ingest_capture *)
Definition ingest_capture (idea job : Uuid) (input : CaptureKind) (origin : string) (t : Tables) :
  result ApiError (CaptureResult * Tables) :=
  let '(kind, body, provider, url) :=
    match input with
    | Text body => ("text", body, None, None)
    | Voice transcript provider => ("voice", transcript, Some provider, None)
    | Clip caption url => ("clip", caption, None, Some url)
    end in
  let row :=
    {| i_id := idea; i_tenant := tenant; i_user := user; i_kind := kind; i_body := body; i_source_url := url;
       i_log_ref := "captures/" +:+ uuid_text idea +:+ ".jsonl"; i_provider := provider;
       i_state := Ideas.Pending; i_job := None; i_origin := origin; i_captured_at := now; i_active := true;
       i_updated_at := now; i_last_ingested := None; i_idem := None; i_lat := None; i_lng := None;
       i_accuracy := None |} in
  if existsb (fun r => N.eqb (i_id r) idea) (t_ideas t) || bool_decide (job ∈ ids (t_jobs t))
  then Err (Errors.Db "duplicate key value violates unique constraint")
  else
    let j := fresh_job now job tenant (Some user) Ingest (obj [("idea_id", String_ (uuid_text idea))]) in
    Ok ({| idea_id := idea; ingest_job_id := job |},
        with_jobs (t_jobs t ++ [j])
          (with_ideas (update_ideas (own tenant idea) (set_job now job) (t_ideas t ++ [row])) t)).

(** ** The poll of a job *)
Definition job_state_text (s : JobState) : string :=
  match s with
  | Jobs.Pending => "pending" | Leased => "leased" | Done => "done" | Jobs.Failed => "failed"
  | Skipped => "skipped" | Canceled => "canceled"
  end.
(* src/qcue-rs/app-server/src/jobs/routes.rs 15-41 get_job *)
Definition get_job (i : Uuid) (t : Tables) : result ApiError Value :=
  match find_first (visible tenant i) (t_jobs t) with
  | Some j =>
      Ok (obj [("id", String_ (uuid_text (Jobs.id j))); ("kind", String_ (as_db (Jobs.kind j)));
               ("state", String_ (job_state_text (state j))); ("attempt_count", jnum (attempt_count j));
               ("max_attempts", jnum (max_attempts j)); ("result", unwrap_or (job_result j) Null);
               ("last_error", jopt_str (last_error j)); ("updated_at", String_ (json_time (Jobs.updated_at j)))])
  | None => Err NotFound
  end.
End Handlers.

(** * Properties *)

(** ** Capture *)
Section CaptureProps.
Context {F : Type} `{Os F} (append_line : Path -> string -> F -> result string unit * F).
Context `{Json} (uuid_text : Uuid -> string) (rfc3339 json_time : Z -> string)
  (parse_rfc3339 : string -> option Z) (pg_text : Value -> string).
Context (new_device : Log -> Uuid) (new_op : Z -> Uuid).
#[local] Abbreviation capture' :=
  (capture append_line uuid_text rfc3339 json_time parse_rfc3339 pg_text new_device new_op).
#[local] Abbreviation insert' :=
  (insert_capture uuid_text rfc3339 parse_rfc3339 pg_text new_device new_op).

Lemma emit_ok (tenant user : Uuid) (wall_ms : Z) (reff : Uuid) (op : Value) (t t' : Tables) :
  emit uuid_text new_device new_op tenant user wall_ms reff op t = Ok t' ->
  t' = with_log (t_log t') t /\
  exists row, ops (t_log t') = ops (t_log t) ++ [row] /\ o_tenant row = tenant /\ o_applied row = true /\
    o_kind row = "idea" /\ o_ref row = uuid_text reff /\ o_op row = Boundary.redact_json op.
Proof.
  unfold emit. destruct (emit_op _ _ _ _ _ _ _ _ _) as [log|e] eqn:He; cbn; [|done]. intros [= <-].
  split; [done|]. apply emit_op_adds in He as (row & H1 & H2 & _ & H3 & H4 & H5 & H6 & _). by exists row.
Qed.

Lemma update_fresh (tenant idea : Uuid) (g : IdeaRow -> IdeaRow) (l : list IdeaRow) (row : IdeaRow) :
  existsb (fun r => N.eqb (i_id r) idea) l = false -> i_id row = idea -> i_tenant row = tenant ->
  update_ideas (own tenant idea) g (l ++ [row]) = l ++ [g row].
Proof.
  intros Hl Hi Ht. unfold update_ideas. rewrite fmap_app. f_equal.
  - induction l as [|r l IH]; [done|]. cbn in *. apply orb_false_iff in Hl as [Hr Hl].
    rewrite IH by done. unfold own. by rewrite Hr, andb_false_r.
  - cbn. unfold own. by rewrite Hi, Ht, !N.eqb_refl.
Qed.

Lemma existing_find (tenant : Uuid) (key : string) (l : list IdeaRow) :
  existsb (by_key tenant key) l = opt_is_some (existing tenant key l).
Proof.
  unfold existing. induction l as [|r l IH]; [done|]. cbn. by destruct (by_key tenant key r).
Qed.

Lemma existing_new (tenant : Uuid) (key : string) (l : list IdeaRow) (row : IdeaRow) :
  existing tenant key l = None -> by_key tenant key row = true ->
  existing tenant key (l ++ [row])
  = Some {| idea_id := i_id row; ingest_job_id := unwrap_or (i_job row) (i_id row) |}.
Proof.
  unfold existing. rewrite find_first_app. destruct (find_first _ l); [done|]. intros _ Hr. cbn. by rewrite Hr.
Qed.

(** What a request that inserted has written. *)
Definition captured (tenant idea : Uuid) (idem : option string) (body : string) (res : CaptureResult)
  (t t' : Tables) : Prop :=
  idea_id res = idea /\ t_wiki t' = t_wiki t /\ t_approvals t' = t_approvals t /\
  (exists row, t_ideas t' = t_ideas t ++ [row] /\ i_id row = idea /\ i_tenant row = tenant /\
     i_state row = Ideas.Pending /\ i_active row = true /\ i_body row = body /\ i_idem row = idem /\
     i_job row = Some (ingest_job_id res)) /\
  (exists j, j ∈ t_jobs t' /\ Jobs.id j = ingest_job_id res /\
     debounces pg_text tenant tenant Ingest ("ingest:" +:+ uuid_text idea) j = true) /\
  exists op, ops (t_log t') = ops (t_log t) ++ [op] /\ o_kind op = "idea" /\ o_ref op = uuid_text idea /\
    o_tenant op = tenant /\ o_applied op = true.

Lemma insert_capture_ok (tenant user : Uuid) (now wall_ms : Z) (idea new_job : Uuid) (idem : option string)
  (req : CaptureParams) (body log_ref : string) (t t' : Tables) (res : CaptureResult) :
  insert' tenant user now wall_ms idea new_job idem req body log_ref t = Ok (res, t') ->
  (t' = t /\ (idem ≫= fun key => existing tenant key (t_ideas t)) = Some res) \/
  ((forall key, idem = Some key -> existing tenant key (t_ideas t) = None) /\
   captured tenant idea idem body res t t').
Proof.
  unfold insert_capture. destruct (negb (idea_kind _)); [done|].
  assert (match idem with Some key => existsb (by_key tenant key) (t_ideas t) | None => false end
          = opt_is_some (idem ≫= fun key => existing tenant key (t_ideas t))) as ->
    by (destruct idem; cbn; [apply existing_find|done]).
  destruct (idem ≫= fun key => existing tenant key (t_ideas t)) as [r|] eqn:Hx; cbn [opt_is_some negb andb].
  - destruct idem as [key|]; [|done]. cbn in Hx |- *. rewrite Hx. intros [= <- <-]. by left.
  - destruct (existsb _ (t_ideas t)) eqn:Hid; [done|]. unfold enqueue_ingest.
    destruct (enqueue _ _ _ _ _ _ _ _ _ _) as [[job|e] jobs] eqn:Hq; cbn [and_then]; [|done].
    destruct (emit _ _ _ _ _ _ _ _ _) as [t1|e] eqn:He; cbn [and_then]; [|done]. intros [= <- <-]. right.
    apply enqueue_ok in Hq as (_ & Hj & _). apply emit_ok in He as [Ht (op & Hops & Hten & Happ & Hk & Hr & _)].
    rewrite Ht. split; [intros key ->; exact Hx|]. unfold captured.
    cbn [idea_id ingest_job_id t_ideas t_jobs t_log t_wiki t_approvals with_log with_ideas with_jobs].
    split; [done|]. split; [done|]. split; [done|].
    split; [|split; [exact Hj|by exists op]].
    rewrite update_fresh by done. eexists. split; [reflexivity|]. by repeat split.
Qed.

End CaptureProps.

(** ** Delete *)
Section DeleteProps.
Context (uuid_text : Uuid -> string) (new_device : Log -> Uuid) (new_op : Z -> Uuid).
Context (tenant user : Uuid) (now wall_ms : Z).

(** The page [r] after the capture [i] is withdrawn from it. *)
Definition only_source (i : Uuid) (r : Repo.PageRow) : bool :=
  String.eqb (Repo.type_ r) "source" || bool_decide (filter (fun s => s <> i) (Repo.source_ids r) = []).
Definition withdrawn_page (i : Uuid) (r : Repo.PageRow) : Repo.PageRow :=
  {| Repo.id := Repo.id r; Repo.tenant_id := Repo.tenant_id r; Repo.slug := Repo.slug r;
     Repo.title := Repo.title r; Repo.aliases := Repo.aliases r; Repo.tags := Repo.tags r;
     Repo.type_ := Repo.type_ r; Repo.summary := Repo.summary r; Repo.reviewed := Repo.reviewed r;
     Repo.char_len := Repo.char_len r; Repo.body_ref := Repo.body_ref r;
     Repo.source_ids := if only_source i r then Repo.source_ids r else filter (fun s => s <> i) (Repo.source_ids r);
     Repo.content_hash := Repo.content_hash r;
     Repo.sync_version := if only_source i r then Repo.sync_version r else Repo.sync_version r + 1;
     Repo.deleted := only_source i r |}.

Lemma withdraw_pages (i : Uuid) (t : Tables) (p : Repo.PageRow) :
  cites tenant i p = true -> p ∈ Repo.pages (t_wiki t) -> NoDup (Repo.id <$> Repo.pages (t_wiki t)) ->
  Repo.pages (t_wiki (withdraw_from uuid_text tenant user i t p))
  = (fun r => if N.eqb (Repo.id r) (Repo.id p) && cites tenant i r then withdrawn_page i r else r)
      <$> Repo.pages (t_wiki t).
Proof.
  intros Hc Hp Hnd. pose proof Hc as Hl. apply andb_true_iff in Hl as [Hl _].
  pose proof Hl as Hten. apply andb_true_iff in Hten as [Hten Hdel].
  assert (forall r, r ∈ Repo.pages (t_wiki t) -> N.eqb (Repo.id r) (Repo.id p) = true -> r = p) as Hsame.
  { intros r Hr Hid%N.eqb_eq. by apply (nodup_key _ _ _ _ Hnd Hr Hp). }
  unfold withdraw_from. fold (only_source i p).
  destruct (only_source i p) eqn:Ho; cbn [t_wiki with_approval with_wiki Repo.pages Repo.soft_delete drop_source];
    apply list_fmap_ext; intros n r Hr%list_elem_of_lookup_2.
  - destruct (N.eqb (Repo.id r) (Repo.id p)) eqn:Hid; [|by rewrite andb_false_r].
    apply Hsame in Hid; [subst r|done]. rewrite Hl, Hc. cbn [andb]. unfold withdrawn_page. by rewrite Ho.
  - destruct (N.eqb (Repo.id r) (Repo.id p)) eqn:Hid; [|by rewrite andb_false_r].
    apply Hsame in Hid; [subst r|done]. rewrite Hten, Hc. cbn [andb]. unfold withdrawn_page. rewrite Ho.
    by destruct (Repo.deleted p).
Qed.

Lemma cites_withdrawn (i : Uuid) (r : Repo.PageRow) : cites tenant i (withdrawn_page i r) = false.
Proof.
  unfold cites, Repo.live. cbn [Repo.tenant_id Repo.deleted Repo.source_ids withdrawn_page].
  destruct (only_source i r); cbn [negb]; [by rewrite andb_false_r|]. apply andb_false_iff. right.
  apply not_true_iff_false. intros He. apply existsb_exists in He as (s & Hs & Hi%N.eqb_eq). subst s.
  apply list_elem_of_In, list_elem_of_filter in Hs as [Hs _]. done.
Qed.

Lemma withdraw_all (i : Uuid) (ps : list Repo.PageRow) (t : Tables) :
  (forall p, p ∈ ps -> cites tenant i p = true /\ p ∈ Repo.pages (t_wiki t)) ->
  NoDup (Repo.id <$> ps) -> NoDup (Repo.id <$> Repo.pages (t_wiki t)) ->
  Repo.pages (t_wiki (foldl (withdraw_from uuid_text tenant user i) t ps))
  = (fun r => if existsb (fun p => N.eqb (Repo.id r) (Repo.id p)) ps && cites tenant i r
              then withdrawn_page i r else r) <$> Repo.pages (t_wiki t).
Proof.
  revert t. induction ps as [|p ps IH]; intros t Hps Hnd Hndt; [cbn; by rewrite list_fmap_id|].
  cbn [foldl]. cbn in Hnd. apply NoDup_cons in Hnd as [Hp Hnd].
  destruct (Hps p ltac:(left)) as [Hc Hin].
  pose proof (withdraw_pages i t p Hc Hin Hndt) as Hw.
  assert (forall q, q ∈ ps -> N.eqb (Repo.id q) (Repo.id p) = false) as Hne.
  { intros q Hq. apply N.eqb_neq. intros He. apply Hp. rewrite <- He. by apply list_elem_of_fmap_2. }
  rewrite IH; [|intros q Hq|done|].
  - rewrite Hw, <- list_fmap_compose. apply list_fmap_ext. intros n r Hr. cbn [compose existsb].
    destruct (N.eqb (Repo.id r) (Repo.id p)) eqn:Hid; cbn [andb orb].
    + destruct (cites tenant i r) eqn:Hcr; cbn [compose].
      * by rewrite cites_withdrawn, andb_false_r.
      * by rewrite Hcr, andb_false_r.
    + done.
  - destruct (Hps q ltac:(by right)) as [Hcq Hq']. split; [done|]. rewrite Hw. apply list_elem_of_fmap.
    exists q. by rewrite Hne.
  - rewrite Hw, <- list_fmap_compose. erewrite list_fmap_ext; [exact Hndt|]. intros n r Hr. cbn [compose].
    by destruct (_ && _).
Qed.

Lemma withdraw_other (i : Uuid) (ps : list Repo.PageRow) (t : Tables) :
  let t' := foldl (withdraw_from uuid_text tenant user i) t ps in
  t_ideas t' = t_ideas t /\ t_jobs t' = t_jobs t /\ t_log t' = t_log t /\
  ap_subject <$> t_approvals t'
  = (ap_subject <$> t_approvals t)
    ++ ((fun p => obj [("page", String_ (uuid_text (Repo.id p)))]) <$> filter (fun p => only_source i p = true) ps).
Proof.
  revert t. induction ps as [|p ps IH]; intros t; cbn [foldl]; [cbn; by rewrite app_nil_r|].
  destruct (IH (withdraw_from uuid_text tenant user i t p)) as (-> & -> & -> & ->).
  unfold withdraw_from. fold (only_source i p). rewrite filter_cons.
  destruct (only_source i p); cbn; repeat split; try done.
  rewrite fmap_app. cbn. by rewrite <- app_assoc.
Qed.

End DeleteProps.

(** ** The digest *)
Section DigestProps.
Context (uuid_text : Uuid -> string) (pg_text : Value -> string).
Context (uuid_inj : forall i j, uuid_text i = uuid_text j -> i = j).
Context (tenant user : Uuid) (now : Z).
#[local] Abbreviation run_loop' := (run_loop uuid_text pg_text tenant user now).
#[local] Abbreviation run' := (run uuid_text pg_text tenant user now).

(** The pending ingest job of an idea. *)
Definition ingest_job (i : Uuid) (l : Jobs.Table) : option Uuid :=
  Jobs.id <$> find_first (debounces pg_text tenant tenant Ingest ("ingest:" +:+ uuid_text i)) l.
#[local] Abbreviation inflight := (inflight_of tenant tenant).

Lemma ingest_job_app (i j : Uuid) (l k : Jobs.Table) : ingest_job i l = Some j -> ingest_job i (l ++ k) = Some j.
Proof. unfold ingest_job. rewrite find_first_app. by destruct (find_first _ l). Qed.

Lemma enqueue_ingest_ok (new_job i j : Uuid) (t t' : Tables) :
  enqueue_ingest uuid_text pg_text tenant user now new_job i t = Ok (j, t') ->
  inflight (t_jobs t) < MAX_PENDING_PER_TENANT /\ t' = with_jobs (t_jobs t') t /\
  ingest_job i (t_jobs t') = Some j /\
  ((t' = t /\ ingest_job i (t_jobs t) = Some j) \/
   (exists new, t_jobs t' = t_jobs t ++ [new] /\ ingest_job i (t_jobs t) = None /\
      inflight (t_jobs t') = inflight (t_jobs t) + 1 /\
      forall i', i' <> i -> ingest_job i' (t_jobs t') = ingest_job i' (t_jobs t))).
Proof.
  unfold enqueue_ingest. destruct (enqueue _ _ _ _ _ _ _ _ _ _) as [[job|e] jobs] eqn:Hq; [|done]. intros [= <- <-].
  pose proof Hq as Hq'. apply enqueue_ok in Hq as (Hlt & _ & Hcase). split; [done|]. split; [done|].
  cbn [t_jobs with_jobs]. unfold ingest_job.
  destruct Hcase as [[-> Hf]|(Hf & -> & _ & ->)].
  - unfold enqueue in Hq'. fold (inflight_of tenant tenant (t_jobs t)) in Hq'.
    rewrite (proj2 (Z.leb_gt _ _) Hlt) in Hq'. cbn [mbind option_bind] in Hq'.
    destruct (find_first _ (t_jobs t)) as [x|]; [|done]. injection Hq' as <-.
    split; [done|]. left. by destruct t.
  - set (new := fresh_job _ _ _ _ _ _). assert (debounces pg_text tenant tenant Ingest ("ingest:" +:+ uuid_text i) new = true) as Hd
      by apply debounces_fresh.
    rewrite find_first_app, Hf. cbn [find_first opt_or]. rewrite Hd. split; [done|]. right. exists new.
    split; [done|]. split; [done|]. split.
    + unfold inflight_of. rewrite count_app. f_equal. unfold count. rewrite filter_cons, decide_True; [done|].
      unfold rls, in_flight, is_state. cbn. by rewrite !N.eqb_refl, bool_decide_eq_true_2.
    + intros i' Hne. rewrite find_first_app.
      assert (debounces pg_text tenant tenant Ingest ("ingest:" +:+ uuid_text i') new = false) as Hno.
      { unfold debounces. apply andb_false_iff. right. cbn. apply String.eqb_neq. intros [= Heq].
        apply uuid_inj in Heq. congruence. }
      cbn [find_first]. rewrite Hno.
      destruct (find_first (debounces pg_text tenant tenant Ingest ("ingest:" +:+ uuid_text i')) (t_jobs t)); reflexivity.
Qed.

Lemma run_loop_ok (new_jobs : nat -> Uuid) (dirty : list Uuid) (k : nat) (t t' : Tables) (js : list Uuid) :
  run_loop' new_jobs k dirty t = Ok (js, t') ->
  t' = with_jobs (t_jobs t') t /\ (exists more, t_jobs t' = t_jobs t ++ more) /\
  Forall2 (fun i j => ingest_job i (t_jobs t') = Some j) dirty js /\
  (NoDup dirty -> Forall (fun i => ingest_job i (t_jobs t) = None) dirty ->
     inflight (t_jobs t') = inflight (t_jobs t) + Z.of_nat (length dirty) /\
     (dirty <> [] -> inflight (t_jobs t') <= MAX_PENDING_PER_TENANT)).
Proof.
  revert k t js. induction dirty as [|i dirty IH]; intros k t js; cbn [run_loop].
  - intros [= <- <-]. split; [by destruct t|]. split; [exists []; by rewrite app_nil_r|].
    split; [done|]. intros _ _. split; [cbn; lia|done].
  - destruct (enqueue_ingest _ _ _ _ _ _ _ t) as [[j t1]|e] eqn:He; cbn [and_then]; [|done].
    destruct (run_loop' new_jobs (S k) dirty t1) as [[js' t2]|e] eqn:Hr; cbn [and_then]; [|done]. intros [= <- <-].
    apply enqueue_ingest_ok in He as (Hlt & Ht1 & Hj & Hcase). apply IH in Hr as (Ht2 & [more Hmore] & Hall & Hc).
    split; [rewrite Ht2, Ht1; done|]. split; [|split].
    + destruct Hcase as [[-> _]|(new & Hn & _)]; [by exists more|]. exists (new :: more).
      by rewrite Hmore, Hn, <- app_assoc.
    + constructor; [|done]. rewrite Hmore. by apply ingest_job_app.
    + intros Hnd Hnone. apply NoDup_cons in Hnd as [Hi Hnd]. apply Forall_cons in Hnone as [Hn1 Hnone].
      destruct Hcase as [[-> Hs]|(new & Hn & _ & Hin & Hother)]; [congruence|].
      destruct Hc as [Hcount Hmax]; [done| |].
      { apply Forall_forall. intros x Hx. rewrite Hother; [exact (proj1 (Forall_forall _ _) Hnone x Hx)|].
        intros ->. done. }
      cbn [length]. split; [lia|]. intros _. destruct dirty; [cbn in Hcount; lia|by apply Hmax].
Qed.

Lemma run_loop_again (new_jobs : nat -> Uuid) (dirty js : list Uuid) (k : nat) (t : Tables) :
  inflight (t_jobs t) < MAX_PENDING_PER_TENANT ->
  Forall2 (fun i j => ingest_job i (t_jobs t) = Some j) dirty js ->
  run_loop' new_jobs k dirty t = Ok (js, t).
Proof.
  intros Hlt Hall. revert k. induction Hall as [|i j dirty js Hij Hall IH]; intros k; [done|]. cbn [run_loop].
  unfold enqueue_ingest, enqueue. fold (inflight_of tenant tenant (t_jobs t)).
  rewrite (proj2 (Z.leb_gt _ _) Hlt). cbn [mbind option_bind]. unfold ingest_job in Hij.
  destruct (find_first _ (t_jobs t)) as [x|]; [|done]. injection Hij as ->. cbn [and_then].
  assert (with_jobs (t_jobs t) t = t) as -> by by destruct t. by rewrite IH.
Qed.

Lemma run_loop_err (new_jobs : nat -> Uuid) (dirty : list Uuid) (k : nat) (t : Tables) (e : ApiError) :
  run_loop' new_jobs k dirty t = Err e -> e = Errors.Overloaded.
Proof.
  revert k t. induction dirty as [|i dirty IH]; intros k t; [done|]. cbn [run_loop]. unfold enqueue_ingest.
  destruct (enqueue _ _ _ _ _ _ _ _ _ _) as [[job|e'] jobs]; cbn [and_then]; [|by intros [= <-]].
  destruct (run_loop' new_jobs (S k) dirty (with_jobs jobs t)) as [[js t1]|e'] eqn:E; cbn [and_then]; [done|].
  intros [= ->]. by eapply IH.
Qed.

(** The digest queues every capture the scan finds, one pending job each, and nothing else; a
    repetition, while the queue has room, answers the same jobs and adds nothing. It is all or nothing:
    when it errs nothing is queued. So when more captures wait than the queue holds, it can only fail:
    with more than 500 of them not queued yet, every run is refused and queues nothing. *)
Theorem digest_queues_dirty (new_jobs : nat -> Uuid) (t : Tables) :
  let dirty := IdeasRepo.select_dirty_for_ingest tenant (t_ideas t) in
  let '(r, t') := run' new_jobs t in
  match r with
  | Ok res =>
      enqueued res = Z.min Int.u32_max (Z.of_nat (length dirty)) /\
      Forall2 (fun i j => ingest_job i (t_jobs t') = Some j) dirty (job_ids res) /\
      (exists more, t' = with_jobs (t_jobs t ++ more) t) /\
      (inflight (t_jobs t') < MAX_PENDING_PER_TENANT -> forall new_jobs', run' new_jobs' t' = (Ok res, t'))
  | Err e => t' = t
  end /\
  (NoDup dirty -> Forall (fun i => ingest_job i (t_jobs t) = None) dirty ->
   MAX_PENDING_PER_TENANT < Z.of_nat (length dirty) -> (r, t') = (Err Errors.Overloaded, t)).
Proof.
  intros dirty. unfold run at 1. fold dirty.
  destruct (run_loop' new_jobs 0 dirty t) as [[js t']|e] eqn:Hr; cbn [and_then commit].
  - apply run_loop_ok in Hr as (Ht & [more Hmore] & Hall & Hc). pose proof (Forall2_length _ _ _ Hall) as Hlen.
    split.
    + split; [cbn; by rewrite Hlen|]. split; [done|]. split; [exists more; by rewrite <- Hmore|].
      intros Hlt new_jobs'. unfold run. assert (t_ideas t' = t_ideas t) as -> by (by rewrite Ht).
      fold dirty. by rewrite (run_loop_again new_jobs' dirty js 0 t' Hlt Hall).
    + intros Hnd Hnone Hbig. destruct (Hc Hnd Hnone) as [Hcount Hmax]. exfalso.
      assert (dirty <> []) as Hne by (intros He; rewrite He in Hbig; cbn in Hbig; unfold MAX_PENDING_PER_TENANT in Hbig; lia).
      specialize (Hmax Hne). assert (0 <= inflight (t_jobs t)) by (unfold inflight_of, count; lia). lia.
  - split; [done|]. intros _ _ _. f_equal. f_equal. by eapply run_loop_err.
Qed.
End DigestProps.

(** ** Escaping and the feed *)
Definition capture_tags : list (string * string) :=
  [("<system-reminder>", "&lt;system-reminder&gt;"); ("</system-reminder>", "&lt;/system-reminder&gt;");
   ("<untrusted_source", "&lt;untrusted_source"); ("</untrusted_source>", "&lt;/untrusted_source&gt;")].
(** No reserved tag survives, and escaping again changes nothing. *)
Lemma escape_clean (s : string) :
  (forall q, q ∈ fst <$> capture_tags -> Str.contains q (escape_reserved_tags s) = false) /\
  escape_reserved_tags (escape_reserved_tags s) = escape_reserved_tags s.
Proof.
  change (escape_reserved_tags s) with (replace_all capture_tags s).
  assert (tag_chain capture_tags = true) as Hc by done. split.
  - intros q Hq. apply list_elem_of_fmap in Hq as ([p r] & -> & Hin). by apply (replace_all_clean capture_tags p r).
  - change (escape_reserved_tags (replace_all capture_tags s)) with (replace_all capture_tags (replace_all capture_tags s)).
    by apply replace_all_idemp.
Qed.

Lemma firstn_sorted {A} (R : A -> A -> Prop) (n : nat) (l : list A) : StronglySorted R l -> StronglySorted R (firstn n l).
Proof.
  intros Hs. revert n. induction Hs as [|x l Hs IH Hx]; intros [|n]; cbn; constructor; [apply IH|].
  apply Forall_forall. intros y (i & Hy & _)%elem_of_take.
  exact (proj1 (Forall_forall _ _) Hx y (list_elem_of_lookup_2 _ _ _ Hy)).
Qed.

(** The feed: active captures of the tenant in the window, the newest first, all of them unless the
    limit cuts. *)
Definition in_feed (tenant : Uuid) (range : option (Z * Z)) (r : IdeaRow) : Prop :=
  i_tenant r = tenant /\ i_active r = true /\
  match range with Some (start, stop) => start <= i_captured_at r < stop | None => True end.
Lemma feed_is_newest (tenant : Uuid) (range : option (Z * Z)) (l : list IdeaRow) :
  let shown := feed_rows tenant range l in
  let limit := match range with Some _ => 500%nat | None => 50%nat end in
  (length shown <= limit)%nat /\ StronglySorted (fun a b => i_captured_at b <= i_captured_at a) shown /\
  (forall r, r ∈ shown -> r ∈ l /\ in_feed tenant range r) /\
  ((length shown < limit)%nat -> forall r, r ∈ l -> in_feed tenant range r -> r ∈ shown).
Proof.
  set (sel := match range with
              | Some (start, stop) => filter (fun r => (start <=? i_captured_at r) && (i_captured_at r <? stop) = true)
                  (filter (fun r => N.eqb (i_tenant r) tenant && i_active r = true) l)
              | None => filter (fun r => N.eqb (i_tenant r) tenant && i_active r = true) l
              end).
  intros shown limit. assert (shown = firstn limit (sort_by newest_first sel)) as Hs.
  { unfold shown, feed_rows, limit, sel. by destruct range as [[? ?]|]. }
  assert (forall r, r ∈ sel <-> r ∈ l /\ in_feed tenant range r) as Hsel.
  { intros r. unfold sel, in_feed. destruct range as [[a b]|]; rewrite ?list_elem_of_filter;
      rewrite ?andb_true_iff, ?N.eqb_eq, ?Z.leb_le, ?Z.ltb_lt; tauto. }
  rewrite Hs. split; [rewrite length_firstn; lia|]. split; [|split].
  - apply firstn_sorted.
    assert (StronglySorted (fun a b => newest_first a b = true) (sort_by newest_first sel)) as Hsorted.
    { apply sort_by_sorted; unfold newest_first; intros; rewrite !Z.leb_le in *; lia. }
    eapply sorted_impl; [|exact Hsorted]. intros x y. unfold newest_first. by rewrite Z.leb_le.
  - intros r (i & Hr & _)%elem_of_take. apply Hsel. rewrite <- (sort_by_perm newest_first sel).
    by eapply list_elem_of_lookup_2.
  - intros Hlen r Hr Hin. rewrite length_firstn in Hlen. rewrite firstn_all2 by lia.
    rewrite sort_by_perm. by apply Hsel.
Qed.

(** ** Witnesses *)
Definition append_files (p : Path) (line : string) (f : Files) : result string unit * Files :=
  (Ok tt, (p, unwrap_or (lookup_file p f) "" +:+ line) :: f).
Definition demo_uuid (i : Uuid) : string := pretty i.
Definition demo_capture_req : CaptureParams :=
  {| c_kind := "text"; c_body := Some "<system-reminder>hi"; c_source_url := None; c_origin := "capture";
     c_captured_at := None; c_lat := None; c_lng := None; c_accuracy := None |}.
Definition no_tables : Tables :=
  {| t_ideas := []; t_jobs := []; t_log := {| devices := []; ops := []; next_seq := 1 |};
     t_wiki := {| Repo.pages := []; Repo.links := [] |}; t_approvals := [] |}.
Definition demo_capture (kind : string) (t : Tables) :=
  @capture Files files_os append_files no_json demo_uuid (fun _ => "") (fun _ => "") (fun _ => None)
    (fun _ => "") demo_device demo_op_id ["objects"] 1%N 2%N 100 0 7%N 8%N (Some "key")
    {| c_kind := kind; c_body := c_body demo_capture_req; c_source_url := None; c_origin := "capture";
       c_captured_at := None; c_lat := None; c_lng := None; c_accuracy := None |} t t [].


(** A page that two captures feed, and one that only the first does. *)
Definition demo_page (i : Uuid) (sources : list Uuid) : Repo.PageRow :=
  {| Repo.id := i; Repo.tenant_id := 1%N; Repo.slug := "p"; Repo.title := "P"; Repo.aliases := [];
     Repo.tags := []; Repo.type_ := "concept"; Repo.summary := ""; Repo.reviewed := false;
     Repo.char_len := 0; Repo.body_ref := []; Repo.source_ids := sources; Repo.content_hash := "";
     Repo.sync_version := 1; Repo.deleted := false |}.
Definition demo_tables : Tables :=
  {| t_ideas := [new_idea 1%N 2%N 100 7%N None demo_capture_req "hi" "log" None]; t_jobs := [];
     t_log := t_log no_tables;
     t_wiki := {| Repo.pages := [demo_page 1%N [7%N; 9%N]; demo_page 2%N [7%N]]; Repo.links := [] |};
     t_approvals := [] |}.

Lemma demo_uuid_inj (i j : Uuid) : demo_uuid i = demo_uuid j -> i = j.
Proof. apply (inj pretty). Qed.
Lemma digest_queues_dirty_witness :
  let r := run demo_uuid (fun _ => "") 1%N 2%N 100 (fun k => N.of_nat k) demo_tables in
  fst r = Ok {| enqueued := 1; job_ids := [0%N] |} /\
  Forall2 (fun i j => ingest_job demo_uuid (fun _ => "") 1%N i (t_jobs (snd r)) = Some j) [7%N] [0%N].
Proof.
  cbv zeta. split; [vm_compute; reflexivity|].
  pose proof (digest_queues_dirty demo_uuid (fun _ => "") demo_uuid_inj 1%N 2%N 100 (fun k => N.of_nat k)
    demo_tables) as Hd. cbv zeta in Hd.
  destruct (run _ _ _ _ _ _ demo_tables) as [[res|e] t'] eqn:E; [|vm_compute in E; discriminate].
  destruct Hd as [(_ & Hall & _) _].
  assert (res = {| enqueued := 1; job_ids := [0%N] |}) as -> by (vm_compute in E; congruence).
  exact Hall.
Defined.

(** A lost race answers the winner's capture; a refused queue takes the row back but leaves the line in
    the object store. *)
Example refused_queue_loses_the_row :
  let full := with_jobs ((fun i => fresh_job 0 (N.of_nat i) 1%N None Ingest Null) <$> seq 10 500) no_tables in
  let '(r, t', f) := demo_capture "text" full in
  r = Err Errors.Overloaded /\ t_ideas t' = [] /\ length f = 1%nat.
Proof. vm_compute. repeat split. Qed.
