(* ===== verification/Sync.v ===== *)
(** * Materializing the operations of the clients

    [app-server/src/sync/materialize.rs] applies the operations of the log ([OpLog]) to the tables of
    captures and pages; [app-server/src/sync/routes.rs] pushes and pulls. A push runs in one
    transaction, but the write gate ([Wiki.Gate]) writes pages over connections of its own: what it
    writes is committed at once and stays when the push fails, it does not see the pages that the push
    has deleted so far, and when it has to update one of them it waits for the push, which waits for
    it. *)
From S2P Require Import Prelude RustStr Json WikiText Wiki Redact Jobs OpLog Ideas Server Capture.
From stdpp Require Import list.

#[local] Open Scope string_scope.
#[local] Open Scope list_scope.
#[local] Open Scope Z_scope.

Import Paths Errors Repo Gate.

(** [Hangs]: the request never answers. *)
Inductive SyncError : Type := SqlError (msg : string) | Hangs.

(** The state of a push: the tables of its transaction, the pages as committed, the pages its
    transaction has deleted, and the files. *)
Record Work {F : Type} : Type := {
  tx : Tables;
  committed : Db;
  deleted_here : list Uuid;
  files : F;
}.
Arguments Work F : clear implicits.

Section Materialize.
Context {F : Type} `{Os F} (append_line : Path -> string -> F -> result string unit * F).
Context `{Json} (uuid_text : Uuid -> string) (rfc3339 json_time : Z -> string)
  (parse_rfc3339 : string -> option Z).
Context (sha256_hex : string -> string) (new_page : Db -> Uuid) (quota : TenantQuota).
(** A number in JSON as [f64], and its rounding to [f32]. *)
Context (as_f64 : Value -> option Float) (to_f32 : Float -> Float).
(** [Uuid::now_v7()] for a new capture. *)
Context (new_idea_id : list IdeaRow -> Uuid).
(** The object store, the vault of the tenant, the request. *)
Context (root vault_root : Path) (tenant user : Uuid) (now : Z).

(** The pages as the transaction sees them. *)
Definition view (w : Work F) : Db := foldr (soft_delete tenant) (committed w) (deleted_here w).
Definition with_tx (t : Tables) (w : Work F) : Work F :=
  {| tx := t; committed := committed w; deleted_here := deleted_here w; files := files w |}.
Definition with_files (f : F) (w : Work F) : Work F :=
  {| tx := tx w; committed := committed w; deleted_here := deleted_here w; files := f |}.

(* src/qcue-rs/app-server/src/sync/materialize.rs 97-105 apply_wiki_op *)
Definition live_page (slug_ : string) (db : Db) : option PageRow :=
  find_first (fun r => live tenant r && String.eqb (slug r) slug_) (pages db).
(* src/qcue-rs/app-server/src/sync/materialize.rs 162-171 live_page_id *)
Definition live_page_id (slug_ : string) (db : Db) : option Uuid := id <$> live_page slug_ db.

(** A write of the gate, over its own connections. *)
Definition gate_write (p : PageWrite) (w : Work F) : result SyncError unit * Work F :=
  let '(r, db, f) := write_page sha256_hex new_page vault_root quota tenant p (committed w) (files w) in
  match r with
  | Ok i =>
      if bool_decide (i ∈ deleted_here w) then (Err Hangs, with_files f w)
      else (Ok tt, {| tx := tx w; committed := db; deleted_here := deleted_here w; files := f |})
  | Err _ => (Err (SqlError "page write failed"), {| tx := tx w; committed := db;
                                                     deleted_here := deleted_here w; files := f |})
  end.

(* src/qcue-rs/app-server/src/sync/materialize.rs 77-159 apply_wiki_op *)
Definition apply_wiki_op (slug_ : string) (op : Value) (w : Work F) : result SyncError unit * Work F :=
  if unwrap_or (Json.get "delete" op ≫= as_bool) false then
    match live_page_id slug_ (view w) with
    | Some i => (Ok tt, {| tx := tx w; committed := committed w; deleted_here := i :: deleted_here w; files := files w |})
    | None => (Ok tt, w)
    end
  else
    let current := live_page slug_ (view w) in
    let ty := unwrap_or (opt_or (Json.get "create" op ≫= get_str "type") (type_ <$> current)) "concept" in
    let title_ := unwrap_or (opt_or (get_str "set_title" op) (title <$> current)) slug_ in
    let body :=
      match get_str "set_body" op with
      | Some b => b
      | None =>
          match current with
          | Some r => unwrap_or (result_ok (read_body tenant (id r) (committed w) (files w))) ""
          | None => ""
          end
      end in
    let touches_page := opt_is_some (Json.get "create" op) || opt_is_some (Json.get "set_title" op)
                        || opt_is_some (Json.get "set_body" op) in
    if negb touches_page then (Ok tt, w)
    else
      gate_write {| w_type := ty; w_slug := slug_; w_title := title_; w_aliases := []; w_tags := [];
                    w_summary := ""; w_source_ids := []; w_body := body; llm_created := None;
                    llm_reviewed := None |} w.

(* src/qcue-rs/app-server/src/sync/materialize.rs 177-227 apply_idea_create *)
Definition apply_idea_create (entity_ref : string) (create : Value) (w : Work F) : result SyncError unit * Work F :=
  let body := unwrap_or (get_str "body" create) "" in
  let origin := unwrap_or (get_str "origin" create) "capture" in
  let idea := new_idea_id (t_ideas (tx w)) in
  let payload := obj [("kind", String_ "text"); ("body", String_ body); ("origin", String_ origin)] in
  let '(r, f) := append_capture append_line uuid_text json_time root now tenant user idea payload (files w) in
  match r with
  | Err e => (Err (SqlError e), with_files f w)
  | Ok log_ref =>
      let parsed_at := get_str "captured_at" create ≫= parse_rfc3339 in
      let row :=
        {| i_id := idea; i_tenant := tenant; i_user := user; i_kind := "text"; i_body := body;
           i_source_url := None; i_log_ref := log_ref; i_provider := None; i_state := Ideas.Pending;
           i_job := None; i_origin := origin; i_captured_at := unwrap_or parsed_at now; i_active := true;
           i_updated_at := now; i_last_ingested := None; i_idem := Some entity_ref; i_lat := None;
           i_lng := None; i_accuracy := None |} in
      if existsb (by_key tenant entity_ref) (t_ideas (tx w)) then (Ok tt, with_files f w)
      else if existsb (fun r => N.eqb (i_id r) idea) (t_ideas (tx w))
      then (Err (SqlError "duplicate key value violates unique constraint"), with_files f w)
      else (Ok tt, with_tx (with_ideas (t_ideas (tx w) ++ [row]) (tx w)) (with_files f w))
  end.

Definition set_ideas (p : IdeaRow -> bool) (g : IdeaRow -> IdeaRow) (w : Work F) : Work F :=
  with_tx (with_ideas (update_ideas p g (t_ideas (tx w))) (tx w)) w.

(* src/qcue-rs/app-server/src/sync/materialize.rs 235-278 apply_idea_update *)
Definition apply_idea_update (entity_ref : string) (update : Value) (w : Work F) : Work F :=
  let new_body := get_str "body" update in
  let lat := Json.get "lat" update ≫= as_f64 in
  let lng := Json.get "lng" update ≫= as_f64 in
  let acc := to_f32 <$> (Json.get "loc_accuracy_m" update ≫= as_f64) in
  match new_body with
  | Some b =>
      set_ideas (fun r => by_key tenant entity_ref r && negb (String.eqb (i_body r) b)) (set_body now b lat lng acc) w
  | None => set_ideas (by_key tenant entity_ref) (set_location now lat lng acc) w
  end.

(* src/qcue-rs/app-server/src/sync/materialize.rs 283-290 apply_idea_delete *)
Definition apply_idea_delete (entity_ref : string) (w : Work F) : Work F :=
  set_ideas (by_key tenant entity_ref) (set_inactive now) w.

(** One operation, by its kind, its reference and its bag. *)
(* src/qcue-rs/app-server/src/sync/materialize.rs 45-63 apply_unapplied *)
Definition apply_op (entity_kind entity_ref : string) (op : Value) (w : Work F) : result SyncError unit * Work F :=
  if String.eqb entity_kind "idea" then
    match Json.get "create" op with
    | Some create => apply_idea_create entity_ref create w
    | None =>
        match Json.get "update" op with
        | Some update => (Ok tt, apply_idea_update entity_ref update w)
        | None =>
            if opt_is_some (Json.get "delete" op) then (Ok tt, apply_idea_delete entity_ref w) else (Ok tt, w)
        end
    end
  else if String.eqb entity_kind "wiki_page" then apply_wiki_op entity_ref op w
  else (Ok tt, w).

(** [UPDATE sync_ops SET applied=true WHERE id=$1] *)
Definition applied_row (o : OpRow) : OpRow :=
  {| o_id := o_id o; o_tenant := o_tenant o; o_user := o_user o; o_device := o_device o; o_wall := o_wall o;
     o_lamport := o_lamport o; o_site := o_site o; o_kind := o_kind o; o_ref := o_ref o; o_op := o_op o;
     o_applied := true; o_seq := o_seq o |}.
(* src/qcue-rs/app-server/src/sync/materialize.rs 64-67 apply_unapplied *)
Definition mark_applied (i : Uuid) (w : Work F) : Work F :=
  let log := t_log (tx w) in
  with_tx (with_log {| devices := devices log;
                       ops := (fun o => if of_tenant tenant o && N.eqb (o_id o) i then applied_row o else o) <$> ops log;
                       next_seq := next_seq log |} (tx w)) w.

(* src/qcue-rs/app-server/src/sync/materialize.rs 33-39 apply_unapplied *)
Definition unapplied (log : Log) : list OpRow :=
  sort_by by_hlc (filter (fun o => of_tenant tenant o && negb (o_applied o) = true) (ops log)).
(* src/qcue-rs/app-server/src/sync/materialize.rs 41-69 apply_unapplied *)
Fixpoint apply_loop (rows : list OpRow) (w : Work F) : result SyncError Z * Work F :=
  match rows with
  | [] => (Ok 0, w)
  | r :: rows =>
      match apply_op (o_kind r) (o_ref r) (o_op r) w with
      | (Err e, w) => (Err e, w)
      | (Ok _, w) =>
          let '(n, w) := apply_loop rows (mark_applied (o_id r) w) in
          (result_map (Z.add 1) n, w)
      end
  end.
(* src/qcue-rs/app-server/src/sync/materialize.rs 26-71 apply_unapplied *)
Definition apply_unapplied (w : Work F) : result SyncError Z * Work F :=
  apply_loop (unapplied (t_log (tx w))) w.

(** ** Push *)
(** What a failed push leaves: the tables with the pages the gate wrote. *)
Definition rolled_back (t : Tables) (w : Work F) : Tables := with_wiki (committed w) t.

(** The answer, if any, the tables and the files; [t_wiki] of the tables are the pages as committed. *)
(* src/qcue-rs/app-server/src/sync/routes.rs 159-182 push_route *)
Definition push_route (new_op : Z -> Uuid) (device : Uuid) (l : list Wire.SyncOp) (t : Tables) (f : F) :
  option (result ApiError (Z * Z)) * Tables * F :=
  if Nat.ltb MAX_OPS_PER_PUSH (length l)
  then (Some (Err (BadRequest "too many ops in one push (max 1000)")), t, f)
  else
    match push_ops new_op tenant user device l (t_log t) with
    | Err e => (Some (Err (Errors.Db e)), t, f)
    | Ok (inserted, log) =>
        let w := {| tx := with_log log t; committed := t_wiki t; deleted_here := []; files := f |} in
        match apply_unapplied w with
        | (Err (SqlError e), w) => (Some (Err (Errors.Db e)), rolled_back t w, files w)
        | (Err Hangs, w) => (None, rolled_back t w, files w)
        | (Ok _, w) =>
            (Some (Ok (inserted, tenant_cursor tenant (t_log (tx w)))), with_wiki (view w) (tx w), files w)
        end
    end.

(** ** Reading *)
(* src/qcue-rs/app-server/src/sync/materialize.rs 296-316 wiki_page_state *)
Definition wiki_page_state (slug_ : string) (db : Db) : option Value :=
  (fun r => obj [("title", String_ (title r)); ("content_hash", String_ (content_hash r));
                 ("sync_version", jnum (sync_version r))]) <$> live_page slug_ db.

(* src/qcue-rs/protocol/src/sync.rs 31-36 IdeaSnap *)
Record IdeaSnap : Type := { is_id : string; is_body : string; is_origin : string; is_captured_at : string }.
(* src/qcue-rs/protocol/src/sync.rs 22-27 WikiPageSnap *)
Record WikiPageSnap : Type := { ws_slug : string; ws_title : string; ws_hash : string; ws_version : Z }.
(* src/qcue-rs/protocol/src/sync.rs 40-43 SyncSnapshot *)
Record SyncSnapshot : Type := { sn_ideas : list IdeaSnap; sn_pages : list WikiPageSnap }.
(* src/qcue-rs/protocol/src/sync.rs 47-53 SyncDelta *)
Record SyncDelta : Type := { sd_cursor : Z; sd_snapshot : option SyncSnapshot; sd_ops : list Wire.SyncOp }.

(** [ORDER BY slug]: the order of the database's collation is a parameter. *)
(* src/qcue-rs/app-server/src/sync/materialize.rs 373-407 snapshot *)
Definition snapshot (slug_le : string -> string -> bool) (t : Tables) : SyncSnapshot :=
  {| sn_ideas :=
       (fun r => {| is_id := uuid_text (i_id r); is_body := i_body r; is_origin := i_origin r;
                    is_captured_at := rfc3339 (i_captured_at r) |})
       <$> sort_by (fun a b => i_captured_at a <=? i_captured_at b)
             (filter (fun r => N.eqb (i_tenant r) tenant && i_active r = true) (t_ideas t));
     sn_pages :=
       (fun r => {| ws_slug := slug r; ws_title := title r; ws_hash := content_hash r; ws_version := sync_version r |})
       <$> sort_by (fun a b => slug_le (slug a) (slug b)) (existing_pages tenant (t_wiki t)) |}.

(* src/qcue-rs/app-server/src/sync/routes.rs 188-209 pull_route *)
Definition pull_route (slug_le : string -> string -> bool) (query : option string) (t : Tables) : SyncDelta :=
  let since := unwrap_or (Query.query_param query "since" ≫= Str.parse_i64) 0 in
  let cursor := tenant_cursor tenant (t_log t) in
  if since <=? 0
  then {| sd_cursor := cursor; sd_snapshot := Some (snapshot slug_le t); sd_ops := [] |}
  else {| sd_cursor := cursor; sd_snapshot := None; sd_ops := ops_since_seq tenant since (t_log t) |}.
End Materialize.

(** * Properties *)
Section SyncProps.
Context {F : Type} `{Os F} (append_line : Path -> string -> F -> result string unit * F).
Context `{Json} (uuid_text : Uuid -> string) (json_time : Z -> string)
  (parse_rfc3339 : string -> option Z).
Context (sha256_hex : string -> string) (new_page : Db -> Uuid) (quota : TenantQuota).
Context (as_f64 : Value -> option Float) (to_f32 : Float -> Float).
Context (new_idea_id : list IdeaRow -> Uuid) (new_op : Z -> Uuid).
Context (root vault_root : Path) (tenant user : Uuid) (now : Z).

#[local] Abbreviation apply_op' := (apply_op append_line uuid_text json_time parse_rfc3339 sha256_hex new_page
  quota as_f64 to_f32 new_idea_id root vault_root tenant user now).
#[local] Abbreviation apply_loop' := (apply_loop append_line uuid_text json_time parse_rfc3339 sha256_hex new_page
  quota as_f64 to_f32 new_idea_id root vault_root tenant user now).
#[local] Abbreviation apply_unapplied' := (apply_unapplied append_line uuid_text json_time parse_rfc3339 sha256_hex
  new_page quota as_f64 to_f32 new_idea_id root vault_root tenant user now).
#[local] Abbreviation push_route' := (push_route append_line uuid_text json_time parse_rfc3339 sha256_hex
  new_page quota as_f64 to_f32 new_idea_id root vault_root tenant user now new_op).

(** ** Applying does not look at the log *)
Definition set_log (log : Log) (w : Work F) : Work F := with_tx (with_log log (tx w)) w.
Abbreviation log_of := (fun w => t_log (tx w)).

Lemma gate_write_log (p : PageWrite) (log : Log) (w : Work F) :
  gate_write sha256_hex new_page quota vault_root tenant p (set_log log w)
  = (let '(r, w') := gate_write sha256_hex new_page quota vault_root tenant p w in (r, set_log log w')) /\
  log_of (snd (gate_write sha256_hex new_page quota vault_root tenant p w)) = log_of w.
Proof.
  unfold gate_write. cbn [set_log with_tx committed files].
  destruct (write_page _ _ _ _ _ _ _ _) as [[[i|e] db] f]; [|done]. cbn [deleted_here set_log with_tx].
  by destruct (bool_decide _).
Qed.

Lemma wiki_op_log (slug_ : string) (op : Value) (log : Log) (w : Work F) :
  let r := apply_wiki_op sha256_hex new_page quota vault_root tenant slug_ op in
  r (set_log log w) = (let '(x, w') := r w in (x, set_log log w')) /\ log_of (snd (r w)) = log_of w.
Proof.
  cbn zeta. unfold apply_wiki_op. change (view tenant (set_log log w)) with (view tenant w).
  change (committed (set_log log w)) with (committed w). change (files (set_log log w)) with (files w).
  destruct (unwrap_or _ false). { destruct (live_page_id tenant slug_ (view tenant w)). all: done. } destruct (negb _); [done|].
  apply gate_write_log.
Qed.

Lemma idea_create_log (reff : string) (create : Value) (log : Log) (w : Work F) :
  let r := apply_idea_create append_line uuid_text json_time parse_rfc3339 new_idea_id root tenant user now reff create in
  r (set_log log w) = (let '(x, w') := r w in (x, set_log log w')) /\ log_of (snd (r w)) = log_of w.
Proof.
  cbn zeta. unfold apply_idea_create. change (t_ideas (tx (set_log log w))) with (t_ideas (tx w)).
  change (files (set_log log w)) with (files w).
  destruct (append_capture _ _ _ _ _ _ _ _ _) as [[log_ref|e] f]; [|done].
  destruct (existsb (by_key tenant reff) _); [done|]. by destruct (existsb _ (t_ideas (tx w))).
Qed.

Lemma apply_op_log (kind reff : string) (op : Value) (log : Log) (w : Work F) :
  apply_op' kind reff op (set_log log w) = (let '(x, w') := apply_op' kind reff op w in (x, set_log log w')) /\
  log_of (snd (apply_op' kind reff op w)) = log_of w.
Proof.
  unfold apply_op. destruct (String.eqb kind "idea").
  - destruct (Json.get "create" op); [apply idea_create_log|].
    destruct (Json.get "update" op) as [u|].
    + unfold apply_idea_update. by destruct (get_str "body" u).
    + by destruct (opt_is_some _).
  - destruct (String.eqb kind "wiki_page"); [apply wiki_op_log|done].
Qed.

(** ** What a pass over the operations does to the log *)
Definition mark (ids : list Uuid) (o : OpRow) : OpRow :=
  if of_tenant tenant o && bool_decide (o_id o ∈ ids) then applied_row o else o.

Lemma mark_applied_log (i : Uuid) (w : Work F) :
  ops (log_of (mark_applied tenant i w)) = mark [i] <$> ops (log_of w).
Proof.
  unfold mark_applied. cbn. apply list_fmap_ext. intros n o _. unfold mark.
  destruct (of_tenant tenant o); [|done]. cbn [andb].
  destruct (N.eqb_spec (o_id o) i) as [->|Hne]; [by rewrite bool_decide_eq_true_2 by left|].
  rewrite bool_decide_eq_false_2; [done|]. intros [?|Hin]%elem_of_cons; [done|]. by apply elem_of_nil in Hin.
Qed.

Lemma mark_mark (i : Uuid) (l : list Uuid) (o : OpRow) : mark l (mark [i] o) = mark (i :: l) o.
Proof.
  unfold mark. destruct (of_tenant tenant o) eqn:Ht; cbn [andb]; [|by rewrite Ht].
  destruct (decide (o_id o = i)) as [He|Hne].
  - rewrite (bool_decide_eq_true_2 (o_id o ∈ [i])), (bool_decide_eq_true_2 (o_id o ∈ i :: l)) by (subst i; left).
    unfold of_tenant in *. cbn [applied_row o_tenant o_id]. rewrite Ht. cbn [andb].
    by destruct (bool_decide (o_id o ∈ l)).
  - rewrite (bool_decide_eq_false_2 (o_id o ∈ [i])), Ht; cbn [andb].
    + rewrite (bool_decide_ext (o_id o ∈ i :: l) (o_id o ∈ l)); [done|]. rewrite elem_of_cons. tauto.
    + intros [?|Hin]%elem_of_cons; [done|]. by apply elem_of_nil in Hin.
Qed.

Lemma apply_loop_log (rows : list OpRow) (w w' : Work F) (n : Z) :
  apply_loop' rows w = (Ok n, w') ->
  n = Z.of_nat (length rows) /\ devices (log_of w') = devices (log_of w) /\
  next_seq (log_of w') = next_seq (log_of w) /\
  ops (log_of w') = mark (o_id <$> rows) <$> ops (log_of w).
Proof.
  revert w n. induction rows as [|r rows IH]; intros w n; cbn [apply_loop].
  - intros [= <- <-]. repeat split. rewrite <- (list_fmap_id (ops _)) at 1. apply list_fmap_ext. intros k o _.
    unfold mark. cbn. by rewrite andb_false_r.
  - pose proof (apply_op_log (o_kind r) (o_ref r) (o_op r) (log_of w) w) as [_ Hlog].
    destruct (apply_op' _ _ _ w) as [[u|e] w1]; [|done].
    destruct (apply_loop' rows _) as [[m|e] w2] eqn:Hl; [|done]. intros [= <- <-].
    apply IH in Hl as (-> & Hd & Hs & Ho). cbn [snd] in Hlog. split; [cbn [length]; lia|].
    split; [rewrite Hd; cbn; by rewrite Hlog|]. split; [rewrite Hs; cbn; by rewrite Hlog|].
    rewrite Ho, mark_applied_log, Hlog, <- list_fmap_compose. apply list_fmap_ext. intros k o _. apply mark_mark.
Qed.

Lemma mark_key (ids : list Uuid) (o : OpRow) : op_key (mark ids o) = op_key o /\ o_seq (mark ids o) = o_seq o
  /\ o_tenant (mark ids o) = o_tenant o.
Proof. unfold mark. by destruct (_ && _). Qed.

Lemma mark_keys (ids : list Uuid) (l : list OpRow) : op_key <$> (mark ids <$> l) = op_key <$> l.
Proof. rewrite <- list_fmap_compose. apply list_fmap_ext. intros n o _. apply mark_key. Qed.

Lemma unapplied_elem (log : Log) (o : OpRow) :
  o ∈ unapplied tenant log <-> o ∈ ops log /\ o_tenant o = tenant /\ o_applied o = false.
Proof.
  unfold unapplied. rewrite sort_by_perm, list_elem_of_filter. unfold of_tenant.
  rewrite andb_true_iff, N.eqb_eq, negb_true_iff. tauto.
Qed.

Lemma no_backlog (log : Log) :
  (forall o, o ∈ ops log -> o_tenant o = tenant -> o_applied o = true) -> unapplied tenant log = [].
Proof.
  intros Ha. destruct (unapplied tenant log) as [|o l] eqn:E; [done|]. exfalso.
  assert (o ∈ unapplied tenant log) as Ho by (rewrite E; left). apply unapplied_elem in Ho as (Ho & Ht & Hx).
  rewrite (Ha o Ho Ht) in Hx. done.
Qed.

Lemma apply_unapplied_ok (w w' : Work F) (n : Z) :
  apply_unapplied' w = (Ok n, w') ->
  n = Z.of_nat (length (unapplied tenant (log_of w))) /\ devices (log_of w') = devices (log_of w) /\
  op_key <$> ops (log_of w') = op_key <$> ops (log_of w) /\
  (forall o, o ∈ ops (log_of w') -> o_tenant o = tenant -> o_applied o = true) /\
  (forall o, o ∈ ops (log_of w) -> o_tenant o <> tenant -> o ∈ ops (log_of w')).
Proof.
  unfold apply_unapplied. intros Hl. apply apply_loop_log in Hl as (-> & Hd & _ & Ho).
  split; [done|]. split; [done|]. rewrite Ho. split; [apply mark_keys|]. split.
  - intros o' Hin Ht. apply list_elem_of_fmap in Hin as (o & -> & Hin).
    destruct (mark_key (o_id <$> unapplied tenant (log_of w)) o) as (_ & _ & Hmt). rewrite Hmt in Ht.
    unfold mark. assert (of_tenant tenant o = true) as -> by (by apply N.eqb_eq). cbn [andb].
    case_bool_decide as Hx; [done|]. destruct (o_applied o) eqn:Ha; [done|]. exfalso. apply Hx.
    apply list_elem_of_fmap_2. by apply unapplied_elem.
  - intros o Hin Ht. apply list_elem_of_fmap. exists o. split; [|done]. unfold mark.
    assert (of_tenant tenant o = false) as -> by (by apply N.eqb_neq). done.
Qed.

(** No operation of the tenant waits to be applied. *)
Definition settled (t : Tables) : Prop := forall o, o ∈ ops (t_log t) -> o_tenant o = tenant -> o_applied o = true.


(** ** The order in which operations arrive *)
(** What applying uses of a row, and what it is sorted by. *)
Definition Content : Type := string * string * Value.
Definition Stamp : Type := Z * Z * Z * Content.
Definition stamp_row (o : OpRow) : Stamp := (o_wall o, o_lamport o, o_site o, (o_kind o, o_ref o, o_op o)).
Definition stamp_wire (o : Wire.SyncOp) : Stamp :=
  (Wire.hlc_wall_ms o, Wire.hlc_lamport o, Wire.site_id o,
   (Wire.entity_kind o, Wire.entity_ref o, Boundary.redact_json (Wire.op o))).
Definition stamp_le (a b : Stamp) : bool :=
  let '(w, l, s, _) := a in let '(w', l', s', _) := b in
  (w <? w') || (w =? w') && ((l <? l') || (l =? l') && (s <=? s')).
Definition stamp_key (a : Stamp) : Z * Z := let '(_, l, s, _) := a in (s, l).
Definition wire_site_key (o : Wire.SyncOp) : Z * Z := (Wire.site_id o, Wire.hlc_lamport o).

Lemma stamp_le_cases (a b : Stamp) :
  stamp_le a b = true <->
  let '(w, l, s, _) := a in let '(w', l', s', _) := b in w < w' \/ w = w' /\ (l < l' \/ l = l' /\ s <= s').
Proof.
  destruct a as [[[w l] s] c], b as [[[w' l'] s'] c']. unfold stamp_le.
  rewrite orb_true_iff, andb_true_iff, orb_true_iff, andb_true_iff, !Z.ltb_lt, !Z.eqb_eq, Z.leb_le. tauto.
Qed.
Lemma stamp_le_total (a b : Stamp) : stamp_le a b = true \/ stamp_le b a = true.
Proof. rewrite !stamp_le_cases. destruct a as [[[w l] s] c], b as [[[w' l'] s'] c']. lia. Qed.
Lemma stamp_le_trans (a b c : Stamp) : stamp_le a b = true -> stamp_le b c = true -> stamp_le a c = true.
Proof.
  rewrite !stamp_le_cases. destruct a as [[[w l] s] x], b as [[[w' l'] s'] y], c as [[[w2 l2] s2] z]. lia.
Qed.

(** A batch whose keys are distinct is inserted as it is, less what the log has already. *)
Definition fresh_ops (device : Uuid) (log : Log) (l : list Wire.SyncOp) : list Wire.SyncOp :=
  filter (fun o => wire_key tenant device o ∉ (op_key <$> ops log)) l.
Lemma push_ops_rows (device : Uuid) (l : list Wire.SyncOp) (log log' : Log) (n : Z) :
  NoDup (wire_site_key <$> l) -> push_ops new_op tenant user device l log = Ok (n, log') ->
  exists rows, ops log' = ops log ++ rows /\ stamp_row <$> rows = stamp_wire <$> fresh_ops device log l /\
    n = Z.of_nat (length (fresh_ops device log l)) /\
    Forall (fun o => of_tenant tenant o && negb (o_applied o) = true) rows.
Proof.
  revert log n. induction l as [|o l IH]; intros log n Hnd; cbn [push_ops].
  - intros [= <- <-]. exists []. rewrite app_nil_r. by repeat split.
  - cbn in Hnd. apply NoDup_cons in Hnd as [Ho Hnd].
    destruct (insert_op _ _ _ _ o _ log) as [[n1 log1]|e] eqn:Hi; cbn [and_then]; [|done].
    destruct (push_ops _ _ _ _ l log1) as [[n2 log2]|e] eqn:Hp; cbn [and_then]; [|done]. intros [= <- <-].
    apply insert_op_ok in Hi as (_ & _ & _ & Hcase). apply IH in Hp as (rows & Hr & Hst & -> & Hall); [|done].
    unfold fresh_ops in *. rewrite filter_cons. destruct Hcase as [(Hk & -> & He)|(Hk & -> & He)].
    + rewrite decide_False by (intros Hx; by apply Hx). rewrite He in *. exists rows. by rewrite Z.add_0_l.
    + rewrite decide_True by done.
      assert (filter (fun x => wire_key tenant device x ∉ (op_key <$> ops log1)) l
              = filter (fun x => wire_key tenant device x ∉ (op_key <$> ops log)) l) as Hf.
      { apply filter_iff_in. intros x Hx. rewrite He, fmap_app, elem_of_app. cbn.
        rewrite list_elem_of_singleton. split; [tauto|]. intros Hn [?|Heq]; [done|]. apply Ho.
        apply list_elem_of_fmap. exists x. split; [|done]. unfold wire_key, op_key, op_row in Heq.
        unfold wire_site_key. cbn in Heq. congruence. }
      rewrite Hf in *. eexists. rewrite Hr, He, <- app_assoc. split; [reflexivity|]. cbn [app fmap list_fmap length].
      split; [by f_equal|]. split; [lia|]. constructor; [|done]. unfold of_tenant. cbn. by rewrite N.eqb_refl.
Qed.

(** Applying without the marks in the log. *)
Fixpoint run_ops (l : list Content) (w : Work F) : result SyncError Z * Work F :=
  match l with
  | [] => (Ok 0, w)
  | (kind, reff, op) :: l =>
      match apply_op' kind reff op w with
      | (Err e, w) => (Err e, w)
      | (Ok _, w) => let '(n, w) := run_ops l w in (result_map (Z.add 1) n, w)
      end
  end.
Definition content (o : OpRow) : Content := (o_kind o, o_ref o, o_op o).

Lemma set_log_twice (log log' : Log) (w : Work F) : set_log log (set_log log' w) = set_log log w.
Proof. done. Qed.
Lemma set_log_same (w : Work F) : set_log (log_of w) w = w.
Proof. by destruct w as [[] ? ? ?]. Qed.

Lemma run_ops_log (l : list Content) (log : Log) (w : Work F) :
  run_ops l (set_log log w) = (let '(x, w') := run_ops l w in (x, set_log log w')) /\
  log_of (snd (run_ops l w)) = log_of w.
Proof.
  revert w. induction l as [|[[kind reff] op] l IH]; intros w; [done|]. cbn [run_ops].
  destruct (apply_op_log kind reff op log w) as [Ha Hb]. rewrite Ha.
  destruct (apply_op' kind reff op w) as [[u|e] w1]; cbn [snd] in Hb; [|done].
  destruct (IH w1) as [H1 H2]. rewrite H1. destruct (run_ops l w1) as [n w2]. cbn [snd] in *. by rewrite H2.
Qed.

Lemma loop_is_run (rows : list OpRow) (w : Work F) :
  let '(r, w') := apply_loop' rows w in run_ops (content <$> rows) w = (r, set_log (log_of w) w').
Proof.
  revert w. induction rows as [|o rows IH]; intros w; cbn [apply_loop fmap list_fmap run_ops content].
  - by rewrite set_log_same.
  - pose proof (apply_op_log (o_kind o) (o_ref o) (o_op o) (log_of w) w) as [_ Hb].
    destruct (apply_op' _ _ _ w) as [[u|e] w1] eqn:E; cbn [snd] in Hb; cycle 1.
    + by rewrite <- Hb, set_log_same.
    + specialize (IH (mark_applied tenant (o_id o) w1)).
      assert (mark_applied tenant (o_id o) w1 = set_log (log_of (mark_applied tenant (o_id o) w1)) w1) as Hm by done.
      destruct (apply_loop' rows (mark_applied tenant (o_id o) w1)) as [n w2].
      rewrite Hm in IH at 1. destruct (run_ops_log (content <$> rows) (log_of (mark_applied tenant (o_id o) w1)) w1)
        as [H1 H2]. rewrite H1 in IH. fold content. destruct (run_ops (content <$> rows) w1) as [m w3].
      cbn [snd] in H2. apply pair_equal_spec in IH as [-> IH]. f_equal.
      rewrite <- (set_log_same w3), H2, Hb. apply (f_equal (set_log (log_of w))) in IH. exact IH.
Qed.

Lemma unapplied_fresh (log log' : Log) (rows : list OpRow) :
  unapplied tenant log = [] -> ops log' = ops log ++ rows ->
  Forall (fun o => of_tenant tenant o && negb (o_applied o) = true) rows ->
  stamp_row <$> unapplied tenant log' = sort_by stamp_le (stamp_row <$> rows).
Proof.
  intros Hb Hr Hall. rewrite sort_by_fmap. f_equal. unfold unapplied. rewrite Hr, filter_app.
  assert (filter (fun o => of_tenant tenant o && negb (o_applied o) = true) (ops log) = []) as ->.
  { apply Permutation_nil. unfold unapplied in Hb. rewrite <- Hb. apply sort_by_perm. }
  assert (filter (fun o => of_tenant tenant o && negb (o_applied o) = true) rows = rows) as ->; [|done].
  clear Hr. induction Hall as [|o rows Ho Hall IH]; [done|]. by rewrite filter_cons, decide_True, IH.
Qed.

(** What a push leaves but for the rows of the log, and its answer but for the cursor. *)
Definition same_outcome (a b : option (result ApiError (Z * Z)) * Tables * F) : Prop :=
  option_map (result_map fst) (fst (fst a)) = option_map (result_map fst) (fst (fst b)) /\
  with_log (t_log (snd (fst b))) (snd (fst a)) = snd (fst b) /\ snd a = snd b.

Lemma push_ops_cases (device : Uuid) (l : list Wire.SyncOp) (log : Log) :
  match push_ops new_op tenant user device l log with
  | Ok _ => l = [] \/ existsb (fun d => N.eqb (d_id d) device) (devices log) = true
  | Err e => l <> [] /\ existsb (fun d => N.eqb (d_id d) device) (devices log) = false /\
             e = "insert violates foreign key constraint"
  end.
Proof.
  destruct l as [|o l]; [by left|]. destruct (push_ops _ _ _ _ _ _) as [[n log']|e] eqn:Hp.
  - right. by apply push_ops_ok in Hp as (_ & _ & _ & _ & Hd); apply Hd.
  - split; [done|]. revert log Hp. generalize (o :: l). clear o l. intros l.
    induction l as [|o l IH]; intros log; cbn [push_ops]; [done|].
    destruct (insert_op _ _ _ _ o _ log) as [[n1 log1]|e1] eqn:Hi; cbn [and_then].
    + destruct (push_ops _ _ _ _ l log1) as [[n2 log2]|e2] eqn:Hp; cbn [and_then]; [done|]. intros [= ->].
      apply insert_op_ok in Hi as (Hd & _ & Hx & _). apply IH in Hp as [Hf _]. rewrite Hd in Hf. congruence.
    + intros [= <-]. unfold insert_op in Hi. destruct (existsb _ (devices log)); [done|]. by injection Hi as <-.
Qed.

Lemma fresh_stamps_sorted (device : Uuid) (log : Log) (l1 l2 : list Wire.SyncOp) :
  Permutation l1 l2 -> NoDup (wire_site_key <$> l1) ->
  sort_by stamp_le (stamp_wire <$> fresh_ops device log l1) = sort_by stamp_le (stamp_wire <$> fresh_ops device log l2).
Proof.
  intros Hp Hnd. apply sort_by_unique; [apply stamp_le_total|apply stamp_le_trans| |].
  - assert (NoDup (stamp_key <$> (stamp_wire <$> fresh_ops device log l1))) as Hn.
    { rewrite <- list_fmap_compose. by apply (nodup_key_filter wire_site_key). }
    intros x y Hx Hy Hxy Hyx. apply (nodup_key stamp_key _ _ _ Hn Hx Hy).
    apply stamp_le_cases in Hxy, Hyx. destruct x as [[[? ?] ?] ?], y as [[[? ?] ?] ?]. cbn. f_equal; lia.
  - unfold fresh_ops. by rewrite Hp.
Qed.

(** Within one push the order of the operations does not matter: from a log without backlog, two
    batches with the same operations in any order, no two of them with the same site and logical time,
    answer the same and leave the same captures, pages and files, whether they are applied to the end, fail
    or hang. *)
Theorem push_order_irrelevant (device : Uuid) (l1 l2 : list Wire.SyncOp) (t : Tables) (f : F) :
  Permutation l1 l2 -> NoDup (wire_site_key <$> l1) -> unapplied tenant (t_log t) = [] ->
  same_outcome (push_route' device l1 t f) (push_route' device l2 t f).
Proof.
  intros Hp Hnd Hb. assert (NoDup (wire_site_key <$> l2)) as Hnd2 by (by rewrite <- Hp).
  unfold push_route. rewrite <- (Permutation_length Hp).
  destruct (Nat.ltb _ _); [split; [done|]; split; [by destruct t|done]|].
  pose proof (push_ops_cases device l1 (t_log t)) as Hc1. pose proof (push_ops_cases device l2 (t_log t)) as Hc2.
  assert (l1 = [] <-> l2 = []) as Hnil.
  { split; intros ->; [by apply Permutation_nil in Hp|by symmetry in Hp; apply Permutation_nil in Hp]. }
  destruct (push_ops new_op tenant user device l1 (t_log t)) as [[n1 log1]|e1] eqn:H1,
    (push_ops new_op tenant user device l2 (t_log t)) as [[n2 log2]|e2] eqn:H2.
  - apply push_ops_rows in H1 as (r1 & Ho1 & Hs1 & -> & Ha1); [|done].
    apply push_ops_rows in H2 as (r2 & Ho2 & Hs2 & -> & Ha2); [|done].
    assert (content <$> unapplied tenant log1 = content <$> unapplied tenant log2) as Hcont.
    { assert (forall l : list OpRow, content <$> l = snd <$> (stamp_row <$> l)) as Hsnd
        by (intros l; rewrite <- list_fmap_compose; done).
      rewrite !Hsnd. f_equal. rewrite (unapplied_fresh _ _ _ Hb Ho1 Ha1), (unapplied_fresh _ _ _ Hb Ho2 Ha2).
      rewrite Hs1, Hs2. by apply fresh_stamps_sorted. }
    set (w1 := {| tx := with_log log1 t; committed := t_wiki t; deleted_here := []; files := f |}).
    change ({| tx := with_log log2 t; committed := t_wiki t; deleted_here := []; files := f |}) with (set_log log2 w1).
    pose proof (loop_is_run (unapplied tenant log1) w1) as L1.
    pose proof (loop_is_run (unapplied tenant log2) (set_log log2 w1)) as L2.
    unfold apply_unapplied. change (t_log (tx w1)) with log1 in *.
    change (t_log (tx (set_log log2 w1))) with log2 in *.
    destruct (apply_loop' (unapplied tenant log1) w1) as [x1 v1],
      (apply_loop' (unapplied tenant log2) (set_log log2 w1)) as [x2 v2].
    destruct (run_ops_log (content <$> unapplied tenant log2) log2 w1) as [L3 _].
    rewrite L2, <- Hcont, L1 in L3. apply pair_equal_spec in L3 as [-> L3]. rewrite set_log_twice in L3.
    assert (exists lg, v2 = set_log lg v1) as [lg ->].
    { exists (log_of v2). apply (f_equal (set_log (log_of v2))) in L3. rewrite !set_log_twice in L3.
      by rewrite set_log_same in L3. }
    assert (length (fresh_ops device (t_log t) l1) = length (fresh_ops device (t_log t) l2)) as Hlen
      by (unfold fresh_ops; by rewrite Hp).
    rewrite Hlen. destruct x1 as [n|[e|]]; (split; [reflexivity|split; [|reflexivity]]); destruct t; reflexivity.
  - exfalso. destruct Hc2 as (Hne & Hf & _). destruct Hc1 as [Hn|Ht]; [tauto|congruence].
  - exfalso. destruct Hc1 as (Hne & Hf & _). destruct Hc2 as [Hn|Ht]; [tauto|congruence].
  - destruct Hc1 as (_ & _ & ->), Hc2 as (_ & _ & ->). split; [done|]. split; [by destruct t|done].
Qed.
End SyncProps.

(** ** Witnesses *)
Definition demo_push (l : list Wire.SyncOp) (t : Tables) (f : Files) :=
  @push_route Files files_os append_files no_json demo_uuid (fun _ => "") (fun _ => None) (fun s => s)
    (fun db => N.of_nat (10 + length (pages db))) default_quota (fun _ => None) (fun x => x)
    (fun l => N.of_nat (50 + length l)) ["objects"] ["vault"] 1%N 2%N 100 demo_op_id 7%N l t f.
Definition phone_tables : Tables :=
  {| t_ideas := []; t_jobs := []; t_log := phone_log; t_wiki := {| pages := []; links := [] |}; t_approvals := [] |}.
Definition page_op (wall lamport : Z) (l : list (string * Value)) : Wire.SyncOp :=
  {| Wire.hlc_wall_ms := wall; Wire.hlc_lamport := lamport; Wire.site_id := 1; Wire.entity_kind := "wiki_page";
     Wire.entity_ref := "rust"; Wire.op := obj l |}.
Definition set_body_op (wall lamport : Z) (b : string) : Wire.SyncOp := page_op wall lamport [("set_body", String_ b)].
Definition body_of (f : Files) : option string := lookup_file ["vault"; "concepts"; "rust.md"] f.

Lemma push_order_irrelevant_witness :
  let older := set_body_op 10 1 "old" in let newer := set_body_op 20 2 "new" in
  same_outcome (demo_push [older; newer] phone_tables []) (demo_push [newer; older] phone_tables []) /\
  body_of (snd (demo_push [newer; older] phone_tables [])) = Some "new".
Proof.
  cbv zeta. split; [|vm_compute; reflexivity].
  apply push_order_irrelevant.
  - apply perm_swap.
  - constructor; [|constructor; [|constructor]].
    + intros [Hx|Hx]%elem_of_cons; [discriminate|]. by apply elem_of_nil in Hx.
    + intros Hx. by apply elem_of_nil in Hx.
  - vm_compute. reflexivity.
Defined.

(** Across pushes it does: the older operation, pushed later, wins. *)
Example late_op_overrides :
  let '(_, t, f) := demo_push [set_body_op 20 2 "new"] phone_tables [] in
  body_of (snd (demo_push [set_body_op 10 1 "old"] t f)) = Some "old".
Proof. vm_compute. reflexivity. Qed.

(** A page deleted and written again in one push: the push waits for itself. *)
Example delete_then_write_hangs :
  let '(_, t, f) := demo_push [set_body_op 10 1 "text"] phone_tables [] in
  fst (fst (demo_push [page_op 20 2 [("delete", Bool true)]; set_body_op 30 3 "again"] t f)) = None /\
  is_ok <$> fst (fst (demo_push [page_op 20 2 [("delete", Bool true)]] t f)) = Some true.
Proof. vm_compute. split; reflexivity. Qed.

(** A rejected page operation fails the push, whose earlier page stays written while its operation is
    not in the log. *)
Example rejected_op_fails_the_push :
  let '(r, t, f) := demo_push [set_body_op 10 1 "text"; page_op 20 2 [("create", obj [("type", String_ "bogus")])]]
                      phone_tables [] in
  r = Some (Err (Errors.Db "page write failed")) /\ body_of f = Some "text" /\
  length (pages (t_wiki t)) = 1%nat /\ ops (t_log t) = [].
Proof. vm_compute. repeat split. Qed.

(** A change of the title alone drops the aliases of the page, and its body when it cannot be read. *)
Example title_op_drops_aliases :
  let t := with_wiki {| pages := [demo_row]; links := [] |} phone_tables in
  let op := [page_op 10 1 [("set_title", String_ "Rust!")]] in
  let '(_, t', f') := demo_push op t [(rust_md, "A language.")] in
  let '(_, _, f0) := demo_push op t [] in
  (fun r => (title r, aliases r)) <$> pages (t_wiki t') = [("Rust!", [])] /\
  lookup_file ["vault"; "entities"; "rust.md"] f' = Some "A language." /\
  lookup_file ["vault"; "entities"; "rust.md"] f0 = Some "".
Proof. vm_compute. repeat split. Qed.

(** An edit or a delete from another device names the capture by the identifier the snapshot gave it,
    but looks for a capture with that idempotency key: captures taken over HTTP are not found. *)
Example delete_by_id_is_lost :
  let t := with_ideas [new_idea 1%N 2%N 100 7%N None demo_capture_req "hi" "log" None] phone_tables in
  let op := {| Wire.hlc_wall_ms := 10; Wire.hlc_lamport := 1; Wire.site_id := 1; Wire.entity_kind := "idea";
               Wire.entity_ref := demo_uuid 7%N; Wire.op := obj [("delete", obj [])] |} in
  let '(r, t', _) := demo_push [op] t [] in
  r = Some (Ok (1, 1)) /\ i_active <$> t_ideas t' = [true].
Proof. vm_compute. split; reflexivity. Qed.
