(* ===== verification/Ingest.v ===== *)
(** * The ingest of a capture

    [wiki/src/ingest.rs], the handler of [app-server/src/ingest/mod.rs] and the prompt they share. Module
    [Items] is the concurrent part: one task per entity and concept, each a sequence of phases between
    the points where it awaits, driven by a scheduler that may pick any task that can move. Module
    [Pipeline] is the six stages, in a monad over the tables, the files and the world of the model, with a
    trace of the checks and calls; [Handler] is the job handler.

    A write of the gate is one step: that its query, its file and its row are separate awaits is not
    modelled, nor are other jobs that run meanwhile. *)
From S2P Require Import Prelude RustStr Json Protocol Fence Jobs WikiText Wiki Extract Ideas Cost Redact Server.
From stdpp Require Import list pretty.
Import Paths Conflict Repo Gate Factory.

#[local] Open Scope string_scope.
#[local] Open Scope list_scope.

(* src/qcue-rs/wiki/src/prompts/constraints.rs 13-15 build_page_generation_prompt *)
Definition build_page_generation_prompt (planned_paths : list string) : string :=
  "Write the page. Planned pages you may link: " +:+ Str.join ", " planned_paths +:+ Str.lf
  +:+ Factory.UNIVERSAL_LINK_CONSTRAINTS.

(** The texts of the errors. *)
(* src/qcue-rs/wiki/src/path_guard.rs 8-19 PathError *)
Definition path_text (e : PathError) : string :=
  match e with
  | Escapes => "path escapes tenant root"
  | Illegal => "null byte / illegal char"
  | NotMarkdown => "not a .md file"
  | TooBig => "exceeds size cap"
  | Io msg => "io: " +:+ msg
  end.
(* src/qcue-rs/wiki/src/write_gate.rs 71-78 write_page *)
Definition gate_text (quota : TenantQuota) (e : GateError) : string :=
  match e with
  | Quota pages bytes =>
      "tenant vault quota exceeded (" +:+ pretty pages +:+ " pages / " +:+ pretty bytes +:+ " bytes; caps "
      +:+ pretty (max_pages quota) +:+ " / " +:+ pretty (max_bytes quota) +:+ ")"
  | PathErr e => path_text e
  | IoErr msg | DbErr msg => msg
  end.
(* src/qcue-rs/wiki/src/llm.rs 15-23 WikiLlmError *)
Definition llm_text (e : Analyzer.WikiLlmError) : string :=
  match e with
  | Analyzer.Provider msg => "provider error: " +:+ msg
  | Analyzer.CostCeiling => "cost ceiling reached"
  | Analyzer.Cancelled => "cancelled"
  end.
(* src/qcue-rs/wiki/src/cost.rs 12-14 CeilingReached *)
Definition cost_text (e : Guard.CostError) : string :=
  match e with
  | Guard.CeilingReached reason => "cost ceiling reached: " +:+ reason
  | Guard.DbError msg => msg
  end.

(** ** Fallbacks *)
Module Fallback.
(** [s.split(is one of stops).next()] *)
Fixpoint until (stops l : list string) : list string :=
  match l with
  | [] => []
  | c :: l => if existsb (String.eqb c) stops then [] else c :: until stops l
  end.
(** The full stop of Chinese, U+3002. *)
Definition ideographic_stop : string := Str.bytes [227; 128; 130]%nat.

(* src/qcue-rs/wiki/src/ingest.rs 329-335 fallback_title *)
Definition fallback_title (body : string) : string :=
  let line := unwrap_or (find_first (fun l => negb (String.eqb l "")) (Str.trim <$> Str.lines body)) "" in
  let sentence := Str.trim (Chars.concat (until ["."; ideographic_stop; "!"; "?"; Str.lf] (Chars.chars line))) in
  let title := Str.trim (Chars.take 80 sentence) in
  if String.eqb title "" then "Untitled note" else title.

(* src/qcue-rs/wiki/src/ingest.rs 339-341 fallback_summary *)
Definition fallback_summary (body : string) : string := Chars.take 200 (Str.join " " (Words.split_whitespace body)).

(* src/qcue-rs/wiki/src/ingest.rs 344-346 short_idea_id *)
Definition short_idea_id (i : Uuid) : string := Chars.take 8 (Limiter.hex_pad 32 (Z.of_N i) "").
End Fallback.
Import Fallback.

(** ** What the ingest asks and reports *)
(* src/qcue-rs/wiki/src/types.rs 36-44 IngestReport *)
Record IngestReport : Type := {
  created_pages : list Uuid;
  merged_pages : list Uuid;
  skipped_redundant : bool;
  report_contradictions : list Uuid;
  errors : list string;
}.
Definition empty_report : IngestReport :=
  {| created_pages := []; merged_pages := []; skipped_redundant := false; report_contradictions := [];
     errors := [] |}.

(* src/qcue-rs/wiki/src/ingest.rs 37-41 IdeaInput *)
Record IdeaInput : Type := { idea : Uuid; idea_body : string; origin : string }.

(** A request for the body of a page. *)
Definition page_request (what : string) (max_tokens_ : Z) : WikiReq :=
  {| stable_prefix := build_page_generation_prompt []; messages := [user_msg what]; response_format := None;
     max_tokens := max_tokens_; cache_breakpoint := Some 1%Z; disable_thinking := true |}.

(** What the ingest does at the model and the ledger, in order. *)
Inductive Ev : Type := EvCheck (ok : bool) | EvCall (req : WikiReq).

(** ** The items of a capture *)
Module Items.
(** An entity or concept to write: its name and type. *)
Record Item : Type := { it_name : string; it_type : string }.

(** Where a task stands: waiting for a permit, about to ask for a body, about to look for the page, about
    to create it; or about to read the page found, to have the texts merged, to write what came out. *)
(* src/qcue-rs/wiki/src/ingest.rs 208-257 run *)
Inductive Phase : Type :=
  | Waiting
  | Asking
  | Resolving (c : CreateOrUpdate)
  | Creating (c : CreateOrUpdate)
  | Reading (target : Uuid) (cross : bool) (c : CreateOrUpdate)
  | Merging (target : Uuid) (cross : bool) (r : PageRow) (old : string) (c : CreateOrUpdate)
  | Writing (target : Uuid) (cross : bool) (r : PageRow) (new : string) (c : CreateOrUpdate)
  | Finished (out : result string (Uuid * bool)).

Definition holds_permit (p : Phase) : bool :=
  match p with Waiting | Finished _ => false | _ => true end.
(** The most steps a task has left. *)
Definition remaining (p : Phase) : nat :=
  match p with
  | Waiting => 6 | Asking => 5 | Resolving _ => 4 | Creating _ | Reading _ _ _ => 3
  | Merging _ _ _ _ _ => 2 | Writing _ _ _ _ _ => 1 | Finished _ => 0
  end.

Section Tasks.
Context {F L : Type} `{Os F} `{Unicode} (sha256_hex : string -> string) (new_id : Db -> Uuid).
Context (vault_root : Path) (quota : TenantQuota).
(** [WikiLlm::create_message]. *)
Context (create_message : Uuid -> WikiReq -> L -> result Analyzer.WikiLlmError Analyzer.WikiResp * L).
Context (tenant idea_id : Uuid).

(** Tables, files and the world of the model. *)
Definition Env : Type := Db * F * L.

Definition ask_text (t : Uuid) (req : WikiReq) (l : L) : result string string * L :=
  let '(r, l) := create_message t req l in
  (map_err llm_text (result_map Analyzer.resp_content r), l).

Definition item_request (i : Item) : WikiReq :=
  page_request ("Write a " +:+ it_type i +:+ " page for " +:+ it_name i +:+ ".") 1024.
Definition proposal (i : Item) (body : string) : CreateOrUpdate :=
  {| c_name := it_name i; c_type := it_type i; c_body := body; c_aliases := []; c_tags := []; c_summary := "";
     c_source := Some idea_id |}.
Definition factory_text (e : FactoryError) : string :=
  match e with GateErr e => gate_text quota e | LlmErr msg => msg end.
Definition reported (out : PageOutcome) : Uuid * bool := (page_id out, created out).

(** One step of a task that holds a permit. *)
(* src/qcue-rs/wiki/src/ingest.rs 222-257 run *)
Definition advance (i : Item) (p : Phase) (e : Env) : Phase * Env :=
  let '(db, f, l) := e in
  match p with
  | Waiting => (Asking, e)
  | Asking =>
      match ask_text tenant (item_request i) l with
      | (Err m, l) => (Finished (Err m), (db, f, l))
      | (Ok body, l) => (Resolving (proposal i body), (db, f, l))
      end
  | Resolving c =>
      let res := resolve (c_name c) (c_type c) (existing_page <$> existing_pages tenant db) in
      match action res, target res with
      | Create, _ => (Creating c, e)
      | Merge, Some target => (Reading target false c, e)
      | Flag, Some target => (Reading target true c, e)
      | _, None => (Finished (Err "merge resolution missing target"), e)
      end
  | Creating c =>
      match write_new sha256_hex new_id vault_root quota tenant c db f with
      | (Ok j, db, f) => (Finished (Ok (j, true)), (db, f, l))
      | (Err m, db, f) => (Finished (Err (gate_text quota m)), (db, f, l))
      end
  | Reading target cross c =>
      match page tenant target db with
      | None => (Finished (Err "no rows returned"), e)
      | Some r =>
          match read_body tenant target db f with
          | Err m => (Finished (Err (gate_text quota m)), e)
          | Ok old =>
              if reviewed r then (Writing target cross r (appended old (c_body c)) c, e)
              else (Merging target cross r old c, e)
          end
      end
  | Merging target cross r old c =>
      match llm_merge ask_text tenant old (c_body c) l with
      | (Err m, l) => (Finished (Err m), (db, f, l))
      | (Ok new, l) =>
          if String.eqb (Str.trim new) NO_NEW_CONTENT
          then (Finished (Ok (target, false)), (db, f, l))
          else (Writing target cross r new c, (db, f, l))
      end
  | Writing target cross r new c =>
      let '(out, db, f) := merged_with sha256_hex new_id vault_root quota tenant target cross r new c db f in
      (Finished (result_map reported (map_err factory_text out)), (db, f, l))
  | Finished _ => (p, e)
  end.

(** The body of a task as the source has it, run without interruption. *)
(* src/qcue-rs/wiki/src/ingest.rs 222-257 run *)
Definition item_task (i : Item) (e : Env) : result string (Uuid * bool) * Env :=
  let '(db, f, l) := e in
  match ask_text tenant (item_request i) l with
  | (Err m, l) => (Err m, (db, f, l))
  | (Ok body, l) =>
      let '(out, db, f, l) :=
        create_or_update sha256_hex new_id vault_root quota ask_text tenant (proposal i body) db f l in
      (result_map reported (map_err factory_text out), (db, f, l))
  end.

(** The tasks, the results in the order they came in, and what they share. *)
Record Sys : Type := { tasks : list (Item * Phase); results : list (result string (Uuid * bool)); env : Env }.

Context (concurrency : nat).
Definition permits_held (s : Sys) : nat := length (filter (fun t => holds_permit (snd t) = true) (tasks s)).

(** One step of task [k], if it can move: a waiting one needs a free permit. *)
Definition step (k : nat) (s : Sys) : option Sys :=
  '(i, p) ← tasks s !! k;
  match p with
  | Finished _ => None
  | Waiting =>
      if Nat.ltb (permits_held s) concurrency
      then Some {| tasks := <[k := (i, Asking)]> (tasks s); results := results s; env := env s |} else None
  | _ =>
      let '(p, e) := advance i p (env s) in
      Some {| tasks := <[k := (i, p)]> (tasks s);
              results := match p with Finished out => results s ++ [out] | _ => results s end; env := e |}
  end.

(** The task picked, or else the first that can move. *)
Definition first_able (ks : list nat) (s : Sys) : option Sys := head (omap (fun k => step k s) ks).
Definition step_any (pick : Sys -> nat) (s : Sys) : option Sys :=
  match step (pick s) s with Some s => Some s | None => first_able (seq 0 (length (tasks s))) s end.

(* src/qcue-rs/wiki/src/ingest.rs 259-270 run *)
Fixpoint drive (fuel : nat) (pick : Sys -> nat) (s : Sys) : Sys :=
  match fuel with
  | O => s
  | S fuel => match step_any pick s with Some s => drive fuel pick s | None => s end
  end.

Definition start (items : list Item) (e : Env) : Sys :=
  {| tasks := (fun i => (i, Waiting)) <$> items; results := []; env := e |}.
Definition work (s : Sys) : nat := list_sum (map (fun t => remaining (snd t)) (tasks s)).
Definition run_items (pick : Sys -> nat) (items : list Item) (e : Env) : Sys :=
  drive (work (start items e)) pick (start items e).
End Tasks.

(** What a result adds to the report. *)
(* src/qcue-rs/wiki/src/ingest.rs 260-269 run *)
Definition collect (rep : IngestReport) (r : result string (Uuid * bool)) : IngestReport :=
  match r with
  | Ok (i, true) =>
      {| created_pages := created_pages rep ++ [i]; merged_pages := merged_pages rep;
         skipped_redundant := skipped_redundant rep; report_contradictions := report_contradictions rep;
         errors := errors rep |}
  | Ok (i, false) =>
      {| created_pages := created_pages rep; merged_pages := merged_pages rep ++ [i];
         skipped_redundant := skipped_redundant rep; report_contradictions := report_contradictions rep;
         errors := errors rep |}
  | Err e =>
      {| created_pages := created_pages rep; merged_pages := merged_pages rep;
         skipped_redundant := skipped_redundant rep; report_contradictions := report_contradictions rep;
         errors := errors rep ++ [e] |}
  end.
End Items.
Import Items.

(** ** The six stages *)
Module Pipeline.
(** How a stage ends: with a value, with the text of its error, or with a panic. *)
Inductive Out (A : Type) : Type := Ret (a : A) | Failed (e : string) | Panicked.
#[global] Arguments Ret {A} _.
#[global] Arguments Failed {A} _.
#[global] Arguments Panicked {A}.

Section Run.
Context {F L : Type} `{Os F} `{Unicode} `{Json} (sha256_hex : string -> string) (new_id : Db -> Uuid).
Context (vault_root : Path) (quota : TenantQuota).
(** [WikiLlm::create_message] and the check of the cost guard, over a world that holds both the model and
    the ledger. *)
Context (create_message : Uuid -> WikiReq -> L -> result Analyzer.WikiLlmError Analyzer.WikiResp * L).
Context (check_ledger : Uuid -> Uuid -> L -> result Guard.CostError unit * L).
(** The conversions serde derives for the analysis. *)
Context (sa_from_value : Value -> option Analyzer.SourceAnalysis) (item_from_value : Value -> option Analyzer.ItemInfo).
Context (contradictions_from_value : Value -> option (list Analyzer.ContradictionInfo)).
Context (sa_to_value : Analyzer.SourceAnalysis -> Value).
(** The column [updated] of a page; the times of the last two transactions. *)
Context (updated : PageRow -> Z) (now stamp : Z).
(** [IngestDeps] *)
Context (concurrency : nat) (language : string) (source_tags : list string).
(** Whether the token is cancelled when it is looked at for the [k]-th item; which task moves next. *)
Context (cancelled : nat -> bool) (pick : @Sys F (L * list Ev) -> nat).

Record St : Type := { s_db : Db; s_files : F; s_ideas : list IdeaRow; s_llm : L * list Ev }.
Definition M (A : Type) : Type := St -> Out A * St.
Definition ret {A} (a : A) : M A := fun s => (Ret a, s).
Definition bind {A B} (m : M A) (k : A -> M B) : M B := fun s =>
  match m s with
  | (Ret a, s) => k a s
  | (Failed e, s) => (Failed e, s)
  | (Panicked, s) => (Panicked, s)
  end.
#[local] Notation "'let!' x := m 'in' k" := (bind m (fun x => k)) (at level 10, x pattern, k at level 200).

(** Calls and checks, on record. *)
Definition logged (t : Uuid) (req : WikiReq) (l : L * list Ev) :
  result Analyzer.WikiLlmError Analyzer.WikiResp * (L * list Ev) :=
  let '(r, l') := create_message t req (fst l) in (r, (l', snd l ++ [EvCall req])).
Definition with_llm (l : L * list Ev) (s : St) : St :=
  {| s_db := s_db s; s_files := s_files s; s_ideas := s_ideas s; s_llm := l |}.
Definition ask (t : Uuid) (req : WikiReq) : M Analyzer.WikiResp := fun s =>
  let '(r, l) := logged t req (s_llm s) in
  (match r with Ok r => Ret r | Err e => Failed (llm_text e) end, with_llm l s).
Definition check_before_call (tenant user : Uuid) : M unit := fun s =>
  let '(r, l) := check_ledger tenant user (fst (s_llm s)) in
  (match r with Ok _ => Ret tt | Err e => Failed (cost_text e) end,
   with_llm (l, snd (s_llm s) ++ [EvCheck (is_ok r)]) s).

(* src/qcue-rs/store/src/wiki_repo.rs 58-74 catalog_rows *)
Definition catalog_rows (tenant : Uuid) (db : Db) : list (string * string * string * list string) :=
  (fun r => (slug r, title r, summary r, aliases r))
  <$> sort_by (fun a b => Z.leb (updated b) (updated a))
        (filter (fun r => live tenant r && existsb (String.eqb (type_ r)) ["entity"; "concept"; "source"] = true)
           (pages db)).
Definition index_of (tenant : Uuid) : M string := fun s =>
  match IndexGen.regenerate_index (catalog_rows tenant (s_db s)) with
  | Some index => (Ret index, s)
  | None => (Panicked, s)
  end.

Definition set_ingest_state (tenant i : Uuid) (state : string) : M unit := fun s =>
  match IdeasRepo.set_ingest_state now tenant i state (s_ideas s) with
  | Ok l => (Ret tt, {| s_db := s_db s; s_files := s_files s; s_ideas := l; s_llm := s_llm s |})
  | Err e => (Failed e, s)
  end.
Definition set_last_ingested (tenant i : Uuid) : M unit := fun s =>
  (Ret tt, {| s_db := s_db s; s_files := s_files s;
              s_ideas := IdeasRepo.set_last_ingested stamp tenant i (s_ideas s); s_llm := s_llm s |}).

(* src/qcue-rs/wiki/src/ingest.rs 281-309 is_redundant *)
Definition is_redundant (tenant : Uuid) (index : string) (i : IdeaInput) : M bool :=
  let! resp := ask tenant
    {| stable_prefix := "Decide if the NEW capture is fully_redundant vs the INDEX. Reply JSON {"
                        +:+ Str.quote +:+ "fully_redundant" +:+ Str.quote +:+ ":bool}." +:+ Str.lf
                        +:+ "INDEX:" +:+ Str.lf +:+ index;
       messages := [user_msg (Fence.fence_untrusted (origin i) (idea_body i))]; response_format := None;
       max_tokens := 64; cache_breakpoint := Some 1%Z; disable_thinking := true |} in
  ret (match Hardening.parse_json_response (Analyzer.resp_content resp) with
       | Ok v => unwrap_or (Json.get "fully_redundant" v ≫= as_bool) false
       | Err _ => false
       end).

(** The analyzer in conversation mode makes one call or two and loops nowhere. *)
Definition analyze (tenant : Uuid) (content : string) : M Analyzer.SourceAnalysis := fun s =>
  match Analyzer.analyze logged sa_from_value item_from_value contradictions_from_value sa_to_value 0 language
          tenant content Analyzer.Conversation (s_llm s) with
  | Some (Ok (sa, _), l) => (Ret sa, with_llm l s)
  | Some (Err e, l) => (Failed (llm_text e), with_llm l s)
  | None => (Panicked, s)
  end.

(** Title, slug and summary of the source page. *)
(* src/qcue-rs/wiki/src/ingest.rs 137-159 run *)
Definition source_page (i : IdeaInput) (sa : Analyzer.SourceAnalysis) (prior : option string) :
  string * string * string :=
  if String.eqb (Str.trim (Analyzer.source_title sa)) "" then
    let t := fallback_title (idea_body i) in
    (t, unwrap_or prior (slugify t +:+ "-" +:+ short_idea_id (idea i)),
     if String.eqb (Str.trim (Analyzer.sa_summary sa)) "" then fallback_summary (idea_body i)
     else Analyzer.sa_summary sa)
  else
    (Analyzer.source_title sa, unwrap_or prior (slugify (Analyzer.source_title sa)), Analyzer.sa_summary sa).

(* src/qcue-rs/wiki/src/ingest.rs 160-183 run *)
Definition write_source (tenant : Uuid) (i : IdeaInput) (p : string * string * string) (body : string) : M Uuid :=
  fun s =>
  let '(t, sl, sm) := p in
  let '(r, db, f) := write_page sha256_hex new_id vault_root quota tenant
    {| w_type := "source"; w_slug := sl; w_title := t; w_aliases := []; w_tags := source_tags; w_summary := sm;
       w_source_ids := [idea i]; w_body := body; llm_created := None; llm_reviewed := None |}
    (s_db s) (s_files s) in
  (match r with Ok j => Ret j | Err e => Failed (gate_text quota e) end,
   {| s_db := db; s_files := f; s_ideas := s_ideas s; s_llm := s_llm s |}).

(* src/qcue-rs/wiki/src/ingest.rs 189-194 run *)
Definition items_of (sa : Analyzer.SourceAnalysis) : list Item :=
  ((fun e => {| it_name := Analyzer.name e; it_type := "entity" |}) <$> Analyzer.entities sa)
  ++ ((fun c => {| it_name := Analyzer.name c; it_type := "concept" |}) <$> Analyzer.concepts sa).

(** The items queued: a check for each, before any of them is asked for. *)
(* src/qcue-rs/wiki/src/ingest.rs 195-258 run *)
Fixpoint queue (tenant user : Uuid) (k : nat) (items : list Item) : M (list Item) :=
  match items with
  | [] => ret []
  | i :: items =>
      if cancelled k then ret []
      else
        let! _ := check_before_call tenant user in
        let! rest := queue tenant user (S k) items in
        ret (i :: rest)
  end.

Definition write_items (tenant : Uuid) (i : IdeaInput) (items : list Item) :
  M (list (result string (Uuid * bool))) := fun s =>
  let sys := run_items sha256_hex new_id vault_root quota logged tenant (idea i) concurrency pick items
               (s_db s, s_files s, s_llm s) in
  let '(db, f, l) := env sys in
  (Ret (results sys), {| s_db := db; s_files := f; s_ideas := s_ideas s; s_llm := l |}).

Definition skipped_report : IngestReport :=
  {| created_pages := []; merged_pages := []; skipped_redundant := true; report_contradictions := []; errors := [] |}.
Definition source_report (src : Uuid) : IngestReport :=
  {| created_pages := [src]; merged_pages := []; skipped_redundant := false; report_contradictions := [];
     errors := [] |}.

(* src/qcue-rs/wiki/src/ingest.rs 91-279 run *)
Definition run (tenant user : Uuid) (i : IdeaInput) : M IngestReport :=
  let! _ := check_before_call tenant user in
  let! index := index_of tenant in
  let! redundant := is_redundant tenant index i in
  if redundant : bool then
    let! _ := set_ingest_state tenant (idea i) "skipped_redundant" in
    ret skipped_report
  else
    let! _ := check_before_call tenant user in
    let fenced_body := Fence.fence_untrusted (origin i) (idea_body i) in
    let! sa := analyze tenant fenced_body in
    let! _ := check_before_call tenant user in
    let! resp := ask tenant (page_request ("Write a source summary for:" +:+ Str.lf +:+ fenced_body) 2048) in
    let! prior := (fun s => (Ret (IdeasRepo.source_page_slug updated tenant (idea i) (s_db s)), s)) in
    let! src := write_source tenant i (source_page i sa prior) (Analyzer.resp_content resp) in
    let! items := queue tenant user 0 (items_of sa) in
    let! outs := write_items tenant i items in
    let! _ := index_of tenant in
    let! _ := set_ingest_state tenant (idea i) "ingested" in
    let! _ := set_last_ingested tenant (idea i) in
    ret (foldl collect (source_report src) outs).
End Run.
End Pipeline.
Import Pipeline.

(** ** The handler *)
Module Handler.
Section Handle.
Context {F L : Type} `{Os F} `{Unicode} `{Json} (sha256_hex : string -> string) (new_id : Db -> Uuid).
Context (quota : TenantQuota).
Context (create_message : Uuid -> WikiReq -> L -> result Analyzer.WikiLlmError Analyzer.WikiResp * L).
Context (check_ledger : Uuid -> Uuid -> L -> result Guard.CostError unit * L).
Context (sa_from_value : Value -> option Analyzer.SourceAnalysis) (item_from_value : Value -> option Analyzer.ItemInfo).
Context (contradictions_from_value : Value -> option (list Analyzer.ContradictionInfo)).
Context (sa_to_value : Analyzer.SourceAnalysis -> Value).
Context (updated : PageRow -> Z) (now stamp : Z).
Context (pick : @Sys F (L * list Ev) -> nat).
(** [Uuid::parse_str] and its [Display]. *)
Context (parse_uuid : string -> option Uuid) (uuid_text : Uuid -> string).

(** [IngestHandler]: the base of the vaults and the language; pool and model are in the state. *)
(* src/qcue-rs/app-server/src/ingest/mod.rs 25-30 IngestHandler *)
Record IngestHandler : Type := { vault_root_base : Path; h_language : string }.
(* src/qcue-rs/app-server/src/ingest/mod.rs 33-35 new *)
Definition handler_new (base : Path) : IngestHandler := {| vault_root_base := base; h_language := "en" |}.
(** [IngestDeps::new]'s concurrency. *)
(* src/qcue-rs/wiki/src/ingest.rs 57-74 new *)
Definition default_concurrency : nat := 4.

(* src/qcue-rs/app-server/src/ingest/mod.rs 38-42 vault_root *)
Definition vault_root (h : IngestHandler) (tenant : Uuid) (s : @St F L) : Path * @St F L :=
  let root := Paths.join (vault_root_base h) ("t/" +:+ uuid_text tenant +:+ "/u/_") in
  (root, {| s_db := s_db s; s_files := snd (create_dir_all root (s_files s)); s_ideas := s_ideas s;
            s_llm := s_llm s |}).

(* src/qcue-rs/app-server/src/ingest/mod.rs 45-59 load_idea *)
Definition load_idea (tenant i : Uuid) (s : @St F L) : result string (Uuid * string * string) :=
  match find_first (own tenant i) (s_ideas s) with
  | Some r => Ok (i_user r, i_body r, i_origin r)
  | None => Err "no rows returned by a query that expected to return at least one row"
  end.

Definition report_json (rep : IngestReport) : Value :=
  let ids l := Array ((fun i => String_ (uuid_text i)) <$> l) in
  obj [("created_pages", ids (created_pages rep)); ("merged_pages", ids (merged_pages rep));
       ("skipped_redundant", Bool (skipped_redundant rep)); ("contradictions", ids (report_contradictions rep));
       ("errors", Array (String_ <$> errors rep))].

(* src/qcue-rs/app-server/src/ingest/mod.rs 64-89 handle *)
Definition handle (h : IngestHandler) (job : JobContext) (s : @St F L) : Out Value * @St F L :=
  let tenant := ctx_tenant job in
  match (Json.get "idea_id" (ctx_payload job) ≫= Json.as_str) ≫= parse_uuid with
  | None => (Failed "ingest payload missing idea_id", s)
  | Some i =>
      match load_idea tenant i s with
      | Err e => (Failed e, s)
      | Ok (user, body, org) =>
          let '(root, s) := vault_root h tenant s in
          match run sha256_hex new_id root quota create_message check_ledger sa_from_value item_from_value
                  contradictions_from_value sa_to_value updated now stamp default_concurrency (h_language h)
                  [org] (fun _ => false) pick tenant user
                  {| idea := i; idea_body := body; origin := org |} s with
          | (Ret rep, s) => (Ret (report_json rep), s)
          | (Failed e, s) => (Failed e, s)
          | (Panicked, s) => (Panicked, s)
          end
      end
  end.
End Handle.
End Handler.

(** * Properties *)

(** ** The items *)
Lemma sum_insert {A} (g : A -> nat) (l : list A) (k : nat) (x y : A) :
  l !! k = Some x -> list_sum (map g (<[k := y]> l)) + g x = list_sum (map g l) + g y.
Proof.
  revert k. induction l as [|z l IH]; intros [|k] Hk; try done; simpl in *; [injection Hk as ->; lia|].
  specialize (IH k Hk). lia.
Qed.

Definition finished (p : Phase) : option (result string (Uuid * bool)) :=
  match p with Finished out => Some out | _ => None end.
Definition outcomes (ts : list (Item * Phase)) : list (result string (Uuid * bool)) :=
  omap (fun t => finished (snd t)) ts.
(** The calls a task may still make. *)
Definition calls_left (p : Phase) : nat :=
  match p with
  | Waiting | Asking => 2 | Resolving _ | Reading _ _ _ | Merging _ _ _ _ _ => 1
  | Creating _ | Writing _ _ _ _ _ | Finished _ => 0
  end.

Lemma outcomes_insert (ts : list (Item * Phase)) (k : nat) (i : Item) (p p' : Phase) :
  ts !! k = Some (i, p) -> finished p = None ->
  Permutation (outcomes (<[k := (i, p')]> ts)) (outcomes ts ++ option_list (finished p')).
Proof.
  revert k. induction ts as [|t ts IH]; intros [|k] Hk Hp; try done; cbn in *.
  - injection Hk as ->. cbn. rewrite Hp. destruct (finished p'); cbn; [|by rewrite app_nil_r].
    apply Permutation_cons_append.
  - specialize (IH k Hk Hp). unfold outcomes in IH. by destruct (finished (snd t)); cbn; rewrite IH.
Qed.

Section ItemProps.
Context {F L : Type} `{Os F} `{Unicode} (sha256_hex : string -> string) (new_id : Db -> Uuid).
Context (vault_root : Path) (quota : TenantQuota).
Context (create_message : Uuid -> WikiReq -> L -> result Analyzer.WikiLlmError Analyzer.WikiResp * L).
Context (tenant idea_id : Uuid).
#[local] Abbreviation advance' := (advance sha256_hex new_id vault_root quota create_message tenant idea_id).
#[local] Abbreviation item_task' := (item_task sha256_hex new_id vault_root quota create_message tenant idea_id).
#[local] Abbreviation step' := (step sha256_hex new_id vault_root quota create_message tenant idea_id).
#[local] Abbreviation run_items' := (run_items sha256_hex new_id vault_root quota create_message tenant idea_id).
#[local] Abbreviation drive' := (drive sha256_hex new_id vault_root quota create_message tenant idea_id).

(** A step of a task brings it nearer to its end, and calls the model at most as often as it may. *)
Lemma advance_moves (i : Item) (p : Phase) (e : Env) :
  finished p = None -> remaining (fst (advance' i p e)) < remaining p /\ fst (advance' i p e) <> Waiting.
Proof.
  destruct e as [[db f] l]. intros Hp. destruct p; cbn in *; try done; split;
    repeat (case_match; simplify_eq/=); try done; lia.
Qed.

Lemma step_some (n k : nat) (s s' : @Sys F L) :
  step' n k s = Some s' ->
  exists i p p', tasks s !! k = Some (i, p) /\ finished p = None /\ tasks s' = <[k := (i, p')]> (tasks s) /\
    remaining p' < remaining p /\ p' <> Waiting /\ results s' = results s ++ option_list (finished p') /\
    (p = Waiting /\ p' = Asking /\ permits_held s < n /\ env s' = env s \/
     holds_permit p = true /\ advance' i p (env s) = (p', env s')).
Proof.
  unfold step. destruct (tasks s !! k) as [[i p]|] eqn:Hk; [|done]. cbn [mbind option_bind]. intros Hs.
  exists i, p. destruct (holds_permit p) eqn:Hh.
  - assert (finished p = None) as Hf by (by destruct p).
    pose proof (advance_moves i p (env s) Hf) as [Hr Hw].
    assert (Some {| tasks := <[k := (i, fst (advance' i p (env s)))]> (tasks s);
                    results := results s ++ option_list (finished (fst (advance' i p (env s))));
                    env := snd (advance' i p (env s)) |} = Some s') as [= <-].
    { rewrite <- Hs. destruct (advance' i p (env s)) as [p' e]. cbn.
      destruct p; try done; destruct p'; cbn; by rewrite ?app_nil_r. }
    exists (fst (advance' i p (env s))). repeat split; [done..|]. right. split; [done|]. by destruct (advance' i p (env s)).
  - destruct p; try done. destruct (Nat.ltb _ _) eqn:Hn; [|done]. bool_prop. injection Hs as <-.
    exists Asking. cbn. rewrite app_nil_r. repeat split; [lia|done|by left].
Qed.

Lemma holder_moves (n k : nat) (i : Item) (p : Phase) (s : @Sys F L) :
  tasks s !! k = Some (i, p) -> holds_permit p = true -> step' n k s <> None.
Proof.
  intros Hk Hp. unfold step. rewrite Hk. cbn [mbind option_bind]. destruct (advance' i p (env s)). by destruct p.
Qed.

(** Some task can move until all are finished: no schedule blocks. *)
Lemma some_task_moves (n : nat) (s : @Sys F L) :
  0 < n -> (exists t, t ∈ tasks s /\ finished (snd t) = None) -> exists k, k < length (tasks s) /\ step' n k s <> None.
Proof.
  intros Hn (t & Ht & Hf).
  destruct (decide (permits_held s < n)) as [Hfree|Hfull].
  - apply list_elem_of_lookup in Ht as [k Hk]. exists k. split; [by eapply lookup_lt_Some|].
    destruct t as [i p]. destruct (holds_permit p) eqn:Hh; [by eapply holder_moves|].
    unfold step. rewrite Hk. cbn [mbind option_bind finished snd] in *. destruct p; try done. by rewrite (proj2 (Nat.ltb_lt _ _) Hfree).
  - unfold permits_held in Hfull. destruct (filter _ (tasks s)) as [|h hs] eqn:Hh; [cbn in Hfull; lia|].
    assert (h ∈ filter (fun t => holds_permit (snd t) = true) (tasks s)) as Hin by (rewrite Hh; left).
    apply list_elem_of_filter in Hin as [Hp Hin]. apply list_elem_of_lookup in Hin as [k Hk].
    exists k. split; [by eapply lookup_lt_Some|]. destruct h as [i p]. by eapply holder_moves.
Qed.

Lemma step_any_some (n : nat) (pick : Sys -> nat) (s s' : @Sys F L) :
  step_any sha256_hex new_id vault_root quota create_message tenant idea_id n pick s = Some s' ->
  exists k, step' n k s = Some s'.
Proof.
  unfold step_any, first_able. destruct (step' n (pick s) s) as [s1|] eqn:Hs; [intros [= ->]; eauto|].
  intros Hh. assert (s' ∈ omap (fun k => step' n k s) (seq 0 (length (tasks s)))) as Hin.
  { destruct (omap _ _) as [|x l]; [done|]. injection Hh as ->. left. }
  apply list_elem_of_omap in Hin as (k & _ & Hk). eauto.
Qed.

Lemma step_any_none (n : nat) (pick : Sys -> nat) (s : @Sys F L) :
  0 < n -> step_any sha256_hex new_id vault_root quota create_message tenant idea_id n pick s = None ->
  forall t, t ∈ tasks s -> finished (snd t) <> None.
Proof.
  intros Hn Hs t Ht Hf. destruct (some_task_moves n s Hn ltac:(eauto)) as (k & Hk & Hm).
  unfold step_any, first_able in Hs. destruct (step' n (pick s) s) as [s1|]; [done|].
  destruct (step' n k s) as [s1|] eqn:Hsk; [|done].
  assert (s1 ∈ omap (fun k => step' n k s) (seq 0 (length (tasks s)))) as Hin.
  { apply list_elem_of_omap. exists k. split; [|done]. apply elem_of_seq. lia. }
  destruct (omap _ _); [by apply elem_of_nil in Hin|done].
Qed.

Lemma step_work (n k : nat) (s s' : @Sys F L) : step' n k s = Some s' -> work s' < work s.
Proof.
  intros (i & p & p' & Hk & _ & Ht & Hr & _)%step_some. unfold work. rewrite Ht.
  pose proof (sum_insert (fun t : Item * Phase => remaining (snd t)) (tasks s) k (i, p) (i, p') Hk). cbn in *. lia.
Qed.

(** What every step keeps holds when the tasks end, and all of them do. *)
Lemma drive_keeps (P : @Sys F L -> Prop) (n : nat) (pick : Sys -> nat) :
  (forall k s s', P s -> step' n k s = Some s' -> P s') ->
  forall fuel s, P s -> P (drive' n fuel pick s).
Proof.
  intros HP. induction fuel as [|fuel IH]; intros s Hs; [done|]. cbn [drive].
  destruct (step_any _ _ _ _ _ _ _ _ _ _) as [s1|] eqn:Hst; [|done].
  apply step_any_some in Hst as [k Hk]. eauto.
Qed.

Lemma drive_finishes (n : nat) (pick : Sys -> nat) :
  0 < n -> forall fuel s, work s <= fuel -> forall t, t ∈ tasks (drive' n fuel pick s) -> finished (snd t) <> None.
Proof.
  intros Hn. induction fuel as [|fuel IH]; intros s Hs; cbn [drive].
  - intros t Ht Hf. destruct (some_task_moves n s Hn ltac:(eauto)) as (k & _ & Hm).
    destruct (step' n k s) as [s1|] eqn:Hk; [|done]. apply step_work in Hk. lia.
  - destruct (step_any _ _ _ _ _ _ _ _ _ _) as [s1|] eqn:Hst; [|by eapply step_any_none].
    apply step_any_some in Hst as [k Hk]. apply step_work in Hk. apply IH. lia.
Qed.

Lemma step_results (items : list Item) (n k : nat) (s s' : @Sys F L) :
  (fst <$> tasks s = items /\ Permutation (results s) (outcomes (tasks s))) ->
  step' n k s = Some s' ->
  fst <$> tasks s' = items /\ Permutation (results s') (outcomes (tasks s')).
Proof.
  intros [Hi Hr] (i & p & p' & Hk & Hp & Ht & _ & _ & Hres & _)%step_some. rewrite Ht, Hres. split.
  - rewrite list_fmap_insert. cbn. rewrite list_insert_id; [done|]. by rewrite list_lookup_fmap, Hk.
  - by rewrite (outcomes_insert _ _ _ _ _ Hk Hp), Hr.
Qed.

Lemma tasks_kept (n : nat) (pick : Sys -> nat) (items : list Item) (e : @Env F L) :
  let s := run_items' n pick items e in
  fst <$> tasks s = items /\ Permutation (results s) (outcomes (tasks s)).
Proof.
  refine (drive_keeps (fun s => fst <$> tasks s = items /\ Permutation (results s) (outcomes (tasks s))) n pick
    (step_results items n) _ (start items e) _). cbn. split.
  - rewrite <- list_fmap_compose. apply list_fmap_id.
  - clear. induction items; [done|]. apply IHitems.
Qed.

(** The items of a capture come to an end and are isolated from each other, whatever the model
    answers, whatever writes fail and in whatever order the tasks move: with a permit to give, no task is
    left waiting; every item has exactly one result, and each result is in the report, under the created
    pages, the merged pages or the errors. *)
Theorem items_all_reported (n : nat) (pick : Sys -> nat) (items : list Item) (e : @Env F L) (src : Uuid)
  (Hn : 0 < n) :
  let s := run_items' n pick items e in
  let rep := foldl collect (source_report src) (results s) in
  fst <$> tasks s = items /\
  Forall (fun t => finished (snd t) <> None) (tasks s) /\
  Permutation (results s) (outcomes (tasks s)) /\
  length (results s) = length items /\
  length (created_pages rep) + length (merged_pages rep) + length (errors rep) = S (length items).
Proof.
  intros s rep.
  pose proof (tasks_kept n pick items e) as [Hi Hr].
  change (run_items' n pick items e) with s in Hi, Hr.
  assert (Forall (fun t => finished (snd t) <> None) (tasks s)) as Hf
    by (apply Forall_forall, (drive_finishes n pick Hn _ (start items e)); done).
  assert (length (results s) = length items) as Hl.
  { rewrite Hr, <- Hi, length_fmap. clear -Hf. unfold outcomes.
    induction Hf as [|t ts Ht _ IH]; [done|]. cbn. destruct (finished (snd t)); [|done]. cbn. by f_equal. }
  repeat split; [done..|].
  assert (forall l r, let r' := foldl collect r l in
    length (created_pages r') + length (merged_pages r') + length (errors r')
    = length (created_pages r) + length (merged_pages r) + length (errors r) + length l) as Hc.
  { clear. induction l as [|o l IH]; intros r; cbn; [lia|]. rewrite IH.
    destruct o as [[j [|]]|]; cbn; rewrite length_app; cbn; lia. }
  unfold rep. rewrite Hc, Hl. cbn. lia.
Qed.

(** ** One permit *)
(** A task that runs from a phase to its end without others in between. *)
Inductive Alone (i : Item) : Phase -> @Env F L -> result string (Uuid * bool) -> @Env F L -> Prop :=
  | AloneDone out e : Alone i (Finished out) e out e
  | AloneStep p e p' e1 out e' :
      advance' i p e = (p', e1) -> holds_permit p = true -> Alone i p' e1 out e' -> Alone i p e out e'.

Lemma alone_step (i : Item) (p : Phase) (e e' : @Env F L) (out : result string (Uuid * bool)) :
  holds_permit p = true -> Alone i (fst (advance' i p e)) (snd (advance' i p e)) out e' -> Alone i p e out e'.
Proof. intros Hp Ha. eapply AloneStep; [apply surjective_pairing|done|done]. Qed.

Lemma alone_det (i : Item) (p : Phase) (e e1 e2 : @Env F L) (o1 o2 : result string (Uuid * bool)) :
  Alone i p e o1 e1 -> Alone i p e o2 e2 -> o1 = o2 /\ e1 = e2.
Proof.
  intros H1. revert o2 e2. induction H1 as [out e|p e p' e3 out e' Ha Hp H1 IH]; intros o2 e2 H2; inv H2; try done.
  match goal with H : advance' i p e = _ |- _ => rewrite Ha in H; inv H end. eauto.
Qed.

(** A task alone does what the source has it do: ask for a body, and create or update the page. *)
Lemma task_alone (i : Item) (e : @Env F L) : Alone i Asking e (fst (item_task' i e)) (snd (item_task' i e)).
Proof.
  destruct e as [[db f] l]. apply alone_step; [done|]. unfold item_task. cbn [advance].
  destruct (ask_text create_message tenant (item_request i) l) as [[body|m] l1]; [|constructor].
  cbn [fst snd]. apply alone_step; [done|]. unfold create_or_update. cbn [advance].
  destruct (resolve _ _ _) as [act tgt ty conf why]. cbn [action target].
  assert (forall j cross c, Alone i (Reading j cross c) (db, f, l1)
    (result_map reported (map_err (factory_text quota)
       (fst (fst (fst (merge_into sha256_hex new_id vault_root quota (ask_text create_message) tenant j cross c db f l1))))))
    (let '(_, db, f, l) := merge_into sha256_hex new_id vault_root quota (ask_text create_message) tenant j cross c db f l1 in
     (db, f, l))) as Hm.
  { intros j cross c. apply alone_step; [done|]. unfold merge_into. cbn [advance].
    destruct (page tenant j db) as [r|]; [|constructor].
    destruct (read_body tenant j db f) as [old|m]; [|constructor].
    destruct (reviewed r).
    - apply alone_step; [done|]. cbn [advance fst snd].
      destruct (merged_with _ _ _ _ _ _ _ _ _ _ _ _) as [[o db1] f1]. constructor.
    - apply alone_step; [done|]. cbn [advance fst snd].
      destruct (llm_merge _ _ _ _ l1) as [[new|m] l2]; [|constructor].
      destruct (String.eqb _ _); [constructor|]. apply alone_step; [done|]. cbn [advance fst snd].
      destruct (merged_with _ _ _ _ _ _ _ _ _ _ _ _) as [[o db1] f1]. constructor. }
  assert (Alone i (Creating (proposal idea_id i body)) (db, f, l1)
    (result_map reported (map_err (factory_text quota)
       (match write_new sha256_hex new_id vault_root quota tenant (proposal idea_id i body) db f with
        | (Ok j, _, _) => Ok (outcome j true false false false) | (Err m, _, _) => Err (GateErr m) end)))
    (let '(_, db, f) := write_new sha256_hex new_id vault_root quota tenant (proposal idea_id i body) db f in
     (db, f, l1))) as Hw.
  { apply alone_step; [done|]. cbn [advance fst snd]. destruct (write_new _ _ _ _ _ _ db f) as [[[w|m] db1] f1]; constructor. }
  destruct act, tgt as [j|]; cbn [fst snd].
  - destruct (write_new _ _ _ _ _ _ db f) as [[[w|m] db1] f1]; exact Hw.
  - destruct (write_new _ _ _ _ _ _ db f) as [[[w|m] db1] f1]; exact Hw.
  - specialize (Hm j false (proposal idea_id i body)). by destruct (merge_into _ _ _ _ _ _ _ _ _ db f l1) as [[[o db1] f1] l2].
  - constructor.
  - specialize (Hm j true (proposal idea_id i body)). by destruct (merge_into _ _ _ _ _ _ _ _ _ db f l1) as [[[o db1] f1] l2].
  - constructor.
Qed.

(** The items one after the other. *)
Definition one_by_one (items : list Item) (e : @Env F L) : list (result string (Uuid * bool)) * @Env F L :=
  foldl (fun a i => (fst a ++ [fst (item_task' i (snd a))], snd (item_task' i (snd a)))) ([], e) items.

Lemma one_by_one_snoc (items : list Item) (i : Item) (e : @Env F L) :
  one_by_one (items ++ [i]) e
  = (fst (one_by_one items e) ++ [fst (item_task' i (snd (one_by_one items e)))],
     snd (item_task' i (snd (one_by_one items e)))).
Proof. unfold one_by_one. by rewrite foldl_app. Qed.

(** The items of the tasks that ended. *)
Definition ended (ts : list (Item * Phase)) : list Item :=
  omap (fun t => (fun _ => fst t) <$> finished (snd t)) ts.

(** With one permit: the tasks that ended ran one by one, and at most one is under way. *)
Definition serial (e0 : @Env F L) (s : @Sys F L) : Prop :=
  exists order, Permutation order (ended (tasks s)) /\
    results s = fst (one_by_one order e0) /\
    (permits_held s = 0 /\ env s = snd (one_by_one order e0) \/
     exists k i p, tasks s !! k = Some (i, p) /\ holds_permit p = true /\ permits_held s = 1 /\
       forall out e', Alone i p (env s) out e' -> Alone i Asking (snd (one_by_one order e0)) out e').

Lemma held_insert (s s' : @Sys F L) (k : nat) (i : Item) (p p' : Phase) :
  tasks s !! k = Some (i, p) -> tasks s' = <[k := (i, p')]> (tasks s) ->
  permits_held s' + Nat.b2n (holds_permit p) = permits_held s + Nat.b2n (holds_permit p').
Proof.
  intros Hk Ht. unfold permits_held. rewrite Ht. clear Ht s'. revert k Hk. generalize (tasks s). clear.
  induction l as [|t l IH]; intros [|k] Hk; try done; simpl in *.
  - injection Hk as ->. rewrite !filter_cons. cbn [snd].
    destruct (holds_permit p), (holds_permit p'); repeat case_decide; try done; cbn [length Nat.b2n]; lia.
  - specialize (IH k Hk). rewrite !filter_cons. destruct (decide (holds_permit (snd t) = true)); cbn [length]; lia.
Qed.

Lemma held_unique (s : @Sys F L) (j k : nat) (i i' : Item) (p p' : Phase) :
  permits_held s = 1 -> tasks s !! j = Some (i, p) -> tasks s !! k = Some (i', p') ->
  holds_permit p = true -> holds_permit p' = true -> j = k.
Proof.
  intros Hone Hj Hk Hp Hp'. destruct (decide (j = k)) as [|Hne]; [done|]. exfalso.
  pose proof (held_insert s {| tasks := <[j := (i, Waiting)]> (tasks s); results := []; env := env s |} j i p
    Waiting Hj eq_refl) as Hi. rewrite Hp in Hi. cbn [holds_permit Nat.b2n] in Hi.
  assert ((i', p') ∈ filter (fun t => holds_permit (snd t) = true) (<[j := (i, Waiting)]> (tasks s))) as Hin.
  { apply list_elem_of_filter. split; [done|]. apply list_elem_of_lookup. exists k.
    by rewrite list_lookup_insert_ne. }
  unfold permits_held in Hi at 1. cbn [tasks] in Hi. destruct (filter _ (<[j := _]> _)); [by apply elem_of_nil in Hin|].
  cbn in Hi. unfold permits_held in *. lia.
Qed.

Lemma ended_insert (ts : list (Item * Phase)) (k : nat) (i : Item) (p p' : Phase) :
  ts !! k = Some (i, p) -> finished p = None ->
  Permutation (ended (<[k := (i, p')]> ts))
    (ended ts ++ option_list ((fun _ => i) <$> finished p')).
Proof.
  revert k. induction ts as [|t ts IH]; intros [|k] Hk Hp; try done; cbn in *.
  - injection Hk as ->. cbn. rewrite Hp. destruct (finished p'); cbn; [|by rewrite app_nil_r].
    apply Permutation_cons_append.
  - specialize (IH k Hk Hp). by destruct (finished (snd t)); cbn; rewrite IH.
Qed.

Lemma step_serial (e0 : @Env F L) (k : nat) (s s' : @Sys F L) :
  serial e0 s -> step' 1 k s = Some s' -> serial e0 s'.
Proof.
  intros (order & Ho & Hres & Hs) (i & p & p' & Hk & Hp & Ht & _ & _ & Hr & Hcase)%step_some.
  pose proof (held_insert s s' k i p p' Hk Ht) as Hh.
  pose proof (ended_insert (tasks s) k i p p' Hk Hp) as He. rewrite <- Ht in He.
  destruct Hcase as [(-> & -> & Hfree & Henv)|[Hhold Ha]].
  - exists order. cbn in *. rewrite !app_nil_r in *. split; [by rewrite He|]. split; [congruence|]. right.
    destruct Hs as [[Hz Hs]|(k' & _ & _ & _ & _ & H1 & _)]; [|lia].
    exists k, i, Asking. rewrite Ht, list_lookup_insert_eq by (by eapply lookup_lt_Some).
    repeat split; [lia|]. intros out e'. by rewrite Henv, Hs.
  - destruct Hs as [[Hz _]|(k' & i' & q & Hk' & Hq & H1 & Hal)].
    { assert ((i, p) ∈ filter (fun t => holds_permit (snd t) = true) (tasks s)) as Hin
        by (apply list_elem_of_filter; split; [done|by eapply list_elem_of_lookup_2]).
      unfold permits_held in Hz. destruct (filter _ _); [by apply elem_of_nil in Hin|done]. }
    assert (k' = k) as -> by (by eapply held_unique). rewrite Hk in Hk'. injection Hk' as <- <-.
    rewrite Hhold in Hh. destruct (finished p') as [out|] eqn:Hf.
    + destruct p'; try done. injection Hf as ->. exists (order ++ [i]). cbn in *.
      split; [by rewrite He, Ho|]. rewrite one_by_one_snoc. cbn [fst snd].
      assert (Alone i Asking (snd (one_by_one order e0)) out (env s')) as H2
        by (apply Hal; eapply AloneStep; [done|done|constructor]).
      destruct (alone_det _ _ _ _ _ _ _ H2 (task_alone i (snd (one_by_one order e0)))) as [-> ->].
      split; [by rewrite Hr, Hres|]. left. split; [lia|done].
    + exists order. cbn in *. rewrite !app_nil_r in *. split; [by rewrite He|]. split; [congruence|]. right.
      assert (holds_permit p' = true) as Hp' by (destruct p'; try done; by destruct (advance_moves i p (env s) Hp) as [_ Hw]; rewrite Ha in Hw).
      exists k, i, p'. rewrite Ht, list_lookup_insert_eq by (by eapply lookup_lt_Some).
      rewrite Hp' in Hh. cbn in Hh. repeat split; [done|lia|]. intros out e' Hd. apply Hal. by eapply AloneStep.
Qed.

(** C27: with one permit the concurrent tasks do what the items do one after the other, in the order in
    which they got it: asking for the body and creating or updating the page, each on what the one before
    left. So what distinguishes the concurrent ingest from the sequential one is the number of permits
    alone. *)
Theorem one_permit_serializes (pick : Sys -> nat) (items : list Item) (e : @Env F L) :
  exists order, Permutation order items /\
    let s := run_items' 1 pick items e in (results s, env s) = one_by_one order e.
Proof.
  assert (serial e (run_items' 1 pick items e)) as (order & Ho & Hr & Hs).
  { refine (drive_keeps (serial e) 1 pick (step_serial e) _ (start items e) _). exists []. unfold start. cbn [tasks results env].
    assert (ended ((fun i => (i, Waiting)) <$> items) = []) as -> by (induction items; done).
    split; [done|]. split; [done|]. left. split; [|done]. unfold permits_held. cbn [tasks].
    induction items as [|i items IH]; [done|]. exact IH. }
  pose proof (tasks_kept 1 pick items e) as [Hi _].
  assert (Forall (fun t => finished (snd t) <> None) (tasks (run_items' 1 pick items e))) as Hf
    by (apply Forall_forall, (drive_finishes 1 pick ltac:(lia) _ (start items e)); done).
  exists order. split.
  { rewrite Ho. transitivity (fst <$> tasks (run_items' 1 pick items e)); [|by rewrite Hi]. revert Hf.
    generalize (tasks (run_items' 1 pick items e)). clear. unfold ended. induction 1 as [|t ts Ht _ IH]; [done|]. cbn.
    destruct (finished (snd t)); [|done]. cbn. by rewrite IH. }
  cbn zeta. destruct Hs as [[_ He]|(k & i & p & Hk & Hp & _)]; [by rewrite Hr, He, <- surjective_pairing|].
  apply list_elem_of_lookup_2, (proj1 (Forall_forall _ _) Hf) in Hk. by destruct p.
Qed.
End ItemProps.

(** ** Checks and calls *)
Definition is_call (e : Ev) : bool := match e with EvCall _ => true | EvCheck _ => false end.
Definition is_passed (e : Ev) : bool := match e with EvCheck ok => ok | EvCall _ => false end.
Definition calls (tr : list Ev) : nat := list_sum (map (fun e => Nat.b2n (is_call e)) tr).
Definition passed (tr : list Ev) : nat := list_sum (map (fun e => Nat.b2n (is_passed e)) tr).

(** A passed check is credit for two calls; what is left of [n] after a trace, [None] when it was overdrawn
    or a check was refused. *)
Fixpoint credit (n : nat) (tr : list Ev) : option nat :=
  match tr with
  | [] => Some n
  | EvCheck true :: tr => credit (2 + n) tr
  | EvCheck false :: _ => None
  | EvCall _ :: tr => match n with O => None | S n => credit n tr end
  end.
(** A trace that ends, if need be, with a refused check. *)
Definition gated (n : nat) (tr : list Ev) : Prop :=
  (exists m, credit n tr = Some m) \/ exists tr', tr = tr' ++ [EvCheck false] /\ exists m, credit n tr' = Some m.

Lemma credit_app (n : nat) (a b : list Ev) : credit n (a ++ b) = credit n a ≫= fun m => credit m b.
Proof.
  revert n. induction a as [|[[|]|req] a IH]; intros n; cbn; [done|apply IH|done|].
  destruct n; [done|apply IH].
Qed.

Lemma credit_more (d n m : nat) (tr : list Ev) : credit n tr = Some m -> credit (d + n) tr = Some (d + m).
Proof.
  revert n. induction tr as [|[[|]|req] tr IH]; intros n; cbn.
  - congruence.
  - intros Hc. rewrite <- (IH _ Hc). f_equal. lia.
  - done.
  - destruct n; [done|]. rewrite <- plus_n_Sm. apply IH.
Qed.

Lemma credit_calls (n : nat) (tr : list Ev) :
  Forall (fun e => is_call e = true) tr -> length tr <= n -> credit n tr = Some (n - length tr).
Proof.
  intros Hc. revert n. induction Hc as [|e tr He _ IH]; intros n Hn; cbn in *; [by rewrite Nat.sub_0_r|].
  destruct e; [done|]. destruct n; [lia|]. apply IH. lia.
Qed.

Lemma credit_counts (n m : nat) (tr : list Ev) : credit n tr = Some m -> calls tr + m = 2 * passed tr + n.
Proof.
  revert n. unfold calls, passed. induction tr as [|[[|]|req] tr IH]; intros n; cbn [credit]; simpl.
  - intros [= ->]. lia.
  - intros Hc. apply IH in Hc. lia.
  - done.
  - destruct n; [done|]. intros Hc. apply IH in Hc. lia.
Qed.

(** What a gated trace means: after any part of it, at most two calls per check that passed; and nothing
    follows a refused check. *)
Lemma gated_prefix (tr pre post : list Ev) :
  gated 0 tr -> tr = pre ++ post -> calls pre <= 2 * passed pre.
Proof.
  intros Hg ->. assert (exists m, calls pre + m = 2 * passed pre) as [m Hm]; [|lia].
  assert (forall l k, credit 0 (pre ++ l) = Some k -> exists m, calls pre + m = 2 * passed pre) as Hc.
  { intros l k. rewrite credit_app. destruct (credit 0 pre) eqn:E; [|done]. apply credit_counts in E.
    eexists. rewrite E. lia. }
  destruct Hg as [[k Hk]|(tr' & He & k & Hk)]; [by eapply Hc|].
  destruct post as [|x post _] using rev_ind.
  - rewrite app_nil_r in He. subst pre. apply credit_counts in Hk. exists k. unfold calls, passed in *.
    rewrite !map_app, !list_sum_app. simpl. lia.
  - rewrite app_assoc in He. apply app_inj_tail in He as [<- _]. by eapply Hc.
Qed.

Lemma gated_stops (tr pre post : list Ev) : gated 0 tr -> tr = pre ++ EvCheck false :: post -> post = [].
Proof.
  intros Hg ->. assert (forall l k, credit 0 (pre ++ EvCheck false :: l) = Some k -> False) as Hc.
  { intros l k. rewrite credit_app. by destruct (credit 0 pre). }
  destruct Hg as [[k Hk]|(tr' & He & k & Hk)]; [by apply Hc in Hk|].
  destruct post as [|x post _] using rev_ind; [done|].
  rewrite app_comm_cons, app_assoc in He. apply app_inj_tail in He as [<- _]. by apply Hc in Hk.
Qed.

Section PipelineProps.
Context {F L : Type} `{Os F} `{Unicode} `{Json} (sha256_hex : string -> string) (new_id : Db -> Uuid).
Context (vault_root : Path) (quota : TenantQuota).
Context (create_message : Uuid -> WikiReq -> L -> result Analyzer.WikiLlmError Analyzer.WikiResp * L).
Context (check_ledger : Uuid -> Uuid -> L -> result Guard.CostError unit * L).
Context (sa_from_value : Value -> option Analyzer.SourceAnalysis) (item_from_value : Value -> option Analyzer.ItemInfo).
Context (contradictions_from_value : Value -> option (list Analyzer.ContradictionInfo)).
Context (sa_to_value : Analyzer.SourceAnalysis -> Value).
Context (updated : PageRow -> Z) (now stamp : Z).
Context (concurrency : nat) (language : string) (source_tags : list string).
Context (cancelled : nat -> bool) (pick : @Sys F (L * list Ev) -> nat).
#[local] Abbreviation logged' := (logged create_message).
#[local] Abbreviation run' := (run sha256_hex new_id vault_root quota create_message check_ledger sa_from_value
  item_from_value contradictions_from_value sa_to_value updated now stamp concurrency language source_tags
  cancelled pick).

(** The calls of the tasks. *)
Lemma ask_text_trace (t : Uuid) (req : WikiReq) (l : L * list Ev) :
  snd (snd (ask_text logged' t req l)) = snd l ++ [EvCall req].
Proof. unfold ask_text, logged. by destruct (create_message t req (fst l)). Qed.

Lemma advance_calls (tenant idea_id : Uuid) (i : Item) (p : Phase) (e : @Env F (L * list Ev)) :
  holds_permit p = true ->
  let r := advance sha256_hex new_id vault_root quota logged' tenant idea_id i p e in
  exists tr, snd (snd (snd r)) = snd (snd e) ++ tr /\ Forall (fun e => is_call e = true) tr /\
    length tr + calls_left (fst r) <= calls_left p.
Proof.
  destruct e as [[db f] l]. intros Hp.
  assert (forall k, k <= calls_left p -> exists tr : list Ev, snd l = snd l ++ tr /\
    Forall (fun e => is_call e = true) tr /\ length tr + k <= calls_left p) as Hnone
    by (intros k Hk; exists []; by rewrite app_nil_r).
  destruct p; cbn in *; try done.
  - pose proof (ask_text_trace tenant (item_request i) l) as Ht.
    destruct (ask_text logged' tenant (item_request i) l) as [[body|m] l1]; exists [EvCall (item_request i)];
      cbn in *; (split; [done|]); split; (by repeat constructor) || lia.
  - repeat case_match; cbn; apply Hnone; lia.
  - destruct (write_new _ _ _ _ _ _ _ _) as [[[j|m] db1] f1]; by apply Hnone.
  - repeat case_match; cbn; apply Hnone; lia.
  - unfold llm_merge. set (req := Build_WikiReq _ _ _ _ _ _).
    pose proof (ask_text_trace tenant req l) as Ht.
    destruct (ask_text logged' tenant req l) as [[new|m] l1]; [destruct (String.eqb _ _)|]; exists [EvCall req];
      cbn in *; (split; [done|]); split; (by repeat constructor) || lia.
  - destruct (merged_with _ _ _ _ _ _ _ _ _ _ _ _) as [[o db1] f1]. by apply Hnone.
Qed.

Lemma items_calls (tenant idea_id : Uuid) (items : list Item) (e : @Env F (L * list Ev)) :
  let s := run_items sha256_hex new_id vault_root quota logged' tenant idea_id concurrency pick items e in
  exists tr, snd (snd (env s)) = snd (snd e) ++ tr /\ Forall (fun e => is_call e = true) tr /\
    length tr <= 2 * length items.
Proof.
  set (P := fun s : @Sys F (L * list Ev) => exists tr, snd (snd (env s)) = snd (snd e) ++ tr /\
    Forall (fun e => is_call e = true) tr /\
    length tr + list_sum (map (fun t => calls_left (snd t)) (tasks s)) <= 2 * length items).
  assert (P (run_items sha256_hex new_id vault_root quota logged' tenant idea_id concurrency pick items e))
    as (tr & Ht & Hc & Hl); [|exists tr; repeat split; [done|done|lia]].
  refine (drive_keeps sha256_hex new_id vault_root quota logged' tenant idea_id P concurrency pick _ _ (start items e) _).
  - intros k s s' (tr & Ht & Hc & Hl) (i & p & p' & Hk & _ & Hs & _ & _ & _ & Hcase)%step_some.
    pose proof (sum_insert (fun t : Item * Phase => calls_left (snd t)) (tasks s) k (i, p) (i, p') Hk) as Hsum.
    rewrite <- Hs in Hsum. simpl in Hsum. destruct Hcase as [(-> & -> & _ & He)|[Hh Ha]].
    + exists tr. rewrite He. simpl in Hsum. repeat split; [done|done|lia].
    + pose proof (advance_calls tenant idea_id i p (env s) Hh) as (tr' & Ht' & Hc' & Hl').
      rewrite Ha in Ht', Hl'. cbn [fst snd] in *. exists (tr ++ tr'). rewrite Ht', Ht, app_assoc, length_app.
      repeat split; [by apply Forall_app_2'|lia].
  - exists []. rewrite app_nil_r. repeat split; [done|]. cbn [length Nat.add start tasks].
    apply Nat.eq_le_incl. unfold start. cbn [tasks]. clear. induction items as [|i items IH]; [done|].
    rewrite fmap_cons. cbn [map length calls_left snd]. change (list_sum (?a :: ?l)) with (a + list_sum l). lia.
Qed.

(** ** Stages: what they spend *)
(** From [n] credits a stage leaves a gated trace, and when it answers [a], [m a] credits. *)
Definition spends {A} (n : nat) (m : A -> nat) (f : @M F L A) : Prop :=
  forall s, exists tr, snd (s_llm (snd (f s))) = snd (s_llm s) ++ tr /\
    match fst (f s) with
    | Ret a => exists k, credit n tr = Some k /\ m a <= k
    | _ => gated n tr
    end.

Lemma gated_app (n k m : nat) (a b : list Ev) : credit n a = Some k -> m <= k -> gated m b -> gated n (a ++ b).
Proof.
  intros Ha Hm Hb. replace k with ((k - m) + m) in Ha by lia.
  destruct Hb as [[j Hj]|(b' & -> & j & Hj)]; [left|right; exists (a ++ b'); rewrite app_assoc; split; [done|]];
    exists (k - m + j); rewrite credit_app, Ha; cbn; by apply credit_more.
Qed.

Lemma spends_bind {A B} (n : nat) (m : A -> nat) (m' : B -> nat) (f : @M F L A) (g : A -> @M F L B) :
  spends n m f -> (forall a, spends (m a) m' (g a)) -> spends n m' (bind f g).
Proof.
  intros Hf Hg s. destruct (Hf s) as (tr & Ht & Hr). unfold bind. destruct (f s) as [[a|e|] s1]; cbn [fst snd] in *.
  - destruct Hr as (k & Hk & Hm). destruct (Hg a s1) as (tr' & Ht' & Hr'). exists (tr ++ tr').
    rewrite Ht', Ht, app_assoc. split; [done|]. destruct (fst (g a s1)) as [b|e|]; [|by eapply gated_app..].
    destruct Hr' as (j & Hj & Hb). exists (k - m a + j). split; [|lia]. rewrite credit_app, Hk. cbn.
    replace k with (k - m a + m a) at 1 by lia. by apply credit_more.
  - by exists tr.
  - by exists tr.
Qed.

Lemma spends_quiet {A} (n : nat) (m : A -> nat) (f : @M F L A) :
  (forall s, s_llm (snd (f s)) = s_llm s /\ (forall a, fst (f s) = Ret a -> m a <= n)) -> spends n m f.
Proof.
  intros Hf s. destruct (Hf s) as [Hs Hm]. exists []. rewrite Hs, app_nil_r. split; [done|].
  destruct (fst (f s)); [|left; by exists n..]. exists n. split; [done|]. by apply Hm.
Qed.

Lemma spends_check (n : nat) (tenant user : Uuid) : spends n (fun _ => 2 + n) (check_before_call check_ledger tenant user).
Proof.
  intros s. unfold check_before_call. destruct (check_ledger tenant user (fst (s_llm s))) as [[[]|e] l]; cbn.
  - exists [EvCheck true]. split; [done|]. by exists (2 + n).
  - exists [EvCheck false]. split; [done|]. right. exists []. split; [done|]. by exists n.
Qed.

Lemma spends_ask (n : nat) (t : Uuid) (req : WikiReq) : spends (S n) (fun _ => n) (ask create_message t req).
Proof.
  intros s. unfold ask, logged. destruct (create_message t req (fst (s_llm s))) as [[r|e] l]; cbn;
    exists [EvCall req]; (split; [done|]); [|left]; by exists n.
Qed.

Lemma spends_analyze (n : nat) (t : Uuid) (content : string) :
  spends (2 + n) (fun _ => n) (analyze create_message sa_from_value item_from_value contradictions_from_value
    sa_to_value language t content).
Proof.
  intros s. unfold analyze. cbn [Analyzer.analyze].
  assert (exists tr, snd (snd (Analyzer.one_call logged' sa_from_value item_from_value contradictions_from_value
      language t content [] 1024 (s_llm s))) = snd (s_llm s) ++ tr /\ exists k, credit (2 + n) tr = Some k /\ n <= k)
    as (tr & Ht & k & Hk & Hn).
  { unfold Analyzer.one_call, logged. set (r1 := Analyzer.request _ _ _ _).
    assert (exists k, credit (2 + n) [EvCall r1] = Some k /\ n <= k) as Hone by (exists (S n); split; [done|lia]).
    destruct (create_message t r1 (fst (s_llm s))) as [[r|e] l]; [|by exists [EvCall r1]].
    destruct (Analyzer.truncated r); [|by exists [EvCall r1]].
    destruct (Hardening.next_max_tokens_on_truncation 1024); [|by exists [EvCall r1]].
    set (r2 := Analyzer.request _ _ _ _). cbn [fst snd].
    destruct (create_message t r2 l) as [[r'|e] l']; exists [EvCall r1; EvCall r2]; cbn;
      (split; [by rewrite <- app_assoc|by exists n]). }
  exists tr. destruct (Analyzer.one_call _ _ _ _ _ _ _ _ _ _) as [[sa|e] l]; cbn in *; (split; [done|]);
    [by exists k|left; by exists k].
Qed.

Lemma spends_queue (tenant user : Uuid) (items : list Item) (k n : nat) :
  spends n (fun l => 2 * length l + n) (queue check_ledger cancelled tenant user k items).
Proof.
  revert k n. induction items as [|i items IH]; intros k n; cbn [queue];
    [by apply spends_quiet; intros s; split; [|intros a [= <-]]|].
  destruct (cancelled k); [by apply spends_quiet; intros s; split; [|intros a [= <-]]|].
  eapply spends_bind; [apply spends_check|]. intros []. eapply spends_bind; [apply IH|]. intros rest.
  apply spends_quiet. intros s. split; [done|]. intros a [= <-]. cbn [length]. lia.
Qed.

Lemma spends_items (tenant : Uuid) (i : IdeaInput) (items : list Item) (n : nat) :
  spends (2 * length items + n) (fun _ => n)
    (write_items sha256_hex new_id vault_root quota create_message concurrency pick tenant i items).
Proof.
  intros s. unfold write_items.
  destruct (items_calls tenant (idea i) items (s_db s, s_files s, s_llm s)) as (tr & Ht & Hc & Hl).
  destruct (env _) as [[db f] l]. cbn [fst snd s_llm] in *. exists tr. split; [done|].
  eexists. split; [apply credit_calls; [done|lia]|lia].
Qed.

Ltac quiet := apply spends_quiet; intros s; split; [|intros a _; lia].

Lemma spends_redundant (n : nat) (tenant : Uuid) (index : string) (i : IdeaInput) :
  spends (S n) (fun _ => n) (is_redundant create_message tenant index i).
Proof. eapply spends_bind; [apply spends_ask|]. intros resp. by quiet. Qed.

Lemma spends_index (n : nat) (tenant : Uuid) : spends n (fun _ => n) (@index_of F L updated tenant).
Proof. quiet. unfold index_of. by destruct (IndexGen.regenerate_index _). Qed.

Lemma spends_state (n : nat) (tenant i : Uuid) (st : string) :
  spends n (fun _ => n) (@set_ingest_state F L now tenant i st).
Proof. quiet. unfold set_ingest_state. by destruct (IdeasRepo.set_ingest_state _ _ _ _ _). Qed.

Lemma spends_source (n : nat) (tenant : Uuid) (i : IdeaInput) (p : string * string * string) (body : string) :
  spends n (fun _ => n) (@write_source F L _ sha256_hex new_id vault_root quota source_tags tenant i p body).
Proof.
  quiet. unfold write_source. destruct p as [[t sl] sm]. destruct (write_page _ _ _ _ _ _ _ _) as [[r db] f].
  done.
Qed.

Lemma spends_run (tenant user : Uuid) (i : IdeaInput) : spends 0 (fun _ => 0) (run' tenant user i).
Proof.
  unfold run. eapply spends_bind; [apply spends_check|]. intros [].
  eapply spends_bind; [apply spends_index|]. intros index.
  eapply spends_bind; [apply spends_redundant|]. intros [|].
  - eapply spends_bind; [apply spends_state|]. intros []. by quiet.
  - eapply spends_bind; [apply spends_check|]. intros []. cbv zeta.
    eapply spends_bind; [apply spends_analyze|]. intros sa.
    eapply spends_bind; [apply spends_check|]. intros [].
    eapply spends_bind; [apply spends_ask|]. intros resp.
    eapply spends_bind; [apply (spends_quiet _ (fun _ => 2)); intros s; split; [done|lia]|]. intros prior.
    eapply spends_bind; [apply spends_source|]. intros src.
    eapply spends_bind; [apply spends_queue|]. intros items.
    eapply spends_bind; [apply spends_items|]. intros outs.
    eapply spends_bind; [apply spends_index|]. intros _idx.
    eapply spends_bind; [apply spends_state|]. intros [].
    apply spends_quiet. intros s. split; [done|]. intros; lia.
Qed.

(** C26: the spending of an ingest is gated. Whatever the model and the ledger answer and however the items
    interleave, at no point has it made more than two calls for each check of the ledger that passed, so
    that the first call comes after a passed check; and a refused check is the last thing it does: no call
    and no further check follow, and the ingest fails. *)
Theorem ingest_spend_gated (tenant user : Uuid) (i : IdeaInput) (s : @St F L) :
  let '(r, s') := run' tenant user i s in
  exists tr, snd (s_llm s') = snd (s_llm s) ++ tr /\
    (forall pre post, tr = pre ++ post -> calls pre <= 2 * passed pre) /\
    (forall pre post, tr = pre ++ EvCheck false :: post ->
       post = [] /\ match r with Ret _ => False | _ => True end).
Proof.
  pose proof (spends_run tenant user i s) as (tr & Ht & Hr).
  destruct (run' tenant user i s) as [r s']. cbn [fst snd] in *.
  assert (gated 0 tr) as Hg by (destruct r; [left; destruct Hr as (k & Hk & _); by exists k|done..]).
  exists tr. split; [done|]. split; [intros pre post; by apply gated_prefix|].
  intros pre post He. split; [by eapply gated_stops|]. destruct r; [|done..].
  destruct Hr as (k & Hk & _). rewrite He, credit_app in Hk. by destruct (credit 0 pre).
Qed.

(** ** Stages: what they leave of the captures *)
(** Between [s0] and [s] a run has kept the captures; or even pages and files as well. *)
Definition same_ideas (s0 s : @St F L) : Prop := s_ideas s = s_ideas s0.
Definition same_tables (s0 s : @St F L) : Prop := s_db s = s_db s0 /\ s_files s = s_files s0 /\ s_ideas s = s_ideas s0.
Definition keeps {A} (K : @St F L -> @St F L -> Prop) (f : @M F L A) : Prop := forall s0 s, K s0 s -> K s0 (snd (f s)).
Definition ends {A} (K : @St F L -> @St F L -> Prop) (Q : @St F L -> A -> @St F L -> Prop) (f : @M F L A) : Prop :=
  forall s0 s, K s0 s -> match fst (f s) with Ret a => Q s0 a (snd (f s)) | _ => same_ideas s0 (snd (f s)) end.

Lemma ends_bind {A B} (K : @St F L -> @St F L -> Prop) (Q : @St F L -> B -> @St F L -> Prop) (f : @M F L A)
  (g : A -> @M F L B) :
  (forall s0 s, K s0 s -> same_ideas s0 s) -> keeps K f -> (forall a, ends K Q (g a)) -> ends K Q (bind f g).
Proof.
  intros HK Hf Hg s0 s Hs. specialize (Hf s0 s Hs). unfold bind.
  destruct (f s) as [[a|e|] s1]; cbn [fst snd] in *; [by apply Hg|by apply HK..].
Qed.

Lemma ends_weaken {A} (K : @St F L -> @St F L -> Prop) (Q : @St F L -> A -> @St F L -> Prop) (f : @M F L A) :
  (forall s0 s, K s0 s -> same_ideas s0 s) -> ends same_ideas Q f -> ends K Q f.
Proof. intros HK Hf s0 s Hs. apply Hf. by apply HK. Qed.

Lemma same_tables_ideas (s0 s : @St F L) : same_tables s0 s -> same_ideas s0 s.
Proof. by intros (_ & _ & ?). Qed.
#[local] Hint Resolve same_tables_ideas : core.

(** The stages that only call keep everything; those that write pages keep the captures. *)
Lemma keeps_check (tenant user : Uuid) : keeps same_tables (check_before_call check_ledger tenant user).
Proof. intros s0 s Hs. unfold check_before_call. by destruct (check_ledger _ _ _). Qed.
Lemma keeps_ask (t : Uuid) (req : WikiReq) : keeps same_tables (ask create_message t req).
Proof. intros s0 s Hs. unfold ask. by destruct (logged' _ _ _). Qed.
Lemma keeps_index (tenant : Uuid) : keeps same_tables (@index_of F L updated tenant).
Proof. intros s0 s Hs. unfold index_of. by destruct (IndexGen.regenerate_index _). Qed.
Lemma keeps_redundant (tenant : Uuid) (index : string) (i : IdeaInput) :
  keeps same_tables (is_redundant create_message tenant index i).
Proof.
  intros s0 s Hs. unfold is_redundant, bind. pose proof (fun req => keeps_ask tenant req s0 s Hs) as Ha.
  match goal with |- context [ask _ _ ?req _] => specialize (Ha req) end. by destruct (ask _ _ _ _) as [[r|e|] s1].
Qed.
Lemma keeps_analyze (t : Uuid) (content : string) :
  keeps same_tables (analyze create_message sa_from_value item_from_value contradictions_from_value sa_to_value
    language t content).
Proof. intros s0 s Hs. unfold analyze. by destruct (Analyzer.analyze _ _ _ _ _ _ _ _ _ _ _) as [[[[]|]]|]. Qed.
Lemma keeps_queue (tenant user : Uuid) (items : list Item) (k : nat) :
  keeps same_tables (queue check_ledger cancelled tenant user k items).
Proof.
  revert k. induction items as [|i items IH]; intros k s0 s Hs; cbn [queue]; [done|].
  destruct (cancelled k); [done|]. unfold bind. pose proof (keeps_check tenant user s0 s Hs) as Hc.
  destruct (check_before_call _ _ _ _) as [[[]|e|] s1]; [|done..]. specialize (IH (S k) s0 s1 Hc).
  by destruct (queue _ _ _ _ _ _ _) as [[r|e|] s2].
Qed.
Lemma keeps_ideas {A} (f : @M F L A) : keeps same_tables f -> keeps same_ideas f.
Proof.
  intros Hf s0 s Hs. unfold same_ideas in *. rewrite <- Hs. by apply same_tables_ideas, Hf.
Qed.
#[local] Hint Resolve keeps_check keeps_ask keeps_index keeps_redundant keeps_analyze keeps_queue keeps_ideas : core.

(** A report and what it says of the run that made it. *)
Definition run_left (tenant : Uuid) (i : IdeaInput) (s0 : @St F L) (rep : IngestReport) (s : @St F L) : Prop :=
  if skipped_redundant rep
  then rep = skipped_report /\ s_db s = s_db s0 /\ s_files s = s_files s0 /\
    s_ideas s = update_ideas (own tenant (idea i)) (set_state now SkippedRedundant) (s_ideas s0)
  else created_pages rep <> [] /\
    s_ideas s = update_ideas (own tenant (idea i)) (set_stamp stamp)
                  (update_ideas (own tenant (idea i)) (set_state now Ingested) (s_ideas s0)).

Lemma collect_source (src : Uuid) (outs : list (result string (Uuid * bool))) :
  let rep := foldl collect (source_report src) outs in
  skipped_redundant rep = false /\ created_pages rep <> [].
Proof.
  cbn zeta. assert (skipped_redundant (source_report src) = false /\ created_pages (source_report src) <> []) as Hs
    by done. revert Hs. generalize (source_report src). induction outs as [|o outs IH]; intros rep [Hk Hc]; [done|].
  apply IH. destruct o as [[j [|]]|]; cbn; (split; [done|]); [by destruct (created_pages rep)|done|done].
Qed.

Lemma ends_run (tenant user : Uuid) (i : IdeaInput) : ends same_tables (run_left tenant i) (run' tenant user i).
Proof.
  unfold run. apply ends_bind; [auto..|intros []]. apply ends_bind; [auto..|intros index].
  apply ends_bind; [auto..|intros [|]].
  - intros s0 s (Hd & Hfs & Hi). unfold bind, set_ingest_state. cbn. by rewrite Hd, Hfs, Hi.
  - apply ends_bind; [auto..|intros []]. cbv zeta. apply ends_bind; [auto..|intros sa].
    apply ends_bind; [auto..|intros []]. apply ends_bind; [auto..|intros resp].
    apply ends_bind; [auto|by intros s0 s|intros prior]. apply ends_weaken; [auto|].
    apply ends_bind; [done| |intros src].
    { intros s0 s Hs. unfold write_source. destruct (source_page _ _ _) as [[t sl] sm].
      by destruct (write_page _ _ _ _ _ _ _ _) as [[r db] f]. }
    apply ends_bind; [done|auto|intros items]. apply ends_bind; [done| |intros outs].
    { intros s0 s Hs. unfold write_items. by destruct (env _) as [[db f] l]. }
    apply ends_bind; [done|auto|intros _]. intros s0 s Hs. unfold bind, set_ingest_state, ret, set_last_ingested.
    cbn. unfold run_left. destruct (collect_source src outs) as [-> Hc]. by rewrite Hs.
Qed.

(** C28: what an ingest leaves. Found redundant, the capture is marked so and no page and no file is
    touched. Ingested, there is at least its source page in the report, it alone is marked and stamped, and
    the scan does not find it again. Failed, at whatever call, check or write, or ended by the panic of the
    index, it leaves every capture as it was, so that the capture is found again. *)
Theorem ingest_outcome (tenant user : Uuid) (i : IdeaInput) (s : @St F L) :
  let '(r, s') := run' tenant user i s in
  match r with
  | Ret rep =>
      if skipped_redundant rep
      then rep = skipped_report /\ s_db s' = s_db s /\ s_files s' = s_files s /\
        s_ideas s' = update_ideas (own tenant (idea i)) (set_state now SkippedRedundant) (s_ideas s)
      else created_pages rep <> [] /\
        s_ideas s' = update_ideas (own tenant (idea i)) (set_stamp stamp)
                       (update_ideas (own tenant (idea i)) (set_state now Ingested) (s_ideas s)) /\
        idea i ∉ IdeasRepo.select_dirty_for_ingest tenant (s_ideas s')
  | _ => s_ideas s' = s_ideas s
  end.
Proof.
  pose proof (ends_run tenant user i s s ltac:(done)) as Hr.
  destruct (run' tenant user i s) as [[rep|e|] s']; cbn [fst snd] in Hr; [|exact Hr..]. unfold run_left in Hr.
  destruct (skipped_redundant rep); [done|]. destruct Hr as [Hc Hi]. split; [done|]. split; [done|]. rewrite Hi.
  clear. unfold IdeasRepo.select_dirty_for_ingest. intros (r & He & Hr)%list_elem_of_fmap. rewrite sort_by_perm in Hr.
  apply list_elem_of_filter in Hr as [Hd Hr]. bool_prop. rename select (N.eqb _ _ = true) into Ht.
  unfold update_ideas in Hr. rewrite <- list_fmap_compose in Hr. apply list_elem_of_fmap in Hr as (x & Hx & _).
  cbn in Hx. destruct (own tenant (idea i) x) eqn:Ho.
  - assert (own tenant (idea i) (set_state now Ingested x) = true) as Ho' by exact Ho. rewrite Ho' in Hx. subst r.
    unfold IdeasRepo.dirty in *. cbn in *. rewrite Z.ltb_irrefl, andb_false_r in *. done.
  - rewrite Ho in Hx. subst r. unfold own in Ho. by rewrite Ht, He, N.eqb_refl in Ho.
Qed.
End PipelineProps.

(** ** Examples and witnesses *)

(** A model that answers from a list of texts, in order, and then nothing. *)
Definition scripted (_ : Uuid) (_ : WikiReq) (l : list string) : result Analyzer.WikiLlmError Analyzer.WikiResp * list string :=
  match l with
  | [] => (Err (Analyzer.Provider "scripted error"), [])
  | x :: l => (Ok {| Analyzer.resp_content := x; Analyzer.truncated := false |}, l)
  end.
Definition next_id (db : Db) : Uuid := N.of_nat (S (length (pages db))).
Definition rust_items : list Item :=
  [{| it_name := "Rust"; it_type := "entity" |}; {| it_name := "Rust"; it_type := "entity" |}].
Definition demo_items (n : nat) (pick : @Sys Files (list string) -> nat) (items : list Item) (answers : list string) :=
  @run_items Files (list string) files_os ascii_only (fun s => s) next_id demo_root default_quota scripted 1%N 7%N n
    pick items ({| pages := []; links := [] |}, [], answers).

(** The analysis may name a thing twice, and the tasks look for its page before either has written it: with
    two permits both create it and the second write replaces the first body, which is lost. With one permit
    the second is merged. *)
Example same_item_twice_loses_a_body :
  let two := demo_items 2 (fun s => match map snd (tasks s) with
                                    | [Creating _; Creating _] => 0%nat
                                    | [Creating _; _] => 1%nat | _ => length (results s) end)
               rust_items ["first body"; "second body"] in
  let one := demo_items 1 (fun s => length (results s)) rust_items ["first body"; "second body"; "both bodies"] in
  results two = [Ok (1%N, true); Ok (1%N, true)] /\ lookup_file rust_md (snd (fst (env two))) = Some "second body" /\
  results one = [Ok (1%N, true); Ok (1%N, false)] /\ lookup_file rust_md (snd (fst (env one))) = Some "both bodies".
Proof. vm_compute. repeat split. Qed.

Lemma items_all_reported_witness :
  let s := demo_items 2 (fun s => length (results s)) rust_items ["only body"] in
  let rep := foldl collect (source_report 9%N) (results s) in
  results s = [Ok (1%N, true); Err "provider error: scripted error"] /\
  (length (created_pages rep) + length (merged_pages rep) + length (errors rep) = 3)%nat.
Proof.
  pose proof (@items_all_reported Files (list string) files_os ascii_only (fun s => s) next_id demo_root
    default_quota scripted 1%N 7%N 2 (fun s => length (results s)) rust_items
    ({| pages := []; links := [] |}, [], ["only body"]) 9%N ltac:(lia)) as (_ & _ & _ & _ & H).
  split; [vm_compute; reflexivity|exact H].
Defined.

(** One JSON text: the empty object. *)
Definition empty_json : Json :=
  {| from_str := fun s => if String.eqb s "{}" then Ok (obj []) else Err "expected value"; to_string := fun _ => "{}" |}.
Definition rust_analysis : Analyzer.SourceAnalysis :=
  {| Analyzer.source_title := "On Rust"; Analyzer.sa_summary := "A language."; Analyzer.entities :=
       (fun n => {| Analyzer.name := n; Analyzer.item_aliases := []; Analyzer.subtype := None |}) <$> ["Rust"; "LLVM"];
     Analyzer.concepts := []; Analyzer.contradictions := []; Analyzer.related_pages := []; Analyzer.key_points := [] |}.
Definition demo_idea (active : bool) : IdeaRow :=
  {| i_id := 7%N; i_tenant := 1%N; i_user := 2%N; i_kind := "text"; i_body := "Rust uses LLVM."; i_source_url := None;
     i_log_ref := ""; i_provider := None; i_state := Ideas.Pending; i_job := None; i_origin := "capture";
     i_captured_at := 10%Z; i_active := active; i_updated_at := 10%Z; i_last_ingested := None; i_idem := None;
     i_lat := None; i_lng := None; i_accuracy := None |}.
(** The handler on one capture, with a ledger that passes the first [checks] checks. *)
Definition demo_handle (checks : nat) (row : IdeaRow) (db : Db) (answers : list string) :=
  @Handler.handle Files (nat * list string) files_os ascii_only empty_json (fun s => s) next_id default_quota
    (fun t req l => let '(r, a) := scripted t req (snd l) in (r, (fst l, a)))
    (fun _ _ l => match fst l with
                  | O => (Err (Guard.CeilingReached "spent"), l)
                  | S n => (Ok tt, (n, snd l)) end)
    (fun _ => Some rust_analysis) (fun _ => None) (fun _ => None) (fun _ => Null) (fun _ => 0%Z) 20%Z 21%Z
    (fun s => length (results s)) (fun _ => Some 7%N) (fun i => pretty i) (Handler.handler_new ["data"])
    {| ctx_id := 3%N; ctx_tenant := 1%N; ctx_kind := Jobs.Ingest; ctx_payload := obj [("idea_id", String_ "7")];
       ctx_attempt := 0%Z |}
    {| s_db := db; s_files := []; s_ideas := [row]; s_llm := ((checks, answers), []) |}.
Definition no_pages : Db := {| pages := []; links := [] |}.
Definition five_answers : list string := ["{}"; "{}"; "the source"; "about Rust"; "about LLVM"].

(** A capture becomes its source page and a page for each thing it names. *)
Example capture_is_ingested :
  let '(r, s) := demo_handle 9 (demo_idea true) no_pages five_answers in
  match r with Ret v => Json.get "errors" v | _ => None end = Some (Array []) /\
  map (fun p => (type_ p, slug p)) (pages (s_db s)) = [("source", "on-rust"); ("entity", "rust"); ("entity", "llvm")] /\
  map i_state (s_ideas s) = [Ingested] /\
  (passed (snd (s_llm s)), calls (snd (s_llm s))) = (5, 5)%nat.
Proof. vm_compute. repeat split. Qed.

(** The checks of the items all come before the first of them is asked for, so the refusal of one drops them
    all, those that passed too. *)
Example refused_item_drops_all_items :
  let '(r, s) := demo_handle 4 (demo_idea true) no_pages five_answers in
  match r with Failed e => e = "cost ceiling reached: spent" | _ => False end /\
  map (fun p => (type_ p, slug p)) (pages (s_db s)) = [("source", "on-rust")] /\ map i_state (s_ideas s) = [Pending] /\
  (passed (snd (s_llm s)), calls (snd (s_llm s))) = (4, 3)%nat.
Proof. vm_compute. repeat split. Qed.

(** The handler loads a capture whether or not it was deleted meanwhile: its pages are written again. *)
Example deleted_capture_is_ingested :
  let '(r, s) := demo_handle 9 (demo_idea false) no_pages five_answers in
  map (fun p => (slug p, source_ids p)) (pages (s_db s)) = [("on-rust", [7%N]); ("rust", [7%N]); ("llvm", [7%N])].
Proof. vm_compute. reflexivity. Qed.

(** The source page is written past the factory: a reviewed one is replaced by what the model wrote. *)
Example reviewed_source_page_is_replaced :
  let reviewed_source := {| id := 1%N; tenant_id := 1%N; slug := "on-rust"; title := "On Rust"; aliases := []; tags := [];
    type_ := "source"; summary := ""; reviewed := true; char_len := 5%Z;
    body_ref := ["data"; "t"; "1"; "u"; "_"; "sources"; "on-rust.md"]; source_ids := [7%N]; content_hash := "mine";
    sync_version := 1%Z; deleted := false |} in
  let '(r, s) := demo_handle 9 (demo_idea true) {| pages := [reviewed_source]; links := [] |} five_answers in
  map (fun p => (reviewed p, content_hash p)) (firstn 1 (pages (s_db s))) = [(true, "the source")].
Proof. vm_compute. reflexivity. Qed.

(** The fallbacks, on the inputs of the tests. *)
Example fallbacks_of_the_tests :
  fallback_title "Zephyr backend uses PostgreSQL 16 and Redis 7. More detail here."
  = "Zephyr backend uses PostgreSQL 16 and Redis 7" /\
  fallback_title ("   " +:+ Str.lf +:+ "  ") = "Untitled note" /\ short_idea_id 0%N = "00000000" /\
  fallback_summary ("a  b" +:+ Str.lf +:+ " c ") = "a b c".
Proof. vm_compute. repeat split. Qed.
