(* ===== verification/Identity.v ===== *)
(** * Proofs of identity

    [app-server/src/auth/jwt.rs], [password.rs], [magic.rs] and [social.rs]: session tokens, passwords,
    magic links and the sign-in tokens of Google and Apple. The crates behind them, for JSON web tokens,
    Argon2 and Redis, are classes; so is the store of magic links, with its laws, whose two instances are
    the map of one process and Redis. Times are microseconds. *)
From S2P Require Import Prelude RustStr Json.
From stdpp Require Import list gmap strings pretty.

#[local] Open Scope string_scope.
#[local] Open Scope list_scope.
#[local] Open Scope Z_scope.

(** [DateTime::timestamp]: whole seconds. *)
Definition timestamp (now : Z) : Z := now / 1000000.
Definition seconds (n : Z) : Z := n * 1000000.

(** ** Session tokens *)
Module Jwt.
(* src/qcue-rs/app-server/src/auth/jwt.rs 8-13 JwtCfg *)
Record JwtCfg : Type := { secret : string; cfg_iss : string; cfg_aud : string; ttl_secs : Z }.

(* src/qcue-rs/app-server/src/auth/jwt.rs 18-27 SessionClaims *)
Record SessionClaims : Type := {
  sub : Uuid;
  tenant_id : Uuid;
  role : string;
  jti : Uuid;
  iss : string;
  aud : string;
  iat : Z;
  exp : Z;
}.

(* src/qcue-rs/app-server/src/auth/jwt.rs 29-41 new *)
Definition claims_new (now : Z) (sub tenant_id : Uuid) (role : string) (jti : Uuid) (c : JwtCfg) : SessionClaims :=
  {| sub := sub; tenant_id := tenant_id; role := role; jti := jti; iss := cfg_iss c; aud := cfg_aud c;
     iat := timestamp now; exp := Int.wrap_i64 (timestamp now + ttl_secs c) |}.

(** [jsonwebtoken]: signing with HS256, and decoding under a secret with the issuer, the audience and the
    expiry validated. *)
Class JwtCrate : Type := {
  encode : string -> SessionClaims -> result string string;
  decode : Z -> string -> string -> string -> string -> result string SessionClaims;
}.
(** What the crate documents: what is decoded has the issuer and the audience asked for and expired no
    more than a minute ago, the default leeway; what was signed decodes under the same secret until it
    expires; and a token has one content. *)
Class JwtLaws (C : JwtCrate) : Prop := {
  decode_valid : forall now secret iss_ aud_ token c,
    decode now secret iss_ aud_ token = Ok c -> iss c = iss_ /\ aud c = aud_ /\ timestamp now - 60 <= exp c;
  decode_encode : forall now secret c token,
    encode secret c = Ok token -> timestamp now < exp c -> decode now secret (iss c) (aud c) token = Ok c;
  decode_agrees : forall now now' secret i i' a a' token c c',
    decode now secret i a token = Ok c -> decode now' secret i' a' token = Ok c' -> c = c';
}.

Section Sessions.
Context `{JwtCrate}.
(* src/qcue-rs/app-server/src/auth/jwt.rs 44-46 mint_session *)
Definition mint_session (claims : SessionClaims) (c : JwtCfg) : result string string := encode (secret c) claims.
(* src/qcue-rs/app-server/src/auth/jwt.rs 48-54 verify_session *)
Definition verify_session (now : Z) (token : string) (c : JwtCfg) : result string SessionClaims :=
  decode now (secret c) (cfg_iss c) (cfg_aud c) token.
End Sessions.

(* src/qcue-rs/app-server/src/auth/jwt.rs 57-60 TokenSource *)
Inductive TokenSource : Type := Header | QueryParam.

(* src/qcue-rs/app-server/src/auth/jwt.rs 63-79 resolve_token *)
Definition resolve_token (authz query_token : option string) (is_sse_route : bool) : option (TokenSource * string) :=
  match authz ≫= Str.strip_prefix "Bearer " with
  | Some rest => Some (Header, rest)
  | None =>
      if is_sse_route then (fun q => (QueryParam, q)) <$> query_token else None
  end.
End Jwt.

(** ** Passwords *)
Module Password.
(** [argon2] and [password_hash]: whether a text is a hash, a numeric parameter of one, verifying, hashing
    with a fresh salt. *)
Class Argon : Type := {
  is_hash : string -> bool;
  hash_param : string -> string -> option Z;
  argon_verify : string -> string -> bool;
  argon_hash : string -> string -> result string string;
}.

(* src/qcue-rs/app-server/src/auth/password.rs 15-16 DUMMY_HASH *)
Definition DUMMY_HASH : string :=
  "$argon2id$v=19$m=19456,t=2,p=1$ALf/FWaOcGnBQa5DHH/hzA$hFKcfzBUOZyT3Zlfu6WtMD7uRnPC3M7t0PQA64J7Zpk".

Section Hashes.
Context `{Argon}.
(* src/qcue-rs/app-server/src/auth/password.rs 18-21 hash_password *)
Definition hash_password (salt pw : string) : result string string := argon_hash salt pw.

(** The parameters are constant and valid. An unknown account is verified against the dummy hash. *)
(* src/qcue-rs/app-server/src/auth/password.rs 30-44 verify_password *)
Definition verify_password (stored : option string) (candidate : string) : bool :=
  let hash_str := unwrap_or stored DUMMY_HASH in
  if negb (is_hash hash_str) then false
  else argon_verify hash_str candidate && opt_is_some stored.

(* src/qcue-rs/app-server/src/auth/password.rs 47-57 needs_rehash *)
Definition needs_rehash (stored : string) : bool :=
  if is_hash stored then
    let m := unwrap_or (hash_param stored "m") 0 in
    let t := unwrap_or (hash_param stored "t") 0 in
    let par := unwrap_or (hash_param stored "p") 0 in
    negb ((m =? 19456) && (t =? 2) && (par =? 1))
  else true.
End Hashes.
End Password.

(** ** Magic links *)
Module Magic.
(** A store of single-use tokens: [put now token tenant user ttl], the lifetime in seconds, and
    [consume now token]. *)
Class MagicStore (S : Type) : Type := {
  put : Z -> string -> Uuid -> Uuid -> Z -> S -> S;
  consume : Z -> string -> S -> option (Uuid * Uuid) * S;
}.
(** What is promised: a token put is consumed once, until it expires; others are not touched; a token
    consumed, whatever came of it, is not there any more, and neither is one that expired. *)
Class MagicLaws (S : Type) `{MagicStore S} (reachable : S -> Prop) : Prop := {
  reachable_put : forall now k t u ttl s, reachable s -> reachable (put now k t u ttl s);
  reachable_consume : forall now k s, reachable s -> reachable (snd (consume now k s));
  consume_put : forall now now' k t u ttl s,
    reachable s -> 0 < ttl -> now <= now' -> now' < now + seconds ttl ->
    fst (consume now' k (put now k t u ttl s)) = Some (t, u);
  consume_expired : forall now now' k t u ttl s,
    reachable s -> 0 < ttl -> now + seconds ttl < now' -> fst (consume now' k (put now k t u ttl s)) = None;
  consume_other : forall now now' k k' t u ttl s,
    reachable s -> k <> k' -> fst (consume now' k (put now k' t u ttl s)) = fst (consume now' k s);
  consume_once : forall now now' k k' s,
    reachable s ->
    fst (consume now' k (snd (consume now k' s))) = (if String.eqb k k' then None else fst (consume now' k s));
}.

(** The map of one process. *)
(* src/qcue-rs/app-server/src/auth/magic.rs 14-15 MagicStore *)
Definition Memory : Type := gmap string (Uuid * Uuid * Z).
(* src/qcue-rs/app-server/src/auth/magic.rs 52-58 put *)
Definition memory_put (now : Z) (token : string) (tenant user : Uuid) (ttl : Z) (s : Memory) : Memory :=
  <[token := (tenant, user, now + seconds ttl)]> s.
(** A poisoned lock answers nothing; none of the code between the locks panics. *)
(* src/qcue-rs/app-server/src/auth/magic.rs 69-78 consume *)
Definition memory_consume (now : Z) (token : string) (s : Memory) : option (Uuid * Uuid) * Memory :=
  (match s !! token with
   | Some (t, u, exp) => if exp <? now then None else Some (t, u)
   | None => None
   end, delete token s).
#[export] Instance memory_store : MagicStore Memory := { put := memory_put; consume := memory_consume }.

(** Redis: the commands [SET key value EX seconds] and [GETDEL key]. *)
Class RedisOps (R : Type) : Type := {
  set_ex : Z -> string -> string -> Z -> R -> R;
  get_del : Z -> string -> R -> option string * R;
}.
(** What its manual says of them. *)
Class RedisLaws (R : Type) `{RedisOps R} : Prop := {
  get_set : forall now now' k v secs r, 0 < secs -> now <= now' -> now' < now + seconds secs ->
    fst (get_del now' k (set_ex now k v secs r)) = Some v;
  get_expired : forall now now' k v secs r, 0 < secs -> now + seconds secs <= now' ->
    fst (get_del now' k (set_ex now k v secs r)) = None;
  get_other : forall now now' k k' v secs r, k <> k' ->
    fst (get_del now' k (set_ex now k' v secs r)) = fst (get_del now' k r);
  get_once : forall now now' k k' r,
    fst (get_del now' k (snd (get_del now k' r))) = (if String.eqb k k' then None else fst (get_del now' k r));
}.

Section Redis.
Context {R : Type} `{RedisOps R} (prefix : string) (uuid_text : Uuid -> string) (parse_uuid : string -> option Uuid).
(* src/qcue-rs/app-server/src/auth/magic.rs 47-49 key *)
Definition key (token : string) : string := prefix +:+ ":magic:" +:+ token.
(* src/qcue-rs/app-server/src/auth/magic.rs 59-65 put *)
Definition redis_put (now : Z) (token : string) (tenant user : Uuid) (ttl : Z) (r : R) : R :=
  set_ex now (key token) (uuid_text tenant +:+ ":" +:+ uuid_text user) ttl r.
Definition parse_ids (v : string) : option (Uuid * Uuid) :=
  match Str.split_once ":" v with
  | Some (t, u) =>
      match parse_uuid t, parse_uuid u with Some t, Some u => Some (t, u) | _, _ => None end
  | None => None
  end.
(* src/qcue-rs/app-server/src/auth/magic.rs 79-86 consume *)
Definition redis_consume (now : Z) (token : string) (r : R) : option (Uuid * Uuid) * R :=
  let '(v, r) := get_del now (key token) r in
  (match v with Some v => parse_ids v | None => None end, r).
Definition redis_store : MagicStore R := {| put := redis_put; consume := redis_consume |}.
End Redis.
End Magic.

(** ** Sign-in tokens *)
Module Social.
(* src/qcue-rs/app-server/src/auth/social.rs 10-22 certs_url *)
Definition certs_url (provider : string) : option string :=
  if String.eqb provider "google" then Some "https://www.googleapis.com/oauth2/v3/certs"
  else if String.eqb provider "apple" then Some "https://appleid.apple.com/auth/keys"
  else None.

(* src/qcue-rs/app-server/src/auth/social.rs 25-28 SocialCfg *)
Record SocialCfg : Type := { google_auds : list string; apple_auds : list string }.

(* src/qcue-rs/app-server/src/auth/social.rs 31-44 IdTokenClaims *)
Record IdTokenClaims : Type := {
  id_sub : string;
  email : option string;
  id_iss : string;
  id_aud : string;
  id_exp : Z;
  email_verified : option bool;
  nonce : option string;
}.

(** The field as it comes, missing or null included; [None] refuses the token. *)
(* src/qcue-rs/app-server/src/auth/social.rs 48-63 de_bool_lenient *)
Definition de_bool_lenient (v : option Value) : option (option bool) :=
  match v with
  | None | Some Null => Some None
  | Some (Bool b) => Some (Some b)
  | Some (String_ s) => Some (Some (String.eqb s "true"))
  | Some _ => None
  end.

Section Keys.
Context {K : Type}.
(** [DecodingKey::from_rsa_components], [decode_header]'s key id and [decode] with RS256. *)
Context (from_rsa_components : string -> string -> option K).
Context (header_kid : string -> result string (option string)).
Context (decode_id : Z -> K -> list string -> list string -> string -> option IdTokenClaims).
(** The answer of a certificate endpoint: its cache control and its body, if it is JSON. *)
Context (fetch : string -> option (option string * option Value)).

Definition parse_key (k : Value) : option (string * K) :=
  kid ← get_str "kid" k; n ← get_str "n" k; e ← get_str "e" k; dk ← from_rsa_components n e; Some (kid, dk).
(* src/qcue-rs/app-server/src/auth/social.rs 103-117 parse_google_jwks *)
Definition parse_google_jwks (v : Value) : gmap string K :=
  match Json.get "keys" v ≫= as_array with
  | Some keys => foldl (fun m k => match parse_key k with Some (kid, dk) => <[kid := dk]> m | None => m end) ∅ keys
  | None => ∅
  end.

(* src/qcue-rs/app-server/src/auth/social.rs 119-122 JwksCache *)
Record JwksCache : Type := { keys : gmap string K; expires_at : Z }.
(* src/qcue-rs/app-server/src/auth/social.rs 127-132 Jwks *)
Definition Jwks : Type := gmap string JwksCache.

(* src/qcue-rs/app-server/src/auth/social.rs 159-168 cached_fresh *)
Definition cached_fresh (now : Z) (provider kid : string) (j : Jwks) : option K :=
  c ← j !! provider;
  if now <? expires_at c then keys c !! kid else None.

(** [parse::<u64>] of the seconds. *)
Definition parse_u64 (s : string) : option Z :=
  let digits := if Str.starts_with "+" s then Str.drop 1 s else s in
  if String.eqb digits "" || negb (Str.all_digits digits) then None
  else opt_filter (fun v => v <=? Int.u64_max) (Some (Str.digits_value 0 digits)).
(* src/qcue-rs/app-server/src/auth/social.rs 206-216 parse_max_age *)
Definition parse_max_age (h : string) : option Z :=
  head (omap (fun part => Str.strip_prefix "max-age=" (Str.trim part) ≫= parse_u64) (Str.split_on "," h)).

(** The guard of the refresh serializes the fetches, so that the second look at the cache, by who did not
    wait, finds what the first found. A time past the clock's range panics: [None]. *)
Context (instant_max : Z).
(* src/qcue-rs/app-server/src/auth/social.rs 173-202 key_for *)
Definition key_for (now : Z) (provider kid : string) (j : Jwks) : option (option K * Jwks) :=
  match cached_fresh now provider kid j with
  | Some k => Some (Some k, j)
  | None =>
      match certs_url provider ≫= fetch with
      | None => Some (None, j)
      | Some (control, body) =>
          let ttl := unwrap_or (control ≫= parse_max_age) 3600 in
          match body with
          | None => Some (None, j)
          | Some body =>
              let ks := parse_google_jwks body in
              if instant_max <? now + seconds ttl then None
              else Some (ks !! kid, <[provider := {| keys := ks; expires_at := now + seconds ttl |}]> j)
          end
      end
  end.

Definition issuers_of (provider : string) (cfg : SocialCfg) : option (list string * list string) :=
  if String.eqb provider "google" then Some (["https://accounts.google.com"; "accounts.google.com"], google_auds cfg)
  else if String.eqb provider "apple" then Some (["https://appleid.apple.com"], apple_auds cfg)
  else None.

(** The claims, if the token is accepted, and the cache; [None] is a panic. *)
(* src/qcue-rs/app-server/src/auth/social.rs 67-100 verify_id_token *)
Definition verify_id_token (now : Z) (provider id_token : string) (cfg : SocialCfg) (j : Jwks) :
  option (option IdTokenClaims * Jwks) :=
  match header_kid id_token with
  | Err _ | Ok None => Some (None, j)
  | Ok (Some kid) =>
      match issuers_of provider cfg with
      | None => Some (None, j)
      | Some (issuers, auds) =>
          if bool_decide (auds = []) then Some (None, j)
          else
            '(k, j) ← key_for now provider kid j;
            match k with
            | None => Some (None, j)
            | Some k =>
                match decode_id now k issuers auds id_token with
                | None => Some (None, j)
                | Some c =>
                    if opt_is_some (email c) && negb (bool_decide (email_verified c = Some true))
                    then Some (None, j) else Some (Some c, j)
                end
            end
      end
  end.
End Keys.
End Social.

(** * Properties *)
Import Jwt Password Magic Social.

(** Only the hash of the account itself is matched: without one, and that is without an account too, nothing
    is, although the dummy hash is verified as long. *)
Lemma verify_needs_hash `{Argon} (stored : option string) (candidate : string) :
  verify_password stored candidate = true -> exists h, stored = Some h /\ argon_verify h candidate = true.
Proof.
  unfold verify_password. destruct stored as [h|]; cbn; (destruct (is_hash _); cbn; [|done]).
  - rewrite andb_true_r. eauto.
  - by rewrite andb_false_r.
Qed.

(** ** Magic links *)
#[export] Instance memory_laws : MagicLaws Memory (fun _ => True).
Proof.
  split; try done; cbn; unfold memory_consume, memory_put, seconds, Memory; cbn; intros; try done.
  - rewrite lookup_insert_eq. rewrite (proj2 (Z.ltb_ge _ _)) by lia. done.
  - rewrite lookup_insert_eq. rewrite (proj2 (Z.ltb_lt _ _)) by lia. done.
  - by rewrite lookup_insert_ne by congruence.
  - destruct (String.eqb_spec k k') as [->|Hne]; [by rewrite lookup_delete_eq|by rewrite lookup_delete_ne by congruence].
Qed.

Section RedisProps.
Context {R : Type} `{RedisLaws R} (prefix : string) (uuid_text : Uuid -> string) (parse_uuid : string -> option Uuid).
(** The text of an id has no colon and parses back. *)
Context (text_parses : forall u, parse_uuid (uuid_text u) = Some u).
Context (text_no_colon : forall u v, Str.split_once ":" (uuid_text u +:+ ":" +:+ v) = Some (uuid_text u, v)).

Lemma key_inj (k k' : string) : key prefix k = key prefix k' -> k = k'.
Proof. unfold key. intros Hk. by apply Str.app_inj_l, Str.app_inj_l in Hk. Qed.

Lemma parse_ids_text (t u : Uuid) :
  parse_ids parse_uuid (uuid_text t +:+ ":" +:+ uuid_text u) = Some (t, u).
Proof. unfold parse_ids. by rewrite text_no_colon, !text_parses. Qed.

Lemma redis_laws : @MagicLaws R (redis_store prefix uuid_text parse_uuid) (fun _ => True).
Proof.
  split; try done; cbn; unfold redis_consume, redis_put; intros.
  - pose proof (get_set now now' (key prefix k) (uuid_text t +:+ ":" +:+ uuid_text u) ttl s) as Hg.
    destruct (get_del now' _ _) as [v r]. cbn in *. rewrite Hg by lia. apply parse_ids_text.
  - pose proof (get_expired now now' (key prefix k) (uuid_text t +:+ ":" +:+ uuid_text u) ttl s) as Hg.
    destruct (get_del now' _ _) as [v r]. cbn in *. by rewrite Hg by lia.
  - pose proof (get_other now now' (key prefix k) (key prefix k') (uuid_text t +:+ ":" +:+ uuid_text u) ttl s) as Hg.
    destruct (get_del now' _ (set_ex _ _ _ _ _)) as [v r], (get_del now' _ s) as [v' r']. cbn in *.
    rewrite Hg; [done|]. intros He. by apply key_inj in He.
  - pose proof (get_once now now' (key prefix k) (key prefix k') s) as Hg.
    destruct (get_del now (key prefix k') s) as [v0 r0] eqn:E0. cbn [fst snd] in *.
    destruct (get_del now' _ r0) as [v r], (get_del now' _ s) as [v' r']. cbn in *. rewrite Hg.
    destruct (String.eqb_spec k k') as [->|Hne]; [by rewrite String.eqb_refl|].
    destruct (String.eqb_spec (key prefix k) (key prefix k')) as [He|]; [by apply key_inj in He|done].
Qed.
End RedisProps.

(** What happens to a store of magic links: a token is put or consumed, at a time. *)
Inductive MagicOp : Type :=
  | OpPut (now : Z) (token : string) (tenant user : Uuid) (ttl : Z)
  | OpConsume (now : Z) (token : string).
Section MagicRuns.
Context {S : Type} {HS : MagicStore S} {reachable : S -> Prop} {HL : MagicLaws S reachable}.

(** The answers of the consumes, and the store. *)
Fixpoint run_magic (l : list MagicOp) (s : S) : list (string * option (Uuid * Uuid)) * S :=
  match l with
  | [] => ([], s)
  | OpPut now k t u ttl :: l => run_magic l (put now k t u ttl s)
  | OpConsume now k :: l =>
      let '(out, s') := run_magic l (snd (consume now k s)) in ((k, fst (consume now k s)) :: out, s')
  end.
Definition is_put (k : string) (o : MagicOp) : bool :=
  match o with OpPut _ k' _ _ _ => String.eqb k' k | OpConsume _ _ => false end.
Definition puts (k : string) (l : list MagicOp) : nat := list_sum (map (fun o => Nat.b2n (is_put k o)) l).
Definition is_win (k : string) (x : string * option (Uuid * Uuid)) : bool := String.eqb (fst x) k && opt_is_some (snd x).
Definition wins (k : string) (out : list (string * option (Uuid * Uuid))) : nat :=
  list_sum (map (fun x => Nat.b2n (is_win k x)) out).
Definition absent (k : string) (s : S) : Prop := forall now, fst (consume now k s) = None.

Lemma wins_bound (k : string) (l : list MagicOp) : forall s, reachable s ->
  (wins k (fst (run_magic l s)) <= 1 + puts k l)%nat /\
  (absent k s -> (wins k (fst (run_magic l s)) <= puts k l)%nat).
Proof.
  induction l as [|[now k' t u ttl|now k'] l IH]; intros s Hs; cbn [run_magic].
  - cbn. lia.
  - specialize (IH _ (reachable_put now k' t u ttl s Hs)) as [I1 I2]. unfold puts in *. simpl.
    destruct (String.eqb_spec k' k) as [->|Hne]; simpl; [lia|]. split; [lia|]. intros Ha.
    etrans; [apply I2|lia]. intros n. rewrite consume_other by done. apply Ha.
  - specialize (IH _ (reachable_consume now k' s Hs)) as [I1 I2].
    destruct (run_magic l (snd (consume now k' s))) as [out s']. cbn [fst] in *. unfold wins, puts in *. simpl in *.
    assert (absent k s \/ k' = k -> absent k (snd (consume now k' s))) as Hd.
    { intros Hc n. rewrite consume_once by done. destruct (String.eqb_spec k k'); [done|].
      destruct Hc as [Ha| ->]; [apply Ha|done]. }
    unfold is_win at 1 3. cbn [fst snd]. destruct (String.eqb_spec k' k) as [->|Hne]; simpl.
    + specialize (I2 (Hd (or_intror eq_refl))). split; [destruct (opt_is_some _); simpl; lia|].
      intros Ha. rewrite Ha. simpl. lia.
    + split; [lia|]. intros Ha. etrans; [apply I2, Hd; by left|lia].
Qed.

(** A magic link works once. From a store without the token, whatever tokens are issued and tried in
    whatever order and at whatever times, a token is accepted at most as often as it was issued; and a token
    just issued is accepted until it expires, for the account it was issued to. This holds of every store
    that keeps its promises, which the map of one process and Redis do. *)
Theorem magic_single_use (s : S) (l : list MagicOp) (k : string) (now now' : Z) (t u : Uuid) (ttl : Z)
  (Hs : reachable s) (Ha : absent k s) (Httl : 0 < ttl) :
  (wins k (fst (run_magic l s)) <= puts k l)%nat /\
  (now <= now' < now + seconds ttl -> fst (consume now' k (put now k t u ttl s)) = Some (t, u)) /\
  (now + seconds ttl < now' -> fst (consume now' k (put now k t u ttl s)) = None) /\
  forall now'', fst (consume now'' k (snd (consume now' k (put now k t u ttl s)))) = None.
Proof.
  split; [by apply wins_bound|]. split; [intros []; by apply consume_put|]. split; [by apply consume_expired|].
  intros n. rewrite consume_once by (by apply reachable_put). by rewrite String.eqb_refl.
Qed.
End MagicRuns.

Lemma magic_single_use_witness :
  let l := [OpPut 0 "mgc_x" 1 2 900; OpConsume 5 "mgc_y"; OpConsume 5 "mgc_x"; OpConsume 6 "mgc_x"] in
  fst (run_magic l (∅ : Memory)) = [("mgc_y", None); ("mgc_x", Some (1%N, 2%N)); ("mgc_x", None)] /\
  (wins "mgc_x" (fst (run_magic l (∅ : Memory))) <= 1)%nat.
Proof.
  split; [vm_compute; reflexivity|].
  exact (proj1 (@magic_single_use Memory memory_store _ memory_laws (∅ : Memory)
    [OpPut 0 "mgc_x" 1 2 900; OpConsume 5 "mgc_y"; OpConsume 5 "mgc_x"; OpConsume 6 "mgc_x"] "mgc_x" 0 5 1%N 2%N 900
    I (fun n => eq_refl) ltac:(lia))).
Defined.

(** ** Sign-in tokens *)
Section SocialProps.
Context {K : Type} (from_rsa_components : string -> string -> option K).
Context (header_kid : string -> result string (option string)).
Context (decode_id : Z -> K -> list string -> list string -> string -> option IdTokenClaims).
Context (fetch : string -> option (option string * option Value)) (instant_max : Z).

(** Where a key comes from: the provider's cached set while it is fresh, or the set its endpoint answers. *)
Definition key_of_provider (now : Z) (provider kid : string) (j : Jwks) (k : K) : Prop :=
  (exists c, j !! provider = Some c /\ now < expires_at c /\ keys c !! kid = Some k) \/
  (exists url control body, certs_url provider = Some url /\ fetch url = Some (control, Some body) /\
     parse_google_jwks from_rsa_components body !! kid = Some k).

Lemma key_for_spec (now : Z) (provider kid : string) (j j' : Jwks) (k : option K) :
  key_for from_rsa_components fetch instant_max now provider kid j = Some (k, j') ->
  (forall p, p <> provider -> j' !! p = j !! p) /\
  forall k', k = Some k' -> key_of_provider now provider kid j k'.
Proof.
  unfold key_for. destruct (cached_fresh now provider kid j) as [k0|] eqn:Hc.
  - intros [= <- <-]. split; [done|]. intros k' [= <-]. left. unfold cached_fresh in Hc.
    destruct (j !! provider) as [c|]; [|done]. cbn in Hc. destruct (now <? expires_at c) eqn:Hn; [|done].
    bool_prop. by exists c.
  - destruct (certs_url provider) as [url|] eqn:Hu; cbn; [|intros [= <- <-]; by split].
    destruct (fetch url) as [[control [body|]]|] eqn:Hf; [|intros [= <- <-]; by split..].
    destruct (_ <? _); [done|]. intros [= <- <-]. split; [intros p Hp; apply (lookup_insert_ne (M:=gmap string)); congruence|].
    intros k' Hk. right. by exists url, control, body.
Qed.

(** What a sign-in token must be to be accepted: issued by the provider named, for one of the audiences
    configured for it, of which there must be some, under a key of that provider's own set; and an email it
    carries must be verified. The caches of other providers stay as they are. *)
Theorem id_token_accepted (now : Z) (provider id_token : string) (cfg : SocialCfg) (j j' : Jwks) (c : IdTokenClaims)
  (decode_id_valid : forall now k issuers auds token c, decode_id now k issuers auds token = Some c ->
     id_iss c ∈ issuers /\ id_aud c ∈ auds /\ timestamp now - 60 <= id_exp c) :
  verify_id_token from_rsa_components header_kid decode_id fetch instant_max now provider id_token cfg j
  = Some (Some c, j') ->
  exists kid k issuers auds,
    header_kid id_token = Ok (Some kid) /\ issuers_of provider cfg = Some (issuers, auds) /\ auds <> [] /\
    key_of_provider now provider kid j k /\ decode_id now k issuers auds id_token = Some c /\
    id_iss c ∈ issuers /\ id_aud c ∈ auds /\ timestamp now - 60 <= id_exp c /\
    (email c <> None -> email_verified c = Some true) /\ forall p, p <> provider -> j' !! p = j !! p.
Proof.
  unfold verify_id_token. destruct (header_kid id_token) as [[kid|]|]; [|done..].
  destruct (issuers_of provider cfg) as [[issuers auds]|]; [|done]. case_bool_decide as Ha; [done|].
  destruct (key_for _ _ _ _ _ _ _) as [[k j1]|] eqn:Hk; [|done]. cbn. apply key_for_spec in Hk as [Hj Hk].
  destruct k as [k|]; [|done]. destruct (decode_id now k issuers auds id_token) as [c1|] eqn:Hd; [|done].
  destruct (_ && _) eqn:He; [done|]. intros [= -> ->].
  pose proof (decode_id_valid _ _ _ _ _ _ Hd) as (H1 & H2 & H3). exists kid, k, issuers, auds.
  repeat split; try done; [by apply Hk|]. intros Hn. destruct (email c); [|done]. cbn in He.
  by apply negb_false_iff, bool_decide_eq_true in He.
Qed.
End SocialProps.
