(* ===== verification/Auth.v ===== *)
(** * Accounts and sessions

    [app-server/src/auth/routes.rs], [auth/audit.rs], [account/routes.rs] and the extractor of
    [tenancy/mod.rs] that every other route goes through. The tables of migration [00002] are lists of rows
    with their keys and cascades; a request runs at one time, in microseconds. A statement that breaks a
    key is an error of the database, after which the transactions before it stay committed. *)
From S2P Require Import Prelude RustStr Json WikiText Wiki Redact Server Identity.
From stdpp Require Import list gmap strings pretty.
Import Errors Jwt Password Magic Social.

#[local] Open Scope string_scope.
#[local] Open Scope list_scope.
#[local] Open Scope Z_scope.

(** ** The tables *)
(* src/qcue-rs/migrations/00002_M0_0002_users.sql 14-26 users *)
Record UserRow : Type := {
  u_id : Uuid;
  u_tenant : Uuid;
  u_email : string;
  u_hash : option string;
  u_role : string;
  u_active : bool;
}.
(* src/qcue-rs/migrations/00002_M0_0002_users.sql 64-76 sessions *)
Record SessionRow : Type := {
  s_tenant : Uuid;
  s_user : Uuid;
  s_jti : Uuid;
  s_expires : Z;
  s_revoked : option Z;
}.
(* src/qcue-rs/migrations/00002_M0_0002_users.sql 88-97 oauth_identities *)
Record IdentityRow : Type := {
  o_tenant : Uuid;
  o_user : Uuid;
  o_provider : string;
  o_subject : string;
  o_email : string;
}.
(* src/qcue-rs/migrations/20004_M2_0004_approvals_audit.sql 35-45 audit_log *)
Record AuditRow : Type := {
  au_tenant : Uuid;
  au_user : option Uuid;
  au_action : string;
  au_detail : Value;
  au_ip : option string;
}.
(** [tenants] keeps its ids here; slug and namespace are made of them. *)
Record Accounts : Type := {
  tenants : list Uuid;
  users : list UserRow;
  sessions : list SessionRow;
  identities : list IdentityRow;
  audit_log : list AuditRow;
}.
Definition with_users (l : list UserRow) (a : Accounts) : Accounts :=
  {| tenants := tenants a; users := l; sessions := sessions a; identities := identities a; audit_log := audit_log a |}.
Definition with_sessions (l : list SessionRow) (a : Accounts) : Accounts :=
  {| tenants := tenants a; users := users a; sessions := l; identities := identities a; audit_log := audit_log a |}.
Definition with_identities (l : list IdentityRow) (a : Accounts) : Accounts :=
  {| tenants := tenants a; users := users a; sessions := sessions a; identities := l; audit_log := audit_log a |}.
Definition with_audit (l : list AuditRow) (a : Accounts) : Accounts :=
  {| tenants := tenants a; users := users a; sessions := sessions a; identities := identities a; audit_log := l |}.
Definition with_tenants (l : list Uuid) (a : Accounts) : Accounts :=
  {| tenants := l; users := users a; sessions := sessions a; identities := identities a; audit_log := audit_log a |}.

Definition has_tenant (t : Uuid) (a : Accounts) : bool := existsb (N.eqb t) (tenants a).
Definition has_user (u : Uuid) (a : Accounts) : bool := existsb (fun r => N.eqb (u_id r) u) (users a).

Definition unique_violation : string := "duplicate key value violates unique constraint".
Definition foreign_key_violation : string := "insert or update violates foreign key constraint".

Definition insert_tenant (t : Uuid) (a : Accounts) : result ApiError Accounts :=
  if has_tenant t a then Err (Db unique_violation) else Ok (with_tenants (tenants a ++ [t]) a).

(** ** The audit log *)
Module Audit.
(** The insert is bound to its tenant; without one the row's policy refuses it. *)
(* src/qcue-rs/app-server/src/auth/audit.rs 48-75 write_audit_row *)
Definition write_audit_row (tenant user : option Uuid) (action : string) (ip_hash : option string)
  (detail : Value) (a : Accounts) : result string Accounts :=
  match tenant with
  | None => Err "new row violates row-level security policy"
  | Some t =>
      if has_tenant t a && match user with Some u => has_user u a | None => true end
      then Ok (with_audit (audit_log a ++ [{| au_tenant := t; au_user := user; au_action := action;
                                              au_detail := detail; au_ip := ip_hash |}]) a)
      else Err foreign_key_violation
  end.
(** A failure is logged and goes no further. *)
(* src/qcue-rs/app-server/src/auth/audit.rs 32-45 audit *)
Definition audit (tenant user : option Uuid) (action : string) (ip_hash : option string) (detail : Value)
  (a : Accounts) : Accounts :=
  match write_audit_row tenant user action ip_hash (Boundary.redact_json detail) a with
  | Ok a => a
  | Err _ => a
  end.
End Audit.
Import Audit.

Section Routes.
Context `{JwtCrate} `{Argon}.
(** Emails are compared as [CITEXT], case-folded; the text of a time; the settings. *)
Context (fold_email : string -> string) (json_time : Z -> string) (uuid_text : Uuid -> string).
Context (jwt_secret : string) (access_ttl_secs : Z).

Definition by_email (e : string) (u : UserRow) : bool := String.eqb (fold_email (u_email u)) (fold_email e).

Definition insert_user (u : UserRow) (a : Accounts) : result ApiError Accounts :=
  if negb (has_tenant (u_tenant u) a) then Err (Db foreign_key_violation)
  else if existsb (fun r => N.eqb (u_id r) (u_id u) || by_email (u_email u) r) (users a)
  then Err (Db unique_violation) else Ok (with_users (users a ++ [u]) a).
Definition update_users (u : Uuid) (f : UserRow -> UserRow) (a : Accounts) : Accounts :=
  with_users ((fun r => if N.eqb (u_id r) u then f r else r) <$> users a) a.
Definition set_hash (h : option string) (r : UserRow) : UserRow :=
  {| u_id := u_id r; u_tenant := u_tenant r; u_email := u_email r; u_hash := h; u_role := u_role r;
     u_active := u_active r |}.
Definition same_identity (provider subject : string) (o : IdentityRow) : bool :=
  String.eqb (o_provider o) provider && String.eqb (o_subject o) subject.

(** ** Sessions *)
(* src/qcue-rs/app-server/src/auth/routes.rs 32-34 access_cfg *)
Definition access_cfg : JwtCfg :=
  {| secret := jwt_secret; cfg_iss := "qcue"; cfg_aud := "qcue-app"; ttl_secs := access_ttl_secs |}.
(* src/qcue-rs/app-server/src/auth/routes.rs 35-37 refresh_cfg *)
Definition refresh_cfg : JwtCfg :=
  {| secret := jwt_secret; cfg_iss := "qcue"; cfg_aud := "qcue-refresh"; ttl_secs := 60 * 60 * 24 * 30 |}.

(* src/qcue-rs/app-server/src/auth/routes.rs 67-88 insert_session *)
Definition insert_session (tenant user jti : Uuid) (expires : Z) (a : Accounts) : result ApiError Accounts :=
  if negb (has_tenant tenant a && has_user user a) then Err (Db foreign_key_violation)
  else if existsb (fun s => N.eqb (s_tenant s) tenant && N.eqb (s_jti s) jti) (sessions a)
  then Err (Db unique_violation)
  else Ok (with_sessions (sessions a ++ [{| s_tenant := tenant; s_user := user; s_jti := jti; s_expires := expires;
                                            s_revoked := None |}]) a).

Definition revoke (now : Z) (p : SessionRow -> bool) (a : Accounts) : Accounts :=
  with_sessions ((fun s => if p s && bool_decide (s_revoked s = None)
    then {| s_tenant := s_tenant s; s_user := s_user s; s_jti := s_jti s; s_expires := s_expires s;
            s_revoked := Some now |}
    else s) <$> sessions a) a.
(* src/qcue-rs/app-server/src/auth/routes.rs 91-104 revoke_user_sessions *)
Definition revoke_user_sessions (now : Z) (tenant user : Uuid) (a : Accounts) : Accounts :=
  revoke now (fun s => N.eqb (s_tenant s) tenant && N.eqb (s_user s) user) a.
(* src/qcue-rs/app-server/src/auth/routes.rs 108-121 revoke_session *)
Definition revoke_session (now : Z) (tenant jti : Uuid) (a : Accounts) : Accounts :=
  revoke now (fun s => N.eqb (s_tenant s) tenant && N.eqb (s_jti s) jti) a.
(* src/qcue-rs/app-server/src/auth/routes.rs 514-529 session_is_live *)
Definition session_is_live (now : Z) (tenant jti : Uuid) (a : Accounts) : bool :=
  existsb (fun s => N.eqb (s_tenant s) tenant && N.eqb (s_jti s) jti && bool_decide (s_revoked s = None)
                    && (now <? s_expires s)) (sessions a).

(** The ids a request makes up. *)
Record Ids : Type := { new_tenant : Uuid; new_user : Uuid; access_jti : Uuid; refresh_jti : Uuid }.

(* src/qcue-rs/app-server/src/auth/routes.rs 123-141 issue_pair *)
Definition issue_pair (now : Z) (ids : Ids) (tenant user : Uuid) (role : string) (a : Accounts) :
  result ApiError Value * Accounts :=
  match mint_session (claims_new now user tenant role (access_jti ids) access_cfg) access_cfg with
  | Err _ => (Err Unauthorized, a)
  | Ok access =>
      let access_exp := now + seconds access_ttl_secs in
      match insert_session tenant user (access_jti ids) access_exp a with
      | Err e => (Err e, a)
      | Ok a =>
          match mint_session (claims_new now user tenant role (refresh_jti ids) refresh_cfg) refresh_cfg with
          | Err _ => (Err Unauthorized, a)
          | Ok refresh =>
              match insert_session tenant user (refresh_jti ids) (now + seconds (30 * 86400)) a with
              | Err e => (Err e, a)
              | Ok a =>
                  (Ok (obj [("access_jwt", String_ access); ("refresh_jwt", String_ refresh);
                            ("expires_at", String_ (json_time access_exp))]), a)
              end
          end
      end
  end.

(** Issue a pair and, when that works, note it. *)
Definition issue_and_note (now : Z) (ids : Ids) (tenant user : Uuid) (role action : string) (detail : Value)
  (a : Accounts) : result ApiError Value * Accounts :=
  match issue_pair now ids tenant user role a with
  | (Ok body, a) => (Ok body, audit (Some tenant) (Some user) action None detail a)
  | (Err e, a) => (Err e, a)
  end.
Definition empty_detail : Value := obj [].

(** ** Signing up and in *)
Definition new_account (now : Z) (ids : Ids) (email : string) (hash : option string) (a : Accounts) :
  result ApiError Accounts :=
  let? a := insert_tenant (new_tenant ids) a in
  insert_user {| u_id := new_user ids; u_tenant := new_tenant ids; u_email := email; u_hash := hash;
                 u_role := "owner"; u_active := true |} a.

(* src/qcue-rs/app-server/src/auth/routes.rs 162-211 signup *)
Definition signup (now : Z) (ids : Ids) (salt email password : string) (a : Accounts) :
  result ApiError Value * Accounts :=
  if String.eqb (Str.trim email) "" || String.eqb password "" then (Err Unauthorized, a)
  else if existsb (by_email email) (users a) then (Err (BadRequest "email already registered"), a)
  else
    match hash_password salt password with
    | Err _ => (Err Unauthorized, a)
    | Ok hash =>
        match new_account now ids email (Some hash) a with
        | Err e => (Err e, a)
        | Ok a => issue_and_note now ids (new_tenant ids) (new_user ids) "owner" "auth.signup.ok" empty_detail a
        end
    end.

(** The lazy rehash, whose failures go no further. *)
Definition rehash (salt password : string) (u : UserRow) (a : Accounts) : Accounts :=
  match u_hash u with
  | Some h =>
      if needs_rehash h then
        match hash_password salt password with
        | Ok nh => update_users (u_id u) (set_hash (Some nh)) a
        | Err _ => a
        end
      else a
  | None => a
  end.
(* src/qcue-rs/app-server/src/auth/routes.rs 213-260 login *)
Definition login (now : Z) (ids : Ids) (salt email password : string) (a : Accounts) :
  result ApiError Value * Accounts :=
  let row := find_first (by_email email) (users a) in
  let active := match row with Some r => u_active r | None => false end in
  if negb (verify_password (row ≫= u_hash) password) || negb active
  then (Err Unauthorized,
        audit (u_tenant <$> row) (u_id <$> row) "auth.login.failed" None (obj [("email", String_ email)]) a)
  else
    match row with
    | None => (Err Unauthorized, a)
    | Some r =>
        issue_and_note now ids (u_tenant r) (u_id r) (u_role r) "auth.login.ok" empty_detail (rehash salt password r a)
    end.

(** ** Refresh and logout *)
(** What happens after the token was found live, in transactions of its own. *)
(* src/qcue-rs/app-server/src/auth/routes.rs 275-280 refresh *)
Definition rotate (now : Z) (ids : Ids) (c : SessionClaims) (a : Accounts) : result ApiError Value * Accounts :=
  issue_and_note now ids (tenant_id c) (sub c) (role c) "auth.refresh.ok" empty_detail
    (revoke_session now (tenant_id c) (jti c) a).
(* src/qcue-rs/app-server/src/auth/routes.rs 268-281 refresh *)
Definition refresh (now : Z) (ids : Ids) (token : string) (a : Accounts) : result ApiError Value * Accounts :=
  match verify_session now token refresh_cfg with
  | Err _ => (Err Unauthorized, a)
  | Ok c => if session_is_live now (tenant_id c) (jti c) a then rotate now ids c a else (Err Unauthorized, a)
  end.

Definition ok_body : Value := obj [("ok", Bool true)].
(* src/qcue-rs/app-server/src/auth/routes.rs 289-296 logout *)
Definition logout (now : Z) (token : string) (a : Accounts) : result ApiError Value * Accounts :=
  match verify_session now token refresh_cfg with
  | Ok c =>
      (Ok ok_body, audit (Some (tenant_id c)) (Some (sub c)) "auth.logout.ok" None empty_detail
                     (revoke_user_sessions now (tenant_id c) (sub c) a))
  | Err _ => (Ok ok_body, a)
  end.

(** ** Magic links, over any store of them *)
Section MagicRoutes.
Context {S : Type} `{MagicStore S}.
Definition MAGIC_TTL : Z := 15 * 60.

(** [mgc_] and two random ids in hexadecimal. *)
(* src/qcue-rs/app-server/src/auth/routes.rs 57-59 new_magic_token *)
Definition new_magic_token (r1 r2 : Uuid) : string :=
  "mgc_" +:+ Limiter.hex_pad 32 (Z.of_N r1) "" +:+ Limiter.hex_pad 32 (Z.of_N r2) "".

(* src/qcue-rs/app-server/src/auth/routes.rs 41-52 test_issue_magic *)
Definition test_issue_magic (now : Z) (token email : string) (a : Accounts) (s : S) : option string * S :=
  match find_first (by_email email) (users a) with
  | Some r => (Some token, put now token (u_tenant r) (u_id r) MAGIC_TTL s)
  | None => (None, s)
  end.
(* src/qcue-rs/app-server/src/auth/routes.rs 304-309 magic_request *)
Definition magic_request (now : Z) (token email : string) (a : Accounts) (s : S) :
  result ApiError Value * Accounts * S :=
  let '(_, s) := test_issue_magic now token email a s in
  (Ok ok_body, audit None None "auth.magic.request" None (obj [("email", String_ email)]) a, s).
(* src/qcue-rs/app-server/src/auth/routes.rs 317-323 magic_verify *)
Definition magic_verify (now : Z) (ids : Ids) (token : string) (a : Accounts) (s : S) :
  result ApiError Value * Accounts * S :=
  match consume now token s with
  | (None, s) => (Err Unauthorized, a, s)
  | (Some (t, u), s) => (issue_and_note now ids t u "owner" "auth.magic.verify.ok" empty_detail a, s)
  end.
End MagicRoutes.

(** ** Sign-in with another provider *)
Definition provider_detail (email provider : string) : Value :=
  obj [("email", String_ email); ("provider", String_ provider)].
(* src/qcue-rs/app-server/src/auth/routes.rs 393-403 link_or_create_user *)
Definition link_identity (provider subject email : string) (u : UserRow) (a : Accounts) : Accounts :=
  let a :=
    if existsb (same_identity provider subject) (identities a) then a
    else with_identities (identities a ++ [{| o_tenant := u_tenant u; o_user := u_id u; o_provider := provider;
                                              o_subject := subject; o_email := email |}]) a in
  if opt_is_some (u_hash u) then update_users (u_id u) (set_hash None) a else a.

(* src/qcue-rs/app-server/src/auth/routes.rs 355-431 link_or_create_user *)
Definition link_or_create_user (now : Z) (ids : Ids) (provider subject email : string) (a : Accounts) :
  result ApiError (Uuid * Uuid * string) * Accounts :=
  match find_first (same_identity provider subject) (identities a) ≫= fun o =>
        find_first (fun u => N.eqb (u_id u) (o_user o)) (users a) with
  | Some u => if u_active u then (Ok (u_id u, u_tenant u, u_role u), a) else (Err Unauthorized, a)
  | None =>
      match find_first (by_email email) (users a) with
      | Some u =>
          if negb (u_active u) then (Err Unauthorized, a)
          else
            let a := link_identity provider subject email u a in
            let a :=
              if opt_is_some (u_hash u)
              then audit (Some (u_tenant u)) (Some (u_id u)) "auth.social.password_revoked_on_link" None
                     (provider_detail email provider) (revoke_user_sessions now (u_tenant u) (u_id u) a)
              else a in
            (Ok (u_id u, u_tenant u, u_role u),
             audit (Some (u_tenant u)) (Some (u_id u)) "auth.social.link" None (provider_detail email provider) a)
      | None =>
          match new_account now ids email None a with
          | Err e => (Err e, a)
          | Ok a' =>
              if existsb (same_identity provider subject) (identities a') then (Err (Db unique_violation), a)
              else
                let a := with_identities (identities a' ++ [{| o_tenant := new_tenant ids; o_user := new_user ids;
                           o_provider := provider; o_subject := subject; o_email := email |}]) a' in
                (Ok (new_user ids, new_tenant ids, "owner"),
                 audit (Some (new_tenant ids)) (Some (new_user ids)) "auth.social.signup" None
                   (provider_detail email provider) a)
          end
      end
  end.

(** [claims] is what [verify_id_token] made of the token. *)
(* src/qcue-rs/app-server/src/auth/routes.rs 332-349 social *)
Definition social (now : Z) (ids : Ids) (provider : string) (claims : option IdTokenClaims) (a : Accounts) :
  result ApiError Value * Accounts :=
  match claims with
  | None => (Err Unauthorized, a)
  | Some c =>
      match opt_filter (fun e => negb (String.eqb e "")) (email c) with
      | None => (Err (BadRequest "the signed-in identity has no email; cannot link a qcue account"), a)
      | Some e =>
          match link_or_create_user now ids provider (id_sub c) e a with
          | (Err err, a) => (Err err, a)
          | (Ok (uid, tid, role), a) =>
              issue_and_note now ids tid uid role "auth.social.ok" (provider_detail e provider) a
          end
      end
  end.

(** [userinfo] is the answer of the provider: its status and its body, if it is JSON. *)
(* src/qcue-rs/app-server/src/auth/routes.rs 444-511 oidc *)
Definition oidc (now : Z) (ids : Ids) (userinfo : option (Z * option Value)) (a : Accounts) :
  result ApiError Value * Accounts :=
  match userinfo with
  | Some (status, Some info) =>
      if negb ((200 <=? status) && (status <=? 299)) then (Err Unauthorized, a)
      else
        match opt_filter (fun e => negb (String.eqb e "")) (get_str "email" info) with
        | None => (Err (BadRequest "the signed-in identity has no email; cannot link a qcue account"), a)
        | Some e =>
            let detail := obj [("email", String_ e)] in
            match find_first (by_email e) (users a) with
            | Some u =>
                if negb (u_active u) then (Err Unauthorized, a)
                else
                  let a :=
                    if opt_is_some (u_hash u)
                    then audit (Some (u_tenant u)) (Some (u_id u)) "auth.oidc.password_revoked_on_link" None detail
                           (revoke_user_sessions now (u_tenant u) (u_id u) (update_users (u_id u) (set_hash None) a))
                    else a in
                  issue_and_note now ids (u_tenant u) (u_id u) (u_role u) "auth.oidc.ok" detail a
            | None =>
                match new_account now ids e None a with
                | Err err => (Err err, a)
                | Ok a =>
                    issue_and_note now ids (new_tenant ids) (new_user ids) "owner" "auth.oidc.ok" detail
                      (audit (Some (new_tenant ids)) (Some (new_user ids)) "auth.oidc.signup" None detail a)
                end
            end
        end
  | _ => (Err Unauthorized, a)
  end.

(** ** Every other request *)
(** The tenant and user a request acts for; the role is fixed, the device left out. *)
(* src/qcue-rs/app-server/src/tenancy/mod.rs 26-36 TenantCtx *)
Record TenantCtx : Type := { ctx_tenant : Uuid; ctx_user : Uuid; ctx_jti : Uuid; ctx_query : option string }.

(* src/qcue-rs/app-server/src/tenancy/mod.rs 96-141 from_request_parts *)
Definition from_request_parts (now : Z) (method path : string) (authz query : option string) (a : Accounts) :
  result ApiError TenantCtx :=
  let qtoken := query ≫= fun q => Query.url_query_value q "token" in
  match resolve_token authz qtoken (Query.is_sse_route path method) with
  | None => Err Unauthorized
  | Some (_, token) =>
      match verify_session now token access_cfg with
      | Err _ => Err Unauthorized
      | Ok c =>
          if session_is_live now (tenant_id c) (jti c) a
          then Ok {| ctx_tenant := tenant_id c; ctx_user := sub c; ctx_jti := jti c; ctx_query := query |}
          else Err Unauthorized
      end
  end.

(** ** Deleting an account *)
(** [ON DELETE CASCADE] from the tenant. *)
Definition delete_tenant (t : Uuid) (a : Accounts) : Accounts :=
  {| tenants := filter (fun x => x <> t) (tenants a);
     users := filter (fun u => u_tenant u <> t) (users a);
     sessions := filter (fun s => s_tenant s <> t) (sessions a);
     identities := filter (fun o => o_tenant o <> t) (identities a);
     audit_log := filter (fun r => au_tenant r <> t) (audit_log a) |}.

(** [remove_dir_all] of the tenant's objects; its failure is logged. *)
Context {F : Type} (remove_dir_all : Paths.Path -> F -> result string unit * F) (data_root : Paths.Path).
(* src/qcue-rs/app-server/src/account/routes.rs 61-64 delete_account *)
Definition tenant_dir (t : Uuid) : Paths.Path := data_root ++ ["objects"; "t"; uuid_text t].
(* src/qcue-rs/app-server/src/account/routes.rs 22-81 delete_account *)
Definition delete_account (now : Z) (ctx : TenantCtx) (a : Accounts) (f : F) :
  result ApiError Value * Accounts * F :=
  let a := revoke_user_sessions now (ctx_tenant ctx) (ctx_user ctx) a in
  let a := audit (Some (ctx_tenant ctx)) (Some (ctx_user ctx)) "account.delete" None empty_detail a in
  (Ok ok_body, delete_tenant (ctx_tenant ctx) a, snd (remove_dir_all (tenant_dir (ctx_tenant ctx)) f)).
End Routes.

(** * Properties *)
Section AuthProps.
Context {HJ : JwtCrate} {HA : Argon}.
Context (fold_email : string -> string) (json_time : Z -> string).
Context (jwt_secret : string) (access_ttl_secs : Z).
#[local] Abbreviation issue_pair' := (issue_pair json_time jwt_secret access_ttl_secs).
#[local] Abbreviation issue_and_note' := (issue_and_note json_time jwt_secret access_ttl_secs).
#[local] Abbreviation refresh' := (refresh json_time jwt_secret access_ttl_secs).
#[local] Abbreviation login' := (login fold_email json_time jwt_secret access_ttl_secs).
#[local] Abbreviation signup' := (signup fold_email json_time jwt_secret access_ttl_secs).
#[local] Abbreviation social' := (social fold_email json_time jwt_secret access_ttl_secs).
#[local] Abbreviation oidc' := (oidc fold_email json_time jwt_secret access_ttl_secs).
#[local] Abbreviation accepts := (from_request_parts jwt_secret access_ttl_secs).

(** ** What the statements leave alone *)
Lemma audit_tables (t u : option Uuid) (act : string) (ip : option string) (d : Value) (a : Accounts) :
  tenants (audit t u act ip d a) = tenants a /\ users (audit t u act ip d a) = users a /\
  sessions (audit t u act ip d a) = sessions a /\ identities (audit t u act ip d a) = identities a.
Proof. unfold audit, write_audit_row. destruct t as [t|]; [|done]. by case_match; case_match; simplify_eq. Qed.
Lemma audit_sessions (t u : option Uuid) (act : string) (ip : option string) (d : Value) (a : Accounts) :
  sessions (audit t u act ip d a) = sessions a.
Proof. apply audit_tables. Qed.
Lemma audit_users (t u : option Uuid) (act : string) (ip : option string) (d : Value) (a : Accounts) :
  users (audit t u act ip d a) = users a.
Proof. apply audit_tables. Qed.

Lemma revoke_elem (now : Z) (p : SessionRow -> bool) (a : Accounts) (s' : SessionRow) :
  s' ∈ sessions (revoke now p a) <->
  exists s, s ∈ sessions a /\ s' = (if p s && bool_decide (s_revoked s = None)
    then {| s_tenant := s_tenant s; s_user := s_user s; s_jti := s_jti s; s_expires := s_expires s;
            s_revoked := Some now |} else s).
Proof. unfold revoke. cbn. rewrite list_elem_of_fmap. split; intros (s & H1 & H2); by exists s. Qed.

Lemma insert_session_ok (t u j : Uuid) (e : Z) (a a' : Accounts) :
  insert_session t u j e a = Ok a' ->
  a' = with_sessions (sessions a ++ [{| s_tenant := t; s_user := u; s_jti := j; s_expires := e; s_revoked := None |}]) a /\
  (t ∈ tenants a) /\ (exists r, r ∈ users a /\ u_id r = u) /\
  forall s, s ∈ sessions a -> s_tenant s = t -> s_jti s <> j.
Proof.
  unfold insert_session. destruct (has_tenant t a && has_user u a) eqn:Hh; [|done]. cbn.
  destruct (existsb _ (sessions a)) eqn:He; [done|]. intros [= <-]. bool_prop.
  split; [done|]. unfold has_tenant, has_user in *. repeat match goal with H : existsb _ _ = true |- _ =>
    apply existsb_exists in H as (? & ?%list_elem_of_In & ?%N.eqb_eq); subst end.
  repeat split; [done|eauto|]. intros s Hs <- <-.
  assert (existsb (fun s0 => N.eqb (s_tenant s0) (s_tenant s) && N.eqb (s_jti s0) (s_jti s)) (sessions a) = true);
    [|congruence]. apply existsb_exists. exists s. rewrite !N.eqb_refl. by rewrite <- list_elem_of_In.
Qed.

(** A pair of sessions, one expiring with the access token, one in thirty days. *)
Definition session_pair (now : Z) (ids : Ids) (t u : Uuid) : list SessionRow :=
  [{| s_tenant := t; s_user := u; s_jti := access_jti ids; s_expires := now + seconds access_ttl_secs; s_revoked := None |};
   {| s_tenant := t; s_user := u; s_jti := refresh_jti ids; s_expires := now + seconds (30 * 86400); s_revoked := None |}].

Lemma issue_pair_ok (now : Z) (ids : Ids) (t u : Uuid) (role : string) (a a' : Accounts) (v : Value) :
  issue_pair' now ids t u role a = (Ok v, a') ->
  a' = with_sessions (sessions a ++ session_pair now ids t u) a /\ t ∈ tenants a /\
  (exists r, r ∈ users a /\ u_id r = u) /\
  (forall s, s ∈ sessions a -> s_tenant s = t -> s_jti s <> access_jti ids /\ s_jti s <> refresh_jti ids) /\
  exists access refresh,
    mint_session (claims_new now u t role (access_jti ids) (access_cfg jwt_secret access_ttl_secs))
      (access_cfg jwt_secret access_ttl_secs) = Ok access /\
    mint_session (claims_new now u t role (refresh_jti ids) (refresh_cfg jwt_secret)) (refresh_cfg jwt_secret) = Ok refresh /\
    v = obj [("access_jwt", String_ access); ("refresh_jwt", String_ refresh);
             ("expires_at", String_ (json_time (now + seconds access_ttl_secs)))].
Proof.
  unfold issue_pair. destruct (mint_session (claims_new _ _ _ _ (access_jti ids) _) _) as [access|] eqn:Ha; [|done].
  destruct (insert_session t u (access_jti ids) _ a) as [a1|] eqn:H1; [|done].
  destruct (mint_session (claims_new _ _ _ _ (refresh_jti ids) _) _) as [rf|] eqn:Hr; [|done].
  destruct (insert_session t u (refresh_jti ids) _ a1) as [a2|] eqn:H2; [|done]. intros [= <- <-].
  apply insert_session_ok in H1 as (-> & Ht & Hu & Hj1). apply insert_session_ok in H2 as (-> & _ & _ & Hj2).
  split; [cbn; by rewrite <- app_assoc|]. split; [done|]. split; [done|]. split; [|by exists access, rf].
  intros s Hs Hst. split; [by apply Hj1|]. apply Hj2; [|done]. cbn. apply elem_of_app. by left.
Qed.

Lemma issue_and_note_ok (now : Z) (ids : Ids) (t u : Uuid) (role act : string) (d : Value) (a a' : Accounts) (v : Value) :
  issue_and_note' now ids t u role act d a = (Ok v, a') ->
  exists a1, issue_pair' now ids t u role a = (Ok v, a1) /\ sessions a' = sessions a ++ session_pair now ids t u /\
    users a' = users a.
Proof.
  unfold issue_and_note. destruct (issue_pair' now ids t u role a) as [[v1|e] a1] eqn:Hp; [|done].
  intros [= <- <-]. exists a1. apply issue_pair_ok in Hp as (-> & _). by rewrite audit_sessions, audit_users.
Qed.

(** ** Live sessions *)
Lemma live_spec (now : Z) (t j : Uuid) (a : Accounts) :
  session_is_live now t j a = true <->
  exists s, s ∈ sessions a /\ s_tenant s = t /\ s_jti s = j /\ s_revoked s = None /\ now < s_expires s.
Proof.
  unfold session_is_live. rewrite existsb_exists. split.
  - intros (s & Hs & Hb). exists s. rewrite list_elem_of_In. bool_prop.
    repeat match goal with H : N.eqb _ _ = true |- _ => apply N.eqb_eq in H end.
    rename select (bool_decide _ = true) into Hr. by apply bool_decide_eq_true in Hr.
  - intros (s & Hs & <- & <- & Hr & He). exists s. rewrite <- list_elem_of_In. split; [done|].
    rewrite !N.eqb_refl, (bool_decide_eq_true_2 _ Hr). by apply Z.ltb_lt.
Qed.

(** The session of a token is not live once it is revoked, alone or with all of its user. *)
Lemma revoked_not_live (now now' : Z) (p : SessionRow -> bool) (t j : Uuid) (a : Accounts) :
  (forall s, s ∈ sessions a -> s_tenant s = t -> s_jti s = j -> p s = true) ->
  session_is_live now' t j (revoke now p a) = false.
Proof.
  intros Hp. destruct (session_is_live now' t j (revoke now p a)) eqn:Hl; [|done].
  apply live_spec in Hl as (s' & Hs & Ht & Hj & Hr & _). apply revoke_elem in Hs as (s & Hs & ->).
  destruct (p s) eqn:Hps; cbn in *.
  - destruct (bool_decide (s_revoked s = None)) eqn:Hb; [done|]. by apply bool_decide_eq_false in Hb.
  - by rewrite Hp in Hps.
Qed.

Lemma live_unrevoked (now now' : Z) (p : SessionRow -> bool) (t j : Uuid) (a : Accounts) :
  (forall s, s ∈ sessions a -> s_tenant s = t -> s_jti s = j -> p s = false) ->
  session_is_live now' t j (revoke now p a) = session_is_live now' t j a.
Proof.
  intros Hp. apply bool_iff_eq. rewrite !live_spec. split.
  - intros (s' & Hs & Ht & Hj & Hr & He). apply revoke_elem in Hs as (s & Hs & ->). exists s.
    destruct (p s && _); [done|]. by repeat split.
  - intros (s & Hs & Ht & Hj & Hr & He). exists s. split; [|done]. apply revoke_elem. exists s.
    by rewrite Hp.
Qed.

(** ** Tokens *)
Context `{!JwtLaws _}.

Lemma minted_verifies (now now' : Z) (u t j : Uuid) (r : string) (c : JwtCfg) (token : string) :
  mint_session (claims_new now u t r j c) c = Ok token ->
  timestamp now' < Int.wrap_i64 (timestamp now + ttl_secs c) ->
  verify_session now' token c = Ok (claims_new now u t r j c).
Proof. intros Hm Ht. unfold verify_session. exact (decode_encode now' (secret c) (claims_new now u t r j c) token Hm Ht). Qed.

(** No token is both: what verifies as one for refreshing does not as one for access. *)
Lemma audiences_apart (now now' : Z) (token : string) (c : SessionClaims) :
  verify_session now token (refresh_cfg jwt_secret) = Ok c ->
  forall c', verify_session now' token (access_cfg jwt_secret access_ttl_secs) <> Ok c'.
Proof.
  intros Hr c' Ha. pose proof (decode_agrees _ _ _ _ _ _ _ _ _ _ Hr Ha) as <-.
  apply decode_valid in Hr as (_ & Hr & _), Ha as (_ & Ha & _). cbn in *. congruence.
Qed.

(** The tokens a sign-in hands out work, each for its purpose. The access token is accepted as a
    bearer, until it expires, for the tenant and the user it was issued for; the refresh token buys a new
    pair as long as its session is live, and is not accepted as a bearer; the access token buys nothing. *)
Theorem issued_tokens_work (now now' : Z) (ids : Ids) (t u : Uuid) (role method path : string) (query : option string)
  (a a' : Accounts) (v : Value) (access rf : string)
  (Hlife : timestamp now' < timestamp now + access_ttl_secs <= Int.i64_max)
  (Hmonth : timestamp now + 60 * 60 * 24 * 30 <= Int.i64_max)
  (Hexp : now' < now + seconds access_ttl_secs) (Hnow : 0 <= now <= now') (Hids : access_jti ids <> refresh_jti ids) :
  issue_pair' now ids t u role a = (Ok v, a') ->
  get_str "access_jwt" v = Some access -> get_str "refresh_jwt" v = Some rf ->
  accepts now' method path (Some ("Bearer " +:+ access)) query a'
  = Ok {| ctx_tenant := t; ctx_user := u; ctx_jti := access_jti ids; ctx_query := query |} /\
  (forall n ids', fst (refresh' n ids' access a') = Err Unauthorized) /\
  (forall n, is_ok (accepts n method path (Some ("Bearer " +:+ rf)) query a') = false) /\
  verify_session now rf (refresh_cfg jwt_secret) = Ok (claims_new now u t role (refresh_jti ids) (refresh_cfg jwt_secret)) /\
  session_is_live now t (refresh_jti ids) a' = true.
Proof.
  intros Hp Hva Hvr. apply issue_pair_ok in Hp as (-> & _ & _ & _ & acc & r & Hma & Hmr & ->).
  change (get_str "access_jwt" _) with (Some acc) in Hva. change (get_str "refresh_jwt" _) with (Some r) in Hvr.
  injection Hva as <-. injection Hvr as <-.
  assert (0 <= timestamp now /\ 0 <= timestamp now') as [Hpos Hpos'] by (unfold timestamp; split; apply Z.div_pos; lia).
  assert (forall b, Str.strip_prefix "Bearer " ("Bearer " +:+ b) = Some b) as Hb
    by (intros b; by apply Str.strip_prefix_spec).
  assert (verify_session now r (refresh_cfg jwt_secret)
    = Ok (claims_new now u t role (refresh_jti ids) (refresh_cfg jwt_secret))) as Hvr.
  { apply (minted_verifies now now _ _ _ _ _ _ Hmr). rewrite Int.wrap_i64_small; cbn [refresh_cfg ttl_secs]; [lia|].
    unfold Int.in_i64, Int.i64_min in *. lia. }
  assert (verify_session now' acc (access_cfg jwt_secret access_ttl_secs)
    = Ok (claims_new now u t role (access_jti ids) (access_cfg jwt_secret access_ttl_secs))) as Hva.
  { apply (minted_verifies now now' _ _ _ _ _ _ Hma). rewrite Int.wrap_i64_small; cbn [access_cfg ttl_secs]; [lia|].
    unfold Int.in_i64, Int.i64_min in *. lia. }
  assert (forall s, s ∈ session_pair now ids t u ->
    s ∈ sessions (with_sessions (sessions a ++ session_pair now ids t u) a)) as Hin
    by (intros s Hs; cbn; apply elem_of_app; by right).
  repeat split.
  - unfold from_request_parts, resolve_token. cbn [mbind option_bind]. rewrite Hb, Hva.
    rewrite (proj2 (live_spec _ _ _ _)); [done|]. eexists. split; [apply Hin; left|by repeat split].
  - intros n ids'. unfold refresh. destruct (verify_session n acc _) as [c|] eqn:Hc; [|done].
    by destruct (audiences_apart _ now' _ _ Hc _ Hva).
  - intros n. unfold from_request_parts, resolve_token. cbn [mbind option_bind]. rewrite Hb.
    destruct (verify_session n r _) as [c|] eqn:Hc; [|done]. by destruct (audiences_apart _ n _ _ Hvr _ Hc).
  - done.
  - apply live_spec. eexists. split; [apply Hin; right; left|]. cbn. unfold seconds. repeat split. lia.
Qed.

(** Refreshing rotates. A refresh that succeeds was asked for with a token whose session was live, and
    that session alone is revoked, for good: no other session of any user is touched, a pair of new ones for
    the user of the token is added, and whoever presents the token again, at any time, is refused and
    changes nothing. A refresh that is refused at the token changes nothing. *)
Theorem refresh_rotates (now : Z) (ids : Ids) (token : string) (a : Accounts) :
  match refresh' now ids token a with
  | (Ok v, a') =>
      exists c, verify_session now token (refresh_cfg jwt_secret) = Ok c /\
        session_is_live now (tenant_id c) (jti c) a = true /\
        sessions a' = sessions (revoke_session now (tenant_id c) (jti c) a) ++ session_pair now ids (tenant_id c) (sub c) /\
        (forall n t j, (t, j) <> (tenant_id c, jti c) -> j <> access_jti ids -> j <> refresh_jti ids ->
           session_is_live n t j a' = session_is_live n t j a) /\
        (forall n ids', refresh' n ids' token a' = (Err Unauthorized, a'))
  | (Err e, a') =>
      (e = Unauthorized /\ a' = a) \/
      exists c, verify_session now token (refresh_cfg jwt_secret) = Ok c /\
        session_is_live now (tenant_id c) (jti c) a = true
  end.
Proof.
  destruct (refresh' now ids token a) as [[v|e] a'] eqn:Hr; unfold refresh in Hr;
    destruct (verify_session now token (refresh_cfg jwt_secret)) as [c|] eqn:Hc;
    try (destruct (session_is_live now (tenant_id c) (jti c) a) eqn:Hl); try (injection Hr as <- <-; by left); try done;
    [|by right; exists c].
  exists c. split; [done|]. split; [done|]. unfold rotate in Hr.
  apply issue_and_note_ok in Hr as (a1 & Hp & Hs & _). split; [done|].
  apply issue_pair_ok in Hp as (_ & _ & (u & _) & Hj & _).
  assert (forall n t j, session_is_live n t j a' = session_is_live n t j (revoke_session now (tenant_id c) (jti c) a)
    || session_is_live n t j (with_sessions (session_pair now ids (tenant_id c) (sub c)) a)) as Happ.
  { intros n t j. unfold session_is_live. rewrite Hs. apply existsb_app. }
  split.
  - intros n t j Hne Ha Hrf. rewrite Happ. unfold revoke_session. rewrite live_unrevoked.
    + assert (session_is_live n t j (with_sessions (session_pair now ids (tenant_id c) (sub c)) a) = false) as Hf;
        [|rewrite Hf; apply orb_false_r]. apply not_true_iff_false. rewrite live_spec.
      intros (s & [->|[->|[]%elem_of_nil]%elem_of_cons]%elem_of_cons & _ & Hsj & _); cbn in Hsj; congruence.
    + intros s Hs' Ht Hsj. apply not_true_iff_false. intros [?%N.eqb_eq ?%N.eqb_eq]%andb_true_iff. congruence.
  - intros n ids'. unfold refresh. destruct (verify_session n token _) as [c'|] eqn:Hc'; [|done].
    pose proof (decode_agrees _ _ _ _ _ _ _ _ _ _ Hc Hc') as <-. rewrite Happ. unfold revoke_session at 1.
    rewrite revoked_not_live by (intros s _ -> ->; by rewrite !N.eqb_refl). cbn [orb].
    destruct (session_is_live n _ _ (with_sessions _ _)) eqn:Hn; [|done]. exfalso.
    apply live_spec in Hl as (s0 & Hs0 & Ht0 & Hj0 & _).
    assert (exists s1, s1 ∈ sessions (revoke_session now (tenant_id c) (jti c) a) /\ s_tenant s1 = tenant_id c /\
      s_jti s1 = jti c) as (s1 & Hs1 & Ht1 & Hj1).
    { eexists. split; [apply revoke_elem; by exists s0|]. by destruct (_ && _). }
    destruct (Hj s1 Hs1 Ht1) as [N1 N2]. apply live_spec in Hn as (s & Hs2 & _ & Hsj & _).
    apply elem_of_cons in Hs2 as [->|[->|[]%elem_of_nil]%elem_of_cons]; cbn in Hsj; congruence.
Qed.

(** What issuing leaves, whether it works or fails half-way. *)
Lemma issue_adds (now : Z) (ids : Ids) (t u : Uuid) (role act : string) (d : Value) (a a' : Accounts)
  (r : result ApiError Value) :
  issue_and_note' now ids t u role act d a = (r, a') ->
  tenants a' = tenants a /\ users a' = users a /\ identities a' = identities a /\
  exists l, sessions a' = sessions a ++ l /\ (forall v, r = Ok v -> l = session_pair now ids t u) /\
    forall s, s ∈ l -> s ∈ session_pair now ids t u /\ t ∈ tenants a /\ (exists x, x ∈ users a /\ u_id x = u) /\
      forall s0, s0 ∈ sessions a -> s_tenant s0 = t -> s_jti s0 <> s_jti s.
Proof.
  unfold issue_and_note. destruct (issue_pair' now ids t u role a) as [[v|e] a1] eqn:Hp.
  - intros [= <- <-]. apply issue_pair_ok in Hp as (-> & Ht & Hu & Hj & _).
    pose proof (audit_tables (Some t) (Some u) act None d (with_sessions (sessions a ++ session_pair now ids t u) a))
      as (H1 & H2 & H3 & H4). rewrite H1, H2, H3, H4. repeat split; try done. exists (session_pair now ids t u).
    repeat split; try done. intros s0 Hs0 Hst. destruct (Hj s0 Hs0 Hst).
    rename select (_ ∈ session_pair _ _ _ _) into Hs. by apply elem_of_cons in Hs as [->|[->|[]%elem_of_nil]%elem_of_cons].
  - intros [= <- <-].
    assert (forall P, (forall s, s ∈ ([] : list SessionRow) -> P s) /\ sessions a = sessions a ++ []) as Hnil
      by (intros P; split; [by intros s ?%elem_of_nil|by rewrite app_nil_r]).
    revert Hp. unfold issue_pair. destruct (mint_session _ _) as [acc|];
      [|intros [= <- <-]; refine (conj eq_refl (conj eq_refl (conj eq_refl (ex_intro _ [] (conj _ (conj _ _))))));
        [apply (Hnil (fun _ => True))|done|apply Hnil]].
    destruct (insert_session _ _ (access_jti ids) _ a) as [a2|] eqn:Hi;
      [|intros [= <- <-]; refine (conj eq_refl (conj eq_refl (conj eq_refl (ex_intro _ [] (conj _ (conj _ _))))));
        [apply (Hnil (fun _ => True))|done|apply Hnil]].
    apply insert_session_ok in Hi as (-> & Ht & Hu & Hj).
    assert (a1 = with_sessions (sessions a ++ take 1 (session_pair now ids t u)) a -> tenants a1 = tenants a /\
      users a1 = users a /\ identities a1 = identities a /\ exists l, sessions a1 = sessions a ++ l /\
      (forall v : Value, Err e = Ok v -> l = session_pair now ids t u) /\
      forall s, s ∈ l -> s ∈ session_pair now ids t u /\ t ∈ tenants a /\ (exists x, x ∈ users a /\ u_id x = u) /\
        forall s0, s0 ∈ sessions a -> s_tenant s0 = t -> s_jti s0 <> s_jti s) as Hone.
    { intros ->. refine (conj eq_refl (conj eq_refl (conj eq_refl (ex_intro _ _ (conj eq_refl (conj _ _)))))); [done|].
      intros s [->|[]%elem_of_nil]%elem_of_cons. split; [left|]. by repeat split. }
    destruct (mint_session _ (refresh_cfg jwt_secret)) as [rf|];
      [destruct (insert_session _ _ (refresh_jti ids) _ _); [done|]|]; intros [= <- <-]; by apply Hone.
Qed.

(** ** Signing in *)
(** A sign-in by password answers one thing for every failure: whether no account has the email, the
    account has no password, is not active, or the password is wrong, it is refused the same way, with no
    session made and the account as it was. A sign-in that succeeds is of an active account whose stored hash
    the password verifies. *)
Theorem login_uniform (now : Z) (ids : Ids) (salt e pw : string) (a : Accounts) :
  let proves r := r ∈ users a /\ by_email fold_email e r = true /\ u_active r = true /\
                  exists h, u_hash r = Some h /\ argon_verify h pw = true in
  match login' now ids salt e pw a with
  | (Ok _, a') => exists r, proves r /\ sessions a' = sessions a ++ session_pair now ids (u_tenant r) (u_id r)
  | (Err err, a') =>
      (err = Unauthorized /\ tenants a' = tenants a /\ users a' = users a /\ sessions a' = sessions a /\
       identities a' = identities a) \/ exists r, proves r
  end.
Proof.
  intros proves. unfold login.
  destruct (negb (verify_password (find_first (by_email fold_email e) (users a) ≫= u_hash) pw)
    || negb match find_first (by_email fold_email e) (users a) with Some r => u_active r | None => false end) eqn:Hv.
  - left. split; [done|]. apply audit_tables.
  - bool_prop. rename select (verify_password _ _ = true) into Hver. apply verify_needs_hash in Hver as (h & Hh & Hpw).
    destruct (find_first (by_email fold_email e) (users a)) as [r|] eqn:Hf; [|done]. cbn in Hh.
    apply find_first_some in Hf as [Hr Hb]. assert (proves r) as Hp by (repeat split; [done..|by exists h]).
    destruct (issue_and_note' now ids (u_tenant r) (u_id r) (u_role r) _ _ _) as [[v|er] a'] eqn:Hi; [|right; by exists r].
    exists r. split; [done|]. apply issue_and_note_ok in Hi as (_ & _ & -> & _). f_equal.
    unfold rehash. repeat case_match; done.
Qed.

Lemma find_first_fmap {A B} (f : A -> B) (p : B -> bool) (l : list A) :
  find_first p (f <$> l) = f <$> find_first (fun x => p (f x)) l.
Proof. induction l as [|x l IH]; [done|]. cbn. by destruct (p (f x)). Qed.

Definition drop_hash (i : Uuid) (r : UserRow) : UserRow := if N.eqb (u_id r) i then set_hash None r else r.

(** An account without a hash refuses every password. *)
Lemma no_hash_no_login (now : Z) (ids : Ids) (salt e e' pw : string) (u : UserRow) (a a' : Accounts) :
  find_first (by_email fold_email e) (users a) = Some u -> users a' = drop_hash (u_id u) <$> users a ->
  fold_email e' = fold_email e -> fst (login' now ids salt e' pw a') = Err Unauthorized.
Proof.
  intros Hf Hu He. unfold login. rewrite Hu, find_first_fmap.
  rewrite (find_first_ext _ (by_email fold_email e)).
  - rewrite Hf. cbn. unfold drop_hash at 1. rewrite N.eqb_refl. cbn.
    destruct (verify_password None pw) eqn:Hv; [|done]. by apply verify_needs_hash in Hv as (h & Hn & _).
  - intros r. unfold by_email. rewrite He. unfold drop_hash. by destruct (N.eqb _ _).
Qed.

(** A user's sessions are dead after they are revoked, whatever pair is issued then. *)
Lemma old_sessions_dead (now n : Z) (t u : Uuid) (s : SessionRow) (a a1 : Accounts) (l : list SessionRow) :
  NoDup ((fun s => (s_tenant s, s_jti s)) <$> sessions a) ->
  sessions a1 = sessions (revoke_user_sessions now t u a) ++ l ->
  (forall s1, s1 ∈ l -> forall s0, s0 ∈ sessions (revoke_user_sessions now t u a) -> s_tenant s0 = t -> s_jti s0 <> s_jti s1) ->
  s ∈ sessions a -> s_tenant s = t -> s_user s = u -> session_is_live n t (s_jti s) a1 = false.
Proof.
  intros Hk Hs Hl Hin Ht Hu. unfold session_is_live. rewrite Hs, existsb_app. apply orb_false_intro.
  - apply revoked_not_live. intros s0 H0 Ht0 Hj0.
    assert (s0 = s) as -> by (apply (nodup_key _ _ _ _ Hk H0 Hin); congruence). by rewrite Ht, Hu, !N.eqb_refl.
  - apply not_true_iff_false. intros (s1 & Hin1%list_elem_of_In & Hb)%existsb_exists. bool_prop.
    repeat match goal with H : N.eqb _ _ = true |- _ => apply N.eqb_eq in H end.
    assert (exists s0, s0 ∈ sessions (revoke_user_sessions now t u a) /\ s_tenant s0 = t /\ s_jti s0 = s_jti s)
      as (s0 & Hin0 & Ht0 & Hj0).
    { eexists. split; [apply revoke_elem; by exists s|]. by destruct (_ && _). }
    apply (Hl s1 Hin1 s0 Hin0 Ht0). congruence.
Qed.

(** C32: signing in with a provider that proved the email takes an account over from whoever registered it
    with a password: from then on no password opens it, under any spelling of the email, every session it
    had is dead, and when the sign-in succeeds the new pair is the account's only hold. So registering a
    stranger's email in advance gains nothing once its owner signs in. *)
Theorem link_locks_out_password (now : Z) (ids : Ids) (e provider : string) (info : Value) (c : IdTokenClaims)
  (u : UserRow) (a a' : Accounts) (r : result ApiError Value)
  (Hu : find_first (by_email fold_email e) (users a) = Some u) (Hactive : u_active u = true) (Hhash : u_hash u <> None)
  (He : e <> "") (Hkeys : NoDup ((fun s => (s_tenant s, s_jti s)) <$> sessions a))
  (Hin : get_str "email" info = Some e /\ oidc' now ids (Some (200, Some info)) a = (r, a') \/
         email c = Some e /\ find_first (same_identity provider (id_sub c)) (identities a) = None /\
         social' now ids provider (Some c) a = (r, a')) :
  (forall n ids' salt e' pw, fold_email e' = fold_email e -> fst (login' n ids' salt e' pw a') = Err Unauthorized) /\
  (forall n s, s ∈ sessions a -> s_tenant s = u_tenant u -> s_user s = u_id u ->
     session_is_live n (u_tenant u) (s_jti s) a' = false) /\
  (forall v, r = Ok v -> exists old, sessions a' = old ++ session_pair now ids (u_tenant u) (u_id u) /\
     forall s, s ∈ old -> s_tenant s = u_tenant u -> s_user s = u_id u -> s_revoked s <> None).
Proof.
  assert (exists a1 act d, users a1 = drop_hash (u_id u) <$> users a /\
    sessions a1 = sessions (revoke_user_sessions now (u_tenant u) (u_id u) a) /\
    issue_and_note' now ids (u_tenant u) (u_id u) (u_role u) act d a1 = (r, a')) as (a1 & act & d & Hus & Hss & Hi).
  { destruct (u_hash u) as [h|] eqn:Hh; [|done]. apply String.eqb_neq in He.
    destruct Hin as [[Hm Ho]|(Hm & Hn & Ho)].
    - unfold oidc in Ho. cbn [Z.leb negb andb] in Ho. rewrite Hm in Ho. cbn [opt_filter] in Ho. rewrite He in Ho.
      cbn [negb] in Ho. rewrite Hu, Hactive, Hh in Ho. cbn [negb opt_is_some] in Ho. eexists _, _, _.
      split; [|split; [|exact Ho]]; [by rewrite audit_users|by rewrite audit_sessions].
    - unfold social in Ho. rewrite Hm in Ho. cbn [opt_filter] in Ho. rewrite He in Ho. cbn [negb] in Ho.
      unfold link_or_create_user in Ho. rewrite Hn in Ho. cbn [mbind option_bind] in Ho.
      rewrite Hu, Hactive, Hh in Ho. cbn [negb opt_is_some] in Ho. eexists _, _, _.
      split; [|split; [|exact Ho]]; rewrite ?audit_users, ?audit_sessions; unfold link_identity; rewrite Hh;
        by destruct (existsb _ _). }
  pose proof (issue_adds _ _ _ _ _ _ _ _ _ _ Hi) as (_ & Hua & _ & l & Hsa & Hv & Hl). split; [|split].
  - intros n ids' salt e' pw Hf. eapply no_hash_no_login; [exact Hu|congruence|done].
  - intros n s Hs Ht Hus'. apply (old_sessions_dead now n (u_tenant u) (u_id u) s a a' l); [done|congruence| |done..].
    rewrite <- Hss. intros s1 H1. by apply Hl.
  - intros v ->. exists (sessions a1). rewrite Hsa, (Hv v eq_refl). split; [done|]. rewrite Hss.
    intros s (s0 & H0 & ->)%revoke_elem Ht Hus'.
    destruct (N.eqb (s_tenant s0) (u_tenant u) && N.eqb (s_user s0) (u_id u)) eqn:Hb; cbn [andb] in *.
    + destruct (bool_decide (s_revoked s0 = None)) eqn:Hr; [done|by apply bool_decide_eq_false in Hr].
    + by rewrite Ht, Hus', !N.eqb_refl in Hb.
Qed.

(** ** Runs *)
(** The requests that touch accounts and sessions; [Delete] goes through the extractor first. *)
Inductive Req : Type :=
  | Signup (ids : Ids) (salt e pw : string)
  | Login (ids : Ids) (salt e pw : string)
  | Refresh (ids : Ids) (token : string)
  | Logout (token : string)
  | MagicRequest (token e : string)
  | MagicVerify (ids : Ids) (token : string)
  | SocialSignIn (ids : Ids) (provider : string) (claims : option IdTokenClaims)
  | Oidc (ids : Ids) (userinfo : option (Z * option Value))
  | Delete (method path : string) (authz query : option string).

Definition serve {S : Type} `{MagicStore S} (s : Accounts * S) (r : Z * Req) : Accounts * S :=
  let '(a, m) := s in
  let now := fst r in
  match snd r with
  | Signup ids salt e pw => (snd (signup' now ids salt e pw a), m)
  | Login ids salt e pw => (snd (login' now ids salt e pw a), m)
  | Refresh ids token => (snd (refresh' now ids token a), m)
  | Logout token => (snd (logout jwt_secret now token a), m)
  | MagicRequest token e => let '(_, a, m) := magic_request fold_email now token e a m in (a, m)
  | MagicVerify ids token => let '(_, a, m) := magic_verify json_time jwt_secret access_ttl_secs now ids token a m in (a, m)
  | SocialSignIn ids provider claims => (snd (social' now ids provider claims a), m)
  | Oidc ids userinfo => (snd (oidc' now ids userinfo a), m)
  | Delete method path authz query =>
      match accepts now method path authz query a with
      | Ok ctx => (delete_tenant (ctx_tenant ctx)
                     (audit (Some (ctx_tenant ctx)) (Some (ctx_user ctx)) "account.delete" None empty_detail
                        (revoke_user_sessions now (ctx_tenant ctx) (ctx_user ctx) a)), m)
      | Err _ => (a, m)
      end
  end.

(** The session ids a request makes up. *)
Definition made_up (r : Req) : list Uuid :=
  match r with
  | Signup ids _ _ _ | Login ids _ _ _ | Refresh ids _ | MagicVerify ids _ | SocialSignIn ids _ _ | Oidc ids _ =>
      [access_jti ids; refresh_jti ids]
  | _ => []
  end.

(** Every session after was there before, with the same ids, and revoked if it was; or its id is new. *)
Definition evolves (js : list Uuid) (a a' : Accounts) : Prop :=
  forall s', s' ∈ sessions a' ->
    (exists s, s ∈ sessions a /\ s_tenant s = s_tenant s' /\ s_user s = s_user s' /\ s_jti s = s_jti s' /\
       (s_revoked s <> None -> s_revoked s' <> None)) \/ s_jti s' ∈ js.

Lemma evolves_same (js : list Uuid) (a a' : Accounts) : sessions a' = sessions a -> evolves js a a'.
Proof. intros Hs s' Hs'. left. exists s'. by rewrite <- Hs. Qed.

Lemma evolves_trans (js : list Uuid) (a b c : Accounts) : evolves js a b -> evolves js b c -> evolves js a c.
Proof.
  intros Hab Hbc s' Hs'. destruct (Hbc s' Hs') as [(s & Hs & E1 & E2 & E3 & Er)|]; [|by right].
  destruct (Hab s Hs) as [(s0 & H0 & F1 & F2 & F3 & Fr)|Hj]; [left; exists s0|right; congruence].
  repeat split; [done|congruence..|]. by intros ?%Fr%Er.
Qed.

Lemma evolves_revoke (js : list Uuid) (now : Z) (p : SessionRow -> bool) (a : Accounts) : evolves js a (revoke now p a).
Proof.
  intros s' (s & Hs & ->)%revoke_elem. left. exists s. destruct (p s && _) eqn:Hb; [|by repeat split].
  cbn. by repeat split.
Qed.

Lemma evolves_issue (now : Z) (ids : Ids) (t u : Uuid) (role act : string) (d : Value) (a : Accounts) :
  evolves [access_jti ids; refresh_jti ids] a (snd (issue_and_note' now ids t u role act d a)).
Proof.
  destruct (issue_and_note' now ids t u role act d a) as [r a'] eqn:Hi.
  apply issue_adds in Hi as (_ & _ & _ & l & Hs & _ & Hl). intros s'. cbn [snd]. rewrite Hs.
  intros [Hin|Hin]%elem_of_app; [left; by exists s'|right]. destruct (Hl s' Hin) as [Hp _].
  apply elem_of_cons in Hp as [->|[->|[]%elem_of_nil]%elem_of_cons]; [left|right; left].
Qed.

Lemma evolves_account (now : Z) (ids : Ids) (e : string) (h : option string) (a a' : Accounts) (js : list Uuid) :
  new_account fold_email now ids e h a = Ok a' -> evolves js a a'.
Proof.
  unfold new_account, insert_tenant, insert_user. intros Hn. apply evolves_same.
  destruct (has_tenant _ a); [done|]. cbn in Hn. repeat (case_match; [done|]). by injection Hn as <-.
Qed.

Lemma evolves_link (now : Z) (ids : Ids) (provider subject e : string) (a : Accounts) (js : list Uuid) :
  evolves js a (snd (link_or_create_user fold_email now ids provider subject e a)).
Proof.
  assert (forall u, evolves js a (link_identity provider subject e u a)) as Hl
    by (intros u; apply evolves_same; unfold link_identity; by repeat case_match).
  unfold link_or_create_user. destruct (find_first _ (identities a) ≫= _) as [u|]; [by destruct (u_active u); apply evolves_same|].
  destruct (find_first _ (users a)) as [u|].
  - destruct (negb (u_active u)); [by apply evolves_same|]. cbn [snd].
    eapply evolves_trans; [|by apply evolves_same, audit_sessions].
    destruct (opt_is_some (u_hash u)); [|apply Hl]. eapply evolves_trans; [|by apply evolves_same, audit_sessions].
    eapply evolves_trans; [apply Hl|apply evolves_revoke].
  - destruct (new_account _ _ _ _ _ a) as [a1|] eqn:Hn; [|by apply evolves_same].
    destruct (existsb _ _); [by apply evolves_same|]. cbn [snd].
    eapply evolves_trans; [by eapply evolves_account|]. apply evolves_same. by rewrite audit_sessions.
Qed.

Lemma serve_evolves {S : Type} `{MagicStore S} (a : Accounts) (m : S) (r : Z * Req) :
  evolves (made_up (snd r)) a (fst (serve (a, m) r)).
Proof.
  destruct r as [now []]; cbn [serve fst snd made_up].
  - unfold signup. destruct (_ || _); [by apply evolves_same|]. destruct (existsb _ _); [by apply evolves_same|].
    destruct (hash_password _ _); [|by apply evolves_same].
    destruct (new_account _ _ _ _ _ _) eqn:Hn; [|by apply evolves_same].
    eapply evolves_trans; [by eapply evolves_account|apply evolves_issue].
  - unfold login. destruct (_ || _); [apply evolves_same, audit_sessions|].
    destruct (find_first _ _); [|by apply evolves_same].
    eapply evolves_trans; [|apply evolves_issue]. apply evolves_same. unfold rehash. by repeat case_match.
  - unfold refresh. destruct (verify_session _ _ _); [|by apply evolves_same].
    destruct (session_is_live _ _ _ _); [|by apply evolves_same].
    eapply evolves_trans; [apply evolves_revoke|apply evolves_issue].
  - unfold logout. destruct (verify_session _ _ _); [|by apply evolves_same]. cbn [snd].
    eapply evolves_trans; [apply evolves_revoke|]. apply evolves_same, audit_sessions.
  - unfold magic_request. destruct (test_issue_magic _ _ _ _ _ _). by apply evolves_same.
  - unfold magic_verify. destruct (consume _ _ _) as [[[t u]|] m']; [|by apply evolves_same].
    pose proof (evolves_issue now ids t u "owner" "auth.magic.verify.ok" empty_detail a) as Hi.
    by destruct (issue_and_note' _ _ _ _ _ _ _ a).
  - unfold social. destruct claims as [c|]; [|by apply evolves_same].
    destruct (opt_filter _ _) as [e|]; [|by apply evolves_same].
    pose proof (evolves_link now ids provider (id_sub c) e a [access_jti ids; refresh_jti ids]) as Hl.
    destruct (link_or_create_user _ _ _ _ _ _ _) as [[[[uid tid] role]|err] a1]; [|done].
    eapply evolves_trans; [exact Hl|apply evolves_issue].
  - unfold oidc. destruct userinfo as [[st [info|]]|]; [|by apply evolves_same..].
    destruct (negb _); [by apply evolves_same|]. destruct (opt_filter _ _) as [e|]; [|by apply evolves_same].
    destruct (find_first _ _) as [u|].
    + destruct (negb (u_active u)); [by apply evolves_same|]. eapply evolves_trans; [|apply evolves_issue].
      destruct (opt_is_some (u_hash u)); [|by apply evolves_same].
      eapply evolves_trans; [|apply evolves_same, audit_sessions].
      eapply evolves_trans; [|apply evolves_revoke]. by apply evolves_same.
    + destruct (new_account _ _ _ _ _ _) eqn:Hn; [|by apply evolves_same].
      eapply evolves_trans; [by eapply evolves_account|]. eapply evolves_trans; [|apply evolves_issue].
      apply evolves_same, audit_sessions.
  - destruct (accepts _ _ _ _ _ a) as [ctx|]; [|by apply evolves_same]. cbn [fst].
    eapply evolves_trans; [apply (evolves_revoke _ now)|].
    intros s' Hs'. left. exists s'. cbn in Hs'. apply list_elem_of_filter in Hs' as [_ Hs'].
    by rewrite audit_sessions in Hs'.
Qed.

Definition dead (t j : Uuid) (a : Accounts) : Prop :=
  forall s, s ∈ sessions a -> s_tenant s = t -> s_jti s = j -> s_revoked s <> None.

(** C31: revocation is final. Once the session of a token is revoked, by a refresh, a logout, a takeover of
    the account or its deletion, no sequence of requests, at whatever times, makes the token good again:
    neither as a bearer, at any route, nor for refreshing. Session ids are made up once: a later request does
    not make up this one. *)
Theorem revocation_final {S : Type} `{MagicStore S} (a : Accounts) (m : S) (l : list (Z * Req)) (t j : Uuid)
  (Hdead : dead t j a) (Hfresh : forall r, r ∈ l -> j ∉ made_up (snd r)) :
  let a' := fst (foldl serve (a, m) l) in
  dead t j a' /\
  (forall now token c query method path, verify_session now token (access_cfg jwt_secret access_ttl_secs) = Ok c ->
     tenant_id c = t -> jti c = j -> accepts now method path (Some ("Bearer " +:+ token)) query a' = Err Unauthorized) /\
  (forall now ids token c, verify_session now token (refresh_cfg jwt_secret) = Ok c ->
     tenant_id c = t -> jti c = j -> refresh' now ids token a' = (Err Unauthorized, a')).
Proof.
  intros a'. assert (dead t j a') as Hd.
  { unfold a'. clear a'. revert a m Hdead Hfresh. induction l as [|r l IH]; intros a m Hd Hf; [done|]. cbn [foldl].
    pose proof (serve_evolves a m r) as He. destruct (serve (a, m) r) as [a1 m1]. cbn [fst] in He.
    apply IH; [|intros x Hx; apply Hf; by right].
    intros s' Hs' Ht Hj. destruct (He s' Hs') as [(s & Hs & E1 & _ & E3 & Er)|Hn].
    - apply Er, (Hd s Hs); congruence.
    - exfalso. apply (Hf r ltac:(left)). congruence. }
  assert (forall n, session_is_live n t j a' = false) as Hl.
  { intros n. apply not_true_iff_false. intros (s & Hs & Ht & Hj & Hr & _)%live_spec. by apply (Hd s Hs). }
  split; [done|]. split.
  - intros now token c query method path Hv <- <-. unfold from_request_parts, resolve_token. cbn [mbind option_bind].
    rewrite (proj2 (Str.strip_prefix_spec _ _ token) eq_refl). by rewrite Hv, Hl.
  - intros now ids token c Hv <- <-. unfold refresh. by rewrite Hv, Hl.
Qed.
End AuthProps.

(** ** A concrete signer, for examples and witnesses *)
(** A token is the secret and the claims, written as a number in binary. *)
Module Toy.
Fixpoint bits (p : positive) : string :=
  match p with
  | xH => "1"
  | xO p => String "0" (bits p)
  | xI p => String "1" (bits p)
  end.
Fixpoint unbits (s : string) : option positive :=
  match s with
  | EmptyString => None
  | String c "" => if Ascii.eqb c "1" then Some xH else None
  | String c s => (if Ascii.eqb c "1" then xI else xO) <$> unbits s
  end.
Lemma unbits_bits (p : positive) : unbits (bits p) = Some p.
Proof.
  induction p as [p IH|p IH|]; [| |done]; cbn; destruct (bits p) eqn:E; try (by destruct p); by rewrite IH.
Qed.

Lemma bits_no_dot (p : positive) : Str.no_char "." (bits p) = true.
Proof. by induction p. Qed.

(** The secret and the fields of the claims, as numbers. *)
Definition fields (s : string) (c : SessionClaims) : list positive :=
  [countable.encode s; countable.encode (sub c); countable.encode (tenant_id c); countable.encode (role c);
   countable.encode (jti c); countable.encode (iss c); countable.encode (aud c); countable.encode (iat c);
   countable.encode (exp c)].
Definition claims_of (l : list positive) : option (string * SessionClaims) :=
  match l with
  | [s; u; t; r; j; i; a; ia; ex] =>
      s ← countable.decode s; u ← countable.decode u; t ← countable.decode t; r ← countable.decode r;
      j ← countable.decode j; i ← countable.decode i; a ← countable.decode a; ia ← countable.decode ia;
      ex ← countable.decode ex;
      Some (s, {| sub := u; tenant_id := t; role := r; jti := j; iss := i; aud := a; iat := ia; exp := ex |})
  | _ => None
  end.
Definition toy_encode (s : string) (c : SessionClaims) : result string string := Ok (Str.join "." (bits <$> fields s c)).
Definition toy_read (token : string) : option (string * SessionClaims) :=
  mapM unbits (Str.split_on "." token) ≫= claims_of.
Lemma toy_read_encode (s : string) (c : SessionClaims) : toy_read (Str.join "." (bits <$> fields s c)) = Some (s, c).
Proof.
  unfold toy_read. rewrite split_on_join by (done || (cbn [fields fmap list_fmap]; repeat constructor; apply bits_no_dot)).
  assert (mapM unbits (bits <$> fields s c) = Some (fields s c)) as ->.
  { apply mapM_Some. apply Forall2_fmap_l, Forall2_same_length_lookup. split; [done|].
    intros i x y Hx Hy. assert (x = y) as -> by congruence. apply unbits_bits. }
  cbn. rewrite !countable.decode_encode. cbn. by destruct c.
Qed.
Definition toy_decode (now : Z) (s i a token : string) : result string SessionClaims :=
  match toy_read token with
  | Some (s', c) =>
      if String.eqb s' s && String.eqb (iss c) i && String.eqb (aud c) a && (timestamp now - 60 <=? exp c)
      then Ok c else Err "InvalidToken"
  | None => Err "InvalidToken"
  end.
#[export] Instance toy_jwt : JwtCrate := { encode := toy_encode; decode := toy_decode }.
#[export] Instance toy_laws : JwtLaws toy_jwt.
Proof.
  split; cbn [encode decode toy_jwt]; unfold toy_decode, toy_encode.
  - intros now s i a token c Hd. destruct (toy_read token) as [[s' c']|]; [|done].
    destruct (_ && _) eqn:Hb; [|done]. injection Hd as <-. bool_prop. repeat split; [done..|lia].
  - intros now s c token He Ht. assert (token = Str.join "." (bits <$> fields s c)) as -> by congruence.
    rewrite toy_read_encode, !String.eqb_refl. cbn.
    by rewrite (proj2 (Z.leb_le _ _)) by lia.
  - intros now now' s i i' a a' token c c' H1 H2. destruct (toy_read token) as [[s' c0]|]; [|done].
    repeat (destruct (_ && _); [|done]). congruence.
Qed.
(** Hashes that are the password after a mark. *)
#[export] Instance toy_argon : Argon := {
  is_hash := Str.starts_with "$";
  hash_param := fun h k => if String.eqb k "m" then Some 19456 else if String.eqb k "t" then Some 2 else Some 1;
  argon_verify := fun h pw => String.eqb h ("$" +:+ pw);
  argon_hash := fun _ pw => Ok ("$" +:+ pw);
}.
End Toy.
Import Toy.

Definition demo_ids (k : N) : Ids :=
  {| new_tenant := k * 10; new_user := k * 10 + 1; access_jti := k * 10 + 2; refresh_jti := k * 10 + 3 |}.
Definition no_accounts : Accounts := {| tenants := []; users := []; sessions := []; identities := []; audit_log := [] |}.
Definition demo_signup := @signup toy_jwt toy_argon Str.to_ascii_lowercase (fun _ => "") "s" 3600 0 (demo_ids 1) "" "Ann@x.org" "pw".
Definition demo_refresh (now : Z) (k : N) := @refresh toy_jwt (fun _ => "") "s" 3600 now (demo_ids k).
Definition ann : Accounts := snd (demo_signup no_accounts).
Definition token_of (key : string) (r : result ApiError Value) : string :=
  match r with Ok v => unwrap_or (get_str key v) "" | Err _ => "" end.
Definition ann_refresh : string := token_of "refresh_jwt" (fst (demo_signup no_accounts)).
Definition ann_access : string := token_of "access_jwt" (fst (demo_signup no_accounts)).

(** An email is one account, however it is spelled; a wrong password and an unknown email answer the same;
    the failure for an unknown email leaves no trace in the audit log. *)
Example login_answers :
  fst (demo_signup ann) = Err (BadRequest "email already registered") /\
  let try e pw := @login toy_jwt toy_argon Str.to_ascii_lowercase (fun _ => "") "s" 3600 5 (demo_ids 2) "" e pw ann in
  is_ok (fst (try "ANN@X.org" "pw")) = true /\ fst (try "ann@x.org" "no") = Err Unauthorized /\
  fst (try "bob@x.org" "pw") = Err Unauthorized /\
  length (audit_log (snd (try "ann@x.org" "no"))) = 2%nat /\ length (audit_log (snd (try "bob@x.org" "pw"))) = 1%nat.
Proof. vm_compute. repeat split. Qed.

(** Two requests with one refresh token, both finding it live before either revokes it, both get a pair. *)
Example refresh_race :
  match verify_session 5 ann_refresh (refresh_cfg "s") with
  | Ok c =>
      session_is_live 5 (tenant_id c) (jti c) ann = true /\
      let '(r1, a1) := @rotate toy_jwt (fun _ => "") "s" 3600 5 (demo_ids 2) c ann in
      let '(r2, a2) := @rotate toy_jwt (fun _ => "") "s" 3600 5 (demo_ids 3) c a1 in
      is_ok r1 = true /\ is_ok r2 = true /\
      length (filter (fun s => s_revoked s = None) (sessions a2)) = 5%nat
  | Err _ => False
  end.
Proof. vm_compute. repeat split. Qed.

(** Neither a refresh nor a magic link asks whether the account is active. *)
Example inactive_account_signs_in :
  let off := with_users ((fun u => {| u_id := u_id u; u_tenant := u_tenant u; u_email := u_email u; u_hash := u_hash u;
                                      u_role := u_role u; u_active := false |}) <$> users ann) ann in
  fst (@login toy_jwt toy_argon Str.to_ascii_lowercase (fun _ => "") "s" 3600 5 (demo_ids 2) "" "ann@x.org" "pw" off)
  = Err Unauthorized /\
  is_ok (fst (demo_refresh 5 2 ann_refresh off)) = true /\
  is_ok (fst (fst (@magic_verify toy_jwt (fun _ => "") "s" 3600 Memory memory_store 5 (demo_ids 2) "mgc_x" off
    (snd (test_issue_magic Str.to_ascii_lowercase 4 "mgc_x" "ann@x.org" off (∅ : Memory)))))) = true.
Proof. vm_compute. repeat split. Qed.

(** The provider's own word on the email is not asked for: an email it marks as not verified takes the account. *)
Example unverified_email_takes_over :
  let info := obj [("email", String_ "ann@x.org"); ("email_verified", Bool false)] in
  let '(r, a) := @oidc toy_jwt Str.to_ascii_lowercase (fun _ => "") "s" 3600 5 (demo_ids 2) (Some (200, Some info)) ann in
  is_ok r = true /\ map u_hash (users a) = [None].
Proof. vm_compute. repeat split. Qed.

Lemma issued_tokens_work_witness :
  from_request_parts "s" 3600 1000000 "GET" "/v1/ideas" (Some ("Bearer " +:+ ann_access)) None ann
  = Ok {| ctx_tenant := 10%N; ctx_user := 11%N; ctx_jti := access_jti (demo_ids 1); ctx_query := None |}.
Proof.
  assert (exists v a', @issue_pair toy_jwt (fun _ => "") "s" 3600 0 (demo_ids 1) 10%N 11%N "owner"
    (with_sessions [] ann) = (Ok v, a') /\ get_str "access_jwt" v = Some ann_access /\
    get_str "refresh_jwt" v = Some ann_refresh /\ a' = ann) as (v & a' & H1 & H2 & H3 & ->)
    by (eexists _, _; vm_compute; repeat split).
  assert (timestamp 1000000 < timestamp 0 + 3600 <= Int.i64_max) as P1 by (vm_compute; by split).
  assert (timestamp 0 + 60 * 60 * 24 * 30 <= Int.i64_max) as P2 by (by vm_compute).
  assert (1000000 < 0 + seconds 3600) as P3 by (by vm_compute).
  assert (0 <= 0 <= 1000000) as P4 by lia.
  assert (access_jti (demo_ids 1) <> refresh_jti (demo_ids 1)) as P5 by done.
  pose proof (@issued_tokens_work toy_jwt (fun _ => "") "s" 3600 toy_laws 0 1000000 (demo_ids 1) 10%N 11%N "owner"
    "GET" "/v1/ideas" None (with_sessions [] ann) ann v ann_access ann_refresh P1 P2 P3 P4 P5) as Q.
  pose proof (Q H1) as Q1.
  pose proof (Q1 H2) as Q2.
  pose proof (Q2 H3) as [Q3 _].
  exact Q3.
Defined.

Lemma refresh_rotates_witness :
  is_ok (fst (demo_refresh 5 2 ann_refresh ann)) = true /\
  fst (demo_refresh 6 3 ann_refresh (snd (demo_refresh 5 2 ann_refresh ann))) = Err Unauthorized.
Proof.
  assert (is_ok (fst (demo_refresh 5 2 ann_refresh ann)) = true) as Hok by (vm_compute; reflexivity).
  split; [exact Hok|].
  pose proof (@refresh_rotates toy_jwt (fun _ => "") "s" 3600 toy_laws 5 (demo_ids 2) ann_refresh ann) as H.
  unfold demo_refresh in *. revert H Hok.
  generalize (refresh (fun _ => "") "s" 3600 5 (demo_ids 2) ann_refresh ann). intros [[v|e] a'] H Hok; [|discriminate].
  destruct H as (c & _ & _ & _ & _ & H). pose proof (H 6 (demo_ids 3)) as H6. apply (f_equal fst) in H6. cbn [fst snd] in *. exact H6.
Defined.

Definition ann_row : UserRow :=
  {| u_id := 11%N; u_tenant := 10%N; u_email := "Ann@x.org"; u_hash := Some "$pw"; u_role := "owner"; u_active := true |}.
Lemma link_locks_out_password_witness :
  let a' := snd (@oidc toy_jwt Str.to_ascii_lowercase (fun _ => "") "s" 3600 5 (demo_ids 2)
    (Some (200, Some (obj [("email", String_ "ann@x.org")]))) ann) in
  fst (@login toy_jwt toy_argon Str.to_ascii_lowercase (fun _ => "") "s" 3600 9 (demo_ids 3) "" "ann@x.org" "pw" a')
  = Err Unauthorized.
Proof.
  cbv zeta. destruct (@oidc toy_jwt Str.to_ascii_lowercase (fun _ => "") "s" 3600 5 (demo_ids 2)
    (Some (200, Some (obj [("email", String_ "ann@x.org")]))) ann) as [r a'] eqn:Ho.
  assert (NoDup ((fun s => (s_tenant s, s_jti s)) <$> sessions ann)) as Hk
    by (apply (bool_decide_unpack _); vm_compute; exact I).
  exact (proj1 (@link_locks_out_password toy_jwt toy_argon Str.to_ascii_lowercase (fun _ => "") "s" 3600 5 (demo_ids 2)
    "ann@x.org" "" (obj [("email", String_ "ann@x.org")])
    {| id_sub := ""; email := None; id_iss := ""; id_aud := ""; id_exp := 0; email_verified := None; nonce := None |}
    ann_row ann a' r ltac:(vm_compute; reflexivity) ltac:(done) ltac:(done) ltac:(done) Hk
    (or_introl (conj eq_refl Ho))) 9 (demo_ids 3) "" "ann@x.org" "pw" eq_refl).
Defined.

Lemma revocation_final_witness :
  let out := logout "s" 5 ann_refresh ann in
  let s := foldl (@serve toy_jwt toy_argon Str.to_ascii_lowercase (fun _ => "") "s" 3600 Memory memory_store)
    (snd out, ∅) [(6, Login (demo_ids 2) "" "ann@x.org" "pw"); (7, Refresh (demo_ids 3) ann_refresh)] in
  from_request_parts "s" 3600 8 "GET" "/v1/ideas" (Some ("Bearer " +:+ ann_access)) None (fst s) = Err Unauthorized.
Proof.
  cbv zeta.
  assert (dead 10%N 12%N (snd (logout "s" 5 ann_refresh ann))) as Hd.
  { assert (Forall (fun s => s_tenant s = 10%N -> s_jti s = 12%N -> s_revoked s <> None)
      (sessions (snd (logout "s" 5 ann_refresh ann)))) as Hf by (vm_compute; repeat constructor; discriminate).
    intros s Hs. exact (proj1 (Forall_forall _ _) Hf s Hs). }
  destruct (verify_session 8 ann_access (access_cfg "s" 3600)) as [c|] eqn:Hv; [|vm_compute in Hv; discriminate].
  set (l := [(6, Login (demo_ids 2) "" "ann@x.org" "pw"); (7, Refresh (demo_ids 3) ann_refresh)]).
  assert (Forall (fun r => 12%N ∉ made_up (snd r)) l) as Hfresh
    by (apply (bool_decide_unpack _); vm_compute; exact I).
  pose proof (@revocation_final toy_jwt toy_argon Str.to_ascii_lowercase (fun _ => "") "s" 3600 Memory memory_store
    (snd (logout "s" 5 ann_refresh ann)) ∅ l 10%N 12%N Hd (proj1 (Forall_forall _ _) Hfresh)) as (_ & H & _).
  apply (H 8 ann_access c None "GET" "/v1/ideas" Hv); vm_compute in Hv; injection Hv as <-; reflexivity.
Defined.
