(* ===== verification/Vault.v ===== *)
(** * The vault of provider keys

    [Envelope]: [secrets/src/lib.rs], the envelope encryption of a key under a key-encryption key
    ([Kms], with its two implementations). The AEAD, AES-256-GCM, is a class with its laws; the random
    bytes a call draws are its arguments. [Sealing]: [app-server/src/vault/secrets.rs]. [Creds]: the
    table [provider_credentials] and the routes of [vault/routes.rs] over it. [Resolver]:
    [dispatch/resolver.rs], which loads the pool of a tenant, opens its keys and writes the statuses
    back after a call; these are the operations the dispatcher takes as parameters. Bytes are strings;
    that a buffer is zeroed when it is dropped is not visible here. Times in the database are
    microseconds. *)
From S2P Require Import Prelude RustStr Json Protocol Pool WikiText Dispatch Server Redact Identity Auth.
From stdpp Require Import list gmap.

#[local] Open Scope string_scope.
#[local] Open Scope list_scope.
#[local] Open Scope Z_scope.

(** ** Envelope encryption *)
Module Envelope.
Definition xor_ascii (a b : ascii) : ascii := ascii_of_N (N.lxor (N_of_ascii a) (N_of_ascii b)).
(** Every byte with the byte of the key at its index modulo 32. *)
Fixpoint xor_from (kek : list ascii) (i : nat) (s : string) : string :=
  match s with
  | EmptyString => ""
  | String c s => String (xor_ascii c (nth (i mod 32) kek zero)) (xor_from kek (S i) s)
  end.

(* src/qcue-rs/secrets/src/lib.rs 10-18 SecretError *)
Inductive SecretError : Type := KmsUnwrap | Decrypt | Encrypt.

(** [Aes256Gcm]: [encrypt key nonce msg aad], the tag of 16 bytes at the end, and [decrypt]. *)
Class Aead : Type := {
  encrypt : string -> string -> string -> string -> option string;
  decrypt : string -> string -> string -> string -> option string;
}.
(** The largest message of the crate; the tag is a function of the rest, so that a text opens to a message
    exactly if it is what sealing that message gives. *)
Definition P_MAX : Z := Z.shiftl 1 36.
Class AeadLaws (A : Aead) : Prop := {
  encrypt_small : forall k n m a, Z.of_nat (String.length m) <= P_MAX -> is_Some (encrypt k n m a);
  encrypt_length : forall k n m a c, encrypt k n m a = Some c -> String.length c = (String.length m + 16)%nat;
  decrypt_iff : forall k n c m a, decrypt k n c a = Some m <-> encrypt k n m a = Some c;
}.

(** [wrap_dek] has the nonce it draws as its first argument. *)
(* src/qcue-rs/secrets/src/lib.rs 21-24 Kms *)
Record Kms : Type := {
  wrap_dek : string -> string -> string -> string;
  unwrap_dek : string -> string -> result SecretError string;
}.
(** What its clients rely on. *)
Class KmsLaws (K : Kms) : Prop := {
  unwrap_wrap : forall nonce dek tenant, String.length nonce = 12%nat -> String.length dek = 32%nat ->
    unwrap_dek K (wrap_dek K nonce dek tenant) tenant = Ok dek;
}.

(* src/qcue-rs/secrets/src/lib.rs 56-56 LEGACY_STUB_KEK *)
Definition LEGACY_STUB_KEK : list ascii := repeat (Str.byte 90) 32.
(* src/qcue-rs/secrets/src/lib.rs 27-47 StubKms *)
Definition StubKms : Kms := {|
  wrap_dek := fun _ dek _ => xor_from (repeat (Str.byte 90) 32) 0 dek;
  unwrap_dek := fun wrapped _ => Ok (xor_from (repeat (Str.byte 90) 32) 0 wrapped);
|}.

(* src/qcue-rs/secrets/src/lib.rs 52-52 ENV_WRAP_V1 *)
Definition ENV_WRAP_V1 : ascii := Str.byte 1.

Section Cipher.
Context `{Aead}.
(* src/qcue-rs/secrets/src/lib.rs 83-96 wrap_dek *)
Definition env_wrap_dek (kek nonce dek tenant : string) : string :=
  String ENV_WRAP_V1 (nonce +:+ unwrap_or (encrypt kek nonce dek tenant) "").
(* src/qcue-rs/secrets/src/lib.rs 97-111 unwrap_dek *)
Definition env_unwrap_dek (kek wrapped tenant : string) : result SecretError string :=
  let legacy := Ok (xor_from LEGACY_STUB_KEK 0 wrapped) in
  match wrapped with
  | String v rest =>
      if Ascii.eqb v ENV_WRAP_V1 && Nat.leb (12 + 16) (String.length rest)
      then ok_or (decrypt kek (Str.take 12 rest) (Str.drop 12 rest) tenant) KmsUnwrap
      else legacy
  | EmptyString => legacy
  end.
(* src/qcue-rs/secrets/src/lib.rs 62-64 EnvKms *)
Definition EnvKms (kek : string) : Kms := {| wrap_dek := env_wrap_dek kek; unwrap_dek := env_unwrap_dek kek |}.
(* src/qcue-rs/secrets/src/lib.rs 68-75 from_bytes *)
Definition from_bytes (master : string) : option Kms :=
  if Nat.ltb (String.length master) 32 then None else Some (EnvKms (Str.take 32 master)).

(* src/qcue-rs/secrets/src/lib.rs 115-119 EncryptedCredential *)
Record EncryptedCredential : Type := { e_ciphertext : string; e_nonce : string; e_dek_wrapped : string }.

(** [Aes256Gcm::new_from_slice] *)
Definition key_length_ok (k : string) : bool := Nat.eqb (String.length k) 32.
(** The random bytes: the data key, the nonce, and the nonce of the wrapping. *)
Record Draw : Type := { d_dek : string; d_nonce : string; d_wrap : string }.
(* src/qcue-rs/secrets/src/lib.rs 157-168 seal_random *)
Definition seal_random (kms : Kms) (plaintext tenant : string) (d : Draw) : result SecretError EncryptedCredential :=
  if key_length_ok (d_dek d) then
    match encrypt (d_dek d) (d_nonce d) plaintext tenant with
    | Some ct =>
        Ok {| e_ciphertext := ct; e_nonce := d_nonce d; e_dek_wrapped := wrap_dek kms (d_wrap d) (d_dek d) tenant |}
    | None => Err Encrypt
    end
  else Err Encrypt.
(** The same with a fixed key and nonce; the nonce of the wrapping is drawn. *)
(* src/qcue-rs/secrets/src/lib.rs 136-149 seal *)
Definition seal (kms : Kms) (plaintext tenant wrap : string) : result SecretError EncryptedCredential :=
  seal_random kms plaintext tenant
    {| d_dek := Str.bytes (repeat 17 32)%nat; d_nonce := Str.bytes (repeat 34 12)%nat; d_wrap := wrap |}.

(** [None]: the panic of [Nonce::from_slice] on a length other than 12. *)
(* src/qcue-rs/secrets/src/lib.rs 181-193 decrypt_with_tenant *)
Definition decrypt_with_tenant (kms : Kms) (e : EncryptedCredential) (tenant : string) :
  option (result SecretError string) :=
  match unwrap_dek kms (e_dek_wrapped e) tenant with
  | Err err => Some (Err err)
  | Ok dek =>
      if key_length_ok dek then
        if Nat.eqb (String.length (e_nonce e)) 12
        then Some (ok_or (decrypt dek (e_nonce e) (e_ciphertext e) tenant) Decrypt)
        else None
      else Some (Err Decrypt)
  end.
End Cipher.
End Envelope.
Import Envelope.

(** ** The façade of the vault *)
Module Sealing.
(* src/qcue-rs/app-server/src/vault/secrets.rs 12-19 SealedKey *)
Record SealedKey : Type := {
  key_ciphertext : string;
  key_nonce : string;
  key_tag : string;
  dek_wrapped : string;
  kek_id : string;
  hint : string;
}.
(** The ellipsis of the hint. *)
Definition ellipsis : string := Str.bytes [226; 128; 166]%nat.
(* src/qcue-rs/app-server/src/vault/secrets.rs 51-55 key_hint *)
Definition key_hint (plaintext : string) : string :=
  ellipsis +:+ Chars.concat (rev (firstn 3 (rev (Chars.chars plaintext)))).
(* src/qcue-rs/app-server/src/vault/secrets.rs 70-70 GCM_TAG_LEN *)
Definition GCM_TAG_LEN : nat := 16.

(** [tracing]'s text of the errors: [SecretError]'s [Display]. *)
Definition secret_error (e : SecretError) : string :=
  match e with
  | KmsUnwrap => "kms unwrap failed"
  | Decrypt => "aead decrypt failed"
  | Encrypt => "aead encrypt failed"
  end.

Section Facade.
Context `{Aead} (uuid_text : Uuid -> string) (kms : Kms) (kek : string).
(* src/qcue-rs/app-server/src/vault/secrets.rs 74-91 seal *)
Definition seal_key (tenant : Uuid) (plaintext : string) (d : Draw) : result string SealedKey :=
  let? enc := map_err (fun e => "seal failed: " +:+ secret_error e) (seal_random kms plaintext (uuid_text tenant) d) in
  let ct := e_ciphertext enc in
  let n := String.length ct in
  let split := Nat.leb GCM_TAG_LEN n in
  Ok {| key_ciphertext := if split then Str.take (n - GCM_TAG_LEN) ct else ct; key_nonce := e_nonce enc;
        key_tag := if split then Str.drop (n - GCM_TAG_LEN) ct else "";
        dek_wrapped := e_dek_wrapped enc; kek_id := kek; hint := key_hint plaintext |}.
(* src/qcue-rs/app-server/src/vault/secrets.rs 93-106 open *)
Definition open_key (tenant : Uuid) (s : SealedKey) : option (result string string) :=
  map_err (fun e => "open failed: " +:+ secret_error e) <$>
  decrypt_with_tenant kms {| e_ciphertext := key_ciphertext s +:+ key_tag s; e_nonce := key_nonce s;
                             e_dek_wrapped := dek_wrapped s |} (uuid_text tenant).
End Facade.
End Sealing.
Import Sealing.

(** ** The table and the routes *)
Module Creds.
(** The Postgres enum [cred_status]. *)
Inductive DbStatus : Type := StOk | StExhausted | StDead.
#[export] Instance DbStatus_eq_dec : EqDecision DbStatus.
Proof. solve_decision. Defined.
Definition status_text (s : DbStatus) : string :=
  match s with StOk => "ok" | StExhausted => "exhausted" | StDead => "dead" end.

(** [updated_at] is written by a trigger and never read. *)
(* src/qcue-rs/migrations/00003_M0_0003_provider_credentials.sql 6-32 provider_credentials *)
Record Row : Type := {
  c_id : Uuid;
  c_tenant : Uuid;
  c_provider : string;
  c_label : option string;
  c_priority : Z;
  c_ciphertext : string;
  c_nonce : string;
  c_tag : string;
  c_dek_wrapped : string;
  c_kek : string;
  c_hint : string;
  c_status : DbStatus;
  c_cooldown : option Z;
  c_error_code : option Z;
  c_error_reason : option string;
  c_requests : Z;
  c_dead_at : option Z;
  c_created : Z;
}.
Abbreviation Table := (list Row).
(** The policy of the table. *)
Definition rls (tx : Uuid) (c : Row) : bool := N.eqb (c_tenant c) tx.
(** [UPDATE provider_credentials SET f WHERE p], in the transaction of a tenant. *)
Definition update_where (tx : Uuid) (p : Row -> bool) (f : Row -> Row) (t : Table) : Table :=
  (fun c => if rls tx c && p c then f c else c) <$> t.
Definition has_id (i : Uuid) (c : Row) : bool := N.eqb (c_id c) i.
Definition is_status (s : DbStatus) (c : Row) : bool := bool_decide (c_status c = s).
Definition set_state (s : DbStatus) (cooldown : option Z) (code : option Z) (dead_at : option Z) (c : Row) : Row :=
  {| c_id := c_id c; c_tenant := c_tenant c; c_provider := c_provider c; c_label := c_label c;
     c_priority := c_priority c; c_ciphertext := c_ciphertext c; c_nonce := c_nonce c; c_tag := c_tag c;
     c_dek_wrapped := c_dek_wrapped c; c_kek := c_kek c; c_hint := c_hint c; c_status := s; c_cooldown := cooldown;
     c_error_code := code; c_error_reason := c_error_reason c; c_requests := c_requests c; c_dead_at := dead_at;
     c_created := c_created c |}.

(** The unique index of the table. *)
Definition same_key (t : Uuid) (provider hint : string) (c : Row) : bool :=
  N.eqb (c_tenant c) t && String.eqb (c_provider c) provider && String.eqb (c_hint c) hint.

(* src/qcue-rs/app-server/src/vault/routes.rs 23-32 PutKey *)
Record PutKey : Type := { pk_provider : string; pk_label : option string; pk_key : string; pk_priority : Z }.

(** The row an insert writes, and what it does to a row with the same index. *)
Definition new_row (now : Z) (i tenant : Uuid) (r : PutKey) (s : SealedKey) : Row :=
  {| c_id := i; c_tenant := tenant; c_provider := pk_provider r; c_label := pk_label r; c_priority := pk_priority r;
     c_ciphertext := key_ciphertext s; c_nonce := key_nonce s; c_tag := key_tag s; c_dek_wrapped := dek_wrapped s;
     c_kek := kek_id s; c_hint := hint s; c_status := StOk; c_cooldown := None; c_error_code := None;
     c_error_reason := None; c_requests := 0; c_dead_at := None; c_created := now |}.
Definition reseal (r : PutKey) (s : SealedKey) (c : Row) : Row :=
  {| c_id := c_id c; c_tenant := c_tenant c; c_provider := c_provider c; c_label := pk_label r;
     c_priority := pk_priority r; c_ciphertext := key_ciphertext s; c_nonce := key_nonce s; c_tag := key_tag s;
     c_dek_wrapped := dek_wrapped s; c_kek := kek_id s; c_hint := c_hint c; c_status := StOk; c_cooldown := None;
     c_error_code := c_error_code c; c_error_reason := c_error_reason c; c_requests := c_requests c;
     c_dead_at := None; c_created := c_created c |}.
(* src/qcue-rs/app-server/src/vault/routes.rs 50-72 put_key *)
Definition upsert_key (now : Z) (i tenant : Uuid) (r : PutKey) (s : SealedKey) (a : Accounts) (t : Table) :
  result Errors.ApiError (Uuid * Table) :=
  if has_tenant tenant a then
    match find_first (same_key tenant (pk_provider r) (hint s)) t with
    | Some c => Ok (c_id c, update_where tenant (same_key tenant (pk_provider r) (hint s)) (reseal r s) t)
    | None =>
        if existsb (has_id i) t then Err (Errors.Db unique_violation) else Ok (i, t ++ [new_row now i tenant r s])
    end
  else Err (Errors.Db foreign_key_violation).

(* src/qcue-rs/app-server/src/vault/routes.rs 36-39 redacted *)
Definition redacted (v : Value) : Value := Boundary.redact_json v.
Definition opt_json (o : option string) : Value := match o with Some s => String_ s | None => Null end.

Section Routes.
Context `{Aead} (uuid_text : Uuid -> string) (json_time : Z -> string) (kms : Kms) (kek : string).
(** [ORDER BY] on a text: the order of the database's collation. *)
Context (text_le : string -> string -> bool).

(** The audit row goes through a connection of its own. *)
(* src/qcue-rs/app-server/src/vault/routes.rs 43-87 put_key *)
Definition put_key (now : Z) (ctx : TenantCtx) (r : PutKey) (i : Uuid) (d : Draw) (a : Accounts) (t : Table) :
  result Errors.ApiError Value * Accounts * Table :=
  match seal_key uuid_text kms kek (ctx_tenant ctx) (pk_key r) d with
  | Err e => (Err (Errors.Other e), a, t)
  | Ok sealed =>
      match upsert_key now i (ctx_tenant ctx) r sealed a t with
      | Err e => (Err e, a, t)
      | Ok (i, t) =>
          let a := Audit.audit (Some (ctx_tenant ctx)) (Some (ctx_user ctx)) "cred.add" None
                     (obj [("provider", String_ (pk_provider r)); ("key_hint", String_ (hint sealed))]) a in
          (Ok (redacted (obj [("id", String_ (uuid_text i)); ("provider", String_ (pk_provider r));
                              ("label", opt_json (pk_label r)); ("key_hint", String_ (hint sealed));
                              ("status", String_ "ok")])), a, t)
      end
  end.

(* src/qcue-rs/app-server/src/vault/routes.rs 99-105 list_keys *)
Definition heal (now : Z) (tenant : Uuid) : Table -> Table :=
  update_where tenant
    (fun c => is_status StExhausted c && match c_cooldown c with Some u => u <=? now | None => false end)
    (fun c => set_state StOk None (c_error_code c) (c_dead_at c) c).
Definition row_le (x y : Row) : bool :=
  text_le (c_provider x) (c_provider y) &&
  (negb (text_le (c_provider y) (c_provider x)) || (c_priority x <=? c_priority y)).
Definition key_item (c : Row) : Value :=
  obj [("id", String_ (uuid_text (c_id c))); ("provider", String_ (c_provider c)); ("label", opt_json (c_label c));
       ("key_hint", String_ (c_hint c)); ("status", String_ (status_text (c_status c)));
       ("cooldown_until", opt_json (json_time <$> c_cooldown c))].
(* src/qcue-rs/app-server/src/vault/routes.rs 91-126 list_keys *)
Definition list_keys (now : Z) (ctx : TenantCtx) (t : Table) : result Errors.ApiError Value * Table :=
  let t := heal now (ctx_tenant ctx) t in
  let rows := sort_by row_le (List.filter (rls (ctx_tenant ctx)) t) in
  (Ok (redacted (obj [("keys", Array (key_item <$> rows))])), t).

(* src/qcue-rs/app-server/src/vault/routes.rs 129-149 delete_key *)
Definition delete_key (ctx : TenantCtx) (i : Uuid) (a : Accounts) (t : Table) :
  result Errors.ApiError Value * Accounts * Table :=
  let t := List.filter (fun c => negb (rls (ctx_tenant ctx) c && has_id i c)) t in
  let a := Audit.audit (Some (ctx_tenant ctx)) (Some (ctx_user ctx)) "cred.delete" None
             (obj [("id", String_ (uuid_text i))]) a in
  (Ok (redacted (obj [("deleted", String_ (uuid_text i))])), a, t).
End Routes.

(** *** The repository *)
(** It remembers the tenant of its transactions. *)
(* src/qcue-rs/store/src/creds_repo.rs 36-42 current_tenant *)
Definition current_tenant (r : option Uuid) : result string Uuid := ok_or r "tenant GUC not set".
(* src/qcue-rs/store/src/creds_repo.rs 86-99 mark_exhausted *)
Definition repo_mark_exhausted (now : Z) (i : Uuid) (r : option Uuid) (t : Table) : result string Table :=
  let? tenant := current_tenant r in
  Ok (update_where tenant (has_id i)
        (fun c => set_state StExhausted (Some (now + 3600 * 1000000)) (c_error_code c) (c_dead_at c) c) t).
(* src/qcue-rs/store/src/creds_repo.rs 102-115 mark_dead *)
Definition repo_mark_dead (now : Z) (i : Uuid) (r : option Uuid) (t : Table) : result string Table :=
  let? tenant := current_tenant r in
  Ok (update_where tenant (fun c => has_id i c && negb (is_status StDead c))
        (fun c => set_state StDead (c_cooldown c) (c_error_code c) (Some now) c) t).
(* src/qcue-rs/store/src/creds_repo.rs 117-135 list *)
Definition repo_list (tenant : Uuid) (provider : string) (t : Table) : list (Uuid * string * string * string) :=
  (fun c => (c_id c, c_provider c, status_text (c_status c), c_hint c)) <$>
  List.filter (fun c => rls tenant c && String.eqb (c_provider c) provider) t.
End Creds.
Import Creds.

(** ** The resolver *)
Module Resolver.
(* src/qcue-rs/app-server/src/dispatch/resolver.rs 38-46 status_from_db *)
Definition status_from_db (status : string) (cooldown_until_ms : option Z) : CredStatus :=
  if String.eqb status "dead" then CredDead
  else if String.eqb status "exhausted" then CredExhausted (unwrap_or cooldown_until_ms 0)
  else CredOk.
(** [(EXTRACT(EPOCH FROM cooldown_until) * 1000)::BIGINT]: the cast rounds half away from zero. *)
Definition epoch_ms (us : Z) : Z := if 0 <=? us then (us + 500) / 1000 else - ((500 - us) / 1000).
Definition of_pool (tenant : Uuid) (provider : string) (c : Row) : bool :=
  rls tenant c && String.eqb (c_provider c) provider.
(* src/qcue-rs/app-server/src/dispatch/resolver.rs 83-105 pool_for *)
Definition pooled (c : Row) : PooledCredential := {|
  id := c_id c; label := c_label c; priority := c_priority c;
  status := status_from_db (status_text (c_status c)) (epoch_ms <$> c_cooldown c);
  Pool.key_hint := c_hint c; last_error_code := (fun z => z mod 65536) <$> c_error_code c;
  last_error_reason := c_error_reason c; request_count := Z.max (c_requests c) 0 |}.
(* src/qcue-rs/app-server/src/dispatch/resolver.rs 52-108 pool_for *)
Definition pool_for (tenant : Uuid) (provider : string) (t : Table) : result HttpDispatch.ResolveError CredentialPool :=
  match List.filter (of_pool tenant provider) t with
  | [] => Err HttpDispatch.NotFound
  | rows => Ok (pool_new (pooled <$> rows) FillFirst)
  end.

(* src/qcue-rs/app-server/src/dispatch/resolver.rs 112-152 decrypt *)
Definition decrypt `{Aead} (uuid_text : Uuid -> string) (kms : Kms) (tenant cred : Uuid) (t : Table) :
  option (result HttpDispatch.ResolveError string) :=
  match find_first (fun c => rls tenant c && has_id cred c) t with
  | None => Some (Err HttpDispatch.NotFound)
  | Some c =>
      let rejoin := negb (String.eqb (c_tag c) "") || Nat.ltb (String.length (c_ciphertext c)) GCM_TAG_LEN in
      let enc := {| e_ciphertext := if rejoin then c_ciphertext c +:+ c_tag c else c_ciphertext c;
                    e_nonce := c_nonce c; e_dek_wrapped := c_dek_wrapped c |} in
      map_err (fun e => HttpDispatch.Decrypt (secret_error e)) <$> decrypt_with_tenant kms enc (uuid_text tenant)
  end.

(** The seconds of the interval are the milliseconds left divided by a thousand; the division and the
    rounding to microseconds are exact at the sizes a cool-down has. *)
(* src/qcue-rs/app-server/src/dispatch/resolver.rs 184-220 persist_transitions *)
Definition write_status (now_ms now : Z) (tenant i : Uuid) (s : CredStatus) : Table -> Table :=
  match s with
  | CredDead =>
      update_where tenant (fun c => has_id i c && negb (is_status StDead c))
        (fun c => set_state StDead (c_cooldown c) (c_error_code c) (Some now) c)
  | CredExhausted until_ms =>
      update_where tenant (has_id i)
        (fun c => set_state StExhausted (Some (now + Z.max (Int.wrap_i64 (until_ms - now_ms)) 0 * 1000))
                    (c_error_code c) (c_dead_at c) c)
  | CredOk =>
      update_where tenant (fun c => has_id i c && is_status StExhausted c)
        (fun c => set_state StOk None None (c_dead_at c) c)
  end.
(** [now_ms] is read before the transaction begins, [now] is the time of the transaction. *)
(* src/qcue-rs/app-server/src/dispatch/resolver.rs 156-224 persist_transitions *)
Definition persist_transitions (now_ms now : Z) (tenant : Uuid) (provider : string) (pool : CredentialPool)
  (t : Table) : Table :=
  foldl (fun t r => match find_hint pool (c_hint r) with
                    | Some c => write_status now_ms now tenant (c_id r) (status c) t
                    | None => t
                    end)
    t (List.filter (of_pool tenant provider) t).
End Resolver.
Import Resolver.

(** * Properties *)

(** ** The two key-encryption services *)
Section KmsProps.
Lemma xor_legacy (a : ascii) : xor_ascii (xor_ascii a (Str.byte 90)) (Str.byte 90) = a.
Proof. destruct a as [[] [] [] [] [] [] [] []]; reflexivity. Qed.

Lemma legacy_kek (i : nat) : nth (i mod 32) LEGACY_STUB_KEK zero = Str.byte 90.
Proof. apply nth_repeat_lt. by apply Nat.mod_upper_bound. Qed.

Lemma xor_from_involutive (s : string) (i : nat) : xor_from LEGACY_STUB_KEK i (xor_from LEGACY_STUB_KEK i s) = s.
Proof.
  revert i. induction s as [|c s IH]; intros i; [done|].
  cbn [xor_from]. by rewrite legacy_kek, xor_legacy, IH.
Qed.

Lemma length_xor_from (kek : list ascii) (s : string) (i : nat) : String.length (xor_from kek i s) = String.length s.
Proof. revert i. induction s as [|c s IH]; intros i; [done|]. cbn [xor_from String.length]. by rewrite IH. Qed.

#[export] Instance stub_laws : KmsLaws StubKms.
Proof.
  split. intros nonce dek tenant _ _. cbn [unwrap_dek wrap_dek StubKms].
  fold LEGACY_STUB_KEK. by rewrite xor_from_involutive.
Qed.

Context {HA : Aead} {HL : AeadLaws HA}.

#[export] Instance env_laws (kek : string) : KmsLaws (EnvKms kek).
Proof.
  split. intros nonce dek tenant Hn Hd. cbn [unwrap_dek wrap_dek EnvKms]. unfold env_wrap_dek, env_unwrap_dek.
  destruct (encrypt_small kek nonce dek tenant) as [ct Hct]; [unfold P_MAX; rewrite Hd; vm_compute; discriminate|].
  rewrite Hct. cbn [unwrap_or].
  pose proof (encrypt_length _ _ _ _ _ Hct) as Hl.
  assert (Nat.leb (12 + 16) (String.length (nonce +:+ ct)) = true) as ->
    by (rewrite Str.length_app; apply Nat.leb_le; lia).
  rewrite <- Hn, Str.take_app, Str.drop_app. cbn.
  by rewrite (proj2 (decrypt_iff _ _ _ _ _) Hct).
Qed.

(** What a data key wrapped by [StubKms] becomes under [EnvKms]: itself, except where its first byte is
    0x5B; then the wrapped text passes for the new format and is opened as such. *)
Theorem env_reads_stub_keys (kek nonce dek tenant : string) :
  String.length dek = 32%nat ->
  env_unwrap_dek kek (wrap_dek StubKms nonce dek tenant) tenant =
  match dek with
  | String c _ =>
      if Ascii.eqb c (Str.byte 91)
      then let rest := Str.drop 1 (wrap_dek StubKms nonce dek tenant) in
           ok_or (Envelope.decrypt kek (Str.take 12 rest) (Str.drop 12 rest) tenant) KmsUnwrap
      else Ok dek
  | EmptyString => Ok dek
  end.
Proof.
  destruct dek as [|c dek]; [done|]. intros Hd. cbn [wrap_dek StubKms xor_from env_unwrap_dek].
  change (nth (0 mod 32) (repeat (Str.byte 90) 32) zero) with (Str.byte 90). fold LEGACY_STUB_KEK.
  rewrite length_xor_from. cbn [String.length] in Hd. injection Hd as Hd. rewrite Hd. cbn [Nat.leb Nat.add].
  rewrite andb_true_r. cbn [Str.drop].
  assert (Ascii.eqb (xor_ascii c (Str.byte 90)) ENV_WRAP_V1 = Ascii.eqb c (Str.byte 91)) as ->
    by (destruct c as [[] [] [] [] [] [] [] []]; reflexivity).
  destruct (Ascii.eqb _ _); [done|].
  by rewrite legacy_kek, xor_legacy, xor_from_involutive.
Qed.
End KmsProps.

(** ** A stored key opens *)
Section VaultProps.
Context {HA : Aead} {HL : AeadLaws HA} (kms : Kms) {HK : KmsLaws kms}.
Context (uuid_text : Uuid -> string) (kek : string).

Definition draw_ok (d : Draw) : Prop :=
  String.length (d_dek d) = 32%nat /\ String.length (d_nonce d) = 12%nat /\ String.length (d_wrap d) = 12%nat.

Lemma sealed_opens (tenant : Uuid) (key : string) (d : Draw) (s : SealedKey) :
  draw_ok d -> seal_key uuid_text kms kek tenant key d = Ok s ->
  decrypt_with_tenant kms {| e_ciphertext := key_ciphertext s +:+ key_tag s; e_nonce := key_nonce s;
                             e_dek_wrapped := dek_wrapped s |} (uuid_text tenant) = Some (Ok key) /\
  hint s = Sealing.key_hint key /\ kek_id s = kek /\ String.length (key_tag s) = 16%nat.
Proof.
  intros (H1 & H2 & H3) Hs. unfold seal_key, seal_random, key_length_ok in Hs. rewrite H1 in Hs.
  change (Nat.eqb 32 32) with true in Hs. cbn match in Hs.
  destruct (encrypt (d_dek d) (d_nonce d) key (uuid_text tenant)) as [ct|] eqn:Hct; [|done].
  pose proof (encrypt_length _ _ _ _ _ Hct) as Hl.
  assert (Nat.leb GCM_TAG_LEN (String.length ct) = true) as Hb by (apply Nat.leb_le; unfold GCM_TAG_LEN; lia).
  unfold and_then, map_err, e_ciphertext in Hs. cbv zeta in Hs. rewrite Hb in Hs. injection Hs as <-.
  cbn [key_ciphertext key_tag key_nonce dek_wrapped hint kek_id e_nonce e_dek_wrapped].
  rewrite Str.take_drop. split; [|split; [done|split; [done|]]].
  - unfold decrypt_with_tenant. cbn [e_dek_wrapped e_nonce e_ciphertext].
    rewrite unwrap_wrap by done. unfold key_length_ok. rewrite H1, H2. change (Nat.eqb 32 32) with true.
    change (Nat.eqb 12 12) with true. cbn match. by rewrite (proj2 (decrypt_iff _ _ _ _ _) Hct).
  - rewrite Str.length_drop. unfold GCM_TAG_LEN. lia.
Qed.

Definition ids (t : Table) : list Uuid := c_id <$> t.

Lemma find_row (t : Table) (tenant : Uuid) (c : Row) :
  NoDup (ids t) -> c ∈ t -> c_tenant c = tenant ->
  find_first (fun x => rls tenant x && has_id (c_id c) x) t = Some c.
Proof.
  intros Hnd Hc Ht. destruct (find_first _ t) as [x|] eqn:Hf.
  - apply find_first_some in Hf as [Hx Hp]. apply andb_true_iff in Hp as [_ Hi]. apply N.eqb_eq in Hi.
    f_equal. by eapply (nodup_key c_id t).
  - exfalso. pose proof (proj1 (find_first_none _ _) Hf c Hc) as Hn.
    unfold rls, has_id in Hn. by rewrite Ht, !N.eqb_refl in Hn.
Qed.

Lemma ids_update (tx : Uuid) (p : Row -> bool) (f : Row -> Row) (t : Table) :
  (forall c, c_id (f c) = c_id c) -> ids (update_where tx p f t) = ids t.
Proof.
  intros Hf. unfold ids, update_where. rewrite <- list_fmap_compose. apply list_fmap_ext.
  intros i c _. cbn. by destruct (_ && _).
Qed.

Lemma same_key_spec (tenant : Uuid) (provider h : string) (c : Row) :
  same_key tenant provider h c = true <-> c_tenant c = tenant /\ c_provider c = provider /\ c_hint c = h.
Proof. unfold same_key. rewrite !andb_true_iff, N.eqb_eq, !String.eqb_eq. tauto. Qed.

(** What the upsert leaves: the sealed row, found by its id, and every other row. *)
Lemma upsert_key_spec (now : Z) (i tenant j : Uuid) (r : PutKey) (s : SealedKey) (a : Accounts) (t t' : Table) :
  NoDup (ids t) -> upsert_key now i tenant r s a t = Ok (j, t') ->
  exists c, c ∈ t' /\ c_id c = j /\ same_key tenant (pk_provider r) (hint s) c = true /\ c_status c = StOk /\
    c_ciphertext c = key_ciphertext s /\ c_nonce c = key_nonce s /\ c_tag c = key_tag s /\
    c_dek_wrapped c = dek_wrapped s /\ c_cooldown c = None /\
    (forall x, same_key tenant (pk_provider r) (hint s) x = false -> x ∈ t' <-> x ∈ t) /\ NoDup (ids t').
Proof.
  intros Hnd. unfold upsert_key. destruct (has_tenant tenant a); [|done].
  destruct (find_first _ t) as [c|] eqn:Hf.
  - apply find_first_some in Hf as [Hc Hk]. intros [= <- <-]. exists (reseal r s c).
    pose proof (proj1 (same_key_spec _ _ _ _) Hk) as (Ht & Hp & Hh).
    split; [|split; [done|split; [done|repeat (split; [done|])]]].
    + apply list_elem_of_fmap. exists c. split; [|done]. unfold rls. by rewrite Ht, N.eqb_refl, Hk.
    + split; [|rewrite ids_update; done].
      intros x Hx. unfold update_where. rewrite list_elem_of_fmap. split.
      * intros (y & -> & Hy). destruct (rls tenant y && _) eqn:Hb; [|done].
        apply andb_true_iff in Hb as [_ Hb]. exfalso. change (same_key tenant (pk_provider r) (hint s) y = false) in Hx. congruence.
      * intros Hin. exists x. by rewrite Hx, andb_false_r.
  - destruct (existsb (has_id i) t) eqn:He; [done|]. intros [= <- <-]. exists (new_row now i tenant r s).
    repeat (split; [first [done|apply elem_of_app; right; by left|apply same_key_spec; done]|]). split.
    + intros x Hx. rewrite elem_of_app, list_elem_of_singleton. split; [|by left]. intros [?| ->]; [done|].
      exfalso. apply not_true_iff_false in Hx. apply Hx. by apply same_key_spec.
    + unfold ids. rewrite fmap_app. apply NoDup_app. split; [done|]. split; [|apply NoDup_singleton].
      intros x Hx Hx'. apply list_elem_of_singleton in Hx' as ->.
      apply list_elem_of_fmap in Hx as (y & Hy & Hin).
      apply not_true_iff_false in He. apply He. apply existsb_exists. exists y. split; [by apply list_elem_of_In|].
      unfold has_id. apply N.eqb_eq. by rewrite <- Hy.
Qed.

(** C29: a key that was stored opens to itself: after an accepted request the resolver finds, under the
    tenant, provider and hint of the request, a healthy row whose envelope decrypts to the very key; for
    any other tenant the row does not exist, and no other row is touched. *)
Theorem stored_key_opens (now : Z) (ctx : TenantCtx) (r : PutKey) (i : Uuid) (d : Draw) (a a' : Accounts)
  (t t' : Table) (v : Value) :
  draw_ok d -> NoDup (ids t) ->
  put_key uuid_text kms kek now ctx r i d a t = (Ok v, a', t') ->
  exists c, c ∈ t' /\ same_key (ctx_tenant ctx) (pk_provider r) (Sealing.key_hint (pk_key r)) c = true /\
    c_status c = StOk /\
    Resolver.decrypt uuid_text kms (ctx_tenant ctx) (c_id c) t' = Some (Ok (pk_key r)) /\
    (forall tenant, tenant <> ctx_tenant ctx ->
       Resolver.decrypt uuid_text kms tenant (c_id c) t' = Some (Err HttpDispatch.NotFound)) /\
    (forall x, same_key (ctx_tenant ctx) (pk_provider r) (Sealing.key_hint (pk_key r)) x = false ->
       x ∈ t' <-> x ∈ t) /\ NoDup (ids t').
Proof.
  intros Hd Hnd Hput. unfold put_key in Hput.
  destruct (seal_key _ _ _ _ _ _) as [s|e] eqn:Hs; [|done].
  destruct (upsert_key _ _ _ _ _ _ _) as [[j t1]|e] eqn:Hu; [|done].
  assert (t' = t1) as -> by congruence. clear Hput.
  destruct (sealed_opens _ _ _ _ Hd Hs) as (Hopen & Hh & _ & Htag).
  destruct (upsert_key_spec _ _ _ _ _ _ _ _ _ Hnd Hu) as (c & Hc & Hj & Hk & Hst & E1 & E2 & E3 & E4 & _ & Hrest & Hnd').
  rewrite Hh in Hk, Hrest. exists c.
  pose proof (proj1 (same_key_spec _ _ _ _) Hk) as (Ht & _ & _).
  split; [done|]. split; [done|]. split; [done|]. split; [|split; [|done]].
  - unfold Resolver.decrypt. rewrite (find_row t1 _ c) by done. rewrite E1, E2, E3, E4.
    assert (negb (String.eqb (key_tag s) "") = true) as -> by (destruct (key_tag s); done).
    cbn [orb]. by rewrite Hopen.
  - intros tenant Hne. unfold Resolver.decrypt.
    assert (find_first (fun x => rls tenant x && has_id (c_id c) x) t1 = None) as ->; [|done].
    apply find_first_none. intros x Hx. apply not_true_iff_false. intros Hb.
    apply andb_true_iff in Hb as [Hx1 Hx2]. apply N.eqb_eq in Hx1, Hx2. apply Hne.
    rewrite <- Hx1, <- Ht. f_equal. by apply (nodup_key c_id t1).
Qed.
End VaultProps.

(** ** The write-back and the next pool *)
Section WriteBack.
Context (now_ms now : Z) (tenant : Uuid) (provider : string) (pool : CredentialPool).

(** What a status of the pool does to the row of its credential. *)
Definition stamp (s : CredStatus) (c : Row) : Row :=
  match s with
  | CredDead => if is_status StDead c then c else set_state StDead (c_cooldown c) (c_error_code c) (Some now) c
  | CredExhausted u =>
      set_state StExhausted (Some (now + Z.max (Int.wrap_i64 (u - now_ms)) 0 * 1000)) (c_error_code c) (c_dead_at c) c
  | CredOk => if is_status StExhausted c then set_state StOk None None (c_dead_at c) c else c
  end.
Definition stamped (c : Row) : Row :=
  match find_hint pool (c_hint c) with Some p => stamp (status p) c | None => c end.

Lemma stamped_keys (c : Row) :
  c_id (stamped c) = c_id c /\ c_tenant (stamped c) = c_tenant c /\ c_provider (stamped c) = c_provider c /\
  c_hint (stamped c) = c_hint c.
Proof. unfold stamped, stamp. by repeat case_match. Qed.

Lemma write_status_rows (i : Uuid) (s : CredStatus) (t : Table) :
  write_status now_ms now tenant i s t = (fun c => if rls tenant c && has_id i c then stamp s c else c) <$> t.
Proof.
  destruct s; cbn [write_status]; unfold update_where; apply list_fmap_ext; intros k c _; cbn [stamp];
    destruct (rls tenant c), (has_id i c); cbn [andb]; try done; by destruct (is_status _ c).
Qed.

(** One row of the loop, acting on one row of the table. *)
Definition touch (c r : Row) : Row :=
  if rls tenant c && has_id (c_id r) c
  then match find_hint pool (c_hint r) with Some p => stamp (status p) c | None => c end else c.

Lemma persist_touches (l : list Row) (t : Table) :
  foldl (fun t r => match find_hint pool (c_hint r) with
                    | Some c => write_status now_ms now tenant (c_id r) (status c) t
                    | None => t
                    end) t l = (fun c => foldl touch c l) <$> t.
Proof.
  revert t. induction l as [|r l IH]; intros t; cbn [foldl]; [by rewrite list_fmap_id|].
  rewrite IH. destruct (find_hint pool (c_hint r)) as [p|] eqn:Hp.
  - rewrite write_status_rows, <- list_fmap_compose. apply list_fmap_ext. intros i c _. cbn.
    unfold touch at 3. by rewrite Hp.
  - apply list_fmap_ext. intros i c _. unfold touch at 3. rewrite Hp. by destruct (_ && _).
Qed.

Lemma touch_others (c : Row) (l : list Row) :
  (forall r, r ∈ l -> c_id r <> c_id c) -> foldl touch c l = c.
Proof.
  induction l as [|r l IH]; intros Hl; [done|]. cbn [foldl].
  assert (touch c r = c) as ->; [|apply IH; intros x Hx; apply Hl; by right].
  unfold touch, has_id. assert (N.eqb (c_id c) (c_id r) = false) as ->; [|by rewrite andb_false_r].
  apply N.eqb_neq. intros He. apply (Hl r); [by left|done].
Qed.

Lemma persist_rows (t : Table) :
  NoDup (ids t) ->
  persist_transitions now_ms now tenant provider pool t =
  (fun c => if of_pool tenant provider c then stamped c else c) <$> t.
Proof.
  intros Hnd. unfold persist_transitions. rewrite persist_touches. apply list_fmap_ext. intros i c Hc.
  apply list_elem_of_lookup_2 in Hc.
  destruct (of_pool tenant provider c) eqn:Hp.
  - assert (c ∈ List.filter (of_pool tenant provider) t) as Hin
      by (apply list_elem_of_In, filter_In; split; [by apply list_elem_of_In|done]).
    apply list_elem_of_split in Hin as (l1 & l2 & Hl).
    assert (NoDup (ids (l1 ++ c :: l2))) as Hnd'.
    { rewrite <- Hl. clear -Hnd. induction t as [|x t IH]; [done|]. cbn in Hnd. apply NoDup_cons in Hnd as [Hx Hnd].
      cbn [List.filter]. destruct (of_pool _ _ x); [|by apply IH]. cbn. apply NoDup_cons. split; [|by apply IH].
      intros Hin. apply Hx. apply list_elem_of_fmap in Hin as (y & -> & Hy). apply list_elem_of_fmap_2.
      by apply list_elem_of_In, filter_In in Hy as [Hy%list_elem_of_In _]. }
    rewrite Hl. unfold ids in Hnd'. rewrite fmap_app, fmap_cons in Hnd'.
    apply NoDup_app in Hnd' as (_ & Hd & Hn%NoDup_cons). destruct Hn as [Hn _].
    rewrite foldl_app. cbn [foldl]. rewrite (touch_others c l1).
    2: { intros r Hr He. apply (Hd (c_id r)); [by apply list_elem_of_fmap_2|rewrite He; by left]. }
    assert (touch c c = stamped c) as ->.
    { unfold touch, has_id. unfold of_pool in Hp. apply andb_true_iff in Hp as [-> _]. by rewrite N.eqb_refl. }
    destruct (stamped_keys c) as (Hi & _). apply touch_others. intros r Hr He. rewrite Hi in He.
    apply Hn. rewrite <- He. by apply list_elem_of_fmap_2.
  - apply touch_others. intros r Hr He.
    apply list_elem_of_In, filter_In in Hr as [Hr%list_elem_of_In Hr'].
    assert (r = c) as -> by (by apply (nodup_key c_id t)). congruence.
Qed.

Lemma epoch_ms_add (k : Z) : 0 <= now -> 0 <= k -> epoch_ms (now + k * 1000) = epoch_ms now + k.
Proof.
  intros H1 H2. unfold epoch_ms. rewrite !(proj2 (Z.leb_le _ _)) by lia.
  replace (now + k * 1000 + 500) with (now + 500 + k * 1000) by lia. by rewrite Z.div_add.
Qed.

(** The status of a reloaded credential, from the status in the pool that was written back and in the row. *)
Definition merged (c : Row) : CredStatus :=
  match find_hint pool (c_hint c) with
  | None => status (pooled c)
  | Some p =>
      match status p with
      | CredDead => CredDead
      | CredExhausted u => CredExhausted (epoch_ms now + Z.max 0 (u - now_ms))
      | CredOk => match c_status c with StExhausted => CredOk | _ => status (pooled c) end
      end
  end.

Lemma stamped_status (c : Row) :
  0 <= now -> (forall p u, find_hint pool (c_hint c) = Some p -> status p = CredExhausted u -> Int.in_i64 (u - now_ms)) ->
  status (pooled (stamped c)) = merged c.
Proof.
  intros Hnow Hr. unfold stamped, merged. destruct (find_hint pool (c_hint c)) as [p|] eqn:Hp; [|done].
  destruct (status p) as [|u|] eqn:Hs; cbn [stamp].
  - unfold is_status. case_bool_decide as Hc; [by rewrite Hc|by destruct (c_status c)].
  - cbn. rewrite Int.wrap_i64_small by (by eapply Hr). rewrite epoch_ms_add by lia. f_equal. lia.
  - unfold is_status. case_bool_decide as Hc; cbn; by rewrite ?Hc.
Qed.
End WriteBack.

(** What a call writes back is what the next call loads: after [persist_transitions] the pool of the
    provider holds the same credentials in the same order, dead where the pool says dead, cooling for the
    time the pool had left, healed where it says healthy and the row was cooling, unchanged where the pool
    knows nothing; every other row of the table is untouched. *)
Theorem writeback_reloads (now_ms now : Z) (tenant : Uuid) (provider : string) (pool : CredentialPool) (t : Table) :
  NoDup (ids t) -> 0 <= now ->
  (forall h p u, find_hint pool h = Some p -> status p = CredExhausted u -> Int.in_i64 (u - now_ms)) ->
  let t' := persist_transitions now_ms now tenant provider pool t in
  let rows := List.filter (of_pool tenant provider) t in
  (forall c, of_pool tenant provider c = false -> c ∈ t' <-> c ∈ t) /\
  match pool_for tenant provider t' with
  | Ok pool' =>
      (fun e => (id e, Pool.key_hint e, status e)) <$> entries pool' =
      (fun c => (c_id c, c_hint c, merged now_ms now pool c)) <$> rows
  | Err e => e = HttpDispatch.NotFound /\ rows = []
  end.
Proof.
  intros Hnd Hnow Hr. cbv zeta. rewrite persist_rows by done.
  set (F := fun c : Row => if of_pool tenant provider c then stamped now_ms now pool c else c).
  assert (forall c, of_pool tenant provider (F c) = of_pool tenant provider c) as HF.
  { intros c. unfold F. destruct (of_pool tenant provider c) eqn:Hc; [|done].
    destruct (stamped_keys now_ms now pool c) as (_ & H1 & H2 & _). unfold of_pool, rls in *. by rewrite H1, H2. }
  split.
  - intros c Hc. rewrite list_elem_of_fmap. split.
    + intros (y & -> & Hy). rewrite HF in Hc. unfold F. by rewrite Hc.
    + intros Hin. exists c. unfold F. by rewrite Hc.
  - assert (List.filter (of_pool tenant provider) (F <$> t) =
            stamped now_ms now pool <$> List.filter (of_pool tenant provider) t) as Hf.
    { clear Hnd. induction t as [|c t IH]; [done|]. cbn [fmap list_fmap List.filter]. rewrite HF.
      destruct (of_pool tenant provider c) eqn:Hc; [|done]. cbn [fmap list_fmap]. f_equal; [|done].
      unfold F. by rewrite Hc. }
    unfold pool_for. rewrite Hf. destruct (List.filter _ t) as [|c rows]; [done|].
    change (stamped now_ms now pool <$> c :: rows)
      with (stamped now_ms now pool c :: (stamped now_ms now pool <$> rows)).
    cbn match. unfold pool_new. cbn [entries].
    change (stamped now_ms now pool c :: (stamped now_ms now pool <$> rows))
      with (stamped now_ms now pool <$> c :: rows).
    rewrite <- !list_fmap_compose. apply list_fmap_ext. intros i x _.
    destruct (stamped_keys now_ms now pool x) as (H1 & _ & _ & H2).
    cbn [compose]. unfold compose. rewrite (stamped_status now_ms now pool x) by (try done; intros; by eapply Hr).
    cbn. by rewrite H1, H2.
Qed.

(** ** Nothing of a key but its hint leaves the vault *)
Section Secrecy.
Context {HA : Aead} {HL : AeadLaws HA} (uuid_text : Uuid -> string) (json_time : Z -> string).
Context (kms : Kms) (kek : string) (text_le : string -> string -> bool).

(** A row without its envelope. *)
Definition blind (c : Row) : Row :=
  {| c_id := c_id c; c_tenant := c_tenant c; c_provider := c_provider c; c_label := c_label c;
     c_priority := c_priority c; c_ciphertext := ""; c_nonce := ""; c_tag := "";
     c_dek_wrapped := ""; c_kek := ""; c_hint := c_hint c; c_status := c_status c; c_cooldown := c_cooldown c;
     c_error_code := c_error_code c; c_error_reason := c_error_reason c; c_requests := c_requests c;
     c_dead_at := c_dead_at c; c_created := c_created c |}.
Definition alike (t u : Table) : Prop := blind <$> t = blind <$> u.

(** Requests, and what the calls of a model do to the table in between. *)
Inductive Req : Type :=
| Put (now : Z) (ctx : TenantCtx) (r : PutKey) (i : Uuid) (d : Draw)
| List_ (now : Z) (ctx : TenantCtx)
| Delete (ctx : TenantCtx) (i : Uuid)
| Call (now_ms now : Z) (tenant : Uuid) (provider : string) (pool : CredentialPool).

Definition serve (s : Accounts * Table) (r : Req) : option (result Errors.ApiError Value) * (Accounts * Table) :=
  match r with
  | Put now ctx r i d =>
      let '(v, a, t) := put_key uuid_text kms kek now ctx r i d (fst s) (snd s) in (Some v, (a, t))
  | List_ now ctx => let '(v, t) := list_keys uuid_text json_time text_le now ctx (snd s) in (Some v, (fst s, t))
  | Delete ctx i => let '(v, a, t) := delete_key uuid_text ctx i (fst s) (snd s) in (Some v, (a, t))
  | Call now_ms now tenant provider pool =>
      (None, (fst s, persist_transitions now_ms now tenant provider pool (snd s)))
  end.
Fixpoint serve_all (l : list Req) (s : Accounts * Table) :
  list (option (result Errors.ApiError Value)) * (Accounts * Table) :=
  match l with
  | [] => ([], s)
  | r :: l => let '(v, s) := serve s r in let '(vs, s) := serve_all l s in (v :: vs, s)
  end.

(** The same requests, for keys that share their hint. *)
Inductive same_but_keys : Req -> Req -> Prop :=
| SamePut now ctx r r' i d d' :
    pk_provider r = pk_provider r' -> pk_label r = pk_label r' -> pk_priority r = pk_priority r' ->
    Sealing.key_hint (pk_key r) = Sealing.key_hint (pk_key r') ->
    Z.of_nat (String.length (pk_key r)) <= P_MAX -> Z.of_nat (String.length (pk_key r')) <= P_MAX ->
    draw_ok d -> draw_ok d' -> same_but_keys (Put now ctx r i d) (Put now ctx r' i d')
| SameReq r : same_but_keys r r.

Lemma seal_succeeds (tenant : Uuid) (key : string) (d : Draw) :
  draw_ok d -> Z.of_nat (String.length key) <= P_MAX ->
  exists s, seal_key uuid_text kms kek tenant key d = Ok s /\ hint s = Sealing.key_hint key.
Proof.
  intros (H1 & _) Hk. unfold seal_key, seal_random, key_length_ok. rewrite H1. change (Nat.eqb 32 32) with true.
  destruct (encrypt_small (d_dek d) (d_nonce d) key (uuid_text tenant) Hk) as [ct ->].
  cbn match. eexists. split; [reflexivity|done].
Qed.

Lemma find_blind (p : Row -> bool) (t : Table) :
  (forall c, p (blind c) = p c) -> find_first p (blind <$> t) = blind <$> find_first p t.
Proof. intros Hp. induction t as [|c t IH]; [done|]. cbn. rewrite Hp. by destruct (p c). Qed.
Lemma existsb_blind (p : Row -> bool) (t : Table) :
  (forall c, p (blind c) = p c) -> existsb p (blind <$> t) = existsb p t.
Proof. intros Hp. induction t as [|c t IH]; [done|]. cbn. by rewrite Hp, IH. Qed.
Lemma filter_blind (p : Row -> bool) (t : Table) :
  (forall c, p (blind c) = p c) -> List.filter p (blind <$> t) = blind <$> List.filter p t.
Proof. intros Hp. induction t as [|c t IH]; [done|]. cbn. rewrite Hp, IH. by destruct (p c). Qed.

Lemma update_alike (tx : Uuid) (p : Row -> bool) (f g : Row -> Row) (t u : Table) :
  (forall c, p (blind c) = p c) -> (forall c, blind (f c) = blind (g (blind c))) ->
  (forall c, blind (g c) = blind (g (blind c))) -> alike t u ->
  alike (update_where tx p f t) (update_where tx p g u).
Proof.
  intros Hp Hf Hg Ht. unfold alike, update_where in *. rewrite <- !list_fmap_compose.
  transitivity ((fun c => if rls tx c && p c then blind (g c) else c) <$> (blind <$> t)).
  - rewrite <- list_fmap_compose. apply list_fmap_ext. intros i c _. cbn. rewrite Hp.
    change (rls tx (blind c)) with (rls tx c). destruct (_ && _); [apply Hf|done].
  - rewrite Ht, <- list_fmap_compose. apply list_fmap_ext. intros i c _. cbn. rewrite Hp.
    change (rls tx (blind c)) with (rls tx c). destruct (_ && _); [symmetry; apply Hg|done].
Qed.

Lemma upsert_alike (now : Z) (i tenant : Uuid) (r r' : PutKey) (s s' : SealedKey) (a : Accounts) (t u : Table) :
  pk_provider r = pk_provider r' -> pk_label r = pk_label r' -> pk_priority r = pk_priority r' -> hint s = hint s' ->
  alike t u ->
  match upsert_key now i tenant r s a t, upsert_key now i tenant r' s' a u with
  | Ok (j, t'), Ok (j', u') => j = j' /\ alike t' u'
  | Err e, Err e' => e = e'
  | _, _ => False
  end.
Proof.
  intros H1 H2 H3 H4 Ht. unfold upsert_key. destruct (has_tenant tenant a); [|done].
  rewrite <- H1, <- H4. set (p := same_key tenant (pk_provider r) (hint s)).
  assert (forall c, p (blind c) = p c) as Hp by done.
  pose proof (find_blind p t Hp) as F1. pose proof (find_blind p u Hp) as F2. rewrite <- Ht in F2. rewrite F1 in F2.
  destruct (find_first p t) as [c|], (find_first p u) as [c'|]; try done.
  - apply (f_equal (fmap c_id)) in F2. cbn in F2. split; [by injection F2|].
    apply update_alike; [done| | |done]; intros x; unfold blind, reseal; cbn; by rewrite ?H2, ?H3.
  - assert (existsb (has_id i) t = existsb (has_id i) u) as ->.
    { rewrite <- (existsb_blind (has_id i) t), <- (existsb_blind (has_id i) u) by done. by rewrite Ht. }
    destruct (existsb _ u); [done|]. split; [done|]. unfold alike in *. rewrite !fmap_app, Ht. f_equal.
    cbn. unfold blind, new_row. cbn. by rewrite H1, H2, H3, H4.
Qed.

Lemma list_alike (now : Z) (ctx : TenantCtx) (t u : Table) :
  alike t u ->
  fst (list_keys uuid_text json_time text_le now ctx t) = fst (list_keys uuid_text json_time text_le now ctx u) /\
  alike (snd (list_keys uuid_text json_time text_le now ctx t)) (snd (list_keys uuid_text json_time text_le now ctx u)).
Proof.
  intros Ht. assert (alike (heal now (ctx_tenant ctx) t) (heal now (ctx_tenant ctx) u)) as Hh
    by (by apply update_alike).
  split; [|done]. unfold list_keys. cbn [fst]. do 5 f_equal.
  set (T := heal now _ t) in *. set (U := heal now _ u) in *.
  assert (forall l, key_item uuid_text json_time <$> l = key_item uuid_text json_time <$> (blind <$> l)) as Hk
    by (intros l; by rewrite <- list_fmap_compose).
  assert (forall l, blind <$> sort_by (row_le text_le) l = sort_by (row_le text_le) (blind <$> l)) as Hs
    by (intros l; by rewrite sort_by_fmap).
  rewrite (Hk (sort_by _ (List.filter _ T))), (Hk (sort_by _ (List.filter _ U))), !Hs.
  rewrite <- !filter_blind by done. by rewrite Hh.
Qed.

Lemma persist_alike (now_ms now : Z) (tenant : Uuid) (provider : string) (pool : CredentialPool) (t u : Table) :
  alike t u ->
  alike (persist_transitions now_ms now tenant provider pool t) (persist_transitions now_ms now tenant provider pool u).
Proof.
  unfold persist_transitions. intros Ht.
  assert (blind <$> List.filter (of_pool tenant provider) t = blind <$> List.filter (of_pool tenant provider) u) as Hf
    by (rewrite <- !filter_blind by done; by rewrite Ht).
  revert Hf. generalize (List.filter (of_pool tenant provider) u), (List.filter (of_pool tenant provider) t).
  intros lu lt. revert lu t u Ht. induction lt as [|r lt IH]; intros [|r' lu] t u Ht Hf; [done..|].
  cbn in Hf. pose proof (f_equal head Hf) as Hr. pose proof (f_equal tail Hf) as Hl. cbn in Hr, Hl.
  cbn [foldl]. apply IH; [|done]. pose proof (f_equal (fmap c_hint) Hr) as Eh. pose proof (f_equal (fmap c_id) Hr) as Ei.
  cbn in Eh, Ei. injection Eh as ->. injection Ei as ->.
  destruct (find_hint pool (c_hint r')) as [p|]; [|done]. destruct (status p); by apply update_alike.
Qed.

Lemma serve_alike (r r' : Req) (a : Accounts) (t u : Table) :
  same_but_keys r r' -> alike t u ->
  fst (serve (a, t) r) = fst (serve (a, u) r') /\
  fst (snd (serve (a, t) r)) = fst (snd (serve (a, u) r')) /\
  alike (snd (snd (serve (a, t) r))) (snd (snd (serve (a, u) r'))).
Proof.
  intros [now ctx q q' i d d' H1 H2 H3 H4 H5 H6 Hd Hd'|[now ctx q i d|now ctx|ctx i|now_ms now tenant provider pool]] Ht;
    cbn [serve fst snd].
  - unfold put_key. destruct (seal_succeeds (ctx_tenant ctx) _ d Hd H5) as (s & -> & Hs).
    destruct (seal_succeeds (ctx_tenant ctx) _ d' Hd' H6) as (s' & -> & Hs').
    assert (hint s = hint s') as Hh by congruence.
    pose proof (upsert_alike now i (ctx_tenant ctx) q q' s s' a t u H1 H2 H3 Hh Ht) as Hu.
    destruct (upsert_key _ _ _ q s _ _) as [[j t']|e], (upsert_key _ _ _ q' s' _ _) as [[j' u']|e']; try done.
    + destruct Hu as [-> Hu]. cbn [fst snd]. by rewrite H1, H2, Hh.
    + by subst e'.
  - unfold put_key. destruct (seal_key _ _ _ _ _ _) as [s|e]; [|done].
    pose proof (upsert_alike now i (ctx_tenant ctx) q q s s a t u eq_refl eq_refl eq_refl eq_refl Ht) as Hu.
    destruct (upsert_key _ _ _ q s a t) as [[j t']|e], (upsert_key _ _ _ q s a u) as [[j' u']|e']; try done.
    + by destruct Hu as [-> Hu].
    + by subst e'.
  - pose proof (list_alike now ctx t u Ht) as [Hl1 Hl2].
    destruct (list_keys _ _ _ _ _ t), (list_keys _ _ _ _ _ u). cbn in *. by subst.
  - split; [done|]. split; [done|]. unfold delete_key. cbv zeta. cbn [fst snd]. unfold alike in *.
    rewrite <- !filter_blind by done. by rewrite Ht.
  - split; [done|]. split; [done|]. by apply persist_alike.
Qed.

(** C30: nothing of a stored key but its hint leaves the vault: two runs of requests that differ only in
    the keys that are stored (of the same hints) and in the random bytes drawn give the same responses,
    the same audit log and the same table but for the envelopes. *)
Theorem responses_hide_keys (l l' : list Req) (a : Accounts) (t u : Table) :
  Forall2 same_but_keys l l' -> alike t u ->
  fst (serve_all l (a, t)) = fst (serve_all l' (a, u)) /\
  fst (snd (serve_all l (a, t))) = fst (snd (serve_all l' (a, u))) /\
  alike (snd (snd (serve_all l (a, t)))) (snd (snd (serve_all l' (a, u)))).
Proof.
  intros Hl. revert a t u. induction Hl as [|r r' l l' Hr _ IH]; intros a t u Ht; [done|].
  cbn [serve_all]. pose proof (serve_alike r r' a t u Hr Ht) as (E1 & E2 & E3).
  destruct (serve (a, t) r) as [v [a1 t1]], (serve (a, u) r') as [v' [a2 u2]]. cbn [fst snd] in *. subst v' a2.
  specialize (IH a1 t1 u2 E3). destruct (serve_all l (a1, t1)) as [vs [a3 t3]], (serve_all l' (a1, u2)) as [vs' [a4 u4]].
  cbn [fst snd] in *. destruct IH as (-> & -> & IH). done.
Qed.
End Secrecy.

(** ** A concrete cipher, for examples and witnesses *)
(** The message followed by a tag of sixteen characters that depends on everything. *)
Module Toy.
Definition tag (k n m a : string) : string :=
  Limiter.hex_pad 16 (Limiter.fnv Limiter.FNV_OFFSET (Str.join "/" [k; n; m; a])) "".
Lemma length_hex_pad (n : nat) (h : Z) (acc : string) : String.length (Limiter.hex_pad n h acc) = (n + String.length acc)%nat.
Proof. revert h acc. induction n as [|n IH]; intros h acc; cbn; [done|]. rewrite IH. cbn. lia. Qed.
Lemma length_tag (k n m a : string) : String.length (tag k n m a) = 16%nat.
Proof. unfold tag. by rewrite length_hex_pad. Qed.

#[export] Instance toy_aead : Aead := {|
  encrypt := fun k n m a => Some (m +:+ tag k n m a);
  Envelope.decrypt := fun k n c a =>
    let m := Str.take (String.length c - 16) c in if String.eqb c (m +:+ tag k n m a) then Some m else None;
|}.
#[export] Instance toy_laws : AeadLaws toy_aead.
Proof.
  split; cbn [encrypt Envelope.decrypt toy_aead].
  - intros k n m a _. by eexists.
  - intros k n m a c [= <-]. by rewrite Str.length_app, length_tag.
  - intros k n c m a. split.
    + cbv zeta. destruct (String.eqb c _) eqn:E; [|done]. apply String.eqb_eq in E. intros [= <-]. by rewrite <- E.
    + intros [= <-]. rewrite Str.length_app, length_tag, Nat.add_sub, Str.take_app. cbv zeta. by rewrite String.eqb_refl.
Qed.
End Toy.
Import Toy.

Definition demo_ctx : TenantCtx := {| ctx_tenant := 1%N; ctx_user := 2%N; ctx_jti := 3%N; ctx_query := None |}.
Definition demo_accounts : Accounts :=
  {| tenants := [1%N]; users := []; sessions := []; identities := []; audit_log := [] |}.
Definition demo_key (k : string) : PutKey :=
  {| pk_provider := "openai"; pk_label := None; pk_key := k; pk_priority := 0 |}.
Definition demo_draw (c : nat) : Draw :=
  {| d_dek := Str.bytes (repeat c 32); d_nonce := Str.bytes (repeat 34 12)%nat; d_wrap := Str.bytes (repeat 51 12)%nat |}.
Definition demo_text (u : Uuid) : string := if N.eqb u 1 then "tenant-1" else "other".
Definition demo_put (now : Z) (k : string) (i : Uuid) (t : Table) : result Errors.ApiError Value * Accounts * Table :=
  put_key demo_text StubKms "stub-dev" now demo_ctx (demo_key k) i (demo_draw 17) demo_accounts t.
Definition demo_table : Table := snd (demo_put 0 "sk-first-xyz" 7 []).
Lemma demo_draw_ok (c : nat) : draw_ok (demo_draw c).
Proof. done. Qed.

(** Two keys of one provider that end in the same three characters are one row: the second takes the
    place of the first, and is answered with its id. A key of three characters is its own hint. *)
Example tails_collide :
  let '(r, _, t) := demo_put 5 "sk-other-xyz" 8 demo_table in
  is_ok r = true /\ map c_id t = [7%N] /\ map c_created t = [0] /\
  Resolver.decrypt demo_text StubKms 1%N 7%N demo_table = Some (Ok "sk-first-xyz") /\
  Resolver.decrypt demo_text StubKms 1%N 7%N t = Some (Ok "sk-other-xyz") /\
  Sealing.key_hint "xyz" = ellipsis +:+ "xyz".
Proof. vm_compute. repeat split. Qed.

(** A data key whose first byte is 0x5B, wrapped before the master key was set, is lost: the wrapped text
    starts with the version byte. *)
Example stub_key_is_lost :
  let kek := Str.bytes (repeat 9 32)%nat in
  let wrapped c := wrap_dek StubKms "" (Str.bytes (repeat c 32)) "tenant-1" in
  env_unwrap_dek kek (wrapped 90%nat) "tenant-1" = Ok (Str.bytes (repeat 90 32)%nat) /\
  env_unwrap_dek kek (wrapped 91%nat) "tenant-1" = Err KmsUnwrap.
Proof. vm_compute. repeat split. Qed.

(** A pool is written back as a whole, also the credentials the call did not use: a call that loaded its
    pool before another one's write ends that cool-down, and its own rate limit revives a key that died. *)
Example stale_writeback :
  match pool_for 1%N "openai" demo_table with
  | Ok pool =>
      let h := Sealing.key_hint "sk-first-xyz" in
      let limited := fst (mark_exhausted_and_rotate pool 429 None (Some h) 1000) in
      let cooling := persist_transitions 1000 1000000 1%N "openai" limited demo_table in
      let dead := persist_transitions 1000 1000000 1%N "openai" (mark_dead pool h) demo_table in
      map c_status cooling = [StExhausted] /\ map c_status dead = [StDead] /\
      map c_status (persist_transitions 1001 1001000 1%N "openai" pool cooling) = [StOk] /\
      map c_status (persist_transitions 1001 1001000 1%N "openai" limited dead) = [StExhausted]
  | Err _ => False
  end.
Proof. vm_compute. repeat split. Qed.

(** The list puts an end to cool-downs that are over; deleting what is not there is answered and audited. *)
Example list_heals :
  let cool u := map (set_state StExhausted (Some u) None None) demo_table in
  let list := list_keys demo_text (fun _ => "t") (fun _ _ => true) 1000 demo_ctx in
  map c_status (snd (list (cool 1000))) = [StOk] /\ map c_status (snd (list (cool 1001))) = [StExhausted] /\
  let '(r, a, t) := delete_key demo_text demo_ctx 99%N demo_accounts demo_table in
  is_ok r = true /\ t = demo_table.
Proof. vm_compute. repeat split. Qed.

Lemma stored_key_opens_witness :
  exists c, c ∈ demo_table /\ Resolver.decrypt demo_text StubKms 1%N (c_id c) demo_table = Some (Ok "sk-first-xyz").
Proof.
  assert (NoDup (ids [])) as Hnd by constructor.
  destruct (demo_put 0 "sk-first-xyz" 7 []) as [[[v|e] a] t] eqn:E; [|vm_compute in E; discriminate].
  assert (t = demo_table) as -> by (unfold demo_table; by rewrite E).
  destruct (stored_key_opens StubKms demo_text "stub-dev" 0 demo_ctx (demo_key "sk-first-xyz") 7%N (demo_draw 17)
    demo_accounts a [] demo_table v (demo_draw_ok 17) Hnd E) as (c & Hc & _ & _ & Hd & _).
  exists c. split; [exact Hc|exact Hd].
Defined.

Lemma writeback_reloads_witness :
  pool_for 1%N "openai" (persist_transitions 1000 1000000 1%N "openai" (pool_new [] FillFirst) demo_table) <>
  Err HttpDispatch.NotFound.
Proof.
  assert (NoDup (ids demo_table)) as Hnd by (apply (bool_decide_unpack _); vm_compute; exact I).
  assert (0 <= 1000000) as H0 by lia.
  assert (forall h p u, find_hint (pool_new [] FillFirst) h = Some p -> status p = CredExhausted u ->
    Int.in_i64 (u - 1000)) as Hr by (intros h p u Hf; discriminate).
  destruct (writeback_reloads 1000 1000000 1%N "openai" (pool_new [] FillFirst) demo_table Hnd H0 Hr) as [_ Hm].
  intros Hf. rewrite Hf in Hm. destruct Hm as [_ Hm]. revert Hm. vm_compute. discriminate.
Defined.

Lemma responses_hide_keys_witness :
  let run k c := serve_all demo_text (fun _ => "t") StubKms "stub-dev" (fun _ _ => true)
    [Put 0 demo_ctx (demo_key k) 7%N (demo_draw c); List_ 5 demo_ctx] (demo_accounts, []) in
  fst (run "sk-first-xyz" 17%nat) = fst (run "sk-other-xyz" 18%nat).
Proof.
  intros run. assert (Forall2 same_but_keys
    [Put 0 demo_ctx (demo_key "sk-first-xyz") 7%N (demo_draw 17); List_ 5 demo_ctx]
    [Put 0 demo_ctx (demo_key "sk-other-xyz") 7%N (demo_draw 18); List_ 5 demo_ctx]) as Hl.
  { constructor; [|constructor; [constructor|constructor]].
    apply SamePut; first [done|reflexivity|vm_compute; discriminate|apply demo_draw_ok]. }
  exact (proj1 (responses_hide_keys demo_text (fun _ => "t") StubKms "stub-dev" (fun _ _ => true) _ _
    demo_accounts [] [] Hl eq_refl)).
Defined.
