(* ===== verification/Settings.v ===== *)
(** * Settings: the model picker, the dream toggle and the voice provider

    [Kv]: the table [session_kv], of which the settings are the rows of one fixed session. [Catalog]: the
    models a tenant may pick, from [app-server/src/dispatch/mod.rs]. [SttVendors]: the table of
    [router/src/stt_vendors.rs]. [Routes]: the handlers of [app-server/src/settings/routes.rs]. A handler
    runs in the transaction of its tenant; what it returns is its response and the table after commit. *)
From S2P Require Import Prelude RustStr Json Protocol Providers Server Identity Auth.
From stdpp Require Import list.

#[local] Open Scope string_scope.
#[local] Open Scope list_scope.
#[local] Open Scope Z_scope.

(** ** The table [session_kv] *)
Module Kv.
(** [id] and [updated_at] are never read. *)
(* src/qcue-rs/migrations/10002_M1_0002_session_kv.sql 5-14 session_kv *)
Record Row : Type := {
  kv_tenant : Uuid;
  kv_session : Uuid;
  kv_key : string;
  kv_value : Value;
  kv_version : Z;
}.
Abbreviation Table := (list Row).
Definition is_row (tenant session : Uuid) (key : string) (r : Row) : bool :=
  N.eqb (kv_tenant r) tenant && N.eqb (kv_session r) session && String.eqb (kv_key r) key.
(** [SELECT value FROM session_kv WHERE session_id=$1 AND key=$2], under the policy of the table. *)
Definition kv_get (tenant session : Uuid) (key : string) (t : Table) : option Value :=
  kv_value <$> find_first (is_row tenant session key) t.

Definition out_of_range : string := "integer out of range".
(** The upsert of the settings: the version is an [INT]. *)
(* src/qcue-rs/app-server/src/settings/routes.rs 107-117 set_active *)
Definition kv_upsert (tenant session : Uuid) (key : string) (value : Value) (a : Accounts) (t : Table) :
  result Errors.ApiError Table :=
  if has_tenant tenant a then
    match find_first (is_row tenant session key) t with
    | Some r =>
        if Int.i32_max <=? kv_version r then Err (Errors.Db out_of_range)
        else Ok ((fun r => if is_row tenant session key r
                           then {| kv_tenant := kv_tenant r; kv_session := kv_session r; kv_key := kv_key r;
                                   kv_value := value; kv_version := kv_version r + 1 |}
                           else r) <$> t)
    | None =>
        Ok (t ++ [{| kv_tenant := tenant; kv_session := session; kv_key := key; kv_value := value; kv_version := 1 |}])
    end
  else Err (Errors.Db foreign_key_violation).
End Kv.
Import Kv.

(** ** Models *)
Module Catalog.
(* src/qcue-rs/app-server/src/dispatch/mod.rs 83-107 provider_models *)
Definition provider_models (provider : string) : list string :=
  if String.eqb provider "openai" then ["gpt-5.5"; "gpt-5.4-mini"]
  else if String.eqb provider "anthropic" then ["claude-opus-4-8"; "claude-haiku-4-5"]
  else if String.eqb provider "gemini" then ["gemini-3-pro"; "gemini-3-flash"]
  else if String.eqb provider "deepseek" then ["deepseek-v4-pro"; "deepseek-v4-flash"]
  else [].

(** [m.starts_with('o') && m.as_bytes().get(1).is_some_and(u8::is_ascii_digit)] *)
Definition o_series (m : string) : bool :=
  match m with
  | String c (String d _) => Ascii.eqb c "o" && Str.is_ascii_digit d
  | _ => false
  end.
(* src/qcue-rs/app-server/src/dispatch/mod.rs 114-133 is_routable_model *)
Definition is_routable_model (provider model : string) : bool :=
  if existsb (String.eqb model) (provider_models provider) then true
  else
    let m := Str.to_ascii_lowercase model in
    if String.eqb provider "openai" then Str.starts_with "gpt-5" m || Str.starts_with "gpt-4" m || o_series m
    else if String.eqb provider "anthropic" then Str.starts_with "claude-" m
    else if String.eqb provider "gemini" then Str.starts_with "gemini-" m
    else if String.eqb provider "deepseek" then Str.starts_with "deepseek-" m
    else if String.eqb provider "kimi" then Str.starts_with "kimi" m || Str.starts_with "moonshot" m
    else if String.eqb provider "qwen" then Str.starts_with "qwen" m
    else false.

(* src/qcue-rs/app-server/src/dispatch/mod.rs 138-150 provider_display_name *)
Definition provider_display_name (provider : string) : string :=
  if String.eqb provider "openai" then "OpenAI"
  else if String.eqb provider "anthropic" then "Anthropic"
  else if String.eqb provider "deepseek" then "DeepSeek"
  else if String.eqb provider "gemini" then "Google Gemini"
  else if String.eqb provider "kimi" then "Moonshot Kimi"
  else if String.eqb provider "qwen" then "Alibaba Qwen"
  else if String.eqb provider "openrouter" then "OpenRouter"
  else if String.eqb provider "stub" then "the QCue stub harness"
  else provider.

(* src/qcue-rs/app-server/src/dispatch/mod.rs 330-341 parse_effort *)
Definition parse_effort (s : string) : option Effort :=
  let s := Str.to_ascii_lowercase (Str.trim s) in
  if String.eqb s "minimal" then Some Minimal
  else if String.eqb s "low" then Some Low
  else if String.eqb s "medium" then Some Medium
  else if String.eqb s "high" then Some High
  else if String.eqb s "xhigh" then Some XHigh
  else if String.eqb s "max" then Some Max
  else None.
End Catalog.
Import Catalog.

(** ** Vendors of speech-to-text *)
Module SttVendors.
(* src/qcue-rs/router/src/stt_vendors.rs 7-16 SttKind *)
Inductive SttKind : Type := Multipart | ChatAudio | MiniMax.
(* src/qcue-rs/router/src/stt_vendors.rs 18-35 SttVendor *)
Record SttVendor : Type := {
  v_id : string;
  v_kind : SttKind;
  v_base_url : string;
  v_default_model : string;
  v_max_bytes : Z;
  v_max_seconds : Z;
  v_audio_only : bool;
}.
Definition MB : Z := 1024 * 1024.
(* src/qcue-rs/router/src/stt_vendors.rs 47-96 STT_VENDORS *)
Definition STT_VENDORS : list SttVendor := [
  {| v_id := "openai"; v_kind := Multipart; v_base_url := "https://api.openai.com/v1";
     v_default_model := "gpt-4o-mini-transcribe-2025-12-15"; v_max_bytes := 25 * MB; v_max_seconds := 600;
     v_audio_only := false |};
  {| v_id := "groq"; v_kind := Multipart; v_base_url := "https://api.groq.com/openai/v1";
     v_default_model := "whisper-large-v3-turbo"; v_max_bytes := 25 * MB; v_max_seconds := 600;
     v_audio_only := false |};
  {| v_id := "zhipu"; v_kind := Multipart; v_base_url := "https://open.bigmodel.cn/api/paas/v4";
     v_default_model := "glm-asr-2512"; v_max_bytes := 25 * MB; v_max_seconds := 30; v_audio_only := false |};
  {| v_id := "gemini"; v_kind := ChatAudio;
     v_base_url := "https://generativelanguage.googleapis.com/v1beta/openai";
     v_default_model := "gemini-2.5-flash"; v_max_bytes := 20 * MB; v_max_seconds := 540; v_audio_only := false |};
  {| v_id := "qwen"; v_kind := ChatAudio; v_base_url := "https://dashscope.aliyuncs.com/compatible-mode/v1";
     v_default_model := "qwen3-asr-flash"; v_max_bytes := 10 * MB; v_max_seconds := 180; v_audio_only := true |}].

(* src/qcue-rs/router/src/stt_vendors.rs 99-102 stt_vendor *)
Definition stt_vendor (i : string) : option SttVendor :=
  let i := Str.trim i in find_first (fun v => Str.eq_ignore_ascii_case (v_id v) i) STT_VENDORS.
(* src/qcue-rs/router/src/stt_vendors.rs 105-108 is_stt_capable *)
Definition is_stt_capable (provider : string) : bool := opt_is_some (stt_vendor provider).

(* src/qcue-rs/router/src/stt_vendors.rs 110-120 resolve_model *)
Definition resolve_model (vendor : SttVendor) (requested : option string) : string :=
  match opt_filter (fun s => negb (String.eqb s "")) (Str.trim <$> requested) with
  | Some m =>
      if existsb (fun o => negb (String.eqb (v_id o) (v_id vendor)) && String.eqb (v_default_model o) m) STT_VENDORS
      then v_default_model vendor else m
  | None => v_default_model vendor
  end.
End SttVendors.
Import SttVendors.

(** ** The routes *)
Module SettingsRoutes.
(* src/qcue-rs/app-server/src/settings/routes.rs 41-41 SETTINGS_SESSION *)
Definition SETTINGS_SESSION : Uuid := 0%N.
(* src/qcue-rs/app-server/src/settings/routes.rs 123-123 DREAM_KEY *)
Definition DREAM_KEY : string := "settings:server_dream".
(* src/qcue-rs/app-server/src/settings/routes.rs 173-173 STT_PROVIDER_KEY *)
Definition STT_PROVIDER_KEY : string := "settings:stt_provider".
Definition model_key (provider : string) : string := "model:" +:+ provider.
Definition get_setting (ctx : TenantCtx) (key : string) (t : Table) : option Value :=
  kv_get (ctx_tenant ctx) SETTINGS_SESSION key t.
Definition put_setting (ctx : TenantCtx) (key : string) (value : Value) (a : Accounts) (t : Table) :
  result Errors.ApiError Table :=
  kv_upsert (ctx_tenant ctx) SETTINGS_SESSION key value a t.

(* src/qcue-rs/app-server/src/settings/routes.rs 52-60 list_models *)
Definition list_models (provider : string) : result Errors.ApiError Value :=
  Ok (obj [("models", Array (String_ <$> provider_models provider))]).
(* src/qcue-rs/app-server/src/settings/routes.rs 64-82 get_active *)
Definition get_active (ctx : TenantCtx) (provider : string) (t : Table) : result Errors.ApiError Value :=
  match get_setting ctx (model_key provider) t ≫= get_str "model" with
  | Some m => Ok (obj [("model", String_ m)])
  | None => Err Errors.NotFound
  end.
(* src/qcue-rs/app-server/src/settings/routes.rs 93-120 set_active *)
Definition set_active (ctx : TenantCtx) (provider model : string) (a : Accounts) (t : Table) :
  result Errors.ApiError Value * Table :=
  if is_routable_model provider model then
    match put_setting ctx (model_key provider) (obj [("model", String_ model)]) a t with
    | Ok t => (Ok (obj [("model", String_ model)]), t)
    | Err e => (Err e, t)
    end
  else (Err (Errors.BadRequest ("unknown model '" +:+ model +:+ "' for provider '" +:+ provider +:+ "'")), t).

(* src/qcue-rs/app-server/src/settings/routes.rs 128-141 get_dream *)
Definition get_dream (ctx : TenantCtx) (t : Table) : result Errors.ApiError Value :=
  let enabled := unwrap_or (v ← get_setting ctx DREAM_KEY t; b ← get "enabled" v; as_bool b) false in
  Ok (obj [("enabled", Bool enabled)]).
(* src/qcue-rs/app-server/src/settings/routes.rs 151-169 set_dream *)
Definition set_dream (ctx : TenantCtx) (enabled : bool) (a : Accounts) (t : Table) :
  result Errors.ApiError Value * Table :=
  match put_setting ctx DREAM_KEY (obj [("enabled", Bool enabled)]) a t with
  | Ok t => (Ok (obj [("enabled", Bool enabled)]), t)
  | Err e => (Err e, t)
  end.

(* src/qcue-rs/app-server/src/settings/routes.rs 178-188 get_stt_provider *)
Definition get_stt_provider (ctx : TenantCtx) (t : Table) : result Errors.ApiError Value :=
  Ok (obj [("provider", match get_setting ctx STT_PROVIDER_KEY t ≫= get_str "provider" with
                        | Some p => String_ p
                        | None => Null
                        end)]).
(* src/qcue-rs/app-server/src/settings/routes.rs 199-224 set_stt_provider *)
Definition set_stt_provider (ctx : TenantCtx) (provider : string) (a : Accounts) (t : Table) :
  result Errors.ApiError Value * Table :=
  let p := Str.trim provider in
  if negb (String.eqb p "auto") && negb (is_stt_capable p)
  then (Err (Errors.BadRequest ("'" +:+ p +:+ "' does not support voice transcription")), t)
  else
    match put_setting ctx STT_PROVIDER_KEY (obj [("provider", String_ p)]) a t with
    | Ok t => (Ok (obj [("provider", String_ p)]), t)
    | Err e => (Err e, t)
    end.
End SettingsRoutes.
Import SettingsRoutes.

(** * Properties *)
Section KvProps.
Lemma is_row_spec (tenant session : Uuid) (key : string) (r : Row) :
  is_row tenant session key r = true <-> kv_tenant r = tenant /\ kv_session r = session /\ kv_key r = key.
Proof. unfold is_row. rewrite !andb_true_iff, !N.eqb_eq, String.eqb_eq. tauto. Qed.

Lemma is_row_distinct (t1 s1 t2 s2 : Uuid) (k1 k2 : string) (r : Row) :
  (t1, s1, k1) <> (t2, s2, k2) -> is_row t1 s1 k1 r = true -> is_row t2 s2 k2 r = false.
Proof.
  intros Hne H1. apply not_true_iff_false. intros H2.
  apply is_row_spec in H1 as (<- & <- & <-), H2 as (<- & <- & <-). done.
Qed.

(** A setting written is the setting read, by its tenant, session and key; all others read as before. *)
Theorem kv_upsert_get (tenant session t2 s2 : Uuid) (key k2 : string) (v : Value) (a : Accounts) (t t' : Table) :
  kv_upsert tenant session key v a t = Ok t' ->
  kv_get t2 s2 k2 t' = if bool_decide ((t2, s2, k2) = (tenant, session, key)) then Some v else kv_get t2 s2 k2 t.
Proof.
  unfold kv_upsert. destruct (has_tenant tenant a); [|done].
  destruct (find_first _ t) as [r|] eqn:Hf.
  - destruct (_ <=? _); [done|]. intros [= <-]. unfold kv_get. case_bool_decide as He.
    + injection He as -> -> ->. clear -Hf. induction t as [|x t IH]; [done|]. cbn in *.
      destruct (is_row tenant session key x) eqn:Hx; [|rewrite Hx; by apply IH].
      cbn. unfold is_row in *. cbn. by rewrite Hx.
    + clear Hf. induction t as [|x t IH]; [done|]. cbn.
      destruct (is_row tenant session key x) eqn:Hx; cbn; [|by destruct (is_row t2 s2 k2 x)].
      pose proof (is_row_distinct tenant session t2 s2 key k2 x (fun E => He (eq_sym E)) Hx) as Hn.
      unfold is_row in *. cbn. rewrite Hn. apply IH.
  - intros [= <-]. unfold kv_get. rewrite find_first_app. case_bool_decide as He.
    + injection He as -> -> ->. rewrite Hf. cbn. unfold is_row. cbn. by rewrite !N.eqb_refl, String.eqb_refl.
    + destruct (find_first (is_row t2 s2 k2) t); [done|]. cbn. destruct (is_row t2 s2 k2 _) eqn:Hr; [|done].
      apply is_row_spec in Hr as (<- & <- & <-). done.
Qed.
End KvProps.

(** The pick of a model is accepted exactly if it can be routed (and the tenant exists), and is then the
    pick that is read; a refused pick changes nothing. *)
Theorem active_model_roundtrip (ctx : TenantCtx) (provider model : string) (a : Accounts) (t : Table) :
  match set_active ctx provider model a t with
  | (Ok v, t') =>
      is_routable_model provider model = true /\ get_active ctx provider t' = Ok v /\
      (forall p, p <> provider -> get_active ctx p t' = get_active ctx p t)
  | (Err _, t') => t' = t
  end.
Proof.
  unfold set_active. destruct (is_routable_model provider model); [|done].
  destruct (put_setting _ _ _ _ _) as [t'|e] eqn:Hp; [|done]. split; [done|].
  unfold put_setting in Hp. split.
  - unfold get_active, get_setting. rewrite (kv_upsert_get _ _ _ _ _ _ _ _ _ _ Hp). by rewrite bool_decide_true.
  - intros p Hne. unfold get_active, get_setting. rewrite (kv_upsert_get _ _ _ _ _ _ _ _ _ _ Hp).
    rewrite bool_decide_false; [done|]. intros [= E]. by apply Hne.
Qed.

(** The first model of a catalog can always be routed, and so can all of it. *)
Theorem catalog_is_routable (provider model : string) :
  In model (provider_models provider) -> is_routable_model provider model = true.
Proof.
  intros Hin. unfold is_routable_model.
  assert (existsb (String.eqb model) (provider_models provider) = true) as ->; [|done].
  apply existsb_exists. exists model. split; [done|]. apply String.eqb_refl.
Qed.

Example routable_of_the_tests :
  is_routable_model "openai" "gpt-5.5-pro" = true /\ is_routable_model "openai" "o3" = true /\
  is_routable_model "anthropic" "claude-opus-4-9" = true /\ is_routable_model "openai" "totally-made-up" = false /\
  is_routable_model "no-such-provider" "gpt-5.5" = false /\
  map parse_effort ["XHIGH"; " max "; "turbo"; ""] = [Some XHigh; Some Max; None; None] /\
  is_stt_capable " OpenAI " = true /\ is_stt_capable "deepseek" = false.
Proof. vm_compute. repeat split. Qed.
