(* ===== verification/Speech.v ===== *)
(** * Voice transcription

    [Audio]: the container sniffing of [router/src/stt_openai.rs]. [Wires]: the three families of
    requests ([stt_openai.rs], [stt_chat_audio.rs], [stt_minimax.rs]) over an opaque network. [SttRouter]:
    [router/src/stt.rs], the size limit and the chain. [Transcriber]: [app-server/src/transcribe/mod.rs],
    which picks the vendor of a tenant and opens its key, and the routes of [transcribe/routes.rs]. Audio
    is a string of bytes; base64 is a parameter; the failures of the database driver are left out. *)
From S2P Require Import Prelude RustStr Json Protocol Streams Server Cost Identity Auth Vault Settings.
From stdpp Require Import list pretty.

#[local] Open Scope string_scope.
#[local] Open Scope list_scope.
#[local] Open Scope Z_scope.

(* src/qcue-rs/protocol/src/transcription.rs 7-12 TranscriptionResult *)
Record TranscriptionResult : Type := {
  success : bool;
  transcript : string;
  tr_error : option string;
  tr_provider : string;
}.
Definition failed (provider msg : string) : TranscriptionResult :=
  {| success := false; transcript := ""; tr_error := Some msg; tr_provider := provider |}.
Definition transcribed (provider text : string) : TranscriptionResult :=
  {| success := true; transcript := text; tr_error := None; tr_provider := provider |}.

(** ** Containers *)
Module Audio.
(* src/qcue-rs/router/src/stt_openai.rs 66-73 AudioFormat *)
Record AudioFormat : Type := { fmt_kind : string; file_name : string; mime : string }.
Definition format (kind m : string) : AudioFormat :=
  {| fmt_kind := kind; file_name := "audio." +:+ kind; mime := m |}.
(* src/qcue-rs/router/src/stt_openai.rs 75-78 AUDIO_M4A *)
Definition AUDIO_M4A : AudioFormat := format "m4a" "audio/mp4".

(** [0xFF], then a byte with its three upper bits set. *)
Definition frame_sync (b : string) : bool :=
  match b with
  | String c (String d _) => Nat.eqb (nat_of_ascii c) 255 && Nat.leb 224 (nat_of_ascii d)
  | _ => false
  end.
(* src/qcue-rs/router/src/stt_openai.rs 85-125 detect_audio_format *)
Definition detect_audio_format (b : string) : AudioFormat :=
  let long := Nat.leb 12 (String.length b) in
  if long && String.eqb (Str.slice 4 8 b) "ftyp" then
    if Str.eq_ignore_ascii_case (Str.slice 8 10 b) "3g" then format "3gp" "audio/3gpp" else AUDIO_M4A
  else if long && String.eqb (Str.slice 0 4 b) "RIFF" && String.eqb (Str.slice 8 12 b) "WAVE"
  then format "wav" "audio/wav"
  else if Str.starts_with "OggS" b then format "ogg" "audio/ogg"
  else if Str.starts_with (Str.bytes [26; 69; 223; 163]%nat) b then format "webm" "audio/webm"
  else if Str.starts_with "fLaC" b then format "flac" "audio/flac"
  else if Str.starts_with "caff" b then format "caf" "audio/x-caf"
  else if Str.starts_with "#!AMR" b then format "amr" "audio/amr"
  else if Str.starts_with "ID3" b || frame_sync b then format "mp3" "audio/mpeg"
  else AUDIO_M4A.

(* src/qcue-rs/router/src/stt_openai.rs 127-136 audio_head_hex *)
Definition audio_head_hex (b : string) (n : nat) : string :=
  Str.join "" ((fun c => Limiter.hex_pad 2 (Z.of_nat (nat_of_ascii c)) "") <$> String.list_ascii_of_string (Str.take n b)).
End Audio.
Import Audio.

(** ** The wires *)
(** A request: the bearer, the query, and a form (a file among its fields) or a JSON body. *)
Inductive Payload : Type :=
| Form (fields : list (string * string)) (file : AudioFormat * string)
| JsonBody (body : Value).
Record Post : Type := { p_url : string; p_query : list (string * string); p_bearer : string; p_payload : Payload }.

Module Wires.
Section Wires.
Context `{Json} {W : Type}.
(** [send] and [text]: the status and the body, empty when it cannot be read. *)
Context (send : Post -> W -> result string (Z * string) * W).
Context (base64 : string -> string).

Definition is_success (status : Z) : bool := (200 <=? status) && (status <? 300).
Definition nonempty (o : option string) : option string := opt_filter (fun s => negb (String.eqb s "")) o.

(** The needles are ASCII and hold no letter that another character lower-cases to. *)
Definition unreadable (status : Z) (body : string) : bool :=
  let lower := Str.to_ascii_lowercase body in
  (status =? 400) && (Str.contains "corrupt" lower || Str.contains "unsupported" lower).
Definition unreadable_text (audio : string) : string :=
  "the recording couldn't be read by the speech service (" +:+ pretty (String.length audio) +:+ " bytes, detected "
  +:+ fmt_kind (detect_audio_format audio) +:+ "). It was likely too short or didn't finish recording — hold the mic and speak for at least a second, then try again.".

(* src/qcue-rs/router/src/stt_openai.rs 147-209 transcribe *)
Definition openai_transcribe (key base_url default_model name audio : string) (model language : option string) (w : W) :
  TranscriptionResult * W :=
  let model := unwrap_or model default_model in
  let fields := ("model", model) :: match nonempty language with Some l => [("language", l)] | None => [] end in
  let '(r, w) := send {| p_url := base_url +:+ "/audio/transcriptions"; p_query := []; p_bearer := key;
                         p_payload := Form fields (detect_audio_format audio, audio) |} w in
  (match r with
   | Err e => failed name (name +:+ " stt transport: " +:+ e)
   | Ok (status, body) =>
       if negb (is_success status) then
         if unreadable status body then failed name (unreadable_text audio)
         else failed name (name +:+ " stt " +:+ pretty status +:+ ": " +:+ body)
       else
         match from_str body with
         | Ok v => transcribed name (Str.trim (unwrap_or (get_str "text" v) ""))
         | Err e => failed name (name +:+ " stt decode: " +:+ e)
         end
   end, w).

(* src/qcue-rs/router/src/stt_chat_audio.rs 72-92 transcribe *)
Definition chat_audio_body (model audio : string) (audio_only : bool) (language : option string) : Value :=
  let fmt := detect_audio_format audio in
  let data_url := "data:" +:+ mime fmt +:+ ";base64," +:+ base64 audio in
  let part := obj [("type", String_ "input_audio");
                   ("input_audio", obj [("data", String_ data_url); ("format", String_ (fmt_kind fmt))])] in
  let hint := match nonempty language with
              | Some l => " The spoken language is " +:+ l +:+ "."
              | None => ""
              end in
  let instruction := obj [("type", String_ "text");
    ("text", String_ ("Transcribe this audio verbatim. Return only the transcript text, no commentary." +:+ hint))] in
  obj [("model", String_ model);
       ("messages", Array [obj [("role", String_ "user");
                                ("content", Array (part :: if audio_only then [] else [instruction]))]])].
(* src/qcue-rs/router/src/stt_chat_audio.rs 66-125 transcribe *)
Definition chat_audio_transcribe (key base_url default_model name : string) (audio_only : bool) (audio : string)
  (model language : option string) (w : W) : TranscriptionResult * W :=
  let body := chat_audio_body (unwrap_or model default_model) audio audio_only language in
  let '(r, w) := send {| p_url := Str.trim_end_matches ["/"] base_url +:+ "/chat/completions"; p_query := [];
                         p_bearer := key; p_payload := JsonBody body |} w in
  (match r with
   | Err e => failed name (name +:+ " stt transport: " +:+ e)
   | Ok (status, text) =>
       if negb (is_success status) then failed name (name +:+ " stt " +:+ pretty status +:+ ": " +:+ text)
       else
         match from_str text with
         | Ok v =>
             let content := c ← get "choices" v; c ← get_at 0 c; pointer ["message"; "content"] c in
             let t := Str.trim (unwrap_or (content ≫= as_str) "") in
             if String.eqb t "" then failed name (name +:+ " stt returned an empty transcript") else transcribed name t
         | Err e => failed name (name +:+ " stt decode: " +:+ e)
         end
   end, w).

(* src/qcue-rs/router/src/stt_minimax.rs 57-121 transcribe *)
Definition minimax_transcribe (secret_blob base_url default_model audio : string) (model : option string) (w : W) :
  TranscriptionResult * W :=
  let name := "minimax" in
  let creds := match from_str secret_blob with Ok v => v | Err _ => obj [("api_key", String_ secret_blob)] end in
  let api_key := unwrap_or (get_str "api_key" creds) "" in
  let group_id := unwrap_or (get_str "group_id" creds) "" in
  if String.eqb api_key "" then (failed name "minimax: missing api_key in stored credential", w)
  else if String.eqb group_id ""
  then (failed name "minimax: missing GroupId — re-add your MiniMax key with its GroupId in Settings", w)
  else
    let m := unwrap_or model default_model in
    let body := obj ([("audio", String_ (base64 audio)); ("format", String_ (fmt_kind (detect_audio_format audio)))]
                     ++ if String.eqb m "" then [] else [("model", String_ m)]) in
    let '(r, w) := send {| p_url := Str.trim_end_matches ["/"] base_url +:+ "/audio/transcriptions";
                           p_query := [("GroupId", group_id)]; p_bearer := api_key; p_payload := JsonBody body |} w in
    (match r with
     | Err e => failed name ("minimax stt transport: " +:+ e)
     | Ok (status, text) =>
         if negb (is_success status) then failed name ("minimax stt " +:+ pretty status +:+ ": " +:+ text)
         else
           match from_str text with
           | Ok v =>
               let t := Str.trim (unwrap_or (get_str "text" v) "") in
               if String.eqb t "" then failed name "minimax stt returned an empty transcript" else transcribed name t
           | Err e => failed name ("minimax stt decode: " +:+ e)
           end
     end, w).
End Wires.
End Wires.
Import Wires.

(** ** The chain *)
Module SttRouter.
(** [dyn TranscriptionProvider]. *)
(* src/qcue-rs/router/src/stt.rs 5-21 TranscriptionProvider *)
Record Provider (W : Type) : Type := {
  is_available : bool;
  call : string -> option string -> option string -> W -> TranscriptionResult * W;
}.
Arguments is_available {W}. Arguments call {W}.

Section Chain.
Context {W : Type}.
Fixpoint chain (ps : list (Provider W)) (audio : string) (model language : option string) (last : TranscriptionResult)
  (w : W) : TranscriptionResult * W :=
  match ps with
  | [] => (last, w)
  | p :: ps =>
      if negb (is_available p) then chain ps audio model language last w
      else
        let '(r, w) := call p audio model language w in
        if success r then (r, w) else chain ps audio model language r w
  end.
(* src/qcue-rs/router/src/stt.rs 49-84 transcribe *)
Definition stt_transcribe (ps : list (Provider W)) (max_bytes : Z) (audio : string) (model language : option string)
  (w : W) : TranscriptionResult * W :=
  let n := Z.of_nat (String.length audio) in
  if max_bytes <? n
  then (failed "router" ("audio constraint violated: " +:+ pretty n +:+ " > " +:+ pretty max_bytes +:+ " bytes"), w)
  else chain ps audio model language (failed "router" "no STT provider configured") w.
End Chain.
End SttRouter.
Import SttRouter.

(** ** The transcriber of a tenant *)
Module Transcriber.
(* src/qcue-rs/app-server/src/transcribe/mod.rs 38-62 StubTranscriber *)
Definition stub_transcribe (text : string) : TranscriptionResult := transcribed "stub" text.

Section Selection.
Context `{Envelope.Aead} (uuid_text : Uuid -> string) (kms : Envelope.Kms).
(** [ORDER BY provider]: the order of the database's collation. *)
Context (text_le : string -> string -> bool).

(** The plaintext as text, empty when it is not UTF-8. *)
(* src/qcue-rs/app-server/src/vault/secrets.rs 30-32 as_str *)
Definition as_utf8 (b : string) : string := if String.eqb (Utf8.from_utf8_lossy b) b then b else "".

Definition live_row (tenant : Uuid) (c : Creds.Row) : bool := Creds.rls tenant c && negb (Creds.is_status Creds.StDead c).
(** [ORDER BY (status = 'ok') DESC, priority] *)
Definition key_le (x y : Creds.Row) : bool :=
  let ok c := Creds.is_status Creds.StOk c in
  (ok x && negb (ok y)) || (Bool.eqb (ok x) (ok y) && (Creds.c_priority x <=? Creds.c_priority y)).
Definition best_row (tenant : Uuid) (provider : string) (t : Creds.Table) : option Creds.Row :=
  head (sort_by key_le (List.filter (fun c => live_row tenant c && String.eqb (Creds.c_provider c) provider) t)).
(** The outer [None]: the panic on a nonce of the wrong length. *)
(* src/qcue-rs/app-server/src/transcribe/mod.rs 90-117 open_key *)
Definition open_key (tenant : Uuid) (provider : string) (t : Creds.Table) : option (option string) :=
  match best_row tenant provider t with
  | None => Some None
  | Some c =>
      result_ok <$> Sealing.open_key uuid_text kms tenant
        {| Sealing.key_ciphertext := Creds.c_ciphertext c; Sealing.key_nonce := Creds.c_nonce c;
           Sealing.key_tag := Creds.c_tag c; Sealing.dek_wrapped := Creds.c_dek_wrapped c;
           Sealing.kek_id := Creds.c_kek c; Sealing.hint := Creds.c_hint c |}
  end.

(** [GROUP BY provider ORDER BY MIN(priority), provider] over the rows that are not dead. *)
Definition min_priority (rows : list Creds.Row) (p : string) : Z :=
  let mine := List.filter (fun c => String.eqb (Creds.c_provider c) p) rows in
  match Creds.c_priority <$> mine with [] => 0 | z :: l => foldr Z.min z l end.
Definition group_le (rows : list Creds.Row) (p q : string) : bool :=
  (min_priority rows p <? min_priority rows q) ||
  ((min_priority rows p =? min_priority rows q) && text_le p q).
(* src/qcue-rs/app-server/src/transcribe/mod.rs 120-142 configured_providers *)
Definition configured_providers (tenant : Uuid) (t : Creds.Table) : list string :=
  let rows := List.filter (live_row tenant) t in
  sort_by (group_le rows) (remove_dups (Creds.c_provider <$> rows)).

(** A failed read of the setting is an error of its own in the source; here reads succeed. *)
(* src/qcue-rs/app-server/src/transcribe/mod.rs 148-172 explicit_setting *)
Definition explicit_setting (tenant : Uuid) (kv : Kv.Table) : option string :=
  opt_filter (fun s => negb (String.eqb s "") && negb (String.eqb s "auto"))
    (Str.trim <$> (Kv.kv_get tenant SettingsRoutes.SETTINGS_SESSION SettingsRoutes.STT_PROVIDER_KEY kv ≫= get_str "provider")).

Definition no_stt_provider : string :=
  "no speech-to-text provider configured — add a key for OpenAI, Groq, Zhipu, Gemini, or Qwen in Settings to use voice".
(* src/qcue-rs/app-server/src/transcribe/mod.rs 176-192 resolve_vendor *)
Definition resolve_vendor (tenant : Uuid) (kv : Kv.Table) (t : Creds.Table) : result string SttVendors.SttVendor :=
  match explicit_setting tenant kv with
  | Some sel =>
      ok_or (SttVendors.stt_vendor sel)
        (sel +:+ " doesn't support voice transcription — pick an STT-capable provider in Settings")
  | None => ok_or (head (omap SttVendors.stt_vendor (configured_providers tenant t))) no_stt_provider
  end.
End Selection.

Section Transcribe.
Context `{Envelope.Aead} `{Json} (uuid_text : Uuid -> string) (kms : Envelope.Kms) (text_le : string -> string -> bool).
Context {W : Type} (send : Post -> W -> result string (Z * string) * W) (base64 : string -> string).
(** [QCUE_OPENAI_TRANSCRIBE_MODEL], trimmed, if not empty. *)
Context (openai_model_override : option string).

(* src/qcue-rs/app-server/src/transcribe/mod.rs 195-242 build_provider *)
Definition build_provider (v : SttVendors.SttVendor) (key : string) : SttRouter.Provider W := {|
  SttRouter.is_available := true;
  SttRouter.call := fun audio model language w =>
    match SttVendors.v_kind v with
    | SttVendors.Multipart =>
        let m := if String.eqb (SttVendors.v_id v) "openai"
                 then unwrap_or openai_model_override (SttVendors.v_default_model v)
                 else SttVendors.v_default_model v in
        openai_transcribe send key (SttVendors.v_base_url v) m (SttVendors.v_id v) audio model language w
    | SttVendors.ChatAudio =>
        chat_audio_transcribe send base64 key (SttVendors.v_base_url v) (SttVendors.v_default_model v)
          (SttVendors.v_id v) (SttVendors.v_audio_only v) audio model language w
    | SttVendors.MiniMax =>
        minimax_transcribe send base64 key (SttVendors.v_base_url v) (SttVendors.v_default_model v) audio model w
    end |}.

(* src/qcue-rs/app-server/src/transcribe/mod.rs 247-283 transcribe *)
Definition routed_transcribe (tenant : Uuid) (kv : Kv.Table) (t : Creds.Table) (audio : string)
  (model language : option string) (w : W) : option (TranscriptionResult * W) :=
  match resolve_vendor text_le tenant kv t with
  | Err reason => Some (failed "router" reason, w)
  | Ok v =>
      key ← open_key uuid_text kms tenant (SttVendors.v_id v) t;
      match key with
      | None =>
          Some (failed (SttVendors.v_id v)
                  ("no usable " +:+ SttVendors.v_id v +:+ " key — check your key in Settings"), w)
      | Some key =>
          let model := (fun m => SttVendors.resolve_model v (Some m)) <$> model in
          Some (stt_transcribe [build_provider v (as_utf8 key)] (SttVendors.v_max_bytes v) audio model language w)
      end
  end.

(** *** The routes *)
Definition opt_str (o : option string) : Value := match o with Some s => String_ s | None => Null end.
(* src/qcue-rs/app-server/src/transcribe/routes.rs 31-61 list_stt_providers *)
Definition list_stt_providers (ctx : TenantCtx) (kv : Kv.Table) (t : Creds.Table) : result Errors.ApiError Value :=
  let available := List.filter SttVendors.is_stt_capable (configured_providers text_le (ctx_tenant ctx) t) in
  let sel := Kv.kv_get (ctx_tenant ctx) SettingsRoutes.SETTINGS_SESSION SettingsRoutes.STT_PROVIDER_KEY kv in
  let selected := opt_filter (fun s => negb (String.eqb s "auto")) (sel ≫= get_str "provider") in
  Ok (obj [("selected", opt_str selected); ("available", Array (String_ <$> available));
           ("all_capable", Array ((fun v => String_ (SttVendors.v_id v)) <$> SttVendors.STT_VENDORS))]).

(* src/qcue-rs/app-server/src/transcribe/routes.rs 63-71 TranscribeReq *)
Record TranscribeReq : Type := { tq_audio_b64 : string; tq_language : option string; tq_model : option string }.
(** The check of the ceiling reads the ledger of [today]; a failed read lets the call pass. *)
(* src/qcue-rs/app-server/src/transcribe/routes.rs 73-122 transcribe *)
Definition transcribe (base64_decode : string -> option string) (today : Z) (ctx : TenantCtx) (req : TranscribeReq)
  (ledger : Ledger.CostDb) (kv : Kv.Table) (t : Creds.Table) (w : W) : option (result Errors.ApiError Value * W) :=
  match Ledger.check_ceiling today (ctx_tenant ctx) (ctx_user ctx) ledger with
  | Ok (Err _) => Some (Err Errors.CostCap, w)
  | _ =>
      match base64_decode (tq_audio_b64 req) with
      | None => Some (Err (Errors.BadRequest "audio_b64 is not valid base64"), w)
      | Some audio =>
          if String.eqb audio "" then Some (Err (Errors.BadRequest "empty audio"), w)
          else
            x ← routed_transcribe (ctx_tenant ctx) kv t audio (tq_model req) (tq_language req) w;
            let '(r, w) := x in
            Some (Ok (obj [("transcript", String_ (transcript r)); ("provider", String_ (tr_provider r));
                           ("success", Bool (success r)); ("error", opt_str (tr_error r))]), w)
      end
  end.
End Transcribe.
End Transcriber.
Import Transcriber.

(** * Properties *)
Section SpeechProps.
Context {HA : Envelope.Aead} {HJ : Json} (uuid_text : Uuid -> string) (kms : Envelope.Kms).
Context (text_le : string -> string -> bool).
Context {W : Type} (send : Post -> W -> result string (Z * string) * W) (base64 : string -> string).
Context (openai_model_override : option string).

(** The network with a record of the requests. *)
Definition logged (p : Post) (s : W * list Post) : result string (Z * string) * (W * list Post) :=
  let '(r, w) := send p (fst s) in (r, (w, snd s ++ [p])).

(** The envelope of a result: a text, or an error without one. *)
Definition enveloped (r : TranscriptionResult) : Prop :=
  (success r = true /\ tr_error r = None) \/ (success r = false /\ transcript r = "" /\ tr_error r <> None).
Lemma enveloped_failed (p m : string) : enveloped (failed p m).
Proof. by right. Qed.
Lemma enveloped_transcribed (p t : string) : enveloped (transcribed p t).
Proof. by left. Qed.
#[local] Hint Resolve enveloped_failed enveloped_transcribed : core.

(** One request of a vendor: to its address, with the key, at most one, and one if it succeeds. *)
Definition one_post (base key : string) (s s' : W * list Post) (r : TranscriptionResult) : Prop :=
  enveloped r /\
  exists p w, s' = (w, snd s ++ [p]) /\ Str.starts_with base (p_url p) = true /\ p_bearer p = key.

Lemma openai_one_post (key base m name audio : string) (model language : option string) (s : W * list Post) :
  let '(r, s') := openai_transcribe logged key base m name audio model language s in one_post base key s s' r.
Proof.
  unfold openai_transcribe, logged. destruct (send _ (fst s)) as [r w]. split.
  - destruct r as [[st body]|e]; [|auto]. repeat case_match; auto.
  - eexists _, _. split; [reflexivity|]. split; [apply Str.starts_with_app|done].
Qed.

Lemma chat_audio_one_post (key base m name audio : string) (only : bool) (model language : option string)
  (s : W * list Post) :
  Str.trim_end_matches ["/"] base = base ->
  let '(r, s') := chat_audio_transcribe logged base64 key base m name only audio model language s in
  one_post base key s s' r.
Proof.
  intros Hb. unfold chat_audio_transcribe, logged. rewrite Hb. destruct (send _ (fst s)) as [r w]. split.
  - destruct r as [[st body]|e]; [|auto]. repeat case_match; auto.
  - eexists _, _. split; [reflexivity|]. split; [apply Str.starts_with_app|done].
Qed.

Lemma vendor_table (v : SttVendors.SttVendor) :
  v ∈ SttVendors.STT_VENDORS ->
  SttVendors.v_kind v <> SttVendors.MiniMax /\
  Str.trim_end_matches ["/"] (SttVendors.v_base_url v) = SttVendors.v_base_url v.
Proof.
  intros Hv. unfold SttVendors.STT_VENDORS in Hv. rewrite !elem_of_cons, elem_of_nil in Hv.
  destruct Hv as [->|[->|[->|[->|[->|[]]]]]]; split; done.
Qed.

Lemma provider_one_post (v : SttVendors.SttVendor) (key audio : string) (model language : option string) (s : W * list Post) :
  v ∈ SttVendors.STT_VENDORS ->
  let '(r, s') := SttRouter.call (build_provider logged base64 openai_model_override v key) audio model language s in
  one_post (SttVendors.v_base_url v) key s s' r.
Proof.
  intros Hv. destruct (vendor_table v Hv) as [Hk Hb]. cbn [build_provider SttRouter.call].
  destruct (SttVendors.v_kind v); [apply openai_one_post|by apply chat_audio_one_post|done].
Qed.

Lemma stt_vendor_in (i : string) (v : SttVendors.SttVendor) :
  SttVendors.stt_vendor i = Some v -> v ∈ SttVendors.STT_VENDORS.
Proof. intros Hf. by apply find_first_some in Hf as [Hv _]. Qed.

Lemma resolved_in_table (tenant : Uuid) (kv : Kv.Table) (t : Creds.Table) (v : SttVendors.SttVendor) :
  resolve_vendor text_le tenant kv t = Ok v -> v ∈ SttVendors.STT_VENDORS.
Proof.
  unfold resolve_vendor. destruct (explicit_setting tenant kv) as [sel|].
  - destruct (SttVendors.stt_vendor sel) eqn:Hs; [|done]. intros [= <-]. by eapply stt_vendor_in.
  - destruct (head _) eqn:Hh; [|done]. intros [= <-]. apply head_elem, list_elem_of_omap in Hh as (p & _ & Hp).
    by eapply stt_vendor_in.
Qed.

(** A transcription asks one vendor at most, once: the one the tenant chose or, without a choice, its
    first capable one; with a key of the tenant for that vendor; and only with audio within the vendor's
    limit. It never raises: the result is a text, or an error without one. *)
Theorem transcribe_one_vendor (tenant : Uuid) (kv : Kv.Table) (t : Creds.Table) (audio : string)
  (model language : option string) (w : W) (log : list Post) (r : TranscriptionResult) (s' : W * list Post) :
  routed_transcribe uuid_text kms text_le logged base64 openai_model_override tenant kv t audio model language (w, log)
  = Some (r, s') ->
  enveloped r /\
  ((success r = false /\ s' = (w, log)) \/
   exists v key p w', resolve_vendor text_le tenant kv t = Ok v /\
     open_key uuid_text kms tenant (SttVendors.v_id v) t = Some (Some key) /\
     Z.of_nat (String.length audio) <= SttVendors.v_max_bytes v /\
     s' = (w', log ++ [p]) /\ Str.starts_with (SttVendors.v_base_url v) (p_url p) = true /\
     p_bearer p = as_utf8 key).
Proof.
  unfold routed_transcribe. destruct (resolve_vendor _ _ _ _) as [v|e] eqn:Hv.
  2: { intros [= <- <-]. split; [auto|by left]. }
  destruct (open_key _ _ _ _ _) as [[key|]|] eqn:Hk; cbn [mbind option_bind]; [| |done].
  2: { intros [= <- <-]. split; [auto|by left]. }
  unfold stt_transcribe. destruct (_ <? _) eqn:Hlen.
  { intros [= <- <-]. split; [auto|by left]. }
  pose proof (provider_one_post v (as_utf8 key) audio ((fun m => SttVendors.resolve_model v (Some m)) <$> model) language (w, log)
    (resolved_in_table _ _ _ _ Hv)) as Hp.
  cbn [chain]. change (SttRouter.is_available (build_provider logged base64 openai_model_override v (as_utf8 key))) with true.
  cbn [negb]. destruct (SttRouter.call _ _ _ _ _) as [r1 s1]. destruct Hp as (He & p & w' & -> & Hu & Hb).
  assert ((if success r1 then (r1, (w', log ++ [p])) else (r1, (w', log ++ [p]))) = (r1, (w', log ++ [p]))) as Hif
    by (by destruct (success r1)).
  cbn [snd]. rewrite Hif. intros [= <- <-]. split; [done|]. right. exists v, key, p, w'.
  bool_prop. repeat split; try done; lia.
Qed.

(** The choice that is accepted resolves to the vendor named, whatever keys there are. *)
Theorem accepted_choice_resolves (ctx : TenantCtx) (provider : string) (a : Accounts) (kv kv' : Kv.Table) (x : Value)
  (t : Creds.Table) :
  SettingsRoutes.set_stt_provider ctx provider a kv = (Ok x, kv') ->
  if String.eqb (Str.trim provider) "auto" then explicit_setting (ctx_tenant ctx) kv' = None
  else exists v, SttVendors.stt_vendor (Str.trim provider) = Some v /\ resolve_vendor text_le (ctx_tenant ctx) kv' t = Ok v.
Proof.
  unfold SettingsRoutes.set_stt_provider. destruct (negb _ && negb _) eqn:Hcap; [done|].
  unfold SettingsRoutes.put_setting. destruct (Kv.kv_upsert _ _ _ _ _ _) as [t'|e] eqn:Hp; [|done].
  intros [= _ <-].
  assert (explicit_setting (ctx_tenant ctx) t' =
    opt_filter (fun s => negb (String.eqb s "") && negb (String.eqb s "auto")) (Some (Str.trim provider))) as Hs.
  { unfold explicit_setting. rewrite (kv_upsert_get _ _ _ _ _ _ _ _ _ _ Hp). rewrite bool_decide_true by done.
    cbn. by rewrite Str.trim_idem. }
  cbn in Hs. destruct (String.eqb (Str.trim provider) "auto") eqn:Ha.
  { rewrite Hs. by rewrite andb_false_r. }
  cbn in Hcap. apply negb_false_iff in Hcap. unfold SttVendors.is_stt_capable in Hcap.
  destruct (SttVendors.stt_vendor (Str.trim provider)) as [v|] eqn:Hv; [|done]. exists v. split; [done|].
  unfold resolve_vendor. rewrite Hs. destruct (String.eqb (Str.trim provider) "") eqn:He.
  { apply String.eqb_eq in He. rewrite He in Hv. by vm_compute in Hv. }
  cbn [negb andb]. by rewrite Hv.
Qed.
End SpeechProps.

(** ** Examples *)
Example containers :
  fmt_kind (detect_audio_format ("0000ftyp3GP4----")) = "3gp" /\
  fmt_kind (detect_audio_format ("0000ftypM4A ----")) = "m4a" /\
  fmt_kind (detect_audio_format "RIFF0000WAVEfmt ") = "wav" /\
  fmt_kind (detect_audio_format (Str.bytes [255; 251; 144]%nat)) = "mp3" /\
  fmt_kind (detect_audio_format "") = "m4a" /\
  audio_head_hex (Str.bytes [0; 255; 26]%nat) 2 = "00ff".
Proof. vm_compute. repeat split. Qed.

Definition speech_table (provider : string) : Creds.Table :=
  snd (@Creds.put_key Vault.Toy.toy_aead demo_text Envelope.StubKms "stub-dev" 0 demo_ctx
    {| Creds.pk_provider := provider; Creds.pk_label := None; Creds.pk_key := "sk-voice-key"; Creds.pk_priority := 0 |}
    7%N (demo_draw 17) demo_accounts []).
Definition voice (kv : Kv.Table) (t : Creds.Table) : option (TranscriptionResult * (nat * list Post)) :=
  @routed_transcribe Vault.Toy.toy_aead no_json demo_text Envelope.StubKms (fun _ _ => true) (nat * list Post)
    (logged (fun _ n => (Err "offline", S n))) (fun b => b) None 1%N kv t "OggS" None None (0%nat, []).

(** The key of a provider is looked up by the vendor's own id: one stored as [OpenAI] selects the vendor,
    and is then not found. *)
Example case_hides_key :
  (fun x => (tr_provider (fst x), length (snd (snd x)))) <$> voice [] (speech_table "openai") = Some ("openai", 1%nat) /\
  resolve_vendor (fun _ _ => true) 1%N [] (speech_table "OpenAI") = ok_or (SttVendors.stt_vendor "openai") "" /\
  (fun x => (tr_error (fst x), length (snd (snd x)))) <$> voice [] (speech_table "OpenAI")
  = Some (Some "no usable openai key — check your key in Settings", 0%nat).
Proof. vm_compute. repeat split. Qed.

Lemma transcribe_one_vendor_witness :
  match voice [] (speech_table "openai") with
  | Some (r, s) => enveloped r /\ exists p, snd s = [p] /\ p_bearer p = "sk-voice-key"
  | None => False
  end.
Proof.
  destruct (voice [] (speech_table "openai")) as [[r s]|] eqn:E; [|vm_compute in E; discriminate].
  destruct (@transcribe_one_vendor Vault.Toy.toy_aead no_json demo_text Envelope.StubKms (fun _ _ => true) nat
    (fun _ n => (Err "offline", S n)) (fun b => b) None 1%N [] (speech_table "openai") "OggS" None None 0%nat [] r s E)
    as [He [[_ Hs]|(v & key & p & w & Hv & Hk & _ & Hs & _ & Hb)]].
  - exfalso. rewrite Hs in E. vm_compute in E. discriminate.
  - split; [exact He|]. exists p. split; [by rewrite Hs|]. rewrite Hb.
    assert (v = SttVendors.Build_SttVendor "openai" SttVendors.Multipart "https://api.openai.com/v1"
      "gpt-4o-mini-transcribe-2025-12-15" (25 * 1048576) 600 false) as -> by (vm_compute in Hv; injection Hv as <-; reflexivity).
    assert (key = "sk-voice-key") as -> by (vm_compute in Hk; injection Hk as <-; reflexivity). reflexivity.
Defined.
