(* ===== verification/Web.v ===== *)
(** * The web tools

    [app-server/src/web_tool.rs]. [Html]: from a page to text and the reader of the search results, over
    strings of bytes with the source's own cursors. [WebClient]: the redirect policy, the client it
    configures and the two tools. The client is [reqwest]'s: it sends one request to the addresses the
    resolver lets through and follows a redirect when the policy says so; the network behind it, URL
    parsing and the query string of a URL are parameters. Every exchange is recorded. *)
From S2P Require Import Prelude RustStr Json WikiText Redact Streams HttpClient.
From stdpp Require Import list pretty.

#[local] Open Scope string_scope.
#[local] Open Scope list_scope.
#[local] Open Scope Z_scope.

(** ** Pages as text *)
Module Html.
(** [lower[from..].find(p)], as an index of the whole string. *)
Definition find_from (p s : string) (from : nat) : option nat :=
  (fun r => (from + r)%nat) <$> Str.find p (Str.drop from s).

(** One iteration of [strip_blocks] for a tag, [None] when no block is left. *)
Definition strip_block (tag s : string) : option string :=
  let lower := Str.to_ascii_lowercase s in
  start ← Str.find ("<" +:+ tag) lower;
  let close := "</" +:+ tag +:+ ">" in
  let end_ := unwrap_or ((fun e => (e + String.length close)%nat) <$> find_from close lower start) (String.length s) in
  Some (Str.take start s +:+ " " +:+ Str.drop end_ s).
Fixpoint strip_tag (fuel : nat) (tag s : string) : string :=
  match fuel with
  | O => s
  | S fuel => match strip_block tag s with Some s' => strip_tag fuel tag s' | None => s end
  end.
(* src/qcue-rs/app-server/src/web_tool.rs 48-65 strip_blocks *)
Definition strip_blocks (html : string) (tags : list string) : string :=
  foldl (fun s tag => strip_tag (S (String.length s)) tag s) html tags.

(* src/qcue-rs/app-server/src/web_tool.rs 67-75 decode_entities *)
Definition decode_entities (s : string) : string :=
  Str.replace "&amp;" "&" (Str.replace "&apos;" "'" (Str.replace "&#39;" "'" (Str.replace "&quot;" Str.quote
    (Str.replace "&gt;" ">" (Str.replace "&lt;" "<" (Str.replace "&nbsp;" " " s)))))).

(* src/qcue-rs/app-server/src/web_tool.rs 77-79 collapse_ws *)
Definition collapse_ws (s : string) : string := Str.join " " (Words.split_whitespace s).

(** The horizontal ellipsis, U+2026. *)
Definition ellipsis : string := Str.bytes [226; 128; 166]%nat.
(* src/qcue-rs/app-server/src/web_tool.rs 81-88 truncate_chars *)
Definition truncate_chars (s : string) (max : nat) : string :=
  if Nat.leb (Chars.count s) max then s else Chars.take max s +:+ ellipsis.

Fixpoint drop_tags (s : string) (in_tag : bool) : string :=
  match s with
  | EmptyString => ""
  | String ch s =>
      if Ascii.eqb ch "<" then String " " (drop_tags s true)
      else if Ascii.eqb ch ">" then drop_tags s false
      else if in_tag then drop_tags s in_tag
      else String ch (drop_tags s in_tag)
  end.
Definition block_tags : list string := ["script"; "style"; "head"; "noscript"].
(* src/qcue-rs/app-server/src/web_tool.rs 29-45 html_to_text *)
Definition html_to_text (html : string) : string :=
  collapse_ws (decode_entities (drop_tags (strip_blocks html block_tags) false)).

(* src/qcue-rs/app-server/src/web_tool.rs 167-174 attr_value *)
Definition attr_value (tag name : string) : option string :=
  let pat := name +:+ "=" +:+ Str.quote in
  i ← Str.find pat (Str.to_ascii_lowercase tag);
  let rest := Str.drop (i + String.length pat) tag in
  e ← Str.find Str.quote rest;
  Some (Str.take e rest).

(** The loop of [extract_anchors] from [cursor] on. *)
Fixpoint anchors_from (fuel : nat) (html lower class_marker : string) (cursor : nat) : list (string * string) :=
  match fuel with
  | O => []
  | S fuel =>
      match find_from "<a " lower cursor with
      | None => []
      | Some tag_start =>
          match find_from ">" lower tag_start with
          | None => []
          | Some tag_end =>
              let tag := Str.slice tag_start (S tag_end) html in
              let inner_start := S tag_end in
              let close := find_from "</a>" lower inner_start in
              let found :=
                if Str.contains class_marker (Str.slice tag_start (S tag_end) lower) then
                  match attr_value tag "href" with
                  | Some href =>
                      [(href, match close with Some c => Str.slice inner_start c html | None => "" end)]
                  | None => []
                  end
                else [] in
              found ++ anchors_from fuel html lower class_marker
                         (match close with Some c => (c + 4)%nat | None => S tag_end end)
          end
      end
  end.
(* src/qcue-rs/app-server/src/web_tool.rs 116-142 extract_anchors *)
Definition extract_anchors (html class_marker : string) : list (string * string) :=
  anchors_from (S (String.length html)) html (Str.to_ascii_lowercase html) class_marker 0.

(** The loop of [extract_class_texts] from [cursor] on. *)
Fixpoint class_texts_from (fuel : nat) (html lower class_marker : string) (cursor : nat) : list string :=
  match fuel with
  | O => []
  | S fuel =>
      match find_from class_marker lower cursor with
      | None => []
      | Some at_ =>
          match (gt ← S <$> find_from ">" lower at_; close ← find_from "</" lower gt; Some (gt, close)) with
          | Some (gt, close) =>
              Str.slice gt close html :: class_texts_from fuel html lower class_marker (close + 2)
          | None => class_texts_from fuel html lower class_marker (at_ + String.length class_marker)
          end
      end
  end.
(* src/qcue-rs/app-server/src/web_tool.rs 144-165 extract_class_texts *)
Definition extract_class_texts (html class_marker : string) : list string :=
  class_texts_from (S (String.length html)) html (Str.to_ascii_lowercase html) class_marker 0.

(* src/qcue-rs/app-server/src/web_tool.rs 90-95 SearchHit *)
Record SearchHit : Type := { title : string; url : string; snippet : string }.

Section Ddg.
(** The decoded query of a URL, when it parses. *)
Context (query_pairs : string -> option (list (string * string))).

(* src/qcue-rs/app-server/src/web_tool.rs 178-194 ddg_unwrap *)
Definition ddg_unwrap (href : string) : string :=
  let abs := match Str.strip_prefix "//" href with Some rest => "https://" +:+ rest | None => href end in
  match (q ← query_pairs abs; snd <$> find_first (fun kv => String.eqb (fst kv) "uddg") q) with
  | Some v => v
  | None => if Str.starts_with "http" href then href else ""
  end.

(* src/qcue-rs/app-server/src/web_tool.rs 99-112 parse_ddg_results *)
Definition parse_ddg_results (html : string) : list SearchHit :=
  let snippets := extract_class_texts html "result__snippet" in
  omap (fun '(i, (href, t)) =>
    let u := ddg_unwrap href in
    if String.eqb u "" then None
    else Some {| title := html_to_text t; url := u;
                 snippet := unwrap_or (html_to_text <$> snippets !! i) "" |})
    (imap pair (extract_anchors html "result__a")).
End Ddg.
End Html.
Import Html.

(** ** The client *)
Module WebClient.
Export HttpClient.Ip.

(** What an answer holds; [location]: where it redirects to, made absolute by the client. *)
Record Response : Type := {
  status : Z;
  content_type : option string;
  location : option string;
  chunks : list (result string string);
}.
(** One exchange: the URL and the addresses it may connect to. *)
Record Hop : Type := { h_url : Ssrf.Url; h_addrs : list IpAddr }.

(** What the policy decides for a redirect. *)
Inductive Attempt : Type := Error_ (e : string) | Follow | Stop.

Section Client.
Context `{J : Json} {W : Type}.
Context (url_parse : string -> option Ssrf.Url) (query_pairs : string -> option (list (string * string)))
  (parse_with_params : string -> list (string * string) -> result string string)
  (lookup : string -> result string (list IpAddr)).
(** The network: one request over one of the addresses. *)
Context (exchange : Ssrf.Url -> list IpAddr -> W -> result string Response * W).

(* src/qcue-rs/app-server/src/web_tool.rs 217-226 new *)
Definition redirect_policy (previous : nat) (next : Ssrf.Url) : Attempt :=
  if Nat.leb 5 previous then Error_ "too many redirects"
  else match Ssrf.classify_url url_parse (Ssrf.as_str next) with Ok _ => Follow | Err _ => Stop end.

(** The addresses a request may go to: a literal is used as it is, a name goes through the resolver the
    client is built with. *)
Definition addresses (u : Ssrf.Url) : result string (list IpAddr) :=
  let? host := ok_or (Ssrf.host_str u) "URL has no host" in
  match parse_ip (Ssrf.strip_brackets host) with
  | Some ip => Ok [ip]
  | None => Ssrf.guarded_resolve lookup host
  end.
Definition State : Type := W * list Hop.
Definition request (u : Ssrf.Url) (s : State) : result string Response * State :=
  match addresses u with
  | Err e => (Err e, s)
  | Ok addrs =>
      let '(r, w) := exchange u addrs (fst s) in
      (r, (w, snd s ++ [{| h_url := u; h_addrs := addrs |}]))
  end.

(** The redirect loop of the client: [previous] counts the URLs requested so far. A location that does
    not parse is not followed. The policy ends the loop at the fifth. *)
Fixpoint send (fuel : nat) (previous : nat) (u : Ssrf.Url) (s : State) : result string Response * State :=
  match fuel with
  | O => (Err "too many redirects", s)
  | S fuel =>
      let '(r, s) := request u s in
      match r with
      | Err e => (Err e, s)
      | Ok resp =>
          match location resp ≫= url_parse with
          | None => (Ok resp, s)
          | Some next =>
              match redirect_policy (S previous) next with
              | Error_ e => (Err e, s)
              | Stop => (Ok resp, s)
              | Follow => send fuel (S previous) next s
              end
          end
      end
  end.
Definition get_send (u : Ssrf.Url) (s : State) : result string Response * State := send 5 0 u s.

(* src/qcue-rs/app-server/src/web_tool.rs 17-17 MAX_BODY_BYTES *)
Definition MAX_BODY_BYTES : Z := 2 * 1024 * 1024.
(** [buf.len()] *)
Definition len (s : string) : Z := Z.of_nat (String.length s).
Fixpoint read_loop (buf : string) (l : list (result string string)) : result string string :=
  match l with
  | [] => Ok buf
  | Err e :: _ => Err ("web read failed: " +:+ e)
  | Ok chunk :: l =>
      if MAX_BODY_BYTES <? len buf + len chunk then
        let take := Z.max 0 (MAX_BODY_BYTES - len buf) in
        Ok (buf +:+ Str.take (Z.to_nat (Z.min take (len chunk))) chunk)
      else read_loop (buf +:+ chunk) l
  end.
(* src/qcue-rs/app-server/src/web_tool.rs 308-322 read_capped *)
Definition read_capped (resp : Response) : result string string :=
  result_map Utf8.from_utf8_lossy (read_loop "" (chunks resp)).

(* src/qcue-rs/app-server/src/web_tool.rs 16-16 DEFAULT_MAX_CHARS *)
Definition DEFAULT_MAX_CHARS : Z := 8000.
(** [v.get("max_chars")…clamp(200, 20_000)] *)
Definition max_chars (v : Value) : nat :=
  Z.to_nat (Z.max 200 (Z.min 20000 (unwrap_or (get "max_chars" v ≫= Json.as_u64) DEFAULT_MAX_CHARS))).
Definition page_text (resp : Response) (body : string) : string :=
  let looks_html := Str.contains "html" (unwrap_or (content_type resp) "")
                    || Str.starts_with "<" (Str.trim_start body) in
  if looks_html then html_to_text body else collapse_ws body.

(* src/qcue-rs/app-server/src/web_tool.rs 233-267 fetch *)
Definition fetch (arguments : string) (s : State) : result string string * State :=
  match from_str arguments with
  | Err e => (Err ("invalid web_fetch arguments: " +:+ e), s)
  | Ok v =>
      let raw := Str.trim (unwrap_or (get_str "url" v) "") in
      if String.eqb raw "" then (Err "web_fetch requires a `url`", s) else
      match Ssrf.classify_url url_parse raw with
      | Err e => (Err e, s)
      | Ok url =>
          let '(r, s) := get_send url s in
          (let? resp := map_err (fun e => "web_fetch failed: " +:+ e) r in
           let? body := read_capped resp in
           Ok ("Fetched " +:+ Ssrf.as_str url +:+ " (HTTP " +:+ pretty (status resp) +:+ "):" +:+ Str.lf +:+ Str.lf
               +:+ truncate_chars (page_text resp body) (max_chars v)), s)
      end
  end.

Definition hit_text (i : nat) (h : SearchHit) : string :=
  Str.lf +:+ "[" +:+ pretty (Z.of_nat (S i)) +:+ "] " +:+ truncate_chars (title h) 200 +:+ Str.lf
  +:+ "    " +:+ Html.url h +:+ Str.lf +:+ "    " +:+ truncate_chars (snippet h) 300 +:+ Str.lf.
(* src/qcue-rs/app-server/src/web_tool.rs 270-304 search *)
Definition search (arguments : string) (s : State) : result string string * State :=
  match from_str arguments with
  | Err e => (Err ("invalid web_search arguments: " +:+ e), s)
  | Ok v =>
      let query := Str.trim (unwrap_or (get_str "query" v) "") in
      if String.eqb query "" then (Err "web_search requires a `query`", s) else
      match (let? text := parse_with_params "https://html.duckduckgo.com/html/" [("q", query)] in
             Ssrf.classify_url url_parse text) with
      | Err e => (Err e, s)
      | Ok url =>
          let '(r, s) := get_send url s in
          (let? resp := map_err (fun e => "web_search failed: " +:+ e) r in
           let? body := read_capped resp in
           match parse_ddg_results query_pairs body with
           | [] =>
               Ok ("No structured results parsed for " +:+ Str.quote +:+ query +:+ Str.quote +:+ ". Page text:" +:+ Str.lf
                   +:+ truncate_chars (html_to_text body) 1500)
           | hits =>
               Ok ("Top web results for " +:+ Str.quote +:+ query +:+ Str.quote +:+ ":" +:+ Str.lf
                   +:+ Chars.concat (imap hit_text (take 6 hits)))
           end, s)
      end
  end.
End Client.
End WebClient.
Import WebClient.

(** ** Lemmas: pages *)
Lemma lower_app (a b : string) :
  Str.to_ascii_lowercase (a +:+ b) = Str.to_ascii_lowercase a +:+ Str.to_ascii_lowercase b.
Proof. unfold Str.to_ascii_lowercase. induction a as [|c a IH]; [done|]. simpl. by rewrite IH. Qed.

Lemma length_lower (a : string) : String.length (Str.to_ascii_lowercase a) = String.length a.
Proof. unfold Str.to_ascii_lowercase. induction a as [|c a IH]; [done|]. simpl. by rewrite IH. Qed.

(** Text without [d] that occurs around a [d] occurs on one side of it. *)
Lemma contains_gap (q a b : string) (d : ascii) :
  q <> "" -> Str.no_char d q = true -> Str.contains q (a +:+ String d b) = true ->
  Str.contains q a = true \/ Str.contains q b = true.
Proof.
  intros Hq Hd. induction a as [|c a IH].
  - cbn [String.append]. rewrite Str.contains_cons. intros [H|H]%orb_true_iff; [|by right].
    destruct q as [|e q]; [done|]. simpl in *. apply andb_true_iff in H as [He _]. apply Ascii.eqb_eq in He as ->.
    by rewrite Ascii.eqb_refl in Hd.
  - cbn [String.append]. rewrite !Str.contains_cons. intros [H|H]%orb_true_iff.
    + left. change (String c (a +:+ String d b)) with (String c a +:+ String d b) in H.
      apply Str.starts_with_app_no_char in H; [|done]. by rewrite H.
    + destruct (IH H) as [->|Hb]; [left; apply orb_true_r|by right].
Qed.

Lemma contains_mono (q a b c : string) : Str.contains q b = true -> Str.contains q (a +:+ b +:+ c) = true.
Proof.
  rewrite !Str.contains_spec. intros (x & y & ->). exists (a +:+ x), (y +:+ c). by rewrite !Str.app_assoc.
Qed.

(** A block taken out leaves a shorter page in which no new tag can appear. *)
Lemma strip_block_some (tag s s' : string) :
  tag <> "" -> strip_block tag s = Some s' ->
  (String.length s' < String.length s)%nat /\
  forall q, q <> "" -> Str.no_char " " q = true ->
    Str.contains q (Str.to_ascii_lowercase s') = true -> Str.contains q (Str.to_ascii_lowercase s) = true.
Proof.
  intros Htag. assert (1 <= String.length tag)%nat as Hl by (destruct tag; [done|cbn; lia]).
  unfold strip_block. destruct (Str.find _ _) as [start|] eqn:Hf; [|done]. cbn [mbind option_bind].
  set (e := unwrap_or _ _). intros [= <-]. apply Str.find_le in Hf. rewrite length_lower in Hf. cbn in Hf.
  assert (start + 1 < e)%nat as He.
  { subst e. unfold find_from. destruct (Str.find _ (Str.drop start _)) as [r|]; cbn [fmap option_fmap option_map unwrap_or].
    - cbn. lia.
    - lia. }
  split; [rewrite !Str.length_app, Str.length_take; cbn [String.append String.length]; rewrite Str.length_drop; lia|].
  intros q Hq Hd. rewrite !lower_app. cbn [Str.to_ascii_lowercase Str.map_ascii String.append].
  change (Str.lower " ") with " "%char. intros [H|H]%contains_gap; [| |done..].
  - rewrite <- (Str.take_drop start s), lower_app. by apply (contains_mono q "").
  - rewrite <- (Str.take_drop e s), lower_app, <- (Str.app_nil_r (Str.to_ascii_lowercase (Str.drop e s))).
    by apply contains_mono.
Qed.

Lemma strip_tag_spec (tag : string) (fuel : nat) (s : string) :
  tag <> "" -> (String.length s < fuel)%nat ->
  strip_block tag (strip_tag fuel tag s) = None /\
  (String.length (strip_tag fuel tag s) <= String.length s)%nat /\
  forall q, q <> "" -> Str.no_char " " q = true ->
    Str.contains q (Str.to_ascii_lowercase (strip_tag fuel tag s)) = true ->
    Str.contains q (Str.to_ascii_lowercase s) = true.
Proof.
  intros Htag. revert s. induction fuel as [|fuel IH]; intros s Hs; [lia|]. cbn [strip_tag].
  destruct (strip_block tag s) as [s'|] eqn:Hb; [|auto].
  destruct (strip_block_some _ _ _ Htag Hb) as [Hlt Hq].
  destruct (IH s') as (Hn & Hl & Hq'); [lia|]. split_and!; [done|lia|]. eauto.
Qed.

Lemma strip_block_none (tag s : string) :
  strip_block tag s = None <-> Str.contains ("<" +:+ tag) (Str.to_ascii_lowercase s) = false.
Proof.
  unfold strip_block, Str.contains. destruct (Str.find _ _); by cbn.
Qed.

Lemma strip_blocks_mono (tags : list string) (s q : string) :
  Forall (fun t => t <> "") tags -> q <> "" -> Str.no_char " " q = true ->
  Str.contains q (Str.to_ascii_lowercase (strip_blocks s tags)) = true ->
  Str.contains q (Str.to_ascii_lowercase s) = true.
Proof.
  unfold strip_blocks. intros Ht Hq Hn. revert s. induction Ht as [|t tags Ht1 _ IH]; intros s H; [done|].
  cbn [foldl] in H. apply IH in H.
  destruct (strip_tag_spec t (S (String.length s)) s Ht1) as (_ & _ & Hm); [lia|]. by apply Hm.
Qed.

(** The loops that take blocks out of a page end, and no tag of a block is left, whatever the case of its
    letters: taking a later kind of block out does not put an earlier one together. *)
Theorem strip_blocks_clean (html : string) (tags : list string) :
  Forall (fun t => t <> "" /\ Str.no_char " " t = true) tags ->
  (String.length (strip_blocks html tags) <= String.length html)%nat /\
  Forall (fun t => Str.contains ("<" +:+ t) (Str.to_ascii_lowercase (strip_blocks html tags)) = false) tags.
Proof.
  intros Ht. split.
  - unfold strip_blocks. revert html. induction Ht as [|t tags [Ht1 _] _ IH]; intros html; [done|]. cbn [foldl].
    etrans; [apply IH|]. by apply strip_tag_spec; [|lia].
  - revert html. induction Ht as [|t tags [Ht1 Ht2] Htags IH]; intros html; constructor; [|apply IH].
    apply not_true_is_false. intros H. unfold strip_blocks in H. cbn [foldl] in H.
    apply (strip_blocks_mono tags) in H; [|by eapply Forall_impl; [exact Htags|intros ? []]|done|exact Ht2].
    destruct (strip_tag_spec t (S (String.length html)) html Ht1) as [Hn _]; [lia|].
    apply strip_block_none in Hn. congruence.
Qed.

(** ** Lemmas: the client *)
(** What is read is a prefix of what arrived, cut only at the cap. *)
Lemma read_loop_capped (l : list (result string string)) (buf body : string) :
  len buf <= MAX_BODY_BYTES -> read_loop buf l = Ok body ->
  len body <= MAX_BODY_BYTES /\
  exists u, buf +:+ Chars.concat (omap result_ok l) = body +:+ u /\ (u <> "" -> len body = MAX_BODY_BYTES).
Proof.
  unfold len. revert buf. induction l as [|[chunk|e] l IH]; intros buf Hb; cbn [read_loop]; [| |done].
  - intros [= <-]. split; [done|]. exists "". split; [done|]. by intros [].
  - unfold len. destruct (_ <? _) eqn:Hc.
    + set (k := Z.to_nat _). intros [= <-]. bool_prop. rewrite Str.length_app, Str.length_take.
      split; [lia|]. exists (Str.drop k chunk +:+ Chars.concat (omap result_ok l)). split; [|lia].
      cbn [omap list_omap result_ok Chars.concat]. by rewrite Str.app_assoc, <- (Str.app_assoc (Str.take _ _)), Str.take_drop.
    + bool_prop. intros H. apply IH in H; [|rewrite Str.length_app; lia].
      cbn [omap list_omap result_ok Chars.concat]. by rewrite <- Str.app_assoc.
Qed.

Section WebProps.
Context `{J : Json} {W : Type}.
Context (url_parse : string -> option Ssrf.Url) (query_pairs : string -> option (list (string * string)))
  (parse_with_params : string -> list (string * string) -> result string string)
  (lookup : string -> result string (list IpAddr)) (exchange : Ssrf.Url -> list IpAddr -> W -> result string Response * W).
(** Documented: the text of a URL reads back as the URL. *)
Hypothesis url_reads_back : forall raw u, url_parse raw = Some u -> url_parse (Ssrf.as_str u) = Some u.

(** What a request may be: over HTTP, to a host that is not internal, over public addresses alone. *)
Definition hop_public (h : Hop) : Prop :=
  (Ssrf.scheme (h_url h) = "http" \/ Ssrf.scheme (h_url h) = "https") /\
  (exists host, Ssrf.host_str (h_url h) = Some host /\
     (parse_ip (Ssrf.strip_brackets host) = None -> Ssrf.internal_name (Str.to_ascii_lowercase host) = false)) /\
  h_addrs h <> [] /\ Forall (fun ip => Ssrf.ip_is_blocked ip = false) (h_addrs h).

Lemma classify_same (raw : string) (u : Ssrf.Url) :
  Ssrf.classify_url url_parse raw = Ok u -> url_parse raw = Some u.
Proof.
  unfold Ssrf.classify_url. destruct (url_parse raw) as [x|]; [|done]. cbn [ok_or and_then].
  destruct (_ || _); [|done]. cbn [and_then]. destruct (Ssrf.host_str x); [|done]. cbn [ok_or and_then].
  destruct (parse_ip _); [destruct (Ssrf.ip_is_blocked _)|destruct (Ssrf.internal_name _)]; try done; by intros [= ->].
Qed.

Lemma request_public (raw : string) (u : Ssrf.Url) (s : State) :
  Ssrf.classify_url url_parse raw = Ok u ->
  exists w hops, snd (request lookup exchange u s) = (w, snd s ++ hops) /\ (length hops <= 1)%nat /\ Forall hop_public hops.
Proof.
  intros Hc. unfold request. destruct (addresses lookup u) as [addrs|e] eqn:Ha.
  2: { exists (fst s), []. rewrite app_nil_r. destruct s. repeat split; [cbn; lia|done]. }
  destruct (exchange u addrs (fst s)) as [r w]. eexists w, [_]. cbn [snd]. split_and!; [done|done|].
  constructor; [|done]. unfold hop_public. cbn [h_url h_addrs].
  pose proof (classify_same _ _ Hc) as Hu. unfold Ssrf.classify_url in Hc. rewrite Hu in Hc. cbn [ok_or and_then] in Hc.
  destruct (_ || _) eqn:Hs; [|done]. cbn [and_then] in Hc. apply orb_true_iff in Hs.
  split; [by destruct Hs as [Hs%String.eqb_eq|Hs%String.eqb_eq]; [left|right]|].
  unfold addresses in Ha. destruct (Ssrf.host_str u) as [host|]; [|done]. cbn [ok_or and_then] in Hc, Ha.
  destruct (parse_ip _) as [ip|] eqn:Hip.
  - destruct (Ssrf.ip_is_blocked ip) eqn:Hb; [done|]. injection Ha as <-.
    split; [exists host; by rewrite Hip|]. split; [done|by repeat constructor].
  - destruct (Ssrf.internal_name _) eqn:Hi; [done|]. split; [by exists host|].
    unfold Ssrf.guarded_resolve in Ha. destruct (lookup host) as [l|]; [|done]. cbn [and_then] in Ha.
    destruct (List.filter _ l) as [|x k] eqn:Hf; [done|]. injection Ha as <-. split; [done|]. rewrite <- Hf.
    apply Forall_forall. intros ip Hin. apply list_elem_of_In, filter_In in Hin as [_ Hn]. by apply negb_true_iff in Hn.
Qed.

Lemma send_public (fuel previous : nat) (raw : string) (u : Ssrf.Url) (s : State) :
  Ssrf.classify_url url_parse raw = Ok u ->
  exists w hops, snd (send url_parse lookup exchange fuel previous u s) = (w, snd s ++ hops) /\
    (length hops <= fuel)%nat /\ Forall hop_public hops.
Proof.
  revert previous raw u s. induction fuel as [|fuel IH]; intros previous raw u s Hc; cbn [send].
  { exists (fst s), []. rewrite app_nil_r. destruct s. repeat split; [cbn; lia|done]. }
  destruct (request_public raw u s Hc) as (w & hops & Hs & Hl & Hp).
  destruct (request lookup exchange u s) as [r s1]. cbn [snd] in Hs. subst s1.
  assert (exists w' hops', (w, snd s ++ hops) = (w', snd s ++ hops') /\
    (length hops' <= S fuel)%nat /\ Forall hop_public hops') as Hend by (exists w, hops; repeat split; [lia|done]).
  destruct r as [resp|e]; [|done]. destruct (location resp ≫= url_parse) as [next|] eqn:Hn; [|done].
  destruct (redirect_policy url_parse (S previous) next) as [e| |] eqn:Hr; try done.
  unfold redirect_policy in Hr. destruct (Nat.leb 5 (S previous)); [done|].
  destruct (Ssrf.classify_url url_parse (Ssrf.as_str next)) as [x|] eqn:Hx; [|done].
  destruct (location resp) as [loc|]; [|done]. cbn in Hn. apply url_reads_back in Hn.
  pose proof (classify_same _ _ Hx) as Hx'. rewrite Hn in Hx'. injection Hx' as <-.
  destruct (IH (S previous) _ next (w, snd s ++ hops) Hx) as (w' & more & Hs' & Hl' & Hp').
  exists w', (hops ++ more). rewrite Hs'. cbn [snd]. rewrite length_app, app_assoc. split_and!; [done|lia|by apply Forall_app].
Qed.

End WebProps.

(** No more of a page is kept than the cap, and what is kept is the beginning of it. *)
Theorem read_capped_bound (resp : Response) (body : string) :
  read_capped resp = Ok body ->
  exists b u, body = Utf8.from_utf8_lossy b /\ len b <= MAX_BODY_BYTES /\
    Chars.concat (omap result_ok (chunks resp)) = b +:+ u /\ (u <> "" -> len b = MAX_BODY_BYTES).
Proof.
  unfold read_capped. destruct (read_loop "" _) as [b|e] eqn:Hr; [|done]. intros [= <-].
  apply read_loop_capped in Hr as (Hb & u & Hu & Hm); [|by vm_compute]. by exists b, u.
Qed.

(** ** Examples *)
(** The test of the source, and the entity that is decoded only once. *)
Example text_of_the_tests :
  html_to_text "<html><head><style>.x{color:red}</style></head><body><h1>Hello</h1><p>A &amp; B &lt;ok&gt;</p><script>alert('bad')</script></body></html>"
  = "Hello A & B <ok>" /\
  html_to_text "&amp;lt;" = "&lt;" /\
  html_to_text "<ScRiPt>a</sCrIpT>b<NOSCRIPT>c" = "b".
Proof. vm_compute. repeat split. Qed.

(** The pattern of the head block matches the start of a [header] element too: with no later end of a head
    the rest of the page is dropped. *)
Example header_drops_the_page :
  html_to_text "<html><head><title>t</title></head><body><header>Site</header><p>The article</p></body></html>" = "" /\
  html_to_text "<html><head><title>t</title></head><body><p>The article</p></body></html>" = "The article".
Proof. vm_compute. repeat split. Qed.

Definition quoted (s : string) : string := Str.replace "'" Str.quote s.
(** The test of the source; a snippet ends at the first end tag inside it, and results whose anchor has no
    address take the snippets out of step. *)
Example results_of_the_tests :
  parse_ddg_results (fun _ => Some [("uddg", "https://www.rust-lang.org/")])
    (quoted "<a class='result__a' href='//duckduckgo.com/l/?uddg=x'>The Rust Language</a> <a class='result__snippet' href='x'>A <b>language</b> for everyone.</a>")
  = [{| title := "The Rust Language"; url := "https://www.rust-lang.org/"; snippet := "A language" |}] /\
  parse_ddg_results (fun _ => None)
    (quoted "<a class='result__a'>ad</a><a class='result__snippet'>buy</a><a class='result__a' href='http://x'>hit</a><a class='result__snippet'>of the hit</a>")
  = [{| title := "hit"; url := "http://x"; snippet := "buy" |}].
Proof. vm_compute. repeat split. Qed.

(** A parser of [https] URLs, arguments that are the URL itself, a name with a public and a private
    address, and a site that redirects everything to the metadata service. *)
Definition demo_args : Json := {| from_str := fun s => Ok (obj [("url", jstr s)]); to_string := fun _ => "" |}.
Definition demo_url (s : string) : option Ssrf.Url :=
  rest ← Str.strip_prefix "https://" s;
  Some {| Ssrf.scheme := "https"; Ssrf.host_str := Some (unwrap_or (fst <$> Str.split_once "/" rest) rest); Ssrf.as_str := s |}.
Definition demo_lookup (host : string) : result string (list IpAddr) :=
  if String.eqb host "example.org"
  then Ok [V4 {| o0 := 93; o1 := 184; o2 := 216; o3 := 34 |}; V4 {| o0 := 10; o1 := 0; o2 := 0; o3 := 1 |}] else Err "no such host".
Definition demo_site (u : Ssrf.Url) (_ : list IpAddr) (n : nat) : result string Response * nat :=
  (Ok {| status := 302; content_type := None; chunks := [Ok "moved"];
         location := Some (if Nat.leb 1 n then "https://169.254.169.254/latest/meta-data/" else "https://example.org/again") |}, S n).

Lemma demo_url_reads_back (raw : string) (u : Ssrf.Url) : demo_url raw = Some u -> demo_url (Ssrf.as_str u) = Some u.
Proof.
  unfold demo_url. destruct (Str.strip_prefix "https://" raw) as [rest|] eqn:Hr; [|done]. cbn [mbind option_bind].
  intros [= <-]. cbn [Ssrf.as_str]. by rewrite Hr.
Qed.

