(* ===== verification/Route.v ===== *)
(** * Which model a turn goes to

    [app-server/src/dispatch/mod.rs], less the accrual (Cost.v) and the catalog (Settings.v). [Toggles]:
    the switches read from the environment, also those of [http/src/client.rs]. [Routes]: the route of a
    tenant from its keys and its picks. [Chain]: the fallback links and the harness a turn is given. The
    environment is a function of the name of a variable; errors of the database driver, which degrade to
    the default route, are left out. *)
From S2P Require Import Prelude RustStr Json Protocol Classify Providers Identity Auth Vault Settings.
From stdpp Require Import list gmap.

#[local] Open Scope string_scope.
#[local] Open Scope list_scope.
#[local] Open Scope Z_scope.

(** [std::env::var], where it is valid text. *)
Definition EnvVars : Type := string -> option string.

Module Toggles.
Section Toggles.
Context (env : EnvVars).
(* src/qcue-rs/app-server/src/dispatch/mod.rs 58-60 stub_llm_enabled *)
Definition stub_llm_enabled : bool :=
  match env "QCUE_STUB_LLM" with
  | Some v => String.eqb v "1" || Str.eq_ignore_ascii_case v "true"
  | None => false
  end.
(* src/qcue-rs/app-server/src/dispatch/mod.rs 66-71 web_tools_enabled *)
Definition web_tools_enabled : bool :=
  match env "QCUE_WEB_TOOLS" with
  | Some v => negb (Quirks.mem ["0"; "false"; "off"; "no"] (Str.to_ascii_lowercase (Str.trim v)))
  | None => true
  end.
(* src/qcue-rs/app-server/src/dispatch/mod.rs 74-78 default_route *)
Definition default_route : string * string :=
  (unwrap_or (env "QCUE_DEFAULT_PROVIDER") "openai", unwrap_or (env "QCUE_DEFAULT_MODEL") "gpt-4o-mini").

(* src/qcue-rs/http/src/client.rs 5-11 ClientOpts *)
Record ClientOpts : Type := { force_http1 : bool; guard_egress : bool }.
(* src/qcue-rs/http/src/client.rs 92-97 opts_from_env *)
Definition opts_from_env : ClientOpts * bool :=
  let allow_insecure := opt_is_some (env "QCUE_ALLOW_INSECURE_HTTP") in
  ({| force_http1 := opt_is_some (env "QCUE_FORCE_HTTP1"); guard_egress := negb allow_insecure |}, allow_insecure).
End Toggles.
End Toggles.
Import Toggles.

(** ** The route of a tenant *)
Module Routes.
Section Routes.
(** The order of a text column. *)
Context (text_le : string -> string -> bool).

Definition own_rows (tenant : Uuid) (t : Creds.Table) : Creds.Table := List.filter (Creds.rls tenant) t.
(** [MAX(created_at)] of the rows of a provider. *)
Definition newest (rows : Creds.Table) (p : string) : Z :=
  match Creds.c_created <$> List.filter (fun c => String.eqb (Creds.c_provider c) p) rows with
  | [] => 0
  | z :: l => foldr Z.max z l
  end.
Definition newer_first (rows : Creds.Table) (p q : string) : bool :=
  (newest rows q <? newest rows p) || ((newest rows p =? newest rows q) && text_le p q).
(* src/qcue-rs/app-server/src/dispatch/mod.rs 196-203 resolve_tenant_route *)
Definition providers_of (tenant : Uuid) (t : Creds.Table) : list string :=
  let rows := own_rows tenant t in
  sort_by (newer_first rows) (remove_dups (Creds.c_provider <$> rows)).

(** The first provider with a default model. *)
Fixpoint first_default (providers : list string) : option (string * string) :=
  match providers with
  | [] => None
  | p :: ps => match head (Catalog.provider_models p) with Some m => Some (p, m) | None => first_default ps end
  end.
(* src/qcue-rs/app-server/src/dispatch/mod.rs 183-234 resolve_tenant_route *)
Definition resolve_tenant_route (tenant : Uuid) (kv : Kv.Table) (t : Creds.Table) : option (string * string * list string) :=
  let providers := providers_of tenant t in
  primary ← head providers;
  let picked := Kv.kv_get tenant SettingsRoutes.SETTINGS_SESSION (SettingsRoutes.model_key primary) kv in
  match opt_filter (Catalog.is_routable_model primary) (picked ≫= get_str "model") with
  | Some model => Some (primary, model, providers)
  | None => (fun '(p, m) => (p, m, providers)) <$> first_default providers
  end.

Context (env : EnvVars).
(* src/qcue-rs/app-server/src/dispatch/mod.rs 170-181 effective_route_with_providers *)
Definition effective_route_with_providers (tenant : Uuid) (kv : Kv.Table) (t : Creds.Table) : string * string * list string :=
  match resolve_tenant_route tenant kv t with
  | Some route => route
  | None => let '(provider, model) := default_route env in (provider, model, [])
  end.
(* src/qcue-rs/app-server/src/dispatch/mod.rs 162-165 effective_route *)
Definition effective_route (tenant : Uuid) (kv : Kv.Table) (t : Creds.Table) : string * string :=
  fst (effective_route_with_providers tenant kv t).
End Routes.
End Routes.
Import Routes.

(** ** The chain and the harness *)
Module Chain.
Section Chain.
Context (env : EnvVars).
Abbreviation Link := (string * string * ApiMode)%type.

Definition api_mode_of (reg : Registry) (p m : string) : ApiMode :=
  match registry_get reg p with
  | Some pr => effective_api_mode (env "QCUE_RESPONSES_API") pr m
  | None => ChatCompletions
  end.
Definition same_model (a b : Link) : bool := String.eqb (fst (fst a)) (fst (fst b)) && String.eqb (snd (fst a)) (snd (fst b)).
Definition cross_link (reg : Registry) (primary : string) (links : list Link) (p : string) : list Link :=
  if String.eqb p primary then links
  else match head (Catalog.provider_models p) with
       | Some m =>
           let link := (p, m, api_mode_of reg p m) in
           if existsb (fun l => same_model l link) links then links else links ++ [link]
       | None => links
       end.
Definition fallback_link (reg : Registry) (p m : string) : Link := (p, m, api_mode_of reg p m).
(* src/qcue-rs/app-server/src/dispatch/mod.rs 242-281 build_chain_links *)
Definition build_chain_links (reg : Registry) (primary_provider primary_model : string) (extra_providers : list string) : list Link :=
  let links := [fallback_link reg primary_provider primary_model] in
  let links := links ++
    match registry_get reg primary_provider with
    | Some p => fallback_link reg primary_provider
                <$> List.filter (fun fm => negb (String.eqb fm primary_model)) (fallback_models p)
    | None => []
    end in
  foldl (cross_link reg primary_provider) links extra_providers.
(* src/qcue-rs/app-server/src/dispatch/mod.rs 285-292 build_chain *)
Definition build_chain (reg : Registry) (provider model : string) (extra_providers : list string) : FallbackChain :=
  chain_new (build_chain_links reg provider model extra_providers).

(** What answers the calls of a turn: the scripted stub, or the dispatcher over the registry. *)
Inductive Harness : Type :=
| StubHarness (reply : string)
| LiveHarness (opts : ClientOpts) (chain : FallbackChain) (allow_insecure : bool).
(* src/qcue-rs/app-server/src/dispatch/mod.rs 372-387 build_live_harness *)
Definition build_live_harness (provider model : string) (extra_providers : list string) : Harness :=
  let '(opts, allow_insecure) := opts_from_env env in
  LiveHarness opts (build_chain register_all provider model extra_providers) allow_insecure.
(* src/qcue-rs/app-server/src/dispatch/mod.rs 297-303 build_harness *)
Definition build_harness (stub_reply : string) : Harness :=
  if stub_llm_enabled env then StubHarness stub_reply
  else let '(provider, model) := default_route env in build_live_harness provider model [].

Context (text_le : string -> string -> bool).
(* src/qcue-rs/app-server/src/dispatch/mod.rs 311-325 build_harness_for *)
Definition build_harness_for (tenant : Uuid) (kv : Kv.Table) (t : Creds.Table) (stub_reply : string) : Harness * string * string :=
  if stub_llm_enabled env then (StubHarness stub_reply, "stub", "stub")
  else let '(provider, model, others) := effective_route_with_providers text_le env tenant kv t in
       (build_live_harness provider model others, provider, model).
(* src/qcue-rs/app-server/src/dispatch/mod.rs 349-364 build_harness_for_route *)
Definition build_harness_for_route (tenant : Uuid) (kv : Kv.Table) (t : Creds.Table) (provider model stub_reply : string)
  : Harness * string * string :=
  if stub_llm_enabled env then (StubHarness stub_reply, "stub", "stub")
  else let '(_, _, others) := effective_route_with_providers text_le env tenant kv t in
       (build_live_harness provider model others, provider, model).
End Chain.
End Chain.
Import Chain.

(** ** Lemmas: routes *)
Lemma foldr_max_spec (l : list Z) (z : Z) : z <= foldr Z.max z l /\ Forall (fun x => x <= foldr Z.max z l) l /\
  (foldr Z.max z l = z \/ foldr Z.max z l ∈ l).
Proof.
  induction l as [|x l (IH1 & IH2 & IH3)]; cbn [foldr]; [repeat split; [lia|constructor|by left]|].
  split; [lia|]. split; [constructor; [lia|]; eapply Forall_impl; [exact IH2|]; cbn; lia|].
  destruct (Z.max_spec x (foldr Z.max z l)) as [[_ ->]|[_ ->]]; [|right; by left].
  destruct IH3 as [E|Hin]; [by left|right; by right].
Qed.

(** The newest time of a provider is that of one of its rows, and none of them is newer. *)
Lemma newest_spec (rows : Creds.Table) (c : Creds.Row) :
  c ∈ rows ->
  Creds.c_created c <= newest rows (Creds.c_provider c) /\
  exists d, d ∈ rows /\ Creds.c_provider d = Creds.c_provider c /\ Creds.c_created d = newest rows (Creds.c_provider c).
Proof.
  intros Hc. set (p := Creds.c_provider c).
  assert (c ∈ List.filter (fun c => String.eqb (Creds.c_provider c) p) rows) as Hin.
  { apply list_elem_of_In, filter_In. by rewrite <- list_elem_of_In, String.eqb_refl. }
  assert (forall d, d ∈ List.filter (fun c => String.eqb (Creds.c_provider c) p) rows -> d ∈ rows /\ Creds.c_provider d = p) as Hsub.
  { intros d [Hd Hp%String.eqb_eq]%list_elem_of_In%filter_In. by rewrite list_elem_of_In. }
  unfold newest. destruct (List.filter _ rows) as [|x l]; [by apply elem_of_nil in Hin|]. cbn [fmap list_fmap].
  destruct (foldr_max_spec (Creds.c_created <$> l) (Creds.c_created x)) as (H1 & H2 & H3).
  split.
  - apply elem_of_cons in Hin as [->|Hin]; [done|]. rewrite Forall_forall in H2. apply H2, list_elem_of_fmap. eauto.
  - destruct H3 as [->|H3]; [exists x; split; [apply Hsub; left|split; [apply Hsub; left|done]]|].
    apply list_elem_of_fmap in H3 as (d & Hd & Hdl). exists d. rewrite <- Hd.
    split; [apply Hsub; by right|split; [apply Hsub; by right|done]].
Qed.

Lemma own_rows_spec (tenant : Uuid) (t : Creds.Table) (c : Creds.Row) :
  c ∈ own_rows tenant t <-> c ∈ t /\ Creds.c_tenant c = tenant.
Proof. unfold own_rows, Creds.rls. by rewrite !list_elem_of_In, filter_In, N.eqb_eq. Qed.

Lemma first_default_some (ps : list string) (p m : string) :
  first_default ps = Some (p, m) -> p ∈ ps /\ head (Catalog.provider_models p) = Some m.
Proof.
  induction ps as [|q ps IH]; [done|]. cbn [first_default].
  destruct (head (Catalog.provider_models q)) as [m'|] eqn:Hq; [intros [= <- <-]; split; [left|done]|].
  intros H. destruct (IH H). split; [by right|done].
Qed.
Lemma first_default_none (ps : list string) :
  first_default ps = None <-> Forall (fun p => Catalog.provider_models p = []) ps.
Proof.
  induction ps as [|q ps IH]; cbn [first_default]; [by split; constructor|].
  destruct (Catalog.provider_models q) as [|m l] eqn:Hq; cbn [head].
  - rewrite IH. split; [by constructor|by inv 1].
  - split; [done|]. inv 1. congruence.
Qed.

Section RouteProps.
Context (text_le : string -> string -> bool).
Context (text_total : forall x y, text_le x y = true \/ text_le y x = true).
Context (text_trans : forall x y z, text_le x y = true -> text_le y z = true -> text_le x z = true).

Lemma newer_total (rows : Creds.Table) (p q : string) :
  newer_first text_le rows p q = true \/ newer_first text_le rows q p = true.
Proof.
  unfold newer_first. destruct (Z.lt_trichotomy (newest rows p) (newest rows q)) as [H|[H|H]].
  - right. apply orb_true_iff. left. by apply Z.ltb_lt.
  - rewrite H, Z.eqb_refl, Z.ltb_irrefl. apply text_total.
  - left. apply orb_true_iff. left. by apply Z.ltb_lt.
Qed.
Lemma newer_spec (rows : Creds.Table) (p q : string) :
  newer_first text_le rows p q = true <->
  newest rows q < newest rows p \/ (newest rows p = newest rows q /\ text_le p q = true).
Proof. unfold newer_first. by rewrite orb_true_iff, andb_true_iff, Z.ltb_lt, Z.eqb_eq. Qed.
Lemma newer_trans (rows : Creds.Table) (p q r : string) :
  newer_first text_le rows p q = true -> newer_first text_le rows q r = true -> newer_first text_le rows p r = true.
Proof. rewrite !newer_spec. intros [H|[H H']] [K|[K K']]; [left; lia..|right; split; [lia|eauto]]. Qed.

Lemma providers_of_spec (tenant : Uuid) (t : Creds.Table) :
  NoDup (providers_of text_le tenant t) /\
  (forall q, q ∈ providers_of text_le tenant t <-> exists c, c ∈ t /\ Creds.c_tenant c = tenant /\ Creds.c_provider c = q).
Proof.
  unfold providers_of. split.
  - rewrite sort_by_perm. apply NoDup_remove_dups.
  - intros q. rewrite sort_by_perm, elem_of_remove_dups, list_elem_of_fmap. split.
    + intros (c & -> & [Hc Ht]%own_rows_spec). eauto.
    + intros (c & Hc & Ht & <-). exists c. split; [done|by apply own_rows_spec].
Qed.

Lemma primary_newest (tenant : Uuid) (t : Creds.Table) (p : string) (c : Creds.Row) :
  head (providers_of text_le tenant t) = Some p -> c ∈ t -> Creds.c_tenant c = tenant ->
  exists d, d ∈ t /\ Creds.c_tenant d = tenant /\ Creds.c_provider d = p /\ Creds.c_created c <= Creds.c_created d.
Proof.
  intros Hh Hc Ht. set (rows := own_rows tenant t).
  assert (c ∈ rows) as Hcr by (by apply own_rows_spec).
  destruct (newest_spec rows c Hcr) as [Hle _].
  assert (p ∈ providers_of text_le tenant t) as Hp by (by apply head_elem).
  apply (proj2 (providers_of_spec tenant t)) in Hp as (d0 & Hd0 & Hdt & Hdp).
  destruct (newest_spec rows d0) as [_ (d & [Hd Hdt']%own_rows_spec & Hdp' & Hdn)]; [by apply own_rows_spec|].
  exists d. rewrite Hdp in Hdp', Hdn. split_and!; try done. rewrite Hdn.
  assert (newer_first text_le rows p (Creds.c_provider c) = true) as Hnew.
  { assert (Creds.c_provider c ∈ providers_of text_le tenant t) as Hin
      by (apply (proj2 (providers_of_spec tenant t)); eauto).
    pose proof (sort_by_sorted _ (newer_total rows) (newer_trans rows) (remove_dups (Creds.c_provider <$> rows))) as Hs.
    fold rows in Hh. unfold providers_of in Hh, Hin. fold rows in Hh, Hin.
    destruct (sort_by _ _) as [|x l]; [done|]. injection Hh as ->. inv Hs.
    apply elem_of_cons in Hin as [->|Hin]; [match goal with |- newer_first _ _ ?a ?a = _ => by destruct (newer_total rows a a) end|].
    rename select (Forall _ l) into Hall. rewrite Forall_forall in Hall. by apply Hall. }
  apply newer_spec in Hnew. lia.
Qed.

(** A turn is routed by the tenant's own keys and picks alone: to a provider it holds a key for and a
    model that can be routed there, or, when it has no pick and none of its providers has a default, to
    the default of the server. The first provider is one with the newest key. A pick the settings accept
    is the route from then on if it is for that provider, and otherwise changes nothing, for anyone. *)
Theorem tenant_route (tenant : Uuid) (kv : Kv.Table) (t : Creds.Table) :
  let ps := providers_of text_le tenant t in
  (forall q, q ∈ ps <-> exists c, c ∈ t /\ Creds.c_tenant c = tenant /\ Creds.c_provider c = q) /\
  (forall p c, head ps = Some p -> c ∈ t -> Creds.c_tenant c = tenant ->
     exists d, d ∈ t /\ Creds.c_tenant d = tenant /\ Creds.c_provider d = p /\ Creds.c_created c <= Creds.c_created d) /\
  match resolve_tenant_route text_le tenant kv t with
  | Some (p, m, others) => others = ps /\ p ∈ ps /\ Catalog.is_routable_model p m = true
  | None => Forall (fun p => Catalog.provider_models p = []) ps
  end /\
  (forall ctx provider model a v kv', SettingsRoutes.set_active ctx provider model a kv = (Ok v, kv') ->
     resolve_tenant_route text_le tenant kv' t =
       if bool_decide (ctx_tenant ctx = tenant /\ head ps = Some provider) then Some (provider, model, ps)
       else resolve_tenant_route text_le tenant kv t).
Proof.
  cbv zeta. split; [apply providers_of_spec|]. split; [intros p c; apply primary_newest|]. split.
  - unfold resolve_tenant_route. destruct (head _) as [primary|] eqn:Hh; cbn [mbind option_bind].
    + destruct (opt_filter _ _) as [m|] eqn:Hm.
      { split; [done|]. split; [by apply head_elem|]. destruct (_ ≫= _) as [x|]; [|done]. cbn in Hm.
        destruct (Catalog.is_routable_model primary x) eqn:Hr; [|done]. by injection Hm as <-. }
      destruct (first_default _) as [[p m]|] eqn:Hd; cbn [fmap option_fmap option_map].
      * apply first_default_some in Hd as [Hp Hd]. split; [done|]. split; [done|]. apply catalog_is_routable.
        destruct (Catalog.provider_models p); [done|]. injection Hd as ->. by left.
      * by apply first_default_none.
    + destruct (providers_of _ _ _); [constructor|done].
  - intros ctx provider model a v kv'. unfold SettingsRoutes.set_active.
    destruct (Catalog.is_routable_model provider model) eqn:Hr; [|done].
    unfold SettingsRoutes.put_setting. destruct (Kv.kv_upsert _ _ _ _ _ _) as [kv1|] eqn:Hup; [|done]. intros [= _ <-].
    unfold resolve_tenant_route. destruct (head _) as [primary|] eqn:Hh; cbn [mbind option_bind].
    2: { rewrite bool_decide_false; [done|]. by intros [_ ?]. }
    rewrite (kv_upsert_get _ _ _ _ _ _ _ _ _ _ Hup). case_bool_decide as Hk.
    + injection Hk as -> ->. rewrite bool_decide_true by done.
      assert (Some (obj [("model", String_ model)]) ≫= get_str "model" = Some model) as -> by done.
      cbn. by rewrite Hr.
    + rewrite bool_decide_false; [done|]. intros [<- [= ->]]. by apply Hk.
Qed.
End RouteProps.

(** ** Lemmas: the chain *)
Section ChainProps.
Context (env : EnvVars) (reg : Registry).
Abbreviation Link := (string * string * ApiMode)%type.

(** Every link speaks the wire of its own provider and model. *)
Definition derived (l : Link) : Prop := snd l = api_mode_of env reg (fst (fst l)) (snd (fst l)).

Lemma same_model_spec (a b : Link) : same_model a b = true <-> fst a = fst b.
Proof.
  destruct a as [[p m] x], b as [[q n] y]. unfold same_model. cbn. rewrite andb_true_iff, !String.eqb_eq.
  split; [by intros [-> ->]|by intros [= -> ->]].
Qed.

Lemma existsb_same (a : Link) (l : list Link) : existsb (fun x => same_model x a) l = true <-> fst a ∈ fst <$> l.
Proof.
  rewrite existsb_exists, list_elem_of_fmap. split.
  - intros (x & Hx & Hs%same_model_spec). exists x. by rewrite list_elem_of_In.
  - intros (x & Hx & Hin). exists x. rewrite <- list_elem_of_In. split; [done|]. by apply same_model_spec.
Qed.

(** What the loop over the other providers keeps, and what it adds. *)
Lemma cross_link_spec (primary q : string) (links : list Link) :
  Forall derived links -> NoDup (fst <$> links) ->
  let links' := cross_link env reg primary links q in
  Forall derived links' /\ NoDup (fst <$> links') /\ (exists more, links' = links ++ more) /\
  forall x, x ∈ fst <$> links' <->
    x ∈ fst <$> links \/ (q <> primary /\ exists n, head (Catalog.provider_models q) = Some n /\ x = (q, n)).
Proof.
  intros Hd Hn. cbv zeta. unfold cross_link.
  assert (forall ls, ls = links -> (forall x, x ∈ fst <$> ls <-> x ∈ fst <$> links) /\ exists more, ls = links ++ more) as Hsame
    by (intros ls ->; split; [done|exists []; by rewrite app_nil_r]).
  destruct (String.eqb_spec q primary) as [->|Hne].
  { split_and!; [done|done|by apply Hsame|]. intros x. split; [by left|]. by intros [?|[? _]]. }
  destruct (head (Catalog.provider_models q)) as [m|] eqn:Hm.
  2: { split_and!; [done|done|by apply Hsame|]. intros x. split; [by left|]. intros [?|(_ & n & ? & _)]; done. }
  destruct (existsb _ links) eqn:Hex.
  - apply existsb_same in Hex. cbn in Hex. split_and!; [done|done|by apply Hsame|]. intros x. split; [by left|].
    intros [?|(_ & n & [= <-] & ->)]; done.
  - assert ((q, m) ∉ fst <$> links) as Hnot.
    { intros H. assert (existsb (fun l => same_model l (q, m, api_mode_of env reg q m)) links = true) by (by apply existsb_same).
      congruence. }
    split_and!; [apply Forall_app; by repeat constructor| |by eexists|].
    + rewrite fmap_app. apply NoDup_app. split; [done|]. split; [|apply NoDup_singleton].
      intros x Hx ->%list_elem_of_singleton. done.
    + intros x. rewrite fmap_app, elem_of_app. cbn. rewrite list_elem_of_singleton. split.
      * intros [?| ->]; [by left|right; eauto].
      * intros [?|(_ & n & [= <-] & ->)]; [by left|by right].
Qed.

Lemma cross_links_spec (primary : string) (extras : list string) (links : list Link) :
  Forall derived links -> NoDup (fst <$> links) ->
  let links' := foldl (cross_link env reg primary) links extras in
  Forall derived links' /\ NoDup (fst <$> links') /\ (exists more, links' = links ++ more) /\
  forall x, x ∈ fst <$> links' <-> x ∈ fst <$> links \/
    (exists q n, q ∈ extras /\ q <> primary /\ head (Catalog.provider_models q) = Some n /\ x = (q, n)).
Proof.
  revert links. induction extras as [|q extras IH]; intros links Hd Hn; cbn [foldl]; cbv zeta.
  { split_and!; [done|done|exists []; by rewrite app_nil_r|]. intros x. split; [by left|].
    intros [Hx|(q & n & Hq & _)]; [done|]. by apply elem_of_nil in Hq. }
  destruct (cross_link_spec primary q links Hd Hn) as (Hd1 & Hn1 & [m1 Hm1] & Hx1). cbv zeta in *.
  destruct (IH _ Hd1 Hn1) as (Hd2 & Hn2 & [m2 Hm2] & Hx2). cbv zeta in *. split_and!; [done|done| |].
  - rewrite Hm2, Hm1. exists (m1 ++ m2). by rewrite app_assoc.
  - intros x. rewrite Hx2, Hx1. split.
    + intros [[?|(Hq & n & Hh & ->)]|(p & n & Hp & Hne & Hh & ->)]; [by left| |]; right;
        eexists _, _; (split; [|done]); [by left|by right].
    + intros [?|(p & n & [->|Hp]%elem_of_cons & Hne & Hh & ->)]; [by left; left|left; right; eauto|right; eauto 8].
Qed.
End ChainProps.

Definition fallbacks_of (p : string) : list string :=
  match registry_get register_all p with Some pr => fallback_models pr | None => [] end.
Lemma fallbacks_nodup (p : string) : NoDup (fallbacks_of p).
Proof.
  unfold fallbacks_of. destruct (registry_get register_all p) as [pr|] eqn:Hp; [|constructor].
  unfold registry_get, register_all in Hp.
  repeat match type of Hp with
  | <[_ := _]> _ !! _ = _ => apply lookup_insert_Some in Hp as [[_ <-] | [_ Hp]]; [cbn; repeat constructor; set_solver|]
  end. discriminate Hp.
Qed.

(** A turn starts at the model asked for and falls back to each link once: the models the provider's
    profile names, then the default of every other provider the tenant holds a key for that has one, each
    over the wire of its own provider and model. *)
Theorem chain_exact (env : EnvVars) (p m : string) (extras : list string) :
  let links := build_chain_links env register_all p m extras in
  head links = Some (p, m, api_mode_of env register_all p m) /\
  NoDup (fst <$> links) /\ Forall (derived env register_all) links /\
  (forall q n, (q, n) ∈ fst <$> links <->
     (q = p /\ (n = m \/ n ∈ fallbacks_of p)) \/
     (q ∈ extras /\ q <> p /\ head (Catalog.provider_models q) = Some n)) /\
  chain_run (length links) (build_chain env register_all p m extras) = tail links.
Proof.
  cbv zeta. unfold build_chain, build_chain_links.
  set (own := [fallback_link env register_all p m] ++ _).
  assert (own = fallback_link env register_all p <$> (m :: List.filter (fun fm => negb (String.eqb fm m)) (fallbacks_of p))) as Hown.
  { subst own. unfold fallbacks_of. by destruct (registry_get _ _). }
  assert (forall l, fst <$> (fallback_link env register_all p <$> l) = pair p <$> l) as Hfst
    by (intros l; rewrite <- list_fmap_compose; by apply list_fmap_ext).
  assert (forall n, n ∈ List.filter (fun fm => negb (String.eqb fm m)) (fallbacks_of p) <-> n ∈ fallbacks_of p /\ n <> m) as Hfil.
  { intros n. by rewrite !list_elem_of_In, filter_In, negb_true_iff, String.eqb_neq. }
  destruct (cross_links_spec env register_all p extras own) as (Hd & Hn & [more Hmore] & Hx).
  { rewrite Hown. apply Forall_fmap. by apply Forall_forall. }
  { rewrite Hown, Hfst. apply NoDup_fmap_2; [by intros ? ? [= ->]|]. constructor; [by rewrite Hfil; intros []|].
    apply NoDup_ListNoDup, List.NoDup_filter, NoDup_ListNoDup, fallbacks_nodup. }
  cbv zeta in *. assert (head (foldl (cross_link env register_all p) own extras) = Some (fallback_link env register_all p m)) as Hh
    by (by rewrite Hmore, Hown).
  split_and!; [done|done|done| |].
  - intros q n. rewrite Hx, Hown, Hfst, list_elem_of_fmap. setoid_rewrite elem_of_cons. split.
    + intros [(y & [= -> ->] & [->|[? _]%Hfil])|(q' & n' & ? & ? & ? & [= -> ->])]; eauto.
    + intros [[-> Hnm]|(? & ? & ?)]; [left; exists n; split; [done|]|right; eauto 8].
      destruct (decide (n = m)) as [->|Hne]; [by left|right]. apply Hfil. split; [|done]. by destruct Hnm.
  - rewrite chain_run_drop; cbn [chain_new links idx].
    + destruct (foldl _ _ _) as [|x l]; [done|]. change (firstn (S (length l)) l = l). apply take_ge. lia.
    + destruct (foldl _ _ _); [done|cbn; lia].
Qed.

(** ** Examples *)
(** The tests of the source. *)
Example links_of_the_tests :
  fst <$> build_chain_links (fun _ => None) register_all "deepseek" "deepseek-chat" ["openai"; "anthropic"]
    = [("deepseek", "deepseek-chat"); ("openai", "gpt-5.5"); ("anthropic", "claude-opus-4-8")] /\
  snd <$> build_chain_links (fun _ => None) register_all "deepseek" "deepseek-chat" ["openai"; "anthropic"]
    = [ChatCompletions; Responses; AnthropicMessages] /\
  build_chain_links (fun _ => None) register_all "openai" "gpt-5.5" []
    = [("openai", "gpt-5.5", Responses); ("openai", "gpt-5.4-mini", Responses)] /\
  fst <$> build_chain_links (fun _ => None) register_all "openai" "gpt-4o" ["openai"; "totally-unknown"; "deepseek"]
    = [("openai", "gpt-4o"); ("openai", "gpt-5.4-mini"); ("deepseek", "deepseek-v4-pro")].
Proof. vm_compute. repeat split. Qed.

Definition route_key (now : Z) (provider : string) (i : Uuid) (t : Creds.Table) : Creds.Table :=
  snd (@Creds.put_key Vault.Toy.toy_aead demo_text Envelope.StubKms "stub-dev" now demo_ctx
    {| Creds.pk_provider := provider; Creds.pk_label := None; Creds.pk_key := "sk-of-the-tenant"; Creds.pk_priority := 0 |}
    i (demo_draw 17) demo_accounts t).
Definition route_kv (provider model : string) (kv : Kv.Table) : Kv.Table :=
  snd (SettingsRoutes.set_active demo_ctx provider model demo_accounts kv).

(** A key for a provider without a catalog, and no pick: the turn goes to the default of the server, for
    which the tenant has no key, without the provider it does have. *)
Example kimi_alone_goes_nowhere :
  effective_route_with_providers (fun _ _ => true) (fun _ => None) 1%N [] (route_key 5 "kimi" 7%N [])
  = ("openai", "gpt-4o-mini", []) /\
  effective_route_with_providers (fun _ _ => true) (fun _ => None) 1%N (route_kv "kimi" "kimi-k2" []) (route_key 5 "kimi" 7%N [])
  = ("kimi", "kimi-k2", ["kimi"]).
Proof. vm_compute. repeat split. Qed.

Lemma tenant_route_witness :
  let t := route_key 9 "deepseek" 8%N (route_key 5 "anthropic" 7%N []) in
  let kv := route_kv "deepseek" "deepseek-v5-pro" (route_kv "anthropic" "claude-haiku-4-5" []) in
  resolve_tenant_route (fun _ _ => true) 1%N kv t = Some ("deepseek", "deepseek-v5-pro", ["deepseek"; "anthropic"]) /\
  resolve_tenant_route (fun _ _ => true) 1%N (route_kv "anthropic" "claude-opus-4-8" kv) t
  = resolve_tenant_route (fun _ _ => true) 1%N kv t.
Proof.
  cbv zeta. split; [vm_compute; reflexivity|].
  destruct (tenant_route (fun _ _ => true) (fun _ _ => or_introl eq_refl) (fun _ _ _ _ _ => eq_refl) 1%N
    (route_kv "deepseek" "deepseek-v5-pro" (route_kv "anthropic" "claude-haiku-4-5" []))
    (route_key 9 "deepseek" 8%N (route_key 5 "anthropic" 7%N []))) as (_ & _ & _ & Hpick).
  set (kv := route_kv "deepseek" _ _) in *. set (t := route_key 9 _ _ _) in *.
  assert (SettingsRoutes.set_active demo_ctx "anthropic" "claude-opus-4-8" demo_accounts kv
    = (Ok (obj [("model", String_ "claude-opus-4-8")]), route_kv "anthropic" "claude-opus-4-8" kv)) as E by (vm_compute; reflexivity).
  pose proof (Hpick _ _ _ _ _ _ E) as H. rewrite bool_decide_false in H; [exact H|]. intros [_ Hh]. vm_compute in Hh. discriminate.
Defined.
