(* ===== verification/Recall.v ===== *)
(** * Recall: searching and reading the notes of a tenant

    [SearchRoute]: [utils/search-route], which index a pattern goes to. [SearchRepo]:
    [store/src/search_repo.rs], the queries over the three tables, with full-text matching, similarity
    and [ILIKE] as parameters of Postgres. [RecallSearch] and [ToolPolicy]:
    [ideas/src/recall/search_tool.rs] and [tool_policy.rs]. [RecallTools]:
    [app-server/src/recall_tools.rs], what executes the calls of the model. Reads of the database
    succeed. *)
From S2P Require Import Prelude RustStr Json Protocol WikiText Redact Wiki Server Ideas Web.
From stdpp Require Import list pretty.
Import Paths.

#[local] Open Scope string_scope.
#[local] Open Scope list_scope.
#[local] Open Scope Z_scope.

(** ** Routing a pattern *)
Module SearchRoute.
(* src/qcue-rs/utils/search-route/src/lib.rs 9-17 SearchMode *)
Inductive SearchMode : Type := Tsvector | Trigram | Like.
#[export] Instance SearchMode_eq_dec : EqDecision SearchMode.
Proof. solve_decision. Defined.

(** [c as u32], of a character given as its bytes. *)
Definition byte_of (c : ascii) : Z := Z.of_nat (nat_of_ascii c).
Fixpoint tail_bits (acc : Z) (s : string) : Z :=
  match s with
  | EmptyString => acc
  | String c s => tail_bits (acc * 64 + Z.land (byte_of c) 63) s
  end.
Definition code_point (ch : string) : Z :=
  match ch with
  | EmptyString => 0
  | String c "" => byte_of c
  | String c (String _ "" as t) => tail_bits (Z.land (byte_of c) 31) t
  | String c (String _ (String _ "") as t) => tail_bits (Z.land (byte_of c) 15) t
  | String c t => tail_bits (Z.land (byte_of c) 7) t
  end.
Definition in_range (lo hi z : Z) : bool := (lo <=? z) && (z <=? hi).
(* src/qcue-rs/utils/search-route/src/lib.rs 21-28 is_cjk *)
Definition is_cjk (ch : string) : bool :=
  let z := code_point ch in
  in_range 19968 40959 z || in_range 12352 12447 z || in_range 12448 12543 z || in_range 44032 55215 z.

Definition max_list (l : list nat) : nat := foldr Nat.max 0%nat l.
(* src/qcue-rs/utils/search-route/src/lib.rs 31-41 route_search *)
Definition route_search (q : string) : SearchMode :=
  let cjk_count := length (List.filter is_cjk (Chars.chars q)) in
  let longest_latin := max_list (Chars.count <$> Words.split_whitespace q) in
  if Nat.leb 2 cjk_count then Trigram
  else if Nat.leb 1 cjk_count then Like
  else if Nat.leb 3 longest_latin then Tsvector
  else Like.
End SearchRoute.
Import SearchRoute.

(** ** The queries *)
Module SearchRepo.
(** [m_role] is the text of an enum. *)
(* src/qcue-rs/migrations/10001_M1_0001_messages.sql 6-32 messages *)
Record MessageRow : Type := {
  m_id : Uuid;
  m_tenant : Uuid;
  m_session : Uuid;
  m_user : option Uuid;
  m_role : string;
  m_content : option string;
  m_seq : Z;
  m_active : bool;
}.
(* src/qcue-rs/store/src/search_repo.rs 12-18 RawHit *)
Record RawHit : Type := { h_id : Uuid; h_body : string; h_session : option Uuid; h_source : string }.

Section Repo.
(** Of Postgres: [search_tsv @@ plainto_tsquery('simple', unaccent(q))] on the text a row is indexed
    under; [body ILIKE '%'||q||'%']; the orders by [ts_rank] and by [similarity], best first. *)
Context (fts ilike : string -> string -> bool) (rank_ge similar_ge : string -> string -> string -> bool).
(** The text a page is indexed under: its title, aliases and summary. *)
Context (page_text : Repo.PageRow -> string).

Definition limit_rows {A} (limit : Z) (l : list A) : list A := firstn (Z.to_nat limit) l.
Definition by_rank {A} (ge : string -> string -> string -> bool) (q : string) (text : A -> string) : list A -> list A :=
  sort_by (fun a b => ge q (text a) (text b)).

Definition idea_hit (r : IdeaRow) : RawHit :=
  {| h_id := i_id r; h_body := i_body r; h_session := None; h_source := "idea" |}.
(* src/qcue-rs/store/src/search_repo.rs 31-57 search_ideas *)
Definition search_ideas (tenant : Uuid) (q : string) (mode : SearchMode) (limit : Z) (ideas : list IdeaRow) : list RawHit :=
  let live := List.filter (fun r => N.eqb (i_tenant r) tenant && i_active r) ideas in
  idea_hit <$> limit_rows limit
    match mode with
    | Tsvector => by_rank rank_ge q i_body (List.filter (fun r => fts (i_body r) q) live)
    | Trigram => by_rank similar_ge q i_body (List.filter (fun r => ilike (i_body r) q) live)
    | Like => List.filter (fun r => ilike (i_body r) q) live
    end.

Definition m_text (r : MessageRow) : string := unwrap_or (m_content r) "".
Definition message_hit (r : MessageRow) : RawHit :=
  {| h_id := m_id r; h_body := m_text r; h_session := Some (m_session r); h_source := "message" |}.
Definition content_like (q : string) (r : MessageRow) : bool :=
  match m_content r with Some c => ilike c q | None => false end.
(* src/qcue-rs/store/src/search_repo.rs 60-85 search_messages *)
Definition search_messages (tenant : Uuid) (q : string) (mode : SearchMode) (limit : Z) (messages : list MessageRow) : list RawHit :=
  let live := List.filter (fun r => N.eqb (m_tenant r) tenant && m_active r) messages in
  message_hit <$> limit_rows limit
    match mode with
    | Tsvector => by_rank rank_ge q m_text (List.filter (fun r => fts (m_text r) q) live)
    | Trigram => by_rank similar_ge q m_text (List.filter (content_like q) live)
    | Like => List.filter (content_like q) live
    end.

Definition page_hit (r : Repo.PageRow) : RawHit :=
  {| h_id := Repo.id r; h_body := Repo.summary r; h_session := None; h_source := "wiki" |}.
(* src/qcue-rs/store/src/search_repo.rs 88-108 search_wiki *)
Definition search_wiki (tenant : Uuid) (q : string) (mode : SearchMode) (limit : Z) (db : Repo.Db) : list RawHit :=
  let live := List.filter (Repo.live tenant) (Repo.pages db) in
  page_hit <$> limit_rows limit
    match mode with
    | Tsvector => by_rank rank_ge q page_text (List.filter (fun r => fts (page_text r) q) live)
    | Trigram | Like => List.filter (fun r => ilike (Repo.title r) q || ilike (Repo.summary r) q) live
    end.
End Repo.
End SearchRepo.
Import SearchRepo.

(** ** The search of the model *)
Module RecallSearch.
(* src/qcue-rs/ideas/src/recall/search_tool.rs 17-22 RecallMode *)
Inductive RecallMode : Type := Browse | Discovery | Scroll.
(* src/qcue-rs/ideas/src/recall/search_tool.rs 25-30 RecallArgs *)
Record RecallArgs : Type := { ra_pattern : string; ra_mode : RecallMode; ra_current : option Uuid }.
(* src/qcue-rs/protocol/src/appendix_a.rs 28-34 Citation *)
Record Citation : Type := { rel_path : string; start_line : Z; end_line : Z }.
(* src/qcue-rs/ideas/src/recall/search_tool.rs 34-41 RecallHit *)
Record RecallHit : Type := {
  rh_id : Uuid;
  window : string;
  goal : option string;
  conclusion : option string;
  citation : option Citation;
}.

(* src/qcue-rs/ideas/src/recall/search_tool.rs 66-77 infer_mode *)
Definition infer_mode `{Unicode} (pattern : string) (has_direction : bool) : RecallMode :=
  if has_direction || Str.starts_with "hit-" pattern then Scroll
  else if negb (Str.contains " " pattern) && negb (String.eqb pattern "")
          && forallb (fun c => is_alphanumeric c || String.eqb c "-" || String.eqb c "_") (Chars.chars pattern)
  then Browse else Discovery.

(* src/qcue-rs/ideas/src/recall/search_tool.rs 81-86 safe_citation *)
Definition safe_citation (rel : string) (line : Z) : option Citation :=
  if Str.contains "/" rel || Str.contains ".." rel then None
  else Some {| rel_path := rel; start_line := line; end_line := line |}.

(* src/qcue-rs/ideas/src/recall/search_tool.rs 90-95 bookends *)
Definition bookends (body : string) : option string * option string :=
  let lines := List.filter (fun l => negb (String.eqb l "")) (Str.trim <$> Str.lines body) in
  (head lines, last lines).

(** [id.simple()]: the 32 hexadecimal digits. *)
Definition simple (i : Uuid) : string := Limiter.hex_pad 32 (Z.of_N i) "".
Definition hit_of (r : RawHit) : RecallHit :=
  let '(g, c) := bookends (h_body r) in
  {| rh_id := h_id r; window := h_body r; goal := g; conclusion := c;
     citation := safe_citation (simple (h_id r) +:+ ".md") 0 |}.
Definition of_session (current : option Uuid) (r : RawHit) : bool :=
  match current, h_session r with
  | Some cur, Some sess => N.eqb cur sess
  | _, _ => false
  end.
Fixpoint collect_hits (current : option Uuid) (seen : list Uuid) (raw : list RawHit) : list RecallHit :=
  match raw with
  | [] => []
  | r :: raw =>
      if of_session current r then collect_hits current seen raw
      else if existsb (N.eqb (h_id r)) seen then collect_hits current seen raw
      else hit_of r :: collect_hits current (h_id r :: seen) raw
  end.

(* src/qcue-rs/ideas/src/recall/search_tool.rs 100-135 run_recall_search *)
Definition run_recall_search (search : Uuid -> string -> SearchMode -> Z -> list RawHit) (tenant : Uuid) (args : RecallArgs)
  : SearchMode * list RecallHit :=
  let mode := route_search (ra_pattern args) in
  (mode, collect_hits (ra_current args) [] (search tenant (ra_pattern args) mode 50)).
End RecallSearch.
Import RecallSearch.

(** ** What the model is offered *)
Module ToolPolicy.
(** [json!({ "type": "object", "properties": { name: { "type": t, "description": d } }, "required": req })] *)
Definition described (t d : string) : Value := obj [("type", jstr t); ("description", jstr d)].
Definition schema (properties : list (string * Value)) (required : list string) : Value :=
  obj [("type", jstr "object"); ("properties", obj properties); ("required", Array (jstr <$> required))].
Definition arrow : string := Str.bytes [226; 134; 146]%nat.
Definition dash : string := Str.bytes [226; 128; 148]%nat.
Definition in_quotes (s : string) : string := Str.quote +:+ s +:+ Str.quote.

(* src/qcue-rs/ideas/src/recall/search_tool.rs 45-62 recall_search_tool *)
Definition recall_search_tool : ToolDef := {|
  td_name := "recall_search";
  td_description := "Search the user's captures, transcripts, and wiki for a pattern YOU choose. Modes are inferred from args: a bare slug "
    +:+ arrow +:+ " browse recent; a free pattern " +:+ arrow
    +:+ " discovery (returns bookended hits: the goal + the conclusion of each result's lineage with an anchored window); a match id + direction "
    +:+ arrow +:+ " scroll. Returns a conservative file:line citation.";
  td_input_schema := schema
    [("pattern", described "string" "Your search pattern (passed through verbatim).");
     ("mode", obj [("type", jstr "string"); ("enum", Array (jstr <$> ["browse"; "discovery"; "scroll"]))])] ["pattern"] |}.
(* src/qcue-rs/ideas/src/recall/tool_policy.rs 31-43 read_page_tool *)
Definition read_page_tool : ToolDef := {|
  td_name := "read_page";
  td_description := "Read a whole wiki page by its slug (realpath-guarded, .md only).";
  td_input_schema := schema
    [("slug", described "string" ("The wiki page slug, e.g. " +:+ in_quotes "rust" +:+ " or " +:+ in_quotes "postgres-migrations" +:+ "."))]
    ["slug"] |}.
(* src/qcue-rs/ideas/src/recall/tool_policy.rs 46-60 read_lines_tool *)
Definition read_lines_tool : ToolDef := {|
  td_name := "read_lines";
  td_description := "Read a line window [start, end] (1-based, inclusive) of a wiki page by slug.";
  td_input_schema := schema
    [("slug", described "string" "The wiki page slug."); ("start", described "integer" "First line to read (1-based).");
     ("end", described "integer" "Last line to read (inclusive).")] ["slug"] |}.
(* src/qcue-rs/ideas/src/recall/tool_policy.rs 64-78 web_search_tool *)
Definition web_search_tool : ToolDef := {|
  td_name := "web_search";
  td_description := "Search the public web for a query. Returns the top results as title " +:+ dash +:+ " URL " +:+ dash
    +:+ " snippet. Use it for current events, recent facts, or to find a page to web_fetch.";
  td_input_schema := schema [("query", described "string" "What to search the web for.")] ["query"] |}.
(* src/qcue-rs/ideas/src/recall/tool_policy.rs 82-98 web_fetch_tool *)
Definition web_fetch_tool : ToolDef := {|
  td_name := "web_fetch";
  td_description := "Fetch a public web page by URL and return its readable text. http/https only; private, loopback, and link-local hosts are blocked. Use it to read a page the user names or a result from web_search.";
  td_input_schema := schema
    [("url", described "string" "The absolute http(s) URL to fetch.");
     ("max_chars", described "integer" "Optional cap on returned characters.")] ["url"] |}.
(* src/qcue-rs/ideas/src/recall/tool_policy.rs 20-26 tool *)
Definition tool (name desc : string) : ToolDef :=
  {| td_name := name; td_description := desc; td_input_schema := schema [] [] |}.

(* src/qcue-rs/ideas/src/recall/tool_policy.rs 11-16 ToolPolicy *)
Record ToolPolicy : Type := { tools : list ToolDef; network_off : bool; root_confined : bool; allow_propose : bool }.
(* src/qcue-rs/ideas/src/recall/tool_policy.rs 106-121 build_tool_policy *)
Definition build_tool_policy (allow_propose allow_web : bool) : ToolPolicy := {|
  tools := [recall_search_tool; read_page_tool; read_lines_tool]
    ++ (if allow_web then [web_search_tool; web_fetch_tool] else [])
    ++ (if allow_propose
        then [tool "propose_edit" ("Propose an edit to a page (routed through candidates" +:+ arrow +:+ "confirm).");
              tool "propose_write" ("Propose a new page (routed through candidates" +:+ arrow +:+ "confirm).")]
        else []);
  network_off := negb allow_web; root_confined := true; allow_propose := allow_propose |}.
End ToolPolicy.
Import ToolPolicy.

(** ** What executes its calls *)
Module RecallTools.
(* src/qcue-rs/app-server/src/recall_tools.rs 171-178 truncate *)
Definition truncate (s : string) (max : nat) : string :=
  if Nat.leb (Chars.count s) max then s else Chars.take max s +:+ Html.ellipsis.

Definition mode_debug (m : SearchMode) : string :=
  match m with Tsvector => "Tsvector" | Trigram => "Trigram" | Like => "Like" end.

Section Exec.
Context `{J : Json} {F : Type} `{O : Os F}.
(** The search of the repository, the tenant, the root of its pages and the session to leave out. *)
Context (search : Uuid -> string -> SearchMode -> Z -> list RawHit) (tenant : Uuid) (vault_root : Path)
  (current_session : option Uuid).

Definition hit_lines (i : nat) (h : RecallHit) : string :=
  let cite := match citation h with Some c => rel_path c +:+ ":" +:+ pretty (start_line c) | None => "(no citation)" end in
  Str.lf +:+ "[" +:+ pretty (Z.of_nat (S i)) +:+ "] " +:+ cite +:+ Str.lf
  +:+ match goal h with Some g => "  goal: " +:+ truncate g 200 +:+ Str.lf | None => "" end
  +:+ match conclusion h with Some c => "  conclusion: " +:+ truncate c 200 +:+ Str.lf | None => "" end
  +:+ "  window: " +:+ truncate (window h) 600 +:+ Str.lf.
(** The mode inferred from the pattern is passed on and never read. *)
(* src/qcue-rs/app-server/src/recall_tools.rs 42-76 recall_search *)
Definition recall_search `{Unicode} (arguments : string) : result string string :=
  let? v := map_err (fun e => "invalid recall_search arguments: " +:+ e) (from_str arguments) in
  let pattern := Str.trim (unwrap_or (get_str "pattern" v) "") in
  if String.eqb pattern "" then Err "recall_search requires a non-empty `pattern`"
  else
    let args := {| ra_mode := infer_mode pattern false; ra_pattern := pattern; ra_current := current_session |} in
    let '(mode, hits) := run_recall_search search tenant args in
    let about := in_quotes pattern +:+ " (mode: " +:+ mode_debug mode +:+ ")" in
    match hits with
    | [] => Ok ("No results found for " +:+ about +:+ ".")
    | _ =>
        Ok ("Found " +:+ pretty (Z.of_nat (length hits)) +:+ " result(s) for " +:+ about +:+ ":" +:+ Str.lf
            +:+ Chars.concat (imap hit_lines (take 10 hits)))
    end.

(* src/qcue-rs/app-server/src/recall_tools.rs 140-145 under_root *)
Definition under_root (p : Path) (f : F) : bool :=
  match canonicalize vault_root f, canonicalize p f with
  | Ok root, Ok real => Paths.starts_with root real
  | _, _ => false
  end.
Definition read_if (p : Path) (f : F) : option string :=
  if under_root p f then result_ok (read_to_string p f) else None.
Definition candidates (slug : string) : list Path :=
  (fun rel => join vault_root rel)
  <$> [slug +:+ ".md"; "entities/" +:+ slug +:+ ".md"; "concepts/" +:+ slug +:+ ".md"; "sources/" +:+ slug +:+ ".md"].
(* src/qcue-rs/app-server/src/recall_tools.rs 119-137 resolve_page *)
Definition resolve_page (slug : string) (f : F) : option string :=
  if Str.contains ".." slug then None
  else head (omap (fun p => read_if p f) (candidates slug)).

(* src/qcue-rs/app-server/src/recall_tools.rs 80-91 read_page *)
Definition read_page (arguments : string) (f : F) : result string string :=
  let? v := map_err (fun e => "invalid read_page arguments: " +:+ e) (from_str arguments) in
  let slug := Str.trim (unwrap_or (get_str "slug" v) "") in
  if String.eqb slug "" then Err "read_page requires a `slug`"
  else Ok match resolve_page slug f with
          | Some body => truncate body (8 * 1000)
          | None => "page not found: " +:+ slug
          end.

(** The lines of [body] numbered from 1, those from [start] to [end_]. *)
Definition line_window (start end_ : Z) (body : string) : list string :=
  omap (fun '(i, l) => if (start <=? Z.of_nat i + 1) && (Z.of_nat i <? end_)
                       then Some (pretty (Z.of_nat i + 1) +:+ ": " +:+ l) else None)
    (imap pair (Str.lines body)).
(** [start + 40] is computed in 64 bits and wraps. *)
(* src/qcue-rs/app-server/src/recall_tools.rs 94-115 read_lines *)
Definition read_lines (arguments : string) (f : F) : result string string :=
  let? v := map_err (fun e => "invalid read_lines arguments: " +:+ e) (from_str arguments) in
  let slug := Str.trim (unwrap_or (get_str "slug" v) "") in
  if String.eqb slug "" then Err "read_lines requires a `slug`"
  else
    let start := Z.max 1 (unwrap_or (get "start" v ≫= Json.as_u64) 1) in
    let end_ := unwrap_or (get "end" v ≫= Json.as_u64) (Int.wrap_u64 (start + 40)) in
    Ok match resolve_page slug f with
       | Some body =>
           match line_window start end_ body with
           | [] => "(no lines in range)"
           | w => Str.join Str.lf w
           end
       | None => "page not found: " +:+ slug
       end.

(** The live client, if one is wired: [web_fetch] and [web_search] over the state of the network. *)
Context {N : Type} (web : option ((string -> N -> result string string * N) * (string -> N -> result string string * N))).
(* src/qcue-rs/app-server/src/recall_tools.rs 150-168 call *)
Definition call `{Unicode} (name arguments : string) (f : F) (n : N) : result string string * N :=
  if String.eqb name "recall_search" then (recall_search arguments, n)
  else if String.eqb name "read_page" then (read_page arguments f, n)
  else if String.eqb name "read_lines" then (read_lines arguments f, n)
  else if String.eqb name "web_fetch" then
    match web with
    | Some (fetch, _) => fetch arguments n
    | None => (Err "web_fetch is disabled (no internet access in this context)", n)
    end
  else if String.eqb name "web_search" then
    match web with
    | Some (_, search) => search arguments n
    | None => (Err "web_search is disabled (no internet access in this context)", n)
    end
  else (Err ("unknown recall tool: " +:+ name), n).
End Exec.
End RecallTools.
Import RecallTools.

(** ** Lemmas *)
Lemma collect_hits_spec (current : option Uuid) (seen : list Uuid) (raw : list RawHit) :
  NoDup (rh_id <$> collect_hits current seen raw) /\
  (forall h, h ∈ collect_hits current seen raw -> (rh_id h ∉ seen) /\ exists r, r ∈ raw /\ h = hit_of r /\ of_session current r = false) /\
  (forall r, r ∈ raw -> of_session current r = false -> h_id r ∈ seen \/ h_id r ∈ rh_id <$> collect_hits current seen raw).
Proof.
  assert (forall r, rh_id (hit_of r) = h_id r) as Hid by (intros r; unfold hit_of; by destruct (bookends _)).
  revert seen. induction raw as [|r raw IH]; intros seen; cbn [collect_hits].
  { split_and!; [constructor|by intros h Hh%elem_of_nil|by intros r Hr%elem_of_nil]. }
  assert (existsb (N.eqb (h_id r)) seen = true <-> h_id r ∈ seen) as Hs.
  { rewrite existsb_exists. setoid_rewrite N.eqb_eq. setoid_rewrite <- list_elem_of_In. split; [by intros (x & Hx & ->)|eauto]. }
  destruct (of_session current r) eqn:Ho; [|destruct (existsb _ seen) eqn:He].
  - destruct (IH seen) as (H1 & H2 & H3). split_and!; [done| |].
    + intros h Hh. destruct (H2 h Hh) as (? & r' & ? & ? & ?). split; [done|]. exists r'. split; [by right|done].
    + intros r' [->|Hr]%elem_of_cons Hn; [congruence|]. by apply H3.
  - assert (h_id r ∈ seen) as He' by (by apply Hs). destruct (IH seen) as (H1 & H2 & H3). split_and!; [done| |].
    + intros h Hh. destruct (H2 h Hh) as (? & r' & ? & ? & ?). split; [done|]. exists r'. split; [by right|done].
    + intros r' [->|Hr]%elem_of_cons Hn; [by left|]. by apply H3.
  - assert (h_id r ∉ seen) as Hns by (intros H; by apply Hs in H).
    destruct (IH (h_id r :: seen)) as (H1 & H2 & H3). split_and!.
    + rewrite fmap_cons, Hid. constructor; [|done]. intros (h & Hh & Hin)%list_elem_of_fmap. destruct (H2 h Hin) as [Hn _].
      apply Hn. rewrite <- Hh. by left.
    + intros h [->|Hh]%elem_of_cons; [rewrite Hid; split; [done|]; exists r; split; [by left|done]|].
      destruct (H2 h Hh) as (Hn & r' & ? & ? & ?). split; [by intros ?; apply Hn; right|]. exists r'. split; [by right|done].
    + intros r' [->|Hr]%elem_of_cons Hn; rewrite fmap_cons, Hid; [right; by left|].
      destruct (H3 r' Hr Hn) as [[->|?]%elem_of_cons|?]; [right; by left|by left|right; by right].
Qed.

Section SearchProps.
Context (fts ilike : string -> string -> bool) (rank_ge similar_ge : string -> string -> string -> bool).

Definition own_active (tenant : Uuid) (r : IdeaRow) : bool := N.eqb (i_tenant r) tenant && i_active r.
Lemma search_ideas_rows (tenant : Uuid) (q : string) (mode : SearchMode) (limit : Z) (ideas : list IdeaRow) (h : RawHit) :
  h ∈ search_ideas fts ilike rank_ge similar_ge tenant q mode limit ideas ->
  exists r, r ∈ ideas /\ own_active tenant r = true /\ h = idea_hit r /\
    match mode with Tsvector => fts (i_body r) q | _ => ilike (i_body r) q end = true.
Proof.
  unfold search_ideas, limit_rows, by_rank. intros (r & -> & Hr)%list_elem_of_fmap.
  match type of Hr with _ ∈ firstn ?n ?l => assert (r ∈ l) as Hr'; [rewrite <- (take_drop n l); apply elem_of_app; by left|] end.
  clear Hr; rename Hr' into Hr.
  assert (forall p, r ∈ List.filter p (List.filter (fun r => N.eqb (i_tenant r) tenant && i_active r) ideas) ->
    r ∈ ideas /\ own_active tenant r = true /\ p r = true) as Hf.
  { intros p Hin. apply list_elem_of_In, filter_In in Hin as [Hin Hp]. apply filter_In in Hin as [Hin Ho].
    by rewrite list_elem_of_In. }
  exists r. destruct mode; [rewrite sort_by_perm in Hr|rewrite sort_by_perm in Hr|];
    (destruct (Hf _ Hr) as (? & ? & ?); split_and!; done).
Qed.

Lemma length_search_ideas (tenant : Uuid) (q : string) (mode : SearchMode) (limit : Z) (ideas : list IdeaRow) :
  (length (search_ideas fts ilike rank_ge similar_ge tenant q mode limit ideas) <= Z.to_nat limit)%nat.
Proof. unfold search_ideas, limit_rows. rewrite length_fmap. apply firstn_le_length. Qed.
End SearchProps.

(** No hexadecimal digit is a slash or a dot, so every hit can be cited. *)
Lemma hex_pad_chars (n : nat) (h : Z) (acc : string) (c : ascii) :
  (forall z, 0 <= z < 16 -> Limiter.hex_of z <> c) -> Str.no_char c acc = true -> Str.no_char c (Limiter.hex_pad n h acc) = true.
Proof.
  intros Hc. revert h acc. induction n as [|n IH]; intros h acc Ha; [done|]. cbn [Limiter.hex_pad]. apply IH.
  cbn [Str.no_char]. rewrite Ha, andb_true_r, negb_true_iff. apply Ascii.eqb_neq. intros H.
  apply (Hc (h mod 16)); [by apply Z.mod_pos_bound|done].
Qed.

Lemma hit_cited (r : RawHit) :
  citation (hit_of r) = Some {| rel_path := simple (h_id r) +:+ ".md"; start_line := 0; end_line := 0 |}.
Proof.
  unfold hit_of. destruct (bookends _). cbn [citation]. unfold safe_citation.
  assert (forall c, (forall z, 0 <= z < 16 -> Limiter.hex_of z <> c) -> Str.no_char c (simple (h_id r)) = true) as Hh
    by (intros c Hc; by apply hex_pad_chars).
  assert (forall k, k < 48 -> forall z, 0 <= z < 16 -> Limiter.hex_of z <> ascii_of_nat (Z.to_nat k)) as Hlow.
  { intros k Hk z Hz. unfold Limiter.hex_of. intros E. apply (f_equal nat_of_ascii) in E.
    rewrite !nat_ascii_embedding in E by (try case_match; lia). case_match; lia. }
  pose proof (Hh "/"%char (Hlow 47 ltac:(lia))) as Hs. pose proof (Hh "."%char (Hlow 46 ltac:(lia))) as Hd.
  assert (Str.contains "/" (simple (h_id r) +:+ ".md") = false) as ->.
  { rewrite Str.contains_app_no_start by done. reflexivity. }
  assert (Str.contains ".." (simple (h_id r) +:+ ".md") = false) as ->; [|done].
  rewrite Str.contains_app_no_start by done. reflexivity.
Qed.

(** A window is the slice of the lines, numbered from [start]. *)
Lemma line_window_slice (start end_ : Z) (body : string) :
  1 <= start ->
  line_window start end_ body =
  imap (fun k l => pretty (start + Z.of_nat k) +:+ ": " +:+ l)
    (take (Z.to_nat (end_ - (start - 1))) (drop (Z.to_nat (start - 1)) (Str.lines body))).
Proof.
  intros Hs. unfold line_window.
  assert (forall l off, omap (fun '(i, l) => if (start <=? Z.of_nat i + 1) && (Z.of_nat i <? end_)
      then Some (pretty (Z.of_nat i + 1) +:+ ": " +:+ l) else None) (imap (fun i x => ((off + i)%nat, x)) l) =
    imap (fun k l => pretty (Z.max start (Z.of_nat off + 1) + Z.of_nat k) +:+ ": " +:+ l)
      (take (Z.to_nat (end_ - Z.max (start - 1) (Z.of_nat off))) (drop (Z.to_nat (start - 1 - Z.of_nat off)) l))) as H.
  { induction l as [|x l IH]; intros off; [by rewrite drop_nil, take_nil|].
    cbn [imap omap list_omap]. rewrite Nat.add_0_r.
    assert (imap ((fun i x => ((off + i)%nat, x)) ∘ S) l = imap (fun i x => ((S off + i)%nat, x)) l) as ->
      by (apply imap_ext; intros i y _; cbn; f_equal; lia).
    pose proof (IH (S off)) as IH'. cbn [imap omap list_omap] in IH'. 
    destruct (Z.leb_spec start (Z.of_nat off + 1)) as [Hle|Hlt]; cbn [andb].
    - replace (Z.to_nat (start - 1 - Z.of_nat off)) with 0%nat by lia. rewrite drop_0.
      replace (Z.to_nat (start - 1 - Z.of_nat (S off))) with 0%nat in IH' by lia. rewrite drop_0 in IH'.
      destruct (Z.ltb_spec (Z.of_nat off) end_) as [Hlo|Hhi].
      + replace (Z.to_nat (end_ - Z.max (start - 1) (Z.of_nat off))) with (S (Z.to_nat (end_ - Z.max (start - 1) (Z.of_nat (S off))))) by lia.
        cbn [take imap]. f_equal; [do 2 f_equal; lia|]. rewrite IH'. apply imap_ext. intros i y _. cbn. do 2 f_equal. lia.
      + replace (Z.to_nat (end_ - Z.max (start - 1) (Z.of_nat off))) with 0%nat by lia.
        rewrite IH'. by replace (Z.to_nat (end_ - Z.max (start - 1) (Z.of_nat (S off)))) with 0%nat by lia.
    - replace (Z.to_nat (start - 1 - Z.of_nat off)) with (S (Z.to_nat (start - 1 - Z.of_nat (S off)))) by lia.
      cbn [drop]. rewrite IH'.
      replace (Z.max start (Z.of_nat (S off) + 1)) with (Z.max start (Z.of_nat off + 1)) by lia.
      by replace (Z.max (start - 1) (Z.of_nat (S off))) with (Z.max (start - 1) (Z.of_nat off)) by lia. }
  specialize (H (Str.lines body) 0%nat). cbn [Nat.add] in H. etrans; [exact H|].
  replace (Z.max start (Z.of_nat 0 + 1)) with start by lia. replace (Z.max (start - 1) (Z.of_nat 0)) with (start - 1) by lia.
  by replace (start - 1 - Z.of_nat 0) with (start - 1) by lia.
Qed.

(** ** Properties *)
Section RecallProps.
Context {U : Unicode} {J : Json} {F : Type} {O : Os F} {N : Type}.
Context (fts ilike : string -> string -> bool) (rank_ge similar_ge : string -> string -> string -> bool).
Context (tenant : Uuid) (vault_root : Path).
#[local] Abbreviation search_in ideas := (fun t q m l => search_ideas fts ilike rank_ge similar_ge t q m l ideas).

(** Two file systems that show the same below the root. *)
Definition same_view (f f' : F) : Prop :=
  (forall p, canonicalize p f = canonicalize p f') /\
  (forall p, under_root vault_root p f = true -> read_to_string p f = read_to_string p f').

Lemma resolve_page_view (slug : string) (f f' : F) :
  same_view f f' -> resolve_page vault_root slug f = resolve_page vault_root slug f'.
Proof.
  intros [Hc Hr]. unfold resolve_page. case_match; [done|].
  assert (forall p, read_if vault_root p f = read_if vault_root p f') as Hp.
  { intros p. unfold read_if. assert (under_root vault_root p f' = under_root vault_root p f) as ->
      by (unfold under_root; by rewrite !Hc). case_match; [|done]. by rewrite Hr. }
  f_equal. apply list_omap_ext. apply Forall2_same_length_lookup. split; [done|].
  intros i x y Hx Hy. assert (x = y) as -> by congruence. apply Hp.
Qed.

(** C39: what the tools of the recall answer, apart from the two for the web, depends on the live captures of
    the tenant and the files below its root and nothing else, and leaves the network alone. A page that is
    read lies below the root, links resolved; a search gives at most fifty captures, each live, of the
    tenant, matching the pattern as the model wrote it, once, and with a citation. *)
Theorem recall_confined (ideas ideas' : list IdeaRow) (f f' : F) (current : option Uuid)
  (web : option ((string -> N -> result string string * N) * (string -> N -> result string string * N)))
  (name arguments : string) (n : N)
  (Hideas : List.filter (own_active tenant) ideas = List.filter (own_active tenant) ideas') (Hf : same_view f f') :
  call (search_in ideas) tenant vault_root current web name arguments f n
    = call (search_in ideas') tenant vault_root current web name arguments f' n /\
  (String.eqb name "web_fetch" || String.eqb name "web_search" = false ->
   snd (call (search_in ideas) tenant vault_root current web name arguments f n) = n) /\
  (forall slug body, resolve_page vault_root slug f = Some body ->
     exists p root real, canonicalize vault_root f = Ok root /\ canonicalize p f = Ok real /\
       Paths.starts_with root real = true /\ read_to_string p f = Ok body) /\
  (forall pattern, let hits := snd (run_recall_search (search_in ideas) tenant
       {| ra_pattern := pattern; ra_mode := Discovery; ra_current := current |}) in
     (length hits <= 50)%nat /\ NoDup (rh_id <$> hits) /\
     Forall (fun h => exists r, r ∈ ideas /\ own_active tenant r = true /\ rh_id h = i_id r /\ window h = i_body r /\
       match route_search pattern with Tsvector => fts (i_body r) pattern | _ => ilike (i_body r) pattern end = true /\
       citation h = Some {| rel_path := simple (i_id r) +:+ ".md"; start_line := 0; end_line := 0 |}) hits).
Proof.
  assert (forall q m l, search_in ideas tenant q m l = search_in ideas' tenant q m l) as Hs.
  { intros q m l. unfold search_ideas. unfold own_active in Hideas. by rewrite Hideas. }
  split; [|split; [|split]].
  - unfold call, recall_search, read_page, read_lines, run_recall_search.
    destruct (from_str arguments) as [v|e]; [|done]. cbn [map_err and_then].
    rewrite Hs. by rewrite !(resolve_page_view _ f f' Hf).
  - unfold call. repeat (case_match; try done); bool_prop; by destruct_or?.
  - intros slug body. unfold resolve_page. case_match; [done|]. intros Hh%head_elem.
    apply list_elem_of_omap in Hh as (p & _ & Hp). unfold read_if, under_root in Hp.
    destruct (canonicalize vault_root f) as [root|] eqn:Hroot; [|done].
    destruct (canonicalize p f) as [real|] eqn:Hreal; [|done]. destruct (Paths.starts_with root real) eqn:Hu; [|done].
    destruct (read_to_string p f) as [b|] eqn:Hb; [|done]. injection Hp as <-. eauto 8.
  - intros pattern. cbv zeta. unfold run_recall_search. cbn [snd ra_pattern ra_current].
    set (raw := search_ideas _ _ _ _ _ _ _ _ _). destruct (collect_hits_spec current [] raw) as (Hn & Hh & _).
    split_and!; [|done|].
    + transitivity (length raw); [|apply length_search_ideas]. clear. generalize (@nil Uuid).
      induction raw as [|r raw IH]; intros seen; [done|]. cbn [collect_hits length].
      case_match; [by rewrite IH; lia|]. case_match; [by rewrite IH; lia|]. cbn [length]. specialize (IH (h_id r :: seen)). lia.
    + apply Forall_forall. intros h Hin. destruct (Hh h Hin) as (_ & r & Hr & -> & _).
      apply search_ideas_rows in Hr as (i & Hi & Hown & -> & Hm). exists i. rewrite hit_cited.
      split_and!; try done; unfold hit_of; by destruct (bookends _).
Qed.
End RecallProps.

(** ** Examples *)
(** The tests of the source. *)
Example routes_of_the_tests :
  route_search <$> ["knowledge graph"; "清华大学"; "数据库迁移"; "学"; "ab"; "部署"] = [Tsvector; Trigram; Trigram; Like; Like; Trigram] /\
  (fun p => @infer_mode ascii_only p false) <$> ["rust"; "what did we conclude about X"; "hit-42"] = [Browse; Discovery; Scroll] /\
  safe_citation "entities/rust.md" 10 = None /\ safe_citation "../secret.md" 3 = None /\
  rel_path <$> safe_citation "rust.md" 42 = Some "rust.md" /\
  td_name <$> tools (build_tool_policy false true) = ["recall_search"; "read_page"; "read_lines"; "web_search"; "web_fetch"] /\
  td_name <$> tools (build_tool_policy true false) = ["recall_search"; "read_page"; "read_lines"; "propose_edit"; "propose_write"].
Proof. vm_compute. repeat split. Qed.

Definition recall_args (l : list (string * Value)) : Json := {| from_str := fun _ => Ok (obj l); to_string := fun _ => "" |}.
Definition lined_files : Files := [(demo_root ++ ["a.md"], "one" +:+ Str.lf +:+ "two" +:+ Str.lf +:+ "three")].
(** A window, one past the end, and one whose default end wraps around. *)
Example windows :
  let read l := @read_lines (recall_args (("slug", String_ "a") :: l)) Files files_os demo_root "" lined_files in
  read [("start", jnum 2); ("end", jnum 9)] = Ok ("2: two" +:+ Str.lf +:+ "3: three") /\
  read [("start", jnum 7)] = Ok "(no lines in range)" /\
  read [("start", jnum 18446744073709551600)] = Ok "(no lines in range)" /\
  @read_lines (recall_args [("slug", String_ "/etc/passwd")]) Files files_os demo_root "" ((["etc"; "passwd.md"], "root") :: lined_files)
    = Ok "page not found: /etc/passwd".
Proof. vm_compute. repeat split. Qed.

Definition recall_idea (i tenant : Uuid) (body : string) (active : bool) : IdeaRow := {|
  i_id := i; i_tenant := tenant; i_user := 2%N; i_kind := "text"; i_body := body; i_source_url := None; i_log_ref := "";
  i_provider := None; i_state := Pending; i_job := None; i_origin := "app"; i_captured_at := 0;
  i_active := active; i_updated_at := 0; i_last_ingested := None; i_idem := None; i_lat := None; i_lng := None; i_accuracy := None |}.
Definition demo_ideas : list IdeaRow :=
  [recall_idea 5 1 "rust is a language" true; recall_idea 6 1 "rust, deleted" false; recall_idea 7 1 "tea" true].
Definition demo_recall (ideas : list IdeaRow) : result string string * nat :=
  @call (recall_args [("pattern", String_ "rust")]) Files files_os
    (fun t q m l => search_ideas (fun text q => Str.contains q text) (fun text q => Str.contains q text)
       (fun _ _ _ => true) (fun _ _ _ => true) t q m l ideas) 1%N demo_root None nat None ascii_only "recall_search" "" demo_files 0%nat.

Lemma recall_confined_witness :
  demo_recall demo_ideas = demo_recall (recall_idea 8 2 "rust of another tenant" true :: demo_ideas) /\
  fst (demo_recall demo_ideas)
  = Ok ("Found 1 result(s) for " +:+ in_quotes "rust" +:+ " (mode: Tsvector):" +:+ Str.lf +:+ Str.lf
        +:+ "[1] 00000000000000000000000000000005.md:0" +:+ Str.lf +:+ "  goal: rust is a language" +:+ Str.lf
        +:+ "  conclusion: rust is a language" +:+ Str.lf +:+ "  window: rust is a language" +:+ Str.lf).
Proof.
  split; [|vm_compute; reflexivity]. unfold demo_recall.
  apply (@recall_confined ascii_only (recall_args [("pattern", String_ "rust")]) Files files_os nat); [reflexivity|by split].
Defined.
