(* ===== verification/Chat.v ===== *)
(** * Conversations: what a recall turn is told and what is kept of it

    [Curated] and [Prefetch]: [ideas/src/recall/curated.rs] and [prefetch.rs]. [Prompt]:
    [ideas/src/recall/prompt.rs]. [Transcript]: [store/src/messages_repo.rs], the messages and the
    conversation headers, with the routes of [app-server/src/conversations/routes.rs]. [Request]: the
    request of a recall turn, [build_recall_request] of [app-server/src/recall.rs]. The database driver
    does not fail; the hash of a frozen prefix is left out. *)
From S2P Require Import Prelude RustStr Json Protocol Fence WikiText Redact Wiki Server Cost Ideas Web Recall Identity Auth.
From stdpp Require Import list pretty.
Import Paths Conflict Repo Gate Factory.

#[local] Open Scope string_scope.
#[local] Open Scope list_scope.
#[local] Open Scope Z_scope.

(** ** Curated memory *)
Module Curated.
(* src/qcue-rs/ideas/src/recall/curated.rs 15-21 default_char_cap *)
Definition default_char_cap (kind : string) : nat :=
  if String.eqb kind "MEMORY" then 2200%nat else if String.eqb kind "USER" then 1375%nat else 2200%nat.
Definition WARNING : string := Str.lf +:+ "> WARNING: curated memory truncated at cap.".
(* src/qcue-rs/ideas/src/recall/curated.rs 25-34 truncate_curated *)
Definition truncate_curated (body : string) (cap : nat) : string * bool :=
  if Nat.leb (Chars.count body) cap then (body, false)
  else (Chars.take (cap - Chars.count WARNING) body +:+ WARNING, true).
(* src/qcue-rs/ideas/src/recall/curated.rs 38-48 freeze *)
Definition freeze (memory user : string) : string :=
  "# MEMORY" +:+ Str.lf +:+ fst (truncate_curated memory (default_char_cap "MEMORY")) +:+ Str.lf +:+ Str.lf
  +:+ "# USER" +:+ Str.lf +:+ fst (truncate_curated user (default_char_cap "USER")) +:+ Str.lf.
(* src/qcue-rs/ideas/src/recall/curated.rs 88-90 external_memory_into_tail *)
Definition external_memory_into_tail (provider content : string) : string :=
  Fence.fence_untrusted ("memory:" +:+ provider) content.
End Curated.
Import Curated.

(** ** The passive prefetch *)
Module Prefetch.
(* src/qcue-rs/ideas/src/recall/prefetch.rs 7-8 TURN_BUDGET *)
Definition TURN_BUDGET : Z := 20000.
Definition SESSION_BUDGET : Z := 60000.
(* src/qcue-rs/ideas/src/recall/prefetch.rs 11-20 parse_rank *)
Definition parse_rank `{Json} (raw : string) : list string :=
  match from_str raw with
  | Ok v => omap Json.as_str (unwrap_or (get "selected" v ≫= as_array) [])
  | Err _ => []
  end.
Definition bytes_of (item : string * string) : Z := Z.of_nat (String.length (snd item)).
Fixpoint budget_loop (turn_budget session_budget used_turn used_session : Z) (items : list (string * string)) : list (string * string) :=
  match items with
  | [] => []
  | it :: items =>
      let n := bytes_of it in
      if (turn_budget <? used_turn + n) || (session_budget <? used_session + n)
      then budget_loop turn_budget session_budget used_turn used_session items
      else it :: budget_loop turn_budget session_budget (used_turn + n) (used_session + n) items
  end.
(* src/qcue-rs/ideas/src/recall/prefetch.rs 24-43 apply_budget *)
Definition apply_budget (items : list (string * string)) (turn_budget session_budget already_used : Z) : list (string * string) :=
  budget_loop turn_budget session_budget 0 already_used items.
(* src/qcue-rs/ideas/src/recall/prefetch.rs 47-54 build_tail_injection *)
Definition build_tail_injection (items : list (string * string)) : string :=
  Chars.concat ((fun '(i, c) => Fence.fence_untrusted ("prefetch:" +:+ i) c +:+ Str.lf) <$> items).
(* src/qcue-rs/ideas/src/recall/prefetch.rs 57-62 PrefetchItem *)
Record PrefetchItem : Type := { pf_id : string; pf_keywords : string; pf_content : string }.
(* src/qcue-rs/ideas/src/recall/prefetch.rs 67-90 run_prefetch *)
Definition run_prefetch `{Json} (manifest : list PrefetchItem) (rank : list PrefetchItem -> string)
  (turn_budget session_budget used : Z) : string :=
  let chosen := omap (fun i => (fun it => (pf_id it, pf_content it)) <$> find_first (fun it => String.eqb (pf_id it) i) manifest)
    (parse_rank (rank manifest)) in
  match apply_budget chosen turn_budget session_budget used with
  | [] => ""
  | budgeted => build_tail_injection budgeted
  end.
End Prefetch.
Import Prefetch.

(** ** The prompt *)
Module Prompt.
Definition dash : string := ToolPolicy.dash.
Definition wiki_focus : string :=
  "This is a WIKI QUERY: prioritise the user's wiki when it is relevant, and always cite the pages you draw on. You may still use your general knowledge to explain, connect ideas, and fill gaps the wiki does not cover.".
Definition open_focus : string :=
  "Answer general-knowledge questions directly from what you know " +:+ dash +:+ " do NOT force a search and do NOT restrict yourself to the wiki. Reach for the tools when (and only when) the question is about the user's own notes, ideas, projects, captures, or past conclusions.".
Definition web_lines : string :=
  "You also have LIVE INTERNET access " +:+ dash +:+ " use it whenever the question is about current events, recent facts, anything that may have changed since your training, or a URL the user gives you:" +:+ Str.lf
  +:+ "- web_search(query): search the public web; returns titles, URLs, and snippets you can follow up." +:+ Str.lf
  +:+ "- web_fetch(url): fetch a public web page and read its text (http/https only)." +:+ Str.lf.
(* src/qcue-rs/ideas/src/recall/prompt.rs 27-74 build_recall_prompt *)
Definition build_recall_prompt (index : string) (prefer_wiki : bool) (provider model : string) (allow_web : bool) : string :=
  "You are QCue, the user's personal assistant. You have your FULL general knowledge and answer any question to the best of your ability " +:+ dash
  +:+ " you are NOT limited to the user's notes." +:+ Str.lf +:+ Str.lf
  +:+ "Your identity: you are running on the model `" +:+ model +:+ "`, served by " +:+ provider
  +:+ ", configured by the user with their own API key (BYOK). When the user asks which model, provider, AI, or company you are, answer truthfully and specifically "
  +:+ dash +:+ " name the model (`" +:+ model +:+ "`) and the provider (" +:+ provider
  +:+ "). Do not be vague or evasive about it. You must NOT claim to be a DIFFERENT vendor's model than the one named here." +:+ Str.lf +:+ Str.lf
  +:+ "The user keeps a personal " +:+ ToolPolicy.in_quotes "second brain" +:+ ": a wiki distilled from their captured ideas. You can consult it with tools:" +:+ Str.lf
  +:+ "- recall_search(pattern): full-text search the user's captures, transcripts, and wiki." +:+ Str.lf
  +:+ "- read_page(slug): read a whole wiki page." +:+ Str.lf
  +:+ "- read_lines(slug, start, end): read a line window of a page." +:+ Str.lf
  +:+ (if allow_web then web_lines else "") +:+ Str.lf
  +:+ (if prefer_wiki then wiki_focus else open_focus) +:+ Str.lf +:+ Str.lf
  +:+ "When you use a wiki page, cite it inline as [[slug]] and end with a `## References` section listing each page you used as [[slug|Display]] "
  +:+ dash +:+ " short description. Do not add a References section when you did not use any page." +:+ Str.lf
  +:+ UNIVERSAL_LINK_CONSTRAINTS +:+ Str.lf +:+ Str.lf
  +:+ "The user's wiki index (a table of contents " +:+ dash +:+ " use the tools to read the actual content):" +:+ Str.lf +:+ index.
End Prompt.
Import Prompt.

(** ** The transcript *)
Module Transcript.
Import SearchRepo.
(* src/qcue-rs/migrations/10003_M1_0003_conversations.sql 6-13 conversations *)
Record ConvoRow : Type := {
  cv_id : Uuid;
  cv_tenant : Uuid;
  cv_user : Uuid;
  cv_title : string;
  cv_updated : Z;
}.
(** The tables, with the tenants and users the keys refer to; [next_seq] is the sequence of [messages]. *)
Record Chat : Type := {
  parents : Ledger.CostDb;
  msgs : list MessageRow;
  next_seq : Z;
  convos : list ConvoRow;
}.
Definition has_parents (tenant user : Uuid) (db : Ledger.CostDb) : bool :=
  existsb (fun t => N.eqb (Ledger.tn_id t) tenant) (Ledger.tenants db) && existsb (fun u => N.eqb (Ledger.us_id u) user) (Ledger.users db).
Definition new_message (i tenant user session : Uuid) (role : string) (text : string) (seq : Z) : MessageRow := {|
  m_id := i; m_tenant := tenant; m_session := session; m_user := Some user; m_role := role;
  m_content := Some text; m_seq := seq; m_active := true |}.
Definition append_message (i tenant user session : Uuid) (role text : string) (db : Ledger.CostDb) (c : Chat) : Chat := {|
  parents := db; msgs := msgs c ++ [new_message i tenant user session role text (next_seq c)];
  next_seq := next_seq c + 1; convos := convos c |}.

(** The rows the keys refer to are seeded first. *)
(* src/qcue-rs/store/src/messages_repo.rs 33-76 insert_user *)
Definition insert_user (i tenant user session : Uuid) (text : string) (c : Chat) : Chat :=
  append_message i tenant user session "user" text (Ledger.ensure_parents tenant user (parents c)) c.
(** A failed statement rolls back; the number drawn for it is lost. *)
(* src/qcue-rs/store/src/messages_repo.rs 82-102 insert_assistant *)
Definition insert_assistant (i tenant user session : Uuid) (text : string) (c : Chat) : result string unit * Chat :=
  if has_parents tenant user (parents c)
  then (Ok tt, append_message i tenant user session "assistant" text (parents c) c)
  else (Err "foreign key violation", {| parents := parents c; msgs := msgs c; next_seq := next_seq c + 1; convos := convos c |}).

Definition seq_le (a b : MessageRow) : bool := m_seq a <=? m_seq b.
Definition seq_ge (a b : MessageRow) : bool := m_seq b <=? m_seq a.
Definition session_rows (tenant session : Uuid) (c : Chat) : list MessageRow :=
  List.filter (fun m => N.eqb (m_tenant m) tenant && N.eqb (m_session m) session && m_active m) (msgs c).
(* src/qcue-rs/store/src/messages_repo.rs 5-8 MsgRow *)
Record MsgRow : Type := { mr_content : option string; mr_role : string }.
(* src/qcue-rs/store/src/messages_repo.rs 104-121 read_session *)
Definition read_session (tenant session : Uuid) (c : Chat) : list MsgRow :=
  (fun m => {| mr_content := m_content m; mr_role := m_role m |})
  <$> sort_by seq_le (firstn (Z.to_nat 1000) (sort_by seq_ge (session_rows tenant session c))).

(* src/qcue-rs/store/src/messages_repo.rs 203-209 derive_title *)
Definition derive_title (s : string) : string :=
  let collapsed := Html.collapse_ws s in
  if String.eqb collapsed "" then "New conversation" else Chars.take 80 collapsed.

(** The primary key is the thread alone: a header of another tenant is not visible to the update, which then
    violates the policy of the table. *)
(* src/qcue-rs/store/src/messages_repo.rs 146-171 upsert *)
Definition upsert (now : Z) (tenant user thread : Uuid) (first_or_current : string) (c : Chat) : result string unit * Chat :=
  let put l := {| parents := parents c; msgs := msgs c; next_seq := next_seq c; convos := l |} in
  match find_first (fun r => N.eqb (cv_id r) thread) (convos c) with
  | Some r =>
      if N.eqb (cv_tenant r) tenant
      then (Ok tt, put ((fun r => if N.eqb (cv_id r) thread
                                  then {| cv_id := cv_id r; cv_tenant := cv_tenant r; cv_user := cv_user r;
                                          cv_title := cv_title r; cv_updated := now |}
                                  else r) <$> convos c))
      else (Err "row-level security policy violation", c)
  | None =>
      if has_parents tenant user (parents c)
      then (Ok tt, put (convos c ++ [{| cv_id := thread; cv_tenant := tenant; cv_user := user;
                                        cv_title := derive_title first_or_current; cv_updated := now |}]))
      else (Err "foreign key violation", c)
  end.

Definition last_snippet (tenant thread : Uuid) (c : Chat) : option string :=
  head (sort_by seq_ge (session_rows tenant thread c)) ≫= m_content.
(* src/qcue-rs/store/src/messages_repo.rs 175-198 list *)
Definition list_convos (tenant : Uuid) (c : Chat) : list (ConvoRow * option string) :=
  (fun r => (r, last_snippet tenant (cv_id r) c))
  <$> firstn 100 (sort_by (fun a b => cv_updated b <=? cv_updated a) (List.filter (fun r => N.eqb (cv_tenant r) tenant) (convos c))).

Section Routes.
Context (uuid_text : Uuid -> string) (rfc3339 : Z -> string).
Definition opt_text (o : option string) : Value := match o with Some s => String_ s | None => Null end.
(* src/qcue-rs/app-server/src/conversations/routes.rs 33-52 list_conversations *)
Definition list_conversations (ctx : TenantCtx) (c : Chat) : Value :=
  Boundary.redact_json (obj [("conversations", Array ((fun '(r, s) =>
    obj [("id", String_ (uuid_text (cv_id r))); ("title", String_ (cv_title r));
         ("updated_at", String_ (rfc3339 (cv_updated r))); ("last_snippet", opt_text s)])
    <$> list_convos (ctx_tenant ctx) c))]).
(* src/qcue-rs/app-server/src/conversations/routes.rs 56-69 get_messages *)
Definition get_messages (ctx : TenantCtx) (thread : Uuid) (c : Chat) : Value :=
  Boundary.redact_json (obj [("messages", Array ((fun m =>
    obj [("role", String_ (mr_role m)); ("content", String_ (unwrap_or (mr_content m) ""))])
    <$> List.filter (fun m => String.eqb (mr_role m) "user" || String.eqb (mr_role m) "assistant")
          (read_session (ctx_tenant ctx) thread c)))]).
End Routes.
End Transcript.
Import Transcript.

(** ** The request *)
Module Request.
(* src/qcue-rs/app-server/src/recall.rs 34-34 RECALL_MAX_TOKENS *)
Definition RECALL_MAX_TOKENS : Z := 2048.
(* src/qcue-rs/app-server/src/recall.rs 178-191 history_message *)
Definition history_message (r : Role) (text : string) : Message := {|
  role := r; content := Some text; tool_call_id := None; tool_name := None; tool_calls := None;
  finish_reason := None; reasoning := None; provider_data := None; active := true; is_untrusted := true |}.
(* src/qcue-rs/app-server/src/recall.rs 131-144 build_recall_request *)
Definition replayed (m : MsgRow) : option Message :=
  r ← (if String.eqb (mr_role m) "assistant" then Some Assistant
       else if String.eqb (mr_role m) "user" then Some User else None);
  c ← mr_content m;
  Some (history_message r (match r with User => Fence.fence_untrusted "prior_user_query" c | _ => c end)).
(** [index]: the text of the catalog, or nothing when it cannot be built. *)
(* src/qcue-rs/app-server/src/recall.rs 113-174 build_recall_request *)
Definition build_recall_request (index : option string) (allow_web : bool) (tenant thread : Uuid) (question : string)
  (prefer_wiki : bool) (provider_display model : string) (c : Chat) : WikiReq := {|
  stable_prefix := build_recall_prompt (unwrap_or index "") prefer_wiki provider_display model allow_web;
  messages := omap replayed (read_session tenant thread c)
              ++ [history_message User (Fence.fence_untrusted "user_query" question)];
  response_format := None; max_tokens := RECALL_MAX_TOKENS; cache_breakpoint := Some 1; disable_thinking := false |}.
End Request.
Import Request.

(** ** Lemmas: characters *)
Lemma chars_app (a : string) (d : ascii) (b : string) :
  Chars.continues d = false -> Chars.chars (a +:+ String d b) = Chars.chars a ++ Chars.chars (String d b).
Proof.
  intros Hd.
  assert (exists r l, Chars.chars (String d b) = String d r :: l) as (r & l & Hb).
  { cbn [Chars.chars]. destruct (Chars.chars b) as [|[|e t] k]; [eauto..|]. destruct (Chars.continues e); eauto. }
  remember (String d b) as t0 eqn:Ht. clear Ht. induction a as [|c a IH]; [done|]. cbn [String.append Chars.chars].
  rewrite IH. destruct (Chars.chars a) as [|[|e t] k]; cbn [app].
  - by rewrite Hb, Hd.
  - done.
  - by destruct (Chars.continues e).
Qed.

Lemma chars_nonempty_head (s : string) (x : string) (l : list string) : Chars.chars s = x :: l -> x <> "".
Proof.
  destruct s as [|c s]; [done|]. cbn [Chars.chars]. destruct (Chars.chars s) as [|[|e t] k]; [by intros [= <- <-]..|].
  destruct (Chars.continues e); by intros [= <- <-].
Qed.

(** The first characters of a text are characters of their own. *)
Lemma chars_take (n : nat) (s : string) : Chars.chars (Chars.take n s) = firstn n (Chars.chars s).
Proof.
  unfold Chars.take. revert n. induction s as [|c s IH]; intros n; [by destruct n|].
  cbn [Chars.chars]. destruct (Chars.chars s) as [|x l] eqn:Hs.
  - destruct n; [done|]. cbn. by destruct n.
  - assert (x <> "") as Hx by (by eapply chars_nonempty_head). destruct x as [|d r]; [done|].
    destruct (Chars.continues d) eqn:Hd.
    + destruct n as [|n]; [done|]. specialize (IH (S n)). cbn [firstn Chars.concat String.append Chars.chars] in *.
      rewrite IH. by rewrite Hd.
    + destruct n as [|n]; [done|]. cbn [firstn Chars.concat String.append].
      specialize (IH n). cbn [firstn] in IH. destruct n as [|n]; [done|].
      cbn [firstn Chars.concat String.append Chars.chars] in *. rewrite IH. by rewrite Hd.
Qed.

(** Curated memory never exceeds its cap once the warning fits. *)
Theorem curated_within_cap (body : string) (cap : nat) :
  (Chars.count WARNING <= cap)%nat -> (Chars.count (fst (truncate_curated body cap)) <= cap)%nat.
Proof.
  intros Hc. unfold truncate_curated. destruct (Nat.leb_spec (Chars.count body) cap); [done|]. cbn [fst].
  unfold Chars.count at 1. unfold WARNING. change (Str.lf +:+ ?x) with (String (Str.byte 10) x).
  rewrite chars_app by reflexivity. rewrite length_app, chars_take, length_firstn.
  change (String (Str.byte 10) ?x) with (Str.lf +:+ x). fold WARNING. fold (Chars.count WARNING). lia.
Qed.

(** What the prefetch keeps fits both budgets, and is in the order of the ranking. *)
Lemma budget_loop_fits (tb sb ut us : Z) (items : list (string * string)) :
  let kept := budget_loop tb sb ut us items in
  kept `sublist_of` items /\
  (ut <= tb -> ut + foldr (fun it s => bytes_of it + s) 0 kept <= tb) /\
  (us <= sb -> us + foldr (fun it s => bytes_of it + s) 0 kept <= sb).
Proof.
  cbv zeta. revert ut us. induction items as [|it items IH]; intros ut us; cbn [budget_loop].
  { cbn. split_and!; [constructor|lia..]. }
  destruct (_ || _) eqn:Hb.
  - destruct (IH ut us) as (H1 & H2 & H3). split_and!; [by constructor|done|done].
  - apply orb_false_iff in Hb as [Hb1%Z.ltb_ge Hb2%Z.ltb_ge].
    destruct (IH (ut + bytes_of it) (us + bytes_of it)) as (H1 & H2 & H3). cbn [foldr].
    split_and!; [by constructor|intros; rewrite Z.add_assoc; by apply H2|intros; rewrite Z.add_assoc; by apply H3].
Qed.

(** The comment promises that the lowest ranks are dropped first, but an item that does not fit is skipped
    and later ones are still taken. *)
Example budget_skips_the_first :
  fst <$> apply_budget [("best", "0123456789"); ("worst", "01")] 5 100 0 = ["worst"].
Proof. reflexivity. Qed.

(** ** Lemmas: the transcript *)
Section Order.
Import SearchRepo.
Definition older (a b : MessageRow) : Prop := m_seq a < m_seq b.

Lemma seq_le_total (x y : MessageRow) : seq_le x y = true \/ seq_le y x = true.
Proof. unfold seq_le. rewrite !Z.leb_le. lia. Qed.
Lemma seq_le_trans (x y z : MessageRow) : seq_le x y = true -> seq_le y z = true -> seq_le x z = true.
Proof. unfold seq_le. rewrite !Z.leb_le. lia. Qed.

Lemma insert_last (x : MessageRow) (l : list MessageRow) :
  Forall (fun y => older x y) l -> insert_by seq_ge x (rev l) = rev l ++ [x].
Proof.
  intros Hl. assert (Forall (fun y => older x y) (rev l)) as Hr by (by apply Forall_rev). clear Hl. revert Hr.
  generalize (rev l). clear l. intros l. induction 1 as [|y l Hy _ IH]; [done|]. cbn. unfold seq_ge, older in *.
  destruct (Z.leb_spec (m_seq y) (m_seq x)); [lia|]. by rewrite IH.
Qed.
Lemma sort_desc (l : list MessageRow) : StronglySorted older l -> sort_by seq_ge l = rev l.
Proof.
  induction 1 as [|x l Hl IH Hx]; [done|].
  change (sort_by seq_ge (x :: l)) with (insert_by seq_ge x (sort_by seq_ge l)). rewrite IH. by apply insert_last.
Qed.
Lemma sort_asc (l : list MessageRow) : StronglySorted older l -> sort_by seq_le l = l.
Proof.
  induction 1 as [|x l Hl IH Hx]; [done|].
  change (sort_by seq_le (x :: l)) with (insert_by seq_le x (sort_by seq_le l)). rewrite IH. destruct Hx as [|y l Hy _]; [done|]. cbn.
  unfold seq_le, older in *. by destruct (Z.leb_spec (m_seq x) (m_seq y)); [|lia].
Qed.

Definition lastn {A} (n : nat) (l : list A) : list A := drop (length l - n) l.
Lemma recent_rows (n : nat) (l : list MessageRow) :
  StronglySorted older l -> sort_by seq_le (firstn n (sort_by seq_ge l)) = lastn n l.
Proof.
  intros Hl. rewrite (sort_desc l Hl). rewrite firstn_rev.
  assert (StronglySorted older (lastn n l)) as Hs.
  { unfold lastn. rewrite <- (take_drop (length l - n) l) in Hl. clear -Hl.
    induction (take (length l - n) l) as [|x k IH]; [done|]. inv Hl. auto. }
  rewrite <- (sort_asc (lastn n l) Hs). apply sort_by_unique; [apply seq_le_total|apply seq_le_trans| |].
  - assert (NoDup (m_seq <$> lastn n l)) as Hnd.
    { clear -Hs. induction Hs as [|x k Hk IH Hx]; [constructor|]. cbn. constructor; [|done].
      intros (y & Hy & Hin)%list_elem_of_fmap. rewrite Forall_forall in Hx. specialize (Hx y Hin). unfold older in Hx. lia. }
    intros x y Hx Hy H1 H2. unfold seq_le in *. apply Z.leb_le in H1, H2.
    assert (forall z, z ∈ rev (lastn n l) -> z ∈ lastn n l) as Hr by (intros z; by rewrite !list_elem_of_In, <- in_rev).
    apply (nodup_key m_seq (lastn n l)); [done|by apply Hr|by apply Hr|lia].
  - by rewrite <- Permutation_rev.
Qed.
End Order.

(** ** Exchanges *)
(** What a turn that is answered writes: the question, the header and the answer. *)
Record Exchange : Type := {
  x_tenant : Uuid;
  x_user : Uuid;
  x_thread : Uuid;
  x_ids : Uuid * Uuid;
  x_now : Z;
  x_question : string;
  x_answer : string;
}.
Definition exchange (c : Chat) (x : Exchange) : Chat :=
  let c := insert_user (fst (x_ids x)) (x_tenant x) (x_user x) (x_thread x) (x_question x) c in
  let c := snd (upsert (x_now x) (x_tenant x) (x_user x) (x_thread x) (x_question x) c) in
  snd (insert_assistant (snd (x_ids x)) (x_tenant x) (x_user x) (x_thread x) (x_answer x) c).
Definition no_chat : Chat :=
  {| parents := {| Ledger.tenants := []; Ledger.users := []; Ledger.ledger := [] |}; msgs := []; next_seq := 1; convos := [] |}.

Section Exchanges.
Import SearchRepo.

(** Numbers are drawn in order and never used twice. *)
Definition numbered (c : Chat) : Prop :=
  StronglySorted older (msgs c) /\ Forall (fun m => m_seq m < next_seq c) (msgs c).

Lemma older_snoc (l : list MessageRow) (m : MessageRow) :
  StronglySorted older l -> Forall (fun x => older x m) l -> StronglySorted older (l ++ [m]).
Proof.
  induction 1 as [|x l Hl IH Hx]; intros Ha; cbn; [by repeat constructor|]. inv Ha. constructor; [auto|].
  apply Forall_app. by repeat constructor.
Qed.

Lemma append_numbered (i tenant user session : Uuid) (role text : string) (db : Ledger.CostDb) (c : Chat) :
  numbered c -> numbered (append_message i tenant user session role text db c).
Proof.
  intros [Hs Hn]. split; cbn.
  - by apply older_snoc.
  - apply Forall_app. split; [|repeat constructor; cbn; lia]. eapply Forall_impl; [exact Hn|]. cbn. lia.
Qed.

Lemma ensured (tenant user : Uuid) (db : Ledger.CostDb) : has_parents tenant user (Ledger.ensure_parents tenant user db) = true.
Proof.
  unfold has_parents, Ledger.ensure_parents.
  assert (existsb (fun t => N.eqb (Ledger.tn_id t) tenant) (Ledger.tenants (Ledger.ensure_tenant tenant db)) = true) as Ht.
  { unfold Ledger.ensure_tenant. destruct (existsb _ (Ledger.tenants db)) eqn:He; [done|]. cbn.
    rewrite existsb_app. cbn. by rewrite N.eqb_refl, orb_true_r. }
  set (db1 := Ledger.ensure_tenant tenant db) in *. destruct (existsb (fun u => N.eqb (Ledger.us_id u) user) (Ledger.users db1)) eqn:Hu.
  - by rewrite Ht, Hu.
  - cbn. rewrite Ht, existsb_app. cbn. by rewrite N.eqb_refl, orb_true_r.
Qed.

Lemma exchange_msgs (x : Exchange) (c : Chat) :
  exists db l,
    exchange c x = {| parents := db; next_seq := next_seq c + 1 + 1; convos := l;
      msgs := (msgs c ++ [new_message (fst (x_ids x)) (x_tenant x) (x_user x) (x_thread x) "user" (x_question x) (next_seq c)])
              ++ [new_message (snd (x_ids x)) (x_tenant x) (x_user x) (x_thread x) "assistant" (x_answer x) (next_seq c + 1)] |}.
Proof.
  unfold exchange, insert_user. set (c1 := append_message _ _ _ _ _ _ _ _).
  assert (has_parents (x_tenant x) (x_user x) (parents c1) = true) as Hp by apply ensured.
  assert (exists l, snd (upsert (x_now x) (x_tenant x) (x_user x) (x_thread x) (x_question x) c1) =
    {| parents := parents c1; msgs := msgs c1; next_seq := next_seq c1; convos := l |}) as [l Hl].
  { unfold upsert. destruct (find_first _ _) as [r|]; [destruct (N.eqb (cv_tenant r) _)|rewrite Hp]; cbn [snd]; eauto.
    all: exists (convos c1); by destruct c1. }
  rewrite Hl. unfold insert_assistant. cbn [parents]. rewrite Hp. cbn [snd]. exists (parents c1), l. reflexivity.
Qed.

Lemma exchanges_numbered (xs : list Exchange) (c : Chat) : numbered c -> numbered (foldl exchange c xs).
Proof.
  revert c. induction xs as [|x xs IH]; intros c Hc; [done|]. cbn [foldl]. apply IH.
  destruct (exchange_msgs x c) as (db & l & ->).
  exact (append_numbered _ _ _ _ "assistant" _ db _ (append_numbered _ _ _ _ "user" _ db _ Hc)).
Qed.

Definition in_thread (tenant thread : Uuid) (x : Exchange) : bool := N.eqb (x_tenant x) tenant && N.eqb (x_thread x) thread.
Definition said (x : Exchange) : list MsgRow :=
  [{| mr_content := Some (x_question x); mr_role := "user" |}; {| mr_content := Some (x_answer x); mr_role := "assistant" |}].
Definition as_row (m : MessageRow) : MsgRow := {| mr_content := m_content m; mr_role := m_role m |}.

Lemma session_said (tenant thread : Uuid) (xs : list Exchange) (c : Chat) :
  as_row <$> session_rows tenant thread (foldl exchange c xs) =
  (as_row <$> session_rows tenant thread c) ++ (List.filter (in_thread tenant thread) xs ≫= said).
Proof.
  revert c. induction xs as [|x xs IH]; intros c; [by rewrite app_nil_r|]. cbn [foldl]. rewrite IH.
  destruct (exchange_msgs x c) as (db & l & ->). unfold session_rows at 1. cbn [msgs]. rewrite !List.filter_app. cbn.
  unfold in_thread at 2. destruct (N.eqb (x_tenant x) tenant && N.eqb (x_thread x) thread) eqn:Ht; cbn.
  - rewrite !fmap_app, <- !app_assoc. by rewrite ?andb_true_r.
  - by rewrite !app_nil_r.
Qed.

Lemma read_session_recent (tenant thread : Uuid) (c : Chat) :
  numbered c -> read_session tenant thread c = lastn (Z.to_nat 1000) (as_row <$> session_rows tenant thread c).
Proof.
  intros [Hs _]. unfold read_session. rewrite recent_rows.
  - unfold lastn. by rewrite fmap_drop, length_fmap.
  - unfold session_rows. clear -Hs. induction Hs as [|x l Hl IH Hx]; [constructor|]. cbn. destruct (_ && _); [|done].
    constructor; [done|]. apply Forall_forall. intros y Hy%list_elem_of_In%filter_In. rewrite Forall_forall in Hx.
    apply Hx, list_elem_of_In. tauto.
Qed.
End Exchanges.

(** After any answered turns of any tenants and threads, the next request of a thread replays the last
    thousand messages of that thread of the tenant, questions and answers in the order they were said and
    nothing of anyone else, with every question fenced; then comes the question that was just asked, once;
    and the system prefix is the same whatever was said. *)
Theorem request_replays_thread (xs : list Exchange) (tenant thread : Uuid) (question : string) (index : option string)
  (allow_web prefer_wiki : bool) (provider model : string) :
  let req := build_recall_request index allow_web tenant thread question prefer_wiki provider model (foldl exchange no_chat xs) in
  messages req =
    lastn (Z.to_nat 1000) (List.filter (in_thread tenant thread) xs ≫= (fun x =>
      [history_message Protocol.User (Fence.fence_untrusted "prior_user_query" (x_question x));
       history_message Assistant (x_answer x)]))
    ++ [history_message Protocol.User (Fence.fence_untrusted "user_query" question)] /\
  stable_prefix req = build_recall_prompt (unwrap_or index "") prefer_wiki provider model allow_web.
Proof.
  cbv zeta. split; [|done]. cbn [build_recall_request messages]. f_equal.
  rewrite read_session_recent by (apply exchanges_numbered; split; constructor).
  rewrite session_said. cbn [session_rows no_chat msgs List.filter fmap list_fmap app].
  set (mine := List.filter _ xs). set (n := Z.to_nat 1000). clearbody n.
  clearbody mine. unfold lastn.
  assert (forall k, omap replayed (drop k (mine ≫= said)) = drop k (mine ≫= (fun x =>
      [history_message Protocol.User (Fence.fence_untrusted "prior_user_query" (x_question x)); history_message Assistant (x_answer x)]))) as Hk.
  { induction mine as [|x l IH]; intros k; [by destruct k|].
    pose proof (IH 0%nat) as IH0. rewrite !drop_0 in IH0. destruct k as [|[|k]];
      [exact (f_equal (fun z => _ :: _ :: z) IH0)|exact (f_equal (cons _) IH0)|apply IH]. }
  rewrite Hk. do 2 f_equal. clear Hk. induction mine as [|x l IH]; [done|]. cbn in *. lia.
Qed.
