(* ===== verification/Query.v ===== *)
(** * Asking the wiki, and what is done with its replies

    [Select] and [Engine]: [wiki/src/query.rs], the tiers of page selection, the answer that is synthesized
    from the pages and the citations parsed from it. [FileBack]: [wiki/src/file_back.rs]. [Clean]:
    [wiki/src/clean_markdown.rs]. [Approvals]: [wiki/src/approvals.rs]. The model and the file system are
    those of the page factory; the database driver does not fail. *)
From S2P Require Import Prelude RustStr Json Protocol Fence WikiText Redact Wiki Extract Ideas Recall.
From stdpp Require Import list pretty gmap.
Import Paths Conflict Repo Gate Factory Analyzer.

#[local] Open Scope string_scope.
#[local] Open Scope list_scope.
#[local] Open Scope Z_scope.

(** ** Which pages *)
Module Select.
(* src/qcue-rs/wiki/src/query.rs 22-24 MAX_PAGE_CONTENT_CHARS *)
Definition MAX_PAGE_CONTENT_CHARS : nat := 128 * 100.
Definition L1_MIN_PAGES : nat := 3.
Definition L1_MIN_SCORE : nat := 6.
(* src/qcue-rs/wiki/src/query.rs 27-33 CatalogEntry *)
Record CatalogEntry : Type := { ce_slug : string; ce_title : string; ce_summary : string; ce_aliases : list string }.
(* src/qcue-rs/wiki/src/query.rs 37-42 Selection *)
Inductive Selection : Type := Layer1 (l : list string) | Layer2 (l : list string) | Layer3.

Section Select.
Context `{U : Unicode}.
Definition haystack (c : CatalogEntry) : string :=
  to_lowercase (ce_title c) +:+ " " +:+ to_lowercase (ce_summary c) +:+ " " +:+ to_lowercase (Str.join " " (ce_aliases c)).
Definition score (terms : list string) (c : CatalogEntry) : nat :=
  length (List.filter (fun t => Str.contains t (haystack c)) terms).
Definition terms_of (query : string) : list string := Words.split_whitespace (to_lowercase query).
(** [sort_by_key(Reverse(score))], which is stable. *)
Definition scored (terms : list string) (catalog : list CatalogEntry) : list (string * nat) :=
  sort_by (fun a b => Nat.leb (snd b) (snd a)) ((fun c => (ce_slug c, score terms c)) <$> catalog).
(* src/qcue-rs/wiki/src/query.rs 46-77 select_pages *)
Definition select_pages (query : string) (catalog : list CatalogEntry) : Selection :=
  match terms_of query with
  | [] => Layer3
  | terms =>
      let l := scored terms catalog in
      let strong := fst <$> List.filter (fun x => Nat.leb L1_MIN_SCORE (snd x)) l in
      if Nat.leb L1_MIN_PAGES (length strong) then Layer1 (take 5 strong)
      else match take 15 (fst <$> List.filter (fun x => Nat.ltb 0 (snd x)) l) with
           | [] => Layer3
           | any => Layer2 any
           end
  end.
End Select.
End Select.
Import Select.

(** ** Citations *)
Module References.
Definition citation_of_line (line : string) : option RecallSearch.Citation :=
  start ← Str.find "[[" line;
  end_ ← Str.find "]]" (Str.drop start line);
  let inner := Str.slice (start + 2) (start + end_) line in
  let slug := Str.trim (unwrap_or (head (Str.split_on "|" inner)) inner) in
  if String.eqb slug "" then None
  else Some {| RecallSearch.rel_path := slug +:+ ".md"; RecallSearch.start_line := 0; RecallSearch.end_line := 0 |}.
(* src/qcue-rs/wiki/src/query.rs 192-208 parse_references *)
Definition parse_references (text : string) : list RecallSearch.Citation :=
  match Str.find "## References" text with
  | Some idx => omap citation_of_line (tail (Str.lines (Str.drop idx text)))
  | None => []
  end.
End References.
Import References.

(** ** The answer *)
Module Engine.
(* src/qcue-rs/wiki/src/prompts/constraints.rs 19-26 build_synthesis_prompt *)
Definition build_synthesis_prompt (index : string) (loaded_titles : list string) : string :=
  "Answer ONLY from the wiki below. Index:" +:+ Str.lf +:+ index +:+ Str.lf +:+ "Loaded pages: " +:+ Str.join ", " loaded_titles +:+ Str.lf
  +:+ "Rules: (1) answer from the wiki, not general knowledge; (2) [[wikilinks]] only; (3) end with a `## References` section citing every page used as [[path|Display]] "
  +:+ ToolPolicy.dash +:+ " description." +:+ Str.lf +:+ UNIVERSAL_LINK_CONSTRAINTS.
(* src/qcue-rs/wiki/src/query.rs 83-86 Answer *)
Record Answer : Type := { a_text : string; a_citations : list RecallSearch.Citation }.

Section Engine.
Context `{U : Unicode} {F L : Type} `{O : Os F}.
Context (vault_root : Path) (create_message : Uuid -> WikiReq -> L -> result WikiLlmError WikiResp * L).
(** The column [updated], which the rows of the model leave out. *)
Context (updated : PageRow -> Z).

Definition in_catalog (r : PageRow) : bool := existsb (String.eqb (type_ r)) ["entity"; "concept"; "source"].
(* src/qcue-rs/store/src/wiki_repo.rs 58-75 catalog_rows *)
Definition catalog_rows (tenant : Uuid) (db : Db) : list (string * string * string * list string) :=
  (fun r => (slug r, title r, summary r, aliases r))
  <$> sort_by (fun a b => updated b <=? updated a) (List.filter (fun r => live tenant r && in_catalog r) (pages db)).
(* src/qcue-rs/store/src/wiki_repo.rs 79-92 body_ref_by_slug *)
Definition body_ref_by_slug (tenant : Uuid) (s : string) (db : Db) : option Path :=
  body_ref <$> find_first (fun r => live tenant r && (String.eqb (slug r) s || existsb (String.eqb s) (aliases r))) (pages db).

(* src/qcue-rs/wiki/src/query.rs 159-164 under_vault_root *)
Definition under_vault_root (p : Path) (f : F) : bool :=
  match canonicalize vault_root f, canonicalize p f with
  | Ok root, Ok real => Paths.starts_with root real
  | _, _ => false
  end.
Definition load_body (tenant : Uuid) (db : Db) (f : F) (s : string) : option (string * string) :=
  p ← body_ref_by_slug tenant s db;
  if under_vault_root p f then (fun b => (s, Chars.take MAX_PAGE_CONTENT_CHARS b)) <$> result_ok (read_to_string p f) else None.
Definition page_section (x : string * string) : string :=
  Str.lf +:+ "# [[" +:+ fst x +:+ "]]" +:+ Str.lf +:+ snd x +:+ Str.lf.
Definition chosen_slugs (query : string) (catalog : list CatalogEntry) : list string :=
  match select_pages query catalog with
  | Layer1 s | Layer2 s => s
  | Layer3 => take 5 (ce_slug <$> catalog)
  end.
Definition untrusted (text : string) : Message := {|
  role := Protocol.User; content := Some text; tool_call_id := None; tool_name := None; tool_calls := None;
  finish_reason := None; reasoning := None; provider_data := None; active := true; is_untrusted := true |}.
(** [None]: the byte cut of the index panics ([IndexGen]). *)
(* src/qcue-rs/wiki/src/query.rs 100-155 answer *)
Definition answer (tenant : Uuid) (query : string) (db : Db) (f : F) (l : L) : option (result WikiLlmError Answer * L) :=
  index ← IndexGen.regenerate_index (catalog_rows tenant db);
  let catalog := (fun '(s, t, h, a) => {| ce_slug := s; ce_title := t; ce_summary := h; ce_aliases := a |}) <$> catalog_rows tenant db in
  let loaded := omap (load_body tenant db f) (chosen_slugs query catalog) in
  let req := {|
    stable_prefix := build_synthesis_prompt index (fst <$> loaded);
    messages := [untrusted (Fence.fence_untrusted "user_query" query +:+ Str.lf +:+ Str.lf +:+ "WIKI PAGES:" +:+ Str.lf
                            +:+ Chars.concat (page_section <$> loaded))];
    response_format := None; max_tokens := 2048; cache_breakpoint := Some 1; disable_thinking := false |} in
  let '(r, l) := create_message tenant req l in
  Some (result_map (fun resp => {| a_text := resp_content resp; a_citations := parse_references (resp_content resp) |}) r, l).
End Engine.
End Engine.
Import Engine.

(** ** Offers to file an answer *)
Module FileBack.
Section FileBack.
Context `{U : Unicode} (sha256_hex : string -> string).
Definition FileBackTracker : Type := gset string.
Definition query_hash (q : string) : string := sha256_hex (to_lowercase (Str.trim q)).
(* src/qcue-rs/wiki/src/file_back.rs 20-22 should_offer *)
Definition should_offer (t : FileBackTracker) (query : string) : bool := negb (bool_decide (query_hash query ∈ t)).
(* src/qcue-rs/wiki/src/file_back.rs 24-26 mark_offered *)
Definition mark_offered (query : string) (t : FileBackTracker) : FileBackTracker := {[query_hash query]} ∪ t.
End FileBack.
End FileBack.

(** ** Cleaning a reply *)
Module Clean.
Section Clean.
Context `{U : Unicode}.
(** [s[i..j]] and [s[i..]]: a slice past the end, reversed or inside a character panics, [None]. *)
Definition byte_slice (i j : nat) (s : string) : option string :=
  if IndexGen.is_char_boundary i s && IndexGen.is_char_boundary j s && Nat.leb i j && Nat.leb j (String.length s) then Some (Str.slice i j s) else None.
Definition slice_from (i : nat) (s : string) : option string := byte_slice i (String.length s) s.
(** The next block in the lower-cased text: where it opens and where it closes. *)
Definition next_block (open_lower close_lower lower : string) (i : nat) : option (option (nat * nat)) :=
  rest ← slice_from i lower;
  Some (rel ← Str.find open_lower rest;
        gt ← Str.find ">" (Str.drop (i + rel) lower);
        c ← Str.find close_lower (Str.drop (i + rel + gt + 1) lower);
        Some ((i + rel)%nat, (i + rel + gt + 1 + c + String.length close_lower)%nat)).
(** The loop of [strip_block]: [lower] is the lower-cased input, whose byte offsets are used in the input
    itself. Every round advances past a closing tag, so the fuel is enough. *)
Fixpoint strip_from (fuel : nat) (open_lower close_lower input lower : string) (i : nat) : option string :=
  match fuel with
  | O => None
  | S fuel =>
      if Nat.ltb i (String.length input) then
        found ← next_block open_lower close_lower lower i;
        match found with
        | Some (open_at, close_end) =>
            kept ← byte_slice i open_at input;
            rest ← strip_from fuel open_lower close_lower input lower close_end;
            Some (kept +:+ rest)
        | None => slice_from i input
        end
      else Some ""
  end.
(* src/qcue-rs/wiki/src/clean_markdown.rs 9-33 strip_block *)
Definition strip_block (input tag : string) : option string :=
  strip_from (S (String.length input)) ("<" +:+ tag) ("</" +:+ tag +:+ ">") input (to_lowercase input) 0.

Definition fence3 : string := "```".
Definition blanks : list string := [Str.lf; " "; Str.bytes [9]%nat].
Fixpoint unwrap_fence (markers : list string) (s : string) : string :=
  match markers with
  | [] => s
  | m :: markers =>
      match Str.strip_prefix m s with
      | Some rest => Str.trim_start_matches blanks rest
      | None => unwrap_fence markers s
      end
  end.
(* src/qcue-rs/wiki/src/clean_markdown.rs 36-53 clean_markdown *)
Definition clean_markdown (response : string) : option string :=
  s ← strip_block (Str.trim response) "think";
  s ← strip_block s "thinking";
  let s := unwrap_fence [fence3 +:+ "markdown"; fence3 +:+ "md"; fence3] (Str.trim s) in
  let s := match Str.strip_suffix fence3 s with Some rest => Str.trim_end_matches blanks rest | None => s end in
  Some (Str.trim s).
End Clean.
End Clean.
Import Clean.

(** ** Destructive operations *)
Module Approvals.
(* src/qcue-rs/wiki/src/approvals.rs 18-23 DestructiveOp *)
Inductive DestructiveOp : Type := WikiMerge (from into : Uuid) | WikiDelete (p : Uuid).
(* src/qcue-rs/wiki/src/approvals.rs 26-31 action *)
Definition action (op : DestructiveOp) : string :=
  match op with WikiMerge _ _ => "wiki_merge" | WikiDelete _ => "wiki_delete" end.
(* src/qcue-rs/wiki/src/approvals.rs 32-39 subject *)
Definition subject (uuid_text : Uuid -> string) (op : DestructiveOp) : Value :=
  match op with
  | WikiMerge from into => obj [("from", String_ (uuid_text from)); ("into", String_ (uuid_text into))]
  | WikiDelete p => obj [("page", String_ (uuid_text p))]
  end.
(* src/qcue-rs/wiki/src/approvals.rs 42-47 soft_delete_target *)
Definition soft_delete_target (op : DestructiveOp) : Uuid := match op with WikiMerge from _ => from | WikiDelete p => p end.
(** The columns the insert writes; the status starts as pending. *)
Record Approval : Type := {
  ap_id : Uuid;
  ap_tenant : Uuid;
  ap_user : Uuid;
  ap_action : string;
  ap_subject : Value;
  ap_requested_by : string;
  ap_status : string;
}.
(** The row is committed; then, in another transaction, the page is deleted. *)
(* src/qcue-rs/wiki/src/approvals.rs 54-84 route_destructive *)
Definition route_destructive (uuid_text : Uuid -> string) (i tenant user : Uuid) (requested_by : string) (op : DestructiveOp)
  (approvals : list Approval) (db : Db) : list Approval * Db :=
  (approvals ++ [{| ap_id := i; ap_tenant := tenant; ap_user := user; ap_action := action op; ap_subject := subject uuid_text op;
                    ap_requested_by := requested_by; ap_status := "pending" |}],
   soft_delete tenant (soft_delete_target op) db).
End Approvals.
Import Approvals.

(** ** Lemmas *)
Section Selection.
Context `{U : Unicode}.

(** Every scored slug is that of a page, with the page's score. *)
Lemma scored_elem (terms : list string) (catalog : list CatalogEntry) (x : string * nat) :
  x ∈ scored terms catalog <-> exists c, c ∈ catalog /\ x = (ce_slug c, score terms c).
Proof.
  unfold scored. rewrite sort_by_perm, list_elem_of_fmap. split; intros (c & H1 & H2); eauto.
Qed.

Lemma ranked_elem (p : nat -> bool) (terms : list string) (catalog : list CatalogEntry) (s : string) :
  s ∈ fst <$> List.filter (fun x => p (snd x)) (scored terms catalog) <->
  exists c, c ∈ catalog /\ ce_slug c = s /\ p (score terms c) = true.
Proof.
  rewrite list_elem_of_fmap. split.
  - intros ([t n] & -> & Hx). apply list_elem_of_In, filter_In in Hx as [Hx Hp].
    apply list_elem_of_In, scored_elem in Hx as (c & Hc & [= -> ->]). eauto.
  - intros (c & Hc & <- & Hp). exists (ce_slug c, score terms c). split; [done|].
    apply list_elem_of_In, filter_In. split; [|done]. apply list_elem_of_In, scored_elem. eauto.
Qed.

Lemma take_incl {A} (n : nat) (l : list A) (x : A) : x ∈ take n l -> x ∈ l.
Proof. intros (i & Hi & _)%elem_of_take. by eapply list_elem_of_lookup_2. Qed.

(** The pages a question selects are pages of the catalog. The first tier is taken only when three pages
    hold six of the question's words, and gives at most five of those; the second gives at most fifteen, each
    holding some word; the whole catalog is scanned only when the question has no words or no page holds any. *)
Theorem selection_sound (query : string) (catalog : list CatalogEntry) :
  match select_pages query catalog with
  | Layer1 l => (3 <= length l <= 5)%nat /\
      forall s, s ∈ l -> exists c, c ∈ catalog /\ ce_slug c = s /\ (6 <= score (terms_of query) c)%nat
  | Layer2 l => (1 <= length l <= 15)%nat /\
      forall s, s ∈ l -> exists c, c ∈ catalog /\ ce_slug c = s /\ (0 < score (terms_of query) c)%nat
  | Layer3 => terms_of query = [] \/ forall c, c ∈ catalog -> score (terms_of query) c = O
  end.
Proof.
  unfold select_pages. destruct (terms_of query) as [|t ts] eqn:Ht; [by left|]. set (terms := t :: ts).
  set (strong := fst <$> List.filter (fun x => Nat.leb L1_MIN_SCORE (snd x)) (scored terms catalog)).
  destruct (Nat.leb L1_MIN_PAGES (length strong)) eqn:H3.
  - apply Nat.leb_le in H3. unfold L1_MIN_PAGES in H3. rewrite length_take. split; [lia|].
    intros s Hs%take_incl. apply ranked_elem in Hs as (c & Hc & <- & Hp%Nat.leb_le). eauto.
  - set (some := fst <$> List.filter (fun x => Nat.ltb 0 (snd x)) (scored terms catalog)).
    destruct (take 15 some) as [|s0 l0] eqn:Hany.
    + right. intros c Hc. destruct (decide (score terms c = O)) as [|Hn]; [done|]. exfalso.
      assert (ce_slug c ∈ some) as Hin by (apply ranked_elem; exists c; split_and!; [done..|apply Nat.ltb_lt; lia]).
      destruct some; [by apply not_elem_of_nil in Hin|done].
    + pose proof (f_equal length Hany) as Hl. rewrite length_take in Hl. rewrite <- Hany.
      split; [rewrite length_take; cbn [length] in Hl; lia|].
      intros s Hs%take_incl. apply ranked_elem in Hs as (c & Hc & <- & Hp%Nat.ltb_lt). eauto.
Qed.
End Selection.

Section Bodies.
Context {F : Type} `{O : Os F} (vault_root : Path).

(** A body that reaches the model is the readable prefix of a file under the vault's root, named by a live
    page of the tenant. *)
Lemma load_body_confined (tenant : Uuid) (db : Db) (f : F) (s t b : string) :
  load_body vault_root tenant db f s = Some (t, b) ->
  exists r root real body, r ∈ pages db /\ live tenant r = true /\ canonicalize vault_root f = Ok root /\
    canonicalize (body_ref r) f = Ok real /\ Paths.starts_with root real = true /\
    read_to_string (body_ref r) f = Ok body /\ b = Chars.take MAX_PAGE_CONTENT_CHARS body /\ t = s.
Proof.
  unfold load_body, body_ref_by_slug, under_vault_root. intros Hl.
  destruct (find_first _ _) as [r|] eqn:Hf; simpl in Hl; [|done]. apply find_first_some in Hf as [Hr Hp].
  apply andb_true_iff in Hp as [Hlive _].
  destruct (canonicalize vault_root f) as [root|] eqn:H1; [|done].
  destruct (canonicalize (body_ref r) f) as [real|] eqn:H2; [|done].
  destruct (Paths.starts_with root real) eqn:Hs; [|done].
  destruct (read_to_string (body_ref r) f) as [body|] eqn:H3; cbn in Hl; [|discriminate Hl]. injection Hl as <- <-.
  exists r, root, real, body. done.
Qed.
End Bodies.

(** The proposal is recorded as pending, and the page it names is out of reach of the tenant at once; no other
    page is changed. *)
Lemma route_destructive_spec (uuid_text : Uuid -> string) (i tenant user : Uuid) (by_ : string) (op : DestructiveOp)
  (approvals : list Approval) (db : Db) :
  let '(approvals', db') := route_destructive uuid_text i tenant user by_ op approvals db in
  (exists a, approvals' = approvals ++ [a] /\ ap_id a = i /\ ap_status a = "pending" /\ ap_action a = action op) /\
  (forall r, r ∈ pages db' -> live tenant r = true -> id r <> soft_delete_target op) /\
  (forall r, r ∈ pages db -> id r <> soft_delete_target op -> r ∈ pages db').
Proof.
  simpl. split_and!.
  - eexists. done.
  - intros r (r0 & -> & Hr)%list_elem_of_fmap. destruct (live tenant r0) eqn:Hl; simpl.
    + destruct (N.eqb_spec (id r0) (soft_delete_target op)); [|done]. unfold live. simpl. by rewrite andb_false_r.
    + rewrite Hl. done.
  - intros r Hr Hn. apply list_elem_of_fmap. exists r. split; [|done].
    apply N.eqb_neq in Hn. by rewrite Hn, andb_false_r.
Qed.

(** ** Concrete questions and replies *)

Definition kw (s : string) (l : list string) : CatalogEntry :=
  {| ce_slug := s; ce_title := s; ce_summary := Str.join " " l; ce_aliases := [] |}.
Definition six : list string := ["rust"; "async"; "runtime"; "memory"; "safety"; "systems"].

(** The cases of the source's tests. *)
Example selections_of_the_tests :
  let catalog := [kw "rust" six; kw "rustlang" six; kw "rustbook" six; kw "graphs" ["graph"; "node"; "edge"]] in
  (fun q => @select_pages ascii_only q catalog) <$> ["rust async runtime memory safety systems"; "graph node"; "zzzz"; " "]
  = [Layer1 ["rust"; "rustlang"; "rustbook"]; Layer2 ["graphs"]; Layer3; Layer3].
Proof. vm_compute. reflexivity. Qed.

Example references_of_the_tests :
  RecallSearch.rel_path <$> parse_references
    ("answer [[rust]]" +:+ Str.lf +:+ Str.lf +:+ "## References" +:+ Str.lf +:+ "- [[rust|Rust]] the entity page"
     +:+ Str.lf +:+ "- [[tokio]] runtime") = ["rust.md"; "tokio.md"].
Proof. vm_compute. reflexivity. Qed.

(** A reference may name a path outside the wiki. *)
Example references_escape :
  RecallSearch.rel_path <$> parse_references ("## References" +:+ Str.lf +:+ "[[../../etc/hosts]]") = ["../../etc/hosts.md"].
Proof. vm_compute. reflexivity. Qed.

Example cleaned_of_the_tests :
  let md := fence3 +:+ "markdown" +:+ Str.lf +:+ "# Title" +:+ Str.lf +:+ "Body" +:+ Str.lf +:+ fence3 in
  @clean_markdown ascii_only <$>
    ["<think>reasoning</think>" +:+ Str.lf +:+ "# Title" +:+ Str.lf +:+ "Body"; md; fence3 +:+ Str.lf +:+ "plain" +:+ Str.lf +:+ fence3;
     "  # Already clean" +:+ Str.lf; "<thinking>x</thinking>" +:+ Str.lf +:+ "Y"]
  = Some <$> ["# Title" +:+ Str.lf +:+ "Body"; "# Title" +:+ Str.lf +:+ "Body"; "plain"; "# Already clean"; "Y"].
Proof. vm_compute. reflexivity. Qed.

(** The capital I with a dot is two bytes, its lower case three: a thinking block after it is cut one byte
    too late, and the character after the block is split. *)
Definition turkish : Unicode :=
  {| uni_alphanumeric := fun _ => true; uni_lowercase := fun _ => ["i"; Str.bytes [204; 135]%nat] |}.
Example clean_splits_a_character :
  let dotted := Str.bytes [196; 176]%nat in
  @strip_block turkish (dotted +:+ "<think>x</think>yz") "think" = Some (dotted +:+ "<z") /\
  @strip_block turkish (dotted +:+ "<think>x</think>" +:+ dotted) "think" = None.
Proof. vm_compute. done. Qed.
