(* ===== verification/Drive.v ===== *)
(** * The turn behind the wiki's model

    [app-server/src/ingest/router_llm.rs]: what a request of the wiki, of a recall or of a dream becomes. [TurnBudget]:
    the budget read from the environment. [Seam]: the seam with its constructors, the HTTP dispatcher over the
    tables of the server ([Resolver] of Vault.v) and an opaque outside, and [drive], which composes the
    parts of the other files: the route and the chain (Route.v), the tools (Recall.v), the turn loop
    (Turn.v), the dispatcher (Dispatch.v) and the accrual (Cost.v). Other requests change the keys and the
    ledger between any two transactions of a turn ([db_others]); captures and files stay as the turn found them. *)
From S2P Require Import Prelude RustStr Json Protocol Fence Classify Pool Providers Transports Turn HttpClient Dispatch WikiText Wiki Extract Cost Ideas Identity Auth Vault Settings Route Recall.
From stdpp Require Import list pretty gmap.
Import Paths Toggles Routes Chain.

#[local] Open Scope string_scope.
#[local] Open Scope list_scope.
#[local] Open Scope Z_scope.

(** ** The budget of a turn *)
Module TurnBudget.
Section Budget.
Context (env : EnvVars).
Definition parse_u32 (s : string) : option Z := opt_filter (fun v => v <=? Int.u32_max) (Social.parse_u64 s).
(* src/qcue-rs/app-server/src/ingest/router_llm.rs 53-63 turn_budget_from_env *)
Definition turn_budget_from_env : Turn.Budget :=
  budget_tokens (unwrap_or (env "QCUE_TURN_TOKEN_BUDGET" ≫= Social.parse_u64) (250 * 1000))
    (unwrap_or (env "QCUE_TURN_MAX_ROUNDS" ≫= parse_u32) 32).
End Budget.
End TurnBudget.
Import TurnBudget.

(** What a turn does not compute itself: the clocks of the process and of the database, the day of the
    ledger, the network and the timer. The token of a turn is a new one that is never cancelled, so a send
    ends with an answer or an error. *)
Class Outside (N : Type) : Type := {
  net_millis : N -> Z * N;
  net_nanos : N -> Z * N;
  db_now : N -> Z * N;
  db_today : N -> Z * N;
  net_send : HttpDispatch.HttpRequest -> N -> result string HttpDispatch.HttpResponse * N;
  net_sleep : Z -> N -> N;
  (** What other requests, workers and turns did to the keys and the ledger since the turn looked last. *)
  db_others : N -> Creds.Table * Ledger.CostDb -> Creds.Table * Ledger.CostDb * N;
}.

(** What the scripted provider answers. *)
(* src/qcue-rs/router/src/stub.rs 11-27 StubScript *)
Record StubScript : Type := {
  st_thinking : option string;
  st_text : option string;
  st_tool : option (string * string);
  st_finish : FinishReason;
  st_error : option ApiError;
  st_reasoning : option string;
  st_usage : option CanonicalUsage;
}.
(* src/qcue-rs/router/src/stub.rs 30-32 text *)
Definition script_text (t : string) : StubScript := {|
  st_thinking := None; st_text := Some t; st_tool := None; st_finish := Stop; st_error := None;
  st_reasoning := None; st_usage := None |}.

Module Seam.
Section Seam.
Context `{J : Json} `{U : Unicode} `{HA : Envelope.Aead} {F N : Type} `{O : Os F} `{Out : Outside N}.
Context (env : EnvVars) (uuid_text : Uuid -> string) (kms : Envelope.Kms).
Context (text_le : string -> string -> bool).
Context (fts ilike : string -> string -> bool) (rank_ge similar_ge : string -> string -> string -> bool).
Context (url_parse : string -> option Ssrf.Url) (parse_http_date : string -> option Z).
(** The two calls of the web client. *)
Context (web : (string -> N -> result string string * N) * (string -> N -> result string string * N)).

(** The tables and files a turn reads and writes, the outside, the chain of the dispatcher, the calls it
    made, and whether it panicked: then there is no result, whatever follows. *)
Record World : Type := {
  w_creds : Creds.Table;
  w_kv : Kv.Table;
  w_ledger : Ledger.CostDb;
  w_ideas : list IdeaRow;
  w_files : F;
  w_net : N;
  w_chain : FallbackChain;
  w_calls : list HttpDispatch.HttpEvent;
  w_crashed : bool;
}.
Definition set_net (n : N) (w : World) : World := {|
  w_creds := w_creds w; w_kv := w_kv w; w_ledger := w_ledger w; w_ideas := w_ideas w; w_files := w_files w;
  w_net := n; w_chain := w_chain w; w_calls := w_calls w; w_crashed := w_crashed w |}.
Definition set_creds (c : Creds.Table) (w : World) : World := {|
  w_creds := c; w_kv := w_kv w; w_ledger := w_ledger w; w_ideas := w_ideas w; w_files := w_files w;
  w_net := w_net w; w_chain := w_chain w; w_calls := w_calls w; w_crashed := w_crashed w |}.
Definition set_ledger (l : Ledger.CostDb) (w : World) : World := {|
  w_creds := w_creds w; w_kv := w_kv w; w_ledger := l; w_ideas := w_ideas w; w_files := w_files w;
  w_net := w_net w; w_chain := w_chain w; w_calls := w_calls w; w_crashed := w_crashed w |}.
Definition set_chain (c : FallbackChain) (calls : list HttpDispatch.HttpEvent) (w : World) : World := {|
  w_creds := w_creds w; w_kv := w_kv w; w_ledger := w_ledger w; w_ideas := w_ideas w; w_files := w_files w;
  w_net := w_net w; w_chain := c; w_calls := calls; w_crashed := w_crashed w |}.
Definition crash (w : World) : World := {|
  w_creds := w_creds w; w_kv := w_kv w; w_ledger := w_ledger w; w_ideas := w_ideas w; w_files := w_files w;
  w_net := w_net w; w_chain := w_chain w; w_calls := w_calls w; w_crashed := true |}.
Definition on_net {A} (f : N -> A * N) (w : World) : A * World :=
  let '(a, n) := f (w_net w) in (a, set_net n w).

(** Time passes before a transaction of the turn begins. *)
Definition meanwhile (w : World) : World :=
  let '(c, l, n) := db_others (w_net w) (w_creds w, w_ledger w) in set_net n (set_ledger l (set_creds c w)).

(** The resolver over the table of keys and the client over the network. *)
Definition http : HttpDispatch.Http World := {|
  HttpDispatch.is_cancelled := fun w => (false, w);
  HttpDispatch.pool_for := fun t p w => let w := meanwhile w in (Resolver.pool_for t p (w_creds w), w);
  HttpDispatch.decrypt := fun t c w =>
    let w := meanwhile w in
    match Resolver.decrypt uuid_text kms t c (w_creds w) with
    | Some r => (r, w)
    | None => (Err HttpDispatch.NotFound, crash w)
    end;
  HttpDispatch.persist_transitions := fun t p pool w =>
    let '(ms, w) := on_net net_millis w in
    let '(now, w) := on_net db_now (meanwhile w) in
    set_creds (Resolver.persist_transitions ms now t p pool (w_creds w)) w;
  HttpDispatch.timestamp_millis := on_net net_millis;
  HttpDispatch.system_time_ns := on_net net_nanos;
  HttpDispatch.send := fun r w =>
    let '(a, w) := on_net (net_send r) w in
    (match a with Ok resp => HttpDispatch.Received resp | Err e => HttpDispatch.SendFailed e end, w);
  HttpDispatch.sleep_cancelled := fun ms w => (false, set_net (net_sleep ms (w_net w)) w) |}.

(** [HttpDispatch::complete] with the chain behind its mutex. *)
Definition live_complete (allow_insecure : bool) (req : DispatchRequest) (w : World) :
  result ApiError NormalizedResponse * World :=
  let cfg := {| HttpDispatch.registry := register_all; HttpDispatch.allow_insecure := allow_insecure |} in
  let '(s, step) := HttpDispatch.complete http (env "QCUE_RESPONSES_API") url_parse parse_http_date cfg req (w_chain w) w in
  let w := set_chain (HttpDispatch.chain s) (w_calls w ++ HttpDispatch.ds_trace s) (HttpDispatch.ds_world s) in
  match step with
  | HttpDispatch.Return r => (r, w)
  | _ => (Err HttpDispatch.cancelled_err, crash w)
  end.
(** The scripted provider. *)
(* src/qcue-rs/router/src/stub.rs 99-125 complete *)
Definition stub_complete (x : StubScript) (req : DispatchRequest) (w : World) : result ApiError NormalizedResponse * World :=
  (match st_error x with
   | Some e => Err e
   | None =>
       Ok {| nr_content := st_text x;
             nr_tool_calls := (fun '(n, a) => [{| tc_id := Some "call_0"; tc_name := n; tc_arguments := a; tc_provider_data := None |}]) <$> st_tool x;
             nr_finish_reason := st_finish x; nr_reasoning := st_thinking x; nr_usage := st_usage x;
             nr_provider_data := (fun r => obj [("reasoning_content", String_ r)]) <$> st_reasoning x |}
   end, w).

(** No token is ever cancelled and every call is allowed: the ceiling is checked before a request. *)
(* src/qcue-rs/app-server/src/ingest/router_llm.rs 29-34 AllowCost *)
Definition harness_with (complete : DispatchRequest -> World -> result ApiError NormalizedResponse * World) : @Turn.Harness World := {|
  Turn.is_cancelled := fun w => (false, w);
  Turn.check_before_call := fun w => (Ok tt, w);
  Turn.complete := complete |}.
(** A built harness has its own dispatcher, whose chain starts at its first link. *)
Definition install (h : Chain.Harness) (w : World) : @Turn.Harness World * World :=
  match h with
  | Chain.StubHarness reply => (harness_with (stub_complete (script_text reply)), w)
  | Chain.LiveHarness _ chain allow_insecure => (harness_with (live_complete allow_insecure), set_chain chain (w_calls w) w)
  end.

(** The paths below [<data_root>/objects] and whether a web client is wired. *)
(* src/qcue-rs/app-server/src/ingest/router_llm.rs 40-44 RecallToolDeps *)
Record RecallToolDeps : Type := { vault_root_base : Path; web_wired : bool }.
(* src/qcue-rs/app-server/src/ingest/router_llm.rs 76-79 HarnessSource *)
Inductive HarnessSource : Type :=
| Prebuilt (dispatch : DispatchRequest -> World -> result ApiError NormalizedResponse * World)
| PerTenant (stub_reply : string).
(* src/qcue-rs/app-server/src/ingest/router_llm.rs 81-89 RouterWikiLlm *)
Record RouterWikiLlm : Type := {
  source : HarnessSource;
  tools : list ToolDef;
  recall_deps : option RecallToolDeps;
}.
(* src/qcue-rs/app-server/src/ingest/router_llm.rs 65-70 recall_tools_and_web *)
Definition recall_tools_and_web : list ToolDef * bool :=
  let allow_web := web_tools_enabled env in (ToolPolicy.tools (ToolPolicy.build_tool_policy false allow_web), allow_web).
(* src/qcue-rs/app-server/src/ingest/router_llm.rs 100-102 with_tools *)
Definition with_tools (d : DispatchRequest -> World -> result ApiError NormalizedResponse * World) (l : list ToolDef) : RouterWikiLlm :=
  {| source := Prebuilt d; tools := l; recall_deps := None |}.
(* src/qcue-rs/app-server/src/ingest/router_llm.rs 116-118 stub *)
Definition stub (reply : string) : RouterWikiLlm := with_tools (stub_complete (script_text reply)) [].
(* src/qcue-rs/app-server/src/ingest/router_llm.rs 124-130 live *)
Definition live (stub_reply : string) : RouterWikiLlm :=
  {| source := PerTenant stub_reply; tools := []; recall_deps := None |}.
(* src/qcue-rs/app-server/src/ingest/router_llm.rs 134-146 live_recall *)
Definition live_recall (base : Path) (stub_reply : string) : RouterWikiLlm :=
  let '(l, w) := recall_tools_and_web in
  {| source := PerTenant stub_reply; tools := l; recall_deps := Some {| vault_root_base := base; web_wired := w |} |}.
(* src/qcue-rs/app-server/src/ingest/router_llm.rs 150-161 live_with_tools *)
Definition live_with_tools (l : list ToolDef) (stub_reply : string) : RouterWikiLlm :=
  {| source := PerTenant stub_reply; tools := l; recall_deps := None |}.

(* src/qcue-rs/wiki/src/llm.rs 61-66 RecallOverride *)
Record RecallOverride : Type := { o_provider : option string; o_model : option string; o_effort : option string }.
Definition no_override : RecallOverride := {| o_provider := None; o_model := None; o_effort := None |}.
(* src/qcue-rs/wiki/src/llm.rs 74-79 route *)
Definition override_route (o : RecallOverride) : option (string * string) :=
  match o_provider o, o_model o with Some p, Some m => Some (p, m) | _, _ => None end.

(** The tools of the seam run for real only where a recall wired them. *)
(* src/qcue-rs/app-server/src/ingest/router_llm.rs 219-233 drive *)
Definition turn_tools (llm : RouterWikiLlm) (t : Uuid) : @ToolDispatcher World :=
  match tools llm, recall_deps llm with
  | [], _ => {| td_defs := []; td_exec := None |}
  | l, Some deps =>
      {| td_defs := l; td_exec := Some (fun name arguments w =>
           let root := join (vault_root_base deps) ("t/" +:+ uuid_text t +:+ "/u/_") in
           on_net (RecallTools.call (fun t q m n => SearchRepo.search_ideas fts ilike rank_ge similar_ge t q m n (w_ideas w)) t root None
                     (if web_wired deps then Some web else None) name arguments (w_files w)) w) |}
  | l, None => {| td_defs := l; td_exec := None |}
  end.

(* src/qcue-rs/app-server/src/ingest/router_llm.rs 181-198 drive *)
Definition turn_params (req : Factory.WikiReq) (over : RecallOverride) : ReqParams := {|
  rp_temperature := None; rp_max_tokens := Some (Factory.max_tokens req);
  rp_response_format := (fun '(name, schema) => obj [("type", String_ "json_schema");
      ("json_schema", obj [("name", String_ name); ("schema", schema)])]) <$> Factory.response_format req;
  rp_stream := false; rp_server_tools := [];
  rp_reasoning := match o_effort over ≫= Catalog.parse_effort with
                  | Some e => Some {| effort := Some e |}
                  | None => if Factory.disable_thinking req then Some {| effort := Some Minimal |} else None
                  end;
  rp_session_id := None |}.

(* src/qcue-rs/app-server/src/ingest/router_llm.rs 201-248 drive *)
Definition turn_context (llm : RouterWikiLlm) (t : Uuid) (req : Factory.WikiReq) (sink : bool) (over : RecallOverride) :
  @TurnContext World := {|
  history := text_message System (Some (Factory.stable_prefix req)) :: Factory.messages req;
  budget := turn_budget_from_env env; params := turn_params req over; Turn.tools := turn_tools llm t;
  tenant := t; Turn.sink := sink |}.

(** The harness of a call with the route its usage is priced at. *)
(* src/qcue-rs/app-server/src/ingest/router_llm.rs 252-274 drive *)
Definition harness_for (llm : RouterWikiLlm) (t : Uuid) (over : RecallOverride) (w : World) :
  @Turn.Harness World * option (string * string) * World :=
  match source llm with
  | Prebuilt d => (harness_with d, None, w)
  | PerTenant reply =>
      let '(h, p, m) :=
        match override_route over with
        | Some (p, m) => build_harness_for_route env text_le t (w_kv w) (w_creds w) p m reply
        | None => build_harness_for env text_le t (w_kv w) (w_creds w) reply
        end in
      let '(h, w) := install h w in (h, Some (p, m), w)
  end.

(** The day is that of the database when the turn has ended. *)
Definition accrue_final (t : Uuid) (accrual : option (string * string)) (u : CanonicalUsage) (w : World) : World :=
  match accrual with
  | Some (p, m) =>
      let '(day, w) := on_net db_today (meanwhile w) in
      set_ledger (Guard.accrue_turn_cost day t p m u (w_ledger w)) w
  | None => w
  end.

(** The answer and what was observed of the turn. [None]: a panic; that the turn ends is a theorem. *)
(* src/qcue-rs/app-server/src/ingest/router_llm.rs 168-293 drive *)
Definition drive (llm : RouterWikiLlm) (t : Uuid) (req : Factory.WikiReq) (sink : bool) (over : RecallOverride) (w : World) :
  option (result Analyzer.WikiLlmError (Analyzer.WikiResp * CanonicalUsage) * list Event * World) :=
  let '(h, accrual, w) := harness_for llm t over w in
  let '(s, r) := run_turn h (turn_context llm t req sink over) w in
  let w := world s in
  if w_crashed w then None
  else match r with
       | None => None
       | Some (Err e) => Some (Err (Analyzer.Provider e), trace s, w)
       | Some (Ok (Final content usage finish)) =>
           Some (Ok ({| Analyzer.resp_content := unwrap_or content ""; Analyzer.truncated := bool_decide (finish = Length) |}, usage),
                 trace s, accrue_final t accrual usage w)
       | Some (Ok Interrupted) => Some (Err Analyzer.Cancelled, trace s, w)
       | Some (Ok (Refused e)) => Some (Err (Analyzer.Provider e), trace s, w)
       end.

(* src/qcue-rs/app-server/src/ingest/router_llm.rs 298-300 create_message *)
Definition create_message (llm : RouterWikiLlm) (t : Uuid) (req : Factory.WikiReq) (w : World) :
  option (result Analyzer.WikiLlmError Analyzer.WikiResp * World) :=
  '(r, _, w) ← drive llm t req false no_override w; Some (result_map fst r, w).
(* src/qcue-rs/app-server/src/ingest/router_llm.rs 311-319 create_message_observed_with_override *)
Definition create_message_observed_with_override (llm : RouterWikiLlm) (t : Uuid) (req : Factory.WikiReq) (over : RecallOverride) (w : World) :
  option (result Analyzer.WikiLlmError (Analyzer.WikiResp * CanonicalUsage) * list Event * World) :=
  drive llm t req true over w.
End Seam.
End Seam.
Import Seam.

(** ** The world of a turn

    What the operations of a harness each do to the world, a turn does: [R n w w'] bounds what [n] calls
    may do. *)
Section TurnWorlds.
Context {W : Type} (R : nat -> W -> W -> Prop).
Context (R_refl : forall w, R 0%nat w w).
Context (R_trans : forall n m a b c, R n a b -> R m b c -> R (n + m)%nat a c).
Context (h : @Turn.Harness W) (ctx : @TurnContext W).
Context (R_cancel : forall w, R 0%nat w (snd (Turn.is_cancelled h w))).
Context (R_check : forall w, R 0%nat w (snd (Turn.check_before_call h w))).
Context (R_complete : forall req w, dr_tenant req = tenant ctx -> R 1%nat w (snd (Turn.complete h req w))).
Context (R_tool : forall exec name args w, td_exec (Turn.tools ctx) = Some exec -> R 0%nat w (snd (exec name args w))).

Lemma tools_world (calls : list ToolCall) (w : W) : R 0%nat w (snd (tools_dispatch (Turn.tools ctx) calls w)).
Proof.
  revert w. induction calls as [|tc calls IH]; intros w; [apply R_refl|]. cbn [tools_dispatch].
  destruct (td_exec (Turn.tools ctx)) as [exec|].
  - pose proof (R_tool exec (tc_name tc) (tc_arguments tc) w eq_refl) as H1.
    destruct (exec (tc_name tc) (tc_arguments tc) w) as [r w1]. specialize (IH w1).
    destruct (tools_dispatch _ _ w1) as [[ms evs] w2]. exact (R_trans 0 0 _ _ _ H1 IH).
  - specialize (IH w). by destruct (tools_dispatch _ _ w) as [[ms evs] w2].
Qed.

Lemma turn_round_world (s : @TurnState W) :
  exists evs, trace (turn_round h ctx s).1 = trace s ++ evs /\
    R (Turn.calls evs) (world s) (world (turn_round h ctx s).1).
Proof.
  unfold turn_round. pose proof (R_cancel (world s)) as H0.
  destruct (Turn.is_cancelled h (world s)) as [c w]. destruct c; [exists []; done|].
  pose proof (R_check w) as H1. destruct (Turn.check_before_call h w) as [[[]|e] w1].
  2: { eexists. split; [reflexivity|]. exact (R_trans 0 0 _ _ _ H0 H1). }
  pose proof (R_trans 0 0 _ _ _ H0 H1 : R 0 _ _) as H01. set (req := {| dr_messages := _ |}).
  pose proof (R_complete req w1 eq_refl) as H2. destruct (Turn.complete h req w1) as [[nr|e] w2].
  2: { eexists. split; [reflexivity|]. exact (R_trans 0 1 _ _ _ H01 H2). }
  pose proof (R_trans 0 1 _ _ _ H01 H2 : R 1 _ _) as H012. set (b := tick_round _).
  set (answer := (_, Some (Ok (Final _ _ _)))).
  assert (exists evs, trace answer.1 = trace s ++ evs /\ R (Turn.calls evs) (world s) (world answer.1)) as Ha.
  { eexists. split; [reflexivity|]. cbn [fst snd world answer]. rewrite !calls_app, (quiet_calls _ (delta_events_quiet ctx b nr)). exact H012. }
  clearbody answer. destruct (exhausted (ts_budget s)); [exact Ha|].
  destruct (nr_tool_calls nr) as [[|tc tcs]|]; [exact Ha| |exact Ha].
  pose proof (tools_world (tc :: tcs) w2) as H3. pose proof (tools_dispatch_quiet (Turn.tools ctx) (tc :: tcs) w2) as Hq.
  destruct (tools_dispatch _ (tc :: tcs) w2) as [[rs evs] w3]. cbn [fst snd] in *.
  eexists. split; [reflexivity|]. cbn [fst snd world].
  rewrite !calls_app, (quiet_calls _ (call_events_quiet _ _ _)), (quiet_calls _ (result_events_quiet _ _ _)), (quiet_calls _ Hq).
  exact (R_trans 1 0 _ _ _ H012 H3).
Qed.

Lemma turn_loop_world (fuel : nat) (s : @TurnState W) :
  exists evs, trace (turn_loop fuel h ctx s).1 = trace s ++ evs /\
    R (Turn.calls evs) (world s) (world (turn_loop fuel h ctx s).1).
Proof.
  apply (turn_loop_ind h ctx (fun s r => exists evs, trace r.1 = trace s ++ evs /\ R (Turn.calls evs) (world s) (world r.1))); clear s.
  - intros s. exists []. rewrite app_nil_r. split; [done|apply R_refl].
  - intros s s' o Hr. pose proof (turn_round_world s) as H. by rewrite Hr in H.
  - intros s s' r Hr (evs' & Ht' & H'). destruct (turn_round_world s) as (evs & Ht & H). rewrite Hr in *.
    cbn [fst] in *. exists (evs ++ evs'). rewrite Ht', Ht, app_assoc, calls_app. eauto.
Qed.
End TurnWorlds.

(** The same for the rounds of the dispatcher; what it sends went to a link of the chain, with a pool that
    was read for the tenant of the request. *)
Section DispatchWorlds.
Import HttpDispatch.
Context {J : Json} {W : Type} (Q : W -> W -> Prop) (Q_refl : forall w, Q w w).
Context (Q_trans : forall a b c, Q a b -> Q b c -> Q a c).
Context (h : Http W) (env : option string) (url_parse : string -> option Ssrf.Url) (parse_http_date : string -> option Z).
Context (cfg : Config) (req : DispatchRequest).
Context (Q_cancel : forall w, Q w (snd (HttpDispatch.is_cancelled h w))).
Context (Q_pool : forall p w, Q w (snd (HttpDispatch.pool_for h (dr_tenant req) p w))).
Context (Q_decrypt : forall c w, Q w (snd (HttpDispatch.decrypt h (dr_tenant req) c w))).
Context (Q_persist : forall p pool w, Q w (HttpDispatch.persist_transitions h (dr_tenant req) p pool w)).
Context (Q_millis : forall w, Q w (snd (HttpDispatch.timestamp_millis h w))).
Context (Q_nanos : forall w, Q w (snd (HttpDispatch.system_time_ns h w))).
Context (Q_send : forall r w, Q w (snd (HttpDispatch.send h r w))).
Context (Q_sleep : forall ms w, Q w (snd (HttpDispatch.sleep_cancelled h ms w))).

Definition sent_from (w0 : W) (l : list (string * string * ApiMode)) (e : HttpEvent) : Prop :=
  match e with
  | EvSend p pool _ _ _ => (exists m, (p, m) ∈ fst <$> l) /\
      exists w, Q w0 w /\ fst (HttpDispatch.pool_for h (dr_tenant req) p w) = Ok pool
  | _ => True
  end.
Definition moved (s : @DispatchState W) (r : @DispatchState W * Step) : Prop :=
  Q (ds_world s) (ds_world r.1) /\ links (chain r.1) = links (chain s) /\
  exists evs, ds_trace r.1 = ds_trace s ++ evs /\ Forall (sent_from (ds_world s) (links (chain s))) evs.

Lemma moved_put (s0 s : @DispatchState W) c e w tr st :
  ds_trace s = ds_trace s0 -> links c = links (chain s0) -> Q (ds_world s0) w ->
  Forall (sent_from (ds_world s0) (links (chain s0))) tr -> moved s0 (put s c e w tr, st).
Proof. intros Ht Hc Hw Hf. split; [done|]. split; [done|]. exists tr. by rewrite <- Ht. Qed.

Lemma advance_links (c c' : FallbackChain) o : chain_advance c = (c', o) -> links c' = links c.
Proof. unfold chain_advance. case_match; by intros [= <- <-]. Qed.

Lemma moved_fall_back (s0 s : @DispatchState W) last w tr e :
  ds_trace s = ds_trace s0 -> links (chain s) = links (chain s0) -> Q (ds_world s0) w ->
  Forall (sent_from (ds_world s0) (links (chain s0))) tr -> moved s0 (fall_back s last w tr e).
Proof.
  intros Ht Hc Hw Hf. unfold fall_back. destruct (chain_advance (chain s)) as [c o] eqn:Ha.
  apply advance_links in Ha. destruct o; apply moved_put; congruence.
Qed.

Lemma moved_error (s0 s : @DispatchState W) provider pool now hint st retry text w tr :
  ds_trace s = ds_trace s0 -> links (chain s) = links (chain s0) -> Q (ds_world s0) w ->
  Forall (sent_from (ds_world s0) (links (chain s0))) tr ->
  moved s0 (on_error h cfg req s provider pool now hint st retry text w tr).
Proof.
  intros Ht Hc Hw Hf. unfold on_error.
  assert (forall x, Forall (sent_from (ds_world s0) (links (chain s0))) (tr ++ [EvPersist provider x])) as Hp
    by (intros x; by apply Forall_app_2'; [|constructor]).
  destruct (decide_action _).
  - destruct (mark_exhausted_and_rotate _ _ _ _ _) as [p o]. destruct (opt_is_some o); [apply moved_put|apply moved_fall_back]; eauto.
  - by apply moved_fall_back.
  - by apply moved_fall_back.
  - set (delay := Z.max _ _). pose proof (Q_sleep delay w) as Hs. destruct (sleep_cancelled h delay w) as [c w1].
    destruct c; apply moved_put; eauto; (apply Forall_app_2'; [done|by constructor]).
  - destruct (bool_decide _); apply moved_put; eauto.
Qed.

Lemma dispatch_round_world (s : @DispatchState W) :
  moved s (dispatch_round h env url_parse parse_http_date cfg req s).
Proof.
  unfold dispatch_round. pose proof (Q_cancel (ds_world s)) as H0. destruct (is_cancelled h (ds_world s)) as [c w0]. cbn [snd] in H0.
  destruct c; [by apply moved_put|]. destruct (16 <=? attempts s); [by apply moved_put|]. cbn [chain].
  unfold chain_current. destruct (links (chain s) !! idx (chain s)) as [[[provider model] cm]|] eqn:Hl.
  2: { split; [done|]. split; [done|]. exists []. by rewrite app_nil_r. }
  set (s1 := {| attempts := _ |}). set (profile := unwrap_or _ _).
  pose proof (Q_pool provider w0) as H1. destruct (pool_for h _ provider w0) as [[pool|e] w1] eqn:Hpool; cbn [snd] in H1;
    [|apply moved_fall_back; eauto].
  pose proof (Q_millis w1) as H2. destruct (timestamp_millis h w1) as [now w2]. cbn [snd] in H2.
  destruct (select pool now) as [pool' [cred|]]; [|apply moved_fall_back; eauto].
  pose proof (Q_decrypt (id cred) w2) as H3. destruct (decrypt h _ (id cred) w2) as [[key|e] w3]; cbn [snd] in H3;
    [|apply moved_fall_back; eauto].
  assert (Q (ds_world s) w3) as H4 by eauto.
  destruct (build_outbound_body _ _ _ _ _ _) as [body|]; [|by apply moved_put].
  destruct (negb _); [by apply moved_put|]. set (request := {| hr_url := _ |}).
  assert (Forall (sent_from (ds_world s) (links (chain s))) [EvSend provider pool now cred request]) as Hf.
  { constructor; [|constructor]. split.
    - exists model. apply list_elem_of_fmap. exists (provider, model, cm). split; [done|]. by eapply list_elem_of_lookup_2.
    - exists w0. split; [done|]. by rewrite Hpool. }
  pose proof (Q_send request w3) as H5. destruct (send h request w3) as [r w4]. cbn [snd] in H5.
  destruct r as [|e|resp]; [apply moved_put; eauto|apply moved_fall_back; eauto|].
  pose proof (Q_nanos w4) as H6. destruct (system_time_ns h w4) as [ns w5]. cbn [snd] in H6.
  destruct (_ && _); [|apply moved_error; eauto].
  unfold on_success. destruct (mark_ok pool' _) as [p healed].
  destruct healed; apply moved_put; eauto. apply Forall_app_2'; [done|by constructor].
Qed.

Lemma dispatch_loop_world (fuel : nat) (s : @DispatchState W) :
  moved s (dispatch_loop h env url_parse parse_http_date fuel cfg req s).
Proof.
  revert s. induction fuel as [|fuel IH]; intros s; [split; [apply Q_refl|split; [done|]]; exists []; by rewrite app_nil_r|].
  cbn [dispatch_loop]. pose proof (dispatch_round_world s) as Hr.
  destruct (dispatch_round _ _ _ _ cfg req s) as [s' st]. destruct st; try exact Hr.
  destruct Hr as (H1 & H2 & evs & H3 & H4). destruct (IH s') as (K1 & K2 & evs' & K3 & K4). cbn [fst] in *.
  split; [eauto|]. split; [congruence|]. exists (evs ++ evs'). rewrite K3, H3, app_assoc. split; [done|].
  apply Forall_app_2'; [done|]. rewrite H2 in K4. eapply Forall_impl; [exact K4|]. intros [p pool ? ? ?| |]; [|done..].
  intros (? & w & ? & ?). split; [done|]. eauto.
Qed.
End DispatchWorlds.

(** ** One turn over the tables *)

Definition kept (t : Uuid) (c c' : Creds.Row) : Prop :=
  Creds.c_id c' = Creds.c_id c /\ Creds.c_tenant c' = Creds.c_tenant c /\ Creds.c_provider c' = Creds.c_provider c /\
  Creds.c_nonce c' = Creds.c_nonce c /\ (Creds.c_tenant c <> t -> c' = c).
Lemma kept_refl t c : kept t c c.
Proof. done. Qed.
Lemma kept_trans t a b c : kept t a b -> kept t b c -> kept t a c.
Proof.
  intros (A1 & A2 & A3 & A4 & A5) (B1 & B2 & B3 & B4 & B5). split_and!; try congruence.
  intros Hn. rewrite <- A5 by done. apply B5. congruence.
Qed.
Definition all_kept (t : Uuid) : Creds.Table -> Creds.Table -> Prop := Forall2 (kept t).
Lemma all_kept_refl t l : all_kept t l l.
Proof. induction l; constructor; [apply kept_refl|done]. Qed.
Lemma all_kept_trans t a b c : all_kept t a b -> all_kept t b c -> all_kept t a c.
Proof. intros H. revert c. induction H as [|x y l k Hxy _ IH]; intros c Hc; inv Hc; constructor; [by eapply kept_trans|by apply IH]. Qed.

(** The nonces of the keys of the tenant have the length the cipher asks for. *)
Definition sound_keys (t : Uuid) (l : Creds.Table) : Prop :=
  forall c, c ∈ l -> Creds.c_tenant c = t -> String.length (Creds.c_nonce c) = 12%nat.
Lemma all_kept_back t l k c' : all_kept t l k -> c' ∈ k -> exists c, c ∈ l /\ kept t c c'.
Proof.
  induction 1 as [|x y l k Hxy _ IH]; intros Hc; [by apply not_elem_of_nil in Hc|].
  apply elem_of_cons in Hc as [->|Hc]; [exists x; split; [by left|done]|].
  destruct (IH Hc) as (c & ? & ?). exists c. split; [by right|done].
Qed.
Lemma sound_kept t l k : all_kept t l k -> sound_keys t l -> sound_keys t k.
Proof.
  intros Hk Hs c Hc Ht. destruct (all_kept_back _ _ _ _ Hk Hc) as (c0 & H0 & H1 & H2 & H3 & -> & _). apply Hs; congruence.
Qed.

Lemma write_status_kept ms now t i st l : all_kept t l (Resolver.write_status ms now t i st l).
Proof.
  rewrite write_status_rows. unfold all_kept. induction l as [|c l IH]; [constructor|]. constructor; [|exact IH].
  destruct (Creds.rls t c) eqn:Hr; [|apply kept_refl]. apply N.eqb_eq in Hr.
  destruct (Creds.has_id i c); [|apply kept_refl]. cbn [andb].
  assert (forall c', Creds.c_id c' = Creds.c_id c -> Creds.c_tenant c' = Creds.c_tenant c -> Creds.c_provider c' = Creds.c_provider c ->
            Creds.c_nonce c' = Creds.c_nonce c -> kept t c c') as Hk by (intros; split_and!; done).
  unfold stamp. destruct st; repeat case_match; by apply Hk.
Qed.
Lemma persist_kept ms now t p pool l : all_kept t l (Resolver.persist_transitions ms now t p pool l).
Proof.
  unfold Resolver.persist_transitions. generalize (List.filter (Resolver.of_pool t p) l). intros rows. revert l.
  induction rows as [|r rows IH]; intros l; [apply all_kept_refl|]. cbn [foldl].
  destruct (find_hint pool (Creds.c_hint r)); [|apply IH]. eapply all_kept_trans; [apply write_status_kept|apply IH].
Qed.

Section DriveProps.
Context {J : Json} {U : Unicode} {HA : Envelope.Aead} {F N : Type} {O : Os F} {Out : Outside N}.
Context (env : EnvVars) (uuid_text : Uuid -> string) (kms : Envelope.Kms) (text_le : string -> string -> bool).
Context (fts ilike : string -> string -> bool) (rank_ge similar_ge : string -> string -> string -> bool).
Context (url_parse : string -> option Ssrf.Url) (parse_http_date : string -> option Z).
Context (web : (string -> N -> result string string * N) * (string -> N -> result string string * N)).
Context (t : Uuid).
#[local] Abbreviation World := (@World F N).
#[local] Abbreviation http := (@http HA F N Out uuid_text kms).
#[local] Abbreviation drive := (drive env uuid_text kms text_le fts ilike rank_ge similar_ge url_parse parse_http_date web).

(** How the keys and the ledger can have moved between two moments of a turn: by what others did and, for the
    keys, by the states the turn writes back; of the ledger, by what others did alone. *)
Definition keys_run : Creds.Table -> Creds.Table -> Prop :=
  rtc (fun a b => all_kept t a b \/ exists n l, b = fst (fst (db_others n (a, l)))).
Definition ledger_run : Ledger.CostDb -> Ledger.CostDb -> Prop := rtc (fun a b => exists n c, b = snd (fst (db_others n (c, a)))).
(** Whoever stores a key seals it with a nonce of the right length. *)
Hypothesis others_sound : forall n c l, sound_keys t c -> sound_keys t (fst (fst (db_others n (c, l)))).

Lemma keys_kept c c' : all_kept t c c' -> keys_run c c'.
Proof. intros H. apply rtc_once. by left. Qed.
Lemma sound_run c c' : keys_run c c' -> sound_keys t c -> sound_keys t c'.
Proof. induction 1 as [|a b c [Hk|(n & l & ->)] _ IH]; [done| |]; intros Hs; apply IH; [by eapply sound_kept|by apply others_sound]. Qed.

Lemma decrypt_returns (c : Uuid) (l : Creds.Table) : sound_keys t l -> Resolver.decrypt uuid_text kms t c l <> None.
Proof.
  intros Hs. unfold Resolver.decrypt. destruct (find_first _ l) as [r|] eqn:Hf; [|done].
  apply find_first_some in Hf as [Hr Hp]. apply andb_true_iff in Hp as [Ht%N.eqb_eq _].
  unfold Envelope.decrypt_with_tenant. cbn [Envelope.e_nonce Envelope.e_dek_wrapped].
  rewrite (Hs r Hr Ht). cbn. by repeat case_match.
Qed.

(** What the dispatcher does to the world between two calls of the turn. *)
Definition quiet_step (w w' : World) : Prop :=
  w_kv w' = w_kv w /\ ledger_run (w_ledger w) (w_ledger w') /\ w_ideas w' = w_ideas w /\ w_files w' = w_files w /\
  w_chain w' = w_chain w /\ w_calls w' = w_calls w /\ keys_run (w_creds w) (w_creds w') /\
  (sound_keys t (w_creds w) -> w_crashed w' = w_crashed w).
Lemma quiet_refl w : quiet_step w w.
Proof. by split_and!. Qed.
Lemma quiet_trans a b c : quiet_step a b -> quiet_step b c -> quiet_step a c.
Proof.
  intros (A1 & A2 & A3 & A4 & A5 & A6 & A7 & A8) (B1 & B2 & B3 & B4 & B5 & B6 & B7 & B8).
  split_and!; try congruence; [by etrans|by etrans|]. intros Hs. rewrite B8, A8; [done..|]. by eapply sound_run.
Qed.
Lemma quiet_set n w : quiet_step w (set_net n w).
Proof. by split_and!. Qed.
Lemma quiet_meanwhile w : quiet_step w (meanwhile w).
Proof.
  unfold meanwhile. destruct (db_others (w_net w) (w_creds w, w_ledger w)) as [[c l] n] eqn:Hd. split_and!; try done; apply rtc_once.
  - exists (w_net w), (w_creds w). by rewrite Hd.
  - right. exists (w_net w), (w_ledger w). by rewrite Hd.
Qed.
Lemma quiet_net {A} (f : N -> A * N) w : quiet_step w (snd (on_net f w)).
Proof. unfold on_net. destruct (f (w_net w)). apply quiet_set. Qed.

(** A request that went out with a key that was the tenant's, for the provider of a link, when it was taken. *)
Definition own_send (l : Creds.Table) (ls : list (string * string * ApiMode)) (e : HttpDispatch.HttpEvent) : Prop :=
  match e with
  | HttpDispatch.EvSend p _ _ cred _ => (exists m, (p, m) ∈ fst <$> ls) /\
      exists k c, keys_run l k /\ c ∈ k /\ Creds.c_tenant c = t /\ Creds.c_provider c = p /\ Creds.c_id c = id cred
  | _ => True
  end.

(** What [n] calls of a turn may do. *)
Definition turn_step (n : nat) (w w' : World) : Prop :=
  w_kv w' = w_kv w /\ ledger_run (w_ledger w) (w_ledger w') /\ w_ideas w' = w_ideas w /\ w_files w' = w_files w /\
  links (w_chain w') = links (w_chain w) /\ keys_run (w_creds w) (w_creds w') /\
  (sound_keys t (w_creds w) -> chain_ok (w_chain w) -> chain_ok (w_chain w') /\ w_crashed w' = w_crashed w /\
   exists evs, w_calls w' = w_calls w ++ evs /\ (sends evs <= 16 * n)%nat /\
     Forall (own_send (w_creds w) (links (w_chain w))) evs).
Lemma turn_step_quiet w w' : quiet_step w w' -> turn_step 0 w w'.
Proof.
  intros (A1 & A2 & A3 & A4 & A5 & A6 & A7 & A8). split_and!; try congruence. intros Hs Hc. rewrite A5, A6.
  split; [done|]. split; [by apply A8|]. exists []. rewrite app_nil_r. by split_and!.
Qed.
Lemma own_send_back l k ls e : keys_run l k -> own_send k ls e -> own_send l ls e.
Proof.
  destruct e as [p pool now cred r| |]; [|done..]. intros Hk (Hm & k' & c & Hk' & Hc). split; [done|].
  exists k', c. split; [by etrans|done].
Qed.
Lemma turn_step_trans n m a b c : turn_step n a b -> turn_step m b c -> turn_step (n + m) a c.
Proof.
  intros (A1 & A2 & A3 & A4 & A5 & A6 & A7) (B1 & B2 & B3 & B4 & B5 & B6 & B7).
  split_and!; try congruence; [by etrans|by etrans|]. intros Hs Hc.
  destruct (A7 Hs Hc) as (C1 & C2 & evs & C3 & C4 & C5). destruct B7 as (D1 & D2 & evs' & D3 & D4 & D5); [by eapply sound_run|done|].
  split; [done|]. split; [congruence|]. exists (evs ++ evs'). rewrite D3, C3, sends_app. split; [by rewrite app_assoc|]. split; [lia|].
  apply Forall_app_2'; [done|]. rewrite A5 in D5. eapply Forall_impl; [exact D5|]. intros e. by apply own_send_back.
Qed.

Lemma complete_moves (cfg : HttpDispatch.Config) (req : DispatchRequest) (c : FallbackChain) (w : World) :
  dr_tenant req = t ->
  moved quiet_step http req (HttpDispatch.dispatch_init c w)
    (HttpDispatch.complete http (env "QCUE_RESPONSES_API") url_parse parse_http_date cfg req c w).
Proof.
  intros Ht. apply dispatch_loop_world; try exact quiet_trans; try (intros; apply quiet_refl); try (intros; apply quiet_net); try (intros; apply quiet_set).
  - intros p x. apply quiet_meanwhile.
  - intros i x. cbn. apply (quiet_trans _ _ _ (quiet_meanwhile x)). destruct (Resolver.decrypt _ _ _ _ _) eqn:Hd; [apply quiet_refl|].
    split_and!; try done. intros Hs. rewrite Ht in Hd. by destruct (decrypt_returns i _ Hs).
  - intros p pool x. cbn. pose proof (quiet_net net_millis x) as H1. destruct (on_net net_millis x) as [ms x1]. cbn [snd] in H1.
    apply (quiet_trans _ _ _ H1), (quiet_trans _ _ _ (quiet_meanwhile x1)).
    pose proof (quiet_net db_now (meanwhile x1)) as H2. destruct (on_net db_now (meanwhile x1)) as [now x2]. apply (quiet_trans _ _ _ H2).
    rewrite Ht. split_and!; try done. apply keys_kept, persist_kept.
  - intros r x. cbn. unfold on_net. destruct (net_send r (w_net x)) as [a n]. apply quiet_set.
Qed.

Lemma pool_own p pool (l : Creds.Table) cred :
  Resolver.pool_for t p l = Ok pool -> cred ∈ entries pool ->
  exists c, c ∈ l /\ Creds.c_tenant c = t /\ Creds.c_provider c = p /\ Creds.c_id c = id cred.
Proof.
  unfold Resolver.pool_for. intros Hp Hc.
  assert (pool = pool_new (Resolver.pooled <$> List.filter (Resolver.of_pool t p) l) FillFirst) as ->
    by (destruct (List.filter _ l); [done|congruence]).
  cbn in Hc. apply list_elem_of_fmap in Hc as (c & -> & Hc). apply list_elem_of_In, filter_In in Hc as [Hc Hf].
  apply andb_true_iff in Hf as [H1%N.eqb_eq H2%String.eqb_eq].
  exists c. split_and!; [by apply list_elem_of_In|done..].
Qed.

Lemma live_complete_step (allow : bool) (req : DispatchRequest) (w : World) :
  dr_tenant req = t ->
  turn_step 1 w (snd (live_complete env uuid_text kms url_parse parse_http_date allow req w)).
Proof.
  intros Ht. unfold live_complete. set (cfg := {| HttpDispatch.registry := _ |}).
  pose proof (complete_moves cfg req (w_chain w) w Ht) as Hm.
  pose proof (dispatch_loop_ok http (env "QCUE_RESPONSES_API") url_parse parse_http_date cfg req 17 (HttpDispatch.dispatch_init (w_chain w) w)) as Hok.
  fold (HttpDispatch.complete http (env "QCUE_RESPONSES_API") url_parse parse_http_date cfg req (w_chain w) w) in Hok.
  destruct (HttpDispatch.complete http _ _ _ cfg req (w_chain w) w) as [s step].
  destruct Hm as ((A1 & A2 & A3 & A4 & A5 & A6 & A7 & A8) & Hl & evs & Htr & Hf). cbn [fst HttpDispatch.dispatch_init HttpDispatch.ds_world HttpDispatch.chain HttpDispatch.ds_trace app] in *.
  assert (forall x, w_kv x = w_kv (HttpDispatch.ds_world s) -> w_ledger x = w_ledger (HttpDispatch.ds_world s) ->
    w_ideas x = w_ideas (HttpDispatch.ds_world s) -> w_files x = w_files (HttpDispatch.ds_world s) ->
    w_creds x = w_creds (HttpDispatch.ds_world s) -> w_chain x = HttpDispatch.chain s ->
    w_calls x = w_calls w ++ HttpDispatch.ds_trace s ->
    (sound_keys t (w_creds w) -> chain_ok (w_chain w) -> w_crashed x = w_crashed (HttpDispatch.ds_world s)) -> turn_step 1 w x) as Hx.
  { intros x X1 X2 X3 X4 X5 X6 X7 X8. split_and!; try congruence. intros Hs Hc. rewrite X6, X7.
    destruct Hok as (s' & r & He & Hc' & evs' & Htr' & Hsend & Hn); [exact registered_plain|done|done|done|].
    injection He as -> ->. split; [done|]. split; [rewrite X8, A8; done|]. rewrite Htr' in Htr. cbn in Htr. subst evs'.
    exists evs. rewrite Htr'. split; [done|]. split; [cbn in Hn; lia|]. rewrite Forall_forall in Hsend, Hf |- *.
    intros e He. destruct e as [p pool now cred r'| |]; [|done..]. destruct (Hsend _ He) as [Hin _]. destruct (Hf _ He) as (Hm & w1 & Hq & Hpool).
    split; [done|]. rewrite Ht in Hpool. cbn in Hpool. destruct (pool_own _ _ _ _ Hpool Hin) as (c & Hcin & Hown).
    destruct (quiet_trans _ _ _ Hq (quiet_meanwhile w1)) as (_ & _ & _ & _ & _ & _ & Hk & _). by exists (w_creds (meanwhile w1)), c. }
  destruct step; (apply Hx; try done); intros Hs Hc;
    (destruct Hok as (s' & r' & He & _); [exact registered_plain|done|done|done|]; discriminate He).
Qed.

#[local] Abbreviation turn_context := (turn_context env uuid_text fts ilike rank_ge similar_ge web).

Lemma tool_step llm exec name args (w : World) :
  td_exec (turn_tools uuid_text fts ilike rank_ge similar_ge web llm t) = Some exec -> quiet_step w (snd (exec name args w)).
Proof.
  unfold turn_tools. intros He. destruct (tools llm); [done|]. destruct (recall_deps llm); [|done]. injection He as <-. apply quiet_net.
Qed.

Lemma budget_bounds : 0 <= round (turn_budget_from_env env) /\ max_rounds (turn_budget_from_env env) <= Int.u32_max.
Proof.
  split; [done|]. cbn. unfold parse_u32. destruct (env "QCUE_TURN_MAX_ROUNDS") as [s|]; [|done]. cbn.
  destruct (Social.parse_u64 s) as [v|]; [|done]. unfold opt_filter. destruct (Z.leb_spec v Int.u32_max); done.
Qed.

(** The rounds of a turn at most, and the final one. *)
Definition turn_calls : nat := (Z.to_nat (max_rounds (turn_budget_from_env env)) + 1)%nat.

Definition turn_done (w1 w' : World) : Prop :=
  w_kv w' = w_kv w1 /\ ledger_run (w_ledger w1) (w_ledger w') /\ w_ideas w' = w_ideas w1 /\ w_files w' = w_files w1 /\
  keys_run (w_creds w1) (w_creds w') /\ w_crashed w' = w_crashed w1 /\
  exists evs, w_calls w' = w_calls w1 ++ evs /\ (sends evs <= 16 * turn_calls)%nat /\
    Forall (own_send (w_creds w1) (links (w_chain w1))) evs.

Lemma turn_runs (h : @Turn.Harness World) llm req sink over (w1 : World) :
  ((exists x, h = harness_with (stub_complete x)) \/
   (chain_ok (w_chain w1) /\ exists a, h = harness_with (live_complete env uuid_text kms url_parse parse_http_date a))) ->
  sound_keys t (w_creds w1) ->
  exists s r, run_turn h (turn_context llm t req sink over) w1 = (s, Some r) /\ turn_done w1 (world s).
Proof.
  intros Hh Hs. set (ctx := turn_context llm t req sink over). destruct budget_bounds as [Hb1 Hb2].
  destruct (turn_loop_bound h ctx (S (Z.to_nat (max_rounds (Turn.budget ctx)))) (turn_init ctx w1)) as [[r Hr] (evs & Htr & Hc & _)];
    [done|done|cbn -[turn_budget_from_env]; lia|].
  unfold run_turn. destruct (turn_loop _ h ctx (turn_init ctx w1)) as [s o] eqn:Hl. cbn [fst snd] in *. subst o.
  exists s, r. split; [done|].
  assert (Turn.calls evs <= turn_calls)%nat as Hn by (cbn -[turn_budget_from_env] in Hc; unfold turn_calls; lia).
  destruct Hh as [[x ->]|[Hch [a ->]]].
  - destruct (turn_loop_world (fun _ => quiet_step) quiet_refl (fun _ _ => quiet_trans) (harness_with (stub_complete x)) ctx
      quiet_refl quiet_refl (fun _ w _ => quiet_refl w) (fun exec name args w => tool_step llm exec name args w)
      (S (Z.to_nat (max_rounds (Turn.budget ctx)))) (turn_init ctx w1)) as (evs' & _ & Hq). rewrite Hl in Hq.
    cbn [fst world turn_init] in Hq. destruct Hq as (A1 & A2 & A3 & A4 & A5 & A6 & A7 & A8). split_and!; try congruence; [by apply A8|].
    exists []. rewrite app_nil_r. split_and!; [done|cbn; lia|constructor].
  - destruct (turn_loop_world turn_step (fun w => turn_step_quiet _ _ (quiet_refl w)) turn_step_trans
      (harness_with (live_complete env uuid_text kms url_parse parse_http_date a)) ctx
      (fun w => turn_step_quiet _ _ (quiet_refl w)) (fun w => turn_step_quiet _ _ (quiet_refl w))
      (fun req w E => live_complete_step a req w E)
      (fun exec name args w E => turn_step_quiet _ _ (tool_step llm exec name args w E))
      (S (Z.to_nat (max_rounds (Turn.budget ctx)))) (turn_init ctx w1)) as (evs' & Htr' & Hq). rewrite Hl in Htr', Hq.
    cbn [fst] in *. rewrite Htr in Htr'. apply app_inv_head in Htr' as <-. cbn [world turn_init] in Hq.
    destruct Hq as (A1 & A2 & A3 & A4 & A5 & A6 & A7). destruct (A7 Hs Hch) as (_ & B1 & es & B2 & B3 & B4).
    split_and!; try congruence. exists es. split_and!; [done|lia|done].
Qed.

Lemma harness_for_live llm over (w : World) reply :
  source llm = PerTenant reply ->
  let '(h, acc, w1) := harness_for env uuid_text kms text_le url_parse parse_http_date llm t over w in
  ((exists x, h = harness_with (stub_complete x)) \/
   (chain_ok (w_chain w1) /\ exists a, h = harness_with (live_complete env uuid_text kms url_parse parse_http_date a))) /\
  acc <> None /\ (exists c, w1 = set_chain c (w_calls w) w).
Proof.
  intros Hsrc. unfold harness_for. rewrite Hsrc.
  set (b := match override_route over with Some _ => _ | None => _ end).
  assert ((exists x p m, b = (StubHarness x, p, m)) \/ exists p m ps p' m', b = (build_live_harness env p m ps, p', m')) as [(x & p & m & ->)|(p & m & ps & p' & m' & ->)].
  { subst b. unfold build_harness_for, build_harness_for_route.
    destruct (override_route over) as [[p m]|]; (destruct (stub_llm_enabled env); [left; eauto|right]);
      destruct (effective_route_with_providers _ _ _ _ _) as [[p0 m0] ps]; eauto 8. }
  - cbn. split; [left; eauto|]. split; [done|]. exists (w_chain w). by destruct w.
  - unfold build_live_harness. destruct (opts_from_env env) as [opts a]. cbn. split; [right|split; [done|eauto]].
    split; [|eauto]. unfold chain_ok. cbn. unfold build_chain_links.
    assert (forall l0 l, (0 < length l)%nat -> (0 < length (foldl (cross_link env register_all p) l l0))%nat) as Hpos.
    { clear. induction l0 as [|q l0 IH]; intros l Hl; [done|]. cbn [foldl]. apply IH. unfold cross_link.
      repeat case_match; try done; rewrite ?length_app; lia. }
    apply Hpos. rewrite length_app. cbn. lia.
Qed.

Lemma harness_for_route llm over (w : World) reply :
  source llm = PerTenant reply ->
  snd (fst (harness_for env uuid_text kms text_le url_parse parse_http_date llm t over w)) =
  Some (if stub_llm_enabled env then ("stub", "stub")
        else unwrap_or (override_route over) (effective_route text_le env t (w_kv w) (w_creds w))).
Proof.
  intros Hsrc. unfold harness_for, build_harness_for, build_harness_for_route, effective_route. rewrite Hsrc.
  destruct (stub_llm_enabled env), (override_route over) as [[p m]|]; try done;
    destruct (effective_route_with_providers _ _ _ _ _) as [[p0 m0] ps]; done.
Qed.

(** Accruing is the one write of a turn to the ledger, on top of what others wrote. *)
Lemma accrue_final_step acc u (w : World) :
  let w' := accrue_final t acc u w in
  w_kv w' = w_kv w /\ w_ideas w' = w_ideas w /\ w_files w' = w_files w /\ w_calls w' = w_calls w /\ w_crashed w' = w_crashed w /\
  keys_run (w_creds w) (w_creds w') /\
  match acc with
  | Some (p, m) => exists day l, ledger_run (w_ledger w) l /\ w_ledger w' = Guard.accrue_turn_cost day t p m u l
  | None => w_ledger w' = w_ledger w
  end.
Proof.
  destruct acc as [[p m]|]; [|by split_and!]. cbn zeta. unfold accrue_final.
  pose proof (quiet_meanwhile w) as H1. pose proof (quiet_net db_today (meanwhile w)) as H2. unfold on_net in *.
  destruct (db_today (w_net (meanwhile w))) as [day n]. destruct H1 as (A1 & A2 & A3 & A4 & _ & A6 & A7 & _).
  cbn. split_and!; try done; [|by eexists _, _]. unfold meanwhile. by destruct (db_others _ _) as [[c l] k].
Qed.

(** A turn neither panics nor touches captures and files. *)
Lemma harmless_drive (llm : @RouterWikiLlm F N) (req : Factory.WikiReq) (sink : bool) (over : RecallOverride) (w : World) (reply : string) :
  source llm = PerTenant reply -> sound_keys t (w_creds w) -> w_crashed w = false ->
  exists r evs w', drive llm t req sink over w = Some (r, evs, w') /\ w_ideas w' = w_ideas w /\ w_files w' = w_files w /\
    w_crashed w' = false /\ sound_keys t (w_creds w').
Proof.
  intros Hlive Hkeys Hup. unfold drive. pose proof (harness_for_live llm over w reply Hlive) as Hh.
  destruct (harness_for _ _ _ _ _ _ _ _ _ w) as [[h acc] w1]. destruct Hh as (Hh & _ & c & ->).
  destruct (turn_runs h llm req sink over _ Hh Hkeys) as (s & r & Hr & A1 & A2 & A3 & A4 & A5 & A6 & _).
  rewrite Hr. cbn [w_crashed set_chain w_ideas w_files w_creds] in *. pose proof (sound_run _ _ A5 Hkeys) as Hk. rewrite A6, Hup.
  rewrite <- A6 in Hup. destruct r as [[content usage finish| |e]|e]; (eexists _, _, _; split; [reflexivity|]); try (by split_and!; try congruence).
  destruct (accrue_final_step acc usage (world s)) as (_ & B2 & B3 & _ & B5 & B6 & _). split_and!; try congruence. by eapply sound_run.
Qed.

(** C3: a live turn always returns, over any network, clock and model and whatever other requests do to the keys
    and the ledger in between: it makes at most sixteen requests in each of its rounds, each with a key that was its
    tenant's, for the provider of a link of its chain, when it was taken. It leaves the settings, captures and files
    as they were; to the keys it does nothing but write back states of its tenant's own, to the ledger nothing but
    accrue once. *)
Theorem turn_uses_own_keys (llm : @RouterWikiLlm F N) (req : Factory.WikiReq) (sink : bool) (over : RecallOverride) (w : World) (reply : string)
  (Hlive : source llm = PerTenant reply) (Hkeys : sound_keys t (w_creds w)) (Hup : w_crashed w = false) :
  exists r evs w' chain calls, drive llm t req sink over w = Some (r, evs, w') /\
    w_calls w' = w_calls w ++ calls /\ (sends calls <= 16 * turn_calls)%nat /\ Forall (own_send (w_creds w) chain) calls /\
    w_kv w' = w_kv w /\ w_ideas w' = w_ideas w /\ w_files w' = w_files w /\ keys_run (w_creds w) (w_creds w').
Proof.
  unfold drive. pose proof (harness_for_live llm over w reply Hlive) as Hh.
  destruct (harness_for _ _ _ _ _ _ _ _ _ w) as [[h acc] w1]. destruct Hh as (Hh & _ & c & ->).
  destruct (turn_runs h llm req sink over _ Hh Hkeys) as (s & r & Hr & A1 & A2 & A3 & A4 & A5 & A6 & calls & A7 & A8 & A9).
  rewrite Hr. cbn [w_crashed set_chain w_calls w_chain w_creds w_kv w_ideas w_files] in *. rewrite A6, Hup.
  destruct r as [[content usage finish| |e]|e]; (eexists _, _, _, (links c), calls; split; [reflexivity|]); try (by split_and!).
  destruct (accrue_final_step acc usage (world s)) as (B1 & B2 & B3 & B4 & B5 & B6 & _). split_and!; try congruence. by etrans.
Qed.

(** C22: a turn pays once and for what was used: an answer adds the sum of the usages of its replies, priced at
    the route the turn was given, to the ledger as others left it; a turn that fails, is refused or is interrupted
    adds nothing. *)
Theorem turn_pays_for_usage (llm : @RouterWikiLlm F N) (req : Factory.WikiReq) (sink : bool) (over : RecallOverride) (w : World) (reply : string)
  (Hlive : source llm = PerTenant reply) (Hkeys : sound_keys t (w_creds w)) :
  match drive llm t req sink over w with
  | Some (Ok (_, usage), evs, w') => usage = usage_of usage_zero evs /\
      exists day p m l, ledger_run (w_ledger w) l /\ w_ledger w' = Guard.accrue_turn_cost day t p m usage l /\
        (p, m) = if stub_llm_enabled env then ("stub", "stub")
                 else unwrap_or (override_route over) (effective_route text_le env t (w_kv w) (w_creds w))
  | Some (Err _, _, w') => ledger_run (w_ledger w) (w_ledger w')
  | None => w_crashed w = true
  end.
Proof.
  unfold drive. pose proof (harness_for_live llm over w reply Hlive) as Hh.
  pose proof (harness_for_route llm over w reply Hlive) as Hroute.
  destruct (harness_for _ _ _ _ _ _ _ _ _ w) as [[h acc] w1]. destruct Hh as (Hh & _ & c & ->).
  destruct (turn_runs h llm req sink over _ Hh Hkeys) as (s & r & Hr & A1 & A2 & A3 & A4 & A5 & A6 & _).
  destruct (turn_loop_usage h (turn_context llm t req sink over) (S (Z.to_nat (max_rounds (turn_budget_from_env env))))
    (turn_init (turn_context llm t req sink over) (set_chain c (w_calls w) w))) as (evs & Htr & _ & Hu).
  change (turn_loop _ h _ _) with (run_turn h (turn_context llm t req sink over) (set_chain c (w_calls w) w)) in Htr, Hu.
  rewrite Hr in *. cbn [fst snd w_crashed set_chain w_ledger] in *. rewrite A6. destruct (w_crashed w); [done|].
  destruct r as [[content usage finish| |e]|e]; [|done..]. destruct Hu as [Hu _]. split.
  - rewrite Hu, Htr. unfold usage_of. rewrite foldl_app. cbn. by destruct (find_first _ _).
  - destruct (accrue_final_step acc usage (world s)) as (_ & _ & _ & _ & _ & _ & B7). destruct acc as [[p m]|]; [|done].
    destruct B7 as (day & l & B7 & B8). exists day, p, m, l. split; [by etrans|]. split; [done|]. by injection Hroute.
Qed.
End DriveProps.

(** ** A concrete turn *)

(** The provider answers 500 once and then with a text and its usage. *)
Definition answer_json : Json := {|
  from_str := fun s => if String.eqb s "answer"
    then Ok (obj [("choices", Array [obj [("finish_reason", String_ "stop"); ("message", obj [("content", String_ "It is a language.")])]]);
                  ("usage", obj [("completion_tokens", Number_ (PosInt 20)); ("prompt_tokens", Number_ (PosInt 300))])])
    else Err "expected value";
  to_string := fun _ => "" |}.
Definition Replies : Type := list (result string HttpDispatch.HttpResponse).
#[export] Instance replies_outside : Outside Replies := {|
  net_millis := fun n => (1000, n); net_nanos := fun n => (1000000000, n); db_now := fun n => (1000000, n); db_today := fun n => (20000, n);
  net_send := fun _ n => match n with r :: n => (r, n) | [] => (Err "connection refused", []) end;
  net_sleep := fun _ n => n; db_others := fun n x => (x, n) |}.
Definition demo_replies : Replies := [
  Ok {| HttpDispatch.hs_status := 500; HttpDispatch.hs_retry_after := None; HttpDispatch.hs_text := "busy" |};
  Err "connection reset";
  Ok {| HttpDispatch.hs_status := 200; HttpDispatch.hs_retry_after := None; HttpDispatch.hs_text := "answer" |}].
Definition demo_env : EnvVars := fun k => if String.eqb k "QCUE_ALLOW_INSECURE_HTTP" then Some "1" else None.
Definition demo_world : @World Files Replies := {|
  w_creds := route_key 9 "openai" 8%N (route_key 5 "deepseek" 7%N []); w_kv := []; w_ledger := {| Ledger.tenants := []; Ledger.users := []; Ledger.ledger := [] |};
  w_ideas := []; w_files := demo_files; w_net := demo_replies; w_chain := chain_new []; w_calls := []; w_crashed := false |}.
Definition demo_ask : Factory.WikiReq := {|
  Factory.stable_prefix := "SYS"; Factory.messages := [text_message User (Some "What is Rust?")]; Factory.response_format := None;
  Factory.max_tokens := 64; Factory.cache_breakpoint := None; Factory.disable_thinking := true |}.
Definition demo_drive (w : @World Files Replies) :=
  @drive answer_json ascii_only Vault.Toy.toy_aead Files Replies files_os replies_outside demo_env demo_text Envelope.StubKms (fun _ _ => true)
    (fun _ _ => false) (fun _ _ => false) (fun _ _ _ => false) (fun _ _ _ => false) (fun _ => None) (fun _ => None)
    (fun _ n => (Err "off", n), fun _ n => (Err "off", n)) (live "stub") 1%N demo_ask false no_override w.

Lemma demo_keys : sound_keys 1%N (w_creds demo_world).
Proof. intros c Hc Ht. vm_compute in Hc. repeat (apply elem_of_cons in Hc as [->|Hc]; [reflexivity|]). by apply not_elem_of_nil in Hc. Qed.

(** The two requests that fail go to the models of the first link, the one that succeeds to the second
    provider; the turn is paid at the price of the first link, as the only provider of the day. *)
Example fallback_is_priced_at_the_primary :
  match demo_drive demo_world with
  | Some (Ok (resp, u), _, w') =>
      Analyzer.resp_content resp = "It is a language." /\
      omap (fun e => match e with HttpDispatch.EvSend p _ _ _ _ => Some p | _ => None end) (w_calls w') = ["openai"; "openai"; "deepseek"] /\
      Ledger.provider_breakdown <$> Ledger.ledger (w_ledger w') = [[("openai", 575)]] /\
      Price.cost_micros "deepseek-v4-pro" u = 106
  | _ => False
  end.
Proof. vm_compute. repeat split. Qed.

(** Meanwhile: once the network has answered another request deletes the key of the first provider, and at
    every look another tenant has paid for something. *)
Definition meddling : Outside Replies := {|
  net_millis := net_millis; net_nanos := net_nanos; db_now := db_now; db_today := db_today; net_send := net_send; net_sleep := net_sleep;
  db_others := fun n '(c, l) =>
    (if Nat.ltb (length n) 2 then List.filter (fun r => negb (String.eqb (Creds.c_provider r) "openai")) c else c,
     Guard.accrue_turn_cost 20000 2%N "openai" "gpt-5.5" {| u_input := 1000; u_output := 0; u_cache_read := 0; u_cache_write := 0; u_reasoning := 0 |} l, n) |}.
Definition meddled_world : @World Files Replies := set_net [
  Ok {| HttpDispatch.hs_status := 500; HttpDispatch.hs_retry_after := None; HttpDispatch.hs_text := "busy" |};
  Ok {| HttpDispatch.hs_status := 200; HttpDispatch.hs_retry_after := None; HttpDispatch.hs_text := "answer" |}] demo_world.
Definition meddled_drive :=
  @drive answer_json ascii_only Vault.Toy.toy_aead Files Replies files_os meddling demo_env demo_text Envelope.StubKms (fun _ _ => true)
    (fun _ _ => false) (fun _ _ => false) (fun _ _ _ => false) (fun _ _ _ => false) (fun _ => None) (fun _ => None)
    (fun _ n => (Err "off", n), fun _ n => (Err "off", n)) (live "stub") 1%N demo_ask false no_override meddled_world.
Lemma meddling_sound n c l : sound_keys 1%N c -> sound_keys 1%N (fst (fst (@db_others Replies meddling n (c, l)))).
Proof. cbn. intros Hs r Hr. apply Hs. case_match; [|done]. by apply list_elem_of_In, filter_In in Hr as [Hr%list_elem_of_In _]. Qed.
Lemma demo_keys_run k c :
  @keys_run Replies meddling 1%N (w_creds meddled_world) k -> c ∈ k -> Creds.c_provider c = "openai" \/ Creds.c_provider c = "deepseek".
Proof.
  intros Hk. revert c. change (w_creds meddled_world) with (w_creds demo_world) in Hk.
  assert (forall c, c ∈ w_creds demo_world -> Creds.c_provider c = "openai" \/ Creds.c_provider c = "deepseek") as H0.
  { intros c Hc. vm_compute in Hc. repeat (apply elem_of_cons in Hc as [->|Hc]; [vm_compute; auto|]). by apply not_elem_of_nil in Hc. }
  induction Hk as [|a b k Hab _ IH]; [done|]. apply IH. intros c Hc. destruct Hab as [Hab|(n & l & ->)].
  - destruct (all_kept_back _ _ _ _ Hab Hc) as (c0 & H1 & _ & _ & -> & _). by apply H0.
  - apply H0. cbn in Hc. case_match; [|done]. by apply list_elem_of_In, filter_In in Hc as [Hc%list_elem_of_In _].
Qed.

Example key_deleted_meanwhile :
  match meddled_drive with
  | Some (Ok (resp, u), _, w') =>
      Analyzer.resp_content resp = "It is a language." /\
      omap (fun e => match e with HttpDispatch.EvSend p _ _ _ _ => Some p | _ => None end) (w_calls w') = ["openai"; "deepseek"] /\
      Creds.c_provider <$> w_creds w' = ["deepseek"] /\ (Ledger.spent <$> List.filter (fun r => N.eqb (Ledger.tenant_id r) 1) (Ledger.ledger (w_ledger w'))) = [575]
  | _ => False
  end.
Proof. vm_compute. repeat split. Qed.

Lemma turn_uses_own_keys_witness :
  exists r evs w' calls, meddled_drive = Some (r, evs, w') /\ w_calls w' = calls /\ (sends calls <= 528)%nat /\
    Forall (fun e => match e with HttpDispatch.EvSend p _ _ _ _ => p = "openai" \/ p = "deepseek" | _ => True end) calls.
Proof.
  destruct (@turn_uses_own_keys answer_json ascii_only Vault.Toy.toy_aead Files Replies files_os meddling demo_env demo_text
    Envelope.StubKms (fun _ _ => true) (fun _ _ => false) (fun _ _ => false) (fun _ _ _ => false) (fun _ _ _ => false) (fun _ => None) (fun _ => None)
    (fun _ n => (Err "off", n), fun _ n => (Err "off", n)) 1%N meddling_sound (live "stub") demo_ask false no_override meddled_world "stub"
    eq_refl demo_keys eq_refl) as (r & evs & w' & chain & calls & Hd & Hc & Hn & Ho & _).
  exists r, evs, w', calls. split; [exact Hd|]. split; [exact Hc|]. split; [exact Hn|].
  eapply Forall_impl; [exact Ho|]. intros [p pool now cred q| |]; [|done..]. intros (_ & k & c & Hk & Hin & _ & <- & _).
  by eapply demo_keys_run.
Defined.

Lemma turn_pays_for_usage_witness :
  match meddled_drive with
  | Some (Ok (_, usage), evs, w') => usage = usage_of usage_zero evs /\ u_input usage = 300 /\
      exists day p m l, w_ledger w' = Guard.accrue_turn_cost day 1%N p m usage l
  | _ => False
  end.
Proof.
  pose proof (@turn_pays_for_usage answer_json ascii_only Vault.Toy.toy_aead Files Replies files_os meddling demo_env demo_text
    Envelope.StubKms (fun _ _ => true) (fun _ _ => false) (fun _ _ => false) (fun _ _ _ => false) (fun _ _ _ => false) (fun _ => None) (fun _ => None)
    (fun _ n => (Err "off", n), fun _ n => (Err "off", n)) 1%N meddling_sound (live "stub") demo_ask false no_override meddled_world "stub"
    eq_refl demo_keys) as H.
  change (match meddled_drive with
  | Some (Ok (_, usage), evs, w') => usage = usage_of usage_zero evs /\
      exists day p m l, @ledger_run Replies meddling (w_ledger meddled_world) l /\ w_ledger w' = Guard.accrue_turn_cost day 1%N p m usage l /\
        (p, m) = ("openai", "gpt-5.5")
  | Some (Err _, _, w') => @ledger_run Replies meddling (w_ledger meddled_world) (w_ledger w')
  | None => w_crashed meddled_world = true
  end) in H.
  assert (match meddled_drive with Some (Ok (_, u), _, _) => u_input u = 300 | _ => False end) as Hu by (vm_compute; reflexivity).
  destruct meddled_drive as [[[[[resp u]|e] evs] w']|]; [|done..].
  destruct H as (H1 & day & p & m & l & _ & H2 & _). eauto 9.
Defined.
