(* ===== verification/Hub.v ===== *)
(** * Live streams

    [Envelope]: the wire events of [protocol] and [app-server-protocol/src/envelope.rs]. [Replay]:
    [app-server/src/wire/replay.rs], the ring of the last events of a stream. [Hub]: [wire/hub.rs], the
    registry of streams with their owners. [Sse]: [wire/sse.rs] and the streaming routes of
    [wire/routes.rs], what a connection and a reconnection are sent. A broadcast channel is the log of
    what was sent on it; what of it reaches a slow receiver is a parameter. *)
From S2P Require Import Prelude RustStr Json Protocol Identity Auth Drive.
From stdpp Require Import list pretty gmap.

#[local] Open Scope string_scope.
#[local] Open Scope list_scope.
#[local] Open Scope Z_scope.

(** ** Wire events *)
Module Envelope.
(* src/qcue-rs/protocol/src/envelope.rs 9-23 RuntimeEventEnvelope *)
Record RuntimeEventEnvelope : Type := {
  schema_version : Z;
  thread_id : Uuid;
  turn_id : option Uuid;
  seq : Z;
  event : string;
  payload : Value;
}.
(* src/qcue-rs/app-server-protocol/src/envelope.rs 9-23 error_codes *)
Definition OVERLOADED : Z := -32001.
Definition UNAUTHORIZED : Z := -32002.
Definition NOT_INITIALIZED : Z := -32010.
Definition ALREADY_INITIALIZED : Z := -32011.
Definition RESYNC_REQUIRED : Z := -32020.
Definition NO_CREDENTIALS : Z := -32030.
Definition COST_CEILING : Z := -32031.
(* src/qcue-rs/app-server-protocol/src/envelope.rs 30-39 RuntimeEvent *)
Inductive RuntimeEvent : Type :=
| ThreadStarted | TurnStarted | ItemStarted | ItemDelta | ItemCompleted | TurnCompleted | UsageEvent | ErrorEvent.
(* src/qcue-rs/app-server-protocol/src/envelope.rs 43-54 as_wire *)
Definition as_wire (e : RuntimeEvent) : string :=
  match e with
  | ThreadStarted => "threadStarted"
  | TurnStarted => "turnStarted"
  | ItemStarted => "itemStarted"
  | ItemDelta => "itemDelta"
  | ItemCompleted => "itemCompleted"
  | TurnCompleted => "turnCompleted"
  | UsageEvent => "usage"
  | ErrorEvent => "error"
  end.
End Envelope.
Import Envelope.

(** ** The ring of the last events *)
Module Replay.
(* src/qcue-rs/app-server/src/wire/replay.rs 11-14 ReplayRing *)
Record ReplayRing : Type := { cap : nat; buf : list RuntimeEventEnvelope }.
(* src/qcue-rs/app-server/src/wire/replay.rs 18-20 new *)
Definition ring_new (n : nat) : ReplayRing := {| cap := n; buf := [] |}.
(* src/qcue-rs/app-server/src/wire/replay.rs 23-28 push *)
Definition push (e : RuntimeEventEnvelope) (r : ReplayRing) : ReplayRing :=
  {| cap := cap r; buf := (if Nat.eqb (length (buf r)) (cap r) then tail (buf r) else buf r) ++ [e] |}.
(* src/qcue-rs/app-server/src/wire/replay.rs 32-38 since *)
Definition since (n : Z) (r : ReplayRing) : option (list RuntimeEventEnvelope) :=
  let oldest := match buf r with e :: _ => seq e | [] => 0 end in
  if n <? oldest then None else Some (List.filter (fun e => n <=? seq e) (buf r)).
End Replay.
Import Replay.

(** ** The registry *)
Module Hub.
(* src/qcue-rs/app-server/src/wire/hub.rs 15-24 REPLAY_RING_CAP *)
Definition REPLAY_RING_CAP : nat := 20.
Definition BROADCAST_CAP : nat := 256.
Definition MAX_STREAMS : nat := 100 * 100.
(** [chan]: the channel of the entry, by its number. *)
(* src/qcue-rs/app-server/src/wire/hub.rs 26-34 StreamEntry *)
Record StreamEntry : Type := { owner : Uuid; chan : nat; ring : ReplayRing; last_seq : Z }.
(** The entries, what was sent on each channel ever made, and the channels of the live receivers. *)
(* src/qcue-rs/app-server/src/wire/hub.rs 38-45 StreamHub *)
Record StreamHub : Type := {
  entries : gmap Uuid StreamEntry;
  logs : list (list RuntimeEventEnvelope);
  live : list nat;
}.
Definition hub_new : StreamHub := {| entries := ∅; logs := []; live := [] |}.
(** A receiver: its channel and how much had been sent on it. *)
Record Receiver : Type := { r_chan : nat; r_from : nat }.

Definition nil_uuid : Uuid := 0%N.
Definition set_entry (s : Uuid) (e : StreamEntry) (h : StreamHub) : StreamHub :=
  {| entries := <[s := e]> (entries h); logs := logs h; live := live h |}.
(** [tx.subscribe()]. *)
Definition receive (e : StreamEntry) (h : StreamHub) : Receiver * StreamHub :=
  ({| r_chan := chan e; r_from := length (unwrap_or (logs h !! chan e) []) |},
   {| entries := entries h; logs := logs h; live := chan e :: live h |}).
Definition new_entry (o : Uuid) (n : Z) (s : Uuid) (h : StreamHub) : StreamEntry * StreamHub :=
  let e := {| owner := o; chan := length (logs h); ring := ring_new REPLAY_RING_CAP; last_seq := n |} in
  (e, {| entries := <[s := e]> (entries h); logs := logs h ++ [[]]; live := live h |}).
(** The entries with a live receiver. *)
Definition reaped (h : StreamHub) : StreamHub :=
  {| entries := filter (fun p => chan (snd p) ∈ live h) (entries h); logs := logs h; live := live h |}.
(** [None]: a receiver that is closed. *)
(* src/qcue-rs/app-server/src/wire/hub.rs 52-79 subscribe *)
Definition subscribe (tenant s : Uuid) (h : StreamHub) : option Receiver * StreamHub :=
  match entries h !! s with
  | Some e =>
      if N.eqb (owner e) tenant || N.eqb (owner e) nil_uuid then
        let e := {| owner := tenant; chan := chan e; ring := ring e; last_seq := last_seq e |} in
        let '(r, h) := receive e (set_entry s e h) in (Some r, h)
      else (None, h)
  | None =>
      let h := if Nat.leb MAX_STREAMS (size (entries h)) then reaped h else h in
      if Nat.leb MAX_STREAMS (size (entries h)) then (None, h)
      else let '(e, h) := new_entry tenant 0 s h in
           let '(r, h) := receive e h in (Some r, h)
  end.
(* src/qcue-rs/app-server/src/wire/hub.rs 84-94 next_seq *)
Definition next_seq (s : Uuid) (h : StreamHub) : Z * StreamHub :=
  let '(e, h) := match entries h !! s with Some e => (e, h) | None => new_entry nil_uuid 0 s h end in
  let n := Int.wrap_u64 (last_seq e + 1) in
  (n, set_entry s {| owner := owner e; chan := chan e; ring := ring e; last_seq := n |} h).
(* src/qcue-rs/app-server/src/wire/hub.rs 98-108 publish *)
Definition publish (env : RuntimeEventEnvelope) (h : StreamHub) : StreamHub :=
  let s := thread_id env in
  let '(e, h) := match entries h !! s with Some e => (e, h) | None => new_entry nil_uuid (seq env) s h end in
  let h := set_entry s {| owner := owner e; chan := chan e; ring := push env (ring e); last_seq := last_seq e |} h in
  {| entries := entries h; logs := alter (fun l => l ++ [env]) (chan e) (logs h); live := live h |}.
(* src/qcue-rs/app-server/src/wire/hub.rs 112-119 replay_since *)
Definition replay_since (tenant s : Uuid) (n : Z) (h : StreamHub) : option (list RuntimeEventEnvelope) :=
  e ← entries h !! s;
  if N.eqb (owner e) tenant || N.eqb (owner e) nil_uuid then since n (ring e) else None.
(* src/qcue-rs/app-server/src/wire/hub.rs 122-125 close *)
Definition close (s : Uuid) (h : StreamHub) : StreamHub :=
  {| entries := delete s (entries h); logs := logs h; live := live h |}.
(** A receiver is dropped with its connection. *)
Definition drop_receiver (c : nat) (h : StreamHub) : StreamHub :=
  {| entries := entries h; logs := logs h;
     live := match list_find (fun x => x = c) (live h) with
             | Some (i, _) => take i (live h) ++ drop (S i) (live h)
             | None => live h
             end |}.
End Hub.
Import Hub.

(** ** What a connection is sent *)
Module Sse.
Section Sse.
(** What a receiver hands on of the events sent after it was made: all of them unless it falls behind. *)
Context (deliver : list RuntimeEventEnvelope -> list RuntimeEventEnvelope).
Definition max_seq (l : list RuntimeEventEnvelope) : option Z :=
  match l with [] => None | e :: l => Some (foldl (fun m e => Z.max m (seq e)) (seq e) l) end.
Definition sent_to (r : option Receiver) (h : StreamHub) : list RuntimeEventEnvelope :=
  match r with Some r => drop (r_from r) (unwrap_or (logs h !! r_chan r) []) | None => [] end.
(* src/qcue-rs/app-server/src/wire/sse.rs 39-56 sse_with_backfill *)
Definition sse_with_backfill (backfill : list RuntimeEventEnvelope) (r : option Receiver) (h : StreamHub) : list RuntimeEventEnvelope :=
  backfill ++ List.filter (fun e => match max_seq backfill with Some m => m <? seq e | None => true end) (deliver (sent_to r h)).

(* src/qcue-rs/app-server/src/wire/routes.rs 130-139 resume_seq *)
Definition resume_seq (since_seq last_event_id : option string) : option Z :=
  match since_seq ≫= Social.parse_u64 with
  | Some n => Some n
  | None => (fun n => Int.sat_u64 (n + 1)) <$> (last_event_id ≫= Social.parse_u64)
  end.
(* src/qcue-rs/app-server/src/wire/routes.rs 158-165 recall_override_from *)
Definition recall_override_from (provider model effort : option string) : Seam.RecallOverride :=
  let clean (o : option string) := opt_filter (fun s => negb (String.eqb (Str.trim s) "")) o in
  {| Seam.o_provider := clean provider; Seam.o_model := clean model; Seam.o_effort := clean effort |}.
(** The connection: its receiver, its backfill and whether it starts a turn. *)
(* src/qcue-rs/app-server/src/wire/routes.rs 87-111 stream_or_resume *)
Definition stream_or_resume (tenant s : Uuid) (since_seq last_event_id : option string) (h : StreamHub) :
  option Receiver * list RuntimeEventEnvelope * bool * StreamHub :=
  let '(r, h) := subscribe tenant s h in
  match resume_seq since_seq last_event_id with
  | Some n => (r, unwrap_or (replay_since tenant s n h) [], false, h)
  | None => (r, [], true, h)
  end.
(* src/qcue-rs/app-server/src/wire/routes.rs 114-126 subscribe_with_resume *)
Definition subscribe_with_resume (tenant s : Uuid) (since_seq last_event_id : option string) (h : StreamHub) :
  option Receiver * list RuntimeEventEnvelope * StreamHub :=
  let '(r, h) := subscribe tenant s h in
  (r, match resume_seq since_seq last_event_id with
      | Some n => unwrap_or (replay_since tenant s n h) []
      | None => []
      end, h).
End Sse.
End Sse.
Import Sse.

(** ** Lemmas: the log and the ring of a stream *)

(** The last [n] elements. *)
Definition keep (n : nat) {A} (l : list A) : list A := drop (length l - n) l.
Lemma tail_drop {A} (k : nat) (l : list A) : tail (drop k l) = drop (S k) l.
Proof. revert k. induction l as [|x l IH]; intros k; [by destruct k|]. destruct k; [done|]. apply IH. Qed.
Lemma keep_push {A} (n : nat) (l : list A) (x : A) : (0 < n)%nat ->
  (if Nat.eqb (length (keep n l)) n then tail (keep n l) else keep n l) ++ [x] = keep n (l ++ [x]).
Proof.
  intros Hn. unfold keep. rewrite length_app, !length_drop. cbn [length]. destruct (Nat.eqb_spec (length l - (length l - n)) n) as [He|He].
  - replace (length l + 1 - n)%nat with (S (length l - n)) by lia. rewrite tail_drop, drop_app_le; [done|lia].
  - rewrite drop_app_le by lia. f_equal. f_equal. lia.
Qed.

(** What is published on a stream by one producer, [publish] of [app-server/src/recall.rs]. *)
(* src/qcue-rs/app-server/src/recall.rs 394-405 publish *)
Definition emit (s : Uuid) (event : string) (payload : Value) (h : StreamHub) : StreamHub :=
  let '(n, h) := next_seq s h in
  publish {| schema_version := 1; thread_id := s; turn_id := None; seq := n; event := event; payload := payload |} h.
Definition emits (s : Uuid) (evs : list (string * Value)) (h : StreamHub) : StreamHub :=
  foldl (fun h '(e, p) => emit s e p h) h evs.
(** The envelopes of events published after [k] others. *)
Fixpoint numbered (s : Uuid) (k : Z) (evs : list (string * Value)) : list RuntimeEventEnvelope :=
  match evs with
  | [] => []
  | (e, p) :: evs =>
      {| schema_version := 1; thread_id := s; turn_id := None; seq := k + 1; event := e; payload := p |} :: numbered s (k + 1) evs
  end.

(** The entry of a stream with what was published on it. *)
Definition holds (s o : Uuid) (c : nat) (l : list RuntimeEventEnvelope) (k : Z) (h : StreamHub) : Prop :=
  entries h !! s = Some {| owner := o; chan := c; ring := {| cap := REPLAY_RING_CAP; buf := keep REPLAY_RING_CAP l |}; last_seq := k |} /\
  logs h !! c = Some l.

Lemma emit_holds s o c l k e p h :
  holds s o c l k h -> 0 <= k < Int.u64_max ->
  holds s o c (l ++ numbered s k [(e, p)]) (k + 1) (emit s e p h).
Proof.
  intros [He Hl] Hk. unfold emit, next_seq. rewrite He. cbn [last_seq owner chan ring].
  assert (Int.wrap_u64 (k + 1) = k + 1) as -> by (unfold Int.wrap_u64, Int.u64_max in *; apply Z.mod_small; lia).
  unfold publish. cbn [thread_id set_entry entries]. rewrite lookup_insert_eq. cbn [owner chan ring last_seq seq].
  split; cbn [entries logs set_entry].
  - rewrite lookup_insert_eq. do 2 f_equal. unfold push. cbn [cap buf]. f_equal. rewrite keep_push by (cbv; lia). done.
  - rewrite list_lookup_alter_eq, Hl. done.
Qed.
Lemma numbered_app s k a b : numbered s k (a ++ b) = numbered s k a ++ numbered s (k + Z.of_nat (length a)) b.
Proof.
  revert k. induction a as [|[e p] a IH]; intros k; cbn [app numbered length]; [by rewrite Z.add_0_r|].
  rewrite IH. do 3 f_equal. lia.
Qed.
Lemma emits_holds s o c l k evs h :
  holds s o c l k h -> 0 <= k -> k + Z.of_nat (length evs) <= Int.u64_max ->
  holds s o c (l ++ numbered s k evs) (k + Z.of_nat (length evs)) (emits s evs h).
Proof.
  revert l k h. induction evs as [|[e p] evs IH]; intros l k h Hh H0 Hk.
  - cbn. by rewrite app_nil_r, Z.add_0_r.
  - cbn [length emits foldl numbered] in *. fold (emits s evs (emit s e p h)).
    pose proof (IH _ _ _ (emit_holds _ _ _ _ _ e p _ Hh ltac:(lia)) ltac:(lia) ltac:(lia)) as H.
    rewrite <- app_assoc in H. cbn [numbered app] in H. replace (k + Z.of_nat (S (length evs))) with (k + 1 + Z.of_nat (length evs)) by lia. done.
Qed.

Lemma length_numbered s k evs : length (numbered s k evs) = length evs.
Proof. revert k. induction evs as [|[e p] evs IH]; intros k; cbn; [done|by rewrite IH]. Qed.
Lemma drop_numbered s k j evs : drop j (numbered s k evs) = numbered s (k + Z.of_nat j) (drop j evs).
Proof.
  revert k evs. induction j as [|j IH]; intros k evs; [by rewrite Z.add_0_r|]. destruct evs as [|[e p] evs]; [done|].
  cbn [numbered drop]. rewrite IH. f_equal. lia.
Qed.
Lemma filter_numbered s k evs n :
  List.filter (fun e => n <=? seq e) (numbered s k evs) = drop (Z.to_nat (n - 1 - k)) (numbered s k evs).
Proof.
  revert k. induction evs as [|[e p] evs IH]; intros k; [by destruct (Z.to_nat _)|]. cbn [numbered List.filter seq].
  rewrite IH. destruct (Z.leb_spec n (k + 1)).
  - replace (Z.to_nat (n - 1 - (k + 1))) with 0%nat by lia. replace (Z.to_nat (n - 1 - k)) with 0%nat by lia. done.
  - replace (Z.to_nat (n - 1 - k)) with (S (Z.to_nat (n - 1 - (k + 1)))) by lia. done.
Qed.
Lemma filter_after s k evs n :
  List.filter (fun e => n <? seq e) (numbered s k evs) = drop (Z.to_nat (n - k)) (numbered s k evs).
Proof.
  replace (n - k) with (n + 1 - 1 - k) by lia. rewrite <- filter_numbered. apply List.filter_ext. intros e.
  destruct (Z.ltb_spec n (seq e)), (Z.leb_spec (n + 1) (seq e)); lia || done.
Qed.
Lemma max_numbered s k evs : evs <> [] -> max_seq (numbered s k evs) = Some (k + Z.of_nat (length evs)).
Proof.
  destruct evs as [|[e p] evs]; [done|]. intros _. cbn [numbered max_seq seq length]. f_equal.
  assert (forall j m, j <= m -> foldl (fun m e => Z.max m (seq e)) m (numbered s j evs) = Z.max m (j + Z.of_nat (length evs))) as H.
  { induction evs as [|[e' p'] evs IH]; intros j m Hm; cbn [numbered foldl length seq]; [lia|]. rewrite IH by lia. lia. }
  rewrite H; lia.
Qed.
(** The ring of the first events, asked for those from [n] on. *)
Lemma since_ring s evs n : 1 <= n ->
  since n {| cap := REPLAY_RING_CAP; buf := keep REPLAY_RING_CAP (numbered s 0 evs) |} =
  if Z.of_nat (length evs) - 20 <? n then Some (drop (Z.to_nat (n - 1)) (numbered s 0 evs)) else None.
Proof.
  intros Hn. unfold since, keep. cbn [buf]. rewrite length_numbered. change REPLAY_RING_CAP with 20%nat.
  set (d := (length evs - 20)%nat). rewrite !drop_numbered, filter_numbered, !drop_numbered, drop_drop.
  assert ((n <? match numbered s (0 + Z.of_nat d) (drop d evs) with e :: _ => seq e | [] => 0 end)
          = negb (Z.of_nat (length evs) - 20 <? n)) as ->.
  { pose proof (length_drop evs d) as Hd. destruct (drop d evs) as [|[e p] rest]; cbn [numbered seq length] in *;
      match goal with |- (?a <? ?b) = negb (?c <? ?e) => destruct (Z.ltb_spec a b), (Z.ltb_spec c e) end; cbn; lia || done. }
  destruct (Z.ltb_spec (Z.of_nat (length evs) - 20) n); cbn [negb]; [|done]. f_equal. f_equal; [|f_equal]; unfold d; lia.
Qed.


(** ** Who shares a channel *)

(** What happens to the registry: connections, which subscribe and are replayed what they ask for, and what
    the producers of any streams do, in any order. *)
Inductive HubOp : Type :=
| Connect (tenant s : Uuid) (from : option Z)
| NextSeq (s : Uuid)
| Publish (env : RuntimeEventEnvelope)
| Close (s : Uuid)
| Leave (c : nat).
Record Connection : Type := { c_tenant : Uuid; c_rx : option Receiver; c_backfill : list RuntimeEventEnvelope }.
Definition hub_step (x : list Connection * StreamHub) (o : HubOp) : list Connection * StreamHub :=
  let '(cs, h) := x in
  match o with
  | Connect t s from =>
      let '(r, h) := subscribe t s h in
      (cs ++ [{| c_tenant := t; c_rx := r; c_backfill := match from with Some n => unwrap_or (replay_since t s n h) [] | None => [] end |}], h)
  | NextSeq s => (cs, snd (next_seq s h))
  | Publish env => (cs, publish env h)
  | Close s => (cs, close s h)
  | Leave c => (cs, drop_receiver c h)
  end.
Definition by_a_tenant (o : HubOp) : Prop := match o with Connect t _ _ => t <> nil_uuid | _ => True end.

Definition log_of (h : StreamHub) (c : nat) : list RuntimeEventEnvelope := unwrap_or (logs h !! c) [].
Definition on_chan (x : Connection) (c : nat) : Prop := exists r, c_rx x = Some r /\ r_chan r = c.
Record separate (cs : list Connection) (h : StreamHub) : Prop := {
  sep_made : forall s e, entries h !! s = Some e -> (chan e < length (logs h))%nat;
  sep_apart : forall s s' e e', entries h !! s = Some e -> entries h !! s' = Some e' -> chan e = chan e' -> s = s';
  sep_ring : forall s e x, entries h !! s = Some e -> x ∈ buf (ring e) -> x ∈ log_of h (chan e);
  sep_conn : forall x c, x ∈ cs -> on_chan x c -> (c < length (logs h))%nat /\ c_tenant x <> nil_uuid;
  sep_owner : forall s e x, entries h !! s = Some e -> x ∈ cs -> on_chan x (chan e) -> c_tenant x = owner e;
  sep_one : forall x y c, x ∈ cs -> y ∈ cs -> on_chan x c -> on_chan y c -> c_tenant x = c_tenant y;
  sep_back : forall x env, x ∈ cs -> env ∈ c_backfill x -> exists c, on_chan x c /\ env ∈ log_of h c;
}.

(** An entry may be rewritten if it keeps its channel, what it adds to its ring is sent on it, and its
    owner stays that of its connections. *)
Lemma separate_update cs h s e e' logs' :
  separate cs h -> entries h !! s = Some e -> chan e' = chan e ->
  (owner e' = owner e \/ owner e = nil_uuid) -> length logs' = length (logs h) ->
  (forall c x, x ∈ log_of h c -> x ∈ unwrap_or (logs' !! c) []) ->
  (forall x, x ∈ buf (ring e') -> x ∈ unwrap_or (logs' !! chan e) []) ->
  separate cs {| entries := <[s := e']> (entries h); logs := logs'; live := live h |}.
Proof.
  intros Hs He Hc Ho Hlen Hgrow Hr.
  assert (forall s0 e0, <[s := e']> (entries h) !! s0 = Some e0 -> exists e1, entries h !! s0 = Some e1 /\ chan e0 = chan e1) as Hold.
  { intros s0 e0. rewrite lookup_insert_Some. intros [[<- <-]|[_ H0]]; eauto. }
  constructor; cbn [entries logs]; rewrite ?Hlen.
  - intros s0 e0 (e1 & H1 & ->)%Hold. by eapply sep_made.
  - intros s0 s1 e0 e1 (a & H0 & ->)%Hold (b & H1 & ->)%Hold. by eapply sep_apart.
  - intros s0 e0 x. rewrite lookup_insert_Some. intros [[<- <-]|[_ H0]] Hx; [rewrite Hc; by apply Hr|].
    apply Hgrow. by eapply sep_ring.
  - intros x c Hx. by eapply sep_conn.
  - intros s0 e0 x. rewrite lookup_insert_Some. intros [[<- <-]|[_ H0]] Hx Hon; [|by eapply sep_owner].
    rewrite Hc in Hon. pose proof (sep_owner _ _ Hs _ _ _ He Hx Hon) as Ht. destruct Ho as [->|Hnil]; [done|].
    destruct (sep_conn _ _ Hs _ _ Hx Hon) as [_ []]. congruence.
  - intros x y c. by eapply sep_one.
  - intros x env Hx Henv. destruct (sep_back _ _ Hs _ _ Hx Henv) as (c & ? & ?). exists c. split; [done|]. by apply Hgrow.
Qed.
Lemma separate_set cs h s e e' :
  separate cs h -> entries h !! s = Some e -> chan e' = chan e -> ring e' = ring e ->
  (owner e' = owner e \/ owner e = nil_uuid) -> separate cs (set_entry s e' h).
Proof.
  intros Hs He Hc Hr Ho. apply separate_update with e; [done..|]. rewrite Hr. intros x. exact (sep_ring _ _ Hs _ _ _ He).
Qed.
Lemma separate_publish cs h s e env :
  separate cs h -> entries h !! s = Some e -> thread_id env = s ->
  separate cs (publish env h).
Proof.
  intros Hs He Hid. unfold publish. rewrite Hid, He. cbn [set_entry entries logs live].
  assert (forall c x, x ∈ log_of h c -> x ∈ unwrap_or (alter (fun l => l ++ [env]) (chan e) (logs h) !! c) []) as Hgrow.
  { intros c x. unfold log_of. destruct (decide (c = chan e)) as [->|Hn].
    - rewrite list_lookup_alter_eq. destruct (logs h !! chan e); cbn; [|done]. intros Hx. apply elem_of_app. by left.
    - by rewrite list_lookup_alter_ne. }
  apply separate_update with e; [done..|by left|apply length_alter|done|]. intros x Hx. cbn [ring push buf] in Hx.
  apply elem_of_app in Hx as [Hx| ->%list_elem_of_singleton].
  - apply Hgrow, (sep_ring _ _ Hs _ _ _ He). destruct (Nat.eqb _ _); [|done]. destruct (buf (ring e)); [done|]. by right.
  - rewrite list_lookup_alter_eq. destruct (lookup_lt_is_Some_2 (logs h) (chan e)) as [l ->]; [by eapply sep_made|].
    cbn. apply elem_of_app. right. by apply list_elem_of_singleton.
Qed.

Lemma separate_new cs h o n s : separate cs h -> entries h !! s = None -> separate cs (snd (new_entry o n s h)).
Proof.
  intros Hs Hn. cbn. set (c := length (logs h)).
  assert (forall s0 e0, entries h !! s0 = Some e0 -> chan e0 <> c) as Hfresh by (intros s0 e0 H0 Hc; pose proof (sep_made _ _ Hs _ _ H0); lia).
  assert (forall k x, x ∈ log_of h k -> x ∈ unwrap_or ((logs h ++ [[]]) !! k) []) as Hgrow.
  { intros k x. unfold log_of. destruct (logs h !! k) as [l|] eqn:Hk; cbn; [|by intros ?%not_elem_of_nil]. by rewrite (lookup_app_l_Some _ _ _ _ Hk). }
  constructor; cbn [entries logs]; rewrite ?length_app; cbn [length].
  - intros s0 e0. rewrite lookup_insert_Some. intros [[<- <-]|[_ H0]]; cbn; [lia|]. pose proof (sep_made _ _ Hs _ _ H0). lia.
  - intros s0 s1 e0 e1. rewrite !lookup_insert_Some. intros [[<- <-]|[? H0]] [[<- <-]|[? H1]]; cbn; [done| | |by eapply sep_apart].
    + intros Hc. by destruct (Hfresh _ _ H1).
    + intros Hc. by destruct (Hfresh _ _ H0).
  - intros s0 e0 x. rewrite lookup_insert_Some. intros [[<- <-]|[_ H0]] Hx; [by apply not_elem_of_nil in Hx|].
    apply Hgrow. by eapply sep_ring.
  - intros x k Hx Hon. destruct (sep_conn _ _ Hs _ _ Hx Hon). split; [lia|done].
  - intros s0 e0 x. rewrite lookup_insert_Some. intros [[<- <-]|[_ H0]] Hx Hon; [|by eapply sep_owner].
    cbn in Hon. destruct (sep_conn _ _ Hs _ _ Hx Hon). lia.
  - intros x y k. by eapply sep_one.
  - intros x env Hx Henv. destruct (sep_back _ _ Hs _ _ Hx Henv) as (k & ? & ?). exists k. split; [done|]. by apply Hgrow.
Qed.

Lemma separate_less cs h m live' : separate cs h -> (forall s e, m !! s = Some e -> entries h !! s = Some e) ->
  separate cs {| entries := m; logs := logs h; live := live' |}.
Proof.
  intros Hs Hm. constructor; cbn [entries logs].
  - intros s e H. exact (sep_made _ _ Hs _ _ (Hm _ _ H)).
  - intros s s' e e' H H'. exact (sep_apart _ _ Hs _ _ _ _ (Hm _ _ H) (Hm _ _ H')).
  - intros s e x H. exact (sep_ring _ _ Hs _ _ _ (Hm _ _ H)).
  - exact (sep_conn _ _ Hs).
  - intros s e x H. exact (sep_owner _ _ Hs _ _ _ (Hm _ _ H)).
  - exact (sep_one _ _ Hs).
  - exact (sep_back _ _ Hs).
Qed.

(** A new connection of the owner of an entry. *)
Lemma separate_join cs h s e b live' :
  separate cs h -> entries h !! s = Some e -> owner e <> nil_uuid ->
  (forall x, x ∈ b -> x ∈ buf (ring e)) ->
  separate (cs ++ [{| c_tenant := owner e; c_rx := Some {| r_chan := chan e; r_from := length (log_of h (chan e)) |}; c_backfill := b |}])
    {| entries := entries h; logs := logs h; live := live' |}.
Proof.
  intros Hs He Ho Hb. set (y := {| c_tenant := owner e; c_rx := _; c_backfill := b |}).
  assert (forall c, on_chan y c -> c = chan e) as Hy by (intros c (r & Hr & <-); by injection Hr as <-).
  assert (forall x c, x ∈ cs -> on_chan x c -> on_chan y c -> c_tenant x = owner e) as Hxy
    by (intros x c Hx H1 ->%Hy; by eapply sep_owner).
  constructor; cbn [entries logs].
  - exact (sep_made _ _ Hs).
  - exact (sep_apart _ _ Hs).
  - exact (sep_ring _ _ Hs).
  - intros x c [Hx| ->%list_elem_of_singleton]%elem_of_app Hon; [by eapply sep_conn|].
    apply Hy in Hon as ->. split; [by eapply sep_made|done].
  - intros s0 e0 x H0 [Hx| ->%list_elem_of_singleton]%elem_of_app Hon; [by eapply sep_owner|].
    apply Hy in Hon. assert (s0 = s) as -> by (by eapply sep_apart). rewrite He in H0. by injection H0 as <-.
  - intros x z c [Hx| ->%list_elem_of_singleton]%elem_of_app [Hz| ->%list_elem_of_singleton]%elem_of_app H1 H2; [by eapply sep_one| | |done].
    + by eapply Hxy.
    + symmetry. by eapply Hxy.
  - intros x env [Hx| ->%list_elem_of_singleton]%elem_of_app Henv; [exact (sep_back _ _ Hs x env Hx Henv)|].
    exists (chan e). split; [by eexists|]. exact (sep_ring _ _ Hs _ _ _ He (Hb _ Henv)).
Qed.

(** A refused connection. *)
Lemma separate_refused cs h t : separate cs h -> separate (cs ++ [{| c_tenant := t; c_rx := None; c_backfill := [] |}]) h.
Proof.
  intros Hs. set (y := {| c_tenant := t; c_rx := None; c_backfill := [] |}).
  assert (forall c, ~ on_chan y c) as Hy by (by intros c (r & ? & _)).
  constructor.
  - exact (sep_made _ _ Hs).
  - exact (sep_apart _ _ Hs).
  - exact (sep_ring _ _ Hs).
  - intros x c [Hx| ->%list_elem_of_singleton]%elem_of_app Hon; [by eapply sep_conn|by destruct (Hy c)].
  - intros s0 e0 x H0 [Hx| ->%list_elem_of_singleton]%elem_of_app Hon; [by eapply sep_owner|by destruct (Hy (chan e0))].
  - intros x z c [Hx| ->%list_elem_of_singleton]%elem_of_app [Hz| ->%list_elem_of_singleton]%elem_of_app H1 H2;
      [by eapply sep_one|by destruct (Hy c)..].
  - intros x env [Hx| ->%list_elem_of_singleton]%elem_of_app Henv; [exact (sep_back _ _ Hs x env Hx Henv)|by apply not_elem_of_nil in Henv].
Qed.

Lemma since_incl n r l x : since n r = Some l -> x ∈ l -> x ∈ buf r.
Proof.
  unfold since. case_match; [done|]. intros [= <-] Hx. apply list_elem_of_In, filter_In in Hx as [Hx _]. by apply list_elem_of_In.
Qed.
Lemma replay_incl t s n h e x : entries h !! s = Some e -> x ∈ unwrap_or (replay_since t s n h) [] -> x ∈ buf (ring e).
Proof.
  intros He. unfold replay_since. rewrite He. cbn. destruct (_ || _); [|by intros ?%not_elem_of_nil].
  destruct (since n (ring e)) as [l|] eqn:Hl; cbn; [|by intros ?%not_elem_of_nil]. by apply (since_incl n (ring e) l x).
Qed.

Lemma separate_step cs h o : by_a_tenant o -> separate cs h -> separate (fst (hub_step (cs, h) o)) (snd (hub_step (cs, h) o)).
Proof.
  intros Ht Hs. destruct o as [t s from|s|env|s|c]; cbn [hub_step by_a_tenant] in *.
  - assert (forall h' e b, separate cs h' -> entries h' !! s = Some e -> owner e = t -> (forall x, x ∈ b -> x ∈ buf (ring e)) ->
      separate (cs ++ [{| c_tenant := t; c_rx := Some (fst (receive e h')); c_backfill := b |}]) (snd (receive e h'))) as Hjoin.
    { intros h' e b Hs' He <- Hb. exact (separate_join cs h' s e b (chan e :: live h') Hs' He Ht Hb). }
    assert (forall h' e, entries h' !! s = Some e -> forall x,
      x ∈ match from with Some n => unwrap_or (replay_since t s n h') [] | None => [] end -> x ∈ buf (ring e)) as Hb.
    { intros h' e He x. destruct from as [z|]; [by apply (replay_incl t s z)|by intros ?%not_elem_of_nil]. }
    unfold subscribe. destruct (entries h !! s) as [e|] eqn:He.
    + destruct (N.eqb (owner e) t || N.eqb (owner e) nil_uuid) eqn:Ho.
      * set (e' := {| owner := t; chan := chan e; ring := ring e; last_seq := last_seq e |}).
        assert (separate cs (set_entry s e' h)) as Hs'.
        { apply separate_set with e; [done..|]. apply orb_true_iff in Ho as [?%N.eqb_eq|?%N.eqb_eq]; [by left|by right]. }
        assert (entries (set_entry s e' h) !! s = Some e') as He' by apply lookup_insert_eq.
        exact (Hjoin _ e' _ Hs' He' eq_refl (Hb (snd (receive e' (set_entry s e' h))) e' He')).
      * assert (match from with Some n => unwrap_or (replay_since t s n h) [] | None => [] end = []) as ->;
          [|by apply separate_refused]. destruct from; [|done]. unfold replay_since. rewrite He. cbn. by rewrite Ho.
    + assert (forall h', separate cs h' -> entries h' !! s = None ->
        let '(r, h2) := (if Nat.leb MAX_STREAMS (size (entries h')) then (None, h')
          else let '(e, h2) := new_entry t 0 s h' in let '(r, h3) := receive e h2 in (Some r, h3)) in
        separate (cs ++ [{| c_tenant := t; c_rx := r; c_backfill := match from with Some n => unwrap_or (replay_since t s n h2) [] | None => [] end |}]) h2) as Hnew.
      { intros h' Hs' Hn. destruct (Nat.leb _ _).
        - assert (match from with Some n => unwrap_or (replay_since t s n h') [] | None => [] end = []) as ->;
            [|by apply separate_refused]. destruct from; [|done]. unfold replay_since. by rewrite Hn.
        - pose proof (separate_new cs h' t 0 s Hs' Hn) as H1. destruct (new_entry t 0 s h') as [e h2] eqn:Hnew. cbn [snd] in H1.
          assert (entries h2 !! s = Some e /\ owner e = t) as [He2 Ho2].
          { unfold new_entry in Hnew. injection Hnew as <- <-. split; [apply lookup_insert_eq|done]. }
          exact (Hjoin _ e _ H1 He2 Ho2 (Hb (snd (receive e h2)) e He2)). }
      cbv zeta. destruct (Nat.leb MAX_STREAMS (size (entries h))) eqn:Hfull.
      * specialize (Hnew (reaped h)). destruct (if Nat.leb MAX_STREAMS (size (entries (reaped h))) then _ else _) as [r h2].
        apply Hnew; [|cbn; by rewrite map_lookup_filter, He]. apply separate_less; [done|].
        intros s0 e0. cbn. rewrite map_lookup_filter_Some. by intros [? _].
      * specialize (Hnew h Hs He). rewrite Hfull in *. by destruct (let '(e, h2) := new_entry t 0 s h in _) as [r h2].
  - unfold next_seq. destruct (entries h !! s) as [e|] eqn:He; [by apply separate_set with e; [..|left]|].
    pose proof (separate_new cs h nil_uuid 0 s Hs He) as H1. destruct (new_entry nil_uuid 0 s h) as [e h2] eqn:Hnew. cbn [snd] in *.
    apply separate_set with e; [done| |done..|by left]. unfold new_entry in Hnew. injection Hnew as <- <-. apply lookup_insert_eq.
  - destruct (entries h !! thread_id env) as [e|] eqn:He; [by eapply separate_publish|].
    pose proof (separate_new cs h nil_uuid (seq env) (thread_id env) Hs He) as H1.
    assert (publish env h = publish env (snd (new_entry nil_uuid (seq env) (thread_id env) h))) as ->.
    { unfold publish. rewrite He. cbn. by rewrite lookup_insert_eq. }
    eapply separate_publish; [exact H1|apply lookup_insert_eq|done].
  - apply separate_less; [done|]. intros s0 e0. rewrite lookup_delete_Some. by intros [_ ?].
  - by apply separate_less.
Qed.


(** ** Concrete streams *)

Definition tick (n : nat) : string * Value := ("tick", Number_ (PosInt (Z.of_nat n))).
Definition everything (l : list RuntimeEventEnvelope) : list RuntimeEventEnvelope := l.


(** A client that was away for longer than the ring is told nothing of what it missed. *)
Example missed_tail_is_silent :
  let h1 := emits 9%N (tick <$> List.seq 1 25) (snd (subscribe 1%N 9%N hub_new)) in
  let '(r, back, _, h2) := stream_or_resume 1%N 9%N (Some "2") None h1 in
  replay_since 1%N 9%N 2 h2 = None /\
  seq <$> sse_with_backfill everything back r (emits 9%N [tick 26] h2) = [26].
Proof. vm_compute. split; reflexivity. Qed.

(** A stream is closed when its turn ends: who comes back then is sent nothing, and is not told. *)
Example resume_after_the_end :
  let h1 := close 9%N (emits 9%N (tick <$> List.seq 1 5) (snd (subscribe 1%N 9%N hub_new))) in
  let '(r, back, fresh, h2) := stream_or_resume 1%N 9%N None (Some "3") h1 in
  opt_is_some r = true /\ fresh = false /\ sse_with_backfill everything back r h2 = [].
Proof. vm_compute. repeat split. Qed.

(** The reading side asks who owns a stream, the producers do not: a tenant that connects to the thread of
    another is sent nothing, but its turn is started, and is published to the other's stream and closes it. *)
Example foreign_turn_is_injected :
  let '(r1, h1) := subscribe 1%N 9%N hub_new in
  let '(r2, _, fresh, h2) := stream_or_resume 2%N 9%N None None h1 in
  let h3 := close 9%N (emits 9%N [("message_delta", String_ "for the other tenant")] h2) in
  opt_is_some r2 = false /\ fresh = true /\
  payload <$> sse_with_backfill everything [] r1 h3 = [String_ "for the other tenant"] /\ entries h3 !! 9%N = None.
Proof. vm_compute. repeat split. Qed.

(** Two turns of one thread publish out of turn: what is numbered first and published last is taken for
    replayed, and a client that asked for it does not get it. *)
Example racing_producers_lose_an_event :
  let env n := {| schema_version := 1; thread_id := 9%N; turn_id := None; seq := n; event := "tick"; payload := Null |} in
  let h1 := emits 9%N [tick 1] (snd (subscribe 1%N 9%N hub_new)) in
  let '(a, h2) := next_seq 9%N h1 in
  let '(b, h3) := next_seq 9%N h2 in
  let '(r, back, _, h5) := stream_or_resume 1%N 9%N (Some "2") None (publish (env b) h3) in
  (a, b) = (2, 3) /\ seq <$> sse_with_backfill everything back r (publish (env a) h5) = [3].
Proof. vm_compute. split; reflexivity. Qed.

