(* ===== verification/Live.v ===== *)
(** * Live turns

    [Stream]: the driver of a recall in [app-server/src/recall.rs], from the question to the events of its
    stream, over the registry of Hub.v, the transcript of Chat.v and the turn of Drive.v. [Engine]: the turn
    of a socket in [wire/engine.rs]. [Session]: [wire/dispatch.rs] and the session of [wire/ws.rs]. What
    others do meanwhile is not interleaved with a turn; the events of its tools are published when it has
    ended, in the order they came. *)
From S2P Require Import Prelude RustStr Json Protocol Fence Classify Pool Providers Transports Turn HttpClient Dispatch WikiText Wiki Extract Cost Ideas Ingest Identity Auth Vault Settings Route Recall Chat Query Drive Hub.
From stdpp Require Import list pretty gmap.
Import Paths Toggles Routes Chain Seam Envelope Hub Sse Transcript Request Query.Engine.

#[local] Open Scope string_scope.
#[local] Open Scope list_scope.
#[local] Open Scope Z_scope.

(** ** The stream of a recall *)
Module Stream.
(* src/qcue-rs/app-server/src/recall.rs 84-87 RecallMode *)
Inductive RecallMode : Type := RecallAsk | WikiQuery.
(* src/qcue-rs/app-server/src/recall.rs 90-95 label *)
Definition label (m : RecallMode) : string := match m with RecallAsk => "recall" | WikiQuery => "wiki_query" end.
(* src/qcue-rs/app-server/src/recall.rs 39-39 TOOL_RESULT_PREVIEW_CHARS *)
Definition TOOL_RESULT_PREVIEW_CHARS : nat := 600.
(* src/qcue-rs/app-server/src/recall.rs 375-390 recall_error_event *)
Definition recall_error_event (err : string) : Z * string :=
  let lc := Str.to_ascii_lowercase err in
  if Str.contains "no credentials" lc || Str.contains "no eligible credential" lc || Str.contains "decrypt failed" lc
  then (NO_CREDENTIALS, "Recall needs an API key. Add a provider key (e.g. DeepSeek) in Settings to enable it.")
  else (OVERLOADED, "Recall couldn't complete: " +:+ err).
Definition number (z : Z) : Value := Number_ (if 0 <=? z then PosInt z else NegInt z).
Definition error_event (code : Z) (message : string) : string * Value :=
  ("error", obj [("code", number code); ("message", String_ message)]).
(* src/qcue-rs/app-server/src/recall.rs 334-369 emit_answer_taxonomy *)
Definition answer_events (answer : string) (u : CanonicalUsage) : list (string * Value) :=
  [("message_delta", obj [("delta", String_ answer)])]
  ++ ((fun c => ("citation", obj [("end_line", number (RecallSearch.end_line c)); ("rel_path", String_ (RecallSearch.rel_path c));
                                  ("start_line", number (RecallSearch.start_line c))])) <$> References.parse_references answer)
  ++ [("usage", obj [("cache_read", number (u_cache_read u)); ("cache_write", number (u_cache_write u)); ("input", number (u_input u));
                     ("output", number (u_output u)); ("reasoning", number (u_reasoning u))]);
      ("done", obj [("ok", Bool true)])].

Section Stream.
Context `{J : Json} `{U : Unicode} `{HA : Vault.Envelope.Aead} {F N : Type} `{O : Os F} `{Out : Outside N}.
Context (env : EnvVars) (uuid_text : Uuid -> string) (kms : Vault.Envelope.Kms) (text_le : string -> string -> bool).
Context (fts ilike : string -> string -> bool) (rank_ge similar_ge : string -> string -> string -> bool).
Context (url_parse : string -> option Ssrf.Url) (parse_http_date : string -> option Z).
Context (web : (string -> N -> result string string * N) * (string -> N -> result string string * N)).
Context (updated : Repo.PageRow -> Z).

(** Arguments that are no JSON are passed on as text. *)
Definition args_value (arguments : string) : Value :=
  match from_str arguments with Ok v => v | Err _ => String_ arguments end.
(* src/qcue-rs/app-server/src/recall.rs 66-79 StreamHubSink *)
Definition sink_event (e : Event) : option (string * Value) :=
  match e with
  | EvSinkCall _ name arguments => Some ("tool_call", obj [("args", args_value arguments); ("tool", String_ name)])
  | EvSinkResult _ name content =>
      Some ("tool_result", obj [("result", String_ (Chars.take TOOL_RESULT_PREVIEW_CHARS content)); ("tool", String_ name)])
  | _ => None
  end.

(** The server a turn runs in: its streams, transcripts and pages, the world of its turns and the permits
    left of [recall_concurrency]. The users and tenants of the transcript are those of the ledger. *)
Record Server : Type := {
  sv_hub : StreamHub;
  sv_chat : Chat;
  sv_pages : Repo.Db;
  sv_turn : @World F N;
  sv_permits : Z;
}.
Definition with_hub (h : StreamHub) (s : Server) : Server :=
  {| sv_hub := h; sv_chat := sv_chat s; sv_pages := sv_pages s; sv_turn := sv_turn s; sv_permits := sv_permits s |}.
Definition with_turn (w : @World F N) (s : Server) : Server :=
  {| sv_hub := sv_hub s; sv_chat := sv_chat s; sv_pages := sv_pages s; sv_turn := w; sv_permits := sv_permits s |}.
(** A statement on the transcript. *)
Definition on_chat (f : Chat -> Chat) (s : Server) : Server :=
  let c := sv_chat s in
  let c := f {| parents := w_ledger (sv_turn s); msgs := msgs c; Transcript.next_seq := Transcript.next_seq c; convos := convos c |} in
  {| sv_hub := sv_hub s; sv_chat := c; sv_pages := sv_pages s; sv_turn := set_ledger (parents c) (sv_turn s); sv_permits := sv_permits s |}.
Definition publish_all (thread : Uuid) (evs : list (string * Value)) (s : Server) : Server := with_hub (emits thread evs (sv_hub s)) s.
Definition finish (thread : Uuid) (s : Server) : Server := with_hub (close thread (sv_hub s)) s.

(* src/qcue-rs/app-server/src/recall.rs 197-202 resolve_identity *)
Definition resolve_identity (tenant : Uuid) (w : @World F N) : string * string :=
  if stub_llm_enabled env then ("stub", "stub") else effective_route text_le env tenant (w_kv w) (w_creds w).
(* src/qcue-rs/app-server/src/recall.rs 275-281 run_recall_stream *)
Definition identity (tenant : Uuid) (over : RecallOverride) (w : @World F N) : string * string :=
  match (if stub_llm_enabled env then None else override_route over) with
  | Some route => route
  | None => resolve_identity tenant w
  end.

(** The names and the time of the rows a turn writes. *)
Record RowIds : Type := { question_id : Uuid; answer_id : Uuid; now_us : Z }.

(** The turn under its permit. The flag tells of a panic, of the index or of the turn: then the task is
    gone, and its stream is left as it is. *)
(* src/qcue-rs/app-server/src/recall.rs 272-326 run_recall_stream *)
Definition permitted (llm : @RouterWikiLlm F N) (tenant user thread : Uuid) (question : string) (mode : RecallMode) (over : RecallOverride)
  (ids : RowIds) (s : Server) : bool * Server :=
  let '(provider, model) := identity tenant over (sv_turn s) in
  match IndexGen.regenerate_index (catalog_rows updated tenant (sv_pages s)) with
  | None => (true, s)
  | Some index =>
      let prefer_wiki := match mode with WikiQuery => true | RecallAsk => false end in
      let req := build_recall_request (Some index) (web_tools_enabled env) tenant thread question prefer_wiki
                   (Catalog.provider_display_name provider) model (sv_chat s) in
      let s := on_chat (insert_user (question_id ids) tenant user thread question) s in
      let s := on_chat (fun c => snd (upsert (now_us ids) tenant user thread question c)) s in
      match create_message_observed_with_override env uuid_text kms text_le fts ilike rank_ge similar_ge url_parse parse_http_date web
              llm tenant req over (sv_turn s) with
      | None => (true, s)
      | Some (r, evs, w) =>
          let s := publish_all thread (omap sink_event evs) (with_turn w s) in
          match r with
          | Ok (resp, u) =>
              let s := on_chat (fun c => snd (insert_assistant (answer_id ids) tenant user thread (Analyzer.resp_content resp) c)) s in
              (false, finish thread (publish_all thread (answer_events (Analyzer.resp_content resp) u) s))
          | Err e =>
              let '(code, message) := recall_error_event (Ingest.llm_text e) in
              (false, finish thread (publish_all thread [error_event code message] s))
          end
      end
  end.

(** The failure of the check itself is told from a refusal by its code alone. *)
(* src/qcue-rs/app-server/src/recall.rs 211-326 run_recall_stream *)
Definition run_recall_stream (llm : @RouterWikiLlm F N) (tenant user thread : Uuid) (question : string) (mode : RecallMode) (over : RecallOverride)
  (ids : RowIds) (s : Server) : bool * Server :=
  let s := publish_all thread [("session_started", obj [("mode", String_ (label mode))])] s in
  let '(today, w) := on_net db_today (sv_turn s) in
  let s := with_turn w s in
  match Ledger.check_ceiling today tenant user (w_ledger w) with
  | Ok (Err reason) => (false, finish thread (publish_all thread [error_event COST_CEILING reason] s))
  | Err _ => (false, finish thread (publish_all thread [error_event OVERLOADED "cost check failed; try again"] s))
  | Ok (Ok _) =>
      if sv_permits s <=? 0
      then (false, finish thread (publish_all thread [error_event OVERLOADED "server busy; please retry shortly"] s))
      else permitted llm tenant user thread question mode over ids s
  end.
End Stream.
End Stream.
Import Stream.

(** ** The turn of a socket *)
Module Engine.
(* src/qcue-rs/app-server/src/wire/engine.rs 299-299 WS_TOOL_RESULT_PREVIEW_CHARS *)
Definition WS_TOOL_RESULT_PREVIEW_CHARS : nat := 600.
Definition item (kind : string) (more : list (string * Value)) : Value := obj (("type", String_ kind) :: more).
Definition delta (text : string) : RuntimeEvent * Value := (ItemDelta, obj [("delta", String_ text)]).
(** The item an observation becomes, which closes itself. *)
(* src/qcue-rs/app-server/src/wire/engine.rs 327-345 WsTurnSink *)
Definition sink_item `{J : Json} (e : Event) : list (RuntimeEvent * Value) :=
  match e with
  | EvSinkCall _ name arguments =>
      [(ItemStarted, item "toolCall" [("args", args_value arguments); ("name", String_ name)]);
       (ItemCompleted, item "toolCall" [("name", String_ name)])]
  | EvSinkResult _ name content =>
      [(ItemStarted, item "toolResult" [("name", String_ name)]); delta (Chars.take WS_TOOL_RESULT_PREVIEW_CHARS content);
       (ItemCompleted, item "toolResult" [("name", String_ name)])]
  | EvSinkDelta _ content => [(ItemStarted, item "agentMessage" []); delta content; (ItemCompleted, item "agentMessage" [])]
  | _ => []
  end.
Definition error_item (d : RuntimeEvent * Value) : list (RuntimeEvent * Value) :=
  [(ItemStarted, item "error" []); d; (ItemCompleted, item "error" [])].
Definition completed (status : string) : RuntimeEvent * Value := (TurnCompleted, obj [("status", String_ status)]).

(** How a turn ends, and what its task sends then. *)
Inductive Ending : Type := Over (reason : string) | CheckFailed | Busy | Answered | FailedWith (e : string) | Interrupted_.
(* src/qcue-rs/app-server/src/wire/engine.rs 228-294 start *)
Definition ending_events (e : Ending) : list (RuntimeEvent * Value) :=
  match e with
  | Over reason => error_item (ItemDelta, obj [("code", number COST_CEILING); ("delta", String_ reason)]) ++ [completed "failed"]
  | CheckFailed => error_item (delta "cost check failed; try again") ++ [completed "failed"]
  | Busy => error_item (ItemDelta, obj [("code", number OVERLOADED); ("delta", String_ "server busy; please retry shortly")]) ++ [completed "failed"]
  | Answered => [completed "completed"]
  | FailedWith e => error_item (delta e) ++ [completed "failed"]
  | Interrupted_ => [completed "interrupted"]
  end.

(* src/qcue-rs/app-server/src/wire/engine.rs 349-365 env *)
Definition envelope (thread turn : Uuid) (k : Z) (e : RuntimeEvent * Value) : RuntimeEventEnvelope := {|
  schema_version := 1; thread_id := thread; turn_id := Some turn; seq := k; event := as_wire (fst e); payload := snd e |}.
Fixpoint stamped (thread turn : Uuid) (k : Z) (l : list (RuntimeEvent * Value)) : list RuntimeEventEnvelope :=
  match l with [] => [] | e :: l => envelope thread turn (k + 1) e :: stamped thread turn (k + 1) l end.
(** The sink does not wait: an event the channel has no room for is dropped, and its number with it. *)
(* src/qcue-rs/app-server/src/wire/engine.rs 313-325 emit *)
Definition try_send (room : Z -> bool) (l : list RuntimeEventEnvelope) : list RuntimeEventEnvelope := List.filter (fun e => room (seq e)) l.
(** What the receiver of a turn gets: its start, the items of its observations and its end, for which the task
    waits. *)
(* src/qcue-rs/app-server/src/wire/engine.rs 203-294 start *)
Definition turn_stream `{J : Json} (room : Z -> bool) (thread turn : Uuid) (steps : list Event) (ending : Ending) : list RuntimeEventEnvelope :=
  let items := steps ≫= sink_item in
  stamped thread turn 0 [(TurnStarted, Null)]
  ++ try_send room (stamped thread turn 1 items)
  ++ stamped thread turn (1 + Z.of_nat (length items)) (ending_events ending).

(** The scripted turn: a start, an item, a dot every five milliseconds until it is cancelled, after [ticks] of
    them. [alive]: how many events the receiver takes before it goes away. *)
(* src/qcue-rs/app-server/src/wire/engine.rs 52-94 start_turn_stub *)
Definition start_turn_stub (thread turn : Uuid) (ticks alive : nat) : list RuntimeEventEnvelope :=
  take alive (stamped thread turn 0 ([(TurnStarted, Null); (ItemStarted, obj [("type", String_ "agentMessage")])]
    ++ repeat (delta ".") ticks ++ [(ItemCompleted, Null); completed "interrupted"])).
(** The status of a turn and what is left in its channel; a channel that closes early counts as completed. *)
(* src/qcue-rs/app-server/src/wire/engine.rs 97-114 drain_to_completion *)
Fixpoint drain_to_completion (rx : list RuntimeEventEnvelope) : string * list RuntimeEventEnvelope :=
  match rx with
  | e :: rx =>
      if String.eqb (event e) (as_wire TurnCompleted) then (unwrap_or (Json.get_str "status" (payload e)) "completed", rx)
      else drain_to_completion rx
  | [] => ("completed", [])
  end.
(* src/qcue-rs/app-server/src/wire/engine.rs 123-132 pump *)
Definition pump (rx : list RuntimeEventEnvelope) (n : nat) : nat * list RuntimeEventEnvelope := (Nat.min n (length rx), drop n rx).

Section Engine.
Context `{J : Json} `{U : Unicode} `{HA : Vault.Envelope.Aead} {F N : Type} `{O : Os F} `{Out : Outside N}.
Context (env : EnvVars) (uuid_text : Uuid -> string) (kms : Vault.Envelope.Kms) (text_le : string -> string -> bool).
Context (fts ilike : string -> string -> bool) (rank_ge similar_ge : string -> string -> string -> bool).
Context (url_parse : string -> option HttpClient.Ssrf.Url) (parse_http_date : string -> option Z).
Context (web : (string -> N -> result string string * N) * (string -> N -> result string string * N)).
Context (updated : Repo.PageRow -> Z).
(** A turn that is not interrupted. [None]: the task panics, before its first event or during the turn. *)
(* src/qcue-rs/app-server/src/wire/engine.rs 173-295 start *)
Definition start (llm : @RouterWikiLlm F N) (tenant user thread : Uuid) (prefer_wiki : bool) (input : string) (ids : RowIds) (s : @Server F N) :
  option (list Event * Ending * @Server F N) :=
  let '(provider, model) := resolve_identity env text_le tenant (sv_turn s) in
  index ← IndexGen.regenerate_index (catalog_rows updated tenant (sv_pages s));
  let req := build_recall_request (Some index) (web_tools_enabled env) tenant thread input prefer_wiki
               (Catalog.provider_display_name provider) model (sv_chat s) in
  let s := on_chat (insert_user (question_id ids) tenant user thread input) s in
  let s := on_chat (fun c => snd (upsert (now_us ids) tenant user thread input c)) s in
  let '(today, w) := on_net db_today (sv_turn s) in
  let s := with_turn w s in
  match Ledger.check_ceiling today tenant user (w_ledger w) with
  | Ok (Err reason) => Some ([], Over reason, s)
  | Err _ => Some ([], CheckFailed, s)
  | Ok (Ok _) =>
      if sv_permits s <=? 0 then Some ([], Busy, s)
      else
        '(r, evs, w) ← create_message_observed_with_override env uuid_text kms text_le fts ilike rank_ge similar_ge url_parse parse_http_date web
                         llm tenant req no_override (sv_turn s);
        let s := with_turn w s in
        Some (match r with
              | Ok (resp, _) =>
                  (evs, Answered, on_chat (fun c => snd (insert_assistant (answer_id ids) tenant user thread (Analyzer.resp_content resp) c)) s)
              | Err e => (evs, FailedWith (Ingest.llm_text e), s)
              end)
  end.
End Engine.
End Engine.
Import Engine.

(** ** The session of a socket *)
Module Session.
(* src/qcue-rs/app-server-protocol/src/envelope.rs 94-99 Message *)
Inductive RpcMessage : Type :=
| Response (id result : Value)
| ErrorFrame (id : Value) (code : Z) (message : string)
| Request (id : Value) (method : string) (params : Value)
| Notification (method : string) (params : Value).
(* src/qcue-rs/app-server/src/wire/dispatch.rs 15-19 DispatchResult *)
Inductive DispatchResult : Type := DOk (v : Value) | DErr (code : Z) (message : string) | DNotify.
(* src/qcue-rs/app-server/src/wire/dispatch.rs 22-27 Dispatcher *)
Record Dispatcher : Type := { initialized : bool; suppressed : gset string; capacity : nat; inflight : nat }.
(* src/qcue-rs/app-server/src/wire/dispatch.rs 31-33 new *)
Definition dispatcher_new (n : nat) : Dispatcher := {| initialized := false; suppressed := ∅; capacity := n; inflight := 0 |}.
(* src/qcue-rs/app-server/src/wire/dispatch.rs 36-38 is_suppressed *)
Definition is_suppressed (method : string) (d : Dispatcher) : bool := bool_decide (method ∈ suppressed d).
(* src/qcue-rs/app-server/src/wire/dispatch.rs 89-91 complete_one *)
Definition complete_one (d : Dispatcher) : Dispatcher :=
  {| initialized := initialized d; suppressed := suppressed d; capacity := capacity d; inflight := pred (inflight d) |}.

Definition method_of (m : RpcMessage) : option string :=
  match m with Request _ m _ | Notification m _ => Some m | _ => None end.
Definition id_of (m : RpcMessage) : option Value := match m with Request i _ _ => Some i | _ => None end.
(** The methods an initialization opts out of. *)
Definition opted_out (m : RpcMessage) : list string :=
  match m with
  | Request _ _ params => omap Json.as_str (unwrap_or (Json.get "opt_out_notification_methods" params ≫= Json.as_array) [])
  | _ => []
  end.

Section Session.
(** What serde derives for the messages, tried in the order of their declaration. *)
Context (message_from_str : string -> result string RpcMessage) `{J : Json}.
(* src/qcue-rs/app-server/src/wire/dispatch.rs 41-86 handle *)
Definition handle (raw : string) (d : Dispatcher) : DispatchResult * Dispatcher :=
  match message_from_str raw with
  | Err e => (DErr (-32700) e, d)
  | Ok msg =>
      match method_of msg with
      | None => (DNotify, d)
      | Some method =>
          if String.eqb method "initialize" then
            if initialized d then (DErr ALREADY_INITIALIZED "Already initialized", d)
            else (DOk (obj [("ok", Bool true)]),
                  {| initialized := true; suppressed := suppressed d ∪ list_to_set (opted_out msg); capacity := capacity d; inflight := inflight d |})
          else if negb (initialized d) then (DErr NOT_INITIALIZED "Not initialized", d)
          else if Nat.leb (capacity d) (inflight d) then (DErr OVERLOADED "Server overloaded; retry later.", d)
          else (DOk (obj [("accepted", String_ method)]),
                {| initialized := true; suppressed := suppressed d; capacity := capacity d; inflight := S (inflight d) |})
      end
  end.

(* src/qcue-rs/app-server/src/wire/ws.rs 30-30 WS_INFLIGHT_CAP *)
Definition WS_INFLIGHT_CAP : nat := 8.
(* src/qcue-rs/app-server/src/wire/ws.rs 164-173 parse_input *)
Definition parse_input (frame : string) : string :=
  let v := match from_str frame with Ok v => v | Err _ => Null end in
  let input (k : string) : option string := params ← Json.get "params" v; x ← Json.get k params; Json.as_str x in
  unwrap_or (head (omap input ["input"; "text"; "message"; "prompt"; "q"])) "".
(* src/qcue-rs/app-server/src/wire/ws.rs 176-182 parse_id_method *)
Definition parse_id_method (frame : string) : option Value * option string :=
  match message_from_str frame with Ok m => (id_of m, method_of m) | Err _ => (None, None) end.

(** A frame the session writes. *)
Inductive Out : Type :=
| OResponse (id result : Value)
| OError (id : Value) (code : Z) (message : string)
| OEvent (turn : nat) (env : RuntimeEventEnvelope).
(** The turns are numbered as they start; [running]: those whose task has not ended, [ended]: those that have
    and whose slot is not freed yet; [died]: how many panicked; [cancelled]: the tokens that were cancelled. *)
Record State : Type := {
  disp : Dispatcher;
  current : option nat;
  started : list string;
  running : list nat;
  ended : nat;
  died : nat;
  cancelled : list nat;
  out : list Out;
  open : bool;
}.
Definition session_new : State := {|
  disp := dispatcher_new WS_INFLIGHT_CAP; current := None; started := []; running := []; ended := 0; died := 0; cancelled := []; out := []; open := true |}.
Definition set_disp (d : Dispatcher) (l : list Out) (s : State) : State := {|
  disp := d; current := current s; started := started s; running := running s; ended := ended s; died := died s; cancelled := cancelled s;
  out := out s ++ l; open := open s |}.
Definition cancel_current (s : State) : State := {|
  disp := disp s; current := None; started := started s; running := running s; ended := ended s; died := died s;
  cancelled := match current s with Some c => cancelled s ++ [c] | None => cancelled s end; out := out s; open := open s |}.
Definition spawn (input : string) (s : State) : State := {|
  disp := disp s; current := Some (length (started s)); started := started s ++ [input];
  running := running s ++ [length (started s)]; ended := ended s; died := died s; cancelled := cancelled s; out := out s; open := open s |}.

(** What a socket delivers; the frames its reader hands on, up to a close or a failure. *)
Inductive WsMessage : Type := WsText (t : string) | WsClose | WsOther.
(* src/qcue-rs/app-server/src/wire/ws.rs 59-71 handle_socket *)
Fixpoint frames_of (l : list (result string WsMessage)) : list string :=
  match l with
  | Ok (WsText t) :: l => t :: frames_of l
  | Ok WsOther :: l => frames_of l
  | Ok WsClose :: _ | Err _ :: _ | [] => []
  end.

(** One frame, read and answered. *)
(* src/qcue-rs/app-server/src/wire/ws.rs 103-151 run_session *)
Definition on_frame (frame : string) (s : State) : State :=
  let '(id, method) := parse_id_method frame in
  match handle frame (disp s) with
  | (DOk v, d) =>
      let s := set_disp d (match id with Some i => [OResponse i v] | None => [] end) s in
      match method with
      | Some m =>
          if String.eqb m "turn/start" || String.eqb m "turn/steer" then spawn (parse_input frame) s
          else if String.eqb m "turn/interrupt" then
            let s := cancel_current s in set_disp (complete_one (disp s)) [] s
          else if String.eqb m "initialize" then s
          else set_disp (complete_one (disp s)) [] s
      | None => set_disp (complete_one (disp s)) [] s
      end
  | (DErr code message, d) => set_disp d (match id with Some i => [OError i code message] | None => [] end) s
  | (DNotify, d) => set_disp d [] s
  end.
(** What can happen to a session: a frame comes, a turn sends an event, ends or panics, its end is received, the
    client hangs up. *)
Inductive Input : Type := Frame (frame : string) | Sends (turn : nat) (env : RuntimeEventEnvelope) | Ends (turn : nat) | Dies (turn : nat) | Done | HangUp.
(* src/qcue-rs/app-server/src/wire/ws.rs 89-159 run_session *)
Definition session_step (s : State) (i : Input) : State :=
  if open s then
    match i with
    | Frame f => on_frame f s
    | Sends t e => if bool_decide (t ∈ running s) then set_disp (disp s) [OEvent t e] s else s
    | Ends t =>
        if bool_decide (t ∈ running s) then
          {| disp := disp s; current := current s; started := started s; running := List.filter (fun x => negb (Nat.eqb x t)) (running s);
             ended := S (ended s); died := died s; cancelled := cancelled s; out := out s; open := true |}
        else s
    | Dies t =>
        if bool_decide (t ∈ running s) then
          {| disp := disp s; current := current s; started := started s; running := List.filter (fun x => negb (Nat.eqb x t)) (running s);
             ended := ended s; died := S (died s); cancelled := cancelled s; out := out s; open := true |}
        else s
    | Done =>
        match ended s with
        | O => s
        | S n => {| disp := complete_one (disp s); current := current s; started := started s; running := running s; ended := n; died := died s;
                    cancelled := cancelled s; out := out s; open := true |}
        end
    | HangUp =>
        let s := cancel_current s in
        {| disp := disp s; current := None; started := started s; running := running s; ended := ended s; died := died s; cancelled := cancelled s;
           out := out s; open := false |}
    end
  else s.
End Session.
End Session.
Import Session.

(** ** What a stream shows of a turn *)

(** The events that end a stream. *)
Definition terminal (e : string * Value) : bool := String.eqb (fst e) "done" || String.eqb (fst e) "error".
Definition ends_once (evs : list (string * Value)) : Prop :=
  exists l e, evs = l ++ [e] /\ terminal e = true /\ Forall (fun x => terminal x = false) l.

Lemma answer_ends answer u : ends_once (answer_events answer u).
Proof.
  unfold answer_events. set (cites := _ <$> References.parse_references answer). set (m := ("message_delta", _)).
  exists ([m] ++ cites ++ [("usage", obj [("cache_read", number (u_cache_read u)); ("cache_write", number (u_cache_write u)); ("input", number (u_input u));
    ("output", number (u_output u)); ("reasoning", number (u_reasoning u))])]), ("done", obj [("ok", Bool true)]).
  split; [by rewrite <- !app_assoc|]. split; [done|]. repeat apply Forall_app_2'; [by constructor| |by constructor].
  apply Forall_fmap, Forall_true. done.
Qed.
Lemma ends_once_after l evs : Forall (fun x => terminal x = false) l -> ends_once evs -> ends_once (l ++ evs).
Proof. intros Hl (k & e & -> & He & Hk). exists (l ++ k), e. rewrite app_assoc. split_and!; [done..|]. by apply Forall_app_2'. Qed.
Lemma error_ends code message : ends_once [error_event code message].
Proof. exists [], (error_event code message). split_and!; [done..|constructor]. Qed.
Lemma sink_quiet `{J : Json} evs : Forall (fun x => terminal x = false) (omap sink_event evs).
Proof.
  apply Forall_forall. intros x (e & _ & He)%list_elem_of_omap. destruct e; cbn in He; (discriminate He || by injection He as <-).
Qed.
Lemma emits_app s a b h : emits s (a ++ b) h = emits s b (emits s a h).
Proof. unfold emits. apply foldl_app. Qed.

Section StreamProps.
Context {J : Json} {U : Unicode} {HA : Vault.Envelope.Aead} {F N : Type} {O : Os F} {Out : Outside N}.
Context (env : EnvVars) (uuid_text : Uuid -> string) (kms : Vault.Envelope.Kms) (text_le : string -> string -> bool).
Context (fts ilike : string -> string -> bool) (rank_ge similar_ge : string -> string -> string -> bool).
Context (url_parse : string -> option HttpClient.Ssrf.Url) (parse_http_date : string -> option Z).
Context (web : (string -> N -> result string string * N) * (string -> N -> result string string * N)).
Context (updated : Repo.PageRow -> Z).
#[local] Abbreviation run := (run_recall_stream env uuid_text kms text_le fts ilike rank_ge similar_ge url_parse parse_http_date web updated).
#[local] Abbreviation permitted := (permitted env uuid_text kms text_le fts ilike rank_ge similar_ge url_parse parse_http_date web updated).

(** What a step of the driver publishes, and whether it closes the stream. *)
Definition published (thread : Uuid) (h : StreamHub) (evs : list (string * Value)) (x : bool * @Server F N) : Prop :=
  sv_hub (snd x) = (if fst x then emits thread evs h else close thread (emits thread evs h)).

Lemma permitted_publishes llm tenant user thread question mode over ids s :
  exists evs, published thread (sv_hub s) evs (permitted llm tenant user thread question mode over ids s) /\
    if fst (permitted llm tenant user thread question mode over ids s) then Forall (fun x => terminal x = false) evs else ends_once evs.
Proof.
  unfold Stream.permitted. destruct (identity _ _ _ _ _) as [provider model].
  destruct (IndexGen.regenerate_index _) as [index|]; [|exists []; split; [done|constructor]].
  destruct (create_message_observed_with_override _ _ _ _ _ _ _ _ _ _ _ _ _ _ _ _) as [[[r evs] w]|]; [|exists []; split; [done|constructor]].
  destruct r as [[resp u]|e].
  - exists (omap sink_event evs ++ answer_events (Analyzer.resp_content resp) u). split; [unfold published; by rewrite emits_app|].
    apply ends_once_after; [apply sink_quiet|apply answer_ends].
  - destruct (recall_error_event _) as [code message]. exists (omap sink_event evs ++ [error_event code message]).
    split; [unfold published; by rewrite emits_app|]. apply ends_once_after; [apply sink_quiet|apply error_ends].
Qed.

(** C13: the stream of a recall starts with the session and ends with exactly one event of done or error,
    whatever the ceiling, the permits, the model and its tools do, and is then closed; only a panic of the
    task leaves it open and without an end. Who listened when the turn began was sent all of it, in order and
    numbered on. A turn over the ceiling, or without a permit, reaches no provider and spends nothing. *)
Theorem recall_stream_once (llm : @RouterWikiLlm F N) (tenant user thread : Uuid) (question : string) (mode : RecallMode)
  (over : RecallOverride) (ids : RowIds) (s : @Server F N) :
  let '(panicked, s') := run llm tenant user thread question mode over ids s in
  exists evs, head evs = Some ("session_started", obj [("mode", String_ (label mode))]) /\
    (if panicked then Forall (fun x => terminal x = false) evs else ends_once evs /\ entries (sv_hub s') !! thread = None) /\
    (forall o c l k, holds thread o c l k (sv_hub s) -> 0 <= k -> k + Z.of_nat (length evs) <= Int.u64_max ->
       log_of (sv_hub s') c = l ++ numbered thread k evs) /\
    (Ledger.check_ceiling (fst (on_net db_today (sv_turn s))) tenant user (w_ledger (sv_turn s)) <> Ok (Ok tt) \/ sv_permits s <= 0 ->
       w_calls (sv_turn s') = w_calls (sv_turn s) /\ w_ledger (sv_turn s') = w_ledger (sv_turn s) /\ msgs (sv_chat s') = msgs (sv_chat s)).
Proof.
  set (start := ("session_started", obj [("mode", String_ (label mode))])).
  assert (forall x evs, published thread (sv_hub s) (start :: evs) x ->
    (if fst x then Forall (fun x => terminal x = false) evs else ends_once evs) ->
    (if fst x then Forall (fun x => terminal x = false) (start :: evs) else ends_once (start :: evs) /\ entries (sv_hub (snd x)) !! thread = None) /\
    (forall o c l k, holds thread o c l k (sv_hub s) -> 0 <= k -> k + Z.of_nat (length (start :: evs)) <= Int.u64_max ->
       log_of (sv_hub (snd x)) c = l ++ numbered thread k (start :: evs))) as Hx.
  { intros [p s'] evs Hp He. unfold published in Hp. cbn [fst snd] in *. rewrite Hp. split.
    - destruct p; [by constructor|]. split; [apply (ends_once_after [start]); [by constructor|done]|]. apply lookup_delete_eq.
    - intros o c l k Hh H0 Hk. destruct (emits_holds _ _ _ _ _ (start :: evs) _ Hh H0 Hk) as [_ Hl]. unfold log_of. destruct p; cbn [close logs]; by rewrite Hl. }
  unfold Stream.run_recall_stream, on_net. cbn [publish_all with_hub sv_turn]. destruct (db_today (w_net (sv_turn s))) as [today n]. cbn [fst].
  change (w_ledger (set_net n (sv_turn s))) with (w_ledger (sv_turn s)). fold start.
  assert (forall e, ends_once [e] -> let s' := finish thread (publish_all thread [e] (with_turn (set_net n (sv_turn s)) (publish_all thread [start] s))) in
    exists evs, head evs = Some start /\ (ends_once evs /\ entries (sv_hub s') !! thread = None) /\
    (forall o c l k, holds thread o c l k (sv_hub s) -> 0 <= k -> k + Z.of_nat (length evs) <= Int.u64_max ->
       log_of (sv_hub s') c = l ++ numbered thread k evs)) as Herr.
  { intros e He s'. exists [start; e]. split; [done|]. apply (Hx (false, s') [e]); [|done].
    unfold published. cbn [fst snd s' finish publish_all with_hub with_turn sv_hub]. by rewrite <- emits_app. }
  destruct (Ledger.check_ceiling today tenant user _) as [[[]|reason]|e] eqn:Hc.
  - destruct (Z.leb_spec (sv_permits (with_turn (set_net n (sv_turn s)) (publish_all thread [start] s))) 0) as [Hp|Hp].
    + destruct (Herr _ (error_ends OVERLOADED "server busy; please retry shortly")) as (evs & H1 & H2 & H3).
      exists evs. do 3 (split; [done|]). intros _. by split_and!.
    + set (s1 := with_turn _ _) in *. destruct (permitted_publishes llm tenant user thread question mode over ids s1) as (evs & Hpub & He).
      destruct (permitted llm tenant user thread question mode over ids s1) as [p s'].
      destruct (Hx (p, s') evs) as [H1 H2]; [|done|].
      { unfold published in *. cbn [fst snd] in *. rewrite Hpub. subst s1. cbn [with_turn publish_all with_hub sv_hub].
        rewrite <- emits_app. done. }
      exists (start :: evs). do 3 (split; [done|]). intros [[]|Hno]; [done|]. cbn in Hp. lia.
  - destruct (Herr _ (error_ends COST_CEILING reason)) as (evs & H1 & H2 & H3).
      exists evs. do 3 (split; [done|]). intros _. by split_and!.
  - destruct (Herr _ (error_ends OVERLOADED "cost check failed; try again")) as (evs & H1 & H2 & H3).
      exists evs. do 3 (split; [done|]). intros _. by split_and!.
Qed.
End StreamProps.

(** ** What a socket shows of a turn *)

(** Thread, turn, item: where in a turn a stream is, and what it may say next. *)
Inductive Phase : Type := Before | Between | Inside | After.
Definition advance (p : Phase) (w : string) : option Phase :=
  match p with
  | Before => if String.eqb w (as_wire TurnStarted) then Some Between else None
  | Between => if String.eqb w (as_wire ItemStarted) then Some Inside
               else if String.eqb w (as_wire TurnCompleted) then Some After else None
  | Inside => if String.eqb w (as_wire ItemDelta) then Some Inside
              else if String.eqb w (as_wire ItemCompleted) then Some Between else None
  | After => None
  end.
Definition walk (p : Phase) (l : list string) : option Phase := foldl (fun o w => o ≫= fun p => advance p w) (Some p) l.
Definition says (l : list (RuntimeEvent * Value)) : list string := (fun e => as_wire (fst e)) <$> l.

Lemma walk_app p q a b : walk p a = Some q -> walk p (a ++ b) = walk q b.
Proof. unfold walk. rewrite foldl_app. by intros ->. Qed.
Lemma walk_items `{J : Json} steps : walk Between (says (steps ≫= sink_item)) = Some Between.
Proof.
  induction steps as [|e steps IH]; [done|]. cbn [mbind list_bind]. unfold says in *. rewrite fmap_app.
  by rewrite (walk_app Between Between) by (by destruct e).
Qed.
Lemma walk_ending e : walk Between (says (ending_events e)) = Some After.
Proof. by destruct e. Qed.

Lemma stamped_app t u k a b : stamped t u k (a ++ b) = stamped t u k a ++ stamped t u (k + Z.of_nat (length a)) b.
Proof.
  revert k. induction a as [|e a IH]; intros k; cbn [app stamped length]; [by rewrite Z.add_0_r|]. rewrite IH. do 3 f_equal. lia.
Qed.
Lemma stamped_says t u k l : event <$> stamped t u k l = says l.
Proof. revert k. induction l as [|e l IH]; intros k; [done|]. cbn. by rewrite IH. Qed.
Lemma stamped_seq t u k l : seq <$> stamped t u k l = (fun i => k + Z.of_nat i) <$> List.seq 1 (length l).
Proof.
  revert k. induction l as [|e l IH]; intros k; [done|]. cbn [stamped fmap list_fmap length List.seq]. f_equal.
  rewrite IH, <- (List.seq_shift (length l) 1). rewrite <- list_fmap_compose. apply list_fmap_ext. intros i x _. cbn. lia.
Qed.
Lemma stamped_range t u k l e : e ∈ stamped t u k l -> k < seq e <= k + Z.of_nat (length l).
Proof.
  revert k. induction l as [|x l IH]; intros k He; [by apply not_elem_of_nil in He|]. cbn [stamped length] in *.
  apply elem_of_cons in He as [->|He]; [cbn; lia|]. specialize (IH _ He). lia.
Qed.
Lemma below_all (f : Z -> Prop) (l : list RuntimeEventEnvelope) : (forall e, e ∈ l -> f (seq e)) -> Forall f (seq <$> l).
Proof. intros H. apply Forall_forall. intros z (e & -> & He)%list_elem_of_fmap. by apply H. Qed.
Lemma stamped_sorted t u k l : StronglySorted Z.lt (seq <$> stamped t u k l).
Proof.
  revert k. induction l as [|e l IH]; intros k; [constructor|]. cbn [stamped]. apply (SSorted_cons _ (IH (k + 1))).
  apply below_all. intros x Hx%stamped_range. cbn. lia.
Qed.
Lemma sent_incl room l e : e ∈ try_send room l -> e ∈ l.
Proof. intros He. apply list_elem_of_In, filter_In in He as [He _]. by apply list_elem_of_In. Qed.
Lemma sorted_sent room l : StronglySorted Z.lt (seq <$> l) -> StronglySorted Z.lt (seq <$> try_send room l).
Proof.
  unfold try_send. induction l as [|e l IH]; [done|]. intros Hs. inv Hs. cbn [List.filter]. destruct (room (seq e)); [|by apply IH].
  apply (SSorted_cons _ (IH ltac:(done))). apply below_all. intros x Hx%sent_incl.
  rename select (Forall _ _) into Hl. rewrite Forall_forall in Hl. apply Hl. by apply list_elem_of_fmap_2.
Qed.
Lemma sorted_app (a b : list Z) m : StronglySorted Z.lt a -> StronglySorted Z.lt b -> Forall (fun x => x <= m) a -> Forall (fun x => m < x) b ->
  StronglySorted Z.lt (a ++ b).
Proof.
  intros Ha Hb Hm Hn. induction Ha as [|x a Ha IH Hx]; [done|]. inv Hm. cbn. constructor; [by apply IH|].
  apply Forall_app_2'; [done|]. eapply Forall_impl; [exact Hn|]. cbn. lia.
Qed.
Lemma ending_closes e : exists l s, ending_events e = l ++ [completed s] /\ Forall (fun x => as_wire (fst x) <> "turnCompleted") l.
Proof.
  destruct e; [exists (error_item (ItemDelta, obj [("code", number COST_CEILING); ("delta", String_ reason)])), "failed"
    |exists (error_item (delta "cost check failed; try again")), "failed"
    |exists (error_item (ItemDelta, obj [("code", number OVERLOADED); ("delta", String_ "server busy; please retry shortly")])), "failed"
    |exists [], "completed"|exists (error_item (delta e)), "failed"|exists [], "interrupted"];
    (split; [reflexivity|repeat constructor; discriminate]).
Qed.
Lemma items_open `{J : Json} steps : Forall (fun x => as_wire (fst x) <> "turnCompleted") (steps ≫= sink_item).
Proof.
  apply Forall_forall. intros x (e & He & _)%list_elem_of_bind. destruct e; cbn in He; rewrite ?elem_of_cons in He;
    repeat (destruct He as [->|He]; [discriminate|]); by apply not_elem_of_nil in He.
Qed.

Lemma stamped_open thread turn k l :
  Forall (fun x => as_wire (fst x) <> "turnCompleted") l -> Forall (fun e => event e <> "turnCompleted") (stamped thread turn k l).
Proof. revert k. induction l as [|e l IH]; intros k Hf; [constructor|]. inv Hf. constructor; [done|by apply IH]. Qed.
Lemma stamped_length thread turn k l : length (stamped thread turn k l) = length l.
Proof. revert k. induction l as [|e l IH]; intros k; cbn; [done|by rewrite IH]. Qed.

(** Whatever a turn of a socket does and however slow its client is, the stream of the turn begins with its
    start and ends with its completion, which occurs once, and its numbers increase. While the channel has
    room nothing is left out: every item is opened, filled and closed before the next, and the numbers are
    consecutive. *)
Theorem socket_turn_bracketed `{J : Json} (room : Z -> bool) (thread turn : Uuid) (steps : list Event) (ending : Ending) :
  let l := turn_stream room thread turn steps ending in
  (exists mid k s, l = envelope thread turn 1 (TurnStarted, Null) :: mid ++ [envelope thread turn k (completed s)] /\
     Forall (fun e => event e <> "turnCompleted") mid) /\
  StronglySorted Z.lt (seq <$> l) /\
  ((forall k, room k = true) -> walk Before (event <$> l) = Some After /\ seq <$> l = Z.of_nat <$> List.seq 1 (length l)).
Proof.
  cbv zeta. unfold turn_stream. set (items := steps ≫= sink_item). set (m := 1 + Z.of_nat (length items)). split_and!.
  - destruct (ending_closes ending) as (l & s & -> & Hl). rewrite stamped_app. cbn [stamped app].
    exists (try_send room (stamped thread turn 1 items) ++ stamped thread turn m l), (m + Z.of_nat (length l) + 1), s.
    split; [by rewrite <- app_assoc|].
    apply Forall_app_2'; [|by apply stamped_open]. apply Forall_forall. intros e He%sent_incl. revert e He.
    apply Forall_forall, stamped_open, items_open.
  - rewrite !fmap_app. apply (sorted_app _ _ 1); [repeat constructor| |by repeat constructor|].
    + apply (sorted_app _ _ m); [apply sorted_sent, stamped_sorted|apply stamped_sorted| |];
        apply below_all; [intros e He%sent_incl%stamped_range|intros e He%stamped_range]; lia.
    + apply Forall_app_2'; apply below_all; [intros e He%sent_incl%stamped_range|intros e He%stamped_range]; lia.
  - intros Hroom.
    assert (try_send room (stamped thread turn 1 items) = stamped thread turn 1 items) as ->.
    { unfold try_send. rewrite (List.filter_ext _ (fun _ => true)) by (intros; apply Hroom). apply List.filter_true. }
    assert (stamped thread turn 0 [(TurnStarted, Null)] ++ stamped thread turn 1 items ++ stamped thread turn m (ending_events ending)
            = stamped thread turn 0 ((TurnStarted, Null) :: items ++ ending_events ending)) as ->
      by (cbn [stamped app]; by rewrite (stamped_app _ _ 1)).
    rewrite stamped_says, stamped_seq. split.
    + change (walk Between (says (items ++ ending_events ending)) = Some After).
      unfold says. rewrite fmap_app, (walk_app Between Between) by apply walk_items. apply walk_ending.
    + rewrite stamped_length. apply list_fmap_ext. intros. lia.
Qed.

(** Whoever drains a turn gets the status it ended with, and nothing is left in the channel. A scripted turn that is
    cancelled has been interrupted, unless its receiver goes away before it is told: then it counts as completed. *)
Lemma drain_skips mid l : Forall (fun e => event e <> "turnCompleted") mid -> drain_to_completion (mid ++ l) = drain_to_completion l.
Proof. induction 1 as [|e mid He _ IH]; [done|]. cbn [app drain_to_completion as_wire]. by rewrite (proj2 (String.eqb_neq _ _) He). Qed.
Theorem turn_drains `{J : Json} (room : Z -> bool) (thread turn : Uuid) (steps : list Event) (ending : Ending) :
  let l := turn_stream room thread turn steps ending in
  exists s k, drain_to_completion l = (s, []) /\ last l = Some (envelope thread turn k (completed s)).
Proof.
  cbv zeta. destruct (socket_turn_bracketed room thread turn steps ending) as ((mid & k & s & -> & Hm) & _).
  exists s, k. rewrite app_comm_cons, last_snoc. split; [|done].
  rewrite drain_skips; [|by constructor]. done.
Qed.
Theorem stub_turn_drains (thread turn : Uuid) (ticks alive : nat) :
  fst (drain_to_completion (start_turn_stub thread turn ticks alive)) = if Nat.ltb alive (ticks + 4) then "completed" else "interrupted".
Proof.
  unfold start_turn_stub. set (open := [(TurnStarted, Null); (ItemStarted, obj [("type", String_ "agentMessage")])] ++ repeat (delta ".") ticks ++ [(ItemCompleted, Null)]).
  assert (Forall (fun e => event e <> "turnCompleted") (stamped thread turn 0 open)) as Ho.
  { apply stamped_open. repeat constructor; try discriminate. apply Forall_app_2'; [by induction ticks; constructor|by repeat constructor]. }
  assert (length (stamped thread turn 0 open) = ticks + 3)%nat as Hlen.
  { rewrite stamped_length. cbn. rewrite length_app, repeat_length. cbn. lia. }
  replace (_ ++ repeat (delta ".") ticks ++ [(ItemCompleted, Null); completed "interrupted"]) with (open ++ [completed "interrupted"])
    by (unfold open; by rewrite <- !app_assoc).
  rewrite stamped_app, take_app, Hlen. destruct (Nat.ltb_spec alive (ticks + 4)).
  - replace (alive - (ticks + 3))%nat with 0%nat by lia. rewrite drain_skips; [done|]. by apply Forall_take.
  - replace (alive - (ticks + 3))%nat with (S (alive - (ticks + 4))) by lia. rewrite drain_skips by by apply Forall_take. done.
Qed.

(** ** What a session answers *)
Section SessionProps.
Context (message_from_str : string -> result string RpcMessage) `{J : Json}.
#[local] Abbreviation step := (session_step message_from_str).
#[local] Abbreviation id_in := (fun f => fst (parse_id_method message_from_str f)).

(** The frames a session reads: those before the client hangs up. *)
Fixpoint heard (l : list Input) : list string :=
  match l with
  | [] | HangUp :: _ => []
  | Frame f :: l => f :: heard l
  | _ :: l => heard l
  end.
(** The requests a session has answered. *)
Definition answered (l : list Out) : list Value :=
  omap (fun o => match o with OResponse i _ | OError i _ _ => Some i | OEvent _ _ => None end) l.

(** A slot is held by a turn that runs, by one whose end is still to be received, and by one that panicked;
    before the initialization no turn was started. *)
Record slots_held (s : State) : Prop := {
  held : inflight (disp s) = (length (running s) + ended s + died s)%nat;
  within : (inflight (disp s) <= capacity (disp s))%nat;
  cap : capacity (disp s) = WS_INFLIGHT_CAP;
  apart : NoDup (running s);
  known : Forall (fun t => (t < length (started s))%nat) (running s);
  silent : initialized (disp s) = false -> started s = [];
}.

Lemma length_without t (l : list nat) : NoDup l -> t ∈ l -> length l = S (length (List.filter (fun x => negb (Nat.eqb x t)) l)).
Proof.
  induction 1 as [|x l Hx Hl IH]; [by intros ?%not_elem_of_nil|]. cbn [List.filter length]. intros [->|Ht]%elem_of_cons.
  - rewrite Nat.eqb_refl. cbn. do 2 f_equal. clear IH Hl. induction l as [|y l IH]; [done|]. cbn [List.filter].
    apply not_elem_of_cons in Hx as [Hxy Hx]. rewrite (proj2 (Nat.eqb_neq y x)) by congruence. cbn. f_equal. by apply IH.
  - rewrite (proj2 (Nat.eqb_neq x t)) by congruence. cbn. f_equal. by apply IH.
Qed.
Lemma without_known t n (l : list nat) : NoDup l -> Forall (fun t => (t < n)%nat) l ->
  NoDup (List.filter (fun x => negb (Nat.eqb x t)) l) /\ Forall (fun t => (t < n)%nat) (List.filter (fun x => negb (Nat.eqb x t)) l).
Proof.
  induction 1 as [|x l Hx Hl IH]; intros Hn; inv Hn; [by split; constructor|]. destruct IH as [IH1 IH2]; [done|]. cbn [List.filter].
  destruct (negb (x =? t)%nat); [|done]. split; constructor; [|done..]. intros Hin. apply Hx.
  by apply list_elem_of_In, filter_In in Hin as [Hin%list_elem_of_In _].
Qed.

(** What the dispatcher says of a frame, and what it has done to the slots. *)
Lemma handle_spec f d : (inflight d <= capacity d)%nat ->
  let '(r, d') := handle message_from_str f d in
  capacity d' = capacity d /\
  match r with
  | DOk _ => initialized d' = true /\ exists m, snd (parse_id_method message_from_str f) = Some m /\
      if String.eqb m "initialize" then initialized d = false /\ inflight d' = inflight d else (inflight d < capacity d)%nat /\ inflight d' = S (inflight d)
  | DErr _ _ => d' = d
  | DNotify => d' = d /\ id_in f = None
  end.
Proof.
  intros Hle. unfold handle, parse_id_method. destruct (message_from_str f) as [m|e]; [|done].
  assert (method_of m = None -> id_of m = None) as Hm by (by destruct m).
  destruct (method_of m) as [method|]; [|by cbn; auto]. destruct (String.eqb method "initialize") eqn:Hi.
  - destruct (initialized d) eqn:Hd; [done|]. cbn. split_and!; [done..|]. exists method. by rewrite Hi.
  - destruct (initialized d); [|done]. cbn [negb]. destruct (Nat.leb_spec (capacity d) (inflight d)); [done|]. cbn.
    split_and!; [done..|]. exists method. by rewrite Hi.
Qed.

Lemma step_slots i s : slots_held s -> slots_held (step s i) /\
  answered (out (step s i)) = answered (out s) ++ (if open s then match i with Frame f => option_list (id_in f) | _ => [] end else []) /\
  open (step s i) = (open s && match i with HangUp => false | _ => true end)%bool.
Proof.
  intros Hsl. pose proof Hsl as [Hh Hw Hc Ha Hk Hs]. unfold session_step. destruct (open s) eqn:Ho; [|by rewrite app_nil_r].
  destruct i as [f|t e|t|t| |]; cbn [andb].
  - assert (forall l, answered (out s ++ l) = answered (out s) ++ answered l) as Happ by (intros; apply omap_app).
    unfold on_frame. pose proof (handle_spec f (disp s) Hw) as Hd. destruct (handle message_from_str f (disp s)) as [r d].
    destruct (parse_id_method message_from_str f) as [id method] eqn:Hp. cbn [fst snd] in *. destruct Hd as [Hcd Hd]. destruct r as [v|code message|].
    + destruct Hd as (Hid & m & -> & Hd). assert (m <> "initialize" -> exists k, inflight d = S k /\ k = inflight (disp s) /\ (k < WS_INFLIGHT_CAP)%nat) as Hm.
      { intros Hm. apply String.eqb_neq in Hm. rewrite Hm in Hd. destruct Hd. eexists. split_and!; [done..|lia]. }
      destruct (String.eqb m "turn/start" || String.eqb m "turn/steer") eqn:Ht; [|destruct (String.eqb m "turn/interrupt") eqn:Hti; [|destruct (String.eqb m "initialize") eqn:Hi]].
      * destruct Hm as (k & Hk1 & -> & Hk2); [intros ->; discriminate|].
        split_and!; [constructor; cbn| |]; rewrite ?Happ, ?length_app, ?Hk1, ?Hcd, ?Hh, ?Hid; cbn; try (done || lia).
        -- apply NoDup_app. split_and!; [done| |by apply NoDup_singleton]. intros x Hx ->%list_elem_of_singleton.
           rewrite Forall_forall in Hk. specialize (Hk _ Hx). lia.
        -- apply Forall_app_2'; [|repeat constructor; lia]. eapply Forall_impl; [exact Hk|]. cbn. lia.
        -- rewrite Happ. by destruct id.
      * destruct Hm as (k & Hk1 & -> & Hk2); [intros ->; discriminate|].
        split_and!; [constructor; cbn| |]; rewrite ?Hk1, ?Hcd, ?Hh, ?Hid; cbn; try (done || lia).
        rewrite app_nil_r, Happ. by destruct id.
      * destruct Hd as [Hd Hfl]. split_and!; [constructor; cbn| |]; rewrite ?Hfl, ?Hcd, ?Hh, ?Hid; cbn; try (done || lia).
        rewrite Happ. by destruct id.
      * destruct Hm as (k & Hk1 & -> & Hk2); [intros ->; discriminate|].
        split_and!; [constructor; cbn| |]; rewrite ?Hk1, ?Hcd, ?Hh, ?Hid; cbn; try (done || lia).
        rewrite app_nil_r, Happ. by destruct id.
    + subst d. split_and!; [by constructor| |done]. cbn. rewrite Happ. by destruct id.
    + destruct Hd as [-> ->]. split_and!; [by constructor| |done]. cbn. by rewrite Happ.
  - case_bool_decide; (split_and!; [by constructor| |done]); cbn; [by rewrite omap_app|by rewrite app_nil_r].
  - case_bool_decide as Ht; [|by rewrite app_nil_r]. destruct (without_known t _ _ Ha Hk). pose proof (length_without t _ Ha Ht).
    split_and!; [constructor; cbn; (done || lia)|by rewrite app_nil_r|done].
  - case_bool_decide as Ht; [|by rewrite app_nil_r]. destruct (without_known t _ _ Ha Hk). pose proof (length_without t _ Ha Ht).
    split_and!; [constructor; cbn; (done || lia)|by rewrite app_nil_r|done].
  - destruct (ended s) as [|n] eqn:He; [by rewrite app_nil_r|]. split_and!; [constructor; cbn; (done || lia)|by rewrite app_nil_r|done].
  - split_and!; [by constructor|by rewrite app_nil_r|done].
Qed.

Lemma run_slots l s : slots_held s -> slots_held (foldl step s l) /\
  answered (out (foldl step s l)) = answered (out s) ++ (if open s then omap id_in (heard l) else []).
Proof.
  revert s. induction l as [|i l IH]; intros s Hs; cbn [foldl].
  - split; [done|]. destruct (open s); by rewrite app_nil_r.
  - destruct (step_slots i s Hs) as (Hi & Ha & Ho). destruct (IH _ Hi) as [Hl Hout]. split; [done|]. rewrite Hout, Ha, Ho, <- app_assoc. f_equal.
    destruct (open s); [|done]. destruct i; cbn [andb heard]; try done. cbn [omap list_omap]. by destruct (id_in frame).
Qed.

(** C16: whatever frames come and whatever its turns do, a session holds at most eight slots: one for each turn
    that runs, for each whose end it has not received yet, and for each that panicked. Before it is
    initialized no turn starts. Every request read before the client hangs up is answered exactly once, in
    the order of the requests, by a result or an error with its id, and nothing else is answered. *)
Theorem session_slots (l : list Input) :
  let s := foldl step session_new l in
  inflight (disp s) = (length (running s) + ended s + died s)%nat /\ (inflight (disp s) <= 8)%nat /\
  (initialized (disp s) = false -> started s = []) /\
  answered (out s) = omap id_in (heard l).
Proof.
  cbv zeta. destruct (run_slots l session_new) as [[] Ha].
  { constructor; cbn; [done|lia|done|constructor|constructor|done]. }
  split_and!; [done| |done|exact Ha]. rewrite cap0 in within0. exact within0.
Qed.
End SessionProps.

(** ** Concrete streams and sessions *)

(** One item, for which the channel has room for all but its start: the client is sent the text of an item
    that was never started. *)
Example full_channel_orphans_a_delta :
  let l := @turn_stream no_json (fun k => negb (k =? 2)) 9%N 1%N [EvSinkDelta 0 "It is a language."] Answered in
  event <$> l = ["turnStarted"; "itemDelta"; "itemCompleted"; "turnCompleted"] /\ seq <$> l = [1; 3; 4; 5] /\ walk Before (event <$> l) = None.
Proof. vm_compute. repeat split. Qed.
Lemma socket_turn_bracketed_witness :
  let l := @turn_stream no_json (fun _ => true) 9%N 1%N [EvSinkCall 0 "web_search" "rust"; EvSinkDelta 0 "It is a language."] (FailedWith "late") in
  walk Before (event <$> l) = Some After /\ seq <$> l = [1; 2; 3; 4; 5; 6; 7; 8; 9; 10].
Proof.
  destruct (@socket_turn_bracketed no_json (fun _ => true) 9%N 1%N [EvSinkCall 0 "web_search" "rust"; EvSinkDelta 0 "It is a language."] (FailedWith "late"))
    as (_ & _ & H). exact (H (fun _ => eq_refl)).
Defined.

(** Frames that are their own method and id; the initialization opts out of the deltas. *)
Definition demo_message (f : string) : result string RpcMessage :=
  if String.eqb f "{" then Err "EOF while parsing an object"
  else Ok (Request (String_ f) f (if String.eqb f "initialize" then obj [("opt_out_notification_methods", Array [String_ "itemDelta"])] else Null)).
Definition demo_session (l : list Input) : State := foldl (@session_step demo_message no_json) session_new l.
Definition eight_turns : list Input := Frame "initialize" :: repeat (Frame "turn/start") 8.

(** The client cannot interrupt a turn of a session that is full. *)
Example full_session_refuses_the_interrupt :
  let s := demo_session (eight_turns ++ [Frame "turn/interrupt"]) in
  last (out s) = Some (OError (String_ "turn/interrupt") OVERLOADED "Server overloaded; retry later.") /\ cancelled s = [] /\ length (running s) = 8%nat.
Proof. vm_compute. repeat split. Qed.
(** A turn that panics keeps its slot: after eight the session refuses everything. *)
Example panicked_turns_fill_the_session :
  let s := demo_session (eight_turns ++ map Dies (List.seq 0 8) ++ [Done; Frame "turn/start"]) in
  last (out s) = Some (OError (String_ "turn/start") OVERLOADED "Server overloaded; retry later.") /\ running s = [].
Proof. vm_compute. repeat split. Qed.
(** The session cancels the turn it started last; the one before it runs on. *)
Example hang_up_leaves_a_turn :
  let s := demo_session [Frame "initialize"; Frame "turn/start"; Frame "turn/steer"; HangUp] in
  cancelled s = [1%nat] /\ running s = [0%nat; 1%nat] /\ open s = false.
Proof. vm_compute. repeat split. Qed.
(** The client has opted out of the deltas and is sent them; a frame that is no message is not answered. *)
Example opted_out_and_sent :
  let e := envelope 9%N 1%N 3 (delta "It is") in
  let s := demo_session [Frame "initialize"; Frame "turn/start"; Sends 0 e; Frame "{"] in
  is_suppressed (event e) (disp s) = true /\ last (out s) = Some (OEvent 0 e) /\ handle demo_message "{" (disp s) = (DErr (-32700) "EOF while parsing an object", disp s).
Proof. vm_compute. repeat split. Qed.

(** A recall asked of the world of [demo_drive], with a listener on its stream. *)
Definition demo_server (pages : list Repo.PageRow) : @Server Files Replies := {|
  sv_hub := snd (subscribe 1%N 9%N hub_new);
  sv_chat := {| parents := w_ledger demo_world; msgs := []; Transcript.next_seq := 1; convos := [] |};
  sv_pages := {| Repo.pages := pages; Repo.links := [] |}; sv_turn := demo_world; sv_permits := 8 |}.
Definition demo_recall_stream (s : Server) : bool * Server :=
  @run_recall_stream answer_json ascii_only Vault.Toy.toy_aead Files Replies files_os replies_outside demo_env demo_text Vault.Envelope.StubKms (fun _ _ => true)
    (fun _ _ => false) (fun _ _ => false) (fun _ _ _ => false) (fun _ _ _ => false) (fun _ => None) (fun _ => None)
    (fun _ n => (Err "off", n), fun _ n => (Err "off", n)) (fun _ => 0) (Seam.live "stub") 1%N 2%N 9%N "What is Rust?" RecallAsk no_override
    {| question_id := 11%N; answer_id := 12%N; now_us := 0 |} s.
Example recall_of_a_language :
  let '(panicked, s) := demo_recall_stream (demo_server [demo_row]) in
  panicked = false /\ event <$> log_of (sv_hub s) 0 = ["session_started"; "message_delta"; "usage"; "done"] /\
  Ledger.spent <$> Ledger.ledger (w_ledger (sv_turn s)) = [575] /\ entries (sv_hub s) !! 9%N = None.
Proof. vm_compute. repeat split. Qed.
(** The index of ninety pages is cut at a byte inside a character: the task is gone after its first event, and
    the stream stays open. *)
Definition accented (n : nat) : string := Str.join "" (repeat "é" n).
Definition accented_page (n : nat) : Repo.PageRow := {|
  Repo.id := N.of_nat n; Repo.tenant_id := 1%N; Repo.slug := "rust"; Repo.title := "Rust2024"; Repo.aliases := []; Repo.tags := [];
  Repo.type_ := "entity"; Repo.summary := accented 150; Repo.reviewed := true; Repo.char_len := 0; Repo.body_ref := []; Repo.source_ids := [];
  Repo.content_hash := "h"; Repo.sync_version := 1; Repo.deleted := false |}.
Example index_cut_hangs_the_stream :
  let '(panicked, s) := demo_recall_stream (demo_server (accented_page <$> List.seq 0 90)) in
  panicked = true /\ event <$> log_of (sv_hub s) 0 = ["session_started"] /\ entries (sv_hub s) !! 9%N <> None.
Proof. vm_compute. repeat split. discriminate. Qed.
