(* ===== verification/Activity.v ===== *)
(** * What the client reads of a tenant, and what it decides

    [ApprovalRoutes], [JobRoutes], [CostRoutes]: [app-server/src/activity/routes.rs]. [WikiRoutes]:
    [app-server/src/wikiapi/routes.rs]. Every handler runs in a transaction of its tenant; the driver fails
    only where a statement can. Rows that [ORDER BY] leaves tied keep their order in the table. *)
From S2P Require Import Prelude RustStr Json Protocol Redact Jobs WikiText Wiki Server Cost Ideas Recall Query Identity Auth.
From stdpp Require Import list pretty.
Import Paths Conflict Repo Gate Factory Query.Approvals.

#[local] Open Scope string_scope.
#[local] Open Scope list_scope.
#[local] Open Scope Z_scope.

Definition texts (l : list string) : Value := Array (String_ <$> l).
Definition integer (z : Z) : Value := Number_ (if 0 <=? z then PosInt z else NegInt z).

(** ** Approvals *)
Module ApprovalRoutes.
(** A proposal with the columns a decision writes. *)
(* src/qcue-rs/migrations/20004_M2_0004_approvals_audit.sql 9-22 approvals *)
Record ApprovalRow : Type := {
  proposal : Approval;
  decided_by : option Uuid;
  decided_at : option Z;
  ap_created : Z;
}.
Definition proposed (now : Z) (a : Approval) : ApprovalRow :=
  {| proposal := a; decided_by := None; decided_at := None; ap_created := now |}.
Definition rls (tenant : Uuid) (r : ApprovalRow) : bool := N.eqb (ap_tenant (proposal r)) tenant.
Definition pending (r : ApprovalRow) : bool := String.eqb (ap_status (proposal r)) "pending".
Definition decide_row (status : string) (by_ : Uuid) (now : Z) (r : ApprovalRow) : ApprovalRow :=
  let a := proposal r in
  {| proposal := {| ap_id := ap_id a; ap_tenant := ap_tenant a; ap_user := ap_user a; ap_action := ap_action a;
                    ap_subject := ap_subject a; ap_requested_by := ap_requested_by a; ap_status := status |};
     decided_by := Some by_; decided_at := Some now; ap_created := ap_created r |}.

(** The row of [UPDATE approvals .. WHERE id=$1 AND status='pending'], and the update. *)
Definition is_open (tenant i : Uuid) (r : ApprovalRow) : bool := rls tenant r && (N.eqb (ap_id (proposal r)) i && pending r).
Definition decide_rows (tenant i : Uuid) (status : string) (by_ : Uuid) (now : Z) (l : list ApprovalRow) : list ApprovalRow :=
  (fun r => if is_open tenant i r then decide_row status by_ now r else r) <$> l.

Section Routes.
(** [Uuid::parse_str] and its [Display]. *)
Context (uuid_text : Uuid -> string) (parse_uuid : string -> option Uuid).

(* src/qcue-rs/app-server/src/activity/routes.rs 33-36 redacted *)
Definition redacted (v : Value) : Value := Boundary.redact_json v.
Definition approval_json (r : ApprovalRow) : Value :=
  let a := proposal r in
  obj [("action", String_ (ap_action a)); ("id", String_ (uuid_text (ap_id a))); ("requested_by", String_ (ap_requested_by a));
       ("status", String_ (ap_status a)); ("subject_ref", ap_subject a)].
(* src/qcue-rs/app-server/src/activity/routes.rs 46-68 list_approvals *)
Definition list_approvals (ctx : TenantCtx) (approvals : list ApprovalRow) : Value :=
  redacted (obj [("approvals", Array (approval_json <$>
    firstn 500 (sort_by (fun a b => ap_created b <=? ap_created a)
      (List.filter (fun r => rls (ctx_tenant ctx) r && pending r) approvals))))]).

(** The page a rejection gives back. *)
Definition restored_page (a : Approval) : option Uuid :=
  v ← (if String.eqb (ap_action a) "wiki_merge" then Json.get "from" (ap_subject a)
       else if String.eqb (ap_action a) "wiki_delete" then Json.get "page" (ap_subject a) else None);
  s ← Json.as_str v; parse_uuid s.
Definition set_live (r : PageRow) : PageRow :=
  {| id := id r; tenant_id := tenant_id r; slug := slug r; title := title r; aliases := aliases r; tags := tags r;
     type_ := type_ r; summary := summary r; reviewed := reviewed r; char_len := char_len r; body_ref := body_ref r;
     source_ids := source_ids r; content_hash := content_hash r; sync_version := sync_version r; deleted := false |}.
(** [wiki_pages_slug_uniq]: another live page has the type and slug. *)
Definition slug_taken (r : PageRow) (db : Db) : bool :=
  existsb (fun x => live (tenant_id r) x && String.eqb (type_ x) (type_ r) && String.eqb (slug x) (slug r)) (pages db).
(* src/qcue-rs/app-server/src/activity/routes.rs 111-116 respond_approval *)
Definition restore (tenant i : Uuid) (db : Db) : result string Db :=
  let hit r := N.eqb (tenant_id r) tenant && N.eqb (id r) i && deleted r in
  if existsb (fun r => hit r && slug_taken r db) (pages db)
  then Err "duplicate key value violates unique constraint"
  else Ok {| pages := (fun r => if hit r then set_live r else r) <$> pages db; links := links db |}.

(** The decision and what it gives back are one transaction. *)
(* src/qcue-rs/app-server/src/activity/routes.rs 79-121 respond_approval *)
Definition respond_approval (now : Z) (ctx : TenantCtx) (i : Uuid) (approve : bool) (approvals : list ApprovalRow) (db : Db) :
  result Errors.ApiError Value * (list ApprovalRow * Db) :=
  let status := if approve then "approved" else "rejected" in
  match find_first (is_open (ctx_tenant ctx) i) approvals with
  | None => (Err Errors.NotFound, (approvals, db))
  | Some r =>
      let decided := decide_rows (ctx_tenant ctx) i status (ctx_user ctx) now approvals in
      let answer := redacted (obj [("id", String_ (uuid_text i)); ("status", String_ status)]) in
      if approve then (Ok answer, (decided, db))
      else match restored_page (proposal r) with
           | None => (Ok answer, (decided, db))
           | Some p =>
               match restore (ctx_tenant ctx) p db with
               | Ok db => (Ok answer, (decided, db))
               | Err e => (Err (Errors.Db e), (approvals, db))
               end
           end
  end.
End Routes.
End ApprovalRoutes.
Import ApprovalRoutes.

(** ** Jobs *)
Module JobRoutes.
Definition state_text (s : Jobs.JobState) : string :=
  match s with
  | Jobs.Pending => "pending" | Jobs.Leased => "leased" | Jobs.Done => "done"
  | Jobs.Failed => "failed" | Jobs.Skipped => "skipped" | Jobs.Canceled => "canceled"
  end.
Section Routes.
Context (uuid_text : Uuid -> string).
(** [->>] of a value that is no string, and the cast of a text to [float8], which may fail. *)
Context (pg_text : Value -> string) (float8 : string -> result string Value).
(** [(result->>'progress')::float8] *)
Definition progress (j : Jobs.Job) : result string (option Value) :=
  match Jobs.job_result j ≫= Json.get "progress" with
  | None | Some Null => Ok None
  | Some (String_ s) => result_map Some (float8 s)
  | Some v => result_map Some (float8 (pg_text v))
  end.
Definition job_json (j : Jobs.Job) (p : option Value) : Value :=
  obj ([("id", String_ (uuid_text (Jobs.id j))); ("kind", String_ (Jobs.as_db (Jobs.kind j)))]
       ++ match Jobs.last_error j with Some e => [("last_error", String_ e)] | None => [] end
       ++ match p with Some v => [("progress", v)] | None => [] end
       ++ [("state", String_ (state_text (Jobs.state j)))]).
(** The rows of a statement come until one fails. *)
Fixpoint job_rows (l : list Jobs.Job) : result string (list Value) :=
  match l with
  | [] => Ok []
  | j :: l => let? p := progress j in let? rest := job_rows l in Ok (job_json j p :: rest)
  end.
(* src/qcue-rs/app-server/src/activity/routes.rs 126-152 list_jobs *)
Definition list_jobs (ctx : TenantCtx) (t : Jobs.Table) : result Errors.ApiError Value :=
  match job_rows (firstn 50 (sort_by (fun a b => Jobs.created_at b <=? Jobs.created_at a)
                                (List.filter (Jobs.rls (ctx_tenant ctx)) t))) with
  | Ok l => Ok (redacted (obj [("jobs", Array l)]))
  | Err e => Err (Errors.Db e)
  end.
End Routes.
End JobRoutes.
Import JobRoutes.

(** ** Costs *)
Module CostRoutes.
Import Ledger.
Definition tenant_rows (tenant : Uuid) (l : list LedgerRow) : list LedgerRow :=
  List.filter (fun r => N.eqb (tenant_id r) tenant && String.eqb (scope r) "tenant" && bool_decide (user_id r = None)) l.
(* src/qcue-rs/app-server/src/activity/routes.rs 156-165 cost_today *)
Definition cost_today (today : Z) (ctx : TenantCtx) (l : list LedgerRow) : result Errors.ApiError Value :=
  match as_bigint (sum_spent (fun r => day r =? today) (tenant_rows (ctx_tenant ctx) l)) with
  | Ok n => Ok (obj [("cost_micros", integer n)])
  | Err e => Err (Errors.Db e)
  end.
(** [day_text]: the day with the time of its start. *)
Definition ledger_json (day_text : Z -> string) (r : LedgerRow) : Value :=
  let u := tokens r in
  obj [("cache_read_tokens", integer (cu_cache_read u)); ("cache_write_tokens", integer (cu_cache_write u)); ("cost_micros", integer (spent r));
       ("day", String_ (day_text (day r))); ("input_tokens", integer (cu_input u)); ("output_tokens", integer (cu_output u));
       ("reasoning_tokens", integer (cu_reasoning u))].
(* src/qcue-rs/app-server/src/activity/routes.rs 169-192 cost_ledger *)
Definition cost_ledger (day_text : Z -> string) (ctx : TenantCtx) (l : list LedgerRow) : Value :=
  obj [("rows", Array (ledger_json day_text <$> firstn 90 (sort_by (fun a b => day b <=? day a) (tenant_rows (ctx_tenant ctx) l))))].
End CostRoutes.
Import CostRoutes.

(** ** The wiki *)
Module WikiRoutes.
Section Routes.
Context {F : Type} `{Os F} (uuid_text : Uuid -> string) (text_le : string -> string -> bool).
(** The column [updated], which no definition of Wiki.v reads, and its encoding. *)
Context (updated : PageRow -> Z) (time_json : Z -> Value).

Definition page_json (r : PageRow) (body : string) (backlinks : list Value) : Value :=
  obj [("aliases", texts (aliases r)); ("backlinks", Array backlinks); ("body_markdown", String_ body); ("id", String_ (uuid_text (id r)));
       ("slug", String_ (slug r)); ("summary", String_ (summary r)); ("tags", texts (tags r)); ("title", String_ (title r));
       ("type", String_ (type_ r)); ("updated", time_json (updated r))].
(* src/qcue-rs/app-server/src/wikiapi/routes.rs 35-63 index *)
Definition index (ctx : TenantCtx) (db : Db) : Value :=
  redacted (obj [("pages", Array ((fun r => page_json r "" []) <$>
    firstn 2000 (sort_by (fun a b => updated b <=? updated a) (List.filter (live (ctx_tenant ctx)) (pages db)))))]).

(* src/qcue-rs/app-server/src/state.rs 39-43 vault_root *)
Definition vault_root (data_root : Path) (tenant : Uuid) : Path :=
  Paths.join (Paths.join data_root "objects") ("t/" +:+ uuid_text tenant +:+ "/u/_").
(* src/qcue-rs/app-server/src/wikiapi/routes.rs 126-134 read_body_confined *)
Definition read_body_confined (data_root : Path) (tenant : Uuid) (body_ref : Path) (f : F) : string :=
  match canonicalize (vault_root data_root tenant) f, canonicalize body_ref f with
  | Ok root, Ok path =>
      if Paths.starts_with root path then match read_to_string path f with Ok s => s | Err _ => "" end else ""
  | _, _ => ""
  end.

Definition named (s : string) (r : PageRow) : bool := String.eqb (slug r) s || existsb (String.eqb s) (aliases r).
(** The pages that link to [i], joined under the policies of both tables. *)
Definition linking (tenant i : Uuid) (db : Db) : list PageRow :=
  List.filter (fun l => N.eqb (l_tenant l) tenant && bool_decide (l_target l = Some i)) (links db) ≫= fun l =>
    List.filter (fun p => live tenant p && N.eqb (id p) (l_src l)) (pages db).
Definition backlink_json (p : PageRow) : Value :=
  obj [("display", String_ (title p)); ("target_page_id", String_ (uuid_text (id p))); ("target_slug", String_ (slug p))].
(* src/qcue-rs/app-server/src/wikiapi/routes.rs 67-122 page *)
Definition page (data_root : Path) (ctx : TenantCtx) (s : string) (db : Db) (f : F) : result Errors.ApiError Value :=
  match find_first (fun r => live (ctx_tenant ctx) r && named s r) (pages db) with
  | None => Err Errors.NotFound
  | Some r =>
      let backlinks := backlink_json <$> sort_by (fun a b => text_le (title a) (title b)) (linking (ctx_tenant ctx) (id r) db) in
      Ok (redacted (page_json r (read_body_confined data_root (ctx_tenant ctx) (body_ref r) f) backlinks))
  end.
End Routes.
End WikiRoutes.
Import WikiRoutes.

(** ** Lemmas: the rows of a tenant *)

Lemma filter_own {A} (own q : A -> bool) (l : list A) : List.filter (fun x => own x && q x) l = List.filter q (List.filter own l).
Proof. induction l as [|x l IH]; [done|]. cbn. destruct (own x); cbn; rewrite IH; [|done]. by destruct (q x). Qed.
Lemma find_own {A} (own q : A -> bool) (l : list A) : find_first (fun x => own x && q x) l = find_first q (List.filter own l).
Proof. induction l as [|x l IH]; [done|]. cbn. destruct (own x); cbn; rewrite IH; [|done]. by destruct (q x). Qed.
Lemma exists_own {A} (own q : A -> bool) (l : list A) : existsb (fun x => own x && q x) l = existsb q (List.filter own l).
Proof. induction l as [|x l IH]; [done|]. cbn. destruct (own x); cbn; by rewrite IH. Qed.
Lemma filter_map_kept {A} (own : A -> bool) (f : A -> A) (l : list A) :
  (forall x, own (f x) = own x) -> List.filter own (f <$> l) = f <$> List.filter own l.
Proof. intros Hf. induction l as [|x l IH]; [done|]. cbn. rewrite Hf. case_match; cbn; by rewrite IH. Qed.
Lemma existsb_ext_in {A} (p q : A -> bool) (l : list A) : (forall x, x ∈ l -> p x = q x) -> existsb p l = existsb q l.
Proof.
  induction l as [|x l IH]; intros H; [done|]. cbn. rewrite (H x) by left. f_equal. apply IH. intros y Hy. apply H. by right.
Qed.
Lemma map_same {A} (f : A -> A) (l : list A) : (forall x, x ∈ l -> f x = x) -> f <$> l = l.
Proof. induction l as [|x l IH]; intros H; [done|]. cbn. rewrite (H x) by left. f_equal. apply IH. intros y Hy. apply H. by right. Qed.

Definition own_page (tenant : Uuid) (r : PageRow) : bool := N.eqb (tenant_id r) tenant.
Definition own_link (tenant : Uuid) (l : LinkRow) : bool := N.eqb (l_tenant l) tenant.

(** What the handlers read. *)
Record Tables : Type := { t_approvals : list ApprovalRow; t_jobs : Jobs.Table; t_ledger : list Ledger.LedgerRow; t_wiki : Db }.
Record same_rows (tenant : Uuid) (t u : Tables) : Prop := {
  same_approvals : List.filter (ApprovalRoutes.rls tenant) (t_approvals t) = List.filter (ApprovalRoutes.rls tenant) (t_approvals u);
  same_jobs : List.filter (Jobs.rls tenant) (t_jobs t) = List.filter (Jobs.rls tenant) (t_jobs u);
  same_ledger : tenant_rows tenant (t_ledger t) = tenant_rows tenant (t_ledger u);
  same_pages : List.filter (own_page tenant) (pages (t_wiki t)) = List.filter (own_page tenant) (pages (t_wiki u));
  same_links : List.filter (own_link tenant) (links (t_wiki t)) = List.filter (own_link tenant) (links (t_wiki u));
}.
Definition with_decision (t : Tables) (x : list ApprovalRow * Db) : Tables :=
  {| t_approvals := fst x; t_jobs := t_jobs t; t_ledger := t_ledger t; t_wiki := snd x |}.

Lemma live_rows tenant (q : PageRow -> bool) db db' :
  List.filter (own_page tenant) (pages db) = List.filter (own_page tenant) (pages db') ->
  List.filter (fun r => live tenant r && q r) (pages db) = List.filter (fun r => live tenant r && q r) (pages db').
Proof.
  intros Hp. assert (forall l : list PageRow, List.filter (fun r => live tenant r && q r) l
      = List.filter (fun r => negb (deleted r) && q r) (List.filter (own_page tenant) l)) as Hl.
  { intros l. rewrite <- filter_own. apply List.filter_ext. intros r. unfold live, own_page. by rewrite <- andb_assoc. }
  by rewrite !Hl, Hp.
Qed.

Section Confined.
Context {F : Type} `{Os F} (uuid_text : Uuid -> string) (parse_uuid : string -> option Uuid) (text_le : string -> string -> bool).
Context (updated : PageRow -> Z) (time_json : Z -> Value) (pg_text : Value -> string) (float8 : string -> result string Value).
Context (day_text : Z -> string) (data_root : Path).

Lemma linking_same tenant i db db' :
  List.filter (own_page tenant) (pages db) = List.filter (own_page tenant) (pages db') ->
  List.filter (own_link tenant) (links db) = List.filter (own_link tenant) (links db') ->
  linking tenant i db = linking tenant i db'.
Proof.
  intros Hp Hl. unfold linking. rewrite !(filter_own (own_link tenant)), Hl. apply list_bind_ext; [|done].
  intros l. by apply live_rows.
Qed.
Lemma page_same tenant db db' s f f' ctx : ctx_tenant ctx = tenant ->
  List.filter (own_page tenant) (pages db) = List.filter (own_page tenant) (pages db') ->
  List.filter (own_link tenant) (links db) = List.filter (own_link tenant) (links db') ->
  (forall p, read_body_confined uuid_text data_root tenant p f = read_body_confined uuid_text data_root tenant p f') ->
  WikiRoutes.page uuid_text text_le updated time_json data_root ctx s db f = WikiRoutes.page uuid_text text_le updated time_json data_root ctx s db' f'.
Proof.
  intros Ht Hp Hl Hf. unfold WikiRoutes.page. rewrite Ht.
  assert (forall l, find_first (fun r => live tenant r && named s r) l = find_first (fun r => negb (deleted r) && named s r) (List.filter (own_page tenant) l)) as Hq.
  { intros l. rewrite <- find_own. apply find_first_ext. intros r. unfold live, own_page. by rewrite <- andb_assoc. }
  rewrite !Hq, Hp. case_match; [|done]. by rewrite (linking_same _ _ _ _ Hp Hl), Hf.
Qed.

(** A rejection depends on the rows of its tenant, and changes no other. *)
Lemma restore_same tenant i db db' :
  List.filter (own_page tenant) (pages db) = List.filter (own_page tenant) (pages db') ->
  match restore tenant i db, restore tenant i db' with
  | Ok d, Ok d' => List.filter (own_page tenant) (pages d) = List.filter (own_page tenant) (pages d') /\ links d = links db /\ links d' = links db'
  | Err e, Err e' => e = e'
  | _, _ => False
  end.
Proof.
  intros Hp. unfold restore. cbn zeta.
  assert (forall db, existsb (fun r => N.eqb (tenant_id r) tenant && N.eqb (id r) i && deleted r && slug_taken r db) (pages db)
    = existsb (fun r => N.eqb (id r) i && deleted r && existsb (fun x => negb (deleted x) && String.eqb (type_ x) (type_ r) && String.eqb (slug x) (slug r))
          (List.filter (own_page tenant) (pages db))) (List.filter (own_page tenant) (pages db))) as Hq.
  { intros d. rewrite <- exists_own. apply existsb_ext_in. intros r _. unfold own_page. destruct (N.eqb_spec (tenant_id r) tenant) as [Ht|]; [|done]. cbn.
    f_equal. unfold slug_taken. rewrite Ht, <- exists_own. apply existsb_ext_in. intros x _. unfold live, own_page. by rewrite <- !andb_assoc. }
  rewrite !Hq, Hp. destruct (existsb _ (List.filter _ _)); [done|]. cbn [pages links].
  rewrite !filter_map_kept, Hp by (intros r; by case_match). done.
Qed.
Lemma decide_own tenant i status by_ now l k :
  List.filter (ApprovalRoutes.rls tenant) l = List.filter (ApprovalRoutes.rls tenant) k ->
  List.filter (ApprovalRoutes.rls tenant) (decide_rows tenant i status by_ now l)
  = List.filter (ApprovalRoutes.rls tenant) (decide_rows tenant i status by_ now k).
Proof. intros Hl. unfold decide_rows. rewrite !filter_map_kept by (intros r; by destruct (is_open _ _ r)). by rewrite Hl. Qed.

(** C40: the activity and wiki routes show a tenant what depends on its own rows and on the files below its own
    vault only, whatever other tenants have; a decision does too, and leaves alike what was alike. *)
Theorem tenant_sees_own (ctx : TenantCtx) (t u : Tables) (f f' : F) (Hsame : same_rows (ctx_tenant ctx) t u)
  (Hcanon : forall p, canonicalize p f = canonicalize p f')
  (Hread : forall root p, canonicalize (vault_root uuid_text data_root (ctx_tenant ctx)) f = Ok root -> Paths.starts_with root p = true ->
     read_to_string p f = read_to_string p f') :
  list_approvals uuid_text ctx (t_approvals t) = list_approvals uuid_text ctx (t_approvals u) /\
  list_jobs uuid_text pg_text float8 ctx (t_jobs t) = list_jobs uuid_text pg_text float8 ctx (t_jobs u) /\
  (forall today, cost_today today ctx (t_ledger t) = cost_today today ctx (t_ledger u)) /\
  cost_ledger day_text ctx (t_ledger t) = cost_ledger day_text ctx (t_ledger u) /\
  index uuid_text updated time_json ctx (t_wiki t) = index uuid_text updated time_json ctx (t_wiki u) /\
  (forall s, WikiRoutes.page uuid_text text_le updated time_json data_root ctx s (t_wiki t) f
             = WikiRoutes.page uuid_text text_le updated time_json data_root ctx s (t_wiki u) f') /\
  (forall now i approve,
     let '(r, x) := respond_approval uuid_text parse_uuid now ctx i approve (t_approvals t) (t_wiki t) in
     let '(r', y) := respond_approval uuid_text parse_uuid now ctx i approve (t_approvals u) (t_wiki u) in
     r = r' /\ same_rows (ctx_tenant ctx) (with_decision t x) (with_decision u y)).
Proof.
  destruct Hsame as [Ha Hj Hl Hp Hk]. split_and!.
  - unfold list_approvals. by rewrite !(filter_own (ApprovalRoutes.rls _)), Ha.
  - unfold list_jobs. by rewrite Hj.
  - intros today. unfold cost_today. by rewrite Hl.
  - unfold cost_ledger. by rewrite Hl.
  - unfold index. pose proof (live_rows _ (fun _ => true) _ _ Hp) as Hlive.
    rewrite !(List.filter_ext (fun r => live _ r && true) (live (ctx_tenant ctx))) in Hlive by (intros; apply andb_true_r). by rewrite Hlive.
  - intros s. apply page_same with (ctx_tenant ctx); [done..|]. intros p. unfold read_body_confined. rewrite <- !Hcanon.
    destruct (canonicalize (vault_root _ _ _) f) as [root|]; [|done]. destruct (canonicalize p f) as [q|]; [|done].
    destruct (Paths.starts_with root q) eqn:Hs; [|done]. by rewrite (Hread root q).
  - intros now i approve. unfold respond_approval. unfold is_open at 1 2. rewrite !(find_own (ApprovalRoutes.rls _)), Ha.
    destruct (find_first _ (List.filter _ _)) as [r|]; [|by split; [|constructor]].
    pose proof (fun st => decide_own (ctx_tenant ctx) i st (ctx_user ctx) now _ _ Ha) as Hg.
    destruct approve; [split; [done|constructor; cbn; auto]|].
    destruct (restored_page _ _) as [p|]; [|split; [done|constructor; cbn; auto]].
    pose proof (restore_same (ctx_tenant ctx) p _ _ Hp) as Hr.
    destruct (restore _ p (t_wiki t)), (restore _ p (t_wiki u)); [|done..|by subst; split; [|constructor]].
    destruct Hr as (Hr & Hl1 & Hl2). split; [done|]. constructor; cbn; [auto..|]. by rewrite Hl1, Hl2.
Qed.
End Confined.

(** ** A proposal and its decision *)

Lemma set_live_deleted r : deleted r = false ->
  set_live {| id := id r; tenant_id := tenant_id r; slug := slug r; title := title r; aliases := aliases r; tags := tags r; type_ := type_ r;
    summary := summary r; reviewed := reviewed r; char_len := char_len r; body_ref := body_ref r; source_ids := source_ids r;
    content_hash := content_hash r; sync_version := sync_version r; deleted := true |} = r.
Proof. intros Hd. unfold set_live. cbn. rewrite <- Hd. by destruct r. Qed.

(** The restored page has its slug to itself when live pages do. *)
Lemma restore_undoes tenant i db :
  (forall r, r ∈ pages db -> tenant_id r = tenant -> id r = i -> deleted r = false) ->
  (forall x y, x ∈ pages db -> y ∈ pages db -> live tenant x = true -> live tenant y = true -> type_ x = type_ y -> slug x = slug y -> id x = id y) ->
  restore tenant i (soft_delete tenant i db) = Ok db.
Proof.
  intros Hlive Huniq. unfold restore. cbn zeta. rewrite (existsb_ext_in _ (fun _ => false)).
  - assert (forall l : list PageRow, existsb (fun _ => false) l = false) as -> by (intros l; by induction l).
    destruct db as [ps ls]. unfold soft_delete. cbn [pages links] in *. do 2 f_equal. rewrite <- list_fmap_compose. apply map_same. intros r Hr. cbn.
    specialize (Hlive r Hr). unfold live. destruct (N.eqb_spec (tenant_id r) tenant) as [Ht|]; cbn; [|by apply N.eqb_neq in n as ->].
    destruct (N.eqb_spec (id r) i) as [Hi|Hi]; [|rewrite andb_false_r; apply N.eqb_neq in Hi; by rewrite Hi, andb_false_r].
    rewrite (Hlive Ht Hi). cbn. rewrite (proj2 (N.eqb_eq _ _) Ht), (proj2 (N.eqb_eq _ _) Hi). cbn. apply (set_live_deleted _ (Hlive Ht Hi)).
  - intros r Hr. apply not_true_iff_false. intros [Hhit Htaken]%andb_true_iff.
    apply andb_true_iff in Hhit as [[Ht%N.eqb_eq Hi%N.eqb_eq]%andb_true_iff _].
    apply existsb_exists in Htaken as (x & Hx%list_elem_of_In & Hk). apply andb_true_iff in Hk as [[Hl Hty%String.eqb_eq]%andb_true_iff Hs%String.eqb_eq].
    apply list_elem_of_fmap in Hr as (r0 & -> & Hr0), Hx as (x0 & -> & Hx0).
    assert (tenant_id r0 = tenant /\ id r0 = i) as [Ht0 Hi0] by (revert Ht Hi; destruct (live tenant r0 && N.eqb (id r0) i); by cbn).
    assert (live tenant x0 = true /\ id x0 <> i) as [Hlx Hix].
    { revert Hl. rewrite Ht. destruct (live tenant x0) eqn:Hlx; cbn; [|by rewrite Hlx]. destruct (N.eqb_spec (id x0) i); [|done].
      unfold live. cbn. by rewrite andb_false_r. }
    apply Hix. rewrite <- Hi0. apply Huniq; [done..|unfold live; rewrite Ht0, N.eqb_refl, (Hlive r0 Hr0 Ht0 Hi0); done| |];
      [revert Hty|revert Hs]; by repeat case_match.
Qed.

(** A destructive operation, proposed. *)
Definition propose (uuid_text : Uuid -> string) (now : Z) (i tenant user : Uuid) (requested_by : string) (op : DestructiveOp)
  (rows : list ApprovalRow) (db : Db) : list ApprovalRow * Db :=
  let '(l, db) := route_destructive uuid_text i tenant user requested_by op [] db in (rows ++ (proposed now <$> l), db).

Lemma open_fresh tenant i rows : Forall (fun r => ap_id (proposal r) <> i) rows -> forall r, r ∈ rows -> is_open tenant i r = false.
Proof. rewrite Forall_forall. intros Hf r Hr. unfold is_open. rewrite (proj2 (N.eqb_neq _ _) (Hf r Hr)). by rewrite andb_false_r. Qed.
Lemma find_open tenant i rows k : Forall (fun r => ap_id (proposal r) <> i) rows ->
  find_first (is_open tenant i) (rows ++ k) = find_first (is_open tenant i) k.
Proof. intros Hf. rewrite find_first_app, (proj2 (find_first_none _ rows)); [done|by apply open_fresh]. Qed.
Lemma decide_fresh tenant i st u now rows k : Forall (fun r => ap_id (proposal r) <> i) rows ->
  decide_rows tenant i st u now (rows ++ k) = rows ++ decide_rows tenant i st u now k.
Proof.
  intros Hf. unfold decide_rows. rewrite fmap_app. f_equal. apply map_same. intros r Hr. by rewrite (open_fresh _ _ _ Hf r Hr).
Qed.

Section Decisions.
Context (uuid_text : Uuid -> string) (parse_uuid : string -> option Uuid).
Context (text_parses : forall u, parse_uuid (uuid_text u) = Some u).

Lemma restored_target i tenant user by_ op :
  restored_page parse_uuid {| ap_id := i; ap_tenant := tenant; ap_user := user; ap_action := action op; ap_subject := subject uuid_text op;
    ap_requested_by := by_; ap_status := "pending" |} = Some (soft_delete_target op).
Proof. destruct op; vm_compute; apply text_parses. Qed.

End Decisions.

(** ** Concrete decisions *)

(** Names in binary. *)
Definition demo_show (u : Uuid) : string := Toy.bits (N.succ_pos u).
Definition demo_parse (s : string) : option Uuid := Pos.pred_N <$> Toy.unbits s.
Lemma demo_parses u : demo_parse (demo_show u) = Some u.
Proof. unfold demo_parse, demo_show. rewrite Toy.unbits_bits. cbn. by rewrite N.pos_pred_succ. Qed.
Definition demo_reader : TenantCtx := {| ctx_tenant := 1%N; ctx_user := 2%N; ctx_jti := 3%N; ctx_query := None |}.
Definition one_page : Db := {| pages := [demo_row]; links := [] |}.
Definition delete_it (i : Uuid) (x : list ApprovalRow * Db) : list ApprovalRow * Db :=
  propose demo_show 0 i 1%N 2%N "lint" (WikiDelete 1%N) (fst x) (snd x).
Definition answer_it (i : Uuid) (approve : bool) (x : list ApprovalRow * Db) : list ApprovalRow * Db :=
  snd (respond_approval demo_show demo_parse 5 demo_reader i approve (fst x) (snd x)).
Definition shown (x : list ApprovalRow * Db) := ((fun r => ap_status (proposal r)) <$> fst x, deleted <$> pages (snd x)).

(** Two proposals for one page: the rejection of the second takes back what the first was approved for. *)
Example rejection_revives_an_approved_deletion :
  shown (answer_it 8%N false (answer_it 7%N true (delete_it 8%N (delete_it 7%N ([], one_page))))) = (["approved"; "rejected"], [false]).
Proof. vm_compute. reflexivity. Qed.
(** Once another page has taken the slug, the proposal can no longer be rejected. *)
Example taken_slug_blocks_the_rejection :
  let x := delete_it 7%N ([], one_page) in
  let db := {| pages := pages (snd x) ++ [new_row 9%N 1%N (mirror (fun s => s)
    {| w_type := "entity"; w_slug := "rust"; w_title := "Rust"; w_aliases := []; w_tags := []; w_summary := ""; w_source_ids := []; w_body := "Again.";
       llm_created := None; llm_reviewed := None |} "Again." rust_md)]; links := [] |} in
  let '(r, y) := respond_approval demo_show demo_parse 5 demo_reader 7%N false (fst x) db in
  r = Err (Errors.Db "duplicate key value violates unique constraint") /\ shown y = (["pending"], [true; false]).
Proof. vm_compute. repeat split. Qed.
(** An alias of one page hides the page that has it as its slug. *)
Example alias_hides_a_page :
  let second := {| id := 5%N; tenant_id := 1%N; slug := "rustlang"; title := "Rustlang"; aliases := []; tags := []; type_ := "entity"; summary := "";
    reviewed := false; char_len := 0; body_ref := rust_md; source_ids := []; content_hash := ""; sync_version := 1; deleted := false |} in
  id <$> find_first (fun r => live 1%N r && named "rustlang" r) [demo_row; second] = Some 1%N.
Proof. vm_compute. reflexivity. Qed.


(** Another tenant's page, job and proposal do not show. *)
Definition other_page : PageRow :=
  {| id := 5%N; tenant_id := 2%N; slug := "rust"; title := "Oxide"; aliases := []; tags := []; type_ := "entity"; summary := ""; reviewed := false;
     char_len := 0; body_ref := rust_md; source_ids := []; content_hash := ""; sync_version := 1; deleted := false |}.
Definition alone : Tables := {| t_approvals := []; t_jobs := []; t_ledger := []; t_wiki := one_page |}.
Definition crowded : Tables := {|
  t_approvals := fst (propose demo_show 0 8%N 2%N 3%N "lint" (WikiDelete 5%N) [] one_page); t_jobs := Jobs.demo_table; t_ledger := [];
  t_wiki := {| pages := [other_page; demo_row]; links := [] |} |}.
Lemma tenant_sees_own_witness :
  let read t := @WikiRoutes.page Files files_os demo_show (fun _ _ => true) (fun _ => 0) (fun _ => Null) ["data"] demo_reader "rust" (t_wiki t) demo_files in
  read crowded = read alone /\ exists v, read alone = Ok v.
Proof.
  destruct (@tenant_sees_own Files files_os demo_show demo_parse (fun _ _ => true) (fun _ => 0) (fun _ => Null) (fun _ => "") (fun _ => Err "") (fun _ => "")
    ["data"] demo_reader crowded alone demo_files demo_files ltac:(constructor; vm_compute; reflexivity) (fun _ => eq_refl) (fun _ _ _ _ => eq_refl))
    as (_ & _ & _ & _ & _ & H & _).
  split; [exact (H "rust")|]. eexists. vm_compute. reflexivity.
Defined.
