(* ===== verification/DreamJob.v ===== *)
(** * The dream as a job

    [Agent]: [ideas/src/dream/agent.rs] with the prompt of [wiki/src/prompts/consolidation.rs]: one turn of
    the model behind the seam of Drive.v. [Handler]: [app-server/src/dream/mod.rs], which drives the agent
    through the scheduler of Dream.v and reports on a stream of Hub.v. [Cron]:
    [app-server/src/dream/scheduler.rs], which queues such jobs, and the manual run of
    [app-server/src/dream/routes.rs]. The token of a run is never cancelled; what stands for a cancelled run
    in the scheduler here is one whose task panicked, which leaves the lock as that does. *)
From S2P Require Import Prelude RustStr Json Protocol Fence Classify Pool Providers Transports Turn HttpClient Dispatch Jobs Dream WikiText Wiki Extract Server Cost Ideas Ingest Identity Auth Vault Settings Route Recall Query Drive Hub Activity.
From stdpp Require Import list pretty gmap.
Import Paths Toggles Routes Chain Seam Hub.Envelope Hub.Hub.

#[local] Open Scope string_scope.
#[local] Open Scope list_scope.
#[local] Open Scope Z_scope.

(** ** The agent *)
Module Agent.
Definition lines (l : list string) : string := Str.join Str.lf l.
(* src/qcue-rs/wiki/src/prompts/consolidation.rs 13-39 build_consolidation_prompt *)
Definition build_consolidation_prompt (extra : string) : string :=
  let dash := IndexGen.dash in
  lines ["You are performing a dream" +:+ dash +:+ "a reflective pass over your wiki. Synthesize what you've learned recently into durable, well-organized pages so future sessions can orient quickly.";
    ""; "The wiki layout is: entities/ concepts/ sources/ index.md log.md, plus daily logs logs/YYYY/MM/DD.md.";
    ""; "## Phase 1" +:+ dash +:+ "Orient (read-only)";
    "- ls the wiki root; read index.md to understand the current catalog.";
    "- Skim existing entity/concept/source pages so you improve them rather than creating duplicates.";
    "- Review recent logs/YYYY/MM/* entries.";
    ""; "## Phase 2" +:+ dash +:+ "Gather recent signal (read-only)";
    "- Scan daily logs + new captures since the clock; note facts that drifted or contradict what's now true.";
    "- Use the recall_search tool with narrow terms YOU choose (then read_page / read_lines to follow up) over the capture-log/transcript JSONL. Don't exhaustively read; look only for things you already suspect matter.";
    ""; "## Phase 3" +:+ dash +:+ "Consolidate (propose writes)";
    "- Merge new signal into existing pages rather than near-duplicates.";
    "- Convert relative dates (" +:+ ToolPolicy.in_quotes "yesterday" +:+ ") to absolute dates so they stay interpretable.";
    "- Delete/fix contradicted facts" +:+ dash +:+ "fix at the source page."; Factory.UNIVERSAL_LINK_CONSTRAINTS;
    ""; "## Phase 4" +:+ dash +:+ "Prune and index (propose writes)";
    "- Rewrite index.md so it stays under 200 lines AND under ~25KB. It's an index, not a dump" +:+ dash +:+ "one line per entry under ~150 characters: `- [[Title]]" +:+ dash +:+ "one-line hook`.";
    "- Remove stale/superseded pointers; demote any index line over ~200 characters into the topic page.";
    "- Add pointers to newly important pages; resolve contradictions by fixing the wrong page.";
    "- Append a log.md / daily-log entry of what changed.";
    ""; "Return a brief summary of what you consolidated, updated, or pruned. If nothing changed, say so.";
    ""; "## Additional context"; extra; ""].

(** The values after a key, each between the next two quotes. *)
Fixpoint values_of (fuel : nat) (key rest : string) : list string :=
  match fuel with
  | O => []
  | S fuel =>
      match Str.find key rest with
      | None => []
      | Some i =>
          let rest := Str.drop (i + String.length key) rest in
          match Str.find Str.quote rest with
          | None => []
          | Some open =>
              let after := Str.drop (S open) rest in
              match Str.find Str.quote after with
              | None => []
              | Some close => Str.take close after :: values_of fuel key (Str.drop (S close) after)
              end
          end
      end
  end.
(** What stands between double brackets. *)
Fixpoint links_of (fuel : nat) (rest : string) : list string :=
  match fuel with
  | O => []
  | S fuel =>
      match Str.find "[[" rest with
      | None => []
      | Some i =>
          let rest := Str.drop (i + 2) rest in
          match Str.find "]]" rest with
          | None => []
          | Some j => Str.take j rest :: links_of fuel (Str.drop (j + 2) rest)
          end
      end
  end.
(** The targets a reply names, in the order they are looked for. *)
Definition named_targets (content : string) : list string :=
  let fuel := S (String.length content) in
  (["rel"; "path"; "slug"] ≫= fun k => values_of fuel (ToolPolicy.in_quotes k) content) ++ links_of fuel content.

Section Agent.
Context {F : Type} `{Os F}.
Definition touch (vault_root : Path) (f : F) (out : list string) (raw : string) : list string :=
  let cand := Str.trim raw in
  if String.eqb cand "" then out
  else
    let rel := if Str.ends_with ".md" cand then cand else cand +:+ ".md" in
    match resolve_in_root vault_root rel 1000000 f with
    | Ok _ => if bool_decide (rel ∈ out) then out else out ++ [rel]
    | Err _ => out
    end.
(* src/qcue-rs/ideas/src/dream/agent.rs 171-214 collect_files_touched *)
Definition collect_files_touched (vault_root : Path) (content : string) (f : F) : list string :=
  foldl (touch vault_root f) [] (named_targets content).

(* src/qcue-rs/ideas/src/dream/agent.rs 128-137 propose_write *)
Definition propose_write (vault_root : Path) (rel : string) (f : F) : result PathError unit :=
  result_map (fun _ => tt) (resolve_in_root vault_root rel 1000000 f).
End Agent.
(* src/qcue-rs/ideas/src/dream/agent.rs 113-123 propose_merge *)
Definition propose_merge (uuid_text : Uuid -> string) (i tenant user from into : Uuid) (approvals : list Approvals.Approval) (db : Repo.Db) :
  list Approvals.Approval * Repo.Db :=
  Approvals.route_destructive uuid_text i tenant user "dream" (Approvals.WikiMerge from into) approvals db.

(* src/qcue-rs/ideas/src/dream/agent.rs 47-49 tool_policy *)
Definition tool_policy : ToolPolicy.ToolPolicy := ToolPolicy.build_tool_policy true false.
(** [show_time]: [DateTime] in its [Display]. *)
(* src/qcue-rs/ideas/src/dream/agent.rs 68-95 run *)
Definition dream_request (show_time : Z -> string) (since : Z) : Factory.WikiReq := {|
  Factory.stable_prefix := "You are the QCue Dream consolidation agent (read-only fork).";
  Factory.messages := [text_message User (Some (build_consolidation_prompt
    ("Tools are READ-ONLY except propose_edit/propose_write (which route through confirm). Sessions since: " +:+ show_time since)))];
  Factory.response_format := None; Factory.max_tokens := 4096; Factory.cache_breakpoint := Some 1; Factory.disable_thinking := false |}.
End Agent.
Import Agent.

(** ** The handler *)
Module Handler.
Section Handler.
Context `{J : Json} `{U : Unicode} `{HA : Vault.Envelope.Aead} {F N : Type} `{O : Os F} `{Out : Outside N}.
Context (env : EnvVars) (uuid_text : Uuid -> string) (parse_uuid : string -> option Uuid) (kms : Vault.Envelope.Kms) (text_le : string -> string -> bool).
Context (fts ilike : string -> string -> bool) (rank_ge similar_ge : string -> string -> string -> bool).
Context (url_parse : string -> option HttpClient.Ssrf.Url) (parse_http_date : string -> option Z).
Context (web : (string -> N -> result string string * N) * (string -> N -> result string string * N)).
(** [now()] of the database, [Utc::now()] and [Instant::now()], read; a time in its [Display]. *)
Context (db_clock utc_clock instant_clock : N -> Z) (show_time : Z -> string).

(** One run: the ceiling, one turn, the targets its answer names. A panic is on record in the world. *)
(* src/qcue-rs/ideas/src/dream/agent.rs 54-107 run *)
Definition agent_run (llm : @RouterWikiLlm F N) (vault_root : Path) (tenant user : Uuid) (since : Z) (w : @World F N) :
  result string DreamOutcome * @World F N :=
  let '(today, w) := on_net db_today w in
  match Guard.check_before_call today tenant user (w_ledger w) with
  | Err e => (Err (Ingest.cost_text e), w)
  | Ok _ =>
      match create_message env uuid_text kms text_le fts ilike rank_ge similar_ge url_parse parse_http_date web llm tenant
              (dream_request show_time since) w with
      | None => (Err "", crash w)
      | Some (Err e, w) => (Err (Ingest.llm_text e), w)
      | Some (Ok resp, w) =>
          (Ok {| files_touched := collect_files_touched vault_root (Analyzer.resp_content resp) (w_files w); turns := 1 |}, w)
      end
  end.

(** The pool is the world, beside the consolidation rows. *)
(* src/qcue-rs/app-server/src/dream/mod.rs 35-45 DreamHandler *)
Record DreamHandler : Type := { vault_root_base : Path; llm : @RouterWikiLlm F N; progress : bool }.
(* src/qcue-rs/app-server/src/dream/mod.rs 59-63 with_stub_harness *)
Definition with_stub_harness (base : Path) (reply : string) : DreamHandler :=
  {| vault_root_base := base; llm := stub reply; progress := false |}.
(* src/qcue-rs/app-server/src/dream/mod.rs 68-80 live *)
Definition live (base : Path) (stub_reply : string) : DreamHandler :=
  {| vault_root_base := base; llm := live_with_tools (ToolPolicy.tools tool_policy) stub_reply; progress := false |}.
(* src/qcue-rs/app-server/src/dream/mod.rs 53-56 with_progress *)
Definition with_progress (h : DreamHandler) : DreamHandler :=
  {| vault_root_base := vault_root_base h; llm := llm h; progress := true |}.

Record Desk : Type := { dk_pg : Pg (@World F N); dk_hub : StreamHub }.
(* src/qcue-rs/app-server/src/dream/mod.rs 84-97 emit *)
Definition emit (h : DreamHandler) (job_id : Uuid) (event : string) (payload : Value) (d : Desk) : Desk :=
  if progress h then {| dk_pg := dk_pg d; dk_hub := emits job_id [(event, payload)] (dk_hub d) |} else d.
Definition set_files (f : F) (w : @World F N) : @World F N := {|
  w_creds := w_creds w; w_kv := w_kv w; w_ledger := w_ledger w; w_ideas := w_ideas w; w_files := f;
  w_net := w_net w; w_chain := w_chain w; w_calls := w_calls w; w_crashed := w_crashed w |}.
Definition root_of (h : DreamHandler) (tenant : Uuid) : Path := Paths.join (vault_root_base h) ("t/" +:+ uuid_text tenant +:+ "/u/_").
(* src/qcue-rs/app-server/src/dream/mod.rs 100-104 vault_root *)
Definition vault_root (h : DreamHandler) (tenant : Uuid) (d : Desk) : Path * Desk :=
  let root := root_of h tenant in
  let w := others (dk_pg d) in
  (root, {| dk_pg := {| rows := rows (dk_pg d); others := set_files (snd (create_dir_all (Paths.join root "entities") (w_files w))) w |};
            dk_hub := dk_hub d |}).

Definition payload_uuid (key : string) (job : Jobs.JobContext) : option Uuid :=
  (Json.get key (Jobs.ctx_payload job) ≫= Json.as_str) ≫= parse_uuid.
Definition improved (o : DreamOutcome) : list (string * Value) :=
  [("files_touched", texts (files_touched o)); ("improved_pages", integer (Z.of_nat (length (files_touched o)))); ("turns", integer (turns o))].
Definition not_dreamed : Value := obj [("dreamed", Bool false)].

(** The scheduler of a job is a new one: it has scanned nothing. *)
Definition scheduled (h : DreamHandler) (root : Path) (tenant user session : Uuid) (s : Pg (@World F N)) :
  result string (option DreamOutcome) * Pg (@World F N) :=
  let '(r, _, s) := pg_try_dream (fun w => db_clock (w_net w)) (fun w => utc_clock (w_net w)) (fun w => instant_clock (w_net w))
    (fun _ => env "DREAM_ENABLED") w_crashed
    (fun t since me w => (Ok (IdeasRepo.captures_since t since me (w_ideas w)), w)) (agent_run (llm h) root)
    dream_config_default ∅ tenant user session s in (r, s).

(** [fresh]: [Uuid::now_v7()], for a payload without a session. [None]: a panic. *)
(* src/qcue-rs/app-server/src/dream/mod.rs 109-169 handle *)
Definition handle (h : DreamHandler) (fresh : Uuid) (job : Jobs.JobContext) (d : Desk) : option (result string Value) * Desk :=
  let tenant := Jobs.ctx_tenant job in
  match payload_uuid "user_id" job with
  | None => (Some (Err "dream payload missing user_id"), d)
  | Some user =>
      let session := unwrap_or (payload_uuid "current_session" job) fresh in
      let d := emit h (Jobs.ctx_id job) "dream_started" (obj [("tenant", String_ (uuid_text tenant))]) d in
      let '(root, d) := vault_root h tenant d in
      let '(r, s) := scheduled h root tenant user session (dk_pg d) in
      let d := {| dk_pg := s; dk_hub := dk_hub d |} in
      if w_crashed (others s) then (None, d)
      else match r with
           | Ok (Some o) =>
               (Some (Ok (obj (("dreamed", Bool true) :: improved o))), emit h (Jobs.ctx_id job) "dream_completed" (obj (improved o)) d)
           | Ok None => (Some (Ok not_dreamed), emit h (Jobs.ctx_id job) "dream_completed" not_dreamed d)
           | Err e => (Some (Err e), emit h (Jobs.ctx_id job) "dream_failed" (obj [("error", String_ e)]) d)
           end
  end.
End Handler.
End Handler.
Import Handler.

(** ** The cron and the manual run *)
Module Cron.
(* src/qcue-rs/app-server/src/dream/scheduler.rs 23-23 TICK *)
Definition TICK : Z := 60.
(** The columns the query reads. *)
Record TenantRow : Type := { td_id : Uuid; td_dream_enabled : bool }.
Record UserRow : Type := { ud_id : Uuid; ud_tenant : Uuid; ud_created : Z }.
Fixpoint distinct_on (previous : option Uuid) (l : list UserRow) : list UserRow :=
  match l with
  | [] => []
  | u :: l => if bool_decide (previous = Some (ud_tenant u)) then distinct_on previous l else u :: distinct_on (Some (ud_tenant u)) l
  end.
Definition user_le (a b : UserRow) : bool :=
  (ud_tenant a <? ud_tenant b)%N || (N.eqb (ud_tenant a) (ud_tenant b) && (ud_created a <=? ud_created b)).
(* src/qcue-rs/app-server/src/dream/scheduler.rs 43-55 active_tenants *)
Definition active_tenants (tenants : list TenantRow) (users : list UserRow) : list (Uuid * Uuid) :=
  (fun u => (ud_tenant u, ud_id u)) <$>
  distinct_on None (sort_by user_le
    (List.filter (fun u => existsb (fun t => N.eqb (td_id t) (ud_tenant u) && td_dream_enabled t) tenants) users)).

Section Cron.
Context {W : Type} (pg_text : Value -> string) (uuid_text : Uuid -> string).
(** The clocks, read; [DREAM_ENABLED]; [Uuid::now_v7()]. *)
Context (db_clock utc_clock instant_clock : W -> Z) (env_var : option string) (now_v7 : W -> Uuid * W).
Record State : Type := { locks : Pg W; jobs : Jobs.Table }.
Definition fresh (s : State) : Uuid * State :=
  let '(u, w) := now_v7 (others (locks s)) in (u, {| locks := {| rows := rows (locks s); others := w |}; jobs := jobs s |}).
Definition dream_ref (tenant : Uuid) : string := "dream:" +:+ uuid_text tenant.
Definition due (tenant : Uuid) (s : State) : result string bool :=
  fst (dream_due (H := PgConsolidationLock db_clock) (fun s => utc_clock (others s)) (fun s => instant_clock (others s)) (fun _ => env_var)
         dream_config_default ∅ tenant (locks s)).
(** One tenant that is due; a queue that refuses is left as it was. *)
Definition enqueue_dream (tenant user : Uuid) (s : State) : bool * State :=
  let '(session, s) := fresh s in
  let '(i, s) := fresh s in
  let payload := obj [("current_session", String_ (uuid_text session)); ("user_id", String_ (uuid_text user))] in
  match Jobs.enqueue pg_text (db_clock (others (locks s))) tenant i tenant (Some user) Jobs.Dream payload (Some (dream_ref tenant)) (jobs s) with
  | (Ok _, t) => (true, {| locks := locks s; jobs := t |})
  | (Err _, _) => (false, s)
  end.
Fixpoint tick_tenants (l : list (Uuid * Uuid)) (n : Z) (s : State) : result string Z * State :=
  match l with
  | [] => (Ok n, s)
  | (tenant, user) :: l =>
      match due tenant s with
      | Err e => (Err e, s)
      | Ok false => tick_tenants l n s
      | Ok true => let '(queued, s) := enqueue_dream tenant user s in tick_tenants l (if queued then n + 1 else n) s
      end
  end.
(* src/qcue-rs/app-server/src/dream/scheduler.rs 59-94 tick_once *)
Definition tick_once (dream_enabled : bool) (tenants : list TenantRow) (users : list UserRow) (s : State) : result string Z * State :=
  if dream_enabled then tick_tenants (active_tenants tenants users) 0 s else (Ok 0, s).

(* src/qcue-rs/app-server/src/dream/routes.rs 20-36 run *)
Definition run_manual (ctx : TenantCtx) (s : State) : result Errors.ApiError Value * State :=
  let '(session, s) := fresh s in
  let '(i, s) := fresh s in
  let payload := obj [("current_session", String_ (uuid_text session)); ("manual", Bool true); ("user_id", String_ (uuid_text (ctx_user ctx)))] in
  match Jobs.enqueue pg_text (db_clock (others (locks s))) (ctx_tenant ctx) i (ctx_tenant ctx) (Some (ctx_user ctx)) Jobs.Dream payload
          (Some "dream:manual") (jobs s) with
  | (Ok job, t) => (Ok (obj [("job_id", String_ (uuid_text job))]), {| locks := locks s; jobs := t |})
  | (Err _, _) => (Err Errors.Overloaded, s)
  end.
End Cron.
End Cron.
Import Cron.

(** ** What a dream job reports *)

Lemma resolved_name {F} `{Os F} root rel f p : resolve_in_root root rel 1000000 f = Ok p -> Str.ends_with ".md" rel = true.
Proof. unfold resolve_in_root. case_match; [done|]. destruct (Str.ends_with ".md" rel); [done|]. intros [=]. Qed.

(** The targets reported are distinct and lie below the root. *)
Definition below {F} `{Os F} (root : Path) (f : F) (rel : string) : Prop := is_ok (resolve_in_root root rel 1000000 f) = true.
Lemma collected {F} `{Os F} (root : Path) (content : string) (f : F) :
  NoDup (collect_files_touched root content f) /\ Forall (below root f) (collect_files_touched root content f).
Proof.
  unfold collect_files_touched. assert (forall l out, NoDup out -> Forall (below root f) out ->
    NoDup (foldl (touch root f) out l) /\ Forall (below root f) (foldl (touch root f) out l)) as Hx; [|apply Hx; constructor].
  induction l as [|raw l IH]; intros out Hn Hb; [done|]. cbn [foldl]. apply IH; unfold touch; case_match; try done;
    set (rel := if Str.ends_with ".md" (Str.trim raw) then _ else _); destruct (resolve_in_root root rel 1000000 f) eqn:Hr; try done;
    case_bool_decide as Hin; try done.
  - apply NoDup_app. split_and!; [done| |by apply NoDup_singleton]. by intros x Hx ->%list_elem_of_singleton.
  - apply Forall_app_2'; [done|]. constructor; [|constructor]. unfold below. by rewrite Hr.
Qed.

Section Reports.
Context `{J : Json} `{U : Unicode} `{HA : Vault.Envelope.Aead} {F N : Type} `{O : Os F} `{Out : Outside N}.
Context (env : EnvVars) (uuid_text : Uuid -> string) (parse_uuid : string -> option Uuid) (kms : Vault.Envelope.Kms) (text_le : string -> string -> bool).
Context (fts ilike : string -> string -> bool) (rank_ge similar_ge : string -> string -> string -> bool).
Context (url_parse : string -> option HttpClient.Ssrf.Url) (parse_http_date : string -> option Z).
Context (web : (string -> N -> result string string * N) * (string -> N -> result string string * N)).
Context (db_clock utc_clock instant_clock : N -> Z) (show_time : Z -> string).
#[local] Abbreviation agent_run := (agent_run env uuid_text kms text_le fts ilike rank_ge similar_ge url_parse parse_http_date web show_time).
#[local] Abbreviation scheduled := (scheduled env uuid_text kms text_le fts ilike rank_ge similar_ge url_parse parse_http_date web db_clock utc_clock instant_clock show_time).
#[local] Abbreviation handle := (handle env uuid_text parse_uuid kms text_le fts ilike rank_ge similar_ge url_parse parse_http_date web db_clock utc_clock instant_clock show_time).

(** Whoever stores a key seals it with a nonce of the right length. *)
Hypothesis others_sound : forall tenant n c l, sound_keys tenant c -> sound_keys tenant (fst (fst (db_others n (c, l)))).

(** What a run leaves of the world: no panic, the captures and files as they were. *)
Record unharmed (tenant : Uuid) (ideas : list IdeaRow) (f : F) (w : @World F N) : Prop := {
  un_crashed : w_crashed w = false;
  un_keys : sound_keys tenant (w_creds w);
  un_ideas : w_ideas w = ideas;
  un_files : w_files w = f;
}.
Lemma agent_run_unharmed m reply root tenant user since w ideas f : source m = PerTenant reply ->
  unharmed tenant ideas f w -> unharmed tenant ideas f (snd (agent_run m root tenant user since w)).
Proof.
  intros Hm [H1 H2 H3 H4]. unfold Handler.agent_run, on_net. destruct (db_today (w_net w)) as [today n].
  destruct (Guard.check_before_call _ _ _ _) as [[]|e]; [|by constructor]. unfold create_message.
  destruct (harmless_drive env uuid_text kms text_le fts ilike rank_ge similar_ge url_parse parse_http_date web tenant (others_sound tenant) m (dream_request show_time since) false
    no_override (set_net n w) reply Hm H2 H1) as (r & evs & w' & -> & E1 & E2 & E3 & E4).
  cbn in E1, E2 |- *. destruct r as [[resp u]|e]; cbn; constructor; congruence || done.
Qed.
Lemma agent_run_outcome m root tenant user since w o w' ideas f reply : source m = PerTenant reply -> unharmed tenant ideas f w ->
  agent_run m root tenant user since w = (Ok o, w') -> exists content, o = {| files_touched := collect_files_touched root content f; turns := 1 |}.
Proof.
  intros Hm Hw Hr. pose proof (agent_run_unharmed m reply root tenant user since w ideas f Hm Hw) as Hw'. rewrite Hr in Hw'. cbn in Hw'. revert Hr.
  unfold Handler.agent_run, on_net. destruct (db_today (w_net w)) as [today n].
  destruct (Guard.check_before_call _ _ _ _) as [[]|e]; [|done].
  destruct (create_message env uuid_text kms text_le fts ilike rank_ge similar_ge url_parse parse_http_date web m tenant (dream_request show_time since)
    (set_net n w)) as [[[resp|e] w1]|]; [|done..].
  intros [= <- <-]. eexists. by rewrite (un_files _ _ _ _ Hw').
Qed.

Lemma emit_pg h j e p (d : @Desk F N) : dk_pg (emit h j e p d) = dk_pg d.
Proof. unfold emit. by case_match. Qed.
Lemma emit_both h j e1 p1 e2 p2 (d : @Desk F N) pg o c l k : progress h = true ->
  holds j o c l k (dk_hub d) -> 0 <= k -> k + 2 <= Int.u64_max ->
  log_of (dk_hub (emit h j e2 p2 {| dk_pg := pg; dk_hub := dk_hub (emit h j e1 p1 d) |})) c = l ++ numbered j k [(e1, p1); (e2, p2)].
Proof.
  intros Hp Hh H0 Hk. unfold emit. rewrite Hp. cbn [dk_hub].
  change (emits j [(e2, p2)] (emits j [(e1, p1)] (dk_hub d))) with (emits j [(e1, p1); (e2, p2)] (dk_hub d)).
  destruct (emits_holds j o c l k [(e1, p1); (e2, p2)] _ Hh H0 Hk) as [_ Hl]. unfold log_of. by rewrite Hl.
Qed.

(** The result of a job, and the event that ends its stream. *)
Definition ending_of (r : result string Value) : string * (Value -> Prop) :=
  match r with
  | Ok v => ("dream_completed", fun p => p = v \/ exists o, v = obj (("dreamed", Bool true) :: improved o) /\ p = obj (improved o))
  | Err e => ("dream_failed", fun p => p = obj [("error", String_ e)])
  end.

(** C12: a dream job with a user always ends with a result, and its stream shows its start and then its end, as
    completed or failed, once each, in order. It reports that it dreamed only if it took the lease of its
    tenant, moved the clock and freed it, and then names distinct files below the root of the tenant; if it
    did not dream the rows are as they were, and if it failed the clock is. It changes no capture, the only
    files it makes are the folders of the root, and it leaves the rows of other tenants alone. *)
Theorem dream_reported (h : @DreamHandler F N) (fresh : Uuid) (job : Jobs.JobContext) (d : @Desk F N) (user : Uuid) (reply : string)
  (Hlive : source (llm h) = PerTenant reply) (Hkeys : sound_keys (Jobs.ctx_tenant job) (w_creds (others (dk_pg d))))
  (Hup : w_crashed (others (dk_pg d)) = false) (Huser : payload_uuid parse_uuid "user_id" job = Some user) :
  let tenant := Jobs.ctx_tenant job in
  let root := root_of uuid_text h tenant in
  let files := snd (create_dir_all (Paths.join root "entities") (w_files (others (dk_pg d)))) in
  exists r d', handle h fresh job d = (Some r, d') /\
    unharmed tenant (w_ideas (others (dk_pg d))) files (others (dk_pg d')) /\
    (forall u, u <> tenant -> rows (dk_pg d') !! u = rows (dk_pg d) !! u) /\
    match r with
    | Ok v => (v = not_dreamed /\ rows (dk_pg d') = rows (dk_pg d)) \/
        exists o row acq, v = obj (("dreamed", Bool true) :: improved o) /\ turns o = 1 /\
          NoDup (files_touched o) /\ Forall (below root files) (files_touched o) /\
          rows (dk_pg d) !! tenant = Some row /\ lease_free acq row = true /\
          rows (dk_pg d') !! tenant = Some (released (acquired acq "dream-worker" row))
    | Err _ => clock_of (rows (dk_pg d') !! tenant) = clock_of (rows (dk_pg d) !! tenant)
    end /\
    (progress h = true -> exists p, snd (ending_of r) p /\ forall o c l k, holds (Jobs.ctx_id job) o c l k (dk_hub d) -> 0 <= k -> k + 2 <= Int.u64_max ->
       log_of (dk_hub d') c = l ++ numbered (Jobs.ctx_id job) k
         [("dream_started", obj [("tenant", String_ (uuid_text tenant))]); (fst (ending_of r), p)]).
Proof.
  cbv zeta. set (tenant := Jobs.ctx_tenant job). set (root := root_of uuid_text h tenant). unfold Handler.handle. rewrite Huser. cbn [fst snd].
  fold tenant. set (start := ("dream_started", obj [("tenant", String_ (uuid_text tenant))])). unfold Handler.vault_root. fold root.
  set (files := snd (create_dir_all (Paths.join root "entities") (w_files (others (dk_pg d))))).
  rewrite emit_pg. cbn [dk_pg dk_hub]. fold files. set (s := {| rows := rows (dk_pg d); others := _ |}).
  assert (unharmed tenant (w_ideas (others (dk_pg d))) files (others s)) as Hs by by constructor.
  set (session := unwrap_or _ fresh). unfold Handler.scheduled.
  set (run := pg_try_dream _ _ _ _ _ _ _ dream_config_default ∅ tenant user session).
  pose proof (try_dream_clock (fun w => db_clock (w_net w)) (fun w => utc_clock (w_net w)) (fun w => instant_clock (w_net w)) (fun _ => env "DREAM_ENABLED")
    w_crashed (fun t since me w => (Ok (IdeasRepo.captures_since t since me (w_ideas w)), w)) (agent_run (llm h) root) dream_config_default ∅ tenant user session s) as Hclock.
  pose proof (pg_try_dream_ran (fun w => db_clock (w_net w)) (fun w => utc_clock (w_net w)) (fun w => instant_clock (w_net w)) (fun _ => env "DREAM_ENABLED")
    w_crashed (fun t since me w => (Ok (IdeasRepo.captures_since t since me (w_ideas w)), w)) (agent_run (llm h) root) dream_config_default ∅ tenant user session s) as Hran.
  fold run in Hclock, Hran. destruct (run s) as [[r sc] s'] eqn:Hrun.
  destruct Hran as [Hout Hkeep]. specialize (Hkeep (unharmed tenant (w_ideas (others (dk_pg d))) files) Hs).
  assert (unharmed tenant (w_ideas (others (dk_pg d))) files (others s')) as Hs'.
  { apply Hkeep; [done|]. intros since w Hw. by apply agent_run_unharmed with reply. }
  cbn [dk_hub dk_pg]. rewrite (un_crashed _ _ _ _ Hs'). destruct Hclock as [Hothers Hclock].
  destruct r as [[o|]|e]; eexists _, _; (split; [reflexivity|]); rewrite emit_pg; (split; [exact Hs'|]); (split; [exact Hothers|]); cbn [dk_pg]; split.
  - right. destruct (Hout o eq_refl) as (since & w & Hrun' & Hw).
    destruct Hclock as (row & acq & H1 & H2 & H3 & _). exists o, row, acq.
    assert (exists content, o = {| files_touched := collect_files_touched root content files; turns := 1 |}) as [content ->].
    { eapply agent_run_outcome; [exact Hlive| |exact Hrun']. by apply (Hw (unharmed tenant (w_ideas (others (dk_pg d))) files)). }
    destruct (collected root content files). by split_and!.
  - intros Hp. eexists. split; [right; by exists o|]. intros. by eapply emit_both.
  - left. split; [done|]. destruct Hclock as [Hr|[Hc _]]; [exact Hr|]. by rewrite (un_crashed _ _ _ _ Hs') in Hc.
  - intros Hp. eexists. split; [by left|]. intros. by eapply emit_both.
  - apply Hclock.
  - intros Hp. eexists. split; [done|]. intros. by eapply emit_both.
Qed.
End Reports.

(** ** What the cron queues *)
Section CronProps.
Context {W : Type} (pg_text : Value -> string) (uuid_text : Uuid -> string).
Context (db_clock utc_clock instant_clock : W -> Z) (env_var : option string) (now_v7 : W -> Uuid * W).
#[local] Abbreviation due := (due db_clock utc_clock instant_clock env_var).
#[local] Abbreviation enqueue_dream := (enqueue_dream pg_text uuid_text db_clock now_v7).
#[local] Abbreviation tick_tenants := (tick_tenants pg_text uuid_text db_clock utc_clock instant_clock env_var now_v7).
#[local] Abbreviation tick_once := (tick_once pg_text uuid_text db_clock utc_clock instant_clock env_var now_v7).

(** The jobs of the cron for a tenant that wait. *)
Definition waits (tenant : Uuid) : Jobs.Job -> bool := Jobs.debounces pg_text tenant tenant Jobs.Dream (dream_ref uuid_text tenant).
Lemma waits_tenant tenant j : waits tenant j = true -> Jobs.tenant_id j = tenant /\ Jobs.kind j = Jobs.Dream.
Proof.
  unfold waits, Jobs.debounces. intros [[[[_ Ht%N.eqb_eq]%andb_true_iff Hk%bool_decide_eq_true]%andb_true_iff _]%andb_true_iff _]%andb_true_iff. done.
Qed.

(** What one tenant adds to the queue. *)
Definition fresh_dream (tenant user : Uuid) (t : Jobs.Table) (j : Jobs.Job) : Prop :=
  waits tenant j = true /\ Jobs.user_id j = Some user /\ find_first (waits tenant) t = None.
Lemma enqueue_dream_spec tenant user (s : @State W) :
  let '(queued, s') := enqueue_dream tenant user s in
  rows (locks s') = rows (locks s) /\
  (jobs s' = jobs s \/ queued = true /\ exists j, jobs s' = jobs s ++ [j] /\ fresh_dream tenant user (jobs s) j).
Proof.
  unfold Cron.enqueue_dream, fresh. destruct (now_v7 _) as [session w]. cbn [others locks jobs rows].
  destruct (now_v7 w) as [i w']. cbn [others locks jobs rows].
  unfold Jobs.enqueue. destruct (Jobs.MAX_PENDING_PER_TENANT <=? _); [split; [done|by left]|]. cbn [mbind option_bind].
  change (Jobs.debounces pg_text tenant tenant Jobs.Dream (dream_ref uuid_text tenant)) with (waits tenant).
  destruct (find_first (waits tenant) (jobs s)) as [j|] eqn:Hf; [split; [done|by left]|].
  destruct (bool_decide _ || _); [split; [done|by left]|]. split; [done|]. right. split; [done|]. eexists. split; [done|]. split_and!; [|done..].
  unfold waits, Jobs.debounces, Jobs.rls. generalize (dream_ref uuid_text tenant). intros reff. cbn [Jobs.fresh_job Jobs.tenant_id Jobs.kind].
  rewrite !N.eqb_refl. transitivity (String.eqb reff reff); [reflexivity|apply String.eqb_refl].
Qed.

Lemma tick_tenants_spec l n (s : @State W) :
  exists n' s' new, tick_tenants l n s = (Ok n', s') /\ rows (locks s') = rows (locks s) /\ jobs s' = jobs s ++ new /\
    n + Z.of_nat (length new) <= n' <= n + Z.of_nat (length l) /\ NoDup (Jobs.tenant_id <$> new) /\
    Forall (fun j => exists user s0, (Jobs.tenant_id j, user) ∈ l /\ fresh_dream (Jobs.tenant_id j) user (jobs s) j /\
      rows (locks s0) = rows (locks s) /\ due (Jobs.tenant_id j) s0 = Ok true) new.
Proof.
  revert n s. induction l as [|[tenant user] l IH]; intros n s; cbn [Cron.tick_tenants].
  - exists n, s, []. rewrite app_nil_r. split_and!; (done || cbn; lia || constructor).
  - assert (exists b, due tenant s = Ok b) as [b Hd] by (unfold Cron.due, dream_due; cbn; case_match; by eexists).
    assert (forall s1 n1, rows (locks s1) = rows (locks s) -> n <= n1 <= n + 1 ->
      (jobs s1 = jobs s \/ n1 = n + 1 /\ exists j, jobs s1 = jobs s ++ [j] /\ due tenant s = Ok true /\ fresh_dream tenant user (jobs s) j) ->
      exists n' s' new, tick_tenants l n1 s1 = (Ok n', s') /\ rows (locks s') = rows (locks s) /\ jobs s' = jobs s ++ new /\
        n + Z.of_nat (length new) <= n' <= n + Z.of_nat (length ((tenant, user) :: l)) /\ NoDup (Jobs.tenant_id <$> new) /\
        Forall (fun j => exists u s0, (Jobs.tenant_id j, u) ∈ (tenant, user) :: l /\ fresh_dream (Jobs.tenant_id j) u (jobs s) j /\
          rows (locks s0) = rows (locks s) /\ due (Jobs.tenant_id j) s0 = Ok true) new) as Hx.
    { intros s1 n1 Hr Hn1 Hj. destruct (IH n1 s1) as (n' & s' & new & H1 & H2 & H3 & H4 & H5 & H6). rewrite Hr in H2, H6.
      destruct Hj as [Hj|(-> & j & Hj & Hdue & Hfresh)]; rewrite Hj in H3, H6.
      - exists n', s', new. split_and!; try done; [lia|cbn [length]; lia|]. eapply Forall_impl; [exact H6|].
        intros j (u & s0 & Hu & ?). exists u, s0. split; [by right|done].
      - exists n', s', (j :: new). rewrite H3, <- app_assoc. destruct Hfresh as (Hw & Hu & Hnone). pose proof (waits_tenant _ _ Hw) as [Ht _].
        assert (forall k u, fresh_dream (Jobs.tenant_id k) u (jobs s ++ [j]) k -> fresh_dream (Jobs.tenant_id k) u (jobs s) k /\ Jobs.tenant_id k <> tenant) as Hk.
        { intros k u (K1 & K2 & K3). rewrite find_first_app in K3. destruct (find_first (waits (Jobs.tenant_id k)) (jobs s)) eqn:Hq; [done|]. split; [by unfold fresh_dream; rewrite Hq|]. intros Hkt.
          rewrite Hkt in K3. cbn in K3. by rewrite Hw in K3. }
        split_and!; [done..|cbn [length]; lia|cbn [length]; lia| |].
        + cbn. constructor; [|done]. intros (k & Hkt & Hin)%list_elem_of_fmap. rewrite Forall_forall in H6. destruct (H6 _ Hin) as (u & _ & _ & Hf & _).
          destruct (Hk _ _ Hf) as [_ Hne]. congruence.
        + constructor; [|eapply Forall_impl; [exact H6|]].
          * exists user, s. rewrite Ht. split_and!; try done. by left.
          * intros k (u & s0 & Hu' & Hf & ?). exists u, s0. destruct (Hk _ _ Hf) as [Hf' _]. split_and!; try done; [by right|apply H..]. }
    rewrite Hd. destruct b.
    + pose proof (enqueue_dream_spec tenant user s) as He. destruct (enqueue_dream tenant user s) as [queued s1]. destruct He as [Hr Hj].
      destruct (Hx s1 (if queued then n + 1 else n) Hr) as (n' & s' & new & ?); [by case_match; lia| |by exists n', s', new].
      destruct Hj as [?|(-> & j & ? & ?)]; [by left|right]. split; [done|]. by exists j.
    + destruct (Hx s n eq_refl) as (n' & s' & new & ?); [lia|by left|by exists n', s', new].
Qed.

(** A tick of the cron never fails and never touches the lock or its clocks; it adds at most one job per
    tenant, only for active tenants whose clock is due and who have none waiting, on behalf of one of their
    users. The number it returns counts the waiting ones too. With the gate off it does nothing. *)
Theorem cron_queues_once (gate : bool) (tenants : list TenantRow) (users : list UserRow) (s : @State W) :
  exists n s' new, tick_once gate tenants users s = (Ok n, s') /\ rows (locks s') = rows (locks s) /\ jobs s' = jobs s ++ new /\
    Z.of_nat (length new) <= n <= Z.of_nat (length (active_tenants tenants users)) /\ NoDup (Jobs.tenant_id <$> new) /\
    (gate = false -> new = [] /\ s' = s) /\
    Forall (fun j => Jobs.kind j = Jobs.Dream /\ Jobs.state j = Jobs.Pending /\ find_first (waits (Jobs.tenant_id j)) (jobs s) = None /\
      exists user s0, Jobs.user_id j = Some user /\ (Jobs.tenant_id j, user) ∈ active_tenants tenants users /\
        rows (locks s0) = rows (locks s) /\ due (Jobs.tenant_id j) s0 = Ok true) new.
Proof.
  unfold Cron.tick_once. destruct gate; [|exists 0, s, []; rewrite app_nil_r; split_and!; (done || lia || constructor)].
  destruct (tick_tenants_spec (active_tenants tenants users) 0 s) as (n & s' & new & H1 & H2 & H3 & H4 & H5 & H6).
  exists n, s', new. split_and!; try done; [lia..|]. eapply Forall_impl; [exact H6|].
  intros j (user & s0 & Hin & (Hw & Hu & Hn) & Hr & Hd). pose proof (waits_tenant _ _ Hw) as [_ Hk]. split_and!; [done| |done|by exists user, s0].
  unfold waits, Jobs.debounces in Hw. apply andb_true_iff in Hw as [[_ Hp]%andb_true_iff _]. by apply bool_decide_eq_true in Hp.
Qed.
End CronProps.

(** ** Concrete dreams *)

Definition names_two : string :=
  "I propose_write {" +:+ ToolPolicy.in_quotes "rel" +:+ ": " +:+ ToolPolicy.in_quotes "alpha.md" +:+ "} and {" +:+ ToolPolicy.in_quotes "slug" +:+ ": "
  +:+ ToolPolicy.in_quotes "beta" +:+ "}. Also touched [[gamma]] and [[alpha]]. Rejected: {" +:+ ToolPolicy.in_quotes "path" +:+ ": " +:+ ToolPolicy.in_quotes "../escape.md" +:+ "}.".
Example targets_of_the_tests :
  collect_files_touched demo_root names_two demo_files = ["alpha.md"; "beta.md"; "gamma.md"] /\
  collect_files_touched demo_root "Just a plain summary with no proposals." demo_files = [].
Proof. vm_compute. done. Qed.
(** A page that is only mentioned counts as improved, under a name it does not have. *)
Example mentioned_is_improved :
  collect_files_touched demo_root "Nothing changed; [[rust|Rust]] is fine." demo_files = ["rust|Rust.md"].
Proof. vm_compute. done. Qed.

(** A dream in the world of [demo_drive]: six captures since the clock of its row, two days by the server's
    clock. *)
Definition dream_capture (i : N) : IdeaRow := {|
  i_id := i; i_tenant := 1%N; i_user := 2%N; i_kind := "text"; i_body := ""; i_source_url := None; i_log_ref := "";
  i_provider := None; i_state := Ideas.Pending; i_job := None; i_origin := "app"; i_captured_at := 5;
  i_active := true; i_updated_at := 0; i_last_ingested := None; i_idem := None; i_lat := None; i_lng := None; i_accuracy := None |}.
Definition dream_world : @World Files Replies := {|
  w_creds := w_creds demo_world; w_kv := []; w_ledger := w_ledger demo_world; w_ideas := dream_capture <$> (N.of_nat <$> List.seq 20 6);
  w_files := demo_files; w_net := demo_replies; w_chain := chain_new []; w_calls := []; w_crashed := false |}.
Definition parse_user (s : string) : option Uuid := if String.eqb s "other" then Some 2%N else None.
Definition dream_job (manual : bool) : Jobs.JobContext := {|
  Jobs.ctx_id := 9%N; Jobs.ctx_tenant := 1%N; Jobs.ctx_kind := Jobs.Dream;
  Jobs.ctx_payload := obj [("manual", Bool manual); ("user_id", String_ (demo_text 2%N))]; Jobs.ctx_attempt := 1 |}.
Definition dream_desk (clock : option Z) : @Desk Files Replies := {|
  dk_pg := {| rows := {[ 1%N := {| last_consolidated_at := clock; holder := None; lease_expires := None; last_scan_at := None;
                                   sessions_since_last := 0; rollback_count := 0 |} ]}; others := dream_world |};
  dk_hub := snd (subscribe 1%N 9%N hub_new) |}.
Definition two_days : Z := 172800000000.
Definition demo_dream (manual : bool) (clock : option Z) :=
  @handle answer_json ascii_only Vault.Toy.toy_aead Files Replies files_os replies_outside demo_env demo_text parse_user Vault.Envelope.StubKms (fun _ _ => true)
    (fun _ _ => false) (fun _ _ => false) (fun _ _ _ => false) (fun _ _ _ => false) (fun _ => None) (fun _ => None)
    (fun _ n => (Err "off", n), fun _ n => (Err "off", n)) (fun _ => two_days) (fun _ => two_days) (fun _ => 0) (fun _ => "1970-01-01")
    (with_progress (Handler.live demo_root "stub")) 30%N (dream_job manual) (dream_desk clock).
Definition dream_events (d : @Desk Files Replies) : list string := event <$> log_of (dk_hub d) 0.

Example a_dream :
  let '(r, d) := demo_dream false None in
  r = Some (Ok (obj [("dreamed", Bool true); ("files_touched", Array []); ("improved_pages", integer 0); ("turns", integer 1)])) /\
  dream_events d = ["dream_started"; "dream_completed"] /\ Ledger.spent <$> Ledger.ledger (w_ledger (others (dk_pg d))) = [575] /\
  (last_consolidated_at <$> rows (dk_pg d) !! 1%N) = Some (Some two_days).
Proof. vm_compute. repeat split. Qed.
(** The manual run passes no gate: one hour after the last dream nothing happens. *)
Example manual_run_is_gated :
  let '(r, d) := demo_dream true (Some (two_days - 3600000000)) in r = Some (Ok not_dreamed) /\ w_calls (others (dk_pg d)) = [].
Proof. vm_compute. repeat split. Qed.

Lemma dream_reported_witness :
  exists r d', demo_dream false None = (Some r, d') /\ w_files (others (dk_pg d')) = demo_files /\
    exists p, log_of (dk_hub d') 0 = numbered 9%N 0 [("dream_started", obj [("tenant", String_ (demo_text 1%N))]); (fst (ending_of r), p)].
Proof.
  destruct (@dream_reported answer_json ascii_only Vault.Toy.toy_aead Files Replies files_os replies_outside demo_env demo_text parse_user
    Vault.Envelope.StubKms (fun _ _ => true) (fun _ _ => false) (fun _ _ => false) (fun _ _ _ => false) (fun _ _ _ => false) (fun _ => None) (fun _ => None)
    (fun _ n => (Err "off", n), fun _ n => (Err "off", n)) (fun _ => two_days) (fun _ => two_days) (fun _ => 0) (fun _ => "1970-01-01") (fun _ _ _ _ Hs => Hs)
    (with_progress (Handler.live demo_root "stub")) 30%N (dream_job false) (dream_desk None) 2%N "stub" eq_refl demo_keys eq_refl
    ltac:(vm_compute; reflexivity)) as (r & d' & Hr & [_ _ _ Hf] & _ & _ & Hp).
  exists r, d'. split; [exact Hr|]. split; [exact Hf|]. destruct (Hp eq_refl) as (p & _ & Hl). exists p.
  apply (Hl 1%N 0%nat [] 0); [split; vm_compute; reflexivity|vm_compute; discriminate|vm_compute; discriminate].
Defined.

(** Two active tenants, of which the first has a job waiting: one job is added, two are counted. *)
Definition cron_row : Consolidation :=
  {| last_consolidated_at := None; holder := None; lease_expires := None; last_scan_at := None; sessions_since_last := 0; rollback_count := 0 |}.
Definition cron_state : @Cron.State N := {| locks := {| rows := {[ 1%N := cron_row; 2%N := cron_row ]}; others := 100%N |}; jobs := [] |}.
Definition demo_tick (users : list UserRow) (s : @Cron.State N) :=
  tick_once (fun _ => "") demo_show (fun _ => two_days) (fun _ => two_days) (fun _ => 0) None (fun n => (n, N.succ n)) true
    [{| td_id := 1%N; td_dream_enabled := true |}; {| td_id := 2%N; td_dream_enabled := true |}; {| td_id := 3%N; td_dream_enabled := false |}] users s.
Definition cron_users : list UserRow :=
  [{| ud_id := 13%N; ud_tenant := 3%N; ud_created := 0 |}; {| ud_id := 12%N; ud_tenant := 2%N; ud_created := 0 |};
   {| ud_id := 14%N; ud_tenant := 1%N; ud_created := 9 |}; {| ud_id := 11%N; ud_tenant := 1%N; ud_created := 0 |}].
Example waiting_jobs_are_counted :
  let '(r1, s1) := demo_tick (drop 2 cron_users) cron_state in
  let '(r2, s2) := demo_tick cron_users s1 in
  r1 = Ok 1 /\ Jobs.user_id <$> jobs s1 = [Some 11%N] /\ r2 = Ok 2 /\ Jobs.user_id <$> jobs s2 = [Some 11%N; Some 12%N].
Proof. vm_compute. repeat split. Qed.
