(* ===== verification/Lint.v ===== *)
(** * Lint scans, page headers and cool-downs

    [Scanners]: [wiki/src/lint/scanners.rs], the queries over the pages and links of Wiki.v, and the repair of
    a doubled folder. [Frontmatter]: [utils/frontmatter/src/lib.rs]; YAML itself belongs to serde_yaml and is
    a parameter. [Cooldown]: [store/src/cooldown.rs] over the commands of Redis. *)
From S2P Require Import Prelude RustStr Json Protocol WikiText Wiki.
From stdpp Require Import list pretty gmap.
Import Paths Conflict Repo Gate Factory.

#[local] Open Scope string_scope.
#[local] Open Scope list_scope.
#[local] Open Scope Z_scope.

(** ** The scanners *)
Module Scanners.
(* src/qcue-rs/wiki/src/lint/scanners.rs 8-8 MIN_SUBSTANTIVE_CHARS *)
Definition MIN_SUBSTANTIVE_CHARS : Z := 50.
Definition own_link (tenant : Uuid) (l : LinkRow) : bool := N.eqb (l_tenant l) tenant.
(** A link row, which has an id of its own, stands for it. *)
(* src/qcue-rs/wiki/src/lint/scanners.rs 18-22 dead_links *)
Definition dead_links (tenant : Uuid) (db : Db) : list LinkRow :=
  List.filter (fun l => own_link tenant l && bool_decide (l_target l = None)) (links db).
(* src/qcue-rs/wiki/src/lint/scanners.rs 25-33 orphans *)
Definition orphans (tenant : Uuid) (db : Db) : list Uuid :=
  id <$> List.filter (fun p => live tenant p && negb (existsb (fun l => own_link tenant l && bool_decide (l_target l = Some (id p))) (links db)))
           (pages db).
(* src/qcue-rs/wiki/src/lint/scanners.rs 36-44 empty_pages *)
Definition empty_pages (tenant : Uuid) (db : Db) : list Uuid :=
  id <$> List.filter (fun p => live tenant p && (char_len p <? MIN_SUBSTANTIVE_CHARS)) (pages db).
(* src/qcue-rs/wiki/src/lint/scanners.rs 47-55 missing_aliases *)
Definition missing_aliases (tenant : Uuid) (db : Db) : list Uuid :=
  id <$> List.filter (fun p => live tenant p && (String.eqb (type_ p) "entity" || String.eqb (type_ p) "concept") && bool_decide (aliases p = []))
           (pages db).
(* src/qcue-rs/wiki/src/lint/scanners.rs 58-67 tag_violations *)
Definition tag_violations (tenant : Uuid) (vocab : list string) (db : Db) : list Uuid :=
  id <$> List.filter (fun p => live tenant p && existsb (fun t => negb (existsb (String.eqb t) vocab)) (tags p)) (pages db).
(* src/qcue-rs/wiki/src/lint/scanners.rs 73-81 fix_polluted_basename *)
Definition fix_polluted_basename (p : string) : string :=
  unwrap_or (head (omap (fun folder => (fun rest => folder +:+ "/" +:+ rest) <$> Str.strip_prefix (folder +:+ "/" +:+ folder +:+ "/") p)
                     ["entities"; "concepts"; "sources"])) p.
End Scanners.
Import Scanners.

(** ** The header of a page *)
Module Frontmatter.
(* src/qcue-rs/utils/frontmatter/src/lib.rs 6-14 Frontmatter *)
Record Frontmatter : Type := {
  fm_type : option string;
  created : option string;
  updated : option string;
  sources : list string;
  fm_tags : list string;
  fm_aliases : list string;
  fm_reviewed : bool;
}.
Definition default_fm : Frontmatter := {|
  fm_type := None; created := None; updated := None; sources := []; fm_tags := []; fm_aliases := []; fm_reviewed := false |}.
Section Yaml.
(** [serde_yaml::from_str] and [to_string] at this type. *)
Context (from_yaml : string -> result string Frontmatter) (yaml_text : Frontmatter -> result string string).
(* src/qcue-rs/utils/frontmatter/src/lib.rs 17-27 parse_frontmatter *)
Definition parse_frontmatter (md : string) : Frontmatter * string :=
  match Str.strip_prefix ("---" +:+ Str.lf) md with
  | Some rest =>
      match Str.find (Str.lf +:+ "---") rest with
      | Some e =>
          (match from_yaml (Str.take e rest) with Ok fm => fm | Err _ => default_fm end,
           Str.trim_start_matches [Str.lf] (Str.drop (e + 4) rest))
      | None => (default_fm, md)
      end
  | None => (default_fm, md)
  end.
(* src/qcue-rs/utils/frontmatter/src/lib.rs 30-33 render_frontmatter *)
Definition render_frontmatter (fm : Frontmatter) (body : string) : string :=
  "---" +:+ Str.lf +:+ match yaml_text fm with Ok y => y | Err _ => "" end +:+ "---" +:+ Str.lf +:+ body +:+ Str.lf.
End Yaml.
Definition append_new (into from : list string) : list string :=
  foldl (fun l x => if bool_decide (x ∈ l) then l else l ++ [x]) into from.
(** Strings in the order of their bytes. *)
Definition str_lt (a b : string) : bool := bool_decide (String.compare a b = Lt).
(* src/qcue-rs/utils/frontmatter/src/lib.rs 36-60 merge_frontmatter *)
Definition merge_frontmatter (into from : Frontmatter) (now : string) : Frontmatter := {|
  fm_type := fm_type into;
  created := match created into, created from with
             | Some a, Some b => if str_lt b a then Some b else Some a
             | Some a, None => Some a
             | None, Some b => Some b
             | None, None => Some now
             end;
  updated := Some now;
  sources := append_new (sources into) (sources from);
  fm_tags := append_new (fm_tags into) (fm_tags from);
  fm_aliases := append_new (fm_aliases into) (fm_aliases from);
  fm_reviewed := fm_reviewed into |}.
End Frontmatter.
Import Frontmatter.

(** ** Cool-downs *)
Module Cooldown.
(** The commands of Redis, at a time of its clock. *)
Class RedisCounters (R : Type) : Type := {
  set_ex : Z -> string -> Z -> Z -> R -> R;
  ttl : Z -> string -> R -> Z;
  incr : Z -> string -> R -> Z * R;
  decr : Z -> string -> R -> R;
  expire : Z -> string -> Z -> R -> R;
}.
Section Cooldown.
Context {R : Type} `{RedisCounters R} (uuid_text : Uuid -> string).
(* src/qcue-rs/store/src/cooldown.rs 14-16 key *)
Definition key (tenant cred : Uuid) : string := "tenant:" +:+ uuid_text tenant +:+ ":cred:" +:+ uuid_text cred +:+ ":cooldown".
(* src/qcue-rs/store/src/cooldown.rs 18-22 set_cooldown *)
Definition set_cooldown (now : Z) (tenant cred : Uuid) (secs : Z) (r : R) : R := set_ex now (key tenant cred) 1 secs r.
(* src/qcue-rs/store/src/cooldown.rs 23-27 get_cooldown *)
Definition get_cooldown (now : Z) (tenant cred : Uuid) (r : R) : option Z :=
  let t := ttl now (key tenant cred) r in if 0 <? t then Some t else None.
(* src/qcue-rs/store/src/cooldown.rs 29-40 acquire_lease *)
Definition acquire_lease (now : Z) (tenant cred : Uuid) (max : Z) (r : R) : bool * R :=
  let k := "tenant:" +:+ uuid_text tenant +:+ ":cred:" +:+ uuid_text cred +:+ ":lease" in
  let '(n, r) := incr now k r in
  let r := expire now k 120 r in
  if max <? n then (false, decr now k r) else (true, r).
End Cooldown.
End Cooldown.
Import Cooldown.

(** ** What the scans report *)

Definition of_source (tenant src : Uuid) (l : LinkRow) : bool := N.eqb (l_tenant l) tenant && N.eqb (l_src l) src.
Definition names (s : string) (r : PageRow) : bool := String.eqb (slug r) s || existsb (String.eqb s) (aliases r).

Lemma resolve_spec tenant s db : resolve_target tenant s db = None <-> forall r, r ∈ pages db -> live tenant r && names s r = false.
Proof.
  unfold resolve_target, names. rewrite <- find_first_none. by destruct (find_first _ _).
Qed.

(** What the links of a page say after it is written: one row for each target named, resolved as the pages are. *)
Lemma insert_link_rows tenant src db l ls :
  (forall x, x ∈ ls -> x ∈ insert_link tenant src db l ls) /\
  (forall x, x ∈ insert_link tenant src db l ls -> x ∈ ls \/
     l_slug x = Links.target_slug l /\ l_target x = resolve_target tenant (l_slug x) db /\ of_source tenant src x = true) /\
  (exists x, x ∈ insert_link tenant src db l ls /\ of_source tenant src x = true /\ l_slug x = Links.target_slug l).
Proof.
  unfold insert_link. destruct (existsb _ ls) eqn:He.
  - split; [done|]. split; [by left|]. apply existsb_exists in He as (x & Hx%list_elem_of_In & Hs).
    apply andb_true_iff in Hs as [Hs Heq%String.eqb_eq]. by exists x.
  - set (row := {| l_tenant := tenant; l_src := src |}). assert (of_source tenant src row = true) as Hrow by (unfold of_source; cbn; by rewrite !N.eqb_refl).
    split; [intros x Hx; apply elem_of_app; by left|]. split.
    + intros x [Hx| ->%list_elem_of_singleton]%elem_of_app; [by left|by right].
    + exists row. split; [apply elem_of_app; right; by apply list_elem_of_singleton|done].
Qed.
Lemma insert_links_rows tenant src db parsed ls :
  let ls' := foldl (fun ls l => insert_link tenant src db l ls) ls parsed in
  (forall x, x ∈ ls -> x ∈ ls') /\
  (forall x, x ∈ ls' -> x ∈ ls \/
     (exists l, l ∈ parsed /\ l_slug x = Links.target_slug l) /\ l_target x = resolve_target tenant (l_slug x) db /\ of_source tenant src x = true) /\
  (forall l, l ∈ parsed -> exists x, x ∈ ls' /\ of_source tenant src x = true /\ l_slug x = Links.target_slug l).
Proof.
  revert ls. induction parsed as [|l parsed IH]; intros ls; cbn [foldl].
  - split; [done|]. split; [by left|]. by intros l ?%not_elem_of_nil.
  - destruct (IH (insert_link tenant src db l ls)) as (H1 & H2 & H3). destruct (insert_link_rows tenant src db l ls) as (I1 & I2 & x & I3 & I4 & I5).
    split; [auto|]. split.
    + intros y [Hy|((k & Hk & ?) & ?)]%H2; [apply I2 in Hy as [Hy|(? & ? & ?)]; [by left|right; split; [exists l; split; [by left|done]|done]]|].
      right. split; [exists k; split; [by right|done]|done].
    + intros k [->|Hk]%elem_of_cons; [|by apply H3]. exists x. auto.
Qed.

(** Right after a page is written the dead links of the page are exactly the targets it names that no live
    page of the tenant has as its slug or alias, and each target it names has a link; the links of other
    pages are as they were. *)
Theorem dead_links_of_a_page (tenant src : Uuid) (parsed : list Links.ParsedLink) (db : Db) :
  let db' := replace_links tenant src parsed db in
  (forall s, (exists x, x ∈ dead_links tenant db' /\ l_src x = src /\ l_slug x = s) <->
     (exists l, l ∈ parsed /\ Links.target_slug l = s) /\ forall r, r ∈ pages db' -> live tenant r && names s r = false) /\
  (forall s, (exists x, x ∈ links db' /\ of_source tenant src x = true /\ l_slug x = s) <-> exists l, l ∈ parsed /\ Links.target_slug l = s) /\
  (forall x, of_source tenant src x = false -> x ∈ links db' <-> x ∈ links db).
Proof.
  cbv zeta. unfold replace_links. cbn [pages links]. set (kept := filter _ (links db)).
  destruct (insert_links_rows tenant src db parsed kept) as (H1 & H2 & H3). set (ls := foldl _ kept parsed) in *.
  assert (forall x, x ∈ kept <-> x ∈ links db /\ of_source tenant src x = false) as Hkept.
  { intros x. unfold kept. rewrite list_elem_of_filter. unfold of_source. rewrite negb_true_iff. tauto. }
  assert (forall x, x ∈ ls -> of_source tenant src x = true -> (exists l, l ∈ parsed /\ l_slug x = Links.target_slug l) /\ l_target x = resolve_target tenant (l_slug x) db) as Hown.
  { intros x [Hx|(? & ? & _)]%H2 Ho; [|done]. apply Hkept in Hx as [_ Hx]. congruence. }
  split; [|split].
  - intros s. unfold dead_links. cbn [links]. rewrite <- resolve_spec. split.
    + intros (x & Hx & Hs & <-). apply list_elem_of_In, filter_In in Hx as [Hx%list_elem_of_In [Ht%N.eqb_eq Hd%bool_decide_eq_true]%andb_true_iff].
      destruct (Hown x Hx) as [(l & Hl & Hn) Hr]; [unfold of_source; by rewrite Ht, Hs, !N.eqb_refl|]. split; [by exists l|congruence].
    + intros [(l & Hl & <-) Hn]. destruct (H3 l Hl) as (x & Hx & Ho & Hs). destruct (Hown x Hx Ho) as [_ Hr]. exists x.
      apply andb_true_iff in Ho as [Ht%N.eqb_eq Hsrc%N.eqb_eq]. split_and!; [|done..]. apply list_elem_of_In, filter_In. split; [by apply list_elem_of_In|].
      unfold own_link. rewrite Ht, N.eqb_refl, Hr, Hs, Hn. done.
  - intros s. split.
    + intros (x & Hx & Ho & <-). destruct (Hown x Hx Ho) as [(l & Hl & Hn) _]. by exists l.
    + intros (l & Hl & <-). by apply H3.
  - intros x Hx. split; [|intros Hin; apply H1; by apply Hkept]. intros [Hin|(_ & _ & ?)]%H2; [by apply Hkept|congruence].
Qed.


(** ** What a header keeps *)
Lemma starts_with_fits (p a t : string) : (String.length p <= String.length a)%nat -> Str.starts_with p (a +:+ t) = Str.starts_with p a.
Proof.
  revert a. induction p as [|c p IH]; intros a; [by destruct a|]. destruct a as [|d a]; cbn; [lia|]. intros Hl. by rewrite IH by lia.
Qed.
Lemma find_longer (p s t : string) (n : nat) : Str.find p s = Some n -> Str.find p (s +:+ t) = Some n.
Proof.
  revert n. induction s as [|c s IH]; intros n Hf; pose proof (Str.find_le _ _ _ Hf) as Hl.
  - destruct p as [|d p]; [|cbn in Hl; lia]. cbn in Hf. injection Hf as <-. by destruct t.
  - change (String c s +:+ t) with (String c (s +:+ t)). cbn [Str.find] in *. change (String c (s +:+ t)) with (String c s +:+ t).
    rewrite starts_with_fits by lia. destruct (Str.starts_with p (String c s)); [done|].
    destruct (Str.find p s) as [m|]; [|done]. by rewrite (IH m).
Qed.

(** The header is read back. [y] is its text without the last line feed, as serde_yaml writes it: what it
    writes reads back, and no line of it starts with the mark. *)
Lemma frontmatter_roundtrip (from_yaml : string -> result string Frontmatter) (yaml_text : Frontmatter -> result string string)
  (fm : Frontmatter) (y body : string) :
  yaml_text fm = Ok (y +:+ Str.lf) -> from_yaml y = Ok fm -> Str.contains (Str.lf +:+ "---") y = false -> Str.starts_with Str.lf (body +:+ Str.lf) = false ->
  parse_frontmatter from_yaml (render_frontmatter yaml_text fm body) = (fm, body +:+ Str.lf).
Proof.
  intros Hy Hfrom Hmark Hbody. unfold render_frontmatter, parse_frontmatter. rewrite Hy, <- (Str.app_assoc "---" Str.lf).
  rewrite (proj2 (Str.strip_prefix_spec _ _ _) eq_refl).
  replace ((y +:+ Str.lf) +:+ "---" +:+ Str.lf +:+ body +:+ Str.lf) with ((y +:+ (Str.lf +:+ "---")) +:+ (Str.lf +:+ body +:+ Str.lf))
    by (by rewrite !Str.app_assoc).
  rewrite (find_longer _ _ _ (String.length y)) by (apply Str.find_terminator; done).
  rewrite Str.app_assoc, Str.take_app, Hfrom. f_equal. rewrite <- Str.app_assoc.
  replace (String.length y + 4)%nat with (String.length (y +:+ Str.lf +:+ "---")) by (rewrite !Str.length_app; cbn; lia).
  rewrite Str.drop_app. unfold Str.trim_start_matches. change (String.length (Str.lf +:+ body +:+ Str.lf)) with (S (String.length (body +:+ Str.lf))).
  cbn [Str.trim_loop Str.first_strip]. rewrite (proj2 (Str.strip_prefix_spec _ _ (body +:+ Str.lf)) eq_refl).
  apply Str.trim_loop_stop. cbn [Str.first_strip]. destruct (Str.strip_prefix Str.lf (body +:+ Str.lf)) as [t|] eqn:Ht; [|done].
  apply Str.strip_prefix_spec in Ht. rewrite Ht in Hbody. by rewrite Str.starts_with_app in Hbody.
Qed.

Lemma append_new_spec into from :
  (forall x, x ∈ append_new into from <-> x ∈ into \/ x ∈ from) /\ (NoDup into -> NoDup (append_new into from)) /\
  exists new, append_new into from = into ++ new.
Proof.
  unfold append_new. revert into. induction from as [|y from IH]; intros into; cbn [foldl].
  - split_and!; [|done|by exists []; rewrite app_nil_r]. intros x. split; [by left|]. by intros [?|?%not_elem_of_nil].
  - case_bool_decide as Hy; destruct (IH (if decide (y ∈ into) then into else into ++ [y])) as (H1 & H2 & new & H3);
      [rewrite decide_True in H1, H2, H3 by done|rewrite decide_False in H1, H2, H3 by done].
    + split_and!; [|done|by exists new]. intros x. rewrite H1, elem_of_cons. split; [tauto|]. intros [?|[->|?]]; auto.
    + split_and!; [|intros Hn; apply H2, NoDup_app; split_and!; [done| |by apply NoDup_singleton]; by intros x Hx ->%list_elem_of_singleton
        |exists (y :: new); by rewrite H3, <- app_assoc].
      intros x. rewrite H1, elem_of_app, list_elem_of_singleton, elem_of_cons. tauto.
Qed.
Lemma append_new_absorbs into from : (forall x, x ∈ from -> x ∈ into) -> append_new into from = into.
Proof.
  unfold append_new. induction from as [|y from IH]; intros H; [done|]. cbn [foldl]. rewrite bool_decide_eq_true_2 by (apply H; by left).
  apply IH. intros x Hx. apply H. by right.
Qed.
(** Merging headers keeps the reviewed mark and type of the page and the earlier creation date, and loses no
    source, tag or alias of either; merging the same again changes only the date of the change. *)
Lemma merge_keeps (into from : Frontmatter) (now later : string) :
  let m := merge_frontmatter into from now in
  fm_reviewed m = fm_reviewed into /\ fm_type m = fm_type into /\
  (forall x, (x ∈ sources m <-> x ∈ sources into \/ x ∈ sources from) /\ (x ∈ fm_tags m <-> x ∈ fm_tags into \/ x ∈ fm_tags from) /\
     (x ∈ fm_aliases m <-> x ∈ fm_aliases into \/ x ∈ fm_aliases from)) /\
  merge_frontmatter m from later = {| fm_type := fm_type m; created := created (merge_frontmatter m from later); updated := Some later;
    sources := sources m; fm_tags := fm_tags m; fm_aliases := fm_aliases m; fm_reviewed := fm_reviewed m |}.
Proof.
  cbv zeta. cbn. split_and!; [done..|intros x; split_and!; apply append_new_spec|]. unfold merge_frontmatter. cbn. f_equal;
    (apply append_new_absorbs; intros x Hx; apply append_new_spec; by right).
Qed.

(** ** Concrete links and headers *)

Definition link_to (s : string) : Links.ParsedLink := {| Links.target_slug := s; Links.target_type := None; Links.display := None |}.
Definition tokio : PageUpsert := {|
  u_type := "entity"; u_slug := "tokio"; u_title := "Tokio"; u_aliases := []; u_tags := []; u_summary := ""; u_char_len := 60;
  u_body_ref := rust_md; u_source_ids := []; u_content_hash := "" |}.
(** A link to a page that is written later stays dead, and the page an orphan; a link to a page deleted since
    is not found dead. *)
Example links_are_not_resolved_again :
  let db := replace_links 1%N 1%N [link_to "tokio"] demo_db in
  match upsert_page (fun _ => 2%N) 1%N tokio db with
  | Ok (_, db) =>
      l_slug <$> dead_links 1%N db = ["tokio"] /\ orphans 1%N db = [1%N; 2%N] /\
      let db := soft_delete 1%N 2%N (replace_links 1%N 1%N [link_to "tokio"] db) in dead_links 1%N db = [] /\ orphans 1%N db = [1%N]
  | Err _ => False
  end.
Proof. vm_compute. repeat split. Qed.
Example polluted_of_the_tests :
  fix_polluted_basename "entities/entities/X" = "entities/X" /\ fix_polluted_basename "concepts/foo" = "concepts/foo".
Proof. vm_compute. done. Qed.
(** A line feed more at the end of the body for each time a page is read and written. *)
Example body_grows :
  let from y := if String.eqb y "{}" then Ok default_fm else Err "" in
  let text (_ : Frontmatter) := Ok ("{}" +:+ Str.lf) in
  let step md := let '(fm, body) := parse_frontmatter from md in render_frontmatter text fm body in
  step (step (render_frontmatter text default_fm "a")) = render_frontmatter text default_fm ("a" +:+ Str.lf +:+ Str.lf).
Proof. vm_compute. reflexivity. Qed.
