(* ===== verification/Codec.v ===== *)
(** * What crosses the wire

    The data of [protocol/src] and [app-server-protocol/src] as JSON. [Serde]: the meaning of the attributes that
    their declarations carry ([default], [deny_unknown_fields], [tag], [untagged], [rename_all],
    [skip_serializing_if]), as readers of fields and variants, and the class [Codec] of the types whose reading
    undoes their writing. [Data]: messages, usage and stream events. [Frames]: the envelope and the frames of
    a socket. [Items]: the items of a turn and the parameters of the methods. [Delta]: what a client pulls.
    Numbers are checked at their width; floating point fields are left out, and so is the index which serde
    accepts in place of a variant's name in a buffered value. *)
From S2P Require Import Prelude RustStr Json OpLog Sync Hub Live Protocol.
From stdpp Require Import list.

#[local] Open Scope string_scope.
#[local] Open Scope list_scope.
#[local] Open Scope Z_scope.

(** ** Readers and writers *)
Module Serde.
Class Codec (A : Type) : Type := {
  enc : A -> Value;
  dec : Value -> option A;
  fits : A -> Prop;
  dec_enc : forall a, fits a -> dec (enc a) = Some a;
}.

(** The fields a derived reader of a struct sees: by name in an object, by position in an array that is not
    longer than the struct. [deny]: an object with a field the struct does not have is refused. *)
Record Fields : Type := { named : bool; field : string -> option Value }.
Fixpoint position (k : string) (known : list string) : option nat :=
  match known with [] => None | x :: known => if String.eqb k x then Some 0%nat else S <$> position k known end.
Definition is_known (known : list string) (k : string) : bool := existsb (String.eqb k) known.
Definition fields (deny : bool) (known : list string) (v : Value) : option Fields :=
  match v with
  | Object m =>
      if deny && negb (forallb (is_known known) (JMap.keys m)) then None else Some {| named := true; field := fun k => JMap.get k m |}
  | Array l =>
      if Nat.leb (length l) (length known) then Some {| named := false; field := fun k => i ← position k known; l !! i |} else None
  | _ => None
  end.
Definition dec_option {A} `{Codec A} (v : Value) : option (option A) :=
  match v with Null => Some None | _ => Some <$> dec v end.
(** A field; an [Option] field, which an object may leave out; a field with a default. *)
Definition required {A} `{Codec A} (k : string) (f : Fields) : option A := field f k ≫= dec.
Definition optional {A} `{Codec A} (k : string) (f : Fields) : option (option A) :=
  match field f k with Some v => dec_option v | None => if named f then Some None else None end.
Definition defaulted {A} `{Codec A} (k : string) (d : A) (f : Fields) : option A :=
  match field f k with Some v => dec v | None => Some d end.
(** An externally tagged variant: its name, with its content where it has one. *)
Definition variant (v : Value) : option (string * option Value) :=
  match v with String_ s => Some (s, None) | Object [(s, x)] => Some (s, Some x) | _ => None end.
Definition unit_content (x : option Value) : bool := match x with None | Some Null => true | _ => false end.
(** An internally tagged one: the tag, with what is left of the object or the array. *)
Definition tagged (tag : string) (v : Value) : option (string * Value) :=
  match v with
  | Object m => s ← JMap.get tag m ≫= as_str; Some (s, Object (JMap.remove tag m))
  | Array (String_ s :: l) => Some (s, Array l)
  | _ => None
  end.

(** *** Basic types *)
#[export] Program Instance value_codec : Codec Value := {| enc v := v; dec := Some; fits _ := True |}.
Next Obligation. done. Qed.
#[export] Program Instance string_codec : Codec string := {| enc := String_; dec := as_str; fits _ := True |}.
Next Obligation. done. Qed.
#[export] Program Instance bool_codec : Codec bool := {| enc := Bool; dec := as_bool; fits _ := True |}.
Next Obligation. done. Qed.
(** An integer of a width; a float is not read as one. *)
Definition dec_int (lo hi : Z) (v : Value) : option Z :=
  match v with
  | Number_ (PosInt n) | Number_ (NegInt n) => if (lo <=? n) && (n <=? hi) then Some n else None
  | _ => None
  end.
Lemma dec_int_enc lo hi n : lo <= n <= hi -> dec_int lo hi (jnum n) = Some n.
Proof.
  intros [H1 H2]. unfold jnum, dec_int. apply Z.leb_le in H1, H2. by destruct (n <? 0); rewrite H1, H2.
Qed.
Definition int_codec (lo hi : Z) : Codec Z := {| enc := jnum; dec := dec_int lo hi; fits n := lo <= n <= hi; dec_enc := dec_int_enc lo hi |}.
Definition u16 : Codec Z := int_codec 0 (2 ^ 16 - 1).
Definition u32 : Codec Z := int_codec 0 Int.u32_max.
Definition u64 : Codec Z := int_codec 0 Int.u64_max.
Definition i32 : Codec Z := int_codec (- 2 ^ 31) (2 ^ 31 - 1).
Definition i64 : Codec Z := int_codec Int.i64_min Int.i64_max.

Section Containers.
Context {A : Type} `{C : Codec A}.
Definition dec_list (v : Value) : option (list A) := match v with Array l => mapM dec l | _ => None end.
#[export] Program Instance list_codec : Codec (list A) := {| enc l := Array (enc <$> l); dec := dec_list; fits := Forall fits |}.
Next Obligation.
  intros l Hl. cbn. apply mapM_Some. induction Hl as [|a l Ha _ IH]; cbn; constructor; [by apply dec_enc|done].
Qed.
(** What is written as [null] would be read as nothing. *)
#[export] Program Instance option_codec : Codec (option A) := {|
  enc o := match o with Some a => enc a | None => Null end; dec := dec_option;
  fits o := match o with Some a => fits a /\ enc a <> Null | None => True end |}.
Next Obligation.
  intros [a|] Ha; [|done]. destruct Ha as [Ha Hn]. unfold dec_option. destruct (enc a) eqn:He; try done; by rewrite <- He, dec_enc.
Qed.
End Containers.

(** Text of a [Uuid] and what is read of it. *)
Class UuidText : Type := {
  uuid_show : Uuid -> string;
  uuid_read : string -> option Uuid;
  uuid_back : forall u, uuid_read (uuid_show u) = Some u;
}.
#[export] Program Instance uuid_codec `{UuidText} : Codec Uuid := {| enc u := String_ (uuid_show u); dec v := as_str v ≫= uuid_read; fits _ := True |}.
Next Obligation. intros H u _. cbn. apply uuid_back. Qed.

(** *** A written object is read by its fields *)
Lemma jmap_keys_get k m : k ∈ JMap.keys m <-> JMap.get k m <> None.
Proof.
  induction m as [|[k' v] m IH]; cbn; [split; [by intros ?%not_elem_of_nil|done]|]. rewrite elem_of_cons, IH.
  destruct (String.eqb_spec k k') as [->|]; [split; [done|by left]|]. split; [by intros [|]|by right].
Qed.
Fixpoint distinct (l : list string) : bool := match l with [] => true | k :: l => negb (is_known l k) && distinct l end.
Lemma get_of_list k l : distinct (fst <$> l) = true -> JMap.get k (JMap.of_list l) = JMap.get k l.
Proof.
  unfold JMap.of_list. intros Hd. assert (forall m, JMap.get k (foldl (fun m '(k, v) => JMap.insert k v m) m l) =
    match JMap.get k l with Some v => Some v | None => JMap.get k m end) as H; [|rewrite H; by destruct (JMap.get k l)].
  induction l as [|[k' v] l IH]; intros m; [done|]. cbn in Hd. apply andb_true_iff in Hd as [Hk Hd]. cbn [foldl JMap.get].
  rewrite (IH Hd), jmap_get_insert. destruct (String.eqb_spec k k') as [->|]; [|done].
  destruct (JMap.get k' l) eqn:Hg; [|done]. exfalso. apply negb_true_iff in Hk. apply not_true_iff_false in Hk. apply Hk.
  apply existsb_exists. exists k'. split; [|apply String.eqb_refl].
  apply list_elem_of_In. change (k' ∈ JMap.keys l). apply jmap_keys_get. by rewrite Hg.
Qed.
Lemma fields_obj deny known l :
  distinct (fst <$> l) = true -> forallb (is_known known) (fst <$> l) = true ->
  exists f, fields deny known (obj l) = Some f /\ named f = true /\ forall k, field f k = JMap.get k l.
Proof.
  intros Hd Hk. cbn [fields obj]. assert (forallb (is_known known) (JMap.keys (JMap.of_list l)) = true) as ->.
  { apply forallb_forall. intros k Hin%list_elem_of_In%jmap_keys_get. rewrite get_of_list in Hin by done.
    apply jmap_keys_get, list_elem_of_In in Hin. rewrite forallb_forall in Hk. by apply Hk. }
  rewrite andb_false_r. eexists. split; [done|]. split; [done|]. intros k. cbn. by apply get_of_list.
Qed.
Lemma tagged_obj deny known tag s l :
  distinct (tag :: (fst <$> l)) = true -> forallb (is_known known) (fst <$> l) = true ->
  exists rest f, tagged tag (obj ((tag, String_ s) :: l)) = Some (s, rest) /\ fields deny known rest = Some f /\ named f = true /\
    forall k, field f k = JMap.get k l.
Proof.
  intros Hd Hk. set (m := JMap.of_list ((tag, String_ s) :: l)).
  assert (forall k, JMap.get k m = JMap.get k ((tag, String_ s) :: l)) as Hm by (intros k; by apply get_of_list).
  assert (forall k, JMap.get k (JMap.remove tag m) = JMap.get k l) as Hr.
  { intros k. destruct (decide (k = tag)) as [->|Hne].
    - rewrite jmap_get_remove_eq by apply jmap_wf_of_list. symmetry. apply jmap_get_keys. intros Hin%list_elem_of_In.
      cbn in Hd. apply andb_true_iff in Hd as [Hd _]. apply negb_true_iff, not_true_iff_false in Hd. apply Hd, existsb_exists.
      exists tag. split; [done|apply String.eqb_refl].
    - rewrite jmap_get_remove_ne, Hm by done. cbn. by rewrite (proj2 (String.eqb_neq _ _) Hne). }
  exists (Object (JMap.remove tag m)), {| named := true; field := fun k => JMap.get k (JMap.remove tag m) |}. split_and!; [| |done|exact Hr].
  - cbn [tagged obj]. fold m. rewrite Hm. cbn [JMap.get]. by rewrite String.eqb_refl.
  - cbn [fields]. assert (forallb (is_known known) (JMap.keys (JMap.remove tag m)) = true) as ->; [|by rewrite andb_false_r].
    apply forallb_forall. intros k Hin%list_elem_of_In%jmap_keys_get. rewrite Hr in Hin. apply jmap_keys_get, list_elem_of_In in Hin.
    rewrite forallb_forall in Hk. by apply Hk.
Qed.

(** A field that a reader does not know: it is passed over, or the object is refused. *)
Lemma fields_unknown known k x m :
  is_known known k = false -> match fields false known (Object m), fields false known (Object (JMap.insert k x m)) with
  | Some f, Some f' => named f' = named f /\ forall k', is_known known k' = true -> field f' k' = field f k'
  | _, _ => False
  end.
Proof.
  intros Hk. cbn. split; [done|]. intros k' Hk'. apply jmap_get_insert_ne. intros ->. congruence.
Qed.
Lemma fields_denied known k x m : is_known known k = false -> fields true known (Object (JMap.insert k x m)) = None.
Proof.
  intros Hk. cbn. assert (forallb (is_known known) (JMap.keys (JMap.insert k x m)) = false) as ->; [|done].
  apply not_true_iff_false. rewrite forallb_forall. intros H. rewrite (H k) in Hk; [done|].
  apply list_elem_of_In, jmap_keys_get. by rewrite jmap_get_insert_eq.
Qed.
End Serde.
Import Serde.

(** [read_fields] reads the fields of a written object, [read_back] its values. *)
Ltac read_fields :=
  match goal with
  | |- context [fields ?d ?ks (obj ?l)] =>
      let f := fresh "f" in let Hn := fresh "Hn" in let Hf := fresh "Hf" in
      destruct (fields_obj d ks l eq_refl eq_refl) as (f & -> & Hn & Hf);
      unfold required, optional, defaulted; cbn [mbind option_bind]; rewrite ?Hf, ?Hn;
      cbn -[enc dec dec_option obj fields fits]
  end.
Ltac fold_options :=
  repeat match goal with |- context [@dec_option ?A ?C ?v] => change (@dec_option A C v) with (@dec _ (@option_codec A C) v) end.
Ltac fitting := first [done | match goal with |- fits ?o => by destruct o end | match goal with |- fits ?o => destruct o; [match goal with |- fits (Some ?x) => by destruct x end|done] end].
Ltac read_back := fold_options; repeat (rewrite dec_enc by fitting; cbn -[enc dec dec_option obj fields fits]).

(** ** Messages, usage and stream events *)
Module Data.
(** An enum without contents: the variant of a name. *)
Fixpoint named_variant {A} (table : list (string * A)) (s : string) : option A :=
  match table with [] => None | (k, a) :: table => if String.eqb s k then Some a else named_variant table s end.
Definition dec_unit {A} (table : list (string * A)) (v : Value) : option A :=
  '(s, x) ← variant v; if unit_content x then named_variant table s else None.

(* src/qcue-rs/protocol/src/message.rs 7-14 Role *)
#[export] Program Instance role_codec : Codec Role := {|
  enc r := String_ (match r with System => "System" | User => "User" | Assistant => "Assistant" | Tool => "Tool" end);
  dec := dec_unit [("System", System); ("User", User); ("Assistant", Assistant); ("Tool", Tool)]; fits _ := True |}.
Next Obligation. by intros []. Qed.
(* src/qcue-rs/protocol/src/response.rs 8-15 FinishReason *)
#[export] Program Instance finish_codec : Codec FinishReason := {|
  enc r := String_ (match r with Stop => "Stop" | ToolCalls => "ToolCalls" | Length => "Length" | ContentFilter => "ContentFilter" end);
  dec := dec_unit [("Stop", Stop); ("ToolCalls", ToolCalls); ("Length", Length); ("ContentFilter", ContentFilter)]; fits _ := True |}.
Next Obligation. by intros []. Qed.

(* src/qcue-rs/protocol/src/usage.rs 5-13 CanonicalUsage *)
#[export] Program Instance usage_codec : Codec CanonicalUsage := {|
  enc u := obj [("input", @enc _ u64 (u_input u)); ("output", @enc _ u64 (u_output u)); ("cache_read", @enc _ u64 (u_cache_read u));
                ("cache_write", @enc _ u64 (u_cache_write u)); ("reasoning", @enc _ u64 (u_reasoning u))];
  dec v := f ← fields false ["input"; "output"; "cache_read"; "cache_write"; "reasoning"] v;
    i ← @required _ u64 "input" f; o ← @required _ u64 "output" f; r ← @required _ u64 "cache_read" f;
    w ← @required _ u64 "cache_write" f; t ← @required _ u64 "reasoning" f;
    Some {| u_input := i; u_output := o; u_cache_read := r; u_cache_write := w; u_reasoning := t |};
  fits u := @fits _ u64 (u_input u) /\ @fits _ u64 (u_output u) /\ @fits _ u64 (u_cache_read u) /\ @fits _ u64 (u_cache_write u) /\
    @fits _ u64 (u_reasoning u) |}.
Next Obligation. intros [i o r w t] (H1 & H2 & H3 & H4 & H5). read_fields. read_back. done. Qed.

(* src/qcue-rs/protocol/src/message.rs 17-25 ToolCall *)
#[export] Program Instance tool_call_codec : Codec ToolCall := {|
  enc c := obj [("id", enc (tc_id c)); ("name", enc (tc_name c)); ("arguments", enc (tc_arguments c)); ("provider_data", enc (tc_provider_data c))];
  dec v := f ← fields false ["id"; "name"; "arguments"; "provider_data"] v;
    i ← optional "id" f; n ← required "name" f; a ← required "arguments" f; p ← optional "provider_data" f;
    Some {| tc_id := i; tc_name := n; tc_arguments := a; tc_provider_data := p |};
  fits c := fits (tc_provider_data c) |}.
Next Obligation.
  intros [i n a p] Hp. cbn [tc_provider_data] in Hp. read_fields. by read_back.
Qed.

(** Only [active] has a default other than its type's. *)
(* src/qcue-rs/protocol/src/message.rs 38-66 Message *)
#[export] Program Instance message_codec : Codec Message := {|
  enc m := obj [("role", enc (role m)); ("content", enc (content m)); ("tool_call_id", enc (tool_call_id m)); ("tool_name", enc (tool_name m));
    ("tool_calls", enc (tool_calls m)); ("finish_reason", enc (finish_reason m)); ("reasoning", enc (reasoning m));
    ("provider_data", enc (provider_data m)); ("active", enc (active m)); ("is_untrusted", enc (is_untrusted m))];
  dec v := f ← fields true ["role"; "content"; "tool_call_id"; "tool_name"; "tool_calls"; "finish_reason"; "reasoning"; "provider_data"; "active"; "is_untrusted"] v;
    r ← required "role" f; c ← defaulted "content" None f; i ← defaulted "tool_call_id" None f; n ← defaulted "tool_name" None f;
    t ← defaulted "tool_calls" None f; e ← defaulted "finish_reason" None f; g ← defaulted "reasoning" None f;
    p ← defaulted "provider_data" None f; a ← defaulted "active" true f; u ← defaulted "is_untrusted" false f;
    Some {| role := r; content := c; tool_call_id := i; tool_name := n; tool_calls := t; finish_reason := e; reasoning := g;
            provider_data := p; active := a; is_untrusted := u |};
  fits m := fits (tool_calls m) /\ fits (provider_data m) |}.
Next Obligation.
  intros [r c i n t e g p a u] (Ht & Hp). cbn [tool_calls provider_data] in *. read_fields.
  by read_back.
Qed.

(* src/qcue-rs/protocol/src/stream.rs 10-16 Block *)
#[export] Program Instance block_codec : Codec Block := {|
  enc b := match b with
    | BText => String_ "Text" | BThinking => String_ "Thinking"
    | BToolUse i n => obj [("ToolUse", obj [("id", enc i); ("name", enc n)])]
    end;
  dec v := '(s, x) ← variant v;
    if String.eqb s "ToolUse" then
      x ← x; if is_object x then f ← fields false ["id"; "name"] x; i ← required "id" f; n ← required "name" f; Some (BToolUse i n) else None
    else dec_unit [("Text", BText); ("Thinking", BThinking)] v;
  fits _ := True |}.
Next Obligation. intros [| |i n] _; [done..|]. cbn [variant obj JMap.of_list foldl JMap.insert mbind option_bind is_object String.eqb Ascii.eqb Bool.eqb]. read_fields. by read_back. Qed.
(* src/qcue-rs/protocol/src/stream.rs 18-24 Delta *)
#[export] Program Instance delta_codec : Codec Delta := {|
  enc d := match d with
    | TextDelta t => obj [("TextDelta", enc t)] | ThinkingDelta t => obj [("ThinkingDelta", enc t)]
    | InputJsonDelta p => obj [("InputJsonDelta", obj [("partial_json", enc p)])]
    end;
  dec v := '(s, x) ← variant v; x ← x;
    if String.eqb s "TextDelta" then TextDelta <$> dec x
    else if String.eqb s "ThinkingDelta" then ThinkingDelta <$> dec x
    else if String.eqb s "InputJsonDelta" then
      if is_object x then f ← fields false ["partial_json"] x; p ← required "partial_json" f; Some (InputJsonDelta p) else None
    else None;
  fits _ := True |}.
Next Obligation. by intros [t|t|p]. Qed.
Definition event_fits (e : StreamEvent) : Prop := match e with MessageDelta _ (Some u) => fits u | _ => True end.
(* src/qcue-rs/protocol/src/stream.rs 26-35 StreamEvent *)
#[export] Program Instance event_codec : Codec StreamEvent := {|
  enc e := match e with
    | MessageStart => String_ "MessageStart" | ContentBlockStop => String_ "ContentBlockStop" | MessageStop => String_ "MessageStop"
    | ContentBlockStart b => obj [("ContentBlockStart", enc b)]
    | ContentBlockDelta d => obj [("ContentBlockDelta", enc d)]
    | MessageDelta r u => obj [("MessageDelta", obj [("stop_reason", enc r); ("usage", enc u)])]
    end;
  dec v := '(s, x) ← variant v;
    if String.eqb s "ContentBlockStart" then x ← x; ContentBlockStart <$> dec x
    else if String.eqb s "ContentBlockDelta" then x ← x; ContentBlockDelta <$> dec x
    else if String.eqb s "MessageDelta" then
      x ← x; if is_object x then f ← fields false ["stop_reason"; "usage"] x; r ← optional "stop_reason" f; u ← optional "usage" f; Some (MessageDelta r u) else None
    else dec_unit [("MessageStart", MessageStart); ("ContentBlockStop", ContentBlockStop); ("MessageStop", MessageStop)] v;
  fits e := event_fits e |}.
Next Obligation.
  intros [|b|d| |r u|] He; try done; [cbn -[dec enc]; by rewrite dec_enc..|].
  cbn [variant obj JMap.of_list foldl JMap.insert mbind option_bind is_object String.eqb Ascii.eqb Bool.eqb]. read_fields. by read_back.
Qed.
End Data.
Import Data.

(** ** The envelope of an event and the frames of a socket *)
Module Frames.
Import Hub.Envelope Live.Session.
Section Frames.
Context `{UuidText}.
Definition envelope_fields : list string := ["schema_version"; "thread_id"; "turn_id"; "seq"; "event"; "payload"].
(** The default [Uuid] is the nil one. *)
(* src/qcue-rs/protocol/src/envelope.rs 8-23 RuntimeEventEnvelope *)
#[export] Program Instance envelope_codec : Codec RuntimeEventEnvelope := {|
  enc e := obj [("schema_version", @enc _ u32 (schema_version e)); ("thread_id", enc (thread_id e)); ("turn_id", enc (turn_id e));
    ("seq", @enc _ u64 (seq e)); ("event", enc (event e)); ("payload", enc (payload e))];
  dec v := f ← fields false envelope_fields v;
    s ← @required _ u32 "schema_version" f; t ← defaulted "thread_id" 0%N f; u ← defaulted "turn_id" None f; q ← @defaulted _ u64 "seq" 0 f;
    e ← required "event" f; p ← defaulted "payload" Null f;
    Some {| schema_version := s; thread_id := t; turn_id := u; seq := q; event := e; payload := p |};
  fits e := @fits _ u32 (schema_version e) /\ @fits _ u64 (seq e) |}.
Next Obligation. intros [s t u q e p] (Hs & Hq). unfold envelope_fields. read_fields. by read_back. Qed.
End Frames.

Definition dec_response (v : Value) : option RpcMessage :=
  f ← fields false ["id"; "result"] v; i ← required "id" f; r ← required "result" f; Some (Response i r).
(* src/qcue-rs/app-server-protocol/src/envelope.rs 84-89 RpcErrorBody *)
Definition dec_error_body (v : Value) : option (Z * string) :=
  f ← fields false ["code"; "message"] v; c ← @required _ i32 "code" f; m ← required "message" f; Some (c, m).
Definition dec_error (v : Value) : option RpcMessage :=
  f ← fields false ["id"; "error"] v; i ← required "id" f; '(c, m) ← field f "error" ≫= dec_error_body; Some (ErrorFrame i c m).
(* src/qcue-rs/app-server-protocol/src/envelope.rs 59-64 RpcRequest *)
Definition dec_request (v : Value) : option RpcMessage :=
  f ← fields false ["id"; "method"; "params"] v; i ← required "id" f; m ← required "method" f; p ← defaulted "params" Null f; Some (Request i m p).
(* src/qcue-rs/app-server-protocol/src/envelope.rs 67-71 RpcNotification *)
Definition dec_notification (v : Value) : option RpcMessage :=
  f ← fields false ["method"; "params"] v; m ← required "method" f; p ← defaulted "params" Null f; Some (Notification m p).
Definition or_else {A} (a b : option A) : option A := match a with Some _ => a | None => b end.
(** [untagged]: the first reader that succeeds, in the order of the declaration. *)
(* src/qcue-rs/app-server-protocol/src/envelope.rs 92-99 Message *)
Definition dec_message (v : Value) : option RpcMessage :=
  or_else (dec_response v) (or_else (dec_error v) (or_else (dec_request v) (dec_notification v))).
Definition message_fits (m : RpcMessage) : Prop := match m with ErrorFrame _ c _ => @fits _ i32 c | _ => True end.
(* src/qcue-rs/app-server-protocol/src/envelope.rs 57-99 Message *)
Definition enc_message (m : RpcMessage) : Value :=
  match m with
  | Response i r => obj [("id", i); ("result", r)]
  | ErrorFrame i c t => obj [("id", i); ("error", obj [("code", @enc _ i32 c); ("message", enc t)])]
  | Request i t p => obj [("id", i); ("method", enc t); ("params", p)]
  | Notification t p => obj [("method", enc t); ("params", p)]
  end.
End Frames.
Import Frames.

(** ** The items of a turn and the parameters of the methods *)
Module Items.
(* src/qcue-rs/protocol/src/appendix_a.rs 8-16 WikiEditOp *)
Inductive WikiEditOp : Type := OpCreate | OpUpdate | OpMerge (into_slug : string) | OpDelete.
(* src/qcue-rs/protocol/src/appendix_a.rs 18-25 DreamPhase *)
Inductive DreamPhase : Type := Orient | Gather | Consolidate | Prune.
(* src/qcue-rs/app-server-protocol/src/items.rs 15-22 Citation *)
Record Citation : Type := { rel_path : string; start_line : Z; end_line : Z }.
(* src/qcue-rs/app-server-protocol/src/items.rs 27-39 Item *)
Inductive Item : Type :=
| IdeaCaptured (idea_id : Uuid) (body : string)
| VoiceTranscript (idea_id : Uuid) (text provider : string)
| WikiEdit (page_id : Uuid) (slug : string) (op : WikiEditOp)
| RecallResult (answer_delta : string) (citations : list Citation)
| AgentMessage (delta : string)
| DreamTurn (phase : DreamPhase) (pages_touched : list Uuid)
| Reasoning (delta : string)
| ErrorItem (code : Z) (message : string).
(* src/qcue-rs/app-server-protocol/src/v1.rs 7-15 InitializeParams *)
Record InitializeParams : Type := { opt_out_notification_methods : list string; p_schema_version : Z }.
(* src/qcue-rs/app-server-protocol/src/v2.rs 4-11 ThreadStartParams *)
Record ThreadStartParams : Type := { kind : string; labels : list string }.
(* src/qcue-rs/app-server-protocol/src/v1.rs 24-30 TurnStartParams *)
Record TurnStartParams : Type := { t_thread_id : Uuid; input : string }.
(* src/qcue-rs/app-server-protocol/src/v1.rs 98-103 IngestRunResult *)
Record IngestRunResult : Type := { enqueued : Z; job_ids : list Uuid }.
(* src/qcue-rs/app-server-protocol/src/v1.rs 105-110 TurnResult *)
Record TurnResult : Type := { turn_id : Uuid; items : list Item }.

(** The contents of a unit variant under a tag are not looked at. *)
(* src/qcue-rs/protocol/src/appendix_a.rs 8-16 WikiEditOp *)
#[export] Program Instance op_codec : Codec WikiEditOp := {|
  enc o := match o with
    | OpCreate => obj [("type", String_ "Create")] | OpUpdate => obj [("type", String_ "Update")] | OpDelete => obj [("type", String_ "Delete")]
    | OpMerge s => obj [("type", String_ "Merge"); ("into_slug", enc s)]
    end;
  dec v := '(s, rest) ← tagged "type" v;
    if String.eqb s "Merge" then f ← fields false ["into_slug"] rest; OpMerge <$> required "into_slug" f
    else named_variant [("Create", OpCreate); ("Update", OpUpdate); ("Delete", OpDelete)] s;
  fits _ := True |}.
Next Obligation. by intros []. Qed.
(* src/qcue-rs/protocol/src/appendix_a.rs 18-25 DreamPhase *)
#[export] Program Instance phase_codec : Codec DreamPhase := {|
  enc p := String_ (match p with Orient => "Orient" | Gather => "Gather" | Consolidate => "Consolidate" | Prune => "Prune" end);
  dec := dec_unit [("Orient", Orient); ("Gather", Gather); ("Consolidate", Consolidate); ("Prune", Prune)]; fits _ := True |}.
Next Obligation. by intros []. Qed.
Definition citation_fields : list string := ["rel_path"; "start_line"; "end_line"].
(* src/qcue-rs/app-server-protocol/src/items.rs 15-22 Citation *)
#[export] Program Instance citation_codec : Codec Citation := {|
  enc c := obj [("rel_path", enc (rel_path c)); ("start_line", @enc _ u32 (start_line c)); ("end_line", @enc _ u32 (end_line c))];
  dec v := f ← fields true citation_fields v; p ← required "rel_path" f; s ← @required _ u32 "start_line" f; e ← @required _ u32 "end_line" f;
    Some {| rel_path := p; start_line := s; end_line := e |};
  fits c := @fits _ u32 (start_line c) /\ @fits _ u32 (end_line c) |}.
Next Obligation. intros [p s e] (Hs & He). unfold citation_fields. read_fields. by read_back. Qed.

Lemma fits_strings (l : list string) : Forall fits l.
Proof. by induction l; constructor. Qed.
Section Items.
Context `{UuidText}.
(** [camelCase] renames the variants, not their fields. *)
(* src/qcue-rs/app-server-protocol/src/items.rs 27-39 Item *)
Definition enc_item (i : Item) : Value :=
  let tagged (tag : string) l := obj (("type", String_ tag) :: l) in
  match i with
  | IdeaCaptured i b => tagged "ideaCaptured" [("idea_id", enc i); ("body", enc b)]
  | VoiceTranscript i t p => tagged "voiceTranscript" [("idea_id", enc i); ("text", enc t); ("provider", enc p)]
  | WikiEdit p s o => tagged "wikiEdit" [("page_id", enc p); ("slug", enc s); ("op", enc o)]
  | RecallResult d c => tagged "recallResult" [("answer_delta", enc d); ("citations", enc c)]
  | AgentMessage d => tagged "agentMessage" [("delta", enc d)]
  | DreamTurn p l => tagged "dreamTurn" [("phase", enc p); ("pages_touched", enc l)]
  | Reasoning d => tagged "reasoning" [("delta", enc d)]
  | ErrorItem c m => tagged "error" [("code", @enc _ i32 c); ("message", enc m)]
  end.
(** The fields of the variant of a tag, and the variant of its fields. *)
Definition item_fields : string -> option (list string) := named_variant [
  ("ideaCaptured", ["idea_id"; "body"]); ("voiceTranscript", ["idea_id"; "text"; "provider"]); ("wikiEdit", ["page_id"; "slug"; "op"]);
  ("recallResult", ["answer_delta"; "citations"]); ("agentMessage", ["delta"]); ("dreamTurn", ["phase"; "pages_touched"]);
  ("reasoning", ["delta"]); ("error", ["code"; "message"])].
Definition item_of (tag : string) (f : Fields) : option Item :=
  if String.eqb tag "ideaCaptured" then i ← required "idea_id" f; IdeaCaptured i <$> required "body" f
  else if String.eqb tag "voiceTranscript" then i ← required "idea_id" f; t ← required "text" f; VoiceTranscript i t <$> required "provider" f
  else if String.eqb tag "wikiEdit" then p ← required "page_id" f; s ← required "slug" f; WikiEdit p s <$> required "op" f
  else if String.eqb tag "recallResult" then d ← required "answer_delta" f; RecallResult d <$> required "citations" f
  else if String.eqb tag "agentMessage" then AgentMessage <$> required "delta" f
  else if String.eqb tag "dreamTurn" then p ← required "phase" f; DreamTurn p <$> required "pages_touched" f
  else if String.eqb tag "reasoning" then Reasoning <$> required "delta" f
  else if String.eqb tag "error" then c ← @required _ i32 "code" f; ErrorItem c <$> required "message" f
  else None.
(* src/qcue-rs/app-server-protocol/src/items.rs 27-39 Item *)
Definition dec_item (v : Value) : option Item :=
  '(s, rest) ← tagged "type" v; known ← item_fields s; f ← fields true known rest; item_of s f.
Definition item_fits (i : Item) : Prop :=
  match i with RecallResult _ c => fits c | ErrorItem c _ => @fits _ i32 c | _ => True end.
Lemma fits_uuids (l : list Uuid) : Forall fits l.
Proof. by induction l; constructor. Qed.
Lemma item_back i : item_fits i -> dec_item (enc_item i) = Some i.
Proof.
  destruct i as [i b|i t p|p s o|d c|d|p l|d|c m]; intros Hi; unfold enc_item; cbn zeta;
    match goal with |- dec_item (obj ((_, String_ ?s) :: ?l)) = _ =>
      unfold dec_item;
      destruct (tagged_obj true (unwrap_or (item_fields s) []) "type" s l eq_refl eq_refl) as (rest & f & -> & Hf & _ & Hg);
      cbn [mbind option_bind item_fields named_variant String.eqb Ascii.eqb Bool.eqb unwrap_or]; cbn in Hf
    end; rewrite Hf; cbn [mbind option_bind]; unfold item_of, required; cbn [String.eqb Ascii.eqb Bool.eqb]; rewrite ?Hg; cbn -[enc dec fits];
    read_back; try done.
  rewrite (dec_enc p) by done. cbn -[enc dec]. by rewrite dec_enc by apply fits_uuids.
Qed.
#[export] Instance item_codec : Codec Item := {| enc := enc_item; dec := dec_item; fits := item_fits; dec_enc := item_back |}.

Definition initialize_fields : list string := ["opt_out_notification_methods"; "schema_version"].
(* src/qcue-rs/app-server-protocol/src/v1.rs 7-15 InitializeParams *)
#[export] Program Instance initialize_codec : Codec InitializeParams := {|
  enc p := obj [("opt_out_notification_methods", enc (opt_out_notification_methods p)); ("schema_version", @enc _ u16 (p_schema_version p))];
  dec v := f ← fields true initialize_fields v; o ← defaulted "opt_out_notification_methods" [] f; s ← @defaulted _ u16 "schema_version" 0 f;
    Some {| opt_out_notification_methods := o; p_schema_version := s |};
  fits p := @fits _ u16 (p_schema_version p) |}.
Next Obligation.
  intros [o s] Hs. unfold initialize_fields. read_fields. rewrite (dec_enc o) by apply fits_strings. by read_back.
Qed.
Definition thread_fields : list string := ["kind"; "labels"].
(* src/qcue-rs/app-server-protocol/src/v2.rs 4-11 ThreadStartParams *)
#[export] Program Instance thread_start_codec : Codec ThreadStartParams := {|
  enc p := obj [("kind", enc (kind p)); ("labels", enc (labels p))];
  dec v := f ← fields true thread_fields v; k ← required "kind" f; l ← defaulted "labels" [] f; Some {| kind := k; labels := l |};
  fits _ := True |}.
Next Obligation. intros [k l] _. unfold thread_fields. read_fields. rewrite (dec_enc l) by apply fits_strings. by read_back. Qed.
(** The parameters of the first version have no labels. *)
(* src/qcue-rs/app-server-protocol/src/v1.rs 17-22 ThreadStartParams *)
Definition dec_thread_start_v1 (v : Value) : option string := f ← fields true ["kind"] v; required "kind" f.
Definition turn_fields : list string := ["thread_id"; "input"].
(* src/qcue-rs/app-server-protocol/src/v1.rs 24-30 TurnStartParams *)
#[export] Program Instance turn_start_codec : Codec TurnStartParams := {|
  enc p := obj [("thread_id", enc (t_thread_id p)); ("input", enc (input p))];
  dec v := f ← fields true turn_fields v; t ← required "thread_id" f; i ← required "input" f; Some {| t_thread_id := t; input := i |};
  fits _ := True |}.
Next Obligation. intros [t i] _. unfold turn_fields. read_fields. by read_back. Qed.
(* src/qcue-rs/app-server-protocol/src/v1.rs 98-103 IngestRunResult *)
#[export] Program Instance ingest_run_codec : Codec IngestRunResult := {|
  enc p := obj [("enqueued", @enc _ u32 (enqueued p)); ("job_ids", enc (job_ids p))];
  dec v := f ← fields false ["enqueued"; "job_ids"] v; n ← @required _ u32 "enqueued" f; l ← required "job_ids" f; Some {| enqueued := n; job_ids := l |};
  fits p := @fits _ u32 (enqueued p) |}.
Next Obligation. intros [n l] Hn. cbn [enqueued] in Hn. read_fields. rewrite (dec_enc n) by done. cbn -[enc dec]. by rewrite dec_enc by apply fits_uuids. Qed.
(* src/qcue-rs/app-server-protocol/src/v1.rs 105-110 TurnResult *)
#[export] Program Instance turn_result_codec : Codec TurnResult := {|
  enc p := obj [("turn_id", enc (turn_id p)); ("items", enc (items p))];
  dec v := f ← fields false ["turn_id"; "items"] v; t ← required "turn_id" f; l ← required "items" f; Some {| turn_id := t; items := l |};
  fits p := fits (items p) |}.
Next Obligation. intros [t l] Hl. cbn [items] in Hl. read_fields. rewrite (dec_enc t) by done. cbn -[enc dec]. by rewrite (dec_enc l Hl). Qed.
End Items.
End Items.
Import Items.

(** ** What a client pulls *)
Module Delta.
Import OpLog.Wire.
(* src/qcue-rs/protocol/src/sync.rs 6-17 SyncOp *)
#[export] Program Instance op_codec : Codec SyncOp := {|
  enc o := obj [("hlc_wall_ms", @enc _ i64 (hlc_wall_ms o)); ("hlc_lamport", @enc _ i64 (hlc_lamport o)); ("site_id", @enc _ i64 (site_id o));
    ("entity_kind", enc (entity_kind o)); ("entity_ref", enc (entity_ref o)); ("op", enc (op o))];
  dec v := f ← fields false ["hlc_wall_ms"; "hlc_lamport"; "site_id"; "entity_kind"; "entity_ref"; "op"] v;
    w ← @required _ i64 "hlc_wall_ms" f; l ← @required _ i64 "hlc_lamport" f; s ← @required _ i64 "site_id" f;
    k ← required "entity_kind" f; r ← required "entity_ref" f; o ← required "op" f;
    Some {| hlc_wall_ms := w; hlc_lamport := l; site_id := s; entity_kind := k; entity_ref := r; op := o |};
  fits o := @fits _ i64 (hlc_wall_ms o) /\ @fits _ i64 (hlc_lamport o) /\ @fits _ i64 (site_id o) |}.
Next Obligation. intros [w l s k r o] (Hw & Hl & Hs). read_fields. by read_back. Qed.
(* src/qcue-rs/protocol/src/sync.rs 19-26 WikiPageSnap *)
#[export] Program Instance page_snap_codec : Codec WikiPageSnap := {|
  enc p := obj [("slug", enc (ws_slug p)); ("title", enc (ws_title p)); ("content_hash", enc (ws_hash p)); ("sync_version", @enc _ i64 (ws_version p))];
  dec v := f ← fields false ["slug"; "title"; "content_hash"; "sync_version"] v;
    s ← required "slug" f; t ← required "title" f; h ← required "content_hash" f; n ← @required _ i64 "sync_version" f;
    Some {| ws_slug := s; ws_title := t; ws_hash := h; ws_version := n |};
  fits p := @fits _ i64 (ws_version p) |}.
Next Obligation. intros [s t h n] Hn. cbn [ws_version] in Hn. read_fields. by read_back. Qed.
(* src/qcue-rs/protocol/src/sync.rs 28-35 IdeaSnap *)
#[export] Program Instance idea_snap_codec : Codec IdeaSnap := {|
  enc p := obj [("id", enc (is_id p)); ("body", enc (is_body p)); ("origin", enc (is_origin p)); ("captured_at", enc (is_captured_at p))];
  dec v := f ← fields false ["id"; "body"; "origin"; "captured_at"] v;
    i ← required "id" f; b ← required "body" f; o ← required "origin" f; c ← required "captured_at" f;
    Some {| is_id := i; is_body := b; is_origin := o; is_captured_at := c |};
  fits _ := True |}.
Next Obligation. intros [i b o c] _. read_fields. by read_back. Qed.
(* src/qcue-rs/protocol/src/sync.rs 37-42 SyncSnapshot *)
#[export] Program Instance snapshot_codec : Codec SyncSnapshot := {|
  enc s := obj [("ideas", enc (sn_ideas s)); ("wiki_pages", enc (sn_pages s))];
  dec v := f ← fields false ["ideas"; "wiki_pages"] v; i ← required "ideas" f; w ← required "wiki_pages" f; Some {| sn_ideas := i; sn_pages := w |};
  fits s := fits (sn_ideas s) /\ fits (sn_pages s) |}.
Next Obligation. intros [i w] (Hi & Hw). cbn [sn_ideas sn_pages] in *. read_fields. rewrite (dec_enc i Hi). cbn -[enc dec]. by rewrite (dec_enc w Hw). Qed.
(** No snapshot and no operations are not written. *)
Definition delta_fields (d : SyncDelta) : list (string * Value) :=
  ("cursor", @enc _ i64 (sd_cursor d)) :: match sd_snapshot d with Some s => [("snapshot", enc s)] | None => [] end ++
  match sd_ops d with [] => [] | l => [("ops", enc l)] end.
(* src/qcue-rs/protocol/src/sync.rs 44-52 SyncDelta *)
#[export] Program Instance sync_delta_codec : Codec SyncDelta := {|
  enc d := obj (delta_fields d);
  dec v := f ← fields false ["cursor"; "snapshot"; "ops"] v;
    c ← @required _ i64 "cursor" f; s ← defaulted "snapshot" None f; l ← defaulted "ops" [] f; Some {| sd_cursor := c; sd_snapshot := s; sd_ops := l |};
  fits d := @fits _ i64 (sd_cursor d) /\ fits (sd_snapshot d) /\ fits (sd_ops d) |}.
Next Obligation.
  intros [c s l] (Hc & Hs & Hl). cbn [sd_cursor sd_snapshot sd_ops] in *.
  unfold delta_fields. cbn [sd_cursor sd_snapshot sd_ops]. destruct s as [s|], l as [|o l]; cbn [app]; read_fields; rewrite (dec_enc c Hc); cbn -[enc dec]; try done;
    try (change (enc s) with (enc (Some s)); rewrite (dec_enc (Some s) Hs); cbn -[enc dec]); try done; by rewrite (dec_enc (o :: l) Hl).
Qed.
End Delta.
Import Delta.

(** ** What a frame is read as *)
Section FrameProps.
Import Hub.Envelope Live.Session.
Context `{UuidText}.

(** The reader of a frame, by the fields it has. *)
Lemma dec_message_object m :
  dec_message (Object m) =
  match JMap.get "id" m, JMap.get "result" m, JMap.get "error" m ≫= dec_error_body, JMap.get "method" m ≫= as_str with
  | Some i, Some r, _, _ => Some (Response i r)
  | Some i, None, Some (c, t), _ => Some (ErrorFrame i c t)
  | Some i, None, None, Some s => Some (Request i s (unwrap_or (JMap.get "params" m) Null))
  | None, _, _, Some s => Some (Notification s (unwrap_or (JMap.get "params" m) Null))
  | _, _, _, None => None
  end.
Proof.
  unfold dec_message. assert (dec_response (Object m) = (i ← JMap.get "id" m; Response i <$> JMap.get "result" m)) as ->
    by (unfold dec_response; cbn; by destruct (JMap.get "id" m), (JMap.get "result" m)).
  assert (dec_error (Object m) = (i ← JMap.get "id" m; '(c, t) ← JMap.get "error" m ≫= dec_error_body; Some (ErrorFrame i c t))) as ->
    by (unfold dec_error; cbn; by destruct (JMap.get "id" m)).
  assert (dec_request (Object m) = (i ← JMap.get "id" m; s ← JMap.get "method" m ≫= as_str; Some (Request i s (unwrap_or (JMap.get "params" m) Null)))) as ->.
  { unfold dec_request. cbn -[as_str]. destruct (JMap.get "id" m); [|done]. cbn -[as_str]. destruct (JMap.get "method" m); [|done].
    cbn -[as_str]. destruct (as_str _); [|done]. cbn. unfold defaulted. cbn. by destruct (JMap.get "params" m). }
  assert (dec_notification (Object m) = (s ← JMap.get "method" m ≫= as_str; Some (Notification s (unwrap_or (JMap.get "params" m) Null)))) as ->.
  { unfold dec_notification. cbn -[as_str]. destruct (JMap.get "method" m); [|done]. cbn -[as_str]. destruct (as_str _); [|done].
    cbn. unfold defaulted. cbn. by destruct (JMap.get "params" m). }
  generalize (JMap.get "error" m ≫= dec_error_body) (JMap.get "method" m ≫= as_str) (unwrap_or (JMap.get "params" m) Null).
  by destruct (JMap.get "id" m), (JMap.get "result" m); intros [[c t]|] [s|] p.
Qed.
Lemma message_back m : message_fits m -> dec_message (enc_message m) = Some m.
Proof.
  intros Hm. destruct m as [i r|i c t|i s p|s p]; unfold enc_message;
    (match goal with |- dec_message (obj ?l) = _ => change (obj l) with (Object (JMap.of_list l)) end);
    rewrite dec_message_object, ?get_of_list by done;
    cbn [JMap.get String.eqb Ascii.eqb Bool.eqb mbind option_bind]; try done.
  unfold dec_error_body. read_fields. rewrite (@dec_enc _ i32 c Hm). by read_back.
Qed.

(** What is written is read back: every frame, whose reader tries a response, an error, a request and a
    notification in turn, and every envelope of an event; and a field that this version does not know changes
    nothing that is read, in a frame or in an envelope. *)
Theorem frames_roundtrip :
  (forall m, message_fits m -> dec_message (enc_message m) = Some m) /\
  (forall e : RuntimeEventEnvelope, fits e -> dec (enc e) = Some e) /\
  (forall k x o, is_known ["id"; "result"; "error"; "method"; "params"] k = false ->
     dec_message (Object (JMap.insert k x o)) = dec_message (Object o)) /\
  (forall k x o, is_known envelope_fields k = false ->
     @dec RuntimeEventEnvelope _ (Object (JMap.insert k x o)) = dec (Object o)).
Proof.
  split; [apply message_back|]. split; [apply dec_enc|]. split; intros k x o Hk.
  - cbn in Hk. repeat (apply orb_false_iff in Hk as [?%String.eqb_neq Hk]).
    rewrite !dec_message_object, !jmap_get_insert_ne by congruence. done.
  - pose proof (fields_unknown envelope_fields k x o Hk) as Hf. cbn [dec envelope_codec].
    destruct (fields false envelope_fields (Object o)) as [f|], (fields false envelope_fields (Object (JMap.insert k x o))) as [f'|]; try done.
    destruct Hf as [Hn Hf]. cbn [mbind option_bind]. unfold required, defaulted. by rewrite !Hf by done.
Qed.

(** A frame that carries a method is taken as a request or a notification, whatever else it carries, unless it has
    an id together with a result or a well-formed error. *)
Lemma method_is_read m s :
  JMap.get "method" m ≫= as_str = Some s -> JMap.get "result" m = None -> JMap.get "error" m ≫= dec_error_body = None ->
  exists f, dec_message (Object m) = Some f /\ method_of f = Some s /\ id_of f = JMap.get "id" m.
Proof.
  intros Hs Hr He. rewrite dec_message_object, Hs, Hr, He. destruct (JMap.get "id" m); by eexists.
Qed.
(** With the crate's parser the session answers a request that a client wrote. *)
Lemma request_is_accepted {J : Json} i s p d :
  (forall v, from_str (to_string v) = Ok v) -> s <> "initialize" -> initialized d = true -> (inflight d < capacity d)%nat ->
  let read t := match from_str t with Ok v => match dec_message v with Some m => Ok m | None => Err "no variant" end | Err e => Err e end in
  fst (handle read (to_string (enc_message (Request i s p))) d) = DOk (obj [("accepted", String_ s)]).
Proof.
  intros Hj Hs Hd Hc. cbn zeta. unfold handle. rewrite Hj, message_back by done. cbn [method_of]. rewrite (proj2 (String.eqb_neq _ _) Hs), Hd.
  cbn [negb]. destruct (Nat.leb_spec (capacity d) (inflight d)); [lia|done].
Qed.

(** An item, its parameters and a message are closed: a field that the type does not have refuses the whole. *)
Theorem unknown_fields_refused k x m :
  (is_known ["role"; "content"; "tool_call_id"; "tool_name"; "tool_calls"; "finish_reason"; "reasoning"; "provider_data"; "active"; "is_untrusted"] k = false ->
     @dec Message _ (Object (JMap.insert k x m)) = None) /\
  (is_known citation_fields k = false -> @dec Citation _ (Object (JMap.insert k x m)) = None) /\
  (is_known initialize_fields k = false -> @dec InitializeParams _ (Object (JMap.insert k x m)) = None) /\
  (is_known turn_fields k = false -> @dec TurnStartParams _ (Object (JMap.insert k x m)) = None) /\
  (is_known thread_fields k = false -> @dec ThreadStartParams _ (Object (JMap.insert k x m)) = None).
Proof.
  split_and!; intros Hk; unfold dec; cbn [message_codec citation_codec initialize_codec turn_start_codec thread_start_codec];
    by rewrite fields_denied.
Qed.
Theorem item_closed s known k x m :
  JMap.get "type" m = Some (String_ s) -> item_fields s = Some known -> is_known ("type" :: known) k = false -> jmap_wf m ->
  dec_item (Object (JMap.insert k x m)) = None.
Proof.
  intros Hs Hf Hk Hm. cbn in Hk. apply orb_false_iff in Hk as [Hne%String.eqb_neq Hk]. unfold dec_item, tagged.
  rewrite jmap_get_insert_ne, Hs by congruence. cbn [mbind option_bind as_str]. rewrite Hf. cbn [mbind option_bind fields andb].
  assert (forallb (is_known known) (JMap.keys (JMap.remove "type" (JMap.insert k x m))) = false) as ->; [|done].
  apply not_true_iff_false. rewrite forallb_forall. intros H1. unfold is_known in *. rewrite (H1 k) in Hk; [done|].
  apply list_elem_of_In, jmap_keys_get. by rewrite jmap_get_remove_ne, jmap_get_insert_eq by done.
Qed.
End FrameProps.

(** ** The frames of the crate's tests *)
Fixpoint show_bits (p : positive) : string :=
  match p with xH => "" | xO p => String "0" (show_bits p) | xI p => String "1" (show_bits p) end.
Fixpoint read_bits (s : string) : positive :=
  match s with EmptyString => xH | String c s => if Ascii.eqb c "0" then xO (read_bits s) else xI (read_bits s) end.
Definition show_uuid (u : Uuid) : string := match u with N0 => "nil" | Npos p => show_bits p end.
Definition read_uuid (s : string) : option Uuid := Some (if String.eqb s "nil" then 0%N else Npos (read_bits s)).
Lemma show_uuid_back u : read_uuid (show_uuid u) = Some u.
Proof.
  destruct u as [|p]; [done|]. assert (read_bits (show_bits p) = p) as H by (induction p as [p IH|p IH|]; cbn; rewrite ?IH; done).
  unfold read_uuid, show_uuid. rewrite H. by destruct p.
Qed.
#[export] Instance bits_text : UuidText := {| uuid_show := show_uuid; uuid_read := read_uuid; uuid_back := show_uuid_back |}.

Example frames_of_the_tests :
  dec_message (obj [("id", jnum 1); ("method", String_ "turn/start"); ("params", obj [])]) = Some (Live.Session.Request (jnum 1) "turn/start" (obj [])) /\
  dec_message (obj [("method", String_ "item/delta"); ("params", obj [])]) = Some (Live.Session.Notification "item/delta" (obj [])) /\
  @dec Hub.Envelope.RuntimeEventEnvelope _ (obj [("schema_version", jnum 1); ("thread_id", String_ "nil"); ("seq", jnum 1); ("event", String_ "itemDelta")]) =
    Some {| Hub.Envelope.schema_version := 1; Hub.Envelope.thread_id := 0%N; Hub.Envelope.turn_id := None; Hub.Envelope.seq := 1;
            Hub.Envelope.event := "itemDelta"; Hub.Envelope.payload := Null |} /\
  dec_thread_start_v1 (obj [("kind", String_ "recall"); ("labels", Array [])]) = None.
Proof. repeat split; vm_compute; reflexivity. Qed.
(** An id with a result is a response, whatever method it names: the session does not answer it. And a pair is one
    too, since a struct is also read from an array. *)
Example odd_frames :
  dec_message (obj [("id", jnum 1); ("method", String_ "turn/start"); ("result", Null)]) = Some (Live.Session.Response (jnum 1) Null) /\
  dec_message (Array [jnum 1; Null]) = Some (Live.Session.Response (jnum 1) Null).
Proof. split; vm_compute; reflexivity. Qed.
(** An opaque bag that is [null] does not come back as one. *)
Example null_bag_is_lost :
  let c := {| tc_id := None; tc_name := "f"; tc_arguments := "{}"; tc_provider_data := Some Null |} in
  tc_provider_data <$> dec (enc c) = Some None.
Proof. vm_compute. reflexivity. Qed.
