(* ===== verification/Boot.v ===== *)
(** * Start-up and the mobile bridge

    [Boot]: [app-server/src/main.rs] with the migration guard of [db.rs], the readiness probe of [health.rs],
    the gates of [jobs/spawn.rs] and the file of [wellknown.rs]; the connections, the table of migrations and the
    listener are parameters. [Ffi]: [ffi/src/lib.rs], the events of a harness as envelopes for a mobile client.
    [Router]: the layers that [router.rs] puts around the merged routes, which are a parameter, as is the layer
    that sets a header. [Layering]: the lint [xtask/src/lints.rs] over the manifests of the crates. *)
From S2P Require Import Prelude RustStr Json Protocol Turn Wiki Extract Server Jobs Vault Streams Drive Hub Codec.
From stdpp Require Import list relations.
Import Hub.Envelope Codec.Data.

#[local] Open Scope string_scope.
#[local] Open Scope list_scope.
#[local] Open Scope Z_scope.

(** ** Start-up *)
Module Boot.
Import Server.Config.
(* src/qcue-rs/app-server/src/db.rs 34-37 missing_migrations *)
Definition missing_migrations (required applied : list Z) : list Z :=
  List.filter (fun v => negb (bool_decide (v ∈ applied))) required.
(** The leading digits and underscores of a file name are dropped, its underscores are blanks. *)
(* src/qcue-rs/app-server/src/db.rs 48-50 migrations_applied *)
Definition needle_of (expected_latest : string) : string :=
  Str.replace "_" " " (Str.trim_start_matches ["_"; "0"; "1"; "2"; "3"; "4"; "5"; "6"; "7"; "8"; "9"] expected_latest).

(* src/qcue-rs/app-server/src/jobs/spawn.rs 26-26 DEFAULT_WORKERS *)
Definition DEFAULT_WORKERS : Z := 2.
(* src/qcue-rs/app-server/src/jobs/spawn.rs 29-36 gates_from *)
Definition gates_from (cfg : Config) : Jobs.WorkerGates := {|
  Jobs.gate_ingest := ingest_enabled cfg; Jobs.gate_lint := lint_enabled cfg; Jobs.gate_dream := dream_enabled cfg;
  Jobs.gate_sync := sync_enabled cfg |}.
(** [parse_usize]: [str::parse]. How many workers are spawned, none when the gate is off. *)
(* src/qcue-rs/app-server/src/jobs/spawn.rs 70-107 spawn_ingest_pool *)
Definition spawn_ingest_pool (parse_usize : string -> option Z) (var : string -> option string) (cfg : Config) : list string :=
  if ingest_enabled cfg then
    let workers := unwrap_or (opt_filter (fun n => 0 <? n) (var "INGEST_WORKER_COUNT" ≫= parse_usize)) DEFAULT_WORKERS in
    (fun i => "ingest-" +:+ pretty.pretty i) <$> (N.of_nat <$> List.seq 0 (Z.to_nat workers))
  else [].

(** How the process ends, or what it serves. [Failed]: [main] returns an error. *)
Record Serving : Type := {
  sv_cfg : Config;
  sv_kek_id : string;
  sv_workers : list string;
  sv_dream_cron : bool;
  sv_addr : string;
}.
Inductive Outcome : Type := Exit (code : Z) | Failed (e : string) | Serves (s : Serving).

Section Main.
Context `{HA : Vault.Envelope.Aead}.
(** Connecting, the versions on record with success, binding; the versions the binary was built with. *)
Context (var : string -> option string) (parse_usize : string -> option Z) (show_port : Z -> string).
Context (connect : string -> result string unit) (applied : result string (list Z)) (bind : string -> result string unit) (required : list Z).
(* src/qcue-rs/app-server/src/main.rs 54-72 main *)
Definition choose_kms (cfg : Config) : option (Vault.Envelope.Kms * string) :=
  match kms_key cfg with
  | Some master => (fun k => (k, "env-v1")) <$> Vault.Envelope.from_bytes master
  | None => Some (Vault.Envelope.StubKms, "stub-dev")
  end.
(* src/qcue-rs/app-server/src/main.rs 17-123 main *)
Definition main : Outcome :=
  match from_env var with
  | Err _ => Exit 2
  | Ok cfg =>
      match connect (database_url cfg), connect (auth_database_url cfg) with
      | Err e, _ => Failed e
      | _, Err e => Failed e
      | Ok _, Ok _ =>
          match applied with
          | Err _ => Exit 3
          | Ok l =>
              if bool_decide (missing_migrations required l = []) then
                match choose_kms cfg with
                | None => Exit 2
                | Some (_, kek_id) =>
                    let addr := bind_addr cfg +:+ ":" +:+ show_port (bind_port cfg) in
                    match bind addr with
                    | Err e => Failed e
                    | Ok _ => Serves {| sv_cfg := cfg; sv_kek_id := kek_id; sv_workers := spawn_ingest_pool parse_usize var cfg;
                                        sv_dream_cron := dream_enabled cfg; sv_addr := addr |}
                    end
                end
              else Exit 3
          end
      end
  end.

(** [select_one], [count]: the two statements of the probe. *)
(* src/qcue-rs/app-server/src/health.rs 47-56 readyz *)
Definition readyz (select_one : bool) (count : string -> result string Z) : Z :=
  if select_one && match count ("%" +:+ needle_of "users" +:+ "%") with Ok n => 0 <? n | Err _ => false end then 200 else 503.
(* src/qcue-rs/app-server/src/wellknown.rs 18-23 load_assetlinks *)
Definition load_assetlinks (read : string -> result string string) (path : string) : option string :=
  if String.eqb path "" then None else result_ok (read path).
End Main.
End Boot.
Import Boot.

(** ** The mobile bridge *)
Module Ffi.
(* src/qcue-rs/ffi/src/lib.rs 15-15 SCHEMA_VERSION *)
Definition SCHEMA_VERSION : Z := 1.
(* src/qcue-rs/ffi/src/lib.rs 19-26 KNOWN_EVENTS_V1 *)
Definition KNOWN_EVENTS_V1 : list string :=
  ["MessageStart"; "ContentBlockStart"; "ContentBlockDelta"; "ContentBlockStop"; "MessageDelta"; "MessageStop"].
(* src/qcue-rs/ffi/src/lib.rs 29-31 is_known_event_v1 *)
Definition is_known_event_v1 (kind : string) : bool := existsb (String.eqb kind) KNOWN_EVENTS_V1.
Definition kind_of (e : StreamEvent) : string :=
  match e with
  | MessageStart => "MessageStart" | ContentBlockStart _ => "ContentBlockStart" | ContentBlockDelta _ => "ContentBlockDelta"
  | ContentBlockStop => "ContentBlockStop" | MessageDelta _ _ => "MessageDelta" | MessageStop => "MessageStop"
  end.
Section Ffi.
(** What serde derives for the events. *)
Context (to_value : StreamEvent -> Value).
(* src/qcue-rs/ffi/src/lib.rs 36-54 envelope_for *)
Definition envelope_for (e : StreamEvent) : RuntimeEventEnvelope := {|
  schema_version := SCHEMA_VERSION; thread_id := 0%N; turn_id := None; seq := 0; event := kind_of e; payload := to_value e |}.
Definition with_seq (k : Z) (x : RuntimeEventEnvelope) : RuntimeEventEnvelope := {|
  schema_version := schema_version x; thread_id := thread_id x; turn_id := turn_id x; seq := k; event := event x; payload := payload x |}.
(** [cancelled k]: the token when [k] events have been forwarded and the next is awaited. *)
(* src/qcue-rs/ffi/src/lib.rs 93-119 forward_events *)
Fixpoint forward_events (cancelled : nat -> bool) (k : nat) (l : list (result ApiError StreamEvent)) : list RuntimeEventEnvelope :=
  if cancelled k then []
  else match l with
       | Ok e :: l => with_seq (Int.wrap_u64 (Z.of_nat k)) (envelope_for e) :: forward_events cancelled (S k) l
       | Err _ :: _ | [] => []
       end.
End Ffi.
End Ffi.
Import Ffi.

(** ** The layers around every route *)
Module Router.
Import Server.Limiter.
(** What the layers read of a request, and what they change of a response. *)
Record Request : Type := { rq_path : string; rq_peer : option string; rq_xff : option string; rq_origin : option string }.
Abbreviation Headers := (gmap string string).
Record Response : Type := { rs_status : Z; rs_headers : Headers; rs_body : string }.
Definition content_type (r : Response) : option string := rs_headers r !! "content-type".
Definition with_headers (f : Headers -> Headers) (r : Response) : Response := {|
  rs_status := rs_status r; rs_headers := f (rs_headers r); rs_body := rs_body r |}.

(* src/qcue-rs/app-server/src/middleware.rs 53-70 security_headers *)
Definition security_headers : list (string * string) :=
  [("x-content-type-options", "nosniff"); ("x-frame-options", "DENY");
   ("strict-transport-security", "max-age=31536000; includeSubDomains"); ("referrer-policy", "no-referrer");
   ("content-security-policy", "default-src 'none'; frame-ancestors 'none'")].
(* src/qcue-rs/app-server/src/middleware.rs 126-133 rate_limit *)
Definition too_many : Response := {|
  rs_status := 429;
  rs_headers := <["content-type" := "application/json"]> (<["retry-after" := "60"]> ∅);
  rs_body := "{" +:+ Str.quote +:+ "error" +:+ Str.quote +:+ ":{" +:+ Str.quote +:+ "code" +:+ Str.quote +:+ ":-32001," +:+
    Str.quote +:+ "message" +:+ Str.quote +:+ ":" +:+ Str.quote +:+ "rate limited" +:+ Str.quote +:+ "}}" |}.
(* src/qcue-rs/app-server/src/middleware.rs 30-30 origin_reject *)
Definition forbidden : Response := {| rs_status := 403; rs_headers := ∅; rs_body := "" |}.
(* src/qcue-rs/app-server/src/middleware.rs 40-51 json_charset *)
Definition tag_json (r : Response) : Response :=
  with_headers (fun h => match json_charset (h !! "content-type") with Some v => <["content-type" := v]> h | None => h end) r.

Section Router.
(** [overriding k v]: the layer that sets the header [k] of a response. [routes]: the merged routers with the answer
    for an unknown path, over the state [S] they share. *)
Context {S : Type} (overriding : string -> string -> Response -> Response) (routes : Request -> S -> Response * S).
(* src/qcue-rs/app-server/src/router.rs 60-63 build_router *)
Definition secured (r : Response) : Response := foldl (fun r kv => overriding (fst kv) (snd kv) r) r security_headers.
(** The last layer is the outermost. [cap] is [MAX_TRACKED_KEYS], [now] the clock of the limiter. *)
(* src/qcue-rs/app-server/src/router.rs 51-71 build_router *)
Definition build_router (cfg : Server.Config.Config) (cap now : Z) (r : Request) (st : Buckets * S) : Response * (Buckets * S) :=
  let '(pass, m) := rate_limit cap now (rq_path r) (client_ip (rq_peer r) (rq_xff r) (Server.Config.trusted_proxy cfg)) (fst st) in
  if pass then
    if origin_reject (Server.Config.app_origins cfg) (rq_origin r) then
      let '(resp, s) := routes r (snd st) in (tag_json (secured resp), (m, s))
    else (forbidden, (m, snd st))
  else (too_many, (m, snd st)).
End Router.
End Router.

(** ** The layering lint of the build *)
Module Layering.
(* src/qcue-rs/xtask/src/lints.rs 16-16 LAYER_ORDER *)
Definition LAYER_ORDER : list string := ["protocol"; "http"; "llm-api"; "providers"; "router"].
(** [l.split(['=', ' ', '.']).next()] *)
Fixpoint first_token (l : string) : string :=
  match l with
  | EmptyString => ""
  | String c l => if Ascii.eqb c "=" || Ascii.eqb c " " || Ascii.eqb c "." then "" else String c (first_token l)
  end.
(* src/qcue-rs/xtask/src/lints.rs 27-42 manifest_deps *)
Definition manifest_line (acc : bool * list string) (line : string) : bool * list string :=
  let '(in_deps, out) := acc in
  let l := Str.trim line in
  if Str.starts_with "[" l then (String.eqb l "[dependencies]", out)
  else if in_deps then
    let name := Str.trim (first_token l) in
    (in_deps, if String.eqb name "" then out else out ++ [name])
  else (in_deps, out).
(** [toml]: the manifest, [None] when it cannot be read. The set is the list of its insertions. *)
(* src/qcue-rs/xtask/src/lints.rs 18-44 manifest_deps *)
Definition manifest_deps (toml : option string) : list string :=
  match toml with Some t => snd (foldl manifest_line (false, []) (Str.lines t)) | None => [] end.

Section Lints.
(** [manifest krate]: what its [Cargo.toml] reads. *)
Context (manifest : string -> option string).
(* src/qcue-rs/xtask/src/lints.rs 46-57 check_layering_law *)
Definition check_layering_law : list string :=
  mjoin (imap (fun height krate =>
    let deps := manifest_deps (manifest krate) in
    mjoin (imap (fun upper_height upper =>
      if Nat.ltb height upper_height && existsb (String.eqb upper) deps then [krate +:+ " -> " +:+ upper +:+ " (upward edge)"] else [])
      LAYER_ORDER)) LAYER_ORDER).
(* src/qcue-rs/xtask/src/lints.rs 60-69 check_protocol_deps_minimal *)
Definition allow : list string := ["serde"; "serde_json"; "thiserror"; "uuid"; "chrono"; "ts-rs"; "schemars"; "futures-core"].
(* src/qcue-rs/xtask/src/lints.rs 83-90 check_protocol_deps_minimal *)
Definition code_of (body : string) : string :=
  Str.join Str.lf ((fun line => match Str.find "//" line with Some idx => Str.take idx line | None => line end) <$> Str.lines body).
(** [files]: the Rust files under [protocol/src] with what they read as, in the order of the walk; the problems of the
    dependencies come in the order of the set. *)
(* src/qcue-rs/xtask/src/lints.rs 59-98 check_protocol_deps_minimal *)
Definition check_protocol_deps_minimal (files : list (string * option string)) : list string :=
  mjoin ((fun dep => if existsb (String.eqb dep) allow then [] else ["protocol depends on non-allowlisted `" +:+ dep +:+ "`"])
    <$> remove_dups (manifest_deps (manifest "protocol"))) ++
  mjoin ((fun pb =>
    let code := code_of (unwrap_or (snd pb) "") in
    mjoin ((fun token => if Str.contains token code then [fst pb +:+ ": forbidden token `" +:+ token +:+ "`"] else [])
      <$> ["async fn"; "tokio::"; "reqwest"; "sqlx"])) <$> files).
(* src/qcue-rs/xtask/src/main.rs 3-15 main *)
Definition exit_code (files : list (string * option string)) : Z :=
  match check_layering_law, check_protocol_deps_minimal files with [], [] => 0 | _, _ => 1 end.
End Lints.
End Layering.

(** ** The scripted providers *)
Module Stub.
(** The events of a script, and the failure that takes their place. *)
(* src/qcue-rs/router/src/stub.rs 128-153 stream *)
Definition stream (x : StubScript) : list (result ApiError StreamEvent) :=
  match st_error x with
  | Some e => [Err e]
  | None => Ok <$>
      ([MessageStart] ++
       match st_thinking x with Some t => [ContentBlockStart BThinking; ContentBlockDelta (ThinkingDelta t); ContentBlockStop] | None => [] end ++
       match st_text x with Some t => [ContentBlockStart BText; ContentBlockDelta (TextDelta t); ContentBlockStop] | None => [] end ++
       match st_tool x with
       | Some (name, args) => [ContentBlockStart (BToolUse "call_0" name); ContentBlockDelta (InputJsonDelta args); ContentBlockStop]
       | None => []
       end ++
       [MessageDelta (Some (st_finish x)) (st_usage x); MessageStop])
  end.
(** The turn of the bridge: [ffi_run_turn] is this with the sink of the runtime. *)
(* src/qcue-rs/ffi/src/bridge.rs 66-72 run_turn_into *)
Definition run_turn_into (x : StubScript) (cancelled : nat -> bool) : list RuntimeEventEnvelope :=
  Ffi.forward_events Serde.enc cancelled 0 (stream x).

(** The scripted model of the wiki. *)
(* src/qcue-rs/wiki/src/llm.rs 125-130 StubWikiLlm *)
Record StubWikiLlm : Type := { responses : list string; last_system : string; last_tail : string; calls : Z }.
(* src/qcue-rs/wiki/src/llm.rs 133-140 scripted *)
Definition scripted (rs : list string) : StubWikiLlm := {| responses := rs; last_system := ""; last_tail := ""; calls := 0 |}.
(** The last message that has a content. *)
Definition tail_of (l : list Message) : string := unwrap_or (head (omap content (rev l))) "".
(* src/qcue-rs/wiki/src/llm.rs 166-190 create_message *)
Definition create_message (req : Factory.WikiReq) (m : StubWikiLlm) : result Analyzer.WikiLlmError Analyzer.WikiResp * StubWikiLlm :=
  let '(body, rest) := match responses m with r :: rest => (r, rest) | [] => ("{}", []) end in
  (if String.eqb body "__ERROR__" then Err (Analyzer.Provider "scripted error")
   else Ok {| Analyzer.resp_content := body; Analyzer.truncated := false |},
   {| responses := rest; last_system := Factory.stable_prefix req; last_tail := tail_of (Factory.messages req); calls := Int.wrap_u64 (calls m + 1) |}).
End Stub.

(** ** What boots *)

Lemma none_missing required l : missing_migrations required l = [] <-> forall v, v ∈ required -> v ∈ l.
Proof.
  unfold missing_migrations. induction required as [|v r IH]; cbn [List.filter]; [by split; [intros _ v ?%not_elem_of_nil|]|].
  case_bool_decide as Hv; cbn [negb].
  - rewrite IH. split; [intros H x [->|Hx]%elem_of_cons; auto|intros H x Hx; apply H; by right].
  - split; [done|]. intros H. destruct Hv. apply H. by left.
Qed.
Lemma validate_kms `{HA : Vault.Envelope.Aead} r cfg : Server.Config.validate r = Ok cfg -> choose_kms cfg <> None.
Proof.
  unfold Server.Config.validate. destruct (_ || _); [done|]. destruct (String.eqb _ _); [done|]. destruct (String.eqb _ _); [done|].
  destruct (match Server.Config.kms_key r with Some _ => _ | None => _ end) eqn:Hk; [done|]. intros [= <-]. unfold choose_kms.
  destruct (Server.Config.kms_key r) as [k|]; [|done]. unfold Vault.Envelope.from_bytes. by rewrite Hk.
Qed.
Lemma config_kms `{HA : Vault.Envelope.Aead} var cfg : Server.Config.from_env var = Ok cfg -> choose_kms cfg <> None.
Proof. intros H. eapply validate_kms, H. Qed.

(** A server that serves has a valid configuration, reached both databases, found every migration it was built
    with on record and bound its address, and it wraps keys with the master key exactly when there is one. It exits
    with 2 only over its configuration (the exit for an invalid master key is never taken), with 3 only when a
    migration is missing or the table of migrations cannot be read. *)
Theorem boots_migrated `{HA : Vault.Envelope.Aead} var parse_usize show_port connect applied bind required :
  let out := main var parse_usize show_port connect applied bind required in
  (match out with
   | Serves s => Server.Config.from_env var = Ok (sv_cfg s) /\ (exists l, applied = Ok l /\ forall v, v ∈ required -> v ∈ l) /\
       connect (Server.Config.database_url (sv_cfg s)) = Ok tt /\ connect (Server.Config.auth_database_url (sv_cfg s)) = Ok tt /\
       bind (sv_addr s) = Ok tt /\
       (sv_kek_id s = "env-v1" <-> Server.Config.kms_key (sv_cfg s) <> None)
   | Exit code => code = 2 /\ (exists e, Server.Config.from_env var = Err e) \/
       code = 3 /\ forall l, applied = Ok l -> exists v, v ∈ required /\ v ∉ l
   | Failed e => exists x, connect x = Err e \/ bind x = Err e
   end).
Proof.
  cbv zeta. unfold main. destruct (Server.Config.from_env var) as [cfg|e] eqn:Hc; [|left; split; [done|by exists e]].
  destruct (connect (Server.Config.database_url cfg)) as [[]|e1] eqn:H1; [|by exists (Server.Config.database_url cfg); left].
  destruct (connect (Server.Config.auth_database_url cfg)) as [[]|e2] eqn:H2; [|by exists (Server.Config.auth_database_url cfg); left].
  destruct applied as [l|e]; [|right; by split].
  case_bool_decide as Hm.
  - pose proof (config_kms _ _ Hc) as Hk. destruct (choose_kms cfg) as [[kms kek]|] eqn:Hkms; [|done].
    destruct (bind _) as [[]|e] eqn:Hb; [|eexists; right; exact Hb]. cbn. split_and!; try done; [exists l; split; [done|by apply none_missing]|];
      unfold choose_kms in Hkms; destruct (Server.Config.kms_key cfg); try done.
    + destruct (Vault.Envelope.from_bytes _); [|done]. by injection Hkms as _ <-.
    + injection Hkms as _ <-. done.
  - right. split; [done|]. intros l' [= <-]. destruct (missing_migrations required l) as [|v m] eqn:Hv; [done|].
    assert (v ∈ missing_migrations required l) as Hin by (rewrite Hv; by left). apply list_elem_of_In, filter_In in Hin as [Hin Hn].
    exists v. split; [by apply list_elem_of_In|]. by apply negb_true_iff, bool_decide_eq_false in Hn.
Qed.

(** ** What crosses the bridge *)

(** The events of a stream that come before its first error. *)
Fixpoint healthy (l : list (result ApiError StreamEvent)) : list StreamEvent :=
  match l with Ok e :: l => e :: healthy l | _ => [] end.

(** What is forwarded is a prefix of the events before the first error, in order, all of them when nobody
    cancels; the numbers count from 0 without a gap, and a client of the first version knows every kind. *)
Section Forwarding.
Context (to_value : StreamEvent -> Value) (cancelled : nat -> bool).

Lemma forward_prefix l k : exists n, payload <$> forward_events to_value cancelled k l = to_value <$> take n (healthy l).
Proof.
  revert k. induction l as [|[e|e] l IH]; intros k; cbn [forward_events healthy]; destruct (cancelled k); try (by exists 0%nat).
  destruct (IH (S k)) as [n Hn]. exists (S n). cbn. by rewrite Hn.
Qed.
Lemma forward_all l k : (forall k, cancelled k = false) -> payload <$> forward_events to_value cancelled k l = to_value <$> healthy l.
Proof.
  intros Hc. revert k. induction l as [|[e|e] l IH]; intros k; cbn [forward_events healthy]; rewrite Hc; [done| |done].
  cbn. by rewrite IH.
Qed.
Lemma forward_seq l k i x : Z.of_nat (k + length l) <= Int.u64_max -> forward_events to_value cancelled k l !! i = Some x -> seq x = Z.of_nat (k + i).
Proof.
  revert k i. induction l as [|[e|e] l IH]; intros k i Hk; cbn [forward_events]; destruct (cancelled k); try done.
  cbn [length] in Hk. destruct i as [|i]; cbn [lookup list_lookup].
  - intros [= <-]. cbn. unfold Int.wrap_u64, Int.u64_max in *. rewrite Z.mod_small; lia.
  - intros Hx. rewrite (IH (S k) i ltac:(lia) Hx). lia.
Qed.
Lemma forward_known l k : Forall (fun x => is_known_event_v1 (event x) = true) (forward_events to_value cancelled k l).
Proof.
  revert k. induction l as [|[e|e] l IH]; intros k; cbn [forward_events]; destruct (cancelled k); constructor; [|apply IH].
  by destruct e.
Qed.
End Forwarding.

(** What is forwarded is a prefix of the events before the first error, in order, all of them when nobody
    cancels; the numbers count from 0 without a gap, and a client of the first version knows every kind. *)
Theorem forwards_in_order to_value cancelled l :
  Z.of_nat (length l) <= Int.u64_max ->
  let out := forward_events to_value cancelled 0 l in
  (exists n, payload <$> out = to_value <$> take n (healthy l)) /\
  ((forall k, cancelled k = false) -> payload <$> out = to_value <$> healthy l) /\
  (forall i x, out !! i = Some x -> seq x = Z.of_nat i) /\
  Forall (fun x => is_known_event_v1 (event x) = true) out.
Proof.
  intros Hl. split_and!; [apply forward_prefix|apply forward_all| |apply forward_known].
  intros i x. by apply (forward_seq to_value cancelled l 0).
Qed.

(** What a bridge forwards of a script agrees with what the provider answers to it: the deltas of the text and of
    the thinking are the content and the reasoning of the response, its tool is called with the same id, name and
    arguments; the blocks are bracketed; and a script that fails forwards nothing. *)
Definition text_of (e : StreamEvent) : option string := match e with ContentBlockDelta (TextDelta t) => Some t | _ => None end.
Definition thinking_of (e : StreamEvent) : option string := match e with ContentBlockDelta (ThinkingDelta t) => Some t | _ => None end.
Definition arguments_of (e : StreamEvent) : option string := match e with ContentBlockDelta (InputJsonDelta a) => Some a | _ => None end.
Definition call_of (e : StreamEvent) : option (string * string) := match e with ContentBlockStart (BToolUse i n) => Some (i, n) | _ => None end.
Theorem stub_stream_agrees {F N : Type} (x : StubScript) req (w : @Seam.World F N) :
  match fst (Seam.stub_complete x req w) with
  | Ok nr =>
      let evs := healthy (Stub.stream x) in
      payload <$> Stub.run_turn_into x (fun _ => false) = Serde.enc <$> evs /\
      omap text_of evs = match nr_content nr with Some t => [t] | None => [] end /\
      omap thinking_of evs = match nr_reasoning nr with Some t => [t] | None => [] end /\
      omap call_of evs = (fun tc => (unwrap_or (tc_id tc) "", tc_name tc)) <$> unwrap_or (nr_tool_calls nr) [] /\
      omap arguments_of evs = tc_arguments <$> unwrap_or (nr_tool_calls nr) [] /\
      last evs = Some MessageStop /\ is_Some (brackets ResponsesSse.RNone evs)
  | Err _ => Stub.run_turn_into x (fun _ => false) = []
  end.
Proof.
  unfold Seam.stub_complete, Stub.run_turn_into, Stub.stream. cbn [fst]. destruct x as [think text tool fin err reason usage]. cbn.
  destruct err; [done|]. cbn zeta.
  destruct think, text, tool as [[name args]|]; cbn; (split; [done|]); (split; [done|]); (split; [done|]); (split; [done|]); (split; [done|]);
    (split; [done|]); by eexists.
Qed.

(** ** What the layers do *)
Section Layers.
Context {S : Type} (overriding : string -> string -> Router.Response -> Router.Response).
Context (routes : Router.Request -> S -> Router.Response * S).
(** The layer replaces the header and leaves the others. *)
Hypothesis overriding_here : forall k v r, Router.rs_headers (overriding k v r) !! k = Some v.
Hypothesis overriding_there : forall k k' v r, k <> k' -> Router.rs_headers (overriding k v r) !! k' = Router.rs_headers r !! k'.

Lemma overridden l r k v :
  NoDup (fst <$> l) -> (k, v) ∈ l -> Router.rs_headers (foldl (fun r kv => overriding (fst kv) (snd kv) r) r l) !! k = Some v.
Proof.
  induction l as [|[k' v'] l IH] using rev_ind; [by intros _ ?%not_elem_of_nil|]. rewrite fmap_app, NoDup_app. cbn.
  intros (Hn & Hd & _) [Hin|[= -> ->]%list_elem_of_singleton]%elem_of_app; rewrite foldl_app; cbn; [|apply overriding_here].
  rewrite overriding_there; [by apply IH|]. intros ->.
  apply (Hd k); [apply list_elem_of_fmap; by exists (k, v)|by left].
Qed.
Lemma secured_headers r : Forall (fun kv => Router.rs_headers (Router.secured overriding r) !! fst kv = Some (snd kv)) Router.security_headers.
Proof. apply Forall_forall. intros [k v] Hin. apply overridden; [|done]. by apply (bool_decide_unpack _). Qed.
Lemma tag_json_others r k : k <> "content-type" -> Router.rs_headers (Router.tag_json r) !! k = Router.rs_headers r !! k.
Proof. intros Hk. cbn. destruct (Server.Limiter.json_charset _); [by rewrite lookup_insert_ne|done]. Qed.
Lemma tag_json_tagged r : Router.content_type (Router.tag_json r) <> Some "application/json".
Proof.
  unfold Router.content_type. cbn. unfold Server.Limiter.json_charset. case_bool_decide as H; [by rewrite lookup_insert_eq|].
  destruct (_ !! _) as [v|] eqn:Hv; [by rewrite lookup_insert_eq|by rewrite Hv].
Qed.

(** A request over its limit is answered 429 and one from a foreign origin 403, both without reaching a route; every
    other response carries the five security headers and no untagged JSON. *)
Theorem layered cfg cap now r m s :
  let ip := Server.Limiter.client_ip (Router.rq_peer r) (Router.rq_xff r) (Server.Config.trusted_proxy cfg) in
  let '(pass, m') := Server.Limiter.rate_limit cap now (Router.rq_path r) ip m in
  let '(resp, (m1, s1)) := Router.build_router overriding routes cfg cap now r (m, s) in
  m1 = m' /\
  ((pass = false /\ resp = Router.too_many /\ s1 = s) \/
   (pass = true /\ resp = Router.forbidden /\ s1 = s /\ exists o, Router.rq_origin r = Some o /\ o ∉ Server.Config.app_origins cfg) \/
   (pass = true /\ s1 = snd (routes r s) /\ (forall o, Router.rq_origin r = Some o -> o ∈ Server.Config.app_origins cfg) /\
    Forall (fun kv => Router.rs_headers resp !! fst kv = Some (snd kv)) Router.security_headers /\
    Router.content_type resp <> Some "application/json")).
Proof.
  cbn zeta. unfold Router.build_router. cbn [fst snd]. destruct (Server.Limiter.rate_limit _ _ _ _ m) as [[] m'].
  - destruct (Server.Limiter.origin_reject _ _) eqn:Ho; unfold Server.Limiter.origin_reject in Ho.
    + destruct (routes r s) as [resp s'] eqn:Hr. split; [done|]. right; right. split_and!; [done..| | |apply tag_json_tagged].
      * intros o Heq. rewrite Heq in Ho. apply existsb_exists in Ho as (x & Hx & ->%String.eqb_eq). by apply list_elem_of_In.
      * pose proof (secured_headers resp) as Hs. rewrite Forall_forall in Hs |- *. intros [k v] Hin. pose proof (Hs _ Hin) as Hv. cbn [fst snd] in *. rewrite tag_json_others; [done|]. intros ->. revert v Hin Hv.
        assert ("content-type" ∉ (fst <$> Router.security_headers)) as Hno by by apply (bool_decide_unpack _).
        intros v Hin _. apply Hno, list_elem_of_fmap. by exists ("content-type", v).
    + split; [done|]. right; left. split_and!; [done..|]. destruct (Router.rq_origin r) as [o|]; [|done]. exists o. split; [done|].
      intros Hin%list_elem_of_In. apply not_true_iff_false in Ho. apply Ho, existsb_exists. exists o. split; [done|apply String.eqb_refl].
  - split; [done|]. by left.
Qed.
End Layers.

(** The answers of the two outer layers pass by the inner ones: they have no security header, and the body of the
    429 is untagged JSON. *)
Example refusals_are_bare :
  Router.content_type Router.too_many = Some "application/json" /\
  Forall (fun kv => Router.rs_headers Router.too_many !! fst kv = None /\ Router.rs_headers Router.forbidden !! fst kv = None) Router.security_headers.
Proof. split; [reflexivity|]. repeat constructor. Qed.

(** ** What the layering lint rules out *)
Section Acyclic.
Context (manifest : string -> option string).
(** The crate [a] names [b] among its dependencies; both are layers. *)
Definition depends (a b : string) : Prop :=
  a ∈ Layering.LAYER_ORDER /\ b ∈ Layering.LAYER_ORDER /\ b ∈ Layering.manifest_deps (manifest a).

Lemma mjoin_imap_nil {A} (f : nat -> A -> list string) l :
  mjoin (imap f l) = [] <-> forall i x, l !! i = Some x -> f i x = [].
Proof.
  revert f. induction l as [|a l IH]; intros f; [done|]. cbn [imap mjoin list_join]. split.
  - intros [H1 H2]%app_nil. intros [|i] x; cbn; [by intros [= ->]|]. by apply (proj1 (IH _) H2).
  - intros H. apply app_nil. split; [by apply (H 0%nat)|]. apply IH. intros i x Hx. by apply (H (S i)).
Qed.
Lemma no_upward :
  Layering.check_layering_law manifest = [] <->
  forall i j a b, Layering.LAYER_ORDER !! i = Some a -> Layering.LAYER_ORDER !! j = Some b ->
    b ∈ Layering.manifest_deps (manifest a) -> (j <= i)%nat.
Proof.
  unfold Layering.check_layering_law. rewrite mjoin_imap_nil. split.
  - intros H i j a b Hi Hj Hin. specialize (H i a Hi). cbn zeta in H. rewrite mjoin_imap_nil in H. specialize (H j b Hj).
    assert (existsb (String.eqb b) (Layering.manifest_deps (manifest a)) = true) as He
      by (apply existsb_exists; exists b; split; [by apply list_elem_of_In|apply String.eqb_refl]).
    rewrite He, andb_true_r in H. destruct (Nat.ltb_spec i j); [done|lia].
  - intros H i a Hi. cbn zeta. rewrite mjoin_imap_nil. intros j b Hj. destruct (Nat.ltb_spec i j); [|done].
    destruct (existsb _ _) eqn:He; [|done]. apply existsb_exists in He as (x & Hx%list_elem_of_In & <-%String.eqb_eq).
    specialize (H i j a b Hi Hj Hx). lia.
Qed.

(** When the lint reports nothing no two layers depend on each other, directly or through other layers. *)
Theorem layering_acyclic a b :
  Layering.check_layering_law manifest = [] -> rtc depends a b -> rtc depends b a -> a = b.
Proof.
  intros H. assert (forall a b, rtc depends a b -> a = b \/ exists i j, Layering.LAYER_ORDER !! i = Some a /\
    Layering.LAYER_ORDER !! j = Some b /\ (j <= i)%nat) as Hdown.
  { intros x y. induction 1 as [|x y z (Hx & Hy & Hd) _ [->|(i & j & Hi & Hj & Hle)]]; [by left| |]; right;
      apply list_elem_of_lookup in Hx as [i' Hx], Hy as [j' Hy]; pose proof (proj1 no_upward H _ _ _ _ Hx Hy Hd).
    - by exists i', j'.
    - exists i', j. split_and!; [done..|]. assert (j' = i) as -> by (eapply NoDup_lookup; [|done..]; by apply (bool_decide_unpack _)). lia. }
  intros [->|(i & j & Hi & Hj & Hle)]%Hdown; [done|]. intros [->|(i' & j' & Hi' & Hj' & Hle')]%Hdown; [done|].
  assert (NoDup Layering.LAYER_ORDER) as Hnd by by apply (bool_decide_unpack _).
  assert (i' = j) as -> by (by eapply NoDup_lookup). assert (j' = i) as -> by (by eapply NoDup_lookup).
  assert (i = j) as -> by lia. congruence.
Qed.
End Acyclic.

(** The lint reads only the plain table: a dependency with a table of its own is not seen. *)
Example table_dependency_missed :
  Layering.manifest_deps (Some ("[dependencies.router]" +:+ Str.lf +:+ "path = ../router" +:+ Str.lf)) = [] /\
  Layering.manifest_deps (Some ("[dependencies]" +:+ Str.lf +:+ "router.workspace = true" +:+ Str.lf)) = ["router"].
Proof. split; vm_compute; reflexivity. Qed.
