(* ===== verification/Flow.v ===== *)
(** * From a capture to its page

    The seam between [app-server/src/capture], [jobs/spawn.rs], [jobs/worker.rs], [app-server/src/ingest] and
    [wiki/src/ingest.rs]: what becomes of the job a capture queued when the pool's workers take it with the ingest
    handler. Unlike [Jobs], which knows a handler only by its answer, the handler here may panic, as the ingest does:
    the panic unwinds the pass, whose transaction is rolled back, and ends the task of its worker. The ticks of the
    workers come one after another; passes that overlap are the subject of [Jobs.Sched]. *)
From S2P Require Import Prelude RustStr Json Protocol Fence Jobs WikiText Wiki Extract Ideas Cost Redact OpLog Server Capture Ingest.
From stdpp Require Import list pretty.
Import Paths Conflict Repo Gate Factory Items Pipeline.

#[local] Open Scope string_scope.
#[local] Open Scope list_scope.
#[local] Open Scope Z_scope.

(** ** The pool with its handler *)
Section Pool.
Context {F L : Type} `{Os F} `{Unicode} `{Json} (sha256_hex : string -> string) (new_id : Db -> Uuid).
Context (quota : TenantQuota).
Context (create_message : Uuid -> WikiReq -> L -> result Analyzer.WikiLlmError Analyzer.WikiResp * L).
Context (check_ledger : Uuid -> Uuid -> L -> result Guard.CostError unit * L).
Context (sa_from_value : Value -> option Analyzer.SourceAnalysis) (item_from_value : Value -> option Analyzer.ItemInfo).
Context (contradictions_from_value : Value -> option (list Analyzer.ContradictionInfo)).
Context (sa_to_value : Analyzer.SourceAnalysis -> Value).
Context (updated : PageRow -> Z).
Context (pick : @Sys F (L * list Ev) -> nat).
Context (parse_uuid : string -> option Uuid) (uuid_text : Uuid -> string).
(** The database's clock, which moves with the rest of the outside. *)
Context (read_clock : L -> Z * L).

(** Tables, files and the outside; whether the handler that ran last panicked. *)
Record World : Type := { w_st : @St F L; w_panicked : bool }.
Definition clock (w : World) : Z * World :=
  let '(now, l) := read_clock (fst (s_llm (w_st w))) in
  (now, {| w_st := with_llm (l, snd (s_llm (w_st w))) (w_st w); w_panicked := w_panicked w |}).

(** The handler at the times its last two transactions read. *)
Definition ingest_handler (h : Handler.IngestHandler) : @JobHandler World := fun job w =>
  let '(now, w) := clock w in
  let '(stamp, w) := clock w in
  match Handler.handle sha256_hex new_id quota create_message check_ledger sa_from_value item_from_value
          contradictions_from_value sa_to_value updated now stamp pick parse_uuid uuid_text h job (w_st w) with
  | (Ret v, s) => (Ok v, {| w_st := s; w_panicked := false |})
  | (Failed e, s) => (Err e, {| w_st := s; w_panicked := false |})
  | (Panicked, s) => (Err "", {| w_st := s; w_panicked := true |})
  end.
Definition registry (h : Handler.IngestHandler) : @HandlerRegistry World := with_ingest (ingest_handler h) registry_new.

(** What a pass came to: nothing to claim, a job settled, or a panic, after which the table is as before. *)
Inductive Pass : Type := Idle | Settled (job : Uuid) (t : Table) | Unwound.
Context (h : Handler.IngestHandler).
(* src/qcue-rs/app-server/src/jobs/worker.rs 187-216 run_once *)
Definition pass (tenant : Uuid) (worker : string) (t : Table) (w : World) : Pass * World :=
  match run_pass clock tenant Ingest worker (handler_for (registry h) Ingest) t w with
  | (None, w) => (Idle, w)
  | (Some (t', i), w) => (if w_panicked w then Unwound else Settled i t', w)
  end.
(** [None]: out of fuel. Otherwise whether a pass was unwound, and what is left. *)
Fixpoint drain (fuel : nat) (tenant : Uuid) (worker : string) (t : Table) (w : World) : option (bool * Table * World) :=
  match fuel with
  | O => None
  | S fuel =>
      match pass tenant worker t w with
      | (Idle, w) => Some (false, t, w)
      | (Unwound, w) => Some (true, t, w)
      | (Settled _ t, w) => drain fuel tenant worker t w
      end
  end.
(** A panic ends the whole tick; the fuel is what [drain_ends] shows to be enough. *)
(* src/qcue-rs/app-server/src/jobs/spawn.rs 49-65 ingest_tick *)
Fixpoint tick (g : WorkerGates) (worker : string) (tenants : list Uuid) (t : Table) (w : World) : option (bool * Table * World) :=
  match tenants with
  | [] => Some (false, t, w)
  | tenant :: tenants =>
      let '(now, w) := clock w in
      let t := snd (reclaim_stale now tenant t) in
      if enabled g Ingest then
        match drain (S (potential tenant t)) tenant worker t w with
        | None => None
        | Some (true, t, w) => Some (true, t, w)
        | Some (false, t, w) => tick g worker tenants t w
        end
      else tick g worker tenants t w
  end.

(** The pool: the workers whose tasks still run, and what they share. A task whose tick is unwound is gone. *)
Record Pool : Type := { p_alive : list string; p_jobs : Table; p_world : World }.
(* src/qcue-rs/app-server/src/jobs/spawn.rs 90-104 spawn_ingest_pool *)
Definition pool_tick (g : WorkerGates) (e : string * list Uuid) (p : Pool) : option Pool :=
  if bool_decide (fst e ∈ p_alive p) then
    '(unwound, t, w) ← tick g (fst e) (snd e) (p_jobs p) (p_world p);
    Some {| p_alive := if unwound : bool then filter (fun x => x <> fst e) (p_alive p) else p_alive p;
            p_jobs := t; p_world := w |}
  else Some p.
(** The ticks that come: which worker, and the tenants its scan lists. *)
Fixpoint pool_run (g : WorkerGates) (ticks : list (string * list Uuid)) (p : Pool) : option Pool :=
  match ticks with
  | [] => Some p
  | e :: ticks => pool_tick g e p ≫= pool_run g ticks
  end.
End Pool.
Arguments World : clear implicits.
Arguments Pool : clear implicits.

(** * Properties *)

(** ** The source page of a capture *)
(** A live source page of the tenant cites the capture. *)
Definition cites_source (tenant i : Uuid) (r : PageRow) : bool :=
  live tenant r && String.eqb (type_ r) "source" && existsb (N.eqb i) (source_ids r).
Definition sourced (tenant i : Uuid) (db : Db) : Prop := exists r, r ∈ pages db /\ cites_source tenant i r = true.

Lemma sourced_slug (updated : PageRow -> Z) (tenant i : Uuid) (db : Db) :
  sourced tenant i db -> IdeasRepo.source_page_slug updated tenant i db <> None.
Proof.
  intros (r & Hr & Hc). unfold IdeasRepo.source_page_slug.
  match goal with |- context [sort_by ?le ?l] => pose proof (sort_by_perm le l) as Hp end.
  destruct (sort_by _ _); [|done]. apply Permutation_nil in Hp.
  assert (r ∈ @nil PageRow) as Hn; [|inv Hn]. rewrite <- Hp. by apply list_elem_of_filter.
Qed.

Lemma cites_true (tenant i : Uuid) (r : PageRow) :
  cites_source tenant i r = true <-> live tenant r = true /\ type_ r = "source" /\ i ∈ source_ids r.
Proof.
  unfold cites_source. rewrite !andb_true_iff, String.eqb_eq, existsb_exists. split.
  - intros [[Hl Ht] (x & Hx & ->%N.eqb_eq)]. by rewrite list_elem_of_In.
  - intros (Hl & Ht & Hi). split; [done|]. exists i. by rewrite <- list_elem_of_In, N.eqb_refl.
Qed.
Lemma cites_updated (tenant i : Uuid) (p : PageUpsert) (r : PageRow) :
  live tenant r = true -> type_ r = "source" -> i ∈ source_ids r \/ i ∈ u_source_ids p ->
  cites_source tenant i (updated_row p r) = true.
Proof.
  intros Hl Ht Hi. apply cites_true. split; [exact Hl|]. split; [done|]. by apply elem_of_remove_dups, elem_of_app.
Qed.

Section Sources.
Context {F : Type} `{Os F} (sha256_hex : string -> string) (new_id : Db -> Uuid).
Context (vault_root : Path) (quota : TenantQuota).
#[local] Abbreviation write_page' := (write_page sha256_hex new_id vault_root quota).

(** No write loses a citation. *)
Lemma sourced_upsert (t tenant i j : Uuid) (p : PageUpsert) (db db' : Db) :
  upsert_page new_id t p db = Ok (j, db') -> sourced tenant i db -> sourced tenant i db'.
Proof.
  unfold upsert_page. destruct (parse (u_type p)); [|done].
  destruct (find_first (same_key t p) (pages db)); intros [= <- <-] (r & Hr & Hc).
  - exists (if same_key t p r then updated_row p r else r). split; [apply list_elem_of_fmap; by exists r|].
    case_bool; [|done]. apply cites_true in Hc as (Hl & Ht & Hi). apply cites_updated; auto.
  - exists r. split; [apply elem_of_app; by left|done].
Qed.
Lemma sourced_write (t tenant i : Uuid) (w : PageWrite) (db : Db) (f : F) :
  sourced tenant i db -> sourced tenant i (snd (fst (write_page' t w db f))).
Proof.
  intros Hs. unfold write_page. destruct (over_quota _ _ _); [done|].
  destruct (create_dir_all _ f) as [[u|e] f0]; [|done]. destruct (resolve_in_root _ _ _ f0) as [path|e]; [|done].
  destruct (write path _ f0) as [[[]|e] f1]; [|done].
  destruct (upsert_page _ _ _ db) as [[j db1]|e] eqn:Hu; [|done]. by eapply sourced_upsert in Hu.
Qed.
(** A source page written for a capture cites it. *)
Lemma write_sources (tenant i j : Uuid) (w : PageWrite) (db db' : Db) (f f' : F) :
  write_page' tenant w db f = (Ok j, db', f') -> w_type w = "source" -> w_source_ids w = [i] -> sourced tenant i db'.
Proof.
  intros Hw Ht Hi. unfold write_page in Hw. destruct (over_quota _ _ _); [done|].
  destruct (create_dir_all _ f) as [[u|e] f0]; [|done]. destruct (resolve_in_root _ _ _ f0) as [path|e]; [|done].
  destruct (write path _ f0) as [[[]|e] f1]; [|done].
  destruct (upsert_page _ _ _ db) as [[j0 db1]|e] eqn:Hu; [|done]. injection Hw as <- <- <-.
  unfold upsert_page, mirror in Hu. cbn [u_type] in Hu. rewrite Ht in Hu. destruct (parse "source"); [|done].
  destruct (find_first _ (pages db)) as [r|] eqn:Hf; injection Hu as <- <-.
  - apply find_first_some in Hf as [Hr Hk]. eexists. split; [apply list_elem_of_fmap; exists r; split; [reflexivity|done]|].
    rewrite Hk. unfold same_key in Hk. cbn [u_type u_slug] in Hk. bool_prop. apply cites_updated; [done..|].
    right. cbn [u_source_ids]. rewrite Hi. by left.
  - eexists. split; [apply elem_of_app; right; left|]. apply cites_true. unfold live. cbn [new_row tenant_id deleted type_ source_ids u_type u_source_ids].
    rewrite Hi, N.eqb_refl. split_and!; [done..|by left].
Qed.

Context {L : Type} `{Unicode}.
Context (create_message : Uuid -> WikiReq -> L -> result Analyzer.WikiLlmError Analyzer.WikiResp * L).
Lemma sourced_advance (t idea tenant i : Uuid) (item : Item) (p : Phase) (e : @Env F L) :
  sourced tenant i (fst (fst e)) ->
  sourced tenant i (fst (fst (snd (advance sha256_hex new_id vault_root quota create_message t idea item p e)))).
Proof.
  destruct e as [[db f] l]. cbn [fst]. intros Hs. destruct p; cbn [advance]; try done.
  - by destruct (ask_text _ _ _ l) as [[body|m] l1].
  - by repeat case_match.
  - unfold write_new, write_at. match goal with |- context [write_page _ _ _ _ ?a ?w db f] =>
      pose proof (sourced_write a tenant i w db f Hs) as Hw end. by destruct (write_page' _ _ db f) as [[[j|m] db1] f1].
  - by repeat case_match.
  - destruct (llm_merge _ _ _ _ l) as [[new|m] l1]; [|done]. by destruct (String.eqb _ _).
  - unfold merged_with, write_at. match goal with |- context [write_page _ _ _ _ ?a ?w db f] =>
      pose proof (sourced_write a tenant i w db f Hs) as Hw end. by destruct (write_page' _ _ db f) as [[[j|m] db1] f1].
Qed.
Lemma sourced_items (t idea tenant i : Uuid) (n : nat) (pick : @Sys F L -> nat) (items : list Item) (e : @Env F L) :
  sourced tenant i (fst (fst e)) ->
  sourced tenant i (fst (fst (env (run_items sha256_hex new_id vault_root quota create_message t idea n pick items e)))).
Proof.
  intros Hs. unfold run_items.
  refine (drive_keeps sha256_hex new_id vault_root quota create_message t idea (fun s => sourced tenant i (fst (fst (env s)))) n pick _ _ (start items e) Hs).
  intros k s s' Hk (it & p & p' & _ & _ & _ & _ & _ & _ & Hcase)%step_some.
  destruct Hcase as [(_ & _ & _ & ->)|[_ Ha]]; [done|]. pose proof (sourced_advance t idea tenant i it p (env s) Hk) as Hd. by rewrite Ha in Hd.
Qed.
End Sources.

(** ** What the handler leaves *)
Section Stages.
Context {F L : Type} `{Os F} `{Unicode} `{Json} (sha256_hex : string -> string) (new_id : Db -> Uuid).
Context (vault_root : Path) (quota : TenantQuota).
Context (create_message : Uuid -> WikiReq -> L -> result Analyzer.WikiLlmError Analyzer.WikiResp * L).
Context (check_ledger : Uuid -> Uuid -> L -> result Guard.CostError unit * L).
Context (sa_from_value : Value -> option Analyzer.SourceAnalysis) (item_from_value : Value -> option Analyzer.ItemInfo).
Context (contradictions_from_value : Value -> option (list Analyzer.ContradictionInfo)).
Context (sa_to_value : Analyzer.SourceAnalysis -> Value).
Context (updated : PageRow -> Z) (now stamp : Z).
Context (concurrency : nat) (language : string) (source_tags : list string).
Context (cancelled : nat -> bool) (pick : @Sys F (L * list Ev) -> nat).
#[local] Abbreviation run' := (run sha256_hex new_id vault_root quota create_message check_ledger sa_from_value
  item_from_value contradictions_from_value sa_to_value updated now stamp concurrency language source_tags
  cancelled pick).

(** A stage loses no citation of [i]; from a state of [P] it answers with a state of [Q]. *)
Definition grows (tenant i : Uuid) {A} (f : @M F L A) : Prop :=
  forall s, sourced tenant i (s_db s) -> sourced tenant i (s_db (snd (f s))).
Definition gives {A} (P : @St F L -> Prop) (Q : A -> @St F L -> Prop) (f : @M F L A) : Prop :=
  forall s, P s -> match fst (f s) with Ret a => Q a (snd (f s)) | _ => True end.

Lemma grows_bind (tenant i : Uuid) {A B} (f : @M F L A) (g : A -> @M F L B) :
  grows tenant i f -> (forall a, grows tenant i (g a)) -> grows tenant i (bind f g).
Proof.
  intros Hf Hg s Hs. specialize (Hf s Hs). unfold bind. destruct (f s) as [[a|e|] s1]; [by apply Hg|done..].
Qed.
Lemma gives_bind {A B} (P : @St F L -> Prop) (R : A -> @St F L -> Prop) (Q : B -> @St F L -> Prop) (f : @M F L A)
  (g : A -> @M F L B) : gives P R f -> (forall a, gives (R a) Q (g a)) -> gives P Q (bind f g).
Proof.
  intros Hf Hg s Hs. specialize (Hf s Hs). unfold bind. destruct (f s) as [[a|e|] s1]; [by apply Hg|done..].
Qed.
Lemma gives_any {A} (f : @M F L A) : gives (fun _ => True) (fun _ _ => True) f.
Proof. intros s _. by destruct (fst (f s)). Qed.
Lemma grows_gives (tenant i : Uuid) {A} (f : @M F L A) :
  grows tenant i f -> gives (fun s => sourced tenant i (s_db s)) (fun _ s => sourced tenant i (s_db s)) f.
Proof. intros Hf s Hs. specialize (Hf s Hs). by destruct (fst (f s)). Qed.

(** The stages that only call keep the tables. *)
Lemma grows_keeps (tenant i : Uuid) {A} (f : @M F L A) : keeps same_tables f -> grows tenant i f.
Proof. intros Hf s Hs. destruct (Hf s s) as (-> & _); [by repeat split|done]. Qed.
#[local] Hint Resolve grows_keeps keeps_check keeps_ask keeps_index keeps_redundant keeps_analyze keeps_queue gives_any : core.
Lemma grows_state (tenant i t j : Uuid) (st : string) : grows tenant i (@set_ingest_state F L now t j st).
Proof. intros s Hs. unfold set_ingest_state. by destruct (IdeasRepo.set_ingest_state _ _ _ _ _). Qed.
Lemma grows_items (tenant i t : Uuid) (x : IdeaInput) (items : list Item) :
  grows tenant i (write_items sha256_hex new_id vault_root quota create_message concurrency pick t x items).
Proof.
  intros s Hs. unfold write_items.
  pose proof (sourced_items sha256_hex new_id vault_root quota (logged create_message) t (idea x) tenant i concurrency pick
    items (s_db s, s_files s, s_llm s) Hs) as Hi. by destruct (env _) as [[db f] l].
Qed.
Lemma grows_source (tenant i t : Uuid) (x : IdeaInput) (p : string * string * string) (body : string) :
  grows tenant i (write_source sha256_hex new_id vault_root quota source_tags t x p body).
Proof.
  intros s Hs. unfold write_source. destruct p as [[ti sl] sm].
  match goal with |- context [write_page _ _ _ _ ?a ?w ?db ?f] =>
    pose proof (sourced_write sha256_hex new_id vault_root quota a tenant i w db f Hs) as Hw end.
  by destruct (write_page _ _ _ _ _ _ _ _) as [[r db] f].
Qed.
Lemma gives_source (tenant : Uuid) (x : IdeaInput) (p : string * string * string) (body : string) :
  gives (fun _ => True) (fun _ s => sourced tenant (idea x) (s_db s))
    (write_source sha256_hex new_id vault_root quota source_tags tenant x p body).
Proof.
  intros s _. unfold write_source. destruct p as [[ti sl] sm].
  destruct (write_page _ _ _ _ _ _ _ _) as [[[j|e] db] f] eqn:Hw; [|done]. by eapply write_sources; [exact Hw|..].
Qed.
#[local] Hint Resolve grows_state grows_items grows_source : core.

(** A run loses no citation, and one that ingests leaves the source page of its capture. *)
Lemma grows_run (tenant i t user : Uuid) (x : IdeaInput) : grows tenant i (run' t user x).
Proof.
  unfold run. cbv zeta.
  repeat first [apply grows_bind; [solve [auto|intros s Hs; exact Hs]|intros ?]|case_bool|intros s Hs; exact Hs].
Qed.
Lemma run_sources (tenant user : Uuid) (x : IdeaInput) :
  gives (fun _ => True) (fun rep s => skipped_redundant rep = false -> sourced tenant (idea x) (s_db s)) (run' tenant user x).
Proof.
  unfold run. do 2 (eapply gives_bind; [apply gives_any|intros ?]). eapply gives_bind; [apply gives_any|intros [|]].
  { intros s _. unfold bind. by destruct (set_ingest_state _ _ _ _ s) as [[?|?|] ?]. }
  do 5 (eapply gives_bind; [apply gives_any|intros ?]). cbv zeta. eapply gives_bind; [apply gives_source|intros src].
  eapply gives_bind; [by apply grows_gives; auto|intros items]. eapply gives_bind; [by apply grows_gives; auto|intros outs].
  eapply gives_bind; [by apply grows_gives; auto|intros ?]. eapply gives_bind; [by apply grows_gives; auto|intros ?].
  intros s Hs _. exact Hs.
Qed.
End Stages.

(** The marks of an ingest on its capture. *)
Definition marked (now stamp : Z) (redundant : bool) (r : IdeaRow) : IdeaRow :=
  if redundant then set_state now SkippedRedundant r else set_stamp stamp (set_state now Ingested r).
Lemma own_marked (tenant i : Uuid) (now stamp : Z) (b : bool) (r : IdeaRow) : own tenant i (marked now stamp b r) = own tenant i r.
Proof. by destruct b. Qed.

Lemma find_update (p q : IdeaRow -> bool) (f : IdeaRow -> IdeaRow) (l : list IdeaRow) :
  (forall r, p (f r) = p r) ->
  find_first p (update_ideas q f l) = (fun r => if q r then f r else r) <$> find_first p l.
Proof.
  intros Hp. induction l as [|r l IH]; [done|]. cbn. destruct (q r) eqn:Hq.
  - rewrite Hp. destruct (p r); cbn; [by rewrite Hq|exact IH].
  - destruct (p r); cbn; [by rewrite Hq|exact IH].
Qed.
Lemma update_twice (q : IdeaRow -> bool) (f g : IdeaRow -> IdeaRow) (l : list IdeaRow) :
  (forall r, q (f r) = q r) -> update_ideas q g (update_ideas q f l) = update_ideas q (fun r => g (f r)) l.
Proof.
  intros Hq. unfold update_ideas. rewrite <- list_fmap_compose. apply list_fmap_ext. intros k r _. cbn.
  destruct (q r) eqn:E; [by rewrite Hq, E|by rewrite E].
Qed.

(** The capture a job names. *)
Definition named (parse_uuid : string -> option Uuid) (v : Value) : option Uuid :=
  (Json.get "idea_id" v ≫= Json.as_str) ≫= parse_uuid.

Section Handling.
Context {F L : Type} `{Os F} `{Unicode} `{Json} (sha256_hex : string -> string) (new_id : Db -> Uuid).
Context (quota : TenantQuota).
Context (create_message : Uuid -> WikiReq -> L -> result Analyzer.WikiLlmError Analyzer.WikiResp * L).
Context (check_ledger : Uuid -> Uuid -> L -> result Guard.CostError unit * L).
Context (sa_from_value : Value -> option Analyzer.SourceAnalysis) (item_from_value : Value -> option Analyzer.ItemInfo).
Context (contradictions_from_value : Value -> option (list Analyzer.ContradictionInfo)).
Context (sa_to_value : Analyzer.SourceAnalysis -> Value).
Context (updated : PageRow -> Z).
Context (pick : @Sys F (L * list Ev) -> nat).
Context (parse_uuid : string -> option Uuid) (uuid_text : Uuid -> string).
Context (read_clock : L -> Z * L).
#[local] Abbreviation handle' := (Handler.handle sha256_hex new_id quota create_message check_ledger sa_from_value item_from_value
  contradictions_from_value sa_to_value updated).
#[local] Abbreviation ingest_handler' := (ingest_handler sha256_hex new_id quota create_message check_ledger sa_from_value
  item_from_value contradictions_from_value sa_to_value updated pick parse_uuid uuid_text read_clock).

(** A job that is done has marked the capture it names and told in its result which way; any other end leaves the
    captures as they were. *)
Lemma handle_marks (now stamp : Z) (h : Handler.IngestHandler) (job : JobContext) (s : @St F L) :
  let '(r, s') := handle' now stamp pick parse_uuid uuid_text h job s in
  (forall t i, sourced t i (s_db s) -> sourced t i (s_db s')) /\
  match r with
  | Ret v => exists i b, named parse_uuid (ctx_payload job) = Some i /\ Json.get "skipped_redundant" v = Some (Bool b) /\
      s_ideas s' = update_ideas (own (ctx_tenant job) i) (marked now stamp b) (s_ideas s) /\
      (b = false -> sourced (ctx_tenant job) i (s_db s'))
  | _ => s_ideas s' = s_ideas s
  end.
Proof.
  unfold Handler.handle. fold (named parse_uuid (ctx_payload job)). destruct (named _ _) as [i|] eqn:Hi; [|done].
  destruct (Handler.load_idea _ i s) as [[[user body] org]|e]; [|done].
  destruct (Handler.vault_root uuid_text h (ctx_tenant job) s) as [root s1] eqn:Hv.
  assert (s_db s1 = s_db s /\ s_ideas s1 = s_ideas s) as [Hdb Hid] by (unfold Handler.vault_root in Hv; by injection Hv as <- <-).
  rewrite <- Hdb, <- Hid. clear Hdb Hid Hv s. set (x := Build_IdeaInput _ _ _).
  match goal with |- context [run _ _ _ _ _ _ _ _ _ _ _ _ _ ?n ?lg ?tags ?cn ?pk ?t ?u x s1] =>
    pose proof (ends_run sha256_hex new_id root quota create_message check_ledger sa_from_value item_from_value
      contradictions_from_value sa_to_value updated now stamp n lg tags cn pk t u x s1 s1 ltac:(by repeat split)) as He;
    pose proof (fun t' i' => grows_run sha256_hex new_id root quota create_message check_ledger sa_from_value item_from_value
      contradictions_from_value sa_to_value updated now stamp n lg tags cn pk t' i' t u x s1) as Hg;
    pose proof (run_sources sha256_hex new_id root quota create_message check_ledger sa_from_value item_from_value
      contradictions_from_value sa_to_value updated now stamp n lg tags cn pk t u x s1 I) as Hs;
    destruct (run sha256_hex new_id root quota create_message check_ledger sa_from_value item_from_value
      contradictions_from_value sa_to_value updated now stamp n lg tags cn pk t u x s1) as [[rep|e|] s2]
  end; cbn [fst snd] in *; (split; [exact Hg|]); [|exact He..].
  exists i, (skipped_redundant rep). split; [done|]. split; [done|]. split; [|exact Hs]. unfold run_left in He.
  destruct (skipped_redundant rep); [by destruct He as (_ & _ & _ & ->)|]. destruct He as [_ ->]. by rewrite update_twice.
Qed.

(** The same of the handler over the world; what it answers after a panic is not looked at. *)
Lemma handler_marks (h : Handler.IngestHandler) (job : JobContext) (w : @World F L) :
  let '(r, w') := ingest_handler' h job w in
  (forall t i, sourced t i (s_db (w_st w)) -> sourced t i (s_db (w_st w'))) /\
  (w_panicked w' = true -> is_ok r = false) /\
  match r with
  | Ok v => exists i b now stamp, named parse_uuid (ctx_payload job) = Some i /\ Json.get "skipped_redundant" v = Some (Bool b) /\
      s_ideas (w_st w') = update_ideas (own (ctx_tenant job) i) (marked now stamp b) (s_ideas (w_st w)) /\
      (b = false -> sourced (ctx_tenant job) i (s_db (w_st w')))
  | Err _ => s_ideas (w_st w') = s_ideas (w_st w)
  end.
Proof.
  unfold ingest_handler. destruct (clock _ w) as [now w1] eqn:Hc1. destruct (clock _ w1) as [stamp w2] eqn:Hc2.
  assert (s_db (w_st w2) = s_db (w_st w) /\ s_ideas (w_st w2) = s_ideas (w_st w)) as [<- <-].
  { unfold clock in *. destruct (read_clock _) in Hc1. injection Hc1 as <- <-. destruct (read_clock _) in Hc2. by injection Hc2 as <- <-. }
  pose proof (handle_marks now stamp h job (w_st w2)) as Hm.
  destruct (handle' now stamp pick parse_uuid uuid_text h job (w_st w2)) as [[v|e|] s]; cbn; [|by split_and!; try apply Hm..].
  destruct Hm as (Hg & i & b & Hm). split; [exact Hg|]. split; [done|]. by exists i, b, now, stamp.
Qed.

(** ** The fate of a capture's job *)
Context (tenant i job : Uuid) (r0 : IdeaRow) (now0 : Z).

(** The row of the capture, and what its job's row says of it. *)
Definition idea_row (s : @St F L) : option IdeaRow := find_first (own tenant i) (s_ideas s).
Definition fate (j : Job) (s : @St F L) : Prop :=
  match state j with
  | Jobs.Pending => attempt_count j < 5 /\ idea_row s = Some r0
  | Jobs.Failed => attempt_count j = 5 /\ idea_row s = Some r0
  | Done => exists v b now stamp, job_result j = Some v /\ Json.get "skipped_redundant" v = Some (Bool b) /\
      idea_row s = Some (marked now stamp b r0) /\ (b = false -> sourced tenant i (s_db s))
  | _ => False
  end.
Definition job_row (n : Z) (j : Job) : Prop :=
  Jobs.id j = job /\ Jobs.tenant_id j = tenant /\ named parse_uuid (payload j) = Some i /\ max_attempts j = 5 /\
  0 <= attempt_count j /\ n <= attempt_count j /\ (attempt_count j = 0 -> state j = Jobs.Pending /\ available_at j = now0).
(** The queue, whose one job of the capture was claimed [n] times at least. *)
Definition fated (n : Z) (t : Table) (s : @St F L) : Prop :=
  NoDup (ids t) /\ (forall k, k ∈ t -> Jobs.tenant_id k = tenant -> named parse_uuid (payload k) = Some i -> Jobs.id k = job) /\
  exists j, j ∈ t /\ job_row n j /\ fate j s.

Lemma fated_table (n : Z) (p : Job -> bool) (f : Job -> Job) (t : Table) (s : @St F L) :
  (forall j, Jobs.id (f j) = Jobs.id j /\ Jobs.tenant_id (f j) = Jobs.tenant_id j /\ payload (f j) = payload j) ->
  (forall j, j ∈ t -> job_row n j -> fate j s -> p j = false) ->
  fated n t s -> fated n (update_where p f t) s.
Proof.
  intros Hf Hp (Hnd & Honly & j & Hj & Hr & Hs). split; [|split].
  - by rewrite update_where_ids; [|apply Hf].
  - intros k (x & Hx & ->)%elem_of_update_where. destruct (Hf x) as (E1 & E2 & E3).
    destruct (p x); [rewrite E1, E2, E3|]; by apply Honly.
  - exists j. split; [|done]. apply elem_of_update_where. exists j. by rewrite (Hp j Hj Hr Hs).
Qed.
Lemma fated_state (n : Z) (t : Table) (s s' : @St F L) :
  idea_row s' = idea_row s -> (sourced tenant i (s_db s) -> sourced tenant i (s_db s')) -> fated n t s -> fated n t s'.
Proof.
  intros Hi Hg (Hnd & Honly & j & Hj & Hr & Hs). split; [done|]. split; [done|]. exists j. split; [done|]. split; [done|].
  unfold fate in *. rewrite Hi. destruct (state j); try done.
  destruct Hs as (v & b & now & stamp & E1 & E2 & E3 & E4). exists v, b, now, stamp. split_and!; auto.
Qed.
Lemma fated_less (n m : Z) (t : Table) (s : @St F L) : m <= n -> fated n t s -> fated m t s.
Proof.
  intros Hm (Hnd & Honly & j & Hj & Hr & Hs). split; [done|]. split; [done|]. exists j. split; [done|]. split; [|done].
  unfold job_row in *. split_and!; try tauto. lia.
Qed.

#[local] Abbreviation registry' := (registry sha256_hex new_id quota create_message check_ledger sa_from_value
  item_from_value contradictions_from_value sa_to_value updated pick parse_uuid uuid_text read_clock).
#[local] Abbreviation pass' := (pass sha256_hex new_id quota create_message check_ledger sa_from_value
  item_from_value contradictions_from_value sa_to_value updated pick parse_uuid uuid_text read_clock).
#[local] Abbreviation drain' := (drain sha256_hex new_id quota create_message check_ledger sa_from_value
  item_from_value contradictions_from_value sa_to_value updated pick parse_uuid uuid_text read_clock).
#[local] Abbreviation tick' := (tick sha256_hex new_id quota create_message check_ledger sa_from_value
  item_from_value contradictions_from_value sa_to_value updated pick parse_uuid uuid_text read_clock).

Lemma clock_st (w w' : @World F L) (now : Z) :
  clock read_clock w = (now, w') -> s_db (w_st w') = s_db (w_st w) /\ s_ideas (w_st w') = s_ideas (w_st w) /\
  exists l, now = fst (read_clock l).
Proof.
  unfold clock. destruct (read_clock _) as [z l] eqn:Hc. intros [= <- <-]. split_and!; [done..|].
  exists (fst (s_llm (w_st w))). by rewrite Hc.
Qed.
Lemma fated_clock (n : Z) (t : Table) (w w' : @World F L) (now : Z) :
  clock read_clock w = (now, w') -> fated n t (w_st w) -> fated n t (w_st w').
Proof. intros (Hd & Hi & _)%clock_st. apply fated_state; [unfold idea_row; by rewrite Hi|by rewrite Hd]. Qed.

(** The claim of the capture's own job: its row becomes what the handler's answer says. *)
Lemma own_settled (n now : Z) (worker : string) (r : result string Value) (j : Job) (t : Table) (s s' : @St F L) :
  fated n t s -> j ∈ t -> Jobs.id j = job -> state j = Jobs.Pending ->
  match r with
  | Ok v => exists b now stamp, Json.get "skipped_redundant" v = Some (Bool b) /\
      s_ideas s' = update_ideas (own tenant i) (marked now stamp b) (s_ideas s) /\ (b = false -> sourced tenant i (s_db s'))
  | Err _ => s_ideas s' = s_ideas s
  end ->
  fated (Z.max n 1) (update_where (visible tenant job) (processed_row now worker r) t) s'.
Proof.
  intros (Hnd & Honly & x & Hx & Hr & Hf) Hj Hid Hst Hm. pose proof Hr as (R1 & R2 & R3 & R4 & R5 & R6 & R7).
  assert (x = j) as -> by (apply (ids_inj t); [done..|congruence]). clear Hx.
  unfold fate in Hf. rewrite Hst in Hf. destruct Hf as [Ha Hrow].
  assert (forall y, Jobs.id (processed_row now worker r y) = Jobs.id y /\ Jobs.tenant_id (processed_row now worker r y) = Jobs.tenant_id y /\
    payload (processed_row now worker r y) = payload y) as Hsame by (intros y; by destruct r).
  split; [by rewrite update_where_ids; [|apply Hsame]|]. split.
  - intros k (y & Hy & ->)%elem_of_update_where. destruct (Hsame y) as (E1 & E2 & E3).
    destruct (visible tenant job y); [rewrite E1, E2, E3|]; by apply Honly.
  - exists (processed_row now worker r j). split.
    { apply elem_of_update_where. exists j. split; [done|]. by rewrite (proj2 (visible_true _ _ _) (conj R2 R1)). }
    unfold job_row, fate, idea_row in *. destruct r as [v|e]; cbn [processed_row Sched.after].
    + split; [cbn; split_and!; try done; lia|]. cbn [done_row state job_result]. destruct Hm as (b & nw & sp & M1 & M2 & M3).
      exists v, b, nw, sp. split; [done|]. split; [done|]. split; [|done]. rewrite M2, find_update by (intros; apply own_marked).
      rewrite Hrow. cbn. apply find_first_some in Hrow as [_ Ho]. by rewrite Ho.
    + split; [cbn; split_and!; try done; try lia; intros; lia|]. unfold processed_row, Sched.after, retry_row, settle_row, retry_state, lease.
      cbn [state attempt_count max_attempts]. rewrite R4, Hm. destruct (Z.leb_spec 5 (attempt_count j + 1)); cbn; split; try done; lia.
Qed.

(** A pass keeps the fate; it leaves less to do; and one that finds nothing, late enough, has claimed the job. *)
Lemma pass_fated (n : Z) (h : Handler.IngestHandler) (tn : Uuid) (worker : string) (t : Table) (w : @World F L) :
  fated n t (w_st w) ->
  let '(p, w') := pass' h tn worker t w in
  match p with
  | Idle => fated n t (w_st w') /\ (tn = tenant -> (forall l, now0 <= fst (read_clock l)) -> fated 1 t (w_st w'))
  | Settled _ t' => fated n t' (w_st w') /\ (potential tn t' < potential tn t)%nat
  | Unwound => fated n t (w_st w')
  end.
Proof.
  intros Hf. pose proof Hf as (Hnd & Honly & j0 & Hj0 & Hr0 & Hs0).
  unfold pass. change (handler_for (registry' h) Ingest) with (ingest_handler' h).
  pose proof (run_pass_exact (clock read_clock) tn Ingest worker (ingest_handler' h) t w Hnd) as Hp.
  destruct (run_pass _ _ _ _ _ t w) as [[[t' c]|] w'].
  - destruct Hp as (now & j & r & w1 & Hc & Hj & <- & Hcl & _ & Hh & ->). apply claimable_true in Hcl as (Ht & _ & Hst & _ & _).
    pose proof (fated_clock n t w w1 now Hc Hf) as Hf1. pose proof (handler_marks h (context_of tn Ingest (Jobs.id j) (lease now worker j)) w1) as Hm.
    rewrite Hh in Hm. destruct Hm as (Hg & Hpan & Hm). cbn [context_of ctx_payload ctx_tenant lease payload] in Hm.
    destruct (w_panicked w').
    { destruct r; [by specialize (Hpan eq_refl)|]. eapply fated_state; [|apply Hg|exact Hf1]. unfold idea_row. by rewrite Hm. }
    split; [|pose proof (sum_update (cost tn) tn (processed_row now worker r) t j Hnd Hj Ht);
      pose proof (cost_processed now tn worker r j Ht Hst); unfold potential; lia].
    destruct (decide (Jobs.id j = job)) as [Hjob|Hjob].
    + assert (j0 = j) as -> by (apply (ids_inj t); [done..|destruct Hr0; congruence]).
      destruct Hr0 as (_ & R2 & R3 & _). assert (tn = tenant) as -> by congruence. rewrite Hjob.
      apply (fated_less (Z.max n 1)); [lia|]. eapply own_settled; [exact Hf1|done..|].
      destruct r as [v|e]; [|exact Hm]. destruct Hm as (i' & b & nw & sp & M1 & M2 & M3 & M4).
      assert (i' = i) as -> by congruence. by exists b, nw, sp.
    + apply fated_table; [intros y; by destruct r| |].
      * intros y Hy Hry _. apply not_true_iff_false. intros [Hv1 Hv2]%visible_true. destruct Hry as (Y1 & _). congruence.
      * eapply fated_state; [|apply Hg|exact Hf1]. unfold idea_row. destruct r as [v|e]; [|by rewrite Hm].
        destruct Hm as (i' & b & nw & sp & M1 & M2 & -> & M4). rewrite find_update by (intros; apply own_marked).
        destruct (find_first (own tenant i) _) as [x|] eqn:Hx; [|done]. cbn. apply find_first_some in Hx as [_ Hx].
        destruct (own tn i' x) eqn:Ho; [|done]. unfold own in Hx, Ho. bool_prop. rewrite N.eqb_eq in *.
        exfalso. apply Hjob, Honly; [done|congruence|]. rewrite M1. congruence.
  - destruct Hp as (now & Hc & Hno). split; [by eapply fated_clock|]. intros -> Hlate.
    destruct (clock_st w w' now Hc) as (_ & _ & l & Hl).
    eapply fated_clock; [exact Hc|]. split; [done|]. split; [done|]. exists j0. split; [done|]. split; [|done].
    destruct Hr0 as (R1 & R2 & R3 & R4 & R5 & R6 & R7). split_and!; try done. specialize (Hno j0 Hj0).
    destruct (Z.eq_dec (attempt_count j0) 0) as [H0'|]; [|lia]. destruct (R7 H0') as [Hst Hav]. exfalso.
    specialize (Hlate l). assert (claimable [] now tenant tenant j0 = true) as Hyes; [|congruence].
    unfold claimable, rls, is_state. rewrite R2, N.eqb_refl, Hst, bool_decide_eq_true_2 by done. cbn.
    rewrite (proj2 (Z.leb_le _ _)) by lia. done.
Qed.

(** With fuel for what is left to do the drain ends, and it keeps the fate. *)
Lemma drain_ends (h : Handler.IngestHandler) (tn : Uuid) (worker : string) (fuel : nat) (n : Z) (t : Table) (w : @World F L) :
  (potential tn t < fuel)%nat -> fated n t (w_st w) ->
  exists u t' w', drain' h fuel tn worker t w = Some (u, t', w') /\ fated n t' (w_st w') /\
    (u = false -> tn = tenant -> (forall l, now0 <= fst (read_clock l)) -> fated 1 t' (w_st w')).
Proof.
  revert t w. induction fuel as [|fuel IH]; intros t w Hf Hs; [lia|]. cbn [drain].
  pose proof (pass_fated n h tn worker t w Hs) as Hp. destruct (pass' h tn worker t w) as [[|c t'|] w'].
  - destruct Hp as [H1' H2']. by exists false, t, w'.
  - destruct Hp as [H1' H2']. apply IH; [lia|done].
  - by exists true, t, w'.
Qed.

Lemma reclaim_fated (n now : Z) (tn : Uuid) (t : Table) (s : @St F L) :
  fated n t s -> fated n (snd (reclaim_stale now tn t)) s.
Proof.
  intros Hs. apply fated_table; [done| |exact Hs]. intros j _ _ Hf. unfold stale, is_state.
  unfold fate in Hf. destruct (state j); cbn; try (by rewrite !andb_false_r); done.
Qed.

Lemma tick_ends (h : Handler.IngestHandler) (g : WorkerGates) (worker : string) (tenants : list Uuid) (n : Z) (t : Table) (w : @World F L) :
  fated n t (w_st w) ->
  exists u t' w', tick' h g worker tenants t w = Some (u, t', w') /\ fated n t' (w_st w') /\
    (u = false -> enabled g Ingest = true -> tenant ∈ tenants -> (forall l, now0 <= fst (read_clock l)) -> fated 1 t' (w_st w')).
Proof.
  revert n t w. induction tenants as [|tn tenants IH]; intros n t w Hs; cbn [tick].
  - exists false, t, w. split; [done|]. split; [done|]. intros _ _ Hin. by apply elem_of_nil in Hin.
  - destruct (clock read_clock w) as [now w1] eqn:Hc. pose proof (reclaim_fated n now tn t _ (fated_clock n t w w1 now Hc Hs)) as H1'.
    set (t1 := snd (reclaim_stale now tn t)) in *. destruct (enabled g Ingest) eqn:Hg.
    + destruct (drain_ends h tn worker _ n t1 w1 (Nat.lt_succ_diag_r _) H1') as (u & t2 & w2 & -> & H2' & H3').
      destruct u; [by exists true, t2, w2|].
      destruct (IH n t2 w2 H2') as (u & t3 & w3 & He & H4' & H5'). exists u, t3, w3. split; [done|]. split; [done|].
      intros Hu _ Hin Hlate. apply elem_of_cons in Hin as [->|Hin]; [|by apply H5'].
      destruct (IH 1 t2 w2 (H3' eq_refl eq_refl Hlate)) as (u' & t3' & w3' & He' & H6' & _).
      rewrite He in He'. by injection He' as <- <- <-.
    + destruct (IH n t1 w1 H1') as (u & t3 & w3 & He & H4' & _). by exists u, t3, w3.
Qed.

#[local] Abbreviation pool_run' := (pool_run sha256_hex new_id quota create_message check_ledger sa_from_value
  item_from_value contradictions_from_value sa_to_value updated pick parse_uuid uuid_text read_clock).
(** Whatever ticks come, the pool keeps the fate; and the job was claimed if a worker that still runs had a tick
    over its tenant. *)
Lemma pool_ends (h : Handler.IngestHandler) (g : WorkerGates) (ticks : list (string * list Uuid)) (n : Z) (p : Pool F L) :
  fated n (p_jobs p) (w_st (p_world p)) ->
  exists p', pool_run' h g ticks p = Some p' /\ fated n (p_jobs p') (w_st (p_world p')) /\
    (forall x, x ∈ p_alive p' -> x ∈ p_alive p) /\
    (enabled g Ingest = true -> (forall l, now0 <= fst (read_clock l)) ->
     (exists worker tenants, (worker, tenants) ∈ ticks /\ tenant ∈ tenants /\ worker ∈ p_alive p') ->
     fated 1 (p_jobs p') (w_st (p_world p'))).
Proof.
  revert n p. induction ticks as [|[worker tenants] ticks IH]; intros n p Hs; cbn [pool_run].
  { exists p. split_and!; try done. intros _ _ (x & y & Hin & _). by apply elem_of_nil in Hin. }
  unfold pool_tick. cbn [fst snd]. case_bool_decide as Ha.
  - destruct (tick_ends h g worker tenants n (p_jobs p) (p_world p) Hs) as (u & t1 & w1 & -> & H1' & H2'). cbn [mbind option_bind].
    set (p1 := {| p_alive := _; p_jobs := t1; p_world := w1 |}).
    destruct (IH n p1 H1') as (p' & He & H3' & H4' & H5'). exists p'. split; [done|]. split; [done|].
    assert (forall x, x ∈ p_alive p1 -> x ∈ p_alive p) as Hless.
    { intros x. cbn. destruct u; [|done]. by intros [_ ?]%list_elem_of_filter. }
    split; [auto|]. intros Hg Hlate (x & y & Hin & Ht & Hx). apply elem_of_cons in Hin as [[= -> ->]|Hin]; [|apply H5'; by eauto].
    destruct u.
    { apply H4' in Hx. cbn in Hx. by apply list_elem_of_filter in Hx as [? _]. }
    destruct (IH 1 p1 (H2' eq_refl Hg Ht Hlate)) as (p2 & He2 & H6' & _). congruence.
  - destruct (IH n p Hs) as (p' & He & H3' & H4' & H5'). exists p'. split_and!; try done.
    intros Hg Hlate (x & y & Hin & Ht & Hx). apply elem_of_cons in Hin as [[= -> ->]|Hin]; [|apply H5'; by eauto].
    by apply H4' in Hx.
Qed.
End Handling.

(** ** From the request to the page *)
Section Settling.
Context {F L : Type} `{Os F} `{Unicode} `{Json} (sha256_hex : string -> string) (new_id : Db -> Uuid).
Context (quota : TenantQuota).
Context (create_message : Uuid -> WikiReq -> L -> result Analyzer.WikiLlmError Analyzer.WikiResp * L).
Context (check_ledger : Uuid -> Uuid -> L -> result Guard.CostError unit * L).
Context (sa_from_value : Value -> option Analyzer.SourceAnalysis) (item_from_value : Value -> option Analyzer.ItemInfo).
Context (contradictions_from_value : Value -> option (list Analyzer.ContradictionInfo)).
Context (sa_to_value : Analyzer.SourceAnalysis -> Value).
Context (updated : PageRow -> Z).
Context (pick : @Sys F (L * list Ev) -> nat).
Context (parse_uuid : string -> option Uuid) (uuid_text : Uuid -> string).
Context (read_clock : L -> Z * L).
Context (append_line : Path -> string -> F -> result string unit * F).
Context (rfc3339 json_time : Z -> string) (parse_rfc3339 : string -> option Z) (pg_text : Value -> string).
Context (new_device : Log -> Uuid) (new_op : Z -> Uuid).
#[local] Abbreviation capture' :=
  (capture append_line uuid_text rfc3339 json_time parse_rfc3339 pg_text new_device new_op).
#[local] Abbreviation pool_run' := (pool_run sha256_hex new_id quota create_message check_ledger sa_from_value
  item_from_value contradictions_from_value sa_to_value updated pick parse_uuid uuid_text read_clock).

(** What a request that wrote has added to the captures and to the queue. *)
Lemma capture_queues (root : Path) (tenant user : Uuid) (now wall_ms : Z) (i new_job : Uuid) (header : option string)
  (req : CaptureParams) (t0 t t' : Tables) (f f' : F) (res : CaptureResult) :
  capture' root tenant user now wall_ms i new_job header req t0 t f = (Ok res, t', f') -> t' <> t ->
  (exists r0, t_ideas t' = t_ideas t ++ [r0] /\ own tenant i r0 = true /\ i_active r0 = true /\ i_state r0 = Ideas.Pending /\
     i_body r0 = Untrusted.escape_reserved_tags (unwrap_or (Capture.c_body req) "") /\ i_origin r0 = Capture.c_origin req) /\
  existsb (fun r => N.eqb (i_id r) i) (t_ideas t) = false /\
  enqueue pg_text now tenant new_job tenant (Some user) Ingest (obj [("idea_id", String_ (uuid_text i))])
    (Some ("ingest:" +:+ uuid_text i)) (t_jobs t) = (Ok (ingest_job_id res), t_jobs t').
Proof.
  unfold capture. destruct (idem_key header ≫= _); [by intros [= <- <- <-]|]. unfold capture_new.
  destruct (append_capture _ _ _ _ _ _ _ _ _) as [[log_ref|e] f1]; [|done].
  destruct (insert_capture _ _ _ _ _ _ _ _ _ _ _ _ _ _ _ _ _) as [[res' t1]|e] eqn:Hi; [|done]. cbn [commit].
  intros [= -> -> ->] Hne. revert Hi. unfold insert_capture. destruct (negb (idea_kind _)); [done|].
  destruct (match idem_key header with Some key => existsb (by_key tenant key) (t_ideas t) | None => false end) eqn:Hk; cbn [negb andb].
  - destruct (idem_key header) as [key|]; [|done]. rewrite existing_find in Hk. cbn [mbind option_bind].
    destruct (existing tenant key (t_ideas t)); [|done]. by intros [= <- <-].
  - destruct (existsb _ (t_ideas t)) eqn:Hid; [done|]. unfold enqueue_ingest.
    destruct (enqueue _ _ _ _ _ _ _ _ _ _) as [[job|e] jobs] eqn:Hq; cbn [and_then]; [|done].
    destruct (emit _ _ _ _ _ _ _ _ _) as [t2|e] eqn:He; cbn [and_then]; [|done]. intros [= <- <-].
    apply emit_ok in He as [Ht _]. rewrite Ht. cbn [t_ideas t_jobs with_log with_ideas with_jobs ingest_job_id].
    split; [|by split]. rewrite update_fresh by done. eexists. split; [reflexivity|].
    unfold own. cbn. by rewrite !N.eqb_refl.
Qed.

(** The job that was queued, with its capture as it was taken. *)
Lemma queued_fated (tenant user : Uuid) (now : Z) (i new_job job : Uuid) (r0 : IdeaRow) (jobs jobs' : Table) (s : @St F L) :
  enqueue pg_text now tenant new_job tenant (Some user) Ingest (obj [("idea_id", String_ (uuid_text i))])
    (Some ("ingest:" +:+ uuid_text i)) jobs = (Ok job, jobs') ->
  NoDup (ids jobs) -> (forall k, k ∈ jobs -> named parse_uuid (payload k) <> Some i /\
     debounce_ref_of pg_text (payload k) <> Some ("ingest:" +:+ uuid_text i)) ->
  parse_uuid (uuid_text i) = Some i -> find_first (own tenant i) (s_ideas s) = Some r0 ->
  fated parse_uuid tenant i job r0 now 0 jobs' s.
Proof.
  intros Hq Hids Hfresh Hparse Hrow. apply enqueue_ok in Hq as (_ & _ & [[-> Hf]|(_ & -> & Hnew & ->)]).
  - destruct (find_first _ jobs) as [k|] eqn:Hk; [|done]. apply find_first_some in Hk as [Hk Hd]. destruct (Hfresh k Hk) as [_ Hno].
    unfold debounces in Hd. apply andb_true_iff in Hd as [_ Hd]. destruct (debounce_ref_of _ _) as [x|]; [|done].
    apply String.eqb_eq in Hd as ->. by destruct Hno.
  - set (j := fresh_job _ _ _ _ _ _). split; [|split].
    + unfold ids. rewrite fmap_app. apply NoDup_app. split; [exact Hids|]. split; [|apply NoDup_singleton].
      intros x Hx Hy. apply list_elem_of_singleton in Hy as ->. by apply Hnew.
    + intros k Hk Hk2 Hk3. apply elem_of_app in Hk as [Hk|Hk]; [by destruct (Hfresh k Hk)|]. by apply list_elem_of_singleton in Hk as ->.
    + exists j. split; [apply elem_of_app; right; by left|]. split; [|by split]. unfold job_row. cbn. split_and!; try done.
Qed.

(** A capture as it was taken is found by the digest. *)
Lemma taken_is_dirty (tenant i : Uuid) (r0 : IdeaRow) (l : list IdeaRow) :
  find_first (own tenant i) l = Some r0 -> i_active r0 = true -> i_state r0 = Ideas.Pending ->
  i ∈ IdeasRepo.select_dirty_for_ingest tenant l.
Proof.
  intros (Hr & Ho)%find_first_some Ha Hs. unfold own in Ho. bool_prop. rewrite N.eqb_eq in *. subst.
  apply list_elem_of_fmap. exists r0. split; [done|]. rewrite sort_by_perm. apply list_elem_of_filter. split; [|done].
  unfold IdeasRepo.dirty. by rewrite N.eqb_refl, Ha, Hs.
Qed.

End Settling.

(** ** Examples and witnesses *)
Definition DemoWorld : Type := Z * (nat * list string).
(** A clock that ticks from 100 on; the ledger and the model of [demo_handle]. *)
Definition demo_read (l : DemoWorld) : Z * DemoWorld := (Z.max 100 (fst l), (fst l + 1, snd l)).
Definition demo_parse (s : string) : option Uuid :=
  if String.eqb s "7" then Some 7%N else if String.eqb s "9" then Some 9%N else None.
Definition demo_ask (t : Uuid) (req : WikiReq) (l : DemoWorld) : result Analyzer.WikiLlmError Analyzer.WikiResp * DemoWorld :=
  let '(r, a) := scripted t req (snd (snd l)) in (r, (fst l, (fst (snd l), a))).
Definition demo_check (_ _ : Uuid) (l : DemoWorld) : result Guard.CostError unit * DemoWorld :=
  match fst (snd l) with
  | O => (Err (Guard.CeilingReached "spent"), l)
  | S n => (Ok tt, (fst l, (n, snd (snd l))))
  end.
Definition demo_pool_run :=
  @pool_run Files DemoWorld files_os ascii_only empty_json (fun s => s) next_id default_quota demo_ask demo_check
    (fun _ => Some rust_analysis) (fun _ => None) (fun _ => None) (fun _ => Null) (fun _ => 0)
    (fun s => length (results s)) demo_parse demo_uuid demo_read (Handler.handler_new ["data"])
    {| gate_ingest := true; gate_lint := false; gate_dream := false; gate_sync := false |}.
Definition demo_taken : result Errors.ApiError CaptureResult * Tables * Files :=
  @capture Files files_os append_files empty_json demo_uuid (fun _ => "") (fun _ => "") (fun _ => None)
    (fun _ => "") demo_device demo_op_id ["objects"] 1%N 2%N 100 0 7%N 8%N (Some "key") demo_capture_req no_tables no_tables [].
Definition demo_pool (jobs : Table) (ideas : list IdeaRow) (db : Db) (checks : nat) (answers : list string) : Pool Files DemoWorld :=
  {| p_alive := ["ingest-0"; "ingest-1"]; p_jobs := jobs;
     p_world := {| w_st := {| s_db := db; s_files := snd demo_taken; s_ideas := ideas; s_llm := ((100, (checks, answers)), []) |};
                   w_panicked := false |} |}.
Definition demo_start : nat -> list string -> Pool Files DemoWorld :=
  let t := snd (fst demo_taken) in demo_pool (t_jobs t) (t_ideas t) (t_wiki t).
Definition pool_view (p : option (Pool Files DemoWorld)) :=
  (fun p => (p_alive p, (fun j => (Jobs.id j, state j, attempt_count j)) <$> p_jobs p, i_state <$> s_ideas (w_st (p_world p)),
             (fun r => (type_ r, slug r)) <$> pages (s_db (w_st (p_world p))))) <$> p.

Example note_becomes_page :
  pool_view (demo_pool_run [("ingest-1", [1%N])] (demo_start 9 five_answers))
  = Some (["ingest-0"; "ingest-1"], [(8%N, Done, 1)], [Ideas.Ingested], [("source", "on-rust"); ("entity", "rust"); ("entity", "llvm")]).
Proof. vm_compute. reflexivity. Qed.
(** Over its ceiling the ingest fails, and waits half a minute for its next attempt. *)
Example ceiling_waits :
  pool_view (demo_pool_run [("ingest-1", [1%N]); ("ingest-0", [1%N])] (demo_start 0 []))
  = Some (["ingest-0"; "ingest-1"], [(8%N, Jobs.Pending, 1)], [Ideas.Pending], []).
Proof. vm_compute. reflexivity. Qed.
(** The catalog of tenant 3 is cut inside a character. Its one note ends the two workers of the pool, since the claim
    of a pass that is unwound is rolled back and not counted, and nobody is left to take the note of tenant 1. *)
Definition wide_page (n : nat) : PageRow := {|
  id := N.of_nat n; tenant_id := 3%N; slug := "rust"; title := "Rust2024"; aliases := []; tags := []; type_ := "entity";
  summary := Str.join "" (repeat "é" 150); reviewed := true; char_len := 0; body_ref := []; source_ids := []; content_hash := "h";
  sync_version := 1; deleted := false |}.
Definition poisoned : Pool Files DemoWorld :=
  let t := snd (fst demo_taken) in
  demo_pool (t_jobs t ++ [fresh_job 100 9%N 3%N None Ingest (obj [("idea_id", String_ "9")])])
    (t_ideas t ++ [new_idea 3%N 2%N 100 9%N None demo_capture_req "hi" "log" None])
    {| pages := wide_page <$> List.seq 0 90; links := [] |} 99 five_answers.
Example one_note_ends_the_pool :
  (fun p => (p_alive p, (fun j => (Jobs.id j, state j, attempt_count j)) <$> p_jobs p)) <$>
    demo_pool_run [("ingest-0", [3%N; 1%N]); ("ingest-1", [3%N; 1%N]); ("ingest-0", [1%N]); ("ingest-1", [1%N])] poisoned
  = Some ([], [(8%N, Jobs.Pending, 0); (9%N, Jobs.Pending, 0)]).
Proof. vm_compute. reflexivity. Qed.

